(* ===== verification/_CoqProject ===== *)
-Q . S2P
Prelude.v
SmallVector.v
Ring.v
BufferQueue.v
Gl.v
RendererConfig.v
TextureDraw.v
TextureResize.v
ColorBuffer.v
RenderState.v
Renderer.v
Handles.v
Ownership.v
Steps.v
Binding.v
Utils.v
IpConfig.v
Rect.v
Composer.v
Floating.v
RenderControl.v
WindowManager.v
Rpc.v
BufferedStream.v
RenderThread.v
Gsm.v
Network.v
Qemud.v
Adb.v
Input.v
Touch.v
Calls.v
Applications.v
Container.v
Bridge.v
Wayland.v
NativeWindow.v
Frames.v
Drawn.v
Startup.v
WaylandInput.v
Checksum.v
GuestStream.v
RenderControlEnc.v
Decoder.v
Remote.v
GuestCode.v
Gralloc.v
GrallocState.v
GrallocHistory.v
GrallocImage.v
Service.v
RendererTables.v
GuestBuffers.v
Hwcomposer.v
EglDisplay.v
Egl.v
EglState.v
EglHistory.v
EglDaemon.v
