(* ===== verification/Prelude.v ===== *)
(** * Anbox: a verification development of the host daemon

    Anbox runs an Android system in a container and shows its windows on the host.
    The host daemon, [src/src/anbox/], executes the guest's OpenGL ES calls on the
    host's driver, keeps the handles the guest knows its objects by, puts the layers
    of a frame into windows, serves the guest's hardware services over pipes and
    talks to the Android side by remote procedure calls.  This library models that
    core in Gallina, one definition per function of the source, and proves what makes
    it correct.  Where the code does something it does not mean to, the theorem says
    what it does.

    ** The way of a byte, and the files that model it

    A guest process opens a socket.  [Network] (network/) has the table of a server's
    connections, the connection that reads for its processor, and the messenger that
    writes whole messages from several threads.

    Most pipes name a service.  [Qemud] has the identification
    of the client and the choice of the processor (qemu/pipe_connection_creator.cpp),
    the framing of the qemud services and the services (qemu/qemud_*, boot_properties_*,
    sensors_*, fingerprint_*, hwcontrol_*, bootanimation_*, camera_message_processor.cpp);
    [Gsm] the modem (qemu/at_parser.cpp, gsm_message_processor.cpp); [Adb] the proxy for
    the host's adb (qemu/adb_message_processor.cpp).

    An OpenGL ES client's bytes are posted to a [BufferedIOStream]: [BufferedStream]
    (graphics/buffered_io_stream.cpp) on two bounded queues, [BufferQueue]
    (graphics/buffer_queue.cpp, with the index arithmetic in [Ring]), of small-buffer
    vectors, [SmallVector] (common/small_vector.h).  The render thread, [RenderThread]
    (graphics/emugl/ReadBuffer.cpp, RenderThread.cpp), reads them into its buffer and
    runs the decoders, which are generated code ([Decoder] is the one of the render control).  The decoders call [RenderControl]
    (graphics/emugl/RenderControl.cpp, DisplayManager.cpp) and through it the renderer.

    The renderer.  [Gl] is the interface of the host's driver: a class [Driver] of entry
    points, its documented behaviour as [DriverLaws] and [Reliable] (making a context
    current succeeds), the state monad [M] all of the renderer is written in, and a small
    driver for examples.  [RendererConfig] (emugl/RendererConfig.cpp) has the guest's EGL
    configurations, [TextureDraw] and [TextureResize] (the files of these names) the
    programs that draw and scale, [ColorBuffer] (emugl/ColorBuffer.cpp) the guest's
    buffers, over the interface [Helper] (ColorBuffer::Helper).  [RenderState] has the
    state as a whole, a record [World]: the driver, the handle tables, the calling and
    the other threads' [RenderThreadInfo], and a heap of the objects that [shared_ptr]s
    lead to (emugl/RenderContext.cpp, WindowSurface.cpp, RenderThreadInfo.h); it
    implements [Helper].  [Renderer] (emugl/Renderer.cpp) has every operation on handles.
    [Handles], [Ownership], [Steps] and [Binding] are about them.

    [Startup] (initialize, graphics/program_family.cpp, graphics/gl_extensions.h) sets the
    renderer up.

    Frames and windows.  [Rect] (graphics/rect.cpp), [Composer]
    (graphics/layer_composer.cpp and the two strategies), [WindowManager] (wm/).
    [Wayland] (src/src/fydeos/wayland_window.cc) has the pool of buffers a window shares
    with the compositor, [NativeWindow] (emugl/Renderer.cpp) the drawing of a frame into
    one of them, in a state [Frames] that adds the windows to [World]; [Frames] and
    [Drawn] show how the frames use the pools and where each layer is drawn.

    Input.  [Input] (input/) has the devices: their description, their clients and the
    events they are sent; [Touch] (platform/sdl/) makes these events from SDL's, fingers
    by the kernel's multi-touch protocol, whose reader is defined there; [WaylandInput]
    (src/src/fydeos/wayland_*.cc) from the compositor's, whose fixed-point positions become
    numbers of [Floating].

    The Android side.  [Rpc] (rpc/) has the channel and the messages.  [Bridge] (bridge/,
    rpc/template_message_processor.h, container/management_api_message_processor.cpp)
    takes requests and events from it to the clipboard, the window manager and the
    database of applications, [Applications] (application/, with the launcher's files);
    [Calls] (bridge/android_api_stub.cpp, common/wait_handle.cpp, android/intent.cpp) are
    the calls in the other direction.

    The guest's end of OpenGL ES (src/android/opengl/).  [GuestStream] is the pipe to the
    host with its buffer (QemuPipeStream.cpp, IOStream.h, HostConnection.cpp), [Checksum]
    the checksum both ends can agree on (ChecksumCalculator.cpp), [RenderControlEnc] the
    functions that make packets of the calls (renderControl_enc.cpp).  [Decoder] is the
    function that the generator of the decoders prints for them on the host
    (external/android-emugl/host/tools/emugen/ApiGen.cpp); [Remote] puts the two ends
    together with the render thread between them.  [Gralloc] is the guest's allocator of
    graphics memory (system/gralloc/gralloc.cpp), written against these calls: its buffers
    are handles in the processes' memory and regions of ashmem.  [GrallocState] has the
    rules for its programs and the invariant, [GrallocHistory] every operation in any
    order, [GrallocImage] the rows of pixels that a lock and an unlock move.  [Service] puts
    the daemon's own functions at the other end: the table that the decoder calls
    ([initRenderControlContext]), on the renderer, the composer and the windows.  On it run
    the allocator ([GuestBuffers]) and the guest's composer, [Hwcomposer]
    (android/hwcomposer/hwcomposer.cpp), which sends the layers of a frame.

    The guest's EGL (android/opengl/system/egl/) is a module of the same kind.  [GuestCode]
    is the monad these modules are written in, whose computations call the host, fault or
    hang.  [EglDisplay] has the data and the display (eglDisplay.cpp), [Egl] the entry
    points (egl.cpp, egl_ftable.h, ClientAPIExts.cpp), for any number of threads, over a
    heap of contexts, surfaces and images.  [EglState] says what EGL asks of the host, the
    class [EglHost], and the invariant, [EglHistory] that every entry point keeps it,
    whatever is called in whatever order; [EglDaemon] shows that the daemon is such a host,
    with a render thread per thread of the guest, from what [RendererTables] says of the
    renderer's tables.

    The container.  [Container] (container/) configures, starts and stops it, and serves
    the session manager's requests; [IpConfig] (android/ip_config_builder.cpp,
    common/binary_writer.cpp) has the network configuration written for it.

    [Utils] (utils.cpp) has text and file helpers.

    ** How the program is rendered

    An integer of [w] bits is a [Z]; [wrapu] and [wraps] below are written where the
    language converts or wraps.  An object is a record of its members, a method a
    function to the new record; the renderer's methods are computations of [M World].
    A container that is a map is a [gmap], one indexed by position a list with [zlookup]
    and [zinsert].  Memory nobody wrote is [None].  An exception, an abort or an access
    outside an array is a result of its own ([option], [Outcome], [Verdict], ...), never
    left out.  A [shared_ptr] that is overwritten or goes out of scope is followed by the
    [drop_...] of its object, which destroys it when no owner is left in the state.
    A call that waits is one pass of its loop, which returns or says that it waits
    ([attempt]); the threads are put together by step relations ([BufferQueue.step],
    [Steps.step], [adb_event], [messenger_step], [stub_step]) in which any order of steps is possible.  A method that
    holds the one mutex of its object from beginning to end is one step.  A socket is a
    list of reads, or of answers to writes; liblxc, the kernel and the file system are a
    record of their answers ([Host]), what they are asked for a log of effects, and the
    code a computation of the monad [Container.M], a state and an exception.

    Floating point is [SpecFloat]'s, in the width the code computes in; the C library's
    tangent is a parameter.  What a driver was asked for can be traced whatever it
    answers ([Drawn.Traced]).

    Third-party code is a parameter: the driver, protobuf's parser and serialiser, the
    decoders, boost's formatting, splitting and asio, liblxc, SDL, the platform's windows.
    A type of messages has a class [Serializable], a platform's clipboard a class
    [Clipboard], each with a class of its laws.  A theorem that
    needs something of it has that as a named hypothesis or class, and a witness with a
    concrete instance.

    Loops that are not structural take fuel.  It is enough in each case, and that is
    proved: [read_fuel] (each turn pops a buffer or empties one), [decode_loop] (each
    turn but the last consumes a byte), [process_data] (each message has a header),
    [find_on_path] (each turn passes a colon), [gen_handle_fresh] (one turn more than
    there are handles taken), [thread_main] (one turn per queued buffer),
    [DequeueBuffer] (a buffer that was made is found in the second turn),
    [GLExtensions.search] (each turn passes the name).

    ** What the theorems show

    Memory and ownership: [no_dangling_no_leak] (every pointer held in any reachable
    state of any number of render threads leads to a live object and every live object
    is held), [gen_handle_fresh], [thread_exit_releases]; against it the two places
    where the code keeps a raw pointer or drops a reference it did not take
    (the lemmas [decoder_data_dangles] and [drain_drops_guest_reference]).  In the guest,
    [gralloc_history] (the references the host counts for a buffer are those of the
    processes that registered it, and the last one frees it), and on the daemon
    [buffers_counted_on_daemon]; [egl_on_daemon] (the contexts, surfaces and buffers in the
    daemon's tables are those of the guest's EGL objects, and no pointer of the guest leads
    nowhere), and against it what EGL allows and the code does not cope with
    ([current_context_destroyed], [config_off_by_one] and the lemmas beside them).

    Windows on the screen: [pool_safe] (what is drawn into is not what the compositor
    shows), [frames_refine_pool] (the renderer's frames are steps of that pool),
    [frame_drawn] (each layer once and in order, and where it goes: after a layer that is
    scaled down, the default framebuffer), [initialize_ready].

    The guest's view of OpenGL: [guest_binding_preserved] (the renderer's own use of the
    driver is invisible), [window_fits_buffer], and the lemmas [choose_config_bounds],
    [create_upload_bounds],
    [scale_factor_largest], [update_correct], [pack_configs_layout],
    [choose_attribs_force_pbuffer], [extension_query].

    Guest to host: [guest_on_daemon] (a program of calls gets through the encoder, the pipe,
    the render thread and the decoder what the daemon's functions give it, whatever the
    pieces the bytes travel in), [hwc_prepare_takes] and [hwc_set_frame] (the layers that
    the guest's composer hands over are what the daemon puts together for the frame, and
    the fences are closed), [checksum_in_order] (what a checksum accepts), [image_fits] (the
    planes of a locked picture lie in its buffer), [unlock_sends_region] (the host gets
    the pixels that were locked, and where).

    The guest's view of the host: [session_refines] (the session, fed with bytes, is an
    abstract desktop), [touch_protocol] and [wayland_touch] (the guest sees the fingers that
    are down, where they are), [device_info_typed], [database_in_sync], [ip_config_roundtrip],
    [container_lifecycle], and the lemmas [device_delivers], [id_map_ranges].

    Streams: [small_vector_refines_list], [small_vector_move_assign],
    [buffer_queue_refines_fifo], [buffer_queue_spsc] (order, no loss, no lost wake-up,
    also with spurious ones) and [unlocked_close_loses_wakeup] (what happens without the
    lock, as in [forceStop]), [stream_reads_in_order], [stream_writes_in_order],
    [decoders_consume_stream], [rpc_stream_delivered], [calls_complete_once],
    [messenger_sends], [gsm_stream_answers], [qemud_serves]: what arrives is handled once and in order
    however it is cut, and where it is not.

    Decisions: [multi_window_layers], [windows_after_update],
    [gsm_dispatch], [qemud_services], [program_search], [rect_operations],
    [adb_exclusive], and the lemmas [pipe_clients] and [write_to_fd_complete];
    errors: [rpc_limits], [stub_calls], [update_failure_unreported].

    ** What is not modelled

    Of the renderer the bitmap dump, which nothing calls.  Of src/src/fydeos the registry of
    the compositor's globals and the start of the session; of src/src/anbox
    the acceptors of sockets (boost::asio), D-Bus, the command line, SDL's windows and
    its event loop, sound, common/message_channel.cpp, which only its tests use, and the
    client of the container manager.  Of the guest's side (android/) the encoders of
    OpenGL ES itself and their client state, the modules for audio, camera and sensors, and the services; of the
    decoders' generator everything but the function above; the other third-party code
    (external/, but for the matrices of glm), tests and packaging.  Data races on single
    words are not modelled either: what a mutex guards is changed by whole steps. *)

From stdpp Require Export base tactics numbers list gmap strings fin_maps.
From Stdlib Require Export ZArith Lia.

#[global] Open Scope Z_scope.

(** ** Machine integers

    A value of a [w]-bit unsigned C++ type is an integer of [0, 2^w); a value
    of a [w]-bit signed type one of [-2^(w-1), 2^(w-1)).  [wrapu] and [wraps]
    are the conversions the language does on assignment and arithmetic. *)

Definition wrapu (w x : Z) : Z := x mod 2 ^ w.

Definition wraps (w x : Z) : Z := (x + 2 ^ (w - 1)) mod 2 ^ w - 2 ^ (w - 1).

Abbreviation u8 := (wrapu 8).
Abbreviation u16 := (wrapu 16).
Abbreviation u32 := (wrapu 32).
Abbreviation u64 := (wrapu 64).
Abbreviation i32 := (wraps 32).
Abbreviation i64 := (wraps 64).

Definition in_u (w x : Z) : Prop := 0 <= x < 2 ^ w.
Definition in_s (w x : Z) : Prop := - 2 ^ (w - 1) <= x < 2 ^ (w - 1).

Lemma wrapu_range w x : 0 <= w -> in_u w (wrapu w x).
Proof. intros Hw. apply Z.mod_pos_bound. lia. Qed.

Lemma wrapu_id w x : in_u w x -> wrapu w x = x.
Proof. apply Z.mod_small. Qed.

Lemma wrapu_add_l w x y : wrapu w (wrapu w x + y) = wrapu w (x + y).
Proof. apply Zplus_mod_idemp_l. Qed.

Lemma wrapu_inj w x y : 0 <= w -> Z.abs (x - y) < 2 ^ w -> wrapu w x = wrapu w y -> x = y.
Proof.
  unfold wrapu. intros Hw Hxy Heq. assert (Hm : 0 < 2 ^ w) by lia.
  revert Hm Hxy Heq. generalize (2 ^ w). intros m Hm Hxy Heq.
  pose proof (Z.div_mod x m) as Hx. pose proof (Z.div_mod y m) as Hy.
  assert (Hd : x - y = m * (x / m - y / m)) by lia.
  destruct (Z.eq_dec (x / m - y / m) 0); [lia|].
  assert (Z.abs (x - y) = m * Z.abs (x / m - y / m)) by (rewrite Hd, Z.abs_mul; lia).
  nia.
Qed.

Lemma wraps_id w x : 0 < w -> in_s w x -> wraps w x = x.
Proof.
  unfold in_s, wraps. intros Hw Hx.
  assert (H2 : 2 ^ w = 2 * 2 ^ (w - 1)).
  { rewrite <- Z.pow_succ_r by lia. f_equal. lia. }
  rewrite Z.mod_small; lia.
Qed.

Lemma wraps_range w x : 0 < w -> in_s w (wraps w x).
Proof.
  unfold in_s, wraps. intros Hw.
  assert (H2 : 2 ^ w = 2 * 2 ^ (w - 1)).
  { rewrite <- Z.pow_succ_r by lia. f_equal. lia. }
  pose proof (Z.mod_pos_bound (x + 2 ^ (w - 1)) (2 ^ w)). lia.
Qed.

Lemma wraps_inj w x y : 0 < w -> Z.abs (x - y) < 2 ^ w -> wraps w x = wraps w y -> x = y.
Proof.
  unfold wraps. intros Hw Hxy Heq.
  enough (x + 2 ^ (w - 1) = y + 2 ^ (w - 1)) by lia.
  apply (wrapu_inj w); [lia..|]. unfold wrapu. lia.
Qed.

Lemma i32_u32 v : in_s 32 v -> i32 (u32 v) = v.
Proof.
  intros Hv. rewrite <- (wraps_id 32 v) at 2 by (done || lia).
  unfold wraps, wrapu. by rewrite Zplus_mod_idemp_l.
Qed.

#[global] Arguments wrapu : simpl never.
#[global] Arguments wraps : simpl never.
#[global] Opaque wrapu wraps.

(** ** Lists indexed by machine integers *)

Section zlist.
Context {A : Type}.
Implicit Types (l : list A) (i n : Z).

(** The number of elements, as a C++ [size_t]. *)
Definition zlen l : Z := Z.of_nat (length l).

Definition ztake n l : list A := take (Z.to_nat n) l.
Definition zdrop n l : list A := drop (Z.to_nat n) l.

Definition zlookup l i : option A :=
  if decide (0 <= i) then l !! Z.to_nat i else None.

(** Assignment [l[i] = x]: nothing outside the array, which the callers
    never do (every use comes with a bounds lemma). *)
Definition zinsert i (x : A) l : list A :=
  if decide (0 <= i) then <[Z.to_nat i := x]> l else l.

Lemma zlen_nonneg l : 0 <= zlen l.
Proof. unfold zlen. lia. Qed.

Lemma zlen_app l k : zlen (l ++ k) = zlen l + zlen k.
Proof. unfold zlen. rewrite length_app. lia. Qed.

Lemma zlen_cons x l : zlen (x :: l) = 1 + zlen l.
Proof. unfold zlen. cbn. lia. Qed.

Lemma zlen_nil_inv l : zlen l <= 0 -> l = [].
Proof. destruct l; unfold zlen; cbn; [done|lia]. Qed.

Lemma zlen_replicate n (x : A) : 0 <= n -> zlen (replicate (Z.to_nat n) x) = n.
Proof. unfold zlen. rewrite length_replicate. lia. Qed.

Lemma zlen_ztake n l : 0 <= n <= zlen l -> zlen (ztake n l) = n.
Proof. unfold zlen, ztake. rewrite length_take. lia. Qed.

Lemma zlen_zdrop n l : 0 <= n <= zlen l -> zlen (zdrop n l) = zlen l - n.
Proof. unfold zlen, zdrop. rewrite length_drop. lia. Qed.

Lemma zlen_zinsert i x l : zlen (zinsert i x l) = zlen l.
Proof. unfold zlen, zinsert. case_decide; [by rewrite length_insert | done]. Qed.

Lemma ztake_zdrop n l : ztake n l ++ zdrop n l = l.
Proof. apply take_drop. Qed.

Lemma ztake_app_le n l k : n <= zlen l -> ztake n (l ++ k) = ztake n l.
Proof. intros H. apply take_app_le. unfold zlen in H. lia. Qed.

Lemma ztake_app_exact l k : ztake (zlen l) (l ++ k) = l.
Proof. unfold ztake, zlen. rewrite Nat2Z.id. apply take_app_length. Qed.

Lemma ztake_app_eq n l k : n = zlen l -> ztake n (l ++ k) = l.
Proof. intros ->. apply ztake_app_exact. Qed.

Lemma zdrop_app_exact l k : zdrop (zlen l) (l ++ k) = k.
Proof. unfold zdrop, zlen. rewrite Nat2Z.id. apply drop_app_length. Qed.

Lemma zdrop_app_eq n l k : n = zlen l -> zdrop n (l ++ k) = k.
Proof. intros ->. apply zdrop_app_exact. Qed.

Lemma zslice_split from avail size l :
  0 <= from -> 0 <= avail -> from + avail <= size ->
  zdrop from (ztake size l) =
    ztake avail (zdrop from l) ++ zdrop (from + avail) (ztake size l).
Proof.
  intros Hf Ha Hs. rewrite <- (ztake_zdrop avail (zdrop from (ztake size l))).
  unfold ztake, zdrop. rewrite drop_drop. f_equal.
  - rewrite !take_drop_commute, take_take. do 2 f_equal. lia.
  - f_equal. lia.
Qed.

Lemma ztake_add a b l : 0 <= a -> 0 <= b -> ztake (a + b) l = ztake a l ++ ztake b (zdrop a l).
Proof.
  intros Ha Hb. unfold ztake, zdrop. rewrite Z2Nat.inj_add by lia.
  rewrite <- (take_drop (Z.to_nat a) (take (Z.to_nat a + Z.to_nat b) l)).
  rewrite take_take, take_drop_commute. do 2 f_equal; lia.
Qed.

Lemma ztake_app_ge n l k : zlen l <= n -> ztake n (l ++ k) = l ++ ztake (n - zlen l) k.
Proof.
  intros H. unfold ztake, zlen in *. rewrite take_app_ge by lia. do 2 f_equal. lia.
Qed.

Lemma zdrop_app_ge n l k : zlen l <= n -> zdrop n (l ++ k) = zdrop (n - zlen l) k.
Proof. intros H. unfold zdrop, zlen in *. rewrite drop_app_ge by lia. f_equal. lia. Qed.

Lemma zdrop_all n l : zlen l <= n -> zdrop n l = [].
Proof. intros H. apply drop_ge. unfold zlen in H. lia. Qed.

Lemma ztake_all n l : zlen l <= n -> ztake n l = l.
Proof. intros H. apply take_ge. unfold zlen in H. lia. Qed.

Lemma ztake_nonpos n l : n <= 0 -> ztake n l = [].
Proof. intros H. unfold ztake. by replace (Z.to_nat n) with 0%nat by lia. Qed.

Lemma zdrop_nonpos n l : n <= 0 -> zdrop n l = l.
Proof. intros H. unfold zdrop. by replace (Z.to_nat n) with 0%nat by lia. Qed.

Lemma zdrop_0 l : zdrop 0 l = l.
Proof. done. Qed.

(** Where two ways to cut a list meet. *)
Lemma app_eq_ge l1 l2 k1 k2 :
  l1 ++ l2 = k1 ++ k2 -> zlen k1 <= zlen l1 -> exists k, l1 = k1 ++ k /\ k2 = k ++ l2.
Proof.
  intros [(k & -> & ->)|(k & -> & ->)]%app_eq_inv Hlen; [by exists k|].
  rewrite zlen_app in Hlen. exists []. rewrite !app_nil_r.
  by rewrite (zlen_nil_inv k) by lia; rewrite app_nil_r.
Qed.

Lemma app_eq_lt l1 l2 k1 k2 :
  l1 ++ l2 = k1 ++ k2 -> zlen l1 < zlen k1 ->
  exists k, k1 = l1 ++ k /\ l2 = k ++ k2 /\ k <> [].
Proof.
  intros [(k & -> & ->)|(k & -> & ->)]%app_eq_inv Hlen.
  - rewrite zlen_app in Hlen. pose proof (zlen_nonneg k). lia.
  - exists k. split_and!; [done..|]. intros ->. rewrite app_nil_r in Hlen. lia.
Qed.

Lemma zlookup_lt i l : 0 <= i < zlen l -> is_Some (zlookup l i).
Proof.
  unfold zlookup, zlen. intros H. rewrite decide_True by lia.
  apply lookup_lt_is_Some. lia.
Qed.

Lemma zlookup_zinsert_eq i x l : 0 <= i < zlen l -> zlookup (zinsert i x l) i = Some x.
Proof.
  unfold zlookup, zinsert, zlen. intros H. rewrite !decide_True by lia.
  apply list_lookup_insert_eq. lia.
Qed.

Lemma zlookup_zinsert_ne i j x l : i <> j -> zlookup (zinsert i x l) j = zlookup l j.
Proof.
  unfold zlookup, zinsert. intros H. repeat case_decide; try done.
  apply list_lookup_insert_ne. lia.
Qed.

Lemma zlookup_Forall (P : A -> Prop) i x l :
  Forall P l -> zlookup l i = Some x -> P x.
Proof.
  unfold zlookup. case_decide; [|done]. intros Hl Hx.
  by eapply Forall_lookup_1.
Qed.

Lemma zinsert_Forall (P : A -> Prop) i x l :
  Forall P l -> P x -> Forall P (zinsert i x l).
Proof. unfold zinsert. case_decide; [by apply Forall_insert | done]. Qed.
End zlist.

(** ** Reachability *)

(** Rule induction over an execution: what every step preserves holds at its
    end. *)
Lemma rtc_invariant {S} (R : S -> S -> Prop) (P : S -> Prop) s s' :
  (forall x y, R x y -> P x -> P y) -> rtc R s s' -> P s -> P s'.
Proof. intros Hstep. induction 1; eauto. Qed.

(** ** Text *)

Definition newline : string := String (Ascii.ascii_of_nat 10) EmptyString.

Definition lines (ls : list string) : string :=
  String.concat EmptyString ((fun l => String.append l newline) <$> ls).

(** ** Error numbers the code returns, negated, as results *)

Definition EIO : Z := 5.
Definition EAGAIN : Z := 11.
Definition EINTR : Z := 4.

(** ** Hints shared by the components *)

Create HintDb anbox.
Create Rewrite HintDb anbox.
#[export] Hint Resolve zlen_nonneg wrapu_range : anbox.
#[export] Hint Rewrite @zlen_app @zlen_zinsert : anbox.

(** ** Bytes of an integer, the lowest first *)

Fixpoint little_endian (n : nat) (v : Z) : list Z :=
  match n with O => [] | S n => v mod 256 :: little_endian n (v / 256) end.

Fixpoint le_value (l : list Z) : Z :=
  match l with [] => 0 | b :: l => b + 256 * le_value l end.

Lemma length_little_endian n v : length (little_endian n v) = n.
Proof. revert v. induction n as [|n IH]; intros v; [done|]. cbn. by rewrite IH. Qed.

Lemma zlen_little_endian n v : zlen (little_endian n v) = Z.of_nat n.
Proof. unfold zlen. by rewrite length_little_endian. Qed.

Lemma le_value_little_endian n : forall v,
  0 <= v < 256 ^ Z.of_nat n -> le_value (little_endian n v) = v.
Proof.
  induction n as [|n IH]; intros v Hv; [cbn in *; lia|]. cbn [little_endian le_value].
  rewrite IH.
  - pose proof (Z.div_mod v 256). lia.
  - rewrite Nat2Z.inj_succ, Z.pow_succ_r in Hv by lia.
    split; [apply Z.div_pos; lia|]. apply Z.div_lt_upper_bound; lia.
Qed.
