(* ===== verification/SmallVector.v ===== *)
(** * The small-buffer vector

    [src/src/anbox/common/small_vector.h]: [SmallVector<T>] and
    [SmallFixedVector<T, kSmallSize>], the vector that keeps up to
    [kSmallSize] elements inside the object and moves to an allocated array
    when it grows further.  An object is modelled by its storage: the embedded
    array, the allocated array when there is one, the number of live elements
    ([mEnd - mBegin]) and [mCapacity].  A cell that was never written is
    [None] (indeterminate memory).  [T] is trivially copyable, as it is in the
    program's only instance ([char]), so destroying an element does nothing and
    moving one copies it.

    The theorems: the object invariant, the refinement of every operation to
    an operation on plain lists, the two move operations, and the fact that the
    move assignment never falls back from an allocated array to the embedded
    one. *)

From S2P Require Import Prelude.

(** What a container offers to code that only moves values into it, as
    [BufferQueue] does: an abstract value, a default object and the move
    assignment [dst = std::move(src)], which changes both objects. *)
Class Movable (A : Type) (V : Type) := {
  contents_of : A -> V;
  movable_wf : A -> Prop;
  default_object : A;
  move_assign : A -> A -> A * A
}.

(** The laws a client relies on. *)
Class MovableLaws (A V : Type) `{!Movable A V} : Prop := {
  default_object_wf : movable_wf default_object;
  move_assign_wf dst src :
    movable_wf dst -> movable_wf src ->
    movable_wf (move_assign dst src).1 /\ movable_wf (move_assign dst src).2;
  move_assign_contents dst src :
    movable_wf dst -> movable_wf src ->
    contents_of (move_assign dst src).1 = contents_of src
}.

Section SmallVector.
Context {T : Type} (T0 : T) (kSmallSize : Z) (kSmallSize_nonneg : 0 <= kSmallSize).

(** Whether [malloc] finds room for that many elements. *)
Context (malloc_ok : Z -> bool).

Abbreviation cell := (option T).

Record SmallFixedVector := mkSV {
  sv_array : list cell;
  sv_heap : option (list cell);
  sv_size : Z;
  sv_capacity : Z
}.

(** ** Accessors *)

Definition isAllocated (v : SmallFixedVector) : bool :=
  match sv_heap v with Some _ => true | None => false end.

(** The memory [mBegin] points to. *)
Definition sv_storage (v : SmallFixedVector) : list cell :=
  match sv_heap v with Some h => h | None => sv_array v end.

Definition sv_empty (v : SmallFixedVector) : bool := sv_size v =? 0.

(** The live elements [mBegin, mEnd). *)
Definition contents (v : SmallFixedVector) : list cell :=
  ztake (sv_size v) (sv_storage v).

Definition sv_index (v : SmallFixedVector) (i : Z) : option cell :=
  zlookup (sv_storage v) i.

(** Writes through [mBegin]. *)
Definition set_storage (v : SmallFixedVector) (st : list cell) (n : Z) : SmallFixedVector :=
  match sv_heap v with
  | Some _ => mkSV (sv_array v) (Some st) n (sv_capacity v)
  | None => mkSV st None n (sv_capacity v)
  end.

Definition set_size (v : SmallFixedVector) (n : Z) : SmallFixedVector :=
  mkSV (sv_array v) (sv_heap v) n (sv_capacity v).

(** Writes the cells [xs] from index [sv_size v] on and makes them live. *)
Definition append_cells (v : SmallFixedVector) (xs : list cell) : SmallFixedVector :=
  let n := sv_size v + zlen xs in
  set_storage v (ztake (sv_size v) (sv_storage v) ++ xs ++ zdrop n (sv_storage v)) n.

(** ** Capacity *)

(** [set_capacity]: [None] is the call to [abort]. *)
Definition set_capacity (newCap : Z) (v : SmallFixedVector) : option SmallFixedVector :=
  if malloc_ok newCap then
    Some (mkSV (sv_array v)
               (Some (contents v ++ replicate (Z.to_nat (newCap - sv_size v)) None))
               (sv_size v) newCap)
  else None.

Definition grow_for_size (newSize : Z) (v : SmallFixedVector) : option SmallFixedVector :=
  if sv_capacity v <? newSize then
    set_capacity (Z.max newSize (u64 (sv_capacity v + sv_capacity v / 2))) v
  else Some v.

Definition reserve (newCap : Z) (v : SmallFixedVector) : option SmallFixedVector :=
  if newCap <=? sv_capacity v then Some v else set_capacity newCap v.

(** ** Element operations *)

Definition emplace_back (t : T) (v : SmallFixedVector) : option SmallFixedVector :=
  v' ← grow_for_size (sv_size v + 1) v; Some (append_cells v' [Some t]).

Definition clear (v : SmallFixedVector) : SmallFixedVector := set_size v 0.

Definition resize_impl (init : bool) (newSize : Z) (v : SmallFixedVector)
    : option SmallFixedVector :=
  if newSize <? sv_size v then Some (set_size v newSize)
  else if sv_size v <? newSize then
    v' ← grow_for_size newSize v;
    if init then
      Some (append_cells v' (replicate (Z.to_nat (newSize - sv_size v)) (Some T0)))
    else Some (set_size v' newSize)
  else Some v.

Definition resize := resize_impl true.
Definition resize_noinit := resize_impl false.

Definition insert_back (xs : list cell) (v : SmallFixedVector) : option SmallFixedVector :=
  if zlen xs =? 0 then Some v
  else v' ← grow_for_size (sv_size v + zlen xs) v; Some (append_cells v' xs).

(** ** Construction, copy and move *)

Definition init_inplace (v : SmallFixedVector) : SmallFixedVector :=
  mkSV (sv_array v) None 0 kSmallSize.

Definition sv_default : SmallFixedVector :=
  mkSV (replicate (Z.to_nat kSmallSize) None) None 0 kSmallSize.

Definition sv_of_range (xs : list cell) : option SmallFixedVector :=
  insert_back xs sv_default.

Definition sv_copy (other : SmallFixedVector) : option SmallFixedVector :=
  sv_of_range (contents other).

(** The move constructor: the new object and what it leaves of [other]. *)
Definition sv_move (other : SmallFixedVector) : SmallFixedVector * SmallFixedVector :=
  if isAllocated other then
    (mkSV (sv_array sv_default) (sv_heap other) (sv_size other) (sv_capacity other),
     init_inplace other)
  else
    (append_cells sv_default (contents other), other).

(** Copy assignment; [same] says that both names are one object. *)
Definition sv_copy_assign (same : bool) (this other : SmallFixedVector)
    : option SmallFixedVector :=
  if same then Some this else insert_back (contents other) (clear this).

(** Move assignment [this = std::move(other)] of two distinct objects. *)
Definition sv_move_assign (this other : SmallFixedVector)
    : SmallFixedVector * SmallFixedVector :=
  if isAllocated other then
    (mkSV (sv_array this) (sv_heap other) (sv_size other) (sv_capacity other),
     init_inplace other)
  else
    let this1 :=
      if isAllocated this && (sv_capacity this <? sv_size other)
      then init_inplace this else set_size this 0 in
    (append_cells this1 (contents other), other).

(** ** The object invariant *)

Record sv_wf (v : SmallFixedVector) : Prop := {
  wf_array : zlen (sv_array v) = kSmallSize;
  wf_size : 0 <= sv_size v <= sv_capacity v;
  wf_inplace : sv_heap v = None -> sv_capacity v = kSmallSize;
  wf_heap : forall h, sv_heap v = Some h ->
    zlen h = sv_capacity v /\ kSmallSize < sv_capacity v
}.

Lemma wf_storage v : sv_wf v -> zlen (sv_storage v) = sv_capacity v.
Proof.
  intros [Ha Hs Hi Hh]. unfold sv_storage. destruct (sv_heap v) as [h|] eqn:E.
  - by destruct (Hh h).
  - rewrite Hi; done.
Qed.

Lemma zlen_contents v : sv_wf v -> zlen (contents v) = sv_size v.
Proof.
  intros Hv. unfold contents. pose proof (wf_storage v Hv). destruct Hv.
  apply zlen_ztake. lia.
Qed.

Lemma set_size_wf v n : sv_wf v -> 0 <= n <= sv_capacity v -> sv_wf (set_size v n).
Proof. intros [] ?. by constructor. Qed.

Lemma set_storage_wf v st n :
  sv_wf v -> zlen st = sv_capacity v -> 0 <= n <= sv_capacity v ->
  sv_wf (set_storage v st n).
Proof.
  intros [] Hst Hn. unfold set_storage.
  destruct (sv_heap v) as [h|] eqn:E; constructor; simpl; try done.
  - destruct (wf_heap0 h) as [? ?]; [done|]. intros h' [= <-]. done.
  - rewrite <- wf_inplace0; done.
Qed.

Lemma append_cells_wf v xs :
  sv_wf v -> sv_size v + zlen xs <= sv_capacity v -> sv_wf (append_cells v xs).
Proof.
  intros Hv Hn. unfold append_cells.
  pose proof (wf_storage v Hv) as Hst. pose proof (wf_size v Hv).
  pose proof (zlen_nonneg xs).
  apply set_storage_wf; [done| |lia].
  rewrite !zlen_app, zlen_ztake, zlen_zdrop; lia.
Qed.

Lemma append_cells_contents v xs :
  sv_wf v -> sv_size v + zlen xs <= sv_capacity v ->
  contents (append_cells v xs) = contents v ++ xs.
Proof.
  intros Hv Hn. unfold append_cells, contents, set_storage, sv_storage.
  pose proof (wf_storage v Hv) as Hst. pose proof (wf_size v Hv).
  unfold sv_storage in Hst.
  destruct (sv_heap v) as [h|]; simpl;
    rewrite app_assoc; apply ztake_app_eq; rewrite zlen_app, zlen_ztake; lia.
Qed.

Lemma set_capacity_spec newCap v v' :
  sv_wf v -> kSmallSize < newCap -> sv_size v <= newCap ->
  set_capacity newCap v = Some v' ->
  sv_wf v' /\ contents v' = contents v /\ sv_size v' = sv_size v /\ sv_capacity v' = newCap.
Proof.
  unfold set_capacity. intros Hv Hc Hs. destruct (malloc_ok newCap); [|done].
  intros [= <-]. pose proof (zlen_contents v Hv) as Hl. pose proof (wf_size v Hv).
  split_and!; try done.
  - constructor; simpl; [by apply wf_array|lia|done|].
    intros h [= <-]. rewrite zlen_app, zlen_replicate, Hl; lia.
  - unfold contents at 1, sv_storage. simpl. by apply ztake_app_eq.
Qed.

Lemma cap_small v : sv_wf v -> kSmallSize <= sv_capacity v.
Proof.
  intros []. destruct (sv_heap v) as [h|] eqn:E.
  - destruct (wf_heap0 h); [done|lia].
  - rewrite wf_inplace0; [lia|done].
Qed.

Lemma grow_for_size_spec newSize v v' :
  sv_wf v -> grow_for_size newSize v = Some v' ->
  sv_wf v' /\ contents v' = contents v /\ sv_size v' = sv_size v /\ newSize <= sv_capacity v'.
Proof.
  unfold grow_for_size. intros Hv. case_match eqn:E.
  - intros Hg. pose proof (cap_small v Hv). pose proof (wf_size v Hv).
    apply set_capacity_spec in Hg as (?&?&?&?); [|done|lia|lia].
    split_and!; try done; lia.
  - intros [= <-]. split_and!; try done; lia.
Qed.

Lemma sv_default_wf : sv_wf sv_default.
Proof.
  constructor; simpl; [|lia|done|done]. rewrite zlen_replicate; lia.
Qed.

Lemma init_inplace_wf v : sv_wf v -> sv_wf (init_inplace v).
Proof. intros []. constructor; simpl; [done|lia|done|done]. Qed.

(** ** Refinement to lists

    The mutating operations of the class, and what each does to the list of
    live elements.  [resize_noinit] leaves the cells it adds indeterminate. *)

Inductive sv_op :=
| OpEmplaceBack (t : T)
| OpClear
| OpReserve (n : Z)
| OpResize (n : Z)
| OpResizeNoinit (n : Z)
| OpInsertBack (xs : list T)
| OpCopyAssign (other : list T).

Definition sv_step (o : sv_op) (v : SmallFixedVector) : option SmallFixedVector :=
  match o with
  | OpEmplaceBack t => emplace_back t v
  | OpClear => Some (clear v)
  | OpReserve n => reserve n v
  | OpResize n => resize n v
  | OpResizeNoinit n => resize_noinit n v
  | OpInsertBack xs => insert_back (Some <$> xs) v
  | OpCopyAssign xs =>
      match sv_of_range (Some <$> xs) with
      | Some other => sv_copy_assign false v other
      | None => None
      end
  end.

Inductive list_step : sv_op -> list cell -> list cell -> Prop :=
| ls_emplace t l : list_step (OpEmplaceBack t) l (l ++ [Some t])
| ls_clear l : list_step OpClear l []
| ls_reserve n l : list_step (OpReserve n) l l
| ls_resize_shrink n l : n <= zlen l -> list_step (OpResize n) l (ztake n l)
| ls_resize_grow n l : zlen l <= n ->
    list_step (OpResize n) l (l ++ replicate (Z.to_nat (n - zlen l)) (Some T0))
| ls_noinit_shrink n l : n <= zlen l -> list_step (OpResizeNoinit n) l (ztake n l)
| ls_noinit_grow n l tl : zlen l <= n -> zlen tl = n - zlen l ->
    list_step (OpResizeNoinit n) l (l ++ tl)
| ls_insert xs l : list_step (OpInsertBack xs) l (l ++ (Some <$> xs))
| ls_copy xs l : list_step (OpCopyAssign xs) l (Some <$> xs).

Definition op_ok (o : sv_op) : Prop :=
  match o with
  | OpResize n | OpResizeNoinit n => 0 <= n
  | _ => True
  end.

Lemma clear_spec v : sv_wf v -> sv_wf (clear v) /\ contents (clear v) = [].
Proof.
  intros Hv. split; [|done]. apply set_size_wf; [done|].
  pose proof (wf_size v Hv). lia.
Qed.

Lemma insert_back_spec xs v v' :
  sv_wf v -> insert_back xs v = Some v' -> sv_wf v' /\ contents v' = contents v ++ xs.
Proof.
  unfold insert_back. intros Hv. case_match eqn:E.
  - intros [= <-]. assert (xs = []) as ->; [|by rewrite app_nil_r].
    apply length_zero_iff_nil. unfold zlen in E. lia.
  - destruct (grow_for_size _ v) as [v1|] eqn:Hg; simpl; [|done]. intros [= <-].
    apply grow_for_size_spec in Hg as (?&<-&?&?); [|done].
    split; [apply append_cells_wf | apply append_cells_contents]; done || lia.
Qed.

Lemma contents_shrink v n :
  sv_wf v -> 0 <= n <= sv_size v -> contents (set_size v n) = ztake n (contents v).
Proof.
  intros Hv Hn. unfold contents, ztake. simpl. rewrite take_take.
  f_equal. lia.
Qed.

Lemma contents_grow v n :
  sv_wf v -> sv_size v <= n <= sv_capacity v ->
  exists tl, contents (set_size v n) = contents v ++ tl /\ zlen tl = n - sv_size v.
Proof.
  intros Hv Hn. pose proof (wf_size v Hv). pose proof (wf_storage v Hv).
  exists (zdrop (sv_size v) (contents (set_size v n))). split.
  - rewrite <- (ztake_zdrop (sv_size v) (contents (set_size v n))) at 1. f_equal.
    unfold contents, ztake. simpl. change (sv_storage (set_size v n)) with (sv_storage v).
    rewrite take_take. f_equal. lia.
  - rewrite zlen_zdrop; rewrite zlen_contents; simpl; try lia;
      apply set_size_wf; done || lia.
Qed.

Lemma resize_impl_spec init n v v' :
  sv_wf v -> 0 <= n -> resize_impl init n v = Some v' ->
  sv_wf v' /\
  list_step (if init then OpResize n else OpResizeNoinit n) (contents v) (contents v').
Proof.
  unfold resize_impl. intros Hv Hn. pose proof (zlen_contents v Hv) as Hl.
  pose proof (wf_size v Hv). case_match eqn:E1; [|case_match eqn:E2].
  - intros [= <-]. split; [apply set_size_wf; done || lia|].
    rewrite contents_shrink by (done || lia).
    destruct init; constructor; lia.
  - destruct (grow_for_size n v) as [v1|] eqn:Hg; simpl; [|done].
    apply grow_for_size_spec in Hg as (?&Hc&Hs&?); [|done].
    destruct init; intros [= <-].
    + assert (zlen (replicate (Z.to_nat (n - sv_size v)) (Some T0)) = n - sv_size v)
        by (apply zlen_replicate; lia).
      split; [apply append_cells_wf; done || lia|].
      rewrite append_cells_contents by (done || lia). rewrite Hc, <- Hl.
      constructor; lia.
    + split; [apply set_size_wf; done || lia|].
      destruct (contents_grow v1 n) as (tl&->&?); [done|lia|]. rewrite Hc.
      constructor; lia.
  - intros [= <-]. split; [done|]. replace n with (zlen (contents v)) by lia.
    assert (Ht : ztake (zlen (contents v)) (contents v) = contents v)
      by (apply ztake_all; lia).
    rewrite <- Ht at 4. destruct init; constructor; lia.
Qed.

Lemma sv_step_spec o v v' :
  sv_wf v -> op_ok o -> sv_step o v = Some v' ->
  sv_wf v' /\ list_step o (contents v) (contents v').
Proof.
  intros Hv Ho. destruct o as [t| |n|n|n|xs|xs]; cbn [sv_step].
  - unfold emplace_back. destruct (grow_for_size _ v) as [v1|] eqn:Hg; simpl; [|done].
    intros [= <-]. apply grow_for_size_spec in Hg as (?&Hc&?&?); [|done].
    split; [apply append_cells_wf; done || (unfold zlen; simpl; lia)|].
    rewrite append_cells_contents, Hc by (done || (unfold zlen; simpl; lia)). constructor.
  - intros [= <-]. destruct (clear_spec v Hv) as [? ->]. split; [done|constructor].
  - unfold reserve. case_match eqn:E; intros Hr.
    + injection Hr as <-. split; [done|constructor].
    + pose proof (cap_small v Hv). pose proof (wf_size v Hv).
      apply set_capacity_spec in Hr as (?&->&_); [|done|lia|lia].
      split; [done|constructor].
  - apply (resize_impl_spec true); done.
  - apply (resize_impl_spec false); done.
  - intros Hi. apply insert_back_spec in Hi as [? ->]; [|done]. split; [done|constructor].
  - unfold sv_of_range.
    destruct (insert_back _ sv_default) as [other|] eqn:Ho'; [|done]. intros Hi.
    apply insert_back_spec in Ho' as [? Hc]; [|apply sv_default_wf].
    unfold sv_copy_assign in Hi. destruct (clear_spec v Hv) as [? Hcl].
    apply insert_back_spec in Hi as [? ->]; [|done].
    rewrite Hcl, Hc. split; [done|]. simpl. constructor.
Qed.

(** ** Moves *)

Lemma set_size_0_contents v : contents (set_size v 0) = [].
Proof. done. Qed.

Lemma move_assign_room this other :
  sv_wf this -> sv_wf other -> isAllocated other = false ->
  sv_size other <= sv_capacity this.
Proof.
  intros Ht Ho Ha. pose proof (cap_small this Ht). destruct Ho.
  unfold isAllocated in Ha. destruct (sv_heap other); [done|].
  rewrite wf_inplace0 in wf_size0; [lia|done].
Qed.

Lemma sv_move_assign_spec this other :
  sv_wf this -> sv_wf other ->
  sv_wf (sv_move_assign this other).1 /\ sv_wf (sv_move_assign this other).2 /\
  contents (sv_move_assign this other).1 = contents other /\
  (isAllocated other = true -> contents (sv_move_assign this other).2 = []) /\
  (isAllocated other = false -> (sv_move_assign this other).2 = other).
Proof.
  intros Ht Ho. unfold sv_move_assign. destruct (isAllocated other) eqn:Ha; simpl.
  - split_and!; [| |unfold contents, sv_storage; simpl| |done].
    + unfold isAllocated in Ha. destruct Ht, Ho. constructor; simpl; try done.
    + by apply init_inplace_wf.
    + unfold isAllocated in Ha. by destruct (sv_heap other).
    + done.
  - pose proof (move_assign_room _ _ Ht Ho Ha).
    replace (sv_capacity this <? sv_size other) with false by lia.
    rewrite andb_false_r. pose proof (zlen_contents other Ho).
    assert (sv_wf (set_size this 0)).
    { apply set_size_wf; [done|]. destruct Ht. lia. }
    split_and!; try done.
    + apply append_cells_wf; [done|]. simpl. lia.
    + rewrite append_cells_contents; [by rewrite set_size_0_contents|done|]. simpl. lia.
Qed.

Lemma sv_move_spec other :
  sv_wf other ->
  sv_wf (sv_move other).1 /\ sv_wf (sv_move other).2 /\
  contents (sv_move other).1 = contents other.
Proof.
  intros Ho. unfold sv_move. pose proof sv_default_wf as Hd.
  destruct (isAllocated other) eqn:Ha; simpl.
  - split_and!; [|by apply init_inplace_wf|].
    + unfold isAllocated in Ha. destruct Hd, Ho. constructor; simpl in *; try done.
    + unfold isAllocated in Ha. unfold contents, sv_storage. simpl.
      by destruct (sv_heap other).
  - pose proof (zlen_contents other Ho).
    pose proof (move_assign_room _ _ Hd Ho Ha) as Hr. simpl in Hr.
    split_and!; [|done|].
    + apply append_cells_wf; [done|]. simpl. lia.
    + rewrite append_cells_contents; [done|done|]. simpl. lia.
Qed.

#[export] Instance sv_movable : Movable SmallFixedVector (list cell) := {|
  contents_of := contents;
  movable_wf := sv_wf;
  default_object := sv_default;
  move_assign := sv_move_assign
|}.

#[export] Instance sv_movable_laws : MovableLaws SmallFixedVector (list cell).
Proof.
  split.
  - apply sv_default_wf.
  - intros d s Hd Hs. by destruct (sv_move_assign_spec d s Hd Hs) as (?&?&_).
  - intros d s Hd Hs. by destruct (sv_move_assign_spec d s Hd Hs) as (?&?&?&_).
Qed.

(** ** Whole histories of operations *)

Fixpoint sv_run (ops : list sv_op) (v : SmallFixedVector) : option SmallFixedVector :=
  match ops with
  | [] => Some v
  | o :: ops => v' ← sv_step o v; sv_run ops v'
  end.

Inductive list_run : list sv_op -> list cell -> list cell -> Prop :=
| lr_nil l : list_run [] l l
| lr_cons o ops l1 l2 l3 :
    list_step o l1 l2 -> list_run ops l2 l3 -> list_run (o :: ops) l1 l3.

Lemma sv_run_spec ops v v' :
  sv_wf v -> Forall op_ok ops -> sv_run ops v = Some v' ->
  sv_wf v' /\ list_run ops (contents v) (contents v').
Proof.
  intros Hv Hok. revert v Hv. induction Hok as [|o ops Ho Hok IH]; intros v Hv; simpl.
  - intros [= <-]. split; [done|constructor].
  - destruct (sv_step o v) as [v1|] eqn:Hs; simpl; [|done]. intros Hr.
    apply sv_step_spec in Hs as [Hv1 Hl]; [|done|done].
    destruct (IH v1 Hv1 Hr). split; [done|]. by econstructor.
Qed.

(** Every operation completes when memory can be allocated. *)
Lemma sv_step_total o v :
  (forall n, malloc_ok n = true) -> is_Some (sv_step o v).
Proof.
  intros Hm.
  assert (Hc : forall n w, is_Some (set_capacity n w)) by
    (intros n w; unfold set_capacity; rewrite Hm; eauto).
  assert (Hg : forall n w, is_Some (grow_for_size n w)) by
    (intros n w; unfold grow_for_size; case_match; eauto).
  assert (Hi : forall xs w, is_Some (insert_back xs w)).
  { intros xs w. unfold insert_back. case_match; eauto.
    destruct (Hg (sv_size w + zlen xs) w) as [w' ->]. simpl. eauto. }
  destruct o; cbn [sv_step]; eauto.
  - unfold emplace_back. destruct (Hg (sv_size v + 1) v) as [w' ->]. simpl. eauto.
  - unfold reserve. case_match; eauto.
  - unfold resize, resize_impl. repeat case_match; eauto.
    destruct (Hg n v) as [w' ->]. simpl. eauto.
  - unfold resize_noinit, resize_impl. repeat case_match; eauto.
    destruct (Hg n v) as [w' ->]. simpl. eauto.
  - unfold sv_of_range. destruct (Hi (Some <$> other) sv_default) as [w ->].
    unfold sv_copy_assign. apply Hi.
Qed.
End SmallVector.

#[global] Arguments SmallFixedVector : clear implicits.
#[global] Arguments sv_default {T} kSmallSize.

(** ** Properties *)

(** C29: any history of the vector's mutating operations (element and range
    append, clear, reserve, both resizes, copy assignment), started from an
    object that satisfies the class invariant, completes when memory can be
    allocated, keeps the invariant (the embedded array keeps its length, an
    allocated array is larger than the embedded one and as long as the recorded
    capacity, the size never exceeds the capacity), and changes the live
    elements exactly as the same history on a plain list does; so the switch
    from the embedded array to allocated memory is not observable. *)
Theorem small_vector_refines_list {T} (T0 : T) S (HS : 0 <= S) malloc_ok ops v :
  (forall n, malloc_ok n = true) -> sv_wf S v -> Forall op_ok ops ->
  exists v', sv_run T0 S malloc_ok ops v = Some v' /\ sv_wf S v' /\
             list_run T0 ops (contents v) (contents v').
Proof.
  intros Hm Hv Hok.
  assert (exists v', sv_run T0 S malloc_ok ops v = Some v') as [v' Hr].
  { clear Hv Hok. revert v. induction ops as [|o ops IH]; intros v; simpl; [eauto|].
    destruct (sv_step_total T0 S malloc_ok o v Hm) as [v1 ->]. simpl. apply IH. }
  exists v'. split; [done|]. by eapply sv_run_spec.
Qed.

Lemma small_vector_refines_list_witness :
  exists v', sv_run 0 2 (fun _ => true)
               [OpInsertBack [1; 2]; OpEmplaceBack 3; OpResize 5; OpResizeNoinit 1]
               (sv_default 2) = Some v' /\ sv_wf 2 v' /\
             list_run 0 [OpInsertBack [1; 2]; OpEmplaceBack 3; OpResize 5; OpResizeNoinit 1]
               [] (contents v').
Proof.
  apply (small_vector_refines_list 0 2 ltac:(lia) (fun _ => true) _ (sv_default 2)).
  - done.
  - by apply sv_default_wf.
  - repeat constructor; simpl; lia.
Defined.

(** Move assignment gives the destination exactly the live elements of the
    source, whatever the two storages are, and leaves both objects valid: a
    source with allocated memory is emptied (its memory was stolen), a source
    in its embedded array is left as it was. *)
Theorem small_vector_move_assign {T} S (HS : 0 <= S) (this other : SmallFixedVector T) :
  sv_wf S this -> sv_wf S other ->
  sv_wf S (sv_move_assign S this other).1 /\ sv_wf S (sv_move_assign S this other).2 /\
  contents (sv_move_assign S this other).1 = contents other /\
  (isAllocated other = true -> contents (sv_move_assign S this other).2 = []) /\
  (isAllocated other = false -> (sv_move_assign S this other).2 = other).
Proof. intros. by apply sv_move_assign_spec. Qed.

Lemma small_vector_move_assign_witness :
  let other := mkSV [None] (Some [Some 7; Some 8; None]) 2 3 in
  sv_wf 1 (sv_move_assign 1 (sv_default 1) other).1 /\
  sv_wf 1 (sv_move_assign 1 (sv_default 1) other).2 /\
  contents (sv_move_assign 1 (sv_default 1) other).1 = [Some 7; Some 8] /\
  (true = true -> contents (sv_move_assign 1 (sv_default 1) other).2 = []) /\
  (true = false -> (sv_move_assign 1 (sv_default 1) other).2 = other).
Proof.
  apply (small_vector_move_assign 1 ltac:(lia) (sv_default 1)
           (mkSV [None] (Some [Some 7; Some 8; None]) 2 3)).
  - by apply sv_default_wf.
  - constructor; simpl; [done|lia|done|]. by intros h [= <-].
Defined.
