(* ===== verification/Ring.v ===== *)
(** * Circular arrays

    The index arithmetic [BufferQueue] ([graphics/buffer_queue.cpp]) and
    [MessageChannelBase] ([common/message_channel.cpp]) share: a read position,
    a number of stored items and an array of [cap] slots.  [ring_list] is the
    sequence of stored items, oldest first; the lemmas say what writing the slot
    after the newest item and leaving the oldest slot do to it. *)

From S2P Require Import Prelude.

(** [p = a; if (p >= cap) p -= cap;] on [size_t]. *)
Definition ring_wrap (cap p : Z) : Z := if cap <=? p then u64 (p - cap) else p.

Definition ring_succ (cap pos : Z) : Z := ring_wrap cap (u64 (pos + 1)).

(** The slot of the [k]-th item. *)
Definition ring_slot (cap pos k : Z) : Z := ring_wrap cap (u64 (pos + k)).

Fixpoint ring_list {A} (l : list A) (cap pos : Z) (n : nat) : list A :=
  match n with
  | O => []
  | S n =>
      match zlookup l pos with
      | Some x => x :: ring_list l cap (ring_succ cap pos) n
      | None => []
      end
  end.

(** Array sizes are far below [2^63], so index arithmetic never wraps. *)
Definition ring_cap (cap : Z) : Prop := 0 < cap < 2 ^ 63.

Lemma u64_small x : 0 <= x < 2 ^ 64 -> u64 x = x.
Proof. apply wrapu_id. Qed.

Lemma ring_wrap_range cap p :
  ring_cap cap -> 0 <= p < 2 * cap -> 0 <= ring_wrap cap p < cap.
Proof.
  unfold ring_cap, ring_wrap. intros Hc Hp. case_match eqn:E.
  - rewrite u64_small; lia.
  - lia.
Qed.

Lemma ring_slot_range cap pos k :
  ring_cap cap -> 0 <= pos < cap -> 0 <= k <= cap -> 0 <= ring_slot cap pos k < cap.
Proof.
  intros Hc Hp Hk. unfold ring_slot. unfold ring_cap in *.
  rewrite u64_small by lia. apply ring_wrap_range; [done|lia].
Qed.

Lemma ring_succ_range cap pos :
  ring_cap cap -> 0 <= pos < cap -> 0 <= ring_succ cap pos < cap.
Proof. intros Hc Hp. apply (ring_slot_range cap pos 1); unfold ring_cap in *; lia. Qed.

Lemma ring_slot_0 cap pos : ring_cap cap -> 0 <= pos < cap -> ring_slot cap pos 0 = pos.
Proof.
  unfold ring_slot, ring_wrap, ring_cap. intros Hc Hp.
  rewrite u64_small by lia. case_match eqn:E; [|lia]. rewrite u64_small; lia.
Qed.

Lemma ring_slot_succ cap pos k :
  ring_cap cap -> 0 <= pos < cap -> 0 <= k -> k + 1 < cap ->
  ring_slot cap (ring_succ cap pos) k = ring_slot cap pos (k + 1).
Proof.
  unfold ring_slot, ring_succ, ring_wrap, ring_cap. intros Hc Hp Hk Hk1.
  rewrite (u64_small (pos + 1)), (u64_small (pos + (k + 1))) by lia.
  destruct (cap <=? pos + 1) eqn:E1.
  - rewrite (u64_small (pos + 1 - cap)), (u64_small (pos + 1 - cap + k)) by lia.
    rewrite (proj2 (Z.leb_gt cap (pos + 1 - cap + k))) by lia.
    rewrite (proj2 (Z.leb_le cap (pos + (k + 1)))) by lia.
    rewrite u64_small; lia.
  - rewrite (u64_small (pos + 1 + k)) by lia.
    replace (pos + (k + 1)) with (pos + 1 + k) by lia. done.
Qed.

Lemma ring_slot_ne cap pos k :
  ring_cap cap -> 0 <= pos < cap -> 0 < k < cap -> ring_slot cap pos k <> pos.
Proof.
  unfold ring_slot, ring_wrap, ring_cap. intros Hc Hp Hk.
  rewrite u64_small by lia. case_match eqn:E; [rewrite u64_small|]; lia.
Qed.

Section ring_list.
Context {A : Type}.
Implicit Types (l : list A) (x : A).

Lemma ring_list_length l cap pos n :
  ring_cap cap -> zlen l = cap -> 0 <= pos < cap -> length (ring_list l cap pos n) = n.
Proof.
  intros Hc Hl. revert pos. induction n as [|n IH]; intros pos Hp; simpl; [done|].
  destruct (zlookup_lt pos l) as [y ->]; [lia|]. simpl.
  rewrite IH; [done|]. by apply ring_succ_range.
Qed.

(** Writing the slot past the newest item appends it. *)
Lemma ring_list_push l cap pos n x :
  ring_cap cap -> zlen l = cap -> 0 <= pos < cap -> Z.of_nat n < cap ->
  ring_list (zinsert (ring_slot cap pos (Z.of_nat n)) x l) cap pos (S n) =
  ring_list l cap pos n ++ [x].
Proof.
  intros Hc Hl. revert pos. induction n as [|n IH]; intros pos Hp Hn.
  - simpl. rewrite ring_slot_0, zlookup_zinsert_eq by (done || lia). done.
  - cbn [ring_list]. destruct (zlookup_lt pos l) as [y Hy]; [lia|].
    rewrite zlookup_zinsert_ne by (apply ring_slot_ne; done || lia).
    rewrite Hy. cbn [app]. f_equal.
    rewrite <- IH by (try apply ring_succ_range; done || lia).
    rewrite ring_slot_succ by (done || lia).
    replace (Z.of_nat n + 1) with (Z.of_nat (S n)) by lia. done.
Qed.

(** A write to a slot that holds no item is not observable. *)
Lemma ring_list_insert_other l cap pos n j x :
  ring_cap cap -> 0 <= pos < cap -> Z.of_nat n <= cap ->
  (forall k, 0 <= k < Z.of_nat n -> ring_slot cap pos k <> j) ->
  ring_list (zinsert j x l) cap pos n = ring_list l cap pos n.
Proof.
  intros Hc. revert pos. induction n as [|n IH]; intros pos Hp Hn Hj; [done|].
  cbn [ring_list].
  assert (j <> pos).
  { intros ->. apply (Hj 0); [lia|]. by apply ring_slot_0. }
  rewrite zlookup_zinsert_ne by done.
  case_match; [|done]. f_equal. apply IH; [by apply ring_succ_range|lia|].
  intros k Hk. rewrite ring_slot_succ by (done || lia). apply Hj. lia.
Qed.

(** The item at the read position is the oldest; moving the position past it
    and overwriting its slot removes it. *)
Lemma ring_list_pop l cap pos n x :
  ring_cap cap -> zlen l = cap -> 0 <= pos < cap -> Z.of_nat (S n) <= cap ->
  exists y, zlookup l pos = Some y /\
    ring_list l cap pos (S n) = y :: ring_list (zinsert pos x l) cap (ring_succ cap pos) n.
Proof.
  intros Hc Hl Hp Hn. destruct (zlookup_lt pos l) as [y Hy]; [lia|].
  exists y. split; [done|]. cbn [ring_list]. rewrite Hy. f_equal.
  symmetry. apply ring_list_insert_other; [done|by apply ring_succ_range|lia|].
  intros k Hk. rewrite ring_slot_succ by (done || lia). apply ring_slot_ne; done || lia.
Qed.
End ring_list.
