(* ===== verification/BufferQueue.v ===== *)
(** * The bounded buffer queue

    [src/src/anbox/graphics/buffer_queue.{h,cpp}].  [Section BufferQueue] has
    the object as a record, one definition per operation, and the abstract
    specification (a bounded FIFO that can be closed) with the refinement of
    every operation to it.  The buffers are any [Movable] objects: the queue
    only moves them in and out.  An operation that waits on a condition
    variable is modelled by one pass of its loop ([attempt]): it either returns
    or starts to wait; [Section System] composes the passes of a producer, a
    consumer and a closing thread under the queue's mutex. *)

From S2P Require Import Prelude SmallVector Ring.

(** The notifications an operation sends, in order. *)
Inductive signal :=
| NotifyOnePop   (* can_pop_.notify_one() *)
| NotifyOnePush  (* can_push_.notify_one() *)
| NotifyAllPush  (* can_push_.notify_all() *)
| NotifyAllPop.  (* can_pop_.notify_all() *)

#[export] Instance signal_eq_dec : EqDecision signal.
Proof. solve_decision. Defined.

(** One pass of a waiting loop. *)
Inductive attempt (R : Type) :=
| Returns (r : R)
| Waits.
Arguments Returns {R} r.
Arguments Waits {R}.

Section BufferQueue.
Context {Buffer V : Type} `{!Movable Buffer V}.

Record BufferQueue := mkBQ {
  capacity_ : Z;
  pos_ : Z;
  count_ : Z;
  closed_ : bool;
  buffers_ : list Buffer
}.

(** ** Operations *)

Definition bq_new (capacity : Z) : BufferQueue :=
  mkBQ capacity 0 0 false (replicate (Z.to_nat capacity) default_object).

Definition can_push_locked (q : BufferQueue) : bool :=
  negb (closed_ q) && (count_ q <? capacity_ q).

Definition can_pop_locked (q : BufferQueue) : bool := 0 <? count_ q.

Definition is_closed_locked (q : BufferQueue) : bool := closed_ q.

(** The slot a buffer is moved out of or into: what the array access yields
    (the default only for an index no operation uses). *)
Definition bq_slot (q : BufferQueue) (i : Z) : Buffer :=
  default default_object (zlookup (buffers_ q) i).

(** Result, queue, what is left of the caller's buffer, notifications. *)
Definition try_push_locked (q : BufferQueue) (buffer : Buffer)
    : Z * BufferQueue * Buffer * list signal :=
  if closed_ q then (- EIO, q, buffer, [])
  else if capacity_ q <=? count_ q then (- EAGAIN, q, buffer, [])
  else
    let pos := u64 (pos_ q + count_ q) in
    let pos := if capacity_ q <=? pos then u64 (pos - capacity_ q) else pos in
    let moved := move_assign (bq_slot q pos) buffer in
    (0,
     mkBQ (capacity_ q) (pos_ q) (count_ q + 1) (closed_ q)
          (zinsert pos moved.1 (buffers_ q)),
     moved.2,
     if count_ q =? 0 then [NotifyOnePop] else []).

Definition push_locked (q : BufferQueue) (buffer : Buffer)
    : attempt (Z * BufferQueue * Buffer * list signal) :=
  if count_ q =? capacity_ q then
    if closed_ q then Returns (- EIO, q, buffer, []) else Waits
  else Returns (try_push_locked q buffer).

Definition wait_until_not_empty_locked (q : BufferQueue) : attempt Z :=
  if count_ q =? 0 then
    if closed_ q then Returns (- EIO) else Waits
  else Returns 0.

(** Result, queue, the caller's buffer, notifications. *)
Definition try_pop_locked (q : BufferQueue) (buffer : Buffer)
    : Z * BufferQueue * Buffer * list signal :=
  if count_ q =? 0 then
    (if closed_ q then - EIO else - EAGAIN, q, buffer, [])
  else
    let moved := move_assign buffer (bq_slot q (pos_ q)) in
    let pos := u64 (pos_ q + 1) in
    let pos := if capacity_ q <=? pos then u64 (pos - capacity_ q) else pos in
    (0,
     mkBQ (capacity_ q) pos (count_ q - 1) (closed_ q)
          (zinsert (pos_ q) moved.2 (buffers_ q)),
     moved.1,
     if count_ q =? capacity_ q then [NotifyOnePush] else []).

Definition pop_locked (q : BufferQueue) (buffer : Buffer)
    : attempt (Z * BufferQueue * Buffer * list signal) :=
  if count_ q =? 0 then
    if closed_ q then Returns (- EIO, q, buffer, []) else Waits
  else Returns (try_pop_locked q buffer).

Definition close_locked (q : BufferQueue) : BufferQueue * list signal :=
  (mkBQ (capacity_ q) (pos_ q) (count_ q) true (buffers_ q),
   (if count_ q =? capacity_ q then [NotifyAllPush] else []) ++
   (if count_ q =? 0 then [NotifyAllPop] else [])).

(** ** The object invariant and the abstract value *)

Record bq_wf (q : BufferQueue) : Prop := {
  bq_wf_cap : ring_cap (capacity_ q);
  bq_wf_len : zlen (buffers_ q) = capacity_ q;
  bq_wf_pos : 0 <= pos_ q < capacity_ q;
  bq_wf_count : 0 <= count_ q <= capacity_ q;
  bq_wf_bufs : Forall movable_wf (buffers_ q)
}.

(** The values stored, oldest first. *)
Definition items (q : BufferQueue) : list V :=
  contents_of <$> ring_list (buffers_ q) (capacity_ q) (pos_ q) (Z.to_nat (count_ q)).

(** A bounded FIFO of values that can be closed. *)
Record fifo := mkFifo { f_cap : Z; f_items : list V; f_closed : bool }.

Definition abs (q : BufferQueue) : fifo := mkFifo (capacity_ q) (items q) (closed_ q).

Definition fifo_push (f : fifo) (v : V) : Z * fifo :=
  if f_closed f then (- EIO, f)
  else if f_cap f <=? zlen (f_items f) then (- EAGAIN, f)
  else (0, mkFifo (f_cap f) (f_items f ++ [v]) false).

Definition fifo_pop (f : fifo) : Z * fifo * option V :=
  match f_items f with
  | [] => (if f_closed f then - EIO else - EAGAIN, f, None)
  | v :: vs => (0, mkFifo (f_cap f) vs (f_closed f), Some v)
  end.

(** ** Refinement *)

Context `{!MovableLaws Buffer V}.

Lemma bq_new_wf cap : ring_cap cap -> bq_wf (bq_new cap).
Proof.
  intros Hc. unfold ring_cap in Hc. constructor; simpl; [done| |lia|lia|].
  - apply zlen_replicate. lia.
  - apply Forall_replicate, default_object_wf.
Qed.

Lemma bq_new_items cap : items (bq_new cap) = [].
Proof. done. Qed.

Lemma zlen_items q : bq_wf q -> zlen (items q) = count_ q.
Proof.
  intros []. unfold items, zlen. rewrite length_fmap, ring_list_length by done. lia.
Qed.

Lemma bq_slot_wf q i : bq_wf q -> movable_wf (bq_slot q i).
Proof.
  intros []. unfold bq_slot. destruct (zlookup (buffers_ q) i) eqn:E; simpl.
  - by eapply zlookup_Forall.
  - apply default_object_wf.
Qed.

Lemma try_push_refines q b :
  bq_wf q -> movable_wf b ->
  let '(r, q', b', sig) := try_push_locked q b in
  fifo_push (abs q) (contents_of b) = (r, abs q') /\ bq_wf q' /\ movable_wf b' /\
  (r <> 0 -> q' = q /\ b' = b).
Proof.
  intros Hq Hb. pose proof (zlen_items q Hq) as Hl. pose proof (bq_slot_wf q) as Hslot.
  pose proof Hq as [Hc Hlen Hp Hn Hbufs].
  unfold try_push_locked, fifo_push. cbn [abs f_closed f_cap f_items]. rewrite Hl.
  destruct (closed_ q) eqn:Hcl; [done|].
  destruct (capacity_ q <=? count_ q) eqn:Hfull; [done|].
  fold (ring_wrap (capacity_ q) (u64 (pos_ q + count_ q))).
  fold (ring_slot (capacity_ q) (pos_ q) (count_ q)).
  set (j := ring_slot _ _ _).
  assert (0 <= j < capacity_ q) by (apply ring_slot_range; done || lia).
  destruct (move_assign_wf (bq_slot q j) b) as [Hm1 Hm2]; [by apply Hslot|done|].
  split_and!; [|constructor; simpl|done|done].
  - unfold abs, items. cbn [capacity_ pos_ count_ buffers_ closed_].
    assert (Hcn : count_ q = Z.of_nat (Z.to_nat (count_ q))) by lia.
    replace (Z.to_nat (count_ q + 1)) with (S (Z.to_nat (count_ q))) by lia.
    assert (Hj : j = ring_slot (capacity_ q) (pos_ q) (Z.of_nat (Z.to_nat (count_ q))))
      by (unfold j; by rewrite <- Hcn).
    rewrite Hj, ring_list_push, <- Hj by (done || lia).
    rewrite fmap_app. cbn. rewrite move_assign_contents; [done|by apply Hslot|done].
  - done.
  - by rewrite zlen_zinsert.
  - done.
  - lia.
  - by apply zinsert_Forall.
Qed.

Lemma try_pop_refines q b :
  bq_wf q -> movable_wf b ->
  let '(r, q', b', sig) := try_pop_locked q b in
  exists v, fifo_pop (abs q) = (r, abs q', v) /\ bq_wf q' /\ movable_wf b' /\
  match v with Some v => contents_of b' = v | None => q' = q /\ b' = b end.
Proof.
  intros Hq Hb. pose proof (zlen_items q Hq) as Hl. pose proof (bq_slot_wf q) as Hslot.
  pose proof Hq as [Hc Hlen Hp Hn Hbufs].
  unfold try_pop_locked, fifo_pop. cbn [abs f_closed f_cap f_items].
  destruct (count_ q =? 0) eqn:Hz.
  { destruct (items q) eqn:Hi; [|unfold zlen in Hl; simpl in Hl; lia].
    exists None. unfold abs. rewrite Hi. done. }
  fold (ring_wrap (capacity_ q) (u64 (pos_ q + 1))).
  fold (ring_succ (capacity_ q) (pos_ q)).
  set (m := move_assign b (bq_slot q (pos_ q))).
  destruct (move_assign_wf b (bq_slot q (pos_ q))) as [Hm1 Hm2]; [done|by apply Hslot|].
  destruct (ring_list_pop (buffers_ q) (capacity_ q) (pos_ q) (Z.to_nat (count_ q - 1)) m.2)
    as (y & Hy & Hpop); [done|done|done|lia|].
  assert (Hit : items q = contents_of y ::
    (contents_of <$> ring_list (zinsert (pos_ q) m.2 (buffers_ q)) (capacity_ q)
       (ring_succ (capacity_ q) (pos_ q)) (Z.to_nat (count_ q - 1)))).
  { unfold items. replace (Z.to_nat (count_ q)) with (S (Z.to_nat (count_ q - 1))) by lia.
    by rewrite Hpop. }
  rewrite Hit. eexists. split_and!; [reflexivity|constructor; simpl|done|].
  - done.
  - by rewrite zlen_zinsert.
  - by apply ring_succ_range.
  - lia.
  - by apply zinsert_Forall.
  - unfold m. rewrite move_assign_contents; [|done|by apply Hslot].
    unfold bq_slot. by rewrite Hy.
Qed.
End BufferQueue.

Arguments BufferQueue : clear implicits.

(** The program's buffers: [using Buffer = SmallFixedVector<char, 512>]. *)
Definition Buffer : Type := SmallFixedVector Z.

#[export] Instance Buffer_movable : Movable Buffer (list (option Z)) := sv_movable 512.

#[export] Instance Buffer_movable_laws : MovableLaws Buffer (list (option Z)).
Proof. by apply sv_movable_laws. Qed.

(** ** A producer, a consumer and a closing thread

    [Running]: outside the queue's code (or about to enter it).  [Deciding]:
    the loop condition said to wait, the mutex is still held, [wait] has not
    been entered.  [Waiting]: asleep on the condition variable, the mutex is
    released.  [Woken]: notified, about to take the mutex and test the loop
    condition again.

    [close_locks] says whether the closing thread takes the mutex the other two
    hold; [spurious] whether [wait] may return without a notification. *)

Inductive tstate := Running | Deciding | Waiting | Woken.

#[export] Instance tstate_eq_dec : EqDecision tstate.
Proof. solve_decision. Defined.

Inductive label := LPush | LPop | LClose | LSpurious.

Section System.
Context {Buffer V : Type} `{!Movable Buffer V, !MovableLaws Buffer V}.
Context (close_locks spurious : bool).

Record sys := mkSys {
  s_q : BufferQueue Buffer;
  s_prod : tstate;
  s_cons : tstate;
  s_buf : Buffer;      (* the consumer's buffer *)
  s_sent : list V;     (* what push accepted, oldest first *)
  s_recv : list V      (* what pop handed out, oldest first *)
}.

Definition wake (t : tstate) : tstate :=
  match t with Waiting => Woken | _ => t end.

Definition deliver (s : sys) (sg : signal) : sys :=
  match sg with
  | NotifyOnePop | NotifyAllPop =>
      mkSys (s_q s) (s_prod s) (wake (s_cons s)) (s_buf s) (s_sent s) (s_recv s)
  | NotifyOnePush | NotifyAllPush =>
      mkSys (s_q s) (wake (s_prod s)) (s_cons s) (s_buf s) (s_sent s) (s_recv s)
  end.

Definition deliver_all (sgs : list signal) (s : sys) : sys := foldl deliver s sgs.

Definition mutex_free (s : sys) : Prop := s_prod s <> Deciding /\ s_cons s <> Deciding.

Definition can_call (t : tstate) : Prop := t = Running \/ t = Woken.

Inductive step : label -> sys -> sys -> Prop :=
| step_push_returns s b r q b' sgs :
    mutex_free s -> can_call (s_prod s) -> movable_wf b ->
    push_locked (s_q s) b = Returns (r, q, b', sgs) ->
    step LPush s (deliver_all sgs
      (mkSys q Running (s_cons s) (s_buf s)
         (if r =? 0 then s_sent s ++ [contents_of b] else s_sent s) (s_recv s)))
| step_push_decides s b :
    mutex_free s -> can_call (s_prod s) -> push_locked (s_q s) b = Waits ->
    step LPush s (mkSys (s_q s) Deciding (s_cons s) (s_buf s) (s_sent s) (s_recv s))
| step_push_sleeps s :
    s_prod s = Deciding ->
    step LPush s (mkSys (s_q s) Waiting (s_cons s) (s_buf s) (s_sent s) (s_recv s))
| step_pop_returns s r q b' sgs :
    mutex_free s -> can_call (s_cons s) ->
    pop_locked (s_q s) (s_buf s) = Returns (r, q, b', sgs) ->
    step LPop s (deliver_all sgs
      (mkSys q (s_prod s) Running b' (s_sent s)
         (if r =? 0 then s_recv s ++ [contents_of b'] else s_recv s)))
| step_pop_decides s :
    mutex_free s -> can_call (s_cons s) -> pop_locked (s_q s) (s_buf s) = Waits ->
    step LPop s (mkSys (s_q s) (s_prod s) Deciding (s_buf s) (s_sent s) (s_recv s))
| step_pop_sleeps s :
    s_cons s = Deciding ->
    step LPop s (mkSys (s_q s) (s_prod s) Waiting (s_buf s) (s_sent s) (s_recv s))
| step_close s :
    (close_locks = true -> mutex_free s) ->
    step LClose s (deliver_all (close_locked (s_q s)).2
      (mkSys (close_locked (s_q s)).1 (s_prod s) (s_cons s) (s_buf s) (s_sent s) (s_recv s)))
| step_spurious_prod s :
    spurious = true -> s_prod s = Waiting ->
    step LSpurious s (mkSys (s_q s) Woken (s_cons s) (s_buf s) (s_sent s) (s_recv s))
| step_spurious_cons s :
    spurious = true -> s_cons s = Waiting ->
    step LSpurious s (mkSys (s_q s) (s_prod s) Woken (s_buf s) (s_sent s) (s_recv s)).

Definition sys_init (cap : Z) : sys :=
  mkSys (bq_new cap) Running Running default_object [] [].

Definition reachable (cap : Z) (s : sys) : Prop :=
  rtc (fun s s' => exists l, step l s s') (sys_init cap) s.

(** ** The system invariant *)

Record sys_inv (s : sys) : Prop := {
  si_wf : bq_wf (s_q s);
  si_buf : movable_wf (s_buf s);
  si_fifo : s_recv s ++ items (s_q s) = s_sent s;
  si_cons : s_cons s = Deciding \/ s_cons s = Waiting ->
            count_ (s_q s) = 0 /\ closed_ (s_q s) = false;
  si_prod : s_prod s = Deciding \/ s_prod s = Waiting ->
            count_ (s_q s) = capacity_ (s_q s) /\ closed_ (s_q s) = false
}.

Lemma sys_init_inv cap : ring_cap cap -> sys_inv (sys_init cap).
Proof.
  intros Hc. constructor; simpl.
  - by apply bq_new_wf.
  - apply default_object_wf.
  - done.
  - by intros [|].
  - by intros [|].
Qed.

Lemma push_locked_pass q b r q' b' sgs :
  bq_wf q -> movable_wf b -> push_locked q b = Returns (r, q', b', sgs) ->
  bq_wf q' /\
  (r = 0 /\ items q' = items q ++ [contents_of b] /\ closed_ q' = false /\
   count_ q' = count_ q + 1 /\ capacity_ q' = capacity_ q /\
   sgs = (if count_ q =? 0 then [NotifyOnePop] else []) \/
   r = - EIO /\ q' = q /\ sgs = [] /\ closed_ q = true).
Proof.
  intros Hq Hb. unfold push_locked. pose proof (bq_wf_count _ Hq).
  destruct (count_ q =? capacity_ q) eqn:Hfull.
  { destruct (closed_ q) eqn:Hcl; [|done]. intros [= <- <- <- <-]. eauto 6. }
  intros [= Hp]. pose proof (try_push_refines q b Hq Hb) as Href.
  rewrite Hp in Href. destruct Href as (Hf & Hwf & _ & Hne).
  split; [done|]. unfold try_push_locked in Hp.
  destruct (closed_ q) eqn:Hcl.
  { injection Hp as <- <- <- <-. eauto 6. }
  replace (capacity_ q <=? count_ q) with false in Hp by lia. left.
  injection Hp as <- <- _ <-. cbn [capacity_ pos_ count_ buffers_ closed_] in *.
  unfold fifo_push in Hf. cbn [abs f_closed f_cap f_items] in Hf.
  rewrite Hcl, zlen_items in Hf by done.
  replace (capacity_ q <=? count_ q) with false in Hf by lia.
  injection Hf as Hf. split_and!; try done; by rewrite <- Hf.
Qed.

Lemma pop_locked_pass q b r q' b' sgs :
  bq_wf q -> movable_wf b -> pop_locked q b = Returns (r, q', b', sgs) ->
  bq_wf q' /\ movable_wf b' /\ closed_ q' = closed_ q /\ capacity_ q' = capacity_ q /\
  (r = 0 /\ items q = contents_of b' :: items q' /\ count_ q' = count_ q - 1 /\
   sgs = (if count_ q =? capacity_ q then [NotifyOnePush] else []) \/
   r = - EIO /\ q' = q /\ b' = b /\ sgs = [] /\ closed_ q = true).
Proof.
  intros Hq Hb. unfold pop_locked. pose proof (bq_wf_count _ Hq).
  destruct (count_ q =? 0) eqn:Hz.
  { destruct (closed_ q) eqn:Hcl; [|done]. intros [= <- <- <- <-]. eauto 10. }
  intros [= Hp]. pose proof (try_pop_refines q b Hq Hb) as Href.
  rewrite Hp in Href. destruct Href as (v & Hf & Hwf & Hb' & Hv).
  unfold try_pop_locked in Hp. rewrite Hz in Hp. injection Hp as <- <- Hb2 <-.
  cbn [capacity_ pos_ count_ buffers_ closed_] in *. split_and!; try done. left.
  unfold fifo_pop in Hf. cbn [abs f_closed f_cap f_items] in Hf.
  pose proof (zlen_items q Hq). destruct (items q) as [|w ws] eqn:Hi.
  { unfold zlen in *. simpl in *. lia. }
  injection Hf as Hf1 Hf2. subst v. rewrite <- Hv in Hi. split_and!; try done.
  by rewrite Hv, Hf1.
Qed.

Definition notifies_pop (sg : signal) : bool :=
  match sg with NotifyOnePop | NotifyAllPop => true | _ => false end.

Lemma wake_idemp t : wake (wake t) = wake t.
Proof. by destruct t. Qed.

(** What a delivery does: the other fields stay, a sleeping thread that one of
    the signals addresses is woken. *)
Lemma deliver_all_spec s sgs :
  deliver_all sgs s =
  mkSys (s_q s)
    (if forallb notifies_pop sgs then s_prod s else wake (s_prod s))
    (if existsb notifies_pop sgs then wake (s_cons s) else s_cons s)
    (s_buf s) (s_sent s) (s_recv s).
Proof.
  revert s. induction sgs as [|sg sgs IH]; intros s; [by destruct s|].
  cbn [deliver_all foldl]. fold (deliver_all sgs (deliver s sg)). rewrite IH.
  destruct sg; cbn; f_equal; rewrite ?wake_idemp; by repeat case_match.
Qed.

(** A thread that is blocked after a delivery was blocked before it, and was
    not notified if it is asleep. *)
Lemma deliver_cons_blocked s sgs :
  s_cons (deliver_all sgs s) = Deciding \/ s_cons (deliver_all sgs s) = Waiting ->
  s_cons s = Deciding \/ s_cons s = Waiting /\ existsb notifies_pop sgs = false.
Proof.
  rewrite deliver_all_spec. cbn. destruct (existsb _ _), (s_cons s); cbn; intuition congruence.
Qed.

Lemma deliver_prod_blocked s sgs :
  s_prod (deliver_all sgs s) = Deciding \/ s_prod (deliver_all sgs s) = Waiting ->
  s_prod s = Deciding \/ s_prod s = Waiting /\ forallb notifies_pop sgs = true.
Proof.
  rewrite deliver_all_spec. cbn. destruct (forallb _ _), (s_prod s); cbn; intuition congruence.
Qed.

Lemma push_step_inv s b r q b' sgs :
  sys_inv s -> mutex_free s -> movable_wf b ->
  push_locked (s_q s) b = Returns (r, q, b', sgs) ->
  sys_inv (deliver_all sgs
    (mkSys q Running (s_cons s) (s_buf s)
       (if r =? 0 then s_sent s ++ [contents_of b] else s_sent s) (s_recv s))).
Proof.
  intros [Hwf Hbuf Hfifo Hc Hp] [Hf1 Hf2] Hb Hpush.
  apply push_locked_pass in Hpush as [Hq Hcase]; [|done|done].
  set (s1 := mkSys _ _ _ _ _ _). pose proof (deliver_cons_blocked s1 sgs) as Hcb.
  pose proof (deliver_prod_blocked s1 sgs) as Hpb.
  pose proof (deliver_all_spec s1 sgs) as E.
  constructor; rewrite E in *; cbn in *; try done.
  - destruct Hcase as [(->&->&_)|(->&->&_)]; cbn; [|done].
    by rewrite app_assoc, Hfifo.
  - intros Hb1. destruct (Hcb Hb1) as [?|[Hw Hn]]; cbn in *; [done|].
    destruct (Hc (or_intror Hw)) as [Hz Hcl].
    destruct Hcase as [(_&_&_&_&_&->)|(_&->&_)]; [|done].
    by rewrite Hz in Hn.
  - intros Hb1. destruct (Hpb Hb1) as [?|[? _]]; done.
Qed.

Lemma pop_step_inv s r q b' sgs :
  sys_inv s -> mutex_free s -> pop_locked (s_q s) (s_buf s) = Returns (r, q, b', sgs) ->
  sys_inv (deliver_all sgs
    (mkSys q (s_prod s) Running b' (s_sent s)
       (if r =? 0 then s_recv s ++ [contents_of b'] else s_recv s))).
Proof.
  intros [Hwf Hbuf Hfifo Hc Hp] [Hf1 Hf2] Hpop.
  apply pop_locked_pass in Hpop as (Hq&Hb'&Hcl'&Hcap'&Hcase); [|done|done].
  set (s1 := mkSys _ _ _ _ _ _). pose proof (deliver_cons_blocked s1 sgs) as Hcb.
  pose proof (deliver_prod_blocked s1 sgs) as Hpb.
  pose proof (deliver_all_spec s1 sgs) as E.
  constructor; rewrite E in *; cbn in *; try done.
  - destruct Hcase as [(->&Hi&_)|(->&->&_)]; cbn; [|done].
    rewrite <- Hfifo, Hi. by rewrite <- app_assoc.
  - intros Hb1. destruct (Hcb Hb1) as [?|[? _]]; done.
  - intros Hb1. destruct (Hpb Hb1) as [?|[Hw Hn]]; cbn in *; [done|].
    destruct (Hp (or_intror Hw)) as [Hfull Hcl].
    destruct Hcase as [(_&_&_&->)|(_&->&_)]; [|done].
    by rewrite Hfull, Z.eqb_refl in Hn.
Qed.

Lemma close_step_inv s :
  sys_inv s -> mutex_free s ->
  sys_inv (deliver_all (close_locked (s_q s)).2
    (mkSys (close_locked (s_q s)).1 (s_prod s) (s_cons s) (s_buf s) (s_sent s) (s_recv s))).
Proof.
  intros [Hwf Hbuf Hfifo Hc Hp] [Hf1 Hf2].
  set (s1 := mkSys _ _ _ _ _ _). set (sgs := (close_locked (s_q s)).2).
  pose proof (deliver_cons_blocked s1 sgs) as Hcb.
  pose proof (deliver_prod_blocked s1 sgs) as Hpb.
  pose proof (deliver_all_spec s1 sgs) as E.
  constructor; rewrite E in *; cbn in *; try done.
  - by destruct Hwf.
  - intros Hb1. exfalso. destruct (Hcb Hb1) as [?|[Hw Hn]]; [done|].
    destruct (Hc (or_intror Hw)) as [Hz Hcl]. revert Hn. unfold sgs, close_locked. cbn.
    rewrite Hz, Z.eqb_refl. by destruct (0 =? _).
  - intros Hb1. exfalso. destruct (Hpb Hb1) as [?|[Hw Hn]]; [done|].
    destruct (Hp (or_intror Hw)) as [Hz Hcl]. revert Hn. unfold sgs, close_locked. cbn.
    by rewrite Hz, Z.eqb_refl.
Qed.

Lemma push_waits q b : push_locked q b = Waits -> count_ q = capacity_ q /\ closed_ q = false.
Proof.
  unfold push_locked. destruct (count_ q =? capacity_ q) eqn:E; [|done].
  destruct (closed_ q); [done|]. intros _. split; [lia|done].
Qed.

Lemma pop_waits q b : pop_locked q b = Waits -> count_ q = 0 /\ closed_ q = false.
Proof.
  unfold pop_locked. destruct (count_ q =? 0) eqn:E; [|done].
  destruct (closed_ q); [done|]. intros _. split; [lia|done].
Qed.

Lemma step_inv l s s' : close_locks = true -> step l s s' -> sys_inv s -> sys_inv s'.
Proof.
  intros Hlocks Hstep Hs. destruct Hstep as [? ? ? ? ? ? Hf ? ? Hp|? ? Hf ? Hp|? Hd
    |? ? ? ? ? Hf ? Hp|? Hf ? Hp|? Hd|? Hf|? ? Hd|? ? Hd].
  - by eapply push_step_inv.
  - apply push_waits in Hp as [? ?]. destruct Hs. constructor; cbn; try done.
  - destruct Hs as [? ? ? Hc Hp]. constructor; cbn; try done. intros _. apply Hp. by left.
  - by eapply pop_step_inv.
  - apply pop_waits in Hp as [? ?]. destruct Hs. constructor; cbn; try done.
  - destruct Hs as [? ? ? Hc Hp]. constructor; cbn; try done. intros _. apply Hc. by left.
  - apply close_step_inv; auto.
  - destruct Hs. constructor; cbn; try done. by intros [|].
  - destruct Hs. constructor; cbn; try done. by intros [|].
Qed.

Lemma reachable_inv cap s :
  close_locks = true -> ring_cap cap -> reachable cap s -> sys_inv s.
Proof.
  intros Hl Hc Hr. unfold reachable in Hr.
  refine (rtc_invariant _ _ _ _ _ Hr _); [|by apply sys_init_inv].
  intros x y [l Hst]. by eapply step_inv.
Qed.
End System.

(** ** Traces of non-blocking operations *)

Section Traces.
Context {Buffer V : Type} `{!Movable Buffer V, !MovableLaws Buffer V}.

Inductive bq_op :=
| OpPush (b : Buffer)
| OpPop (b : Buffer)  (* the object the popped value is moved into *)
| OpClose.

Inductive fifo_op :=
| FPush (v : V)
| FPop
| FClose.

Definition abs_op (o : bq_op) : fifo_op :=
  match o with OpPush b => FPush (contents_of b) | OpPop _ => FPop | OpClose => FClose end.

Definition bq_op_ok (o : bq_op) : Prop :=
  match o with OpPush b | OpPop b => movable_wf b | OpClose => True end.

(** Result code, value handed out, queue. *)
Definition bq_exec (o : bq_op) (q : BufferQueue Buffer) : Z * option V * BufferQueue Buffer :=
  match o with
  | OpPush b => let '(r, q', _, _) := try_push_locked q b in (r, None, q')
  | OpPop b =>
      let '(r, q', b', _) := try_pop_locked q b in
      (r, if r =? 0 then Some (contents_of b') else None, q')
  | OpClose => (0, None, (close_locked q).1)
  end.

Definition fifo_exec (o : fifo_op) (f : fifo (V := V)) : Z * option V * fifo (V := V) :=
  match o with
  | FPush v => let '(r, f') := fifo_push f v in (r, None, f')
  | FPop => let '(r, f', v) := fifo_pop f in (r, v, f')
  | FClose => (0, None, mkFifo (f_cap f) (f_items f) true)
  end.

Fixpoint run {O S} (exec : O -> S -> Z * option V * S) (ops : list O) (s : S)
    : list (Z * option V) * S :=
  match ops with
  | [] => ([], s)
  | o :: ops =>
      let '(r, v, s1) := exec o s in
      let '(out, s2) := run exec ops s1 in ((r, v) :: out, s2)
  end.

Lemma bq_exec_refines o q :
  bq_wf q -> bq_op_ok o ->
  let '(r, v, q') := bq_exec o q in
  fifo_exec (abs_op o) (abs q) = (r, v, abs q') /\ bq_wf q'.
Proof.
  intros Hq Ho. destruct o as [b|b|]; cbn [bq_exec fifo_exec abs_op].
  - pose proof (try_push_refines q b Hq Ho) as H.
    destruct (try_push_locked q b) as [[[r q'] b'] sg]. by destruct H as (->&?&_).
  - pose proof (try_pop_refines q b Hq Ho) as H.
    destruct (try_pop_locked q b) as [[[r q'] b'] sg]. destruct H as (v&Hf&Hwf&_&Hv).
    rewrite Hf. split; [|done]. do 2 f_equal.
    assert (Hr : (fifo_pop (abs q)).1.1 = r) by (by rewrite Hf).
    assert (Hv' : (fifo_pop (abs q)).2 = v) by (by rewrite Hf).
    unfold fifo_pop in Hr, Hv'. destruct (f_items (abs q)); cbn in Hr, Hv'; subst.
    + by destruct (closed_ q).
    + cbn. by f_equal.
  - split; [done|]. by destruct Hq.
Qed.
End Traces.

(** ** Properties *)

(** C20: run any sequence of [try_push_locked], [try_pop_locked] and
    [close_locked] on a valid queue: every result code and every buffer handed
    out is the one a bounded FIFO that can be closed gives (push fails with
    [-EIO] once closed and with [-EAGAIN] when full, pop drains a closed queue
    before it fails with [-EIO]), and the circular-array invariant holds at the
    end.  The queue is generic in the buffers it moves. *)
Theorem buffer_queue_refines_fifo {B V} `{!Movable B V, !MovableLaws B V} ops
    (q : BufferQueue B) :
  bq_wf q -> Forall bq_op_ok ops ->
  run fifo_exec (abs_op <$> ops) (abs q) =
    ((run bq_exec ops q).1, abs (run bq_exec ops q).2) /\ bq_wf (run bq_exec ops q).2.
Proof.
  intros Hq Hok. revert q Hq. induction Hok as [|o ops Ho _ IH]; intros q Hq; cbn; [done|].
  pose proof (bq_exec_refines o q Hq Ho) as H.
  destruct (bq_exec o q) as [[r v] q1]. destruct H as [-> Hq1].
  destruct (IH q1 Hq1) as [E ?]. rewrite E.
  by destruct (run bq_exec ops q1).
Qed.

Lemma buffer_queue_refines_fifo_witness :
  let b := sv_default 512 : Buffer in
  let ops := [OpPush b; OpPush b; OpPop b; OpClose; OpPush b; OpPop b; OpPop b] in
  run fifo_exec (abs_op <$> ops) (abs (bq_new 1)) =
    ((run bq_exec ops (bq_new 1)).1, abs (run bq_exec ops (bq_new 1)).2) /\
  bq_wf (run bq_exec ops (bq_new 1)).2.
Proof.
  apply (buffer_queue_refines_fifo
    [OpPush (sv_default 512 : Buffer); OpPush (sv_default 512); OpPop (sv_default 512);
     OpClose; OpPush (sv_default 512); OpPop (sv_default 512); OpPop (sv_default 512)]
    (bq_new 1)).
  - apply bq_new_wf. split; reflexivity.
  - repeat first [apply Forall_nil_2 | apply Forall_cons_2];
      first [exact I | by apply (sv_default_wf (T := Z) 512)].
Defined.

(** C22: with one producer, one consumer and any number of closing threads, all
    under the queue's mutex, in every reachable state of every interleaving
    (spurious wake-ups included): what was received followed by what is queued
    is what was sent, in order; a thread that is deciding to sleep or asleep has
    a reason to be (the consumer: the queue is empty and open; the producer: it
    is full and open), so no notification is lost; and the two are never asleep
    together. *)
Theorem buffer_queue_spsc {B V} `{!Movable B V, !MovableLaws B V} spurious cap
    (s : sys (Buffer := B) (V := V)) :
  ring_cap cap -> reachable true spurious cap s ->
  s_recv s ++ items (s_q s) = s_sent s /\
  (s_cons s = Deciding \/ s_cons s = Waiting -> items (s_q s) = [] /\ closed_ (s_q s) = false) /\
  (s_prod s = Deciding \/ s_prod s = Waiting ->
     zlen (items (s_q s)) = capacity_ (s_q s) /\ closed_ (s_q s) = false) /\
  ~ (s_cons s = Waiting /\ s_prod s = Waiting).
Proof.
  intros Hcap Hr. apply reachable_inv in Hr as [Hwf _ Hf Hc Hp]; [|done|done].
  pose proof (zlen_items _ Hwf) as Hl. split_and!; [done| | |].
  - intros Hb. destruct (Hc Hb) as [Hz ?]. split; [|done].
    apply length_zero_iff_nil. unfold zlen in Hl. lia.
  - intros Hb. destruct (Hp Hb) as [? ?]. split; [lia|done].
  - intros [H1 H2]. destruct (Hc (or_intror H1)), (Hp (or_intror H2)).
    pose proof (bq_wf_cap _ Hwf) as [? _]. lia.
Qed.

Lemma buffer_queue_spsc_witness :
  let s : sys (Buffer := Buffer) := sys_init 16 in
  s_recv s ++ items (s_q s) = s_sent s /\
  (s_cons s = Deciding \/ s_cons s = Waiting -> items (s_q s) = [] /\ closed_ (s_q s) = false) /\
  (s_prod s = Deciding \/ s_prod s = Waiting ->
     zlen (items (s_q s)) = capacity_ (s_q s) /\ closed_ (s_q s) = false) /\
  ~ (s_cons s = Waiting /\ s_prod s = Waiting).
Proof.
  apply (buffer_queue_spsc true 16 (sys_init (Buffer := Buffer) 16)).
  - split; reflexivity.
  - apply rtc_refl.
Defined.

(** Once closed behind the back of a sleeping consumer, no step but another
    [close_locked] wakes it. *)
Lemma closed_sleeper_stays {B V} `{!Movable B V, !MovableLaws B V} close_locks l
    (s s' : sys (Buffer := B) (V := V)) :
  l <> LClose -> step close_locks false l s s' ->
  closed_ (s_q s) = true /\ s_cons s = Waiting ->
  closed_ (s_q s') = true /\ s_cons s' = Waiting.
Proof.
  intros Hl Hstep [Hcl Hw]. destruct Hstep as [? ? ? ? ? ? ? ? ? Hp|? ? ? ? Hp|? ?
    |? ? ? ? ? ? Hca ?|? ? Hca ?|? Hd|? ?|? ? ?|? ? ?]; try done.
  - unfold push_locked, try_push_locked in Hp. rewrite Hcl in Hp.
    destruct (_ =? _); by injection Hp as <- <- <- <-.
  - destruct Hca; congruence.
  - destruct Hca; congruence.
Qed.

(** C36: [close_locked] called without the mutex of the waiting thread, which is
    what [BufferedIOStream::forceStop] does with [out_queue_] (it takes [lock_],
    the writer thread waits under [out_lock_]), can lose the wake-up: there is a
    reachable state in which the queue is closed, the consumer is asleep, and it
    stays asleep in every continuation without spurious wake-ups and without a
    second [close_locked]. *)
Theorem unlocked_close_loses_wakeup :
  exists s : sys (Buffer := Buffer),
    reachable false false 16 s /\ closed_ (s_q s) = true /\ s_cons s = Waiting /\
    forall s', rtc (fun a b => exists l, l <> LClose /\ step false false l a b) s s' ->
      closed_ (s_q s') = true /\ s_cons s' = Waiting.
Proof.
  set (q := close_locked (bq_new (Buffer := Buffer) 16)).
  exists (mkSys q.1 Running Waiting default_object [] []). split_and!; try done.
  - eapply rtc_l; [exists LPop; apply step_pop_decides; [by split|by left|reflexivity]|].
    eapply rtc_l; [exists LClose; by apply step_close|].
    eapply rtc_l; [exists LPop; by apply step_pop_sleeps|]. apply rtc_refl.
  - intros s' Hr. 
    refine (rtc_invariant _ (fun s => closed_ (s_q s) = true /\ s_cons s = Waiting)
              _ _ _ Hr _); [|done].
    intros x y (l & Hl & Hst). by eapply closed_sleeper_stays.
Qed.
