(* ===== verification/Gl.v ===== *)
(** * The host's EGL and OpenGL ES, as the renderer uses them

    The dispatch tables [s_egl], [s_gles1] and [s_gles2] lead to the host's
    driver, which is not part of the program: a [Driver] is any state with the
    entry points the renderer calls.  A handle ([EGLContext], [EGLSurface],
    [EGLImageKHR], texture, framebuffer) is an integer and [0] the null handle.
    There is one display, so no entry point but [eglGetDisplay] deals with it.  [DriverLaws] states the
    documented behaviour a theorem may need; [Toy] is a driver that satisfies
    it, for the witnesses.  The file also has the state monad the renderer's
    operations are written in. *)

From Stdlib Require Import SpecFloat.
From S2P Require Import Prelude.

(** ** Constants of the EGL and GLES headers *)

Definition EGL_NO_CONTEXT : Z := 0.
Definition EGL_NO_SURFACE : Z := 0.
Definition EGL_NONE : Z := 0x3038.
Definition EGL_SURFACE_TYPE : Z := 0x3033.
Definition EGL_PBUFFER_BIT : Z := 1.
Definition EGL_WINDOW_BIT : Z := 4.
Definition EGL_RED_SIZE : Z := 0x3024.
Definition EGL_GREEN_SIZE : Z := 0x3023.
Definition EGL_BLUE_SIZE : Z := 0x3022.
Definition EGL_CONFIG_ID : Z := 0x3028.
Definition EGL_EXTENSIONS : Z := 0x3055.
Definition GL_VERSION : Z := 0x1F02.
Definition GL_EXTENSIONS : Z := 0x1F03.
Definition GL_RGB : Z := 0x1907.
Definition GL_RGBA : Z := 0x1908.
Definition GL_RGB565_OES : Z := 0x8D62.
Definition GL_RGB5_A1_OES : Z := 0x8057.
Definition GL_RGBA4_OES : Z := 0x8056.
Definition GL_FRAMEBUFFER_COMPLETE : Z := 0x8CD5.
Definition GL_FALSE : Z := 0.
Definition GL_NO_ERROR : Z := 0.
Definition GL_FLOAT : Z := 0x1406.
Definition GL_UNSIGNED_BYTE : Z := 0x1401.
Definition GL_NEAREST : Z := 0x2600.
Definition GL_LINEAR : Z := 0x2601.
Definition GL_CLAMP_TO_EDGE : Z := 0x812F.
Definition GL_TEXTURE_MAG_FILTER : Z := 0x2800.
Definition GL_TEXTURE_MIN_FILTER : Z := 0x2801.
Definition GL_TEXTURE_WRAP_S : Z := 0x2802.
Definition GL_TEXTURE_WRAP_T : Z := 0x2803.
Definition GL_ARRAY_BUFFER : Z := 0x8892.
Definition GL_ELEMENT_ARRAY_BUFFER : Z := 0x8893.
Definition GL_VERTEX_SHADER : Z := 0x8B31.
Definition GL_FRAGMENT_SHADER : Z := 0x8B30.
Definition GL_COMPILE_STATUS : Z := 0x8B81.
Definition GL_LINK_STATUS : Z := 0x8B82.
Definition GL_VALIDATE_STATUS : Z := 0x8B83.
Definition GL_TRIANGLES : Z := 4.
Definition GL_TRIANGLE_STRIP : Z := 5.

(** ** The OpenGL ES calls

    Every one returns an integer, [0] where the function has no result. *)

Inductive GLCall :=
| GenTexture                                  (* glGenTextures(1, ..) *)
| GenFramebuffer
| GenBuffer
| BindTexture (tex : Z)
| TexImage2D (format w h type : Z) (data : option Z)  (* [Some n]: n zero bytes; [None]: NULL *)
| TexParameteri (pname value : Z)
| GetTexParameteriv (pname : Z)
| GetTextureBinding2D
| BindFramebuffer (fbo : Z)
| FramebufferTexture2D (tex : Z)
| CheckFramebufferStatus
| DeleteFramebuffers (fbos : list Z)
| DeleteTextures (texs : list Z)
| DeleteBuffers (bufs : list Z)
| PixelStoreUnpackAlignment (n : Z)
| TexSubImage2D (x y w h format type : Z) (pixels : list Z)
| EGLImageTargetTexture2D (image : Z)
| EGLImageTargetRenderbufferStorage (image : Z)
| CopyTexSubImage2D (w h : Z)
| SetViewport (x y w h : Z)
| GetError
| CreateShader (type : Z)
| ShaderSource (shader : Z) (source : list string)
| CompileShader (shader : Z)
| GetShaderiv (shader pname : Z)
| DeleteShader (shader : Z)
| CreateProgram
| AttachShader (program shader : Z)
| DetachShader (program shader : Z)
| LinkProgram (program : Z)
| DeleteProgram (program : Z)
| UseProgram (program : Z)
| ValidateProgram (program : Z)
| GetProgramiv (program pname : Z)
| GetAttribLocation (program : Z) (name : string)
| GetUniformLocation (program : Z) (name : string)
| BindBuffer (target buffer : Z)
| BufferData (target size : Z)
| EnableVertexAttribArray (slot : Z)
| VertexAttribPointer (slot size stride offset : Z)
| ActiveTexture0
| Uniform1i (slot value : Z)
| DrawArrays (mode count : Z)
| DrawElements (mode count : Z)
| Clear (mask : Z)
| ClearColor (r g b a : spec_float)
| ColorMask (r g b a : bool)
| Uniform1f (slot : Z) (x : spec_float)
| Uniform2f (slot : Z) (x y : spec_float)
| UniformMatrix4fv (slot : Z) (m : list spec_float)
| VertexArray (slot size stride : Z) (data : list spec_float)  (* floats in the program's memory *)
| Enable (cap : Z)
| BlendFuncSeparate (src_rgb dst_rgb src_alpha dst_alpha : Z).

Class Driver (D : Type) := {
  eglGetDisplay : Z -> D -> Z;                     (* native display *)
  eglInitialize : D -> option (Z * Z) * D;         (* the version *)
  eglBindAPI : Z -> D -> D;
  eglMakeCurrent : Z -> Z -> Z -> D -> bool * D;   (* draw, read, context *)
  eglGetCurrentContext : D -> Z;
  eglGetCurrentReadSurface : D -> Z;
  eglGetCurrentDrawSurface : D -> Z;
  eglCreatePbufferSurface : Z -> Z -> Z -> D -> Z * D;  (* config, width, height *)
  eglDestroySurface : Z -> D -> D;
  eglCreateContext : Z -> Z -> Z -> D -> Z * D;    (* config, share, client version *)
  eglDestroyContext : Z -> D -> D;
  eglCreateImageKHR : Z -> Z -> Z -> D -> Z * D;   (* context, target, buffer *)
  eglDestroyImageKHR : Z -> D -> Z * D;
  eglSwapBuffers : Z -> D -> D;                    (* surface *)
  eglGetConfigs : D -> option (list Z);
  eglGetConfigAttrib : D -> Z -> Z -> option Z;    (* config, attribute *)
  eglChooseConfig : D -> list Z -> Z -> option (list Z);  (* attributes, room *)
  eglQueryString : D -> Z -> string;
  gl : bool -> GLCall -> D -> Z * D;               (* true: s_gles2, false: s_gles1 *)
  glGetViewport : D -> Z * Z * Z * Z;
  glGetAttachedShaders : D -> Z -> list Z;
  glReadPixels : D -> Z -> Z -> Z -> Z -> Z -> Z -> list Z;  (* x, y, w, h, format, type *)
  glGetString : bool -> D -> Z -> option string
}.

(** What is bound on the calling thread. *)
Definition current {D} `{!Driver D} (d : D) : Z * Z * Z :=
  (eglGetCurrentDrawSurface d, eglGetCurrentReadSurface d, eglGetCurrentContext d).

(** Documented behaviour: a successful [eglMakeCurrent] makes its arguments
    current and a failing one changes nothing; the rendering calls do not change
    what is current; a viewport the driver has reported can be set again, and no
    other call moves it. *)
Class DriverLaws (D : Type) `{!Driver D} : Prop := {
  make_current_ok draw read ctx d :
    (eglMakeCurrent draw read ctx d).1 = true ->
    current (eglMakeCurrent draw read ctx d).2 = (draw, read, ctx);
  make_current_fails draw read ctx d :
    (eglMakeCurrent draw read ctx d).1 = false ->
    current (eglMakeCurrent draw read ctx d).2 = current d;
  viewport_restored api d d' :
    let '(x, y, w, h) := glGetViewport d in
    glGetViewport (gl api (SetViewport x y w h) d').2 = glGetViewport d;
  viewport_kept api c d :
    (forall x y w h, c <> SetViewport x y w h) ->
    glGetViewport (gl api c d).2 = glGetViewport d;
  gl_current api c d : current (gl api c d).2 = current d;
  create_image_current ctx target buf d : current (eglCreateImageKHR ctx target buf d).2 = current d;
  destroy_image_current image d : current (eglDestroyImageKHR image d).2 = current d;
  create_surface_current config w h d :
    current (eglCreatePbufferSurface config w h d).2 = current d;
  create_context_current config share version d :
    current (eglCreateContext config share version d).2 = current d;
  destroy_surface_current surface d : current (eglDestroySurface surface d) = current d;
  destroy_context_current ctx d : current (eglDestroyContext ctx d) = current d;
  swap_buffers_current surface d : current (eglSwapBuffers surface d) = current d;
  initialize_current d : current (eglInitialize d).2 = current d;
  bind_api_current api d : current (eglBindAPI api d) = current d
}.

(** A driver on which [eglMakeCurrent] always succeeds. *)
Class Reliable (D : Type) `{!Driver D} : Prop :=
  make_current_succeeds draw read ctx d : (eglMakeCurrent draw read ctx d).1 = true.

#[global] Hint Rewrite @gl_current @create_image_current @destroy_image_current
  using (try typeclasses eauto) : anbox.

(** ** The state monad *)

Definition M (W A : Type) : Type := W -> A * W.

#[export] Instance M_ret {W} : MRet (M W) := fun A a w => (a, w).
#[export] Instance M_bind {W} : MBind (M W) :=
  fun A B f m w => let '(a, w1) := m w in f a w1.

Definition gets {W A} (f : W -> A) : M W A := fun w => (f w, w).
Definition modify {W} (f : W -> W) : M W unit := fun w => (tt, f w).
Definition when {W} (b : bool) (m : M W unit) : M W unit := if b then m else mret tt.

(** Runs the calls in order. *)
Fixpoint mseq {W} (ms : list (M W unit)) : M W unit :=
  match ms with [] => mret tt | m :: ms => m ;; mseq ms end.

Lemma bind_run {W A B} (m : M W A) (f : A -> M W B) w :
  (m ≫= f) w = f (m w).1 (m w).2.
Proof. unfold mbind, M_bind. by destruct (m w). Qed.

#[export] Hint Rewrite @bind_run : anbox.
Arguments gets {W A} f w /.
Arguments modify {W} f w /.

(** ** Calls from a state that holds the driver *)

Class HasDriver (W D : Type) := {
  get_drv : W -> D;
  set_drv : D -> W -> W
}.

Class HasDriverLaws (W D : Type) `{!HasDriver W D} : Prop := {
  get_set_drv d (w : W) : get_drv (set_drv d w) = d;
  set_get_drv (w : W) : set_drv (get_drv w) w = w;
  set_set_drv d d' (w : W) : set_drv d (set_drv d' w) = set_drv d w
}.

#[export] Instance drv_self D : HasDriver D D := {| get_drv d := d; set_drv d _ := d |}.

#[export] Instance drv_self_laws D : HasDriverLaws D D.
Proof. done. Qed.

Section calls.
Context {W D : Type} `{!Driver D} `{!HasDriver W D}.

Definition gles (gles2 : bool) (c : GLCall) : M W Z :=
  fun w => let '(x, d) := gl gles2 c (get_drv w) in (x, set_drv d w).

(** A call of [s_gles2] for its result, and for its effect only. *)
Definition s_gles2 (c : GLCall) : M W Z := gles true c.
Definition s_gles2_ (c : GLCall) : M W unit := s_gles2 c ;; mret tt.
Definition gles_ (gles2 : bool) (c : GLCall) : M W unit := gles gles2 c ;; mret tt.
Definition egl_create_image (target buffer : Z) : M W Z :=
  fun w =>
    let d := get_drv w in
    let '(x, d) := eglCreateImageKHR (eglGetCurrentContext d) target buffer d in
    (x, set_drv d w).

Definition egl_destroy_image (image : Z) : M W unit :=
  fun w => (tt, set_drv (eglDestroyImageKHR image (get_drv w)).2 w).
End calls.

Section calls_run.
Context {W D : Type} `{!Driver D} `{!HasDriver W D} `{!HasDriverLaws W D}.

Lemma gles_drv api c (w : W) : get_drv (gles api c w).2 = (gl api c (get_drv w)).2.
Proof. unfold gles. destruct (gl _ _ _) as [x d]. cbn. by rewrite get_set_drv. Qed.

Lemma s_gles2_drv c (w : W) : get_drv (s_gles2_ c w).2 = (gl true c (get_drv w)).2.
Proof. unfold s_gles2_, s_gles2. rewrite bind_run. apply gles_drv. Qed.
End calls_run.

(** ** Relations that computations respect

    [respects R m]: a run of [m] leads from a state to one [R]-related to it.
    [GLInvariant R] says it of the calls to the driver; every computation that is
    made of them then respects [R] too, by [respects_tac]. *)

Definition respects {W A} (R : W -> W -> Prop) (m : M W A) : Prop :=
  forall w, R w (m w).2.

Section respects.
Context {W : Type} (R : W -> W -> Prop) `{!PreOrder R}.

Lemma respects_ret {A} (a : A) : respects R (mret a).
Proof. intros w. reflexivity. Qed.

Lemma respects_gets {A} (f : W -> A) : respects R (gets f).
Proof. intros w. reflexivity. Qed.

Lemma respects_bind {A B} (m : M W A) (f : A -> M W B) :
  respects R m -> (forall a, respects R (f a)) -> respects R (m ≫= f).
Proof. intros Hm Hf w. rewrite bind_run. etransitivity; [apply Hm|apply Hf]. Qed.

Lemma respects_when b (m : M W unit) : respects R m -> respects R (when b m).
Proof. destruct b; [done|]. intros _. apply respects_ret. Qed.

Lemma respects_mseq ms : Forall (respects R) ms -> respects R (mseq ms).
Proof. induction 1; cbn; [apply respects_ret|]. by apply respects_bind. Qed.
End respects.

Class GLInvariant {W D} `{!Driver D} `{!HasDriver W D} (R : W -> W -> Prop) : Prop := {
  gl_preorder :: PreOrder R;
  respects_gles api c : respects R (gles api c);
  respects_create_image target buffer : respects R (egl_create_image target buffer);
  respects_destroy_image image : respects R (egl_destroy_image image)
}.

Section gl_invariant.
Context {W D : Type} `{!Driver D} `{!HasDriver W D} (R : W -> W -> Prop) `{!GLInvariant R}.

Lemma respects_s_gles2 c : respects R (s_gles2 c).
Proof. apply respects_gles. Qed.

Lemma respects_gles_ api c : respects R (gles_ api c).
Proof. apply respects_bind; [apply _|apply respects_gles|intros; apply respects_ret, _]. Qed.

Lemma respects_s_gles2_ c : respects R (s_gles2_ c).
Proof. apply (respects_gles_ true). Qed.
End gl_invariant.

Create HintDb respects.
#[export] Hint Resolve respects_ret respects_gets respects_gles respects_gles_
  respects_s_gles2 respects_s_gles2_ respects_create_image respects_destroy_image : respects.
#[export] Hint Extern 0 (PreOrder _) => typeclasses eauto : respects.
#[export] Hint Extern 0 (GLInvariant _) => typeclasses eauto : respects.

(** Goes through a computation call by call. *)
Ltac respects_tac :=
  repeat first
    [ progress cbv zeta
    | lazymatch goal with |- forall _, _ => intros end
    | solve [auto with respects]
    | apply respects_bind; [typeclasses eauto| |]
    | apply respects_when; [typeclasses eauto|]
    | apply respects_mseq; [typeclasses eauto|apply Forall_fmap, Forall_true]
    | match goal with |- respects _ (match ?x with _ => _ end) => destruct x end ].

(** ** A driver for examples

    It remembers what is current, hands out consecutive handles and logs the
    drawing calls.  Handle requests fail while [toy_fail] is set. *)

Record Toy := mkToy {
  toy_current : Z * Z * Z;
  toy_next : Z;
  toy_fail : bool;
  toy_configs : list (Z * list (Z * Z));
  toy_log : list GLCall
}.

Definition toy_fresh (d : Toy) : Z * Toy :=
  if toy_fail d then (0, d)
  else (toy_next d, mkToy (toy_current d) (toy_next d + 1) (toy_fail d) (toy_configs d) (toy_log d)).

(** Names are handed out, status queries succeed, and the rest is logged. *)
Definition toy_gl (c : GLCall) (d : Toy) : Z * Toy :=
  match c with
  | GenTexture | GenFramebuffer | GenBuffer | CreateShader _ | CreateProgram => toy_fresh d
  | CheckFramebufferStatus => (GL_FRAMEBUFFER_COMPLETE, d)
  | GetShaderiv _ _ | GetProgramiv _ _ => (1, d)
  | GetError | GetTextureBinding2D | GetTexParameteriv _ | GetAttribLocation _ _
  | GetUniformLocation _ _ => (0, d)
  | _ => (0, mkToy (toy_current d) (toy_next d) (toy_fail d) (toy_configs d) (toy_log d ++ [c]))
  end.

Definition toy_viewport (d : Toy) : Z * Z * Z * Z :=
  foldl (fun v c => match c with SetViewport x y w h => (x, y, w, h) | _ => v end)
    (0, 0, 640, 480) (toy_log d).

Definition assoc (k : Z) {A} (l : list (Z * A)) : option A :=
  (fun x => x.2.2) <$> list_find (fun p => p.1 = k) l.

#[export] Instance toy_driver : Driver Toy := {|
  eglGetDisplay _ _ := 1;
  eglInitialize d := (Some (1, 4), d);
  eglBindAPI _ d := d;
  eglMakeCurrent draw read ctx d :=
    (true, mkToy (draw, read, ctx) (toy_next d) (toy_fail d) (toy_configs d) (toy_log d));
  eglGetCurrentContext d := (toy_current d).2;
  eglGetCurrentReadSurface d := (toy_current d).1.2;
  eglGetCurrentDrawSurface d := (toy_current d).1.1;
  eglCreatePbufferSurface _ _ _ d := toy_fresh d;
  eglDestroySurface _ d := d;
  eglCreateContext _ _ _ d := toy_fresh d;
  eglDestroyContext _ d := d;
  eglCreateImageKHR _ _ _ d := toy_fresh d;
  eglDestroyImageKHR _ d := (1, d);
  eglSwapBuffers _ d := d;
  eglGetConfigs d := Some (fst <$> toy_configs d);
  eglGetConfigAttrib d c a := assoc c (toy_configs d) ≫= assoc a;
  eglChooseConfig d _ room := Some (ztake room (fst <$> toy_configs d));
  eglQueryString _ _ := "EGL_KHR_image EGL_KHR_gl_texture_2D_image"%string;
  gl _ c d := toy_gl c d;
  glGetViewport := toy_viewport;
  glGetAttachedShaders _ _ := [];
  glReadPixels _ _ _ _ _ _ _ := [];
  glGetString _ _ _ := Some "GL_OES_EGL_image GL_OES_depth24"%string
|}.

#[export] Instance toy_driver_laws : DriverLaws Toy.
Proof.
  split.
  - done.
  - done.
  - intros api d d'. cbn. destruct (toy_viewport d) as [[[x y] w] h].
    unfold toy_viewport. cbn. by rewrite foldl_app.
  - intros api c d Hc. unfold toy_viewport. destruct c; cbn; unfold toy_fresh;
      try (by destruct (toy_fail d)); try (by rewrite foldl_app).
    by destruct (Hc x y w h).
  - intros api c d. destruct c; cbn; try done; unfold toy_fresh; by destruct (toy_fail d).
  - intros ctx target buf d. cbn. unfold toy_fresh. by destruct (toy_fail d).
  - done.
  - intros config w h d. cbn. unfold toy_fresh. by destruct (toy_fail d).
  - intros config share version d. cbn. unfold toy_fresh. by destruct (toy_fail d).
  - done.
  - done.
  - done.
  - done.
  - done.
Qed.

#[export] Instance toy_reliable : Reliable Toy.
Proof. done. Qed.

Definition toy_init : Toy := mkToy (0, 0, 0) 1 false [] [].
