(* ===== verification/RendererConfig.v ===== *)
(** * The list of guest configurations

    [src/src/anbox/graphics/emugl/RendererConfig.{h,cpp}]: the host's EGL
    configurations that support pbuffers and RGB, with the attributes the guest
    may ask for.  A guest id is an index of the list.  [Section RendererConfig]
    has the constructor, the choice of configurations (with the rewriting of the
    attribute list it passes to the host) and the packing of the whole list for
    the guest. *)

From S2P Require Import Prelude Gl.

Definition kConfigAttributes : list Z :=
  [0x3025; (* EGL_DEPTH_SIZE *)
   0x3026; (* EGL_STENCIL_SIZE *)
   0x3040; (* EGL_RENDERABLE_TYPE *)
   EGL_SURFACE_TYPE;
   EGL_CONFIG_ID;
   0x3020 (* BUFFER_SIZE *); 0x3021 (* ALPHA_SIZE *); EGL_BLUE_SIZE; EGL_GREEN_SIZE;
   EGL_RED_SIZE; 0x3027 (* CONFIG_CAVEAT *); 0x3029 (* LEVEL *); 0x302A (* MAX_PBUFFER_HEIGHT *);
   0x302B (* MAX_PBUFFER_PIXELS *); 0x302C (* MAX_PBUFFER_WIDTH *);
   0x302D (* NATIVE_RENDERABLE *); 0x302E (* NATIVE_VISUAL_ID *);
   0x302F (* NATIVE_VISUAL_TYPE *); 0x3031 (* SAMPLES *); 0x3032 (* SAMPLE_BUFFERS *);
   0x3034 (* TRANSPARENT_TYPE *); 0x3035 (* TRANSPARENT_BLUE_VALUE *);
   0x3036 (* TRANSPARENT_GREEN_VALUE *); 0x3037 (* TRANSPARENT_RED_VALUE *);
   0x3039 (* BIND_TO_TEXTURE_RGB *); 0x303A (* BIND_TO_TEXTURE_RGBA *);
   0x303B (* MIN_SWAP_INTERVAL *); 0x303C (* MAX_SWAP_INTERVAL *); 0x303D (* LUMINANCE_SIZE *);
   0x303E (* ALPHA_MASK_SIZE *); 0x303F (* COLOR_BUFFER_TYPE *); 0x3042 (* CONFORMANT *)].

Definition kConfigAttributesLen : Z := zlen kConfigAttributes.

Record RendererConfig := mkConfig {
  mEglConfig : Z;
  mAttribValues : list Z
}.

Definition getAttribValue (c : RendererConfig) (n : Z) : Z :=
  default 0 (zlookup (mAttribValues c) n).

Definition getDepthSize (c : RendererConfig) : Z := u32 (getAttribValue c 0).
Definition getStencilSize (c : RendererConfig) : Z := u32 (getAttribValue c 1).
Definition getRenderableType (c : RendererConfig) : Z := u32 (getAttribValue c 2).
Definition getSurfaceType (c : RendererConfig) : Z := u32 (getAttribValue c 3).
Definition getConfigId (c : RendererConfig) : Z := getAttribValue c 4.

(** The attribute list given to the host, from the guest's: pairs up to
    [EGL_NONE].  [None]: the loop reads past the end of the array. *)
Fixpoint attrib_pairs (attribs : list Z) : option (list (Z * Z)) :=
  match attribs with
  | k :: rest =>
      if k =? EGL_NONE then Some []
      else match rest with
           | v :: rest => (fun ps => (k, v) :: ps) <$> attrib_pairs rest
           | [] => None
           end
  | [] => None
  end.

Definition flatten (ps : list (Z * Z)) : list Z := concat ((fun p => [p.1; p.2]) <$> ps).

Definition hasSurfaceType (ps : list (Z * Z)) : bool :=
  existsb (fun p => p.1 =? EGL_SURFACE_TYPE) ps.

Definition mustReplaceSurfaceType (ps : list (Z * Z)) : bool :=
  existsb (fun p => (p.1 =? EGL_SURFACE_TYPE) && negb (p.2 =? EGL_PBUFFER_BIT)) ps.

(** What [chooseConfig] passes instead of the pairs [ps]. *)
Definition newAttribs (ps : list (Z * Z)) : list (Z * Z) :=
  if mustReplaceSurfaceType ps then
    (fun p => if p.1 =? EGL_SURFACE_TYPE then (p.1, EGL_PBUFFER_BIT) else p) <$> ps
  else if negb (hasSurfaceType ps) then ps ++ [(EGL_SURFACE_TYPE, EGL_PBUFFER_BIT)]
  else ps.

Section RendererConfig.
Context {D : Type} `{!Driver D}.

(** The value of an uninitialised [EGLint] on the stack. *)
Context (garbage : Z).

Definition isCompatibleHostConfig (d : D) (config : Z) : bool :=
  let surfaceType := default garbage (eglGetConfigAttrib d config EGL_SURFACE_TYPE) in
  if Z.land surfaceType EGL_PBUFFER_BIT =? 0 then false
  else
    let redSize := default 0 (eglGetConfigAttrib d config EGL_RED_SIZE) in
    let greenSize := default 0 (eglGetConfigAttrib d config EGL_GREEN_SIZE) in
    let blueSize := default 0 (eglGetConfigAttrib d config EGL_BLUE_SIZE) in
    negb ((redSize =? 0) || (greenSize =? 0) || (blueSize =? 0)).

Definition RendererConfig_new (d : D) (hostConfig : Z) : RendererConfig :=
  mkConfig hostConfig
    ((fun a => let v := default 0 (eglGetConfigAttrib d hostConfig a) in
               if a =? EGL_SURFACE_TYPE then Z.lor v EGL_WINDOW_BIT else v)
     <$> kConfigAttributes).

(** The constructor of the list ([display] is valid): the host's
    configurations, filtered. *)
Definition RendererConfigList_new (d : D) : list RendererConfig :=
  match eglGetConfigs d with
  | None => []
  | Some hostConfigs =>
      RendererConfig_new d <$> List.filter (isCompatibleHostConfig d) hostConfigs
  end.

Definition config_get (cl : list RendererConfig) (guestId : Z) : option RendererConfig :=
  if (0 <=? guestId) && (guestId <? zlen cl) then zlookup cl guestId else None.

(** The inner loop of [chooseConfig]: the guest id of a host config id. *)
Fixpoint find_config (cl : list RendererConfig) (k hostConfigId : Z) : option Z :=
  match cl with
  | [] => None
  | c :: cl => if getConfigId c =? hostConfigId then Some k else find_config cl (k + 1) hostConfigId
  end.

(** The outer loop: [configs] is [None] for a null pointer, otherwise the ids
    written so far; [result] counts the matches. *)
Fixpoint choose_loop (d : D) (cl : list RendererConfig) (matched : list Z)
    (configs : option (list Z)) (configsSize result : Z) : Z * option (list Z) :=
  match matched with
  | [] => (result, configs)
  | mc :: rest =>
      if bool_decide (is_Some configs) && (0 <? configsSize) && (configsSize <=? result)
      then (result, configs)
      else if negb (isCompatibleHostConfig d mc) then
        choose_loop d cl rest configs configsSize result
      else
        match find_config cl 0 (default garbage (eglGetConfigAttrib d mc EGL_CONFIG_ID)) with
        | Some k =>
            let configs' :=
              match configs with
              | Some out => Some (if result <? configsSize then out ++ [u32 k] else out)
              | None => None
              end in
            choose_loop d cl rest configs' configsSize (result + 1)
        | None => choose_loop d cl rest configs configsSize result
        end
  end.

Definition chooseConfig (d : D) (cl : list RendererConfig) (attribs : list Z)
    (configs : bool) (configsSize : Z) : option (Z * option (list Z)) :=
  let out := if configs then Some [] else None in
  match eglGetConfigs d with
  | None => Some (0, out)
  | Some hostConfigs =>
      ps ← attrib_pairs attribs;
      let matched :=
        default [] (eglChooseConfig d (flatten (newAttribs ps) ++ [EGL_NONE]) (zlen hostConfigs)) in
      Some (choose_loop d cl matched out configsSize 0)
  end.

Definition getPackInfo (cl : list RendererConfig) : Z * Z := (zlen cl, kConfigAttributesLen).

(** Result and what is written to the buffer, as 32-bit words.
    [bufferByteSize] is [None] for a null buffer. *)
Definition packConfigs (cl : list RendererConfig) (buffer : bool) (bufferByteSize : Z)
    : Z * list Z :=
  let neededByteSize := u32 ((zlen cl + 1) * kConfigAttributesLen * 4) in
  if negb buffer || (bufferByteSize <? neededByteSize) then (i32 (- neededByteSize), [])
  else (zlen cl, kConfigAttributes ++ concat ((fun c => u32 <$> mAttribValues c) <$> cl)).
End RendererConfig.

(** ** The attribute list *)

Definition keyed (key : Z) (p : Z * Z) : bool := p.1 =? key.

Definition not_surface (p : Z * Z) : bool := negb (keyed EGL_SURFACE_TYPE p).

Lemma attrib_pairs_flatten ps :
  Forall (fun p => p.1 <> EGL_NONE) ps -> attrib_pairs (flatten ps ++ [EGL_NONE]) = Some ps.
Proof.
  induction 1 as [|[k v] ps Hk _ IH]; [done|]. cbn in Hk.
  change (flatten ((k, v) :: ps) ++ [EGL_NONE]) with (k :: v :: flatten ps ++ [EGL_NONE]).
  cbn [attrib_pairs]. rewrite IH. by rewrite (proj2 (Z.eqb_neq k EGL_NONE)).
Qed.

Lemma attrib_pairs_keys attribs ps :
  attrib_pairs attribs = Some ps -> Forall (fun p => p.1 <> EGL_NONE) ps.
Proof.
  remember (length attribs) as n eqn:Hn. revert attribs ps Hn.
  induction (lt_wf n) as [n _ IH]. intros [|k [|v rest]] ps Hn; cbn; try done.
  - case_match; [|done]. by intros [= <-].
  - destruct (k =? EGL_NONE) eqn:E; [by intros [= <-]|].
    destruct (attrib_pairs rest) as [ps'|] eqn:Hr; [|done]. intros [= <-].
    constructor; [cbn; lia|]. eapply (IH (length rest)); [|done|done].
    subst n. cbn. lia.
Qed.

Lemma newAttribs_keys ps :
  Forall (fun p => p.1 <> EGL_NONE) ps -> Forall (fun p => p.1 <> EGL_NONE) (newAttribs ps).
Proof.
  intros H. unfold newAttribs. case_match; [|case_match; [|done]].
  - apply Forall_fmap. eapply Forall_impl; [done|]. intros p Hp. cbn. by case_match.
  - apply Forall_app. split; [done|]. by repeat constructor.
Qed.

Lemma newAttribs_others ps :
  List.filter not_surface (newAttribs ps) = List.filter not_surface ps.
Proof.
  unfold newAttribs. case_match; [|case_match; [|done]].
  - induction ps as [|[k v] ps IH] in |- *; [done|].
    assert (Hn : forall v, not_surface (k, v) = negb (k =? EGL_SURFACE_TYPE)) by done.
    rewrite fmap_cons. cbn [fst].
    destruct (k =? EGL_SURFACE_TYPE) eqn:E; cbn [List.filter]; rewrite !Hn; cbn [negb];
      [exact IH | by f_equal].
  - rewrite List.filter_app. cbn. apply app_nil_r.
Qed.

Lemma newAttribs_pbuffer ps :
  Forall (fun p => p.1 = EGL_SURFACE_TYPE -> p.2 = EGL_PBUFFER_BIT) (newAttribs ps).
Proof.
  unfold newAttribs. case_match eqn:E1; [|case_match eqn:E2].
  - apply Forall_fmap, Forall_true. intros [k v]. cbn.
    destruct (k =? EGL_SURFACE_TYPE) eqn:E; cbn; [done|]. lia.
  - apply Forall_app. split; [|by repeat constructor].
    apply Forall_forall. intros [k v] Hin Hk. cbn in Hk. subst k.
    apply negb_true_iff in E2. exfalso.
    assert (hasSurfaceType ps = true); [|congruence].
    apply existsb_exists. exists (EGL_SURFACE_TYPE, v). split; [by apply list_elem_of_In|done].
  - apply Forall_forall. intros [k v] Hin Hk. cbn in *. subst k.
    destruct (v =? EGL_PBUFFER_BIT) eqn:Ev; [lia|]. exfalso.
    assert (mustReplaceSurfaceType ps = true); [|congruence].
    apply existsb_exists. exists (EGL_SURFACE_TYPE, v).
    split; [by apply list_elem_of_In|]. cbn. by rewrite Ev.
Qed.

Lemma newAttribs_has_surface ps : hasSurfaceType (newAttribs ps) = true.
Proof.
  unfold newAttribs. case_match eqn:E1; [|case_match eqn:E2].
  - apply existsb_exists in E1 as ([k v]&Hin&Hk). cbn in Hk.
    apply andb_true_iff in Hk as [Hk _].
    apply existsb_exists. exists (EGL_SURFACE_TYPE, EGL_PBUFFER_BIT). split; [|done].
    apply in_map_iff. exists (k, v). cbn. rewrite Hk. split; [f_equal; lia|done].
  - unfold hasSurfaceType. rewrite existsb_app. cbn. apply orb_true_r.
  - by apply negb_false_iff.
Qed.

(** ** The choice loop *)

Section choose.
Context {D : Type} `{!Driver D} (garbage : Z) (d : D) (cl : list RendererConfig).

(** [k] is the guest id of a compatible configuration among [matched]. *)
Definition chosen (matched : list Z) (k : Z) : Prop :=
  exists mc c, mc ∈ matched /\ isCompatibleHostConfig garbage d mc = true /\
    config_get cl k = Some c /\
    getConfigId c = default garbage (eglGetConfigAttrib d mc EGL_CONFIG_ID).

Lemma find_config_spec l k0 id k :
  find_config l k0 id = Some k ->
  k0 <= k < k0 + zlen l /\ exists c, zlookup l (k - k0) = Some c /\ getConfigId c = id.
Proof.
  revert k0. induction l as [|c l IH]; intros k0; cbn; [done|].
  destruct (getConfigId c =? id) eqn:E.
  - intros [= <-]. unfold zlen. cbn. split; [lia|]. exists c.
    replace (k0 - k0) with 0 by lia. split; [done|lia].
  - intros (Hr & c' & Hl & Hc)%IH. unfold zlen in *. cbn. split; [lia|].
    exists c'. split; [|done]. unfold zlookup in *.
    rewrite decide_True in Hl by lia. rewrite decide_True by lia.
    by replace (Z.to_nat (k - k0)) with (S (Z.to_nat (k - (k0 + 1)))) by lia.
Qed.

Lemma find_config_get id k :
  find_config cl 0 id = Some k ->
  0 <= k < zlen cl /\ exists c, config_get cl k = Some c /\ getConfigId c = id.
Proof.
  intros (Hk & c & Hl & Hc)%find_config_spec. split; [lia|]. exists c. split; [|done].
  unfold config_get. replace (k - 0) with k in Hl by lia.
  replace ((0 <=? k) && (k <? zlen cl)) with true by lia. done.
Qed.

Lemma choose_loop_spec matched out size n0 n out' :
  zlen cl < 2 ^ 32 -> zlen out <= Z.max 0 size -> 0 <= n0 ->
  (0 < size -> zlen out = n0) ->
  choose_loop garbage d cl matched (Some out) size n0 = (n, Some out') ->
  zlen out' <= Z.max 0 size /\ (0 < size -> zlen out' = n) /\
  exists tl, out' = out ++ tl /\ Forall (chosen matched) tl.
Proof.
  intros Hcl. revert out n0. induction matched as [|mc rest IH]; intros out n0 Hout Hn0 Heq; cbn.
  { intros [= <- <-]. split; [done|]. split; [done|]. exists []. by rewrite app_nil_r. }
  assert (Hmono : forall tl, Forall (chosen rest) tl -> Forall (chosen (mc :: rest)) tl).
  { intros tl Htl. eapply Forall_impl; [exact Htl|]. intros k (mc'&c&Hin&?). exists mc', c.
    split; [|done]. by apply elem_of_cons; right. }
  assert (Hstep : forall n1 out1 tl1, 0 <= n1 -> zlen out1 <= Z.max 0 size ->
    (0 < size -> zlen out1 = n1) -> out1 = out ++ tl1 -> Forall (chosen (mc :: rest)) tl1 ->
    choose_loop garbage d cl rest (Some out1) size n1 = (n, Some out') ->
    zlen out' <= Z.max 0 size /\ (0 < size -> zlen out' = n) /\
    exists tl, out' = out ++ tl /\ Forall (chosen (mc :: rest)) tl).
  { intros n1 out1 tl1 Hn1 Ho1 He1 -> Htl1 Hrun.
    destruct (IH _ _ Ho1 Hn1 He1 Hrun) as (?&?&tl&->&Htl).
    split_and!; [done|done|]. exists (tl1 ++ tl). rewrite app_assoc. split; [done|].
    apply Forall_app. auto. }
  destruct ((0 <? size) && (size <=? n0)) eqn:Estop.
  { intros [= <- <-]. split; [done|]. split; [done|]. exists []. by rewrite app_nil_r. }
  destruct (isCompatibleHostConfig garbage d mc) eqn:Ecomp; cbn [negb].
  2: { by apply (Hstep n0 out []); rewrite ?app_nil_r. }
  destruct (find_config cl 0 _) as [k|] eqn:Ef.
  2: { by apply (Hstep n0 out []); rewrite ?app_nil_r. }
  apply find_config_get in Ef as (Hk & c & Hget & Hc).
  destruct (n0 <? size) eqn:Elt.
  - apply (Hstep (n0 + 1) _ [u32 k]); [lia| | |done|].
    + rewrite zlen_app. change (zlen [u32 k]) with 1. lia.
    + rewrite zlen_app. change (zlen [u32 k]) with 1. lia.
    + constructor; [|done]. exists mc, c. rewrite wrapu_id by (unfold in_u; lia).
      split; [by apply elem_of_cons; left|done].
  - by apply (Hstep (n0 + 1) _ []); rewrite ?app_nil_r; try lia.
Qed.
End choose.

(** ** Properties *)

(** The attribute list [chooseConfig] gives the host.  Whatever list the
    guest sends (pairs up to [EGL_NONE]), the list built from it is again a
    well-formed list of pairs, asks for [EGL_PBUFFER_BIT] in every
    [EGL_SURFACE_TYPE] entry, has at least one such entry, and keeps every other
    pair, in order. *)
Theorem choose_attribs_force_pbuffer attribs ps :
  attrib_pairs attribs = Some ps ->
  attrib_pairs (flatten (newAttribs ps) ++ [EGL_NONE]) = Some (newAttribs ps) /\
  Forall (fun p => p.1 = EGL_SURFACE_TYPE -> p.2 = EGL_PBUFFER_BIT) (newAttribs ps) /\
  hasSurfaceType (newAttribs ps) = true /\
  List.filter not_surface (newAttribs ps) = List.filter not_surface ps.
Proof.
  intros H. split_and!.
  - by apply attrib_pairs_flatten, newAttribs_keys, (attrib_pairs_keys attribs).
  - apply newAttribs_pbuffer.
  - apply newAttribs_has_surface.
  - apply newAttribs_others.
Qed.

Lemma choose_attribs_force_pbuffer_witness :
  let ps := [(EGL_RED_SIZE, 8); (EGL_SURFACE_TYPE, EGL_WINDOW_BIT)] in
  newAttribs ps = [(EGL_RED_SIZE, 8); (EGL_SURFACE_TYPE, EGL_PBUFFER_BIT)] /\
  (attrib_pairs (flatten (newAttribs ps) ++ [EGL_NONE]) = Some (newAttribs ps) /\
   Forall (fun p => p.1 = EGL_SURFACE_TYPE -> p.2 = EGL_PBUFFER_BIT) (newAttribs ps) /\
   hasSurfaceType (newAttribs ps) = true /\
   List.filter not_surface (newAttribs ps) = List.filter not_surface ps).
Proof.
  split; [reflexivity|].
  apply (choose_attribs_force_pbuffer
           [EGL_RED_SIZE; 8; EGL_SURFACE_TYPE; EGL_WINDOW_BIT; EGL_NONE; 99]).
  reflexivity.
Defined.

(** [chooseConfig] called with an output array never writes more entries
    than the array holds; every entry written is a valid guest id whose
    configuration id is that of a compatible configuration the host matched; and
    when the array has room for at least one entry the result is the number of
    entries written. *)
Theorem choose_config_bounds {D} `{!Driver D} garbage (d : D) cl attribs size n out :
  zlen cl < 2 ^ 32 ->
  chooseConfig garbage d cl attribs true size = Some (n, Some out) ->
  zlen out <= Z.max 0 size /\ (0 < size -> zlen out = n) /\
  exists matched, Forall (chosen garbage d cl matched) out.
Proof.
  unfold chooseConfig. intros Hcl. destruct (eglGetConfigs d) as [host|].
  2: { intros [= <- <-]. split_and!; [unfold zlen; cbn; lia|done|by exists []]. }
  destruct (attrib_pairs attribs) as [ps|]; [|done]. cbn [mbind option_bind].
  set (matched := default [] _). intros [= Hrun].
  destruct (choose_loop_spec garbage d cl matched [] size 0 n out) as (?&?&tl&->&?);
    [done|unfold zlen; cbn; lia|lia|done|done|].
  split_and!; [done|done|by exists matched].
Qed.

Lemma choose_config_bounds_witness :
  let d := mkToy (0, 0, 0) 1 false
    [(10, [(EGL_SURFACE_TYPE, 5); (EGL_RED_SIZE, 8); (EGL_GREEN_SIZE, 8); (EGL_BLUE_SIZE, 8);
           (EGL_CONFIG_ID, 1)]);
     (11, [(EGL_SURFACE_TYPE, 4)]);
     (12, [(EGL_SURFACE_TYPE, 1); (EGL_RED_SIZE, 5); (EGL_GREEN_SIZE, 6); (EGL_BLUE_SIZE, 5);
           (EGL_CONFIG_ID, 3)])] [] in
  let cl := RendererConfigList_new 0 d in
  chooseConfig 0 d cl [EGL_NONE] true 4 = Some (2, Some [0; 1]) /\
  (zlen [0; 1] <= Z.max 0 4 /\ (0 < 4 -> zlen [0; 1] = 2) /\
   exists matched, Forall (chosen 0 d cl matched) [0; 1]).
Proof.
  split; [by vm_compute|].
  apply (choose_config_bounds 0 _ _ [EGL_NONE] 4 2 [0; 1]); by vm_compute.
Defined.

(** [packConfigs] with a large enough buffer writes the attribute ids and
    then, configuration by configuration, all their values: [n + 1] rows of
    [kConfigAttributesLen] words, which is exactly the size it asks for; with a
    null or too small buffer it writes nothing and returns minus that size. *)
Lemma pack_configs_layout cl buffer size :
  (zlen cl + 1) * kConfigAttributesLen * 4 < 2 ^ 31 ->
  Forall (fun c => zlen (mAttribValues c) = kConfigAttributesLen) cl ->
  let needed := (zlen cl + 1) * kConfigAttributesLen * 4 in
  let '(r, words) := packConfigs cl buffer size in
  if buffer && (needed <=? size) then
    r = zlen cl /\ zlen words * 4 = needed /\
    ztake kConfigAttributesLen words = kConfigAttributes /\
    forall i c, zlookup cl (Z.of_nat i) = Some c ->
      ztake kConfigAttributesLen (zdrop ((Z.of_nat i + 1) * kConfigAttributesLen) words)
      = u32 <$> mAttribValues c
  else r = - needed /\ words = [].
Proof.
  intros Hsz Hrows needed. unfold packConfigs.
  assert (Hn : 0 <= needed).
  { assert (kConfigAttributesLen = 32) as HK by reflexivity. unfold needed. rewrite HK.
    pose proof (zlen_nonneg cl). lia. }
  fold needed. rewrite (wrapu_id 32 needed) by (unfold in_u; lia).
  destruct buffer; cbn [negb orb andb].
  2: { split; [|done]. apply wraps_id; [done|]. unfold in_s. lia. }
  destruct (size <? needed) eqn:Esz.
  { replace (needed <=? size) with false by lia. split; [|done].
    apply wraps_id; [done|]. unfold in_s. lia. }
  replace (needed <=? size) with true by lia.
  assert (Hlen : forall l, Forall (fun c => zlen (mAttribValues c) = kConfigAttributesLen) l ->
    zlen (concat ((fun c => u32 <$> mAttribValues c) <$> l)) = zlen l * kConfigAttributesLen).
  { induction 1 as [|c l Hc _ IH]; [done|]. cbn. rewrite zlen_app, IH.
    unfold zlen in *. rewrite length_fmap. cbn. lia. }
  split_and!; [done| |apply ztake_app_exact|].
  - rewrite zlen_app, Hlen by done. fold kConfigAttributesLen. unfold needed. lia.
  - clear Esz Hn needed Hsz. intros i c Hi. unfold zlookup in Hi.
    rewrite decide_True, Nat2Z.id in Hi by lia.
    unfold zdrop. replace (Z.to_nat ((Z.of_nat i + 1) * kConfigAttributesLen))
      with (length kConfigAttributes + i * length kConfigAttributes)%nat
      by (unfold kConfigAttributesLen, zlen; lia).
    rewrite <- drop_drop, drop_app_length. clear Hlen.
    revert cl Hrows Hi. induction i as [|i IH]; intros [|c0 cl] Hrows Hi; try done.
    + injection Hi as ->. apply Forall_cons in Hrows as [Hc _]. cbn [fmap list_fmap concat].
      cbn [Nat.mul]. rewrite drop_0. unfold ztake. rewrite <- Hc. unfold zlen.
      rewrite Nat2Z.id. replace (length (mAttribValues c)) with (length (u32 <$> mAttribValues c))
        by apply length_fmap. apply take_app_length.
    + apply Forall_cons in Hrows as [Hc Hrows]. cbn [fmap list_fmap concat].
      cbn [Nat.mul]. replace (length kConfigAttributes) with (length (u32 <$> mAttribValues c0)) at 1
        by (rewrite length_fmap; unfold kConfigAttributesLen, zlen in Hc; lia).
      rewrite <- drop_drop, drop_app_length. by apply IH.
Qed.

Lemma pack_configs_layout_witness :
  let cl := [mkConfig 10 (replicate 32 7)] in
  let '(r, words) := packConfigs cl true 256 in
  if true && ((zlen cl + 1) * kConfigAttributesLen * 4 <=? 256) then
    r = zlen cl /\ zlen words * 4 = (zlen cl + 1) * kConfigAttributesLen * 4 /\
    ztake kConfigAttributesLen words = kConfigAttributes /\
    forall i c, zlookup cl (Z.of_nat i) = Some c ->
      ztake kConfigAttributesLen (zdrop ((Z.of_nat i + 1) * kConfigAttributesLen) words)
      = u32 <$> mAttribValues c
  else r = - ((zlen cl + 1) * kConfigAttributesLen * 4) /\ words = [].
Proof.
  apply (pack_configs_layout [mkConfig 10 (replicate 32 7)] true 256).
  - by vm_compute.
  - by repeat constructor.
Defined.
