(* ===== verification/TextureDraw.v ===== *)
(** * Filling the viewport with a texture

    [src/src/anbox/graphics/emugl/TextureDraw.cpp]: the shaders, the program with
    its two attributes and one uniform, and the draw call.  The operations run in
    any state [W] that holds the driver.  Logging is left out. *)

From S2P Require Import Prelude Gl.

Record TextureDraw := mkTD {
  mVertexShader : Z;
  mFragmentShader : Z;
  mProgram : Z;
  mPositionSlot : Z;
  mInCoordSlot : Z;
  mTextureSlot : Z;
  mVertexBuffer : Z;
  mIndexBuffer : Z
}.

Definition kVertexShaderSource : string := lines [
  "attribute vec4 position;";
  "attribute vec2 inCoord;";
  "varying lowp vec2 outCoord;";
  "void main(void) {";
  "  gl_Position.x = position.x;";
  "  gl_Position.y = position.y;";
  "  gl_Position.zw = position.zw;";
  "  outCoord = inCoord;";
  "}"].

Definition kFragmentShaderSource : string := lines [
  "varying lowp vec2 outCoord;";
  "uniform sampler2D texture;";
  "void main(void) {";
  "  gl_FragColor = texture2D(texture, outCoord);";
  "}"].

(** [sizeof(Vertex)]: five floats. *)
Definition sizeof_Vertex : Z := 20.
Definition kVerticesLen : Z := 4.
Definition kIndices : list Z := [0; 1; 2; 2; 3; 0].
Definition kIndicesLen : Z := zlen kIndices.

Section ops.
Context {W D : Type} `{!Driver D} `{!HasDriver W D}.

Definition createShader (shaderType : Z) (shaderText : string) : M W Z :=
  shader ← s_gles2 (CreateShader shaderType);
  if shader =? 0 then mret 0
  else
    s_gles2_ (ShaderSource shader [shaderText]) ;;
    s_gles2_ (CompileShader shader) ;;
    success ← s_gles2 (GetShaderiv shader GL_COMPILE_STATUS);
    if success =? GL_FALSE then s_gles2_ (DeleteShader shader) ;; mret 0
    else mret shader.

(** The constructor; the buffers stay uninitialised when linking fails. *)
Definition TextureDraw_new (garbage : Z) : M W TextureDraw :=
  vs ← createShader GL_VERTEX_SHADER kVertexShaderSource;
  fs ← createShader GL_FRAGMENT_SHADER kFragmentShaderSource;
  prog ← s_gles2 CreateProgram;
  s_gles2_ (AttachShader prog vs) ;;
  s_gles2_ (AttachShader prog fs) ;;
  s_gles2_ (LinkProgram prog) ;;
  success ← s_gles2 (GetProgramiv prog GL_LINK_STATUS);
  if success =? GL_FALSE then
    s_gles2_ (DeleteProgram prog) ;;
    mret (mkTD vs fs 0 (-1) (-1) (-1) garbage garbage)
  else
    s_gles2_ (UseProgram prog) ;;
    pos ← s_gles2 (GetAttribLocation prog "position");
    s_gles2_ (EnableVertexAttribArray pos) ;;
    inc ← s_gles2 (GetAttribLocation prog "inCoord");
    s_gles2_ (EnableVertexAttribArray inc) ;;
    tex ← s_gles2 (GetUniformLocation prog "texture");
    vb ← s_gles2 GenBuffer;
    s_gles2_ (BindBuffer GL_ARRAY_BUFFER vb) ;;
    s_gles2_ (BufferData GL_ARRAY_BUFFER (sizeof_Vertex * kVerticesLen)) ;;
    ib ← s_gles2 GenBuffer;
    s_gles2_ (BindBuffer GL_ELEMENT_ARRAY_BUFFER ib) ;;
    s_gles2_ (BufferData GL_ELEMENT_ARRAY_BUFFER kIndicesLen) ;;
    mret (mkTD vs fs prog pos inc tex vb ib).

(** [GetError] results are only logged. *)
Definition draw (td : TextureDraw) (texture : Z) : M W bool :=
  if mProgram td =? 0 then mret false
  else
    s_gles2_ (UseProgram (mProgram td)) ;;
    s_gles2_ GetError ;;
    s_gles2_ (BindBuffer GL_ARRAY_BUFFER (mVertexBuffer td)) ;;
    s_gles2_ GetError ;;
    s_gles2_ (EnableVertexAttribArray (mPositionSlot td)) ;;
    s_gles2_ (VertexAttribPointer (mPositionSlot td) 3 sizeof_Vertex 0) ;;
    s_gles2_ GetError ;;
    s_gles2_ (EnableVertexAttribArray (mInCoordSlot td)) ;;
    s_gles2_ (VertexAttribPointer (mInCoordSlot td) 2 sizeof_Vertex 12) ;;
    s_gles2_ ActiveTexture0 ;;
    s_gles2_ (BindTexture texture) ;;
    s_gles2_ (Uniform1i (mTextureSlot td) 0) ;;
    s_gles2_ (ValidateProgram (mProgram td)) ;;
    validState ← s_gles2 (GetProgramiv (mProgram td) GL_VALIDATE_STATUS);
    if validState =? GL_FALSE then mret false
    else
      s_gles2_ (BindBuffer GL_ELEMENT_ARRAY_BUFFER (mIndexBuffer td)) ;;
      s_gles2_ GetError ;;
      s_gles2_ (DrawElements GL_TRIANGLES kIndicesLen) ;;
      s_gles2_ GetError ;;
      mret true.

Definition TextureDraw_delete (td : TextureDraw) : M W unit :=
  s_gles2_ (DeleteBuffers [mIndexBuffer td]) ;;
  s_gles2_ (DeleteBuffers [mVertexBuffer td]) ;;
  when (negb (mFragmentShader td =? 0)) (s_gles2_ (DeleteShader (mFragmentShader td))) ;;
  when (negb (mVertexShader td =? 0)) (s_gles2_ (DeleteShader (mVertexShader td))).
End ops.
