(* ===== verification/TextureResize.v ===== *)
(** * Down-scaling of textures

    [src/src/anbox/graphics/emugl/TextureResize.cpp]: a texture that is drawn in
    a viewport at most half its size is first scaled down by a power of two,
    horizontally into one framebuffer and then vertically into a second one.  The
    operations run in any state [W] that holds the driver; [update] returns the
    texture to draw and the updated object.  Logging is left out.  The theorems
    show that the factor is the largest allowed one that keeps the image at least
    as large as the viewport, and that [update] leaves the viewport alone. *)

From stdpp Require Import pretty.
From S2P Require Import Prelude Gl.

Definition MAX_FACTOR_POWER : nat := 4.

Definition kCommonShaderSource : string := lines [
  "precision mediump float;";
  "varying vec2 vUV00, vUV01;";
  "#if FACTOR > 2";
  "varying vec2 vUV02, vUV03;";
  "#if FACTOR > 4";
  "varying vec2 vUV04, vUV05, vUV06, vUV07;";
  "#if FACTOR > 8";
  "varying vec2 vUV08, vUV09, vUV10, vUV11, vUV12, vUV13, vUV14, vUV15;";
  "#endif";
  "#endif";
  "#endif"].

Definition kVertexShaderSource : string := lines [
  "attribute vec2 aPosition;";
  "void main() {";
  "  gl_Position = vec4(aPosition, 0, 1);";
  "  vec2 uv = ((aPosition + 1.0) / 2.0) + 0.5 / kDimension;";
  "  vUV00 = uv;";
  "  #ifdef HORIZONTAL";
  "  vUV01 = uv + vec2( 1.0 / kDimension.x, 0);";
  "  #if FACTOR > 2";
  "  vUV02 = uv + vec2( 2.0 / kDimension.x, 0);";
  "  vUV03 = uv + vec2( 3.0 / kDimension.x, 0);";
  "  #if FACTOR > 4";
  "  vUV04 = uv + vec2( 4.0 / kDimension.x, 0);";
  "  vUV05 = uv + vec2( 5.0 / kDimension.x, 0);";
  "  vUV06 = uv + vec2( 6.0 / kDimension.x, 0);";
  "  vUV07 = uv + vec2( 7.0 / kDimension.x, 0);";
  "  #if FACTOR > 8";
  "  vUV08 = uv + vec2( 8.0 / kDimension.x, 0);";
  "  vUV09 = uv + vec2( 9.0 / kDimension.x, 0);";
  "  vUV10 = uv + vec2(10.0 / kDimension.x, 0);";
  "  vUV11 = uv + vec2(11.0 / kDimension.x, 0);";
  "  vUV12 = uv + vec2(12.0 / kDimension.x, 0);";
  "  vUV13 = uv + vec2(13.0 / kDimension.x, 0);";
  "  vUV14 = uv + vec2(14.0 / kDimension.x, 0);";
  "  vUV15 = uv + vec2(15.0 / kDimension.x, 0);";
  "  #endif";
  "  #endif";
  "  #endif";
  "  #else";
  "  vUV01 = uv + vec2(0,  1.0 / kDimension.y);";
  "  #if FACTOR > 2";
  "  vUV02 = uv + vec2(0,  2.0 / kDimension.y);";
  "  vUV03 = uv + vec2(0,  3.0 / kDimension.y);";
  "  #if FACTOR > 4";
  "  vUV04 = uv + vec2(0,  4.0 / kDimension.y);";
  "  vUV05 = uv + vec2(0,  5.0 / kDimension.y);";
  "  vUV06 = uv + vec2(0,  6.0 / kDimension.y);";
  "  vUV07 = uv + vec2(0,  7.0 / kDimension.y);";
  "  #if FACTOR > 8";
  "  vUV08 = uv + vec2(0,  8.0 / kDimension.y);";
  "  vUV09 = uv + vec2(0,  9.0 / kDimension.y);";
  "  vUV10 = uv + vec2(0, 10.0 / kDimension.y);";
  "  vUV11 = uv + vec2(0, 11.0 / kDimension.y);";
  "  vUV12 = uv + vec2(0, 12.0 / kDimension.y);";
  "  vUV13 = uv + vec2(0, 13.0 / kDimension.y);";
  "  vUV14 = uv + vec2(0, 14.0 / kDimension.y);";
  "  vUV15 = uv + vec2(0, 15.0 / kDimension.y);";
  "  #endif";
  "  #endif";
  "  #endif";
  "  #endif";
  "}"].

Definition kFragmentShaderSource : string := lines [
  "uniform sampler2D uTexture;";
  "vec4 read(vec2 uv) {";
  "  vec4 r = texture2D(uTexture, uv);";
  "  #ifdef HORIZONTAL";
  "  r.rgb = pow(r.rgb, vec3(2.2));";
  "  #endif";
  "  return r;";
  "}";
  "void main() {";
  "  vec4 sum = read(vUV00) + read(vUV01);";
  "  #if FACTOR > 2";
  "  sum += read(vUV02) + read(vUV03);";
  "  #if FACTOR > 4";
  "  sum += read(vUV04) + read(vUV05) + read(vUV06) + read(vUV07);";
  "  #if FACTOR > 8";
  "  sum += read(vUV08) + read(vUV09) + read(vUV10) + read(vUV11) +      read(vUV12) + read(vUV13) + read(vUV14) + read(vUV15);";
  "  #endif";
  "  #endif";
  "  #endif";
  "  sum /= float(FACTOR);";
  "  #ifdef VERTICAL";
  "  sum.rgb = pow(sum.rgb, vec3(1.0 / 2.2));";
  "  #endif";
  "  gl_FragColor = sum;";
  "}"].

(** The three vertices of one triangle that covers the viewport, two floats each. *)
Definition kVertexDataSize : Z := 24.
Definition kVertexCount : Z := kVertexDataSize / (2 * 4).

Record Framebuffer := mkFB {
  texture : Z;
  framebuffer : Z;
  program : Z;
  aPosition : Z;
  uTexture : Z
}.

Record TextureResize := mkTR {
  mWidth : Z;
  mHeight : Z;
  mFactor : Z;
  mFBWidth : Framebuffer;
  mFBHeight : Framebuffer;
  mVertexBuffer : Z
}.

(** The loop of [update]: [n] more rounds; [w] and [h] start at half the
    dimensions. *)
Fixpoint factor_loop (n : nat) (w h tWidth tHeight factor : Z) : Z :=
  match n with
  | O => factor
  | S n =>
      if (tWidth <=? w) && (tHeight <=? h)
      then factor_loop n (w / 2) (h / 2) tWidth tHeight (u32 (factor * 2))
      else factor
  end.

(** The target size, turned when the texture and the viewport differ in
    orientation. *)
Definition oriented (w h : Z) (vport : Z * Z * Z * Z) : Z * Z :=
  let '(_, _, tWidth, tHeight) := vport in
  if Bool.eqb (w <? h) (tWidth <? tHeight) then (tWidth, tHeight) else (tHeight, tWidth).

Definition scale_factor (w h : Z) (vport : Z * Z * Z * Z) : Z :=
  let '(tWidth, tHeight) := oriented w h vport in
  factor_loop MAX_FACTOR_POWER (w / 2) (h / 2) tWidth tHeight 1.

Definition factorDefine (factor : Z) : string :=
  String.concat EmptyString ["#define FACTOR "; pretty factor; newline]%string.

Definition dimensionConst (width height : Z) : string :=
  String.concat EmptyString
    ["const vec2 kDimension = vec2("; pretty width; ", "; pretty height; ");"; newline]%string.

Section ops.
Context {W D : Type} `{!Driver D} `{!HasDriver W D}.

Definition detachShaders (prog : Z) : M W unit :=
  shaders ← gets (fun w => glGetAttachedShaders (get_drv w) prog);
  err ← s_gles2 GetError;
  when (err =? GL_NO_ERROR)
    (mseq ((fun s => s_gles2_ (DetachShader prog s) ;; s_gles2_ (DeleteShader s))
             <$> take 2 shaders)).

Definition createShader (type : Z) (source : list string) : M W Z :=
  shader ← s_gles2 (CreateShader type);
  if shader =? 0 then mret 0
  else
    s_gles2_ (ShaderSource shader source) ;;
    s_gles2_ (CompileShader shader) ;;
    success ← s_gles2 (GetShaderiv shader GL_COMPILE_STATUS);
    if success =? GL_FALSE then s_gles2_ (DeleteShader shader) ;; mret 0
    else mret shader.

Definition attachShaders (fb : Framebuffer) (factorDef dimensionDefine : string)
    (width height : Z) : M W Framebuffer :=
  vShader ← createShader GL_VERTEX_SHADER
    [factorDef; dimensionDefine; kCommonShaderSource; dimensionConst width height;
     kVertexShaderSource];
  fShader ← createShader GL_FRAGMENT_SHADER
    [factorDef; dimensionDefine; kCommonShaderSource; kFragmentShaderSource];
  if (vShader =? 0) || (fShader =? 0) then mret fb
  else
    s_gles2_ (AttachShader (program fb) vShader) ;;
    s_gles2_ (AttachShader (program fb) fShader) ;;
    s_gles2_ (LinkProgram (program fb)) ;;
    s_gles2_ (UseProgram (program fb)) ;;
    pos ← s_gles2 (GetAttribLocation (program fb) "aPosition");
    tex ← s_gles2 (GetUniformLocation (program fb) "uTexture");
    mret (mkFB (texture fb) (framebuffer fb) (program fb) (u32 pos) (u32 tex)).

(** The four parameters of a new texture. *)
Definition tex_parameters (filter : Z) : M W unit :=
  s_gles2_ (TexParameteri GL_TEXTURE_MAG_FILTER filter) ;;
  s_gles2_ (TexParameteri GL_TEXTURE_MIN_FILTER filter) ;;
  s_gles2_ (TexParameteri GL_TEXTURE_WRAP_S GL_CLAMP_TO_EDGE) ;;
  s_gles2_ (TexParameteri GL_TEXTURE_WRAP_T GL_CLAMP_TO_EDGE).

Definition TextureResize_new (width height : Z) : M W TextureResize :=
  texW ← s_gles2 GenTexture;
  s_gles2_ (BindTexture texW) ;;
  tex_parameters GL_NEAREST ;;
  texH ← s_gles2 GenTexture;
  s_gles2_ (BindTexture texH) ;;
  tex_parameters GL_LINEAR ;;
  fbW ← s_gles2 GenFramebuffer;
  fbH ← s_gles2 GenFramebuffer;
  progW ← s_gles2 CreateProgram;
  progH ← s_gles2 CreateProgram;
  vb ← s_gles2 GenBuffer;
  s_gles2_ (BindBuffer GL_ARRAY_BUFFER vb) ;;
  s_gles2_ (BufferData GL_ARRAY_BUFFER kVertexDataSize) ;;
  mret (mkTR width height 1 (mkFB texW fbW progW 0 0) (mkFB texH fbH progH 0 0) vb).

Definition TextureResize_delete (tr : TextureResize) : M W unit :=
  s_gles2_ (DeleteFramebuffers [framebuffer (mFBWidth tr); framebuffer (mFBHeight tr)]) ;;
  s_gles2_ (DeleteTextures [texture (mFBWidth tr); texture (mFBHeight tr)]) ;;
  s_gles2_ (DeleteProgram (program (mFBWidth tr))) ;;
  s_gles2_ (DeleteProgram (program (mFBHeight tr))) ;;
  s_gles2_ (DeleteBuffers [mVertexBuffer tr]).

Definition setupFramebuffers (tr : TextureResize) (factor : Z) : M W TextureResize :=
  if factor =? mFactor tr then mret tr
  else
    s_gles2_ (BindTexture (texture (mFBWidth tr))) ;;
    s_gles2_ (TexImage2D GL_RGBA (mWidth tr / factor) (mHeight tr) GL_FLOAT None) ;;
    s_gles2_ (BindFramebuffer (framebuffer (mFBWidth tr))) ;;
    s_gles2_ (FramebufferTexture2D (texture (mFBWidth tr))) ;;
    s_gles2_ (BindTexture (texture (mFBHeight tr))) ;;
    s_gles2_ (TexImage2D GL_RGBA (mWidth tr / factor) (mHeight tr / factor)
                GL_UNSIGNED_BYTE None) ;;
    s_gles2_ (BindFramebuffer (framebuffer (mFBHeight tr))) ;;
    s_gles2_ (FramebufferTexture2D (texture (mFBHeight tr))) ;;
    detachShaders (program (mFBWidth tr)) ;;
    detachShaders (program (mFBHeight tr)) ;;
    fbW ← attachShaders (mFBWidth tr) (factorDefine factor) (lines ["#define HORIZONTAL"])
            (mWidth tr) (mHeight tr);
    fbH ← attachShaders (mFBHeight tr) (factorDefine factor) (lines ["#define VERTICAL"])
            (mWidth tr) (mHeight tr);
    mret (mkTR (mWidth tr) (mHeight tr) factor fbW fbH (mVertexBuffer tr)).

Definition resize (tr : TextureResize) (tex : Z) : M W unit :=
  let fbW := mFBWidth tr in
  let fbH := mFBHeight tr in
  s_gles2_ (BindBuffer GL_ARRAY_BUFFER (mVertexBuffer tr)) ;;
  s_gles2_ ActiveTexture0 ;;
  s_gles2_ (BindFramebuffer (framebuffer fbW)) ;;
  s_gles2_ (SetViewport 0 0 (mWidth tr / mFactor tr) (mHeight tr)) ;;
  s_gles2_ (UseProgram (program fbW)) ;;
  s_gles2_ (EnableVertexAttribArray (aPosition fbW)) ;;
  s_gles2_ (VertexAttribPointer (aPosition fbW) 2 0 0) ;;
  s_gles2_ (BindTexture tex) ;;
  mag_filter ← s_gles2 (GetTexParameteriv GL_TEXTURE_MAG_FILTER);
  min_filter ← s_gles2 (GetTexParameteriv GL_TEXTURE_MIN_FILTER);
  s_gles2_ (TexParameteri GL_TEXTURE_MAG_FILTER GL_NEAREST) ;;
  s_gles2_ (TexParameteri GL_TEXTURE_MIN_FILTER GL_NEAREST) ;;
  s_gles2_ (Uniform1i (uTexture fbW) 0) ;;
  s_gles2_ (DrawArrays GL_TRIANGLES kVertexCount) ;;
  s_gles2_ (TexParameteri GL_TEXTURE_MAG_FILTER mag_filter) ;;
  s_gles2_ (TexParameteri GL_TEXTURE_MIN_FILTER min_filter) ;;
  s_gles2_ (BindFramebuffer (framebuffer fbH)) ;;
  s_gles2_ (SetViewport 0 0 (mWidth tr / mFactor tr) (mHeight tr / mFactor tr)) ;;
  s_gles2_ (UseProgram (program fbH)) ;;
  s_gles2_ (EnableVertexAttribArray (aPosition fbH)) ;;
  s_gles2_ (VertexAttribPointer (aPosition fbH) 2 0 0) ;;
  s_gles2_ (BindTexture (texture fbW)) ;;
  s_gles2_ (Uniform1i (uTexture fbH) 0) ;;
  s_gles2_ (DrawArrays GL_TRIANGLES kVertexCount) ;;
  s_gles2_ (BindBuffer GL_ARRAY_BUFFER 0) ;;
  s_gles2_ (BindFramebuffer 0) ;;
  s_gles2_ (BindTexture 0).

(** The texture to draw and the updated object. *)
Definition update (tr : TextureResize) (tex : Z) : M W (Z * TextureResize) :=
  vport ← gets (fun w => glGetViewport (get_drv w));
  let factor := scale_factor (mWidth tr) (mHeight tr) vport in
  if factor =? 1 then mret (tex, tr)
  else
    s_gles2_ GetError ;;
    tr ← setupFramebuffers tr factor;
    resize tr tex ;;
    let '(x, y, w, h) := vport in
    s_gles2_ (SetViewport x y w h) ;;
    error ← s_gles2 GetError;
    if negb (error =? GL_NO_ERROR) then mret (tex, tr)
    else mret (texture (mFBHeight tr), tr).
End ops.

(** ** The factor *)

Lemma div_pow2_mono x j k : 0 <= x -> 0 <= j <= k -> x / 2 ^ k <= x / 2 ^ j.
Proof.
  intros Hx Hjk. apply Z.div_le_compat_l; [lia|].
  split; [lia | apply Z.pow_le_mono_r; lia].
Qed.

(** Both dimensions divided by [2^k] still cover the target. *)
Definition covers (w h tW tH k : Z) : Prop := tW <= w / 2 ^ k /\ tH <= h / 2 ^ k.

Lemma factor_loop_spec w h tW tH n : forall j,
  0 <= j -> j + Z.of_nat n < 31 ->
  exists k, j <= k <= j + Z.of_nat n /\
    factor_loop n (w / 2 ^ (j + 1)) (h / 2 ^ (j + 1)) tW tH (2 ^ j) = 2 ^ k /\
    (k = j \/ covers w h tW tH k) /\
    (k < j + Z.of_nat n -> ~ covers w h tW tH (k + 1)).
Proof.
  induction n as [|n IH]; intros j Hj Hn; cbn [factor_loop].
  { exists j. split_and!; [lia|lia|done|by left|lia]. }
  destruct ((tW <=? w / 2 ^ (j + 1)) && (tH <=? h / 2 ^ (j + 1))) eqn:E.
  - destruct (IH (j + 1)) as (k & Hk & Heq & Hc & Hm); [lia|lia|].
    exists k. split_and!; [lia|lia| | |].
    + rewrite <- Heq. clear - Hj Hn. rewrite !(Z.pow_add_r 2 (j + 1) 1) by lia.
      rewrite <- !Z.div_div by lia. change (2 ^ 1) with 2. f_equal.
      assert (2 ^ (j + 1) = 2 ^ j * 2) as <- by (by rewrite Z.pow_add_r by lia).
      apply wrapu_id. split; [lia|]. apply Z.pow_lt_mono_r; lia.
    + right. destruct Hc as [->|Hc]; [unfold covers; lia|done].
    + intros Hlt. apply Hm. lia.
  - exists j. split_and!; [lia|lia|done|by left|]. unfold covers. lia.
Qed.

Lemma oriented_turns w h x y vw vh tW tH :
  oriented w h (x, y, vw, vh) = (tW, tH) ->
  ((tW, tH) = (vw, vh) \/ (tW, tH) = (vh, vw)) /\
  (vw <> vh -> (w <? h) = (tW <? tH)).
Proof.
  unfold oriented. destruct (Bool.eqb _ _) eqn:E; intros [= <- <-].
  - apply Bool.eqb_prop in E. intuition congruence.
  - split; [by right|]. intros Hne. apply Bool.eqb_false_iff in E.
    destruct (w <? h), (vw <? vh) eqn:Ev, (vh <? vw) eqn:Ev'; try done; lia.
Qed.

(** The scaling factor is the largest power of two, up to 16, for which the
    scaled image still covers the viewport turned to the texture's orientation;
    it is 1 when even the half-size image would not. *)
Theorem scale_factor_largest w h x y vw vh tW tH :
  0 <= w -> 0 <= h -> oriented w h (x, y, vw, vh) = (tW, tH) ->
  exists k, 0 <= k <= 4 /\ scale_factor w h (x, y, vw, vh) = 2 ^ k /\
    (k = 0 \/ covers w h tW tH k) /\
    (forall j, k < j <= 4 -> ~ covers w h tW tH j) /\
    ((tW, tH) = (vw, vh) \/ (tW, tH) = (vh, vw)) /\
    (vw <> vh -> (w <? h) = (tW <? tH)).
Proof.
  intros Hw Hh Hor. unfold scale_factor. rewrite Hor.
  destruct (factor_loop_spec w h tW tH MAX_FACTOR_POWER 0) as (k & Hk & Heq & Hc & Hm);
    [done|done|]. unfold MAX_FACTOR_POWER in *.
  exists k. split_and!; [lia|lia|exact Heq|done| |by eapply oriented_turns..].
  intros j Hj [H1 H2]. apply Hm; [lia|].
  pose proof (div_pow2_mono w (k + 1) j). pose proof (div_pow2_mono h (k + 1) j).
  unfold covers. lia.
Qed.

Lemma scale_factor_largest_witness :
  oriented 1920 1080 (0, 0, 400, 300) = (400, 300) /\
  exists k, 0 <= k <= 4 /\ scale_factor 1920 1080 (0, 0, 400, 300) = 2 ^ k /\
    (k = 0 \/ covers 1920 1080 400 300 k) /\
    (forall j, k < j <= 4 -> ~ covers 1920 1080 400 300 j) /\
    ((400, 300) = (400, 300) \/ (400, 300) = (300, 400)) /\
    (400 <> 300 -> (1920 <? 1080) = (400 <? 300)).
Proof. split; [done|]. by apply (scale_factor_largest 1920 1080 0 0). Defined.

(** ** [update] *)

(** The same texture, framebuffer and program names. *)
Definition same_names (fb fb' : Framebuffer) : Prop :=
  texture fb' = texture fb /\ framebuffer fb' = framebuffer fb /\ program fb' = program fb.

Definition same_resizer (tr tr' : TextureResize) : Prop :=
  mWidth tr' = mWidth tr /\ mHeight tr' = mHeight tr /\
  same_names (mFBWidth tr) (mFBWidth tr') /\ same_names (mFBHeight tr) (mFBHeight tr') /\
  mVertexBuffer tr' = mVertexBuffer tr.

Section update_laws.
Context {W D : Type} `{!Driver D} `{!HasDriver W D}.

Lemma attachShaders_names fb fd dd width height (w : W) :
  same_names fb (attachShaders fb fd dd width height w).1.
Proof.
  unfold attachShaders. rewrite !bind_run. destruct (orb _ _); [done|]. by rewrite !bind_run.
Qed.

Lemma setupFramebuffers_same tr factor (w : W) :
  same_resizer tr (setupFramebuffers tr factor w).1 /\
  mFactor (setupFramebuffers tr factor w).1 = factor.
Proof.
  unfold setupFramebuffers. destruct (factor =? mFactor tr) eqn:E.
  { apply Z.eqb_eq in E. by split. }
  rewrite !bind_run. split; [|done]. unfold same_resizer. cbn.
  split_and!; try done; apply attachShaders_names.
Qed.

Context `{!DriverLaws D} `{!HasDriverLaws W D}.

Definition viewport (w : W) : Z * Z * Z * Z := glGetViewport (get_drv w).

(** [update] leaves the viewport as it found it.  When the texture need not
    be scaled it returns the texture and does nothing; otherwise it returns the
    second framebuffer's texture, or the unscaled texture after a GL error, and
    the framebuffers are set up for the new factor; the object keeps its names. *)
Lemma update_correct (tr : TextureResize) tex (w : W) :
  let r := update tr tex w in
  let factor := scale_factor (mWidth tr) (mHeight tr) (viewport w) in
  viewport r.2 = viewport w /\ same_resizer tr r.1.2 /\
  (factor = 1 -> r = ((tex, tr), w)) /\
  (factor <> 1 -> mFactor r.1.2 = factor /\
     (r.1.1 = tex \/ r.1.1 = texture (mFBHeight tr))).
Proof.
  unfold update, viewport. rewrite bind_run. cbn [gets fst snd].
  destruct (Z.eqb_spec (scale_factor (mWidth tr) (mHeight tr) (glGetViewport (get_drv w))) 1)
    as [->|Hf]; cbn zeta.
  { by split_and!. }
  rewrite 3!bind_run. set (w1 := (s_gles2_ GetError w).2).
  destruct (setupFramebuffers_same tr (scale_factor (mWidth tr) (mHeight tr)
    (glGetViewport (get_drv w))) w1) as [Hsame Hfac].
  set (tr' := (setupFramebuffers _ _ w1).1) in *.
  pose proof (viewport_restored (D := D) true (get_drv w)) as Hrest.
  set (w2 := (resize tr' tex _).2). clearbody w2.
  destruct (glGetViewport (get_drv w)) as [[[x y] vw] vh].
  rewrite 2!bind_run. set (w3 := (s_gles2_ (SetViewport x y vw vh) w2).2).
  assert (Hv : glGetViewport (get_drv (s_gles2 GetError w3).2) = (x, y, vw, vh)).
  { unfold s_gles2, w3. by rewrite gles_drv, viewport_kept, s_gles2_drv, Hrest by done. }
  destruct (negb _); cbn [fst snd]; (split; [exact Hv|split; [exact Hsame|split; [done|]]]);
    intros _; (split; [exact Hfac|]); [by left|].
  right. apply Hsame.
Qed.
End update_laws.

Example update_scales :
  let tr := mkTR 1920 1080 1 (mkFB 1 3 5 0 0) (mkFB 2 4 6 0 0) 7 in
  let r := update tr 9 (snd (gl true (SetViewport 0 0 400 300) toy_init)) in
  r.1.1 = 2 /\ mFactor r.1.2 = 2 /\
  viewport r.2 = (0, 0, 400, 300) /\ same_resizer tr r.1.2.
Proof.
  set (tr := mkTR 1920 1080 1 (mkFB 1 3 5 0 0) (mkFB 2 4 6 0 0) 7).
  pose proof (update_correct tr 9 (snd (gl true (SetViewport 0 0 400 300) toy_init)))
    as (H1 & H2 & _ & H4).
  split_and!; [by vm_compute|by vm_compute|exact H1|apply H2..].
Qed.
