(* ===== verification/ColorBuffer.v ===== *)
(** * Color buffers

    [src/src/anbox/graphics/emugl/ColorBuffer.{h,cpp}]: a host texture with an
    EGL image, a second one used to copy a window's pixels, a framebuffer made
    when first needed and the resizer.  The operations run in the renderer's
    context, which [ColorBuffer::Helper] sets up and tears down: the class
    [Helper] is that interface, [HelperLaws] what a color buffer may rely on, and
    [with_helper_context] is [ScopedHelperContext].  An operation that changes the
    object returns it; [currContext] is [RenderThreadInfo::get()->currContext], as
    whether the context is a GLES 2 one.  The theorems show that the operations
    give the guest its context and surfaces back. *)

From S2P Require Import Prelude Gl TextureDraw TextureResize.

Record ColorBuffer := mkCB {
  m_tex : Z;
  m_blitTex : Z;
  m_eglImage : Z;
  m_blitEGLImage : Z;
  m_width : Z;
  m_height : Z;
  m_fbo : Z;
  m_internalFormat : Z;
  m_resizer : TextureResize
}.

Definition set_fbo (fbo : Z) (cb : ColorBuffer) : ColorBuffer :=
  mkCB (m_tex cb) (m_blitTex cb) (m_eglImage cb) (m_blitEGLImage cb) (m_width cb)
    (m_height cb) fbo (m_internalFormat cb) (m_resizer cb).

Definition set_resizer (tr : TextureResize) (cb : ColorBuffer) : ColorBuffer :=
  mkCB (m_tex cb) (m_blitTex cb) (m_eglImage cb) (m_blitEGLImage cb) (m_width cb)
    (m_height cb) (m_fbo cb) (m_internalFormat cb) tr.

Definition EGL_GL_TEXTURE_2D_KHR : Z := 0x30B1.

(** The texture format for a requested internal format. *)
Definition texInternalFormat (p_internalFormat : Z) : option Z :=
  if (p_internalFormat =? GL_RGB) || (p_internalFormat =? GL_RGB565_OES) then Some GL_RGB
  else if (p_internalFormat =? GL_RGBA) || (p_internalFormat =? GL_RGB5_A1_OES)
       || (p_internalFormat =? GL_RGBA4_OES) then Some GL_RGBA
  else None.

(** [nComp * p_width * p_height] in [int] arithmetic, as the [size_t] that
    [calloc] gets. *)
Definition zBuff_size (format p_width p_height : Z) : Z :=
  let nComp := if format =? GL_RGB then 3 else 4 in
  u64 (i32 (i32 (nComp * p_width) * p_height)).

(** [ColorBuffer::Helper]. *)
Class Helper (W : Type) := {
  setupContext : M W bool;
  teardownContext : M W unit;
  getTextureDraw : W -> TextureDraw
}.

Section ops.
Context {W D : Type} `{!Driver D} `{!HasDriver W D} `{!Helper W}.

(** Runs [body] between set-up and tear-down; [fail] without a context. *)
Definition with_helper_context {A} (fail : A) (body : M W A) : M W A :=
  ok ← setupContext;
  if (ok : bool) then a ← body; teardownContext ;; mret a else mret fail.

(** The result and the new value of [*fbo]. *)
Definition bindFbo (fbo tex : Z) : M W (bool * Z) :=
  if negb (fbo =? 0) then s_gles2_ (BindFramebuffer fbo) ;; mret (true, fbo)
  else
    fbo ← s_gles2 GenFramebuffer;
    s_gles2_ (BindFramebuffer fbo) ;;
    s_gles2_ (FramebufferTexture2D tex) ;;
    status ← s_gles2 CheckFramebufferStatus;
    if negb (status =? GL_FRAMEBUFFER_COMPLETE) then
      s_gles2_ (BindFramebuffer 0) ;;
      s_gles2_ (DeleteFramebuffers [fbo]) ;;
      mret (false, 0)
    else mret (true, fbo).

Definition unbindFbo : M W unit := s_gles2_ (BindFramebuffer 0).

(** A texture of the buffer's size with its parameters. *)
Definition new_texture (format w h : Z) (data : option Z) (filter : Z) : M W Z :=
  tex ← s_gles2 GenTexture;
  s_gles2_ (BindTexture tex) ;;
  s_gles2_ (TexImage2D format w h GL_UNSIGNED_BYTE data) ;;
  tex_parameters filter ;;
  mret tex.

Definition ColorBuffer_create (p_width p_height p_internalFormat : Z)
    (has_eglimage_texture_2d : bool) : M W (option ColorBuffer) :=
  match texInternalFormat p_internalFormat with
  | None => mret None
  | Some format =>
      with_helper_context None
        (tex ← new_texture format p_width p_height
                 (Some (zBuff_size format p_width p_height)) GL_LINEAR;
         blitTex ← new_texture format p_width p_height None GL_NEAREST;
         images ← (if has_eglimage_texture_2d then
                     img ← egl_create_image EGL_GL_TEXTURE_2D_KHR tex;
                     blit ← egl_create_image EGL_GL_TEXTURE_2D_KHR blitTex;
                     mret (img, blit)
                   else mret (0, 0));
         resizer ← TextureResize_new (u32 p_width) (u32 p_height);
         mret (Some (mkCB tex blitTex images.1 images.2 (u32 p_width) (u32 p_height) 0
                       format resizer)))
  end.

Definition release_objects (cb : ColorBuffer) : M W unit :=
  when (negb (m_blitEGLImage cb =? 0)) (egl_destroy_image (m_blitEGLImage cb)) ;;
  when (negb (m_eglImage cb =? 0)) (egl_destroy_image (m_eglImage cb)) ;;
  when (negb (m_fbo cb =? 0)) (s_gles2_ (DeleteFramebuffers [m_fbo cb])) ;;
  s_gles2_ (DeleteTextures [m_tex cb; m_blitTex cb]) ;;
  TextureResize_delete (m_resizer cb).

(** The destructor goes on without a context. *)
Definition ColorBuffer_delete (cb : ColorBuffer) : M W unit :=
  ok ← setupContext; release_objects cb ;; when ok teardownContext.

(** The pixels read, [None] when the caller's memory is left alone. *)
Definition readPixels (cb : ColorBuffer) (x y width height format type : Z) :
    M W (option (list Z) * ColorBuffer) :=
  with_helper_context (None, cb)
    (r ← bindFbo (m_fbo cb) (m_tex cb);
     let cb := set_fbo r.2 cb in
     if (r.1 : bool) then
       pixels ← gets (fun w => glReadPixels (get_drv w) x y width height format type);
       unbindFbo ;; mret (Some pixels, cb)
     else mret (None, cb)).

Definition readback (cb : ColorBuffer) : M W (option (list Z) * ColorBuffer) :=
  with_helper_context (None, cb)
    (r ← bindFbo (m_fbo cb) (m_tex cb);
     let cb := set_fbo r.2 cb in
     if (r.1 : bool) then
       pixels ← gets (fun w => glReadPixels (get_drv w) 0 0 (m_width cb) (m_height cb)
                                 GL_RGBA GL_UNSIGNED_BYTE);
       unbindFbo ;; mret (Some pixels, cb)
     else mret (None, cb)).

Definition subUpdate (cb : ColorBuffer) (x y width height format type : Z)
    (pixels : list Z) : M W unit :=
  with_helper_context tt
    (s_gles2_ (BindTexture (m_tex cb)) ;;
     s_gles2_ (PixelStoreUnpackAlignment 1) ;;
     s_gles2_ (TexSubImage2D x y width height format type pixels)).

Definition blitFromCurrentReadBuffer (currContext : option bool) (cb : ColorBuffer) :
    M W (bool * ColorBuffer) :=
  match currContext with
  | None => mret (false, cb)
  | Some isGL2 =>
      currTexBind ← gles isGL2 GetTextureBinding2D;
      tmpTex ← gles isGL2 GenTexture;
      gles_ isGL2 (BindTexture tmpTex) ;;
      gles_ isGL2 (EGLImageTargetTexture2D (m_blitEGLImage cb)) ;;
      gles_ isGL2 (CopyTexSubImage2D (m_width cb) (m_height cb)) ;;
      gles_ isGL2 (DeleteTextures [tmpTex]) ;;
      gles_ isGL2 (BindTexture currTexBind) ;;
      with_helper_context (false, cb)
        (r ← bindFbo (m_fbo cb) (m_tex cb);
         let cb := set_fbo r.2 cb in
         if (r.1 : bool) then
           vport ← gets (fun w => glGetViewport (get_drv w));
           s_gles2_ (SetViewport 0 0 (m_width cb) (m_height cb)) ;;
           td ← gets getTextureDraw;
           draw td (m_blitTex cb) ;;
           (let '(x, y, w, h) := vport in s_gles2_ (SetViewport x y w h)) ;;
           unbindFbo ;; mret (true, cb)
         else mret (false, cb))
  end.

Definition bindToTexture (currContext : option bool) (cb : ColorBuffer) : M W bool :=
  if m_eglImage cb =? 0 then mret false
  else match currContext with
       | None => mret false
       | Some isGL2 => gles_ isGL2 (EGLImageTargetTexture2D (m_eglImage cb)) ;; mret true
       end.

Definition bindToRenderbuffer (currContext : option bool) (cb : ColorBuffer) : M W bool :=
  if m_eglImage cb =? 0 then mret false
  else match currContext with
       | None => mret false
       | Some isGL2 =>
           gles_ isGL2 (EGLImageTargetRenderbufferStorage (m_eglImage cb)) ;; mret true
       end.

Definition bind (cb : ColorBuffer) : M W ColorBuffer :=
  r ← update (m_resizer cb) (m_tex cb);
  s_gles2_ (BindTexture r.1) ;; mret (set_resizer r.2 cb).
End ops.

(** ** The context and surfaces the guest had *)

(** What is bound on the calling thread, in a state that holds the driver. *)
Definition cur {W D} `{!Driver D} `{!HasDriver W D} (w : W) : Z * Z * Z :=
  current (get_drv w).

(** What the operations rely on: set-up remembers what was current, nothing but
    another set-up changes that, and tear-down makes it current again. *)
Class HelperLaws (W D : Type) `{!Driver D} `{!HasDriver W D} `{!Helper W} := {
  saved : W -> Z * Z * Z;
  saved_drv d (w : W) : saved (set_drv d w) = saved w;
  setup_saves (w : W) : (setupContext w).1 = true -> saved (setupContext w).2 = cur w;
  setup_fails (w : W) : (setupContext w).1 = false -> cur (setupContext w).2 = cur w;
  teardown_restores (w : W) : cur (teardownContext w).2 = saved w
}.

(** ** What the operations respect *)

(** Relations that setting up and tearing down the context respect, too. *)
Class HelperInvariant {W D} `{!Driver D} `{!HasDriver W D} `{!Helper W}
    (R : W -> W -> Prop) : Prop := {
  helper_gl :: GLInvariant R;
  respects_setup : respects R setupContext;
  respects_teardown : respects R teardownContext
}.
#[export] Hint Extern 1 (respects _ setupContext) => apply respects_setup : respects.
#[export] Hint Extern 1 (respects _ teardownContext) => apply respects_teardown : respects.
#[export] Hint Extern 0 (HelperInvariant _) => typeclasses eauto : respects.

Section gl_ops.
Context {W D : Type} `{!Driver D} `{!HasDriver W D} (R : W -> W -> Prop) `{!GLInvariant R}.

Lemma respects_tex_parameters filter : respects R (tex_parameters filter).
Proof. unfold tex_parameters. respects_tac. Qed.
#[local] Hint Resolve respects_tex_parameters : respects.

Lemma respects_new_texture format p_w p_h data filter :
  respects R (new_texture format p_w p_h data filter).
Proof. unfold new_texture. respects_tac. Qed.

Lemma respects_TextureResize_new width height : respects R (TextureResize_new width height).
Proof. unfold TextureResize_new. respects_tac. Qed.

Lemma respects_TextureResize_delete tr : respects R (TextureResize_delete tr).
Proof. unfold TextureResize_delete. respects_tac. Qed.

Lemma respects_bindFbo fbo tex : respects R (bindFbo fbo tex).
Proof. unfold bindFbo. respects_tac. Qed.

Lemma respects_unbindFbo : respects R unbindFbo.
Proof. apply respects_s_gles2_, _. Qed.

Lemma respects_draw td tex : respects R (draw td tex).
Proof. unfold draw. respects_tac. Qed.
#[local] Hint Resolve respects_TextureResize_delete : respects.

Lemma respects_release_objects cb : respects R (release_objects cb).
Proof. unfold release_objects. respects_tac. Qed.

Lemma respects_bindToTexture c cb : respects R (bindToTexture c cb).
Proof. unfold bindToTexture. respects_tac. Qed.

Lemma respects_bindToRenderbuffer c cb : respects R (bindToRenderbuffer c cb).
Proof. unfold bindToRenderbuffer. respects_tac. Qed.
End gl_ops.

#[export] Hint Resolve respects_new_texture respects_TextureResize_new respects_bindFbo
  respects_unbindFbo respects_draw respects_release_objects respects_bindToTexture
  respects_bindToRenderbuffer : respects.

(** ** The guest gets its context and surfaces back *)

Section laws.
Context {W D : Type} `{!Driver D} `{!HasDriver W D} `{!Helper W}.
Context `{!DriverLaws D} `{!HasDriverLaws W D} `{!HelperLaws W D}.

(** What is bound and what is remembered is left alone. *)
Definition kept (w w' : W) : Prop := cur w' = cur w /\ saved w' = saved w.

(** What is bound is, in the end, what it was. *)
Definition restored (w w' : W) : Prop := cur w' = cur w.

#[export] Instance restored_preorder : PreOrder restored.
Proof. split; [done|]. unfold restored. intros x y z ??. congruence. Qed.

#[export] Instance kept_gl : GLInvariant kept.
Proof.
  split.
  - split; [done|]. unfold kept. intros x y z [??] [??]. split; congruence.
  - intros api c w. unfold kept, cur. rewrite gles_drv, gl_current. split; [done|].
    unfold gles. destruct (gl _ _ _) as [x d]. apply saved_drv.
  - intros target buffer w. unfold kept, egl_create_image, cur.
    pose proof (create_image_current (eglGetCurrentContext (get_drv w)) target buffer (get_drv w)).
    destruct (eglCreateImageKHR _ _ _ _) as [x d]. cbn.
    by rewrite get_set_drv, saved_drv.
  - intros image w. unfold kept, egl_destroy_image, cur. cbn.
    by rewrite get_set_drv, saved_drv, destroy_image_current.
Qed.

Lemma kept_restored {A} (m : M W A) : respects kept m -> respects restored m.
Proof. intros Hm w. apply Hm. Qed.

Lemma restored_with_helper {A} (fail : A) (body : M W A) :
  respects kept body -> respects restored (with_helper_context fail body).
Proof.
  intros Hb w. unfold with_helper_context, restored. rewrite bind_run.
  destruct (setupContext w).1 eqn:E; [|by apply setup_fails].
  rewrite !bind_run. cbn [fst snd mret M_ret]. rewrite teardown_restores.
  destruct (Hb (setupContext w).2) as [_ ->]. by apply setup_saves.
Qed.

Lemma restored_blit c cb : respects restored (blitFromCurrentReadBuffer c cb).
Proof.
  unfold blitFromCurrentReadBuffer. destruct c as [isGL2|]; [|done].
  do 7 (apply respects_bind; [apply _|apply kept_restored; solve [respects_tac]|intros ?]).
  apply restored_with_helper. respects_tac.
Qed.

Lemma restored_create p_w p_h format b :
  respects restored (ColorBuffer_create p_w p_h format b).
Proof.
  unfold ColorBuffer_create. destruct (texInternalFormat format); [|done].
  apply restored_with_helper. respects_tac.
Qed.

Lemma restored_delete cb : respects restored (ColorBuffer_delete cb).
Proof.
  intros w. unfold restored, ColorBuffer_delete. rewrite !bind_run.
  destruct (respects_release_objects kept cb (setupContext w).2) as [H1 H2].
  destruct (setupContext w).1 eqn:E; cbn [when].
  - rewrite teardown_restores, H2. by apply setup_saves.
  - cbn. rewrite H1. by apply setup_fails.
Qed.

Lemma restored_readPixels cb x y width height format type :
  respects restored (readPixels cb x y width height format type).
Proof. apply restored_with_helper. respects_tac. Qed.

Lemma restored_subUpdate cb x y width height format type pixels :
  respects restored (subUpdate cb x y width height format type pixels).
Proof. apply restored_with_helper. respects_tac. Qed.
End laws.

(** ** Nothing else of the state is touched *)

Section helper_ops.
Context {W D : Type} `{!Driver D} `{!HasDriver W D} `{!Helper W}.
Context (R : W -> W -> Prop) `{!HelperInvariant R}.

Lemma respects_with_helper {A} (fail : A) (body : M W A) :
  respects R body -> respects R (with_helper_context fail body).
Proof. intros Hb. unfold with_helper_context. respects_tac. Qed.

Lemma respects_create p_w p_h format b : respects R (ColorBuffer_create p_w p_h format b).
Proof.
  unfold ColorBuffer_create. destruct (texInternalFormat format); [|respects_tac].
  apply respects_with_helper. respects_tac.
Qed.

Lemma respects_delete cb : respects R (ColorBuffer_delete cb).
Proof. unfold ColorBuffer_delete. respects_tac. Qed.

Lemma respects_readPixels cb x y width height format type :
  respects R (readPixels cb x y width height format type).
Proof. apply respects_with_helper. respects_tac. Qed.

Lemma respects_subUpdate cb x y width height format type pixels :
  respects R (subUpdate cb x y width height format type pixels).
Proof. apply respects_with_helper. respects_tac. Qed.

Lemma respects_blit c cb : respects R (blitFromCurrentReadBuffer c cb).
Proof.
  unfold blitFromCurrentReadBuffer. destruct c as [isGL2|]; [|respects_tac].
  do 7 (apply respects_bind; [apply _|solve [respects_tac]|intros ?]).
  apply respects_with_helper. respects_tac.
Qed.
End helper_ops.

#[export] Hint Resolve respects_create respects_delete respects_readPixels
  respects_subUpdate respects_blit : respects.

(** ** The zero-filled upload of a new buffer *)

(** The bytes that [glTexImage2D] reads for a texture of this size. *)
Definition upload_size (format w h : Z) : Z := (if format =? GL_RGB then 3 else 4) * w * h.

Lemma zBuff_size_exact format w h :
  0 <= w -> 0 <= h -> 4 * w * h < 2 ^ 31 -> 4 * w < 2 ^ 31 ->
  zBuff_size format w h = upload_size format w h.
Proof.
  intros Hw Hh Hb Hb'. unfold zBuff_size, upload_size.
  assert (H3 : 0 <= 3 * w * h < 2 ^ 31) by nia.
  assert (H4 : 0 <= 4 * w * h < 2 ^ 31) by nia.
  destruct (format =? GL_RGB); rewrite (wraps_id 32 (_ * w)) by (unfold in_s; lia);
    rewrite (wraps_id 32) by (unfold in_s; lia); apply wrapu_id; unfold in_u; lia.
Qed.

(** A color buffer is uploaded from a zero block of exactly its size when the
    size fits an [int]; beyond that the product wraps around and the block may be
    smaller than what the upload reads: none at all for 32768 x 32768 pixels. *)
Theorem create_upload_bounds :
  (forall format w h, 0 <= w -> 0 <= h -> 4 * w < 2 ^ 31 -> 4 * w * h < 2 ^ 31 ->
     zBuff_size format w h = upload_size format w h) /\
  (zBuff_size GL_RGBA 32768 32768 = 0 /\ upload_size GL_RGBA 32768 32768 = 2 ^ 32).
Proof.
  split; [intros; by apply zBuff_size_exact|].
  split; [|done]. unfold zBuff_size. cbn -[Z.mul].
  rewrite (wraps_id 32 (4 * 32768)) by (unfold in_s; lia). by vm_compute.
Qed.
