(* ===== verification/RenderState.v ===== *)
(** * The renderer's state and its shared objects

    The host objects behind guest handles ([RenderContext], [WindowSurface],
    [ColorBuffer] of src/src/anbox/graphics/emugl/) are shared: tables, render
    threads and other objects hold [std::shared_ptr]s to them, and an object is
    destroyed when the last one goes.  Here an object lives in a [Heap] under a
    [ptr]; who refers to it is read off the state ([context_owned],
    [surface_owned], [buffer_owned]), and [drop_context], [drop_surface] and
    [drop_buffer], called where the program resets or overwrites a pointer, run
    the destructor when no owner is left.  The state also has the driver as the
    calling thread sees it, the renderer's contexts and saved binding, the handle
    tables and the [RenderThreadInfo] of the calling and of the other threads.
    With them come the operations of [RenderContext] and [WindowSurface] and the
    renderer's [bind_locked]/[unbind_locked], which implement
    [ColorBuffer::Helper]. *)

From S2P Require Import Prelude Gl RendererConfig TextureDraw TextureResize ColorBuffer.

Abbreviation ptr := Z.

Record RenderContext := mkRC {
  mContext : Z;
  mIsGl2 : bool
}.

Record WindowSurface := mkWS {
  mSurface : Z;
  mAttachedColorBuffer : option ptr;
  mReadContext : option ptr;
  mDrawContext : option ptr;
  mWidth : Z;
  mHeight : Z;
  mConfig : Z
}.

Record Heap := mkHeap {
  contexts : gmap ptr RenderContext;
  surfaces : gmap ptr WindowSurface;
  buffers : gmap ptr ColorBuffer;
  next_ptr : ptr
}.

Record ColorBufferRef := mkRef {
  cb : ptr;
  refcount : Z
}.

Record Tables := mkTables {
  s_nextHandle : Z;
  m_contexts : gmap Z ptr;
  m_windows : gmap Z (ptr * Z);
  m_colorbuffers : gmap Z ColorBufferRef
}.

(** [m_glDec] and [m_gl2Dec] are the context whose data the decoder uses (a raw
    pointer into it). *)
Record RenderThreadInfo := mkInfo {
  currContext : option ptr;
  currDrawSurf : option ptr;
  currReadSurf : option ptr;
  m_glDec : option ptr;
  m_gl2Dec : option ptr;
  m_contextSet : gset Z;
  m_windowSet : gset Z
}.

Definition info_new : RenderThreadInfo := mkInfo None None None None None ∅ ∅.

(** What [initialize] sets up and nothing changes afterwards. *)
Record Display := mkDisplay {
  m_configs : list RendererConfig;
  has_eglimage_texture_2d : bool;
  eglMajor : Z;
  eglMinor : Z;
  m_eglContext : Z;
  m_pbufSurface : Z;
  m_pbufContext : Z;
  m_textureDraw : TextureDraw
}.

Record Saved := mkSaved {
  m_prevDrawSurf : Z;
  m_prevReadSurf : Z;
  m_prevContext : Z
}.

Record World (D : Type) := mkWorld {
  w_drv : D;
  w_display : Display;
  w_saved : Saved;
  w_tables : Tables;
  w_heap : Heap;
  w_self : RenderThreadInfo;
  w_others : list RenderThreadInfo
}.
Arguments mkWorld {D}.
Arguments w_drv {D}.
Arguments w_display {D}.
Arguments w_saved {D}.
Arguments w_tables {D}.
Arguments w_heap {D}.
Arguments w_self {D}.
Arguments w_others {D}.

(** ** Updates of a part of the state *)

Section updates.
Context {D : Type}.
Implicit Types w : World D.

Definition with_drv (d : D) w : World D :=
  mkWorld d (w_display w) (w_saved w) (w_tables w) (w_heap w) (w_self w) (w_others w).
Definition with_saved (s : Saved) w : World D :=
  mkWorld (w_drv w) (w_display w) s (w_tables w) (w_heap w) (w_self w) (w_others w).
Definition with_tables (t : Tables) w : World D :=
  mkWorld (w_drv w) (w_display w) (w_saved w) t (w_heap w) (w_self w) (w_others w).
Definition with_heap (h : Heap) w : World D :=
  mkWorld (w_drv w) (w_display w) (w_saved w) (w_tables w) h (w_self w) (w_others w).
Definition with_self (i : RenderThreadInfo) w : World D :=
  mkWorld (w_drv w) (w_display w) (w_saved w) (w_tables w) (w_heap w) i (w_others w).

Definition put_context (p : ptr) (c : RenderContext) w : World D :=
  let h := w_heap w in
  with_heap (mkHeap (<[p := c]> (contexts h)) (surfaces h) (buffers h) (next_ptr h)) w.
Definition put_surface (p : ptr) (s : WindowSurface) w : World D :=
  let h := w_heap w in
  with_heap (mkHeap (contexts h) (<[p := s]> (surfaces h)) (buffers h) (next_ptr h)) w.
Definition put_buffer (p : ptr) (b : ColorBuffer) w : World D :=
  let h := w_heap w in
  with_heap (mkHeap (contexts h) (surfaces h) (<[p := b]> (buffers h)) (next_ptr h)) w.
Definition del_context (p : ptr) w : World D :=
  let h := w_heap w in
  with_heap (mkHeap (delete p (contexts h)) (surfaces h) (buffers h) (next_ptr h)) w.
Definition del_surface (p : ptr) w : World D :=
  let h := w_heap w in
  with_heap (mkHeap (contexts h) (delete p (surfaces h)) (buffers h) (next_ptr h)) w.
Definition del_buffer (p : ptr) w : World D :=
  let h := w_heap w in
  with_heap (mkHeap (contexts h) (surfaces h) (delete p (buffers h)) (next_ptr h)) w.

(** The address of a new object. *)
Definition alloc : M (World D) ptr :=
  fun w =>
    let h := w_heap w in
    (next_ptr h,
     with_heap (mkHeap (contexts h) (surfaces h) (buffers h) (next_ptr h + 1)) w).

Definition set_m_contexts (m : gmap Z ptr) w : World D :=
  let t := w_tables w in
  with_tables (mkTables (s_nextHandle t) m (m_windows t) (m_colorbuffers t)) w.
Definition set_m_windows (m : gmap Z (ptr * Z)) w : World D :=
  let t := w_tables w in
  with_tables (mkTables (s_nextHandle t) (m_contexts t) m (m_colorbuffers t)) w.
Definition set_m_colorbuffers (m : gmap Z ColorBufferRef) w : World D :=
  let t := w_tables w in
  with_tables (mkTables (s_nextHandle t) (m_contexts t) (m_windows t) m) w.
End updates.

Definition set_attached (p : option ptr) (s : WindowSurface) : WindowSurface :=
  mkWS (mSurface s) p (mReadContext s) (mDrawContext s) (mWidth s) (mHeight s) (mConfig s).
Definition set_read_context (p : option ptr) (s : WindowSurface) : WindowSurface :=
  mkWS (mSurface s) (mAttachedColorBuffer s) p (mDrawContext s) (mWidth s) (mHeight s) (mConfig s).
Definition set_draw_context (p : option ptr) (s : WindowSurface) : WindowSurface :=
  mkWS (mSurface s) (mAttachedColorBuffer s) (mReadContext s) p (mWidth s) (mHeight s) (mConfig s).
Definition set_pbuffer (surf w h : Z) (s : WindowSurface) : WindowSurface :=
  mkWS surf (mAttachedColorBuffer s) (mReadContext s) (mDrawContext s) w h (mConfig s).

(** ** Ownership *)

Section ownership.
Context {D : Type}.
Implicit Types w : World D.

Definition threads w : list RenderThreadInfo := w_self w :: w_others w.

Definition info_uses_context (p : ptr) (i : RenderThreadInfo) : Prop := currContext i = Some p.
Definition info_uses_surface (p : ptr) (i : RenderThreadInfo) : Prop :=
  currDrawSurf i = Some p \/ currReadSurf i = Some p.
Definition surface_uses_context (p : ptr) (s : WindowSurface) : Prop :=
  mReadContext s = Some p \/ mDrawContext s = Some p.

(** Somebody holds a [shared_ptr] to the object. *)
Definition context_owned w (p : ptr) : Prop :=
  map_Exists (fun _ q => q = p) (m_contexts (w_tables w)) \/
  Exists (info_uses_context p) (threads w) \/
  map_Exists (fun _ s => surface_uses_context p s) (surfaces (w_heap w)).

Definition surface_owned w (p : ptr) : Prop :=
  map_Exists (fun _ x => x.1 = p) (m_windows (w_tables w)) \/
  Exists (info_uses_surface p) (threads w).

Definition buffer_owned w (p : ptr) : Prop :=
  map_Exists (fun _ r => cb r = p) (m_colorbuffers (w_tables w)) \/
  map_Exists (fun _ s => mAttachedColorBuffer s = Some p) (surfaces (w_heap w)).

#[export] Instance info_uses_context_dec p i : Decision (info_uses_context p i).
Proof. unfold info_uses_context. apply _. Defined.
#[export] Instance info_uses_surface_dec p i : Decision (info_uses_surface p i).
Proof. unfold info_uses_surface. apply _. Defined.
#[export] Instance surface_uses_context_dec p s : Decision (surface_uses_context p s).
Proof. unfold surface_uses_context. apply _. Defined.
#[export] Instance context_owned_dec w p : Decision (context_owned w p).
Proof. unfold context_owned. apply _. Defined.
#[export] Instance surface_owned_dec w p : Decision (surface_owned w p).
Proof. unfold surface_owned. apply _. Defined.
#[export] Instance buffer_owned_dec w p : Decision (buffer_owned w p).
Proof. unfold buffer_owned. apply _. Defined.
End ownership.

(** ** The renderer's context: [ColorBuffer::Helper] *)

#[export] Instance world_driver D : HasDriver (World D) D := {|
  get_drv := w_drv;
  set_drv := with_drv
|}.

#[export] Instance world_driver_laws D : HasDriverLaws (World D) D.
Proof. split; [done|by intros []|done]. Qed.

Section bind.
Context {D : Type} `{!Driver D}.

Definition egl_make_current (draw read ctx : Z) : M (World D) bool :=
  fun w => let '(ok, d) := eglMakeCurrent draw read ctx (w_drv w) in (ok, with_drv d w).

(** What is bound, to be put back later. *)
Definition current_binding : M (World D) Saved :=
  gets (fun w => mkSaved (eglGetCurrentDrawSurface (w_drv w))
                   (eglGetCurrentReadSurface (w_drv w)) (eglGetCurrentContext (w_drv w))).

Definition bind_locked : M (World D) bool :=
  prev ← current_binding;
  dpy ← gets w_display;
  ok ← egl_make_current (m_pbufSurface dpy) (m_pbufSurface dpy) (m_pbufContext dpy);
  if (ok : bool) then modify (with_saved prev) ;; mret true else mret false.

(** Without a window; with one, see [unbind_window] in NativeWindow.v. *)
Definition unbind_locked : M (World D) bool :=
  prev ← gets w_saved;
  ok ← egl_make_current (m_prevDrawSurf prev) (m_prevReadSurf prev) (m_prevContext prev);
  if (ok : bool) then
    modify (with_saved (mkSaved EGL_NO_SURFACE EGL_NO_SURFACE EGL_NO_CONTEXT)) ;; mret true
  else mret false.

#[export] Instance world_helper : Helper (World D) := {|
  setupContext := bind_locked;
  teardownContext := unbind_locked ;; mret tt;
  getTextureDraw w := m_textureDraw (w_display w)
|}.

(** ** Destruction when the last owner goes *)

Definition drop_context (p : option ptr) : M (World D) unit :=
  match p with
  | None => mret tt
  | Some p => fun w =>
      if decide (context_owned w p) then (tt, w)
      else match contexts (w_heap w) !! p with
           | None => (tt, w)
           | Some c =>
               let w := if mContext c =? EGL_NO_CONTEXT then w
                        else with_drv (eglDestroyContext (mContext c) (w_drv w)) w in
               (tt, del_context p w)
           end
  end.

Definition drop_buffer (p : option ptr) : M (World D) unit :=
  match p with
  | None => mret tt
  | Some p => fun w =>
      if decide (buffer_owned w p) then (tt, w)
      else match buffers (w_heap w) !! p with
           | None => (tt, w)
           | Some b => (ColorBuffer_delete b ;; modify (del_buffer p)) w
           end
  end.

(** The members go in the reverse of their order. *)
Definition drop_surface (p : option ptr) : M (World D) unit :=
  match p with
  | None => mret tt
  | Some p => fun w =>
      if decide (surface_owned w p) then (tt, w)
      else match surfaces (w_heap w) !! p with
           | None => (tt, w)
           | Some s =>
               let w := if mSurface s =? 0 then w
                        else with_drv (eglDestroySurface (mSurface s) (w_drv w)) w in
               (modify (del_surface p) ;;
                drop_context (mDrawContext s) ;;
                drop_context (mReadContext s) ;;
                drop_buffer (mAttachedColorBuffer s)) w
           end
  end.

(** ** RenderContext and WindowSurface *)

(** [RenderThreadInfo::get()->currContext], as whether it is a GLES 2 context. *)
Definition curr_isGL2 (w : World D) : option bool :=
  p ← currContext (w_self w); mIsGl2 <$> contexts (w_heap w) !! p.

Definition RenderContext_create (config sharedContext : Z) (isGl2 : bool) :
    M (World D) (option ptr) :=
  fun w =>
    let '(ctx, d) := eglCreateContext config sharedContext (if isGl2 then 2 else 1) (w_drv w) in
    (if ctx =? EGL_NO_CONTEXT then mret None
     else p ← alloc; modify (put_context p (mkRC ctx isGl2)) ;; mret (Some p)) (with_drv d w).

Definition resize (s : WindowSurface) (p_width p_height : Z) :
    M (World D) (bool * WindowSurface) :=
  if negb (mSurface s =? 0) && (mWidth s =? p_width) && (mHeight s =? p_height)
  then mret (true, s)
  else
    prev ← current_binding;
    let prevPbuf := mSurface s in
    let needRebindContext :=
      negb (mSurface s =? 0) &&
      ((m_prevReadSurf prev =? mSurface s) || (m_prevDrawSurf prev =? mSurface s)) in
    when needRebindContext
      (egl_make_current EGL_NO_SURFACE EGL_NO_SURFACE EGL_NO_CONTEXT ;; mret tt) ;;
    when (negb (mSurface s =? 0))
      (modify (fun w => with_drv (eglDestroySurface (mSurface s) (w_drv w)) w)) ;;
    new ← (fun w =>
             let '(x, d) := eglCreatePbufferSurface (mConfig s) (i32 p_width) (i32 p_height)
                              (w_drv w) in (x, with_drv d w));
    if new =? EGL_NO_SURFACE then mret (false, set_pbuffer 0 (mWidth s) (mHeight s) s)
    else
      when needRebindContext
        (egl_make_current
           (if m_prevDrawSurf prev =? prevPbuf then new else m_prevDrawSurf prev)
           (if m_prevReadSurf prev =? prevPbuf then new else m_prevReadSurf prev)
           (m_prevContext prev) ;; mret tt) ;;
      mret (true, set_pbuffer new p_width p_height s).

Definition WindowSurface_create (config p_width p_height : Z) : M (World D) (option ptr) :=
  r ← resize (mkWS 0 None None None 0 0 config) (u32 p_width) (u32 p_height);
  if (r.1 : bool) then p ← alloc; modify (put_surface p r.2) ;; mret (Some p)
  else mret None.

(** [this] and the buffer are pointers; the buffer's previous owner may have been
    the last one. *)
Definition setColorBuffer (this : ptr) (s : WindowSurface) (p : ptr) (b : ColorBuffer) :
    M (World D) unit :=
  let s' := set_attached (Some p) s in
  modify (put_surface this s') ;;
  drop_buffer (mAttachedColorBuffer s) ;;
  when (negb (m_width b =? mWidth s) || negb (m_height b =? mHeight s))
    (r ← resize s' (m_width b) (m_height b); modify (put_surface this r.2)).

Inductive BindType := BIND_READ | BIND_DRAW | BIND_READDRAW.

Definition ws_bind (this : ptr) (p_ctx : option ptr) (p_bindType : BindType) :
    M (World D) unit :=
  fun w =>
    match surfaces (w_heap w) !! this with
    | None => (tt, w)
    | Some s =>
        (match p_bindType with
         | BIND_READ =>
             modify (put_surface this (set_read_context p_ctx s)) ;; drop_context (mReadContext s)
         | BIND_DRAW =>
             modify (put_surface this (set_draw_context p_ctx s)) ;; drop_context (mDrawContext s)
         | BIND_READDRAW =>
             modify (put_surface this (set_read_context p_ctx s)) ;;
             drop_context (mReadContext s) ;;
             modify (put_surface this (set_draw_context p_ctx (set_read_context p_ctx s))) ;;
             drop_context (mDrawContext s)
         end) w
    end.

(** [b] is the attached buffer, [ctx] the draw context. *)
Definition flush_attached (s : WindowSurface) (p : ptr) (b : ColorBuffer) (ctx : RenderContext) :
    M (World D) bool :=
  prev ← current_binding;
  ok ← egl_make_current (mSurface s) (mSurface s) (mContext ctx);
  if (ok : bool) then
    c ← gets curr_isGL2;
    r ← blitFromCurrentReadBuffer c b;
    modify (put_buffer p r.2) ;;
    egl_make_current (m_prevDrawSurf prev) (m_prevReadSurf prev) (m_prevContext prev) ;;
    mret true
  else mret false.

Definition flushColorBuffer (s : WindowSurface) : M (World D) bool :=
  match mAttachedColorBuffer s with
  | None => mret true
  | Some p =>
      if (mWidth s =? 0) || (mHeight s =? 0) then mret false
      else
        w ← gets id;
        match buffers (w_heap w) !! p with
        | None => mret false
        | Some b =>
            if negb (m_width b =? mWidth s) || negb (m_height b =? mHeight s) then mret false
            else match mDrawContext s ≫= (fun q => contexts (w_heap w) !! q) with
                 | None => mret false
                 | Some ctx => flush_attached s p b ctx
                 end
        end
  end.
End bind.
