(* ===== verification/Renderer.v ===== *)
(** * The renderer: guest handles and their operations

    [src/src/anbox/graphics/emugl/Renderer.{h,cpp}]: the tables that map guest
    handles to render contexts, window surfaces and color buffers, and every
    operation a render thread can ask for.  Each is a computation on the whole
    [World]; all run under the renderer's mutex, so an execution of several
    threads is a sequence of whole operations with the calling thread switched in
    between ([Steps.v]).  A pointer that an operation erases or overwrites is
    followed by the [drop_...] of its object. *)

From stdpp Require Import sorting.
From S2P Require Import Prelude Gl RendererConfig TextureDraw TextureResize ColorBuffer RenderState.

Section Renderer.
Context {D : Type} `{!Driver D}.

(** ** Handles *)

(** The do-while loop; [None] when [n] rounds were not enough. *)
Fixpoint gen_loop (n : nat) (next : Z) (t : Tables) : option Z :=
  match n with
  | O => None
  | S n =>
      let id := u32 (next + 1) in
      if (id =? 0) || bool_decide (is_Some (m_contexts t !! id)) ||
         bool_decide (is_Some (m_windows t !! id))
      then gen_loop n id t
      else Some id
  end.

(** One round more than there are taken handles, [0] included; [None] when there
    is no free handle, and the program's loop does not end. *)
Definition gen_fuel (t : Tables) : nat := S (S (size (m_contexts t) + size (m_windows t))).

Definition set_next (id : Z) (t : Tables) : Tables :=
  mkTables id (m_contexts t) (m_windows t) (m_colorbuffers t).

Definition genHandle : M (World D) (option Z) :=
  fun w =>
    match gen_loop (gen_fuel (w_tables w)) (s_nextHandle (w_tables w)) (w_tables w) with
    | None => (None, w)
    | Some id => (Some id, with_tables (set_next id (w_tables w)) w)
    end.

(** ** Threads *)

Definition upd_self (f : RenderThreadInfo -> RenderThreadInfo) : M (World D) unit :=
  modify (fun w => with_self (f (w_self w)) w).

Definition set_contextSet (s : gset Z) (i : RenderThreadInfo) : RenderThreadInfo :=
  mkInfo (currContext i) (currDrawSurf i) (currReadSurf i) (m_glDec i) (m_gl2Dec i) s (m_windowSet i).
Definition set_windowSet (s : gset Z) (i : RenderThreadInfo) : RenderThreadInfo :=
  mkInfo (currContext i) (currDrawSurf i) (currReadSurf i) (m_glDec i) (m_gl2Dec i) (m_contextSet i) s.
Definition set_currContext (p : option ptr) (i : RenderThreadInfo) : RenderThreadInfo :=
  mkInfo p (currDrawSurf i) (currReadSurf i) (m_glDec i) (m_gl2Dec i) (m_contextSet i) (m_windowSet i).
Definition set_currDrawSurf (p : option ptr) (i : RenderThreadInfo) : RenderThreadInfo :=
  mkInfo (currContext i) p (currReadSurf i) (m_glDec i) (m_gl2Dec i) (m_contextSet i) (m_windowSet i).
Definition set_currReadSurf (p : option ptr) (i : RenderThreadInfo) : RenderThreadInfo :=
  mkInfo (currContext i) (currDrawSurf i) p (m_glDec i) (m_gl2Dec i) (m_contextSet i) (m_windowSet i).
Definition set_glDec (p : option ptr) (i : RenderThreadInfo) : RenderThreadInfo :=
  mkInfo (currContext i) (currDrawSurf i) (currReadSurf i) p (m_gl2Dec i) (m_contextSet i) (m_windowSet i).
Definition set_gl2Dec (p : option ptr) (i : RenderThreadInfo) : RenderThreadInfo :=
  mkInfo (currContext i) (currDrawSurf i) (currReadSurf i) (m_glDec i) p (m_contextSet i) (m_windowSet i).

(** A [std::set] in iteration order. *)
Definition ascending (s : gset Z) : list Z := merge_sort Z.le (elements s).

(** ** Creating *)

(** [m_colorbuffers[h] = ...], which releases what was there. *)
Definition put_colorbuffer (h : Z) (r : ColorBufferRef) : M (World D) unit :=
  old ← gets (fun w => m_colorbuffers (w_tables w) !! h);
  modify (fun w => set_m_colorbuffers (<[h := r]> (m_colorbuffers (w_tables w))) w) ;;
  drop_buffer (cb <$> old).

Definition createColorBuffer (p_width p_height p_internalFormat : Z) :
    M (World D) (option Z) :=
  dpy ← gets w_display;
  b ← ColorBuffer_create p_width p_height p_internalFormat (has_eglimage_texture_2d dpy);
  match b with
  | None => mret (Some 0)
  | Some b =>
      p ← alloc;
      modify (put_buffer p b) ;;
      ret ← genHandle;
      match ret with
      | None => mret None
      | Some h => put_colorbuffer h (mkRef p 1) ;; mret (Some h)
      end
  end.

(** The shared context's host handle, [None] for a bad handle. *)
Definition shared_context (p_share : Z) (w : World D) : option Z :=
  if p_share =? 0 then Some EGL_NO_CONTEXT
  else p ← m_contexts (w_tables w) !! p_share; mContext <$> contexts (w_heap w) !! p.

Definition createRenderContext (p_config p_share : Z) (p_isGL2 : bool) :
    M (World D) (option Z) :=
  dpy ← gets w_display;
  share ← gets (shared_context p_share);
  match config_get (m_configs dpy) p_config, share with
  | Some config, Some sharedContext =>
      rctx ← RenderContext_create (mEglConfig config) sharedContext p_isGL2;
      match rctx with
      | None => mret (Some 0)
      | Some p =>
          ret ← genHandle;
          match ret with
          | None => mret None
          | Some h =>
              modify (fun w => set_m_contexts (<[h := p]> (m_contexts (w_tables w))) w) ;;
              upd_self (fun i => set_contextSet ({[h]} ∪ m_contextSet i) i) ;;
              mret (Some h)
          end
      end
  | _, _ => mret (Some 0)
  end.

Definition createWindowSurface (p_config p_width p_height : Z) : M (World D) (option Z) :=
  dpy ← gets w_display;
  match config_get (m_configs dpy) p_config with
  | None => mret (Some 0)
  | Some config =>
      win ← WindowSurface_create (mEglConfig config) p_width p_height;
      match win with
      | None => mret (Some 0)
      | Some p =>
          ret ← genHandle;
          match ret with
          | None => mret None
          | Some h =>
              modify (fun w => set_m_windows (<[h := (p, 0)]> (m_windows (w_tables w))) w) ;;
              upd_self (fun i => set_windowSet ({[h]} ∪ m_windowSet i) i) ;;
              mret (Some h)
          end
      end
  end.

(** ** Destroying *)

Definition erase_context (h : Z) : M (World D) unit :=
  old ← gets (fun w => m_contexts (w_tables w) !! h);
  modify (fun w => set_m_contexts (delete h (m_contexts (w_tables w))) w) ;;
  drop_context old.

Definition erase_window (h : Z) : M (World D) unit :=
  old ← gets (fun w => m_windows (w_tables w) !! h);
  modify (fun w => set_m_windows (delete h (m_windows (w_tables w))) w) ;;
  drop_surface (fst <$> old).

Definition erase_colorbuffer (h : Z) : M (World D) unit :=
  old ← gets (fun w => m_colorbuffers (w_tables w) !! h);
  modify (fun w => set_m_colorbuffers (delete h (m_colorbuffers (w_tables w))) w) ;;
  drop_buffer (cb <$> old).

(** [if (--refcount == 0) erase], nothing for an unknown handle. *)
Definition unref_colorbuffer (h : Z) : M (World D) unit :=
  c ← gets (fun w => m_colorbuffers (w_tables w) !! h);
  match c with
  | None => mret tt
  | Some r =>
      let n := u32 (refcount r - 1) in
      modify (fun w => set_m_colorbuffers (<[h := mkRef (cb r) n]> (m_colorbuffers (w_tables w))) w) ;;
      when (n =? 0) (erase_colorbuffer h)
  end.

Definition drainRenderContext : M (World D) unit :=
  tinfo ← gets w_self;
  if decide (m_contextSet tinfo = ∅) then mret tt
  else
    mseq (erase_context <$> ascending (m_contextSet tinfo)) ;;
    upd_self (set_contextSet ∅).

Definition drain_window (h : Z) : M (World D) unit :=
  win ← gets (fun w => m_windows (w_tables w) !! h);
  match win with
  | None => mret tt
  | Some (_, oldColorBufferHandle) =>
      when (negb (oldColorBufferHandle =? 0)) (unref_colorbuffer oldColorBufferHandle) ;;
      erase_window h
  end.

Definition drainWindowSurface : M (World D) unit :=
  tinfo ← gets w_self;
  if decide (m_windowSet tinfo = ∅) then mret tt
  else
    mseq (drain_window <$> ascending (m_windowSet tinfo)) ;;
    upd_self (set_windowSet ∅).

Definition DestroyRenderContext (p_context : Z) : M (World D) unit :=
  erase_context p_context ;;
  tinfo ← gets w_self;
  if decide (m_contextSet tinfo = ∅) then mret tt
  else upd_self (fun i => set_contextSet (m_contextSet i ∖ {[p_context]}) i).

Definition DestroyWindowSurface (p_surface : Z) : M (World D) unit :=
  win ← gets (fun w => m_windows (w_tables w) !! p_surface);
  match win with
  | None => mret tt
  | Some _ =>
      erase_window p_surface ;;
      tinfo ← gets w_self;
      if decide (m_windowSet tinfo = ∅) then mret tt
      else upd_self (fun i => set_windowSet (m_windowSet i ∖ {[p_surface]}) i)
  end.

(** ** Color buffers *)

Definition openColorBuffer (p_colorbuffer : Z) : M (World D) Z :=
  c ← gets (fun w => m_colorbuffers (w_tables w) !! p_colorbuffer);
  match c with
  | None => mret (-1)
  | Some r =>
      modify (fun w => set_m_colorbuffers
        (<[p_colorbuffer := mkRef (cb r) (u32 (refcount r + 1))]> (m_colorbuffers (w_tables w))) w) ;;
      mret 0
  end.

Definition closeColorBuffer (p_colorbuffer : Z) : M (World D) unit :=
  unref_colorbuffer p_colorbuffer.

(** The object behind a color buffer handle, with its address. *)
Definition find_buffer (h : Z) (w : World D) : option (ptr * ColorBuffer) :=
  r ← m_colorbuffers (w_tables w) !! h;
  b ← buffers (w_heap w) !! cb r;
  Some (cb r, b).

Definition readColorBuffer (h x y width height format type : Z) :
    M (World D) (option (list Z)) :=
  c ← gets (find_buffer h);
  match c with
  | None => mret None
  | Some (p, b) =>
      r ← readPixels b x y width height format type;
      modify (put_buffer p r.2) ;; mret r.1
  end.

Definition updateColorBuffer (h x y width height format type : Z) (pixels : list Z) :
    M (World D) bool :=
  c ← gets (find_buffer h);
  match c with
  | None => mret false
  | Some (_, b) => subUpdate b x y width height format type pixels ;; mret true
  end.

Definition bindColorBufferToTexture (h : Z) : M (World D) bool :=
  c ← gets (find_buffer h);
  cur ← gets curr_isGL2;
  match c with None => mret false | Some (_, b) => bindToTexture cur b end.

Definition bindColorBufferToRenderbuffer (h : Z) : M (World D) bool :=
  c ← gets (find_buffer h);
  cur ← gets curr_isGL2;
  match c with None => mret false | Some (_, b) => bindToRenderbuffer cur b end.

(** ** Windows *)

Definition find_window (h : Z) (w : World D) : option (ptr * WindowSurface) :=
  x ← m_windows (w_tables w) !! h;
  s ← surfaces (w_heap w) !! x.1;
  Some (x.1, s).

Definition flushWindowSurfaceColorBuffer (p_surface : Z) : M (World D) bool :=
  win ← gets (find_window p_surface);
  match win with
  | None => mret false
  | Some (_, s) => flushColorBuffer s ;; mret true
  end.

Definition setWindowSurfaceColorBuffer (p_surface p_colorbuffer : Z) : M (World D) bool :=
  win ← gets (find_window p_surface);
  c ← gets (find_buffer p_colorbuffer);
  match win, c with
  | Some (pw, s), Some (pb, b) =>
      setColorBuffer pw s pb b ;;
      modify (fun w => set_m_windows
        (<[p_surface := (pw, p_colorbuffer)]> (m_windows (w_tables w))) w) ;;
      mret true
  | _, _ => mret false
  end.

(** ** Making a context current *)

(** The pointers for the three handles: [None] is a bad handle, [Some] of nulls an
    unbind operation. *)
Definition resolve (p_context p_drawSurface p_readSurface : Z) (w : World D) :
    option (option ptr * option ptr * option ptr) :=
  if (p_context =? 0) && (p_drawSurface =? 0) && (p_readSurface =? 0)
  then Some (None, None, None)
  else
    ctx ← m_contexts (w_tables w) !! p_context;
    draw ← m_windows (w_tables w) !! p_drawSurface;
    read ← (if negb (p_readSurface =? p_drawSurface)
            then m_windows (w_tables w) !! p_readSurface else Some draw);
    Some (Some ctx, Some draw.1, Some read.1).

Definition egl_surface (w : World D) (p : option ptr) : Z :=
  from_option mSurface EGL_NO_SURFACE (p ≫= fun p => surfaces (w_heap w) !! p).

Definition egl_context (w : World D) (p : option ptr) : Z :=
  from_option mContext EGL_NO_CONTEXT (p ≫= fun p => contexts (w_heap w) !! p).

Definition bind_surfaces (ctx bindDraw bindRead : option ptr) : M (World D) unit :=
  match bindDraw, bindRead with
  | Some d, Some r =>
      if negb (d =? r) then ws_bind d ctx BIND_DRAW ;; ws_bind r ctx BIND_READ
      else ws_bind d ctx BIND_READDRAW
  | _, _ => mret tt
  end.

Definition set_decoder (ctx : option ptr) : M (World D) unit :=
  match ctx with
  | Some p =>
      c ← gets (fun w => contexts (w_heap w) !! p);
      if from_option mIsGl2 false c then upd_self (set_gl2Dec ctx) else upd_self (set_glDec ctx)
  | None => upd_self (set_glDec None) ;; upd_self (set_gl2Dec None)
  end.

(** In an unbind the local [bindDraw] and [bindRead] keep the surfaces alive up
    to the end. *)
Definition bindContext (p_context p_drawSurface p_readSurface : Z) : M (World D) bool :=
  w ← gets id;
  match resolve p_context p_drawSurface p_readSurface w with
  | None => mret false
  | Some (ctx, draw, read) =>
      ok ← egl_make_current (egl_surface w draw) (egl_surface w read) (egl_context w ctx);
      if negb ok then mret false
      else
        tinfo ← gets w_self;
        let unbind := negb (bool_decide (is_Some draw)) && negb (bool_decide (is_Some read)) in
        (if unbind then bind_surfaces ctx (currDrawSurf tinfo) (currReadSurf tinfo)
         else bind_surfaces ctx draw read) ;;
        upd_self (set_currContext ctx) ;;
        drop_context (currContext tinfo) ;;
        upd_self (set_currDrawSurf draw) ;;
        when (negb unbind) (drop_surface (currDrawSurf tinfo)) ;;
        upd_self (set_currReadSurf read) ;;
        when (negb unbind) (drop_surface (currReadSurf tinfo)) ;;
        set_decoder ctx ;;
        when unbind (drop_surface (currReadSurf tinfo) ;; drop_surface (currDrawSurf tinfo)) ;;
        mret true
  end.

(** ** Client images *)

(** The handle is the low half of the image's pointer. *)
Definition createClientImage (context target buffer : Z) : M (World D) Z :=
  fun w =>
    match (if context =? 0 then Some None else Some <$> m_contexts (w_tables w) !! context) with
    | None => (0, w)
    | Some ctx =>
        let '(x, d) := eglCreateImageKHR (egl_context w ctx) target buffer (w_drv w) in
        (u32 x, with_drv d w)
    end.

Definition destroyClientImage (image : Z) : M (World D) Z :=
  fun w => let '(x, d) := eglDestroyImageKHR image (w_drv w) in (x, with_drv d w).

(** ** The end *)

Definition keys {A} (m : gmap Z A) : list Z := merge_sort Z.le (fst <$> map_to_list m).

Definition finalize : M (World D) unit :=
  w ← gets id;
  mseq (erase_colorbuffer <$> keys (m_colorbuffers (w_tables w))) ;;
  mseq (erase_window <$> keys (m_windows (w_tables w))) ;;
  mseq (erase_context <$> keys (m_contexts (w_tables w))) ;;
  egl_make_current EGL_NO_SURFACE EGL_NO_SURFACE EGL_NO_CONTEXT ;;
  modify (fun w => with_drv (eglDestroyContext (m_eglContext (w_display w)) (w_drv w)) w) ;;
  modify (fun w => with_drv (eglDestroyContext (m_pbufContext (w_display w)) (w_drv w)) w) ;;
  modify (fun w => with_drv (eglDestroySurface (m_pbufSurface (w_display w)) (w_drv w)) w).
End Renderer.
