(* ===== verification/Handles.v ===== *)
(** * Fresh handles

    [Renderer::genHandle] ends with a handle that names neither a context nor a
    window, as long as there is one; it does not look at the color buffers. *)

From S2P Require Import Prelude Gl TextureDraw TextureResize ColorBuffer RenderState Renderer.

(** The handles the loop skips. *)
Definition taken (t : Tables) : gset Z := {[0]} ∪ (dom (m_contexts t) ∪ dom (m_windows t)).

Lemma gen_loop_step n next t :
  gen_loop (S n) next t =
  if decide (u32 (next + 1) ∈ taken t) then gen_loop n (u32 (next + 1)) t
  else Some (u32 (next + 1)).
Proof.
  cbn [gen_loop]. unfold taken.
  repeat case_bool_decide; case_decide as Ht; rewrite ?orb_true_r, ?orb_false_r;
    destruct (Z.eqb_spec (u32 (next + 1)) 0); cbn [orb]; try done; exfalso;
    rewrite !elem_of_union, elem_of_singleton, !elem_of_dom in Ht; tauto.
Qed.

Lemma gen_loop_some n : forall next t id,
  gen_loop n next t = Some id -> in_u 32 id /\ id ∉ taken t.
Proof.
  induction n as [|n IH]; intros next t id; [done|].
  rewrite gen_loop_step. case_decide; [apply IH|]. intros [= <-].
  split; [by apply wrapu_range|done].
Qed.

Lemma gen_loop_none n : forall next t,
  gen_loop n next t = None ->
  forall k, (k < n)%nat -> u32 (next + 1 + Z.of_nat k) ∈ taken t.
Proof.
  induction n as [|n IH]; intros next t; [lia|].
  rewrite gen_loop_step. case_decide as Ht; [|done]. intros Hnone [|k] Hk.
  - by rewrite Z.add_0_r.
  - specialize (IH _ _ Hnone k). rewrite <- Z.add_assoc, wrapu_add_l in IH.
    replace (next + 1 + Z.of_nat (S k)) with (next + 1 + (1 + Z.of_nat k)) by lia.
    apply IH. lia.
Qed.

Lemma taken_size t : (size (taken t) <= 1 + size (m_contexts t) + size (m_windows t))%nat.
Proof.
  unfold taken. rewrite !size_union_alt.
  assert (H1 : dom (m_windows t) ∖ dom (m_contexts t) ⊆ dom (m_windows t)) by set_solver.
  assert (H2 : (dom (m_contexts t) ∪ dom (m_windows t)) ∖ {[0]}
               ⊆ dom (m_contexts t) ∪ dom (m_windows t)) by set_solver.
  apply subseteq_size in H1, H2.
  pose proof (size_union_alt (dom (m_contexts t)) (dom (m_windows t))) as H3.
  rewrite !size_dom in *. rewrite size_singleton in *. lia.
Qed.

Lemma gen_fuel_bound t :
  Z.of_nat (size (m_contexts t) + size (m_windows t)) < 2 ^ 32 - 1 ->
  Z.of_nat (gen_fuel t) <= 2 ^ 32.
Proof.
  unfold gen_fuel. generalize (size (m_contexts t)) (size (m_windows t)). intros a b. lia.
Qed.

Lemma rounds_distinct next n :
  Z.of_nat n <= 2 ^ 32 -> NoDup ((fun k => u32 (next + 1 + Z.of_nat k)) <$> seq 0 n).
Proof.
  intros Hn. apply NoDup_fmap_2_strong; [|apply NoDup_seq].
  intros i j Hi Hj Heq. apply elem_of_seq in Hi, Hj.
  apply wrapu_inj in Heq; lia.
Qed.

Lemma gen_loop_ends next t :
  Z.of_nat (size (m_contexts t) + size (m_windows t)) < 2 ^ 32 - 1 ->
  is_Some (gen_loop (gen_fuel t) next t).
Proof.
  intros Hsz. destruct (gen_loop (gen_fuel t) next t) eqn:E; [by eexists|exfalso].
  set (l := (fun k => u32 (next + 1 + Z.of_nat k)) <$> seq 0 (gen_fuel t)).
  assert (Hl : NoDup l) by by apply rounds_distinct, gen_fuel_bound.
  assert (Hsub : l ⊆ elements (taken t)).
  { intros x (k & -> & Hk)%list_elem_of_fmap. apply elem_of_elements.
    apply (gen_loop_none _ _ _ E). apply elem_of_seq in Hk. lia. }
  pose proof (NoDup_submseteq l _ Hl Hsub) as Hlen%submseteq_length.
  change (length (elements (taken t))) with (size (taken t)) in Hlen.
  pose proof (taken_size t). unfold l, gen_fuel in Hlen.
  rewrite length_fmap, length_seq in Hlen. lia.
Qed.

(** C30: [genHandle] ends whenever fewer than 2^32 - 1 contexts and windows are
    live, and its result is a non-zero handle that names neither a context nor a
    window; nothing but the counter changes. *)
Theorem gen_handle_fresh {D} (w : World D) :
  Z.of_nat (size (m_contexts (w_tables w)) + size (m_windows (w_tables w))) < 2 ^ 32 - 1 ->
  exists id, genHandle w = (Some id, with_tables (set_next id (w_tables w)) w) /\
    0 < id < 2 ^ 32 /\
    m_contexts (w_tables w) !! id = None /\ m_windows (w_tables w) !! id = None.
Proof.
  intros Hsz. destruct (gen_loop_ends (s_nextHandle (w_tables w)) _ Hsz) as [id Hid].
  exists id. unfold genHandle. rewrite Hid.
  apply gen_loop_some in Hid as [Hr Ht]. unfold taken in Ht.
  rewrite !not_elem_of_union, not_elem_of_singleton, !not_elem_of_dom in Ht.
  unfold in_u in Hr. split_and!; try tauto; lia.
Qed.

Lemma gen_handle_fresh_witness :
  let t := mkTables (2 ^ 32 - 1) {[1 := 7]} {[2 := (8, 0)]} ∅ in
  let dpy := mkDisplay [] true 1 4 1 0 2 (mkTD 1 2 3 0 1 0 4 5) in
  let w := mkWorld toy_init dpy (mkSaved 0 0 0) t (mkHeap ∅ ∅ ∅ 1) info_new [] in
  (genHandle w).1 = Some 3 /\
  exists id, genHandle w = (Some id, with_tables (set_next id (w_tables w)) w) /\
    0 < id < 2 ^ 32 /\
    m_contexts (w_tables w) !! id = None /\ m_windows (w_tables w) !! id = None.
Proof.
  intros t dpy w. split; [by vm_compute|].
  apply (gen_handle_fresh w). by vm_compute.
Defined.
