(* ===== verification/Ownership.v ===== *)
(** * No dangling pointers, no leaked objects

    [inv pc ps pb w]: every pointer that is held leads to a live object, and every
    live object is held by somebody, the objects in the pending lists [pc]
    (contexts), [ps] (surfaces) and [pb] (color buffers) excepted.  A program
    point that overwrites a pointer makes its old value pending; the [drop_...]
    that follows settles it.  [owned w], with nothing pending, holds between
    operations. *)

From S2P Require Import Prelude Gl RendererConfig TextureDraw TextureResize ColorBuffer RenderState Renderer.

(** ** What the drawing calls leave alone *)

Section frame.
Context {D : Type} `{!Driver D}.
Implicit Types w : World D.

(** Everything but the driver and the saved binding is the same. *)
Definition frame w w' : Prop :=
  w_tables w' = w_tables w /\ w_heap w' = w_heap w /\ w_self w' = w_self w /\
  w_others w' = w_others w /\ w_display w' = w_display w.

#[export] Instance frame_preorder : PreOrder frame.
Proof.
  split; [done|]. unfold frame. intros x y z (?&?&?&?&?) (?&?&?&?&?).
  split_and!; congruence.
Qed.

Lemma frame_with_drv d w : frame w (with_drv d w).
Proof. done. Qed.

#[export] Instance frame_gl : GLInvariant frame.
Proof.
  split.
  - apply _.
  - intros api c w. unfold gles. destruct (gl _ _ _). apply frame_with_drv.
  - intros target buffer w. unfold egl_create_image.
    destruct (eglCreateImageKHR _ _ _ _). apply frame_with_drv.
  - intros image w. apply frame_with_drv.
Qed.

Lemma frame_make_current draw read ctx : respects frame (egl_make_current draw read ctx).
Proof. intros w. unfold egl_make_current. by destruct (eglMakeCurrent _ _ _ _). Qed.

Lemma frame_modify (f : World D -> World D) :
  (forall w, frame w (f w)) -> respects frame (modify f).
Proof. intros Hf w. apply Hf. Qed.

Lemma frame_bind_locked : respects frame bind_locked.
Proof.
  unfold bind_locked, current_binding. respects_tac.
  - apply frame_make_current.
  - by apply frame_modify.
Qed.

Lemma frame_unbind_locked : respects frame unbind_locked.
Proof.
  unfold unbind_locked. respects_tac.
  - apply frame_make_current.
  - by apply frame_modify.
Qed.

#[export] Instance frame_helper : HelperInvariant frame.
Proof.
  split; [apply _|apply frame_bind_locked|].
  apply respects_bind; [apply _|apply frame_unbind_locked|respects_tac].
Qed.

Lemma frame_resize s p_width p_height : respects frame (resize s p_width p_height).
Proof.
  unfold resize, current_binding. destruct (_ && _); [respects_tac|].
  respects_tac; try apply frame_make_current; try (by apply frame_modify).
  intros w. by destruct (eglCreatePbufferSurface _ _ _ _).
Qed.
End frame.

#[export] Hint Resolve frame_make_current frame_bind_locked frame_unbind_locked
  frame_resize : respects.

(** ** The invariant *)

Section inv.
Context {D : Type}.
Implicit Types w : World D.

Record inv (pc ps pb : list (option ptr)) w : Prop := {
  inv_context p : context_owned w p -> is_Some (contexts (w_heap w) !! p);
  inv_surface p : surface_owned w p -> is_Some (surfaces (w_heap w) !! p);
  inv_buffer p : buffer_owned w p -> is_Some (buffers (w_heap w) !! p);
  inv_no_leak_context p :
    is_Some (contexts (w_heap w) !! p) -> context_owned w p \/ Some p ∈ pc;
  inv_no_leak_surface p :
    is_Some (surfaces (w_heap w) !! p) -> surface_owned w p \/ Some p ∈ ps;
  inv_no_leak_buffer p :
    is_Some (buffers (w_heap w) !! p) -> buffer_owned w p \/ Some p ∈ pb;
  inv_next p :
    is_Some (contexts (w_heap w) !! p) \/ is_Some (surfaces (w_heap w) !! p) \/
    is_Some (buffers (w_heap w) !! p) -> p < next_ptr (w_heap w)
}.

Definition owned w : Prop := inv [] [] [] w.

Lemma inv_frame pc ps pb w w' : frame w w' -> inv pc ps pb w -> inv pc ps pb w'.
Proof.
  destruct w as [d dpy s t h i l], w' as [d' dpy' s' t' h' i' l'].
  unfold frame. cbn. intros (-> & -> & -> & -> & ->) []. by split.
Qed.

(** Pending lists are sets. *)
Lemma inv_weaken pc ps pb pc' ps' pb' w :
  (forall p : ptr, Some p ∈ pc -> Some p ∈ pc') ->
  (forall p : ptr, Some p ∈ ps -> Some p ∈ ps') ->
  (forall p : ptr, Some p ∈ pb -> Some p ∈ pb') ->
  inv pc ps pb w -> inv pc' ps' pb' w.
Proof.
  intros H1 H2 H3 []. split; try done; intros p Hp.
  - destruct (inv_no_leak_context0 p Hp); auto.
  - destruct (inv_no_leak_surface0 p Hp); auto.
  - destruct (inv_no_leak_buffer0 p Hp); auto.
Qed.

Lemma elem_of_pending (p : ptr) q l : Some p ∈ q :: l <-> q = Some p \/ Some p ∈ l.
Proof. rewrite elem_of_cons. split; intros [?|?]; auto. Qed.


(** What an update of a map does to what it holds. *)
Lemma map_Exists_insert_inv {A} (P : Z -> A -> Prop) (m : gmap Z A) k x :
  map_Exists P (<[k := x]> m) -> P k x \/ map_Exists P m.
Proof.
  intros (i & y & Hi & Hy). apply lookup_insert_Some in Hi as [[<- <-]|[_ Hi]]; [by left|].
  right. by exists i, y.
Qed.

Lemma map_Exists_insert_new {A} (P : Z -> A -> Prop) (m : gmap Z A) k x :
  P k x -> map_Exists P (<[k := x]> m).
Proof. intros Hx. exists k, x. by rewrite lookup_insert_eq. Qed.

Lemma map_Exists_insert_old {A} (P : Z -> A -> Prop) (m : gmap Z A) k x :
  map_Exists P m -> map_Exists P (<[k := x]> m) \/ (exists y, m !! k = Some y /\ P k y).
Proof.
  intros (i & y & Hi & Hy). destruct (decide (i = k)) as [->|Hne]; [right; by exists y|].
  left. exists i, y. by rewrite lookup_insert_ne.
Qed.

Lemma map_Exists_delete_inv {A} (P : Z -> A -> Prop) (m : gmap Z A) k :
  map_Exists P (delete k m) -> map_Exists P m.
Proof. intros (i & y & [_ Hi]%lookup_delete_Some & Hy). by exists i, y. Qed.

Lemma map_Exists_delete_old {A} (P : Z -> A -> Prop) (m : gmap Z A) k :
  map_Exists P m -> map_Exists P (delete k m) \/ (exists y, m !! k = Some y /\ P k y).
Proof.
  intros (i & y & Hi & Hy). destruct (decide (i = k)) as [->|Hne]; [right; by exists y|].
  left. exists i, y. by rewrite lookup_delete_ne.
Qed.

(** ** Settling a pending object *)

Section settle.
Context `{!Driver D}.

(** An object somebody owns, or that is gone, need not be pending. *)
Lemma inv_settled_context c pc ps pb w :
  (forall p, c = Some p -> is_Some (contexts (w_heap w) !! p) -> context_owned w p) ->
  inv (c :: pc) ps pb w -> inv pc ps pb w.
Proof.
  intros Hc []. split; try done. intros p Hp.
  destruct (inv_no_leak_context0 p Hp) as [|Hin]; [by left|].
  apply elem_of_pending in Hin as [->|]; auto.
Qed.

Lemma inv_settled_surface c pc ps pb w :
  (forall p, c = Some p -> is_Some (surfaces (w_heap w) !! p) -> surface_owned w p) ->
  inv pc (c :: ps) pb w -> inv pc ps pb w.
Proof.
  intros Hc []. split; try done. intros p Hp.
  destruct (inv_no_leak_surface0 p Hp) as [|Hin]; [by left|].
  apply elem_of_pending in Hin as [->|]; auto.
Qed.

Lemma inv_settled_buffer c pc ps pb w :
  (forall p, c = Some p -> is_Some (buffers (w_heap w) !! p) -> buffer_owned w p) ->
  inv pc ps (c :: pb) w -> inv pc ps pb w.
Proof.
  intros Hc []. split; try done. intros p Hp.
  destruct (inv_no_leak_buffer0 p Hp) as [|Hin]; [by left|].
  apply elem_of_pending in Hin as [->|]; auto.
Qed.

Lemma inv_del_context p pc ps pb w :
  ~ context_owned w p -> inv (Some p :: pc) ps pb w -> inv pc ps pb (del_context p w).
Proof.
  intros Hno []. split; cbn; try done.
  - intros q Hq. rewrite lookup_delete_ne; [by apply inv_context0|]. intros ->. by destruct Hno.
  - intros q Hq. destruct (decide (p = q)) as [->|Hne].
    { rewrite lookup_delete_eq in Hq. by destruct Hq. }
    rewrite lookup_delete_ne in Hq by done.
    destruct (inv_no_leak_context0 q Hq) as [|Hin]; [by left|].
    apply elem_of_pending in Hin as [[=]|]; [done|by right].
  - intros q Hq. apply inv_next0. destruct Hq as [Hq|]; [left|by right].
    destruct (decide (p = q)) as [->|Hne].
    { rewrite lookup_delete_eq in Hq. by destruct Hq. }
    by rewrite lookup_delete_ne in Hq.
Qed.

Lemma inv_del_buffer p pc ps pb w :
  ~ buffer_owned w p -> inv pc ps (Some p :: pb) w -> inv pc ps pb (del_buffer p w).
Proof.
  intros Hno []. split; cbn; try done.
  - intros q Hq. rewrite lookup_delete_ne; [by apply inv_buffer0|]. intros ->. by destruct Hno.
  - intros q Hq. destruct (decide (p = q)) as [->|Hne].
    { rewrite lookup_delete_eq in Hq. by destruct Hq. }
    rewrite lookup_delete_ne in Hq by done.
    destruct (inv_no_leak_buffer0 q Hq) as [|Hin]; [by left|].
    apply elem_of_pending in Hin as [[=]|]; [done|by right].
  - intros q Hq. apply inv_next0. destruct Hq as [Hq|[Hq|Hq]]; auto.
    destruct (decide (p = q)) as [->|Hne].
    { rewrite lookup_delete_eq in Hq. by destruct Hq. }
    rewrite lookup_delete_ne in Hq; auto.
Qed.

(** A surface's own pointers become pending with it. *)
Lemma inv_del_surface p s pc ps pb w :
  surfaces (w_heap w) !! p = Some s -> ~ surface_owned w p ->
  inv pc (Some p :: ps) pb w ->
  inv (mDrawContext s :: mReadContext s :: pc) ps (mAttachedColorBuffer s :: pb)
    (del_surface p w).
Proof.
  intros Hs Hno []. split; cbn; try done.
  - intros q Hq. apply inv_context0. destruct Hq as [?|[?|Hq]]; [by left|by right; left|].
    right; right. exact (map_Exists_delete_inv _ _ p Hq).
  - intros q Hq. rewrite lookup_delete_ne; [by apply inv_surface0|]. intros ->. by destruct Hno.
  - intros q Hq. apply inv_buffer0. destruct Hq as [?|Hq]; [by left|].
    right. exact (map_Exists_delete_inv _ _ p Hq).
  - intros q Hq. rewrite !elem_of_pending.
    destruct (inv_no_leak_context0 q Hq) as [[?|[?|Ho]]|]; [by left; left|by left; right; left| |by auto].
    destruct (map_Exists_delete_old _ _ p Ho) as [?|(s' & Hs' & Hu)]; [by left; right; right|].
    rewrite Hs in Hs'. injection Hs' as <-. destruct Hu; auto.
  - intros q Hq. destruct (decide (p = q)) as [->|Hne].
    { rewrite lookup_delete_eq in Hq. by destruct Hq. }
    rewrite lookup_delete_ne in Hq by done.
    destruct (inv_no_leak_surface0 q Hq) as [|Hin]; [by left|].
    apply elem_of_pending in Hin as [[=]|]; [done|by right].
  - intros q Hq. rewrite elem_of_pending.
    destruct (inv_no_leak_buffer0 q Hq) as [[?|Ho]|]; [by left; left| |by auto].
    destruct (map_Exists_delete_old _ _ p Ho) as [?|(s' & Hs' & Hu)]; [by left; right|].
    rewrite Hs in Hs'. injection Hs' as <-. auto.
  - intros q Hq. apply inv_next0. destruct Hq as [|[Hq|]]; auto.
    destruct (decide (p = q)) as [->|Hne].
    { rewrite lookup_delete_eq in Hq. by destruct Hq. }
    rewrite lookup_delete_ne in Hq; auto.
Qed.
Lemma drop_context_inv c pc ps pb w :
  inv (c :: pc) ps pb w -> inv pc ps pb (drop_context c w).2.
Proof.
  intros Hi. destruct c as [p|]; cbn [drop_context].
  2: { by apply inv_settled_context in Hi. }
  case_decide as Ho.
  { apply inv_settled_context in Hi; [done|]. by intros q [= <-]. }
  destruct (contexts (w_heap w) !! p) as [c|] eqn:Hc.
  2: { apply inv_settled_context in Hi; [done|]. intros q [= <-] Hq. by destruct Hq; simplify_eq. }
  cbn [fst snd]. apply inv_del_context; destruct (mContext c =? EGL_NO_CONTEXT); try done.
  by apply (inv_frame _ _ _ w).
Qed.

Lemma drop_buffer_inv c pc ps pb w :
  inv pc ps (c :: pb) w -> inv pc ps pb (drop_buffer c w).2.
Proof.
  intros Hi. destruct c as [p|]; cbn [drop_buffer].
  2: { by apply inv_settled_buffer in Hi. }
  case_decide as Ho.
  { apply inv_settled_buffer in Hi; [done|]. by intros q [= <-]. }
  destruct (buffers (w_heap w) !! p) as [b|] eqn:Hb.
  2: { apply inv_settled_buffer in Hi; [done|]. intros q [= <-] Hq. by destruct Hq; simplify_eq. }
  rewrite bind_run. cbn [modify fst snd].
  pose proof (respects_delete (D := D) frame b w) as Hf.
  apply inv_del_buffer; [|by eapply inv_frame].
  destruct Hf as (Ht & Hh & _). unfold buffer_owned. by rewrite Ht, Hh.
Qed.

Lemma drop_surface_inv c pc ps pb w :
  inv pc (c :: ps) pb w -> inv pc ps pb (drop_surface c w).2.
Proof.
  intros Hi. destruct c as [p|]; cbn [drop_surface].
  2: { by apply inv_settled_surface in Hi. }
  case_decide as Ho.
  { apply inv_settled_surface in Hi; [done|]. by intros q [= <-]. }
  destruct (surfaces (w_heap w) !! p) as [s|] eqn:Hs.
  2: { apply inv_settled_surface in Hi; [done|]. intros q [= <-] Hq. by destruct Hq; simplify_eq. }
  rewrite !bind_run. cbn [modify fst snd].
  apply drop_buffer_inv, drop_context_inv, drop_context_inv.
  destruct (mSurface s =? 0); [by apply inv_del_surface|].
  apply inv_del_surface; [done..|]. by apply (inv_frame _ _ _ w).
Qed.
End settle.

(** ** Changes of who holds what *)

Lemma inv_change pc ps pb pc' ps' pb' w w' :
  next_ptr (w_heap w') = next_ptr (w_heap w) ->
  (forall p, is_Some (contexts (w_heap w') !! p) <-> is_Some (contexts (w_heap w) !! p)) ->
  (forall p, is_Some (surfaces (w_heap w') !! p) <-> is_Some (surfaces (w_heap w) !! p)) ->
  (forall p, is_Some (buffers (w_heap w') !! p) <-> is_Some (buffers (w_heap w) !! p)) ->
  (forall p, context_owned w' p -> context_owned w p \/ is_Some (contexts (w_heap w) !! p)) ->
  (forall p, surface_owned w' p -> surface_owned w p \/ is_Some (surfaces (w_heap w) !! p)) ->
  (forall p, buffer_owned w' p -> buffer_owned w p \/ is_Some (buffers (w_heap w) !! p)) ->
  (forall p, context_owned w p \/ Some p ∈ pc -> context_owned w' p \/ Some p ∈ pc') ->
  (forall p, surface_owned w p \/ Some p ∈ ps -> surface_owned w' p \/ Some p ∈ ps') ->
  (forall p, buffer_owned w p \/ Some p ∈ pb -> buffer_owned w' p \/ Some p ∈ pb') ->
  inv pc ps pb w -> inv pc' ps' pb' w'.
Proof.
  intros Hn Hc Hs Hb Gc Gs Gb Lc Ls Lb [].
  split; intros p Hp; rewrite ?Hn; rewrite ?Hc, ?Hs, ?Hb in *.
  - destruct (Gc p Hp); auto.
  - destruct (Gs p Hp); auto.
  - destruct (Gb p Hp); auto.
  - apply Lc. auto.
  - apply Ls. auto.
  - apply Lb. auto.
  - by apply inv_next0.
Qed.

(** The heap and two of the three relations are as before. *)
Lemma insert_context_inv h p pc ps pb w :
  m_contexts (w_tables w) !! h = None -> is_Some (contexts (w_heap w) !! p) ->
  inv (Some p :: pc) ps pb w ->
  inv pc ps pb (set_m_contexts (<[h := p]> (m_contexts (w_tables w))) w).
Proof.
  intros Hh Hp. apply inv_change; try done; try by left.
  - intros q [Hq|?]; [|by left; right].
    apply map_Exists_insert_inv in Hq as [<-|?]; [by right|by left; left].
  - intros q [[Ho|Ho]|Hin].
    + destruct (map_Exists_insert_old _ _ h p Ho) as [?|(y & Hy & _)]; [by left; left|].
      by rewrite Hh in Hy.
    + left. by right.
    + apply elem_of_pending in Hin as [[= ->]|]; [|by right].
      left. left. by apply map_Exists_insert_new.
Qed.

Lemma delete_context_inv h pc ps pb w :
  inv pc ps pb w ->
  inv ((m_contexts (w_tables w) !! h) :: pc) ps pb
    (set_m_contexts (delete h (m_contexts (w_tables w))) w).
Proof.
  apply inv_change; try done; try by left.
  - intros q [Hq|?]; [|by left; right].
    apply map_Exists_delete_inv in Hq. by left; left.
  - intros q [[Ho|Ho]|Hin]; rewrite elem_of_pending; [|left; by right|by auto].
    destruct (map_Exists_delete_old _ _ h Ho) as [?|(y & Hy & ->)]; [by left; left|by auto].
Qed.

Lemma insert_window_inv h p hcb pc ps pb w :
  m_windows (w_tables w) !! h = None -> is_Some (surfaces (w_heap w) !! p) ->
  inv pc (Some p :: ps) pb w ->
  inv pc ps pb (set_m_windows (<[h := (p, hcb)]> (m_windows (w_tables w))) w).
Proof.
  intros Hh Hp. apply inv_change; try done; try by left.
  - intros q [Hq|?]; [|by left; right].
    apply map_Exists_insert_inv in Hq as [<-|?]; [by right|by left; left].
  - intros q [[Ho|Ho]|Hin].
    + destruct (map_Exists_insert_old _ _ h (p, hcb) Ho) as [?|(y & Hy & _)]; [by left; left|].
      by rewrite Hh in Hy.
    + left. by right.
    + apply elem_of_pending in Hin as [[= ->]|]; [|by right].
      left. left. by apply map_Exists_insert_new.
Qed.

Lemma update_window_inv h p hcb hcb' pc ps pb w :
  m_windows (w_tables w) !! h = Some (p, hcb) ->
  inv pc ps pb w ->
  inv pc ps pb (set_m_windows (<[h := (p, hcb')]> (m_windows (w_tables w))) w).
Proof.
  intros Hh. apply inv_change; try done; try by left.
  - intros q [Hq|?]; [|by left; right].
    apply map_Exists_insert_inv in Hq as [<-|?]; [|by left; left].
    left. left. by exists h, (p, hcb).
  - intros q [[Ho|Ho]|Hin]; [|left; by right|by right].
    destruct (map_Exists_insert_old _ _ h (p, hcb') Ho) as [?|(y & Hy & <-)]; [by left; left|].
    rewrite Hh in Hy. injection Hy as <-. left. left. by apply map_Exists_insert_new.
Qed.

Lemma delete_window_inv h pc ps pb w :
  inv pc ps pb w ->
  inv pc ((fst <$> m_windows (w_tables w) !! h) :: ps) pb
    (set_m_windows (delete h (m_windows (w_tables w))) w).
Proof.
  apply inv_change; try done; try by left.
  - intros q [Hq|?]; [|by left; right].
    apply map_Exists_delete_inv in Hq. by left; left.
  - intros q [[Ho|Ho]|Hin]; rewrite elem_of_pending; [|left; by right|by auto].
    destruct (map_Exists_delete_old _ _ h Ho) as [?|(y & Hy & <-)]; [by left; left|].
    rewrite Hy. auto.
Qed.

Lemma insert_colorbuffer_inv h r pc ps pb w :
  is_Some (buffers (w_heap w) !! cb r) ->
  inv pc ps (Some (cb r) :: pb) w ->
  inv pc ps ((cb <$> m_colorbuffers (w_tables w) !! h) :: pb)
    (set_m_colorbuffers (<[h := r]> (m_colorbuffers (w_tables w))) w).
Proof.
  intros Hp. apply inv_change; try done; try by left.
  - intros q [Hq|?]; [|by left; right].
    apply map_Exists_insert_inv in Hq as [<-|?]; [by right|by left; left].
  - intros q [[Ho|Ho]|Hin]; rewrite elem_of_pending.
    + destruct (map_Exists_insert_old _ _ h r Ho) as [?|(y & Hy & <-)]; [by left; left|].
      rewrite Hy. auto.
    + left. by right.
    + apply elem_of_pending in Hin as [[= <-]|]; [|by auto].
      left. left. by apply map_Exists_insert_new.
Qed.

(** The same buffer, with another count. *)
Lemma recount_colorbuffer_inv h r n pc ps pb w :
  m_colorbuffers (w_tables w) !! h = Some r ->
  inv pc ps pb w ->
  inv pc ps pb
    (set_m_colorbuffers (<[h := mkRef (cb r) n]> (m_colorbuffers (w_tables w))) w).
Proof.
  intros Hr. apply inv_change; try done; try by left.
  - intros q [Hq|?]; [|by left; right].
    apply map_Exists_insert_inv in Hq as [<-|?]; [|by left; left].
    left. left. by exists h, r.
  - intros q [[Ho|Ho]|Hin]; [|left; by right|by right].
    destruct (map_Exists_insert_old _ _ h (mkRef (cb r) n) Ho) as [?|(y & Hy & <-)];
      [by left; left|].
    rewrite Hr in Hy. injection Hy as <-. left. left. by apply map_Exists_insert_new.
Qed.

Lemma delete_colorbuffer_inv h pc ps pb w :
  inv pc ps pb w ->
  inv pc ps ((cb <$> m_colorbuffers (w_tables w) !! h) :: pb)
    (set_m_colorbuffers (delete h (m_colorbuffers (w_tables w))) w).
Proof.
  apply inv_change; try done; try by left.
  - intros q [Hq|?]; [|by left; right].
    apply map_Exists_delete_inv in Hq. by left; left.
  - intros q [[Ho|Ho]|Hin]; rewrite elem_of_pending; [|left; by right|by auto].
    destruct (map_Exists_delete_old _ _ h Ho) as [?|(y & Hy & <-)]; [by left; left|].
    rewrite Hy. auto.
Qed.

(** *** The calling thread *)

Lemma same_thread_contexts i w q :
  currContext i = currContext (w_self w) ->
  context_owned (with_self i w) q <-> context_owned w q.
Proof.
  intros Hc. unfold context_owned, threads. rewrite !Exists_cons.
  unfold info_uses_context. cbn. by rewrite Hc.
Qed.

Lemma same_thread_surfaces i w q :
  currDrawSurf i = currDrawSurf (w_self w) -> currReadSurf i = currReadSurf (w_self w) ->
  surface_owned (with_self i w) q <-> surface_owned w q.
Proof.
  intros Hd Hr. unfold surface_owned, threads. rewrite !Exists_cons.
  unfold info_uses_surface. cbn. by rewrite Hd, Hr.
Qed.

Lemma same_thread_inv i pc ps pb w :
  currContext i = currContext (w_self w) ->
  currDrawSurf i = currDrawSurf (w_self w) -> currReadSurf i = currReadSurf (w_self w) ->
  inv pc ps pb w -> inv pc ps pb (with_self i w).
Proof.
  intros Hc Hd Hr. apply inv_change; try done; intros q;
    rewrite ?same_thread_contexts, ?same_thread_surfaces by done; auto.
Qed.

Lemma set_currContext_inv c pc ps pb w :
  (forall p, c = Some p -> is_Some (contexts (w_heap w) !! p)) ->
  inv pc ps pb w ->
  inv (currContext (w_self w) :: pc) ps pb (with_self (set_currContext c (w_self w)) w).
Proof.
  intros Hc. apply inv_change; try done; try (by left);
    try (intros q; rewrite same_thread_surfaces by done; auto; done).
  - intros q [?|[Hq|?]]; [by left; left| |by left; right; right].
    apply Exists_cons in Hq as [Hq|Hq]; [right; by apply Hc|].
    left. right. left. by apply Exists_cons; right.
  - intros q [[?|[Ho|?]]|Hin]; rewrite elem_of_pending;
      [by left; left| |by left; right; right|by auto].
    apply Exists_cons in Ho as [Ho|Ho]; [by auto|].
    left. right. left. by apply Exists_cons; right.
Qed.

Lemma set_currDrawSurf_inv c pc ps pb w :
  (forall p, c = Some p -> is_Some (surfaces (w_heap w) !! p)) ->
  inv pc ps pb w ->
  inv pc (currDrawSurf (w_self w) :: ps) pb (with_self (set_currDrawSurf c (w_self w)) w).
Proof.
  intros Hc. apply inv_change; try done; try (by left);
    try (intros q; rewrite same_thread_contexts by done; auto; done).
  - intros q [?|Hq]; [by left; left|].
    apply Exists_cons in Hq as [[Hq|Hq]|Hq]; [right; by apply Hc| |];
      left; right; apply Exists_cons; [left; by right|by right].
  - intros q [[?|Ho]|Hin]; rewrite elem_of_pending; [by left; left| |by auto].
    apply Exists_cons in Ho as [[Ho|Ho]|Ho]; [by auto| |];
      left; right; apply Exists_cons; [left; by right|by right].
Qed.

Lemma set_currReadSurf_inv c pc ps pb w :
  (forall p, c = Some p -> is_Some (surfaces (w_heap w) !! p)) ->
  inv pc ps pb w ->
  inv pc (currReadSurf (w_self w) :: ps) pb (with_self (set_currReadSurf c (w_self w)) w).
Proof.
  intros Hc. apply inv_change; try done; try (by left);
    try (intros q; rewrite same_thread_contexts by done; auto; done).
  - intros q [?|Hq]; [by left; left|].
    apply Exists_cons in Hq as [[Hq|Hq]|Hq]; [|right; by apply Hc|];
      left; right; apply Exists_cons; [left; by left|by right].
  - intros q [[?|Ho]|Hin]; rewrite elem_of_pending; [by left; left| |by auto].
    apply Exists_cons in Ho as [[Ho|Ho]|Ho]; [|by auto|];
      left; right; apply Exists_cons; [left; by left|by right].
Qed.

(** *** Objects *)

Lemma insert_is_Some {A} (m : gmap Z A) k x p :
  is_Some (m !! k) -> is_Some (<[k := x]> m !! p) <-> is_Some (m !! p).
Proof.
  intros Hk. destruct (decide (k = p)) as [->|Hne].
  - rewrite lookup_insert_eq. split; [done|by eauto].
  - by rewrite lookup_insert_ne.
Qed.

Lemma put_buffer_inv p b pc ps pb w :
  is_Some (buffers (w_heap w) !! p) -> inv pc ps pb w -> inv pc ps pb (put_buffer p b w).
Proof. intros Hp. apply inv_change; try done; try by left. intros q. by apply insert_is_Some. Qed.

Lemma put_surface_inv p s s' pc ps pb w :
  surfaces (w_heap w) !! p = Some s ->
  (forall q, mReadContext s' = Some q -> is_Some (contexts (w_heap w) !! q)) ->
  (forall q, mDrawContext s' = Some q -> is_Some (contexts (w_heap w) !! q)) ->
  (forall q, mAttachedColorBuffer s' = Some q -> is_Some (buffers (w_heap w) !! q)) ->
  inv pc ps pb w ->
  inv (mDrawContext s :: mReadContext s :: pc) ps (mAttachedColorBuffer s :: pb)
    (put_surface p s' w).
Proof.
  intros Hs Hr Hd Ha. apply inv_change; try done; try by left.
  - intros q. by apply insert_is_Some.
  - intros q [?|[?|Hq]]; [by left; left|by left; right; left|].
    apply map_Exists_insert_inv in Hq as [[?|?]|?]; [by auto..|by left; right; right].
  - intros q [?|Hq]; [by left; left|].
    apply map_Exists_insert_inv in Hq as [?|?]; [by auto|by left; right].
  - intros q [[?|[?|Ho]]|Hin]; rewrite !elem_of_pending;
      [by left; left|by left; right; left| |by auto].
    destruct (map_Exists_insert_old _ _ p s' Ho) as [?|(y & Hy & Hu)]; [by left; right; right|].
    rewrite Hs in Hy. injection Hy as <-. destruct Hu; auto.
  - intros q [[?|Ho]|Hin]; rewrite elem_of_pending; [by left; left| |by auto].
    destruct (map_Exists_insert_old _ _ p s' Ho) as [?|(y & Hy & Hu)]; [by left; right|].
    rewrite Hs in Hy. injection Hy as <-. auto.
Qed.

(** What the new value still holds is not pending. *)
Lemma put_surface_owns p s' w :
  (forall q, mReadContext s' = Some q -> context_owned (put_surface p s' w) q) /\
  (forall q, mDrawContext s' = Some q -> context_owned (put_surface p s' w) q) /\
  (forall q, mAttachedColorBuffer s' = Some q -> buffer_owned (put_surface p s' w) q).
Proof.
  split_and!; intros q Hq.
  - right; right. apply map_Exists_insert_new. by left.
  - right; right. apply map_Exists_insert_new. by right.
  - right. by apply map_Exists_insert_new.
Qed.

Lemma new_context_inv c pc ps pb w :
  inv pc ps pb w ->
  inv (Some (next_ptr (w_heap w)) :: pc) ps pb
    (put_context (next_ptr (w_heap w)) c (alloc w).2).
Proof.
  intros []. set (p := next_ptr (w_heap w)).
  assert (Hp : contexts (w_heap w) !! p = None).
  { apply eq_None_not_Some. intros Hs. specialize (inv_next0 p (or_introl Hs)). lia. }
  split; cbn; try done.
  - intros q Hq. destruct (decide (p = q)) as [->|]; [by rewrite lookup_insert_eq|].
    rewrite lookup_insert_ne by done. by apply inv_context0.
  - intros q Hq. rewrite elem_of_pending. destruct (decide (p = q)) as [->|]; [by auto|].
    rewrite lookup_insert_ne in Hq by done. destruct (inv_no_leak_context0 q Hq); auto.
  - intros q Hq. destruct (decide (p = q)) as [<-|]; [lia|].
    rewrite lookup_insert_ne in Hq by done. specialize (inv_next0 q Hq). lia.
Qed.

Lemma new_buffer_inv b pc ps pb w :
  inv pc ps pb w ->
  inv pc ps (Some (next_ptr (w_heap w)) :: pb)
    (put_buffer (next_ptr (w_heap w)) b (alloc w).2).
Proof.
  intros []. set (p := next_ptr (w_heap w)).
  split; cbn; try done.
  - intros q Hq. destruct (decide (p = q)) as [->|]; [by rewrite lookup_insert_eq|].
    rewrite lookup_insert_ne by done. by apply inv_buffer0.
  - intros q Hq. rewrite elem_of_pending. destruct (decide (p = q)) as [->|]; [by auto|].
    rewrite lookup_insert_ne in Hq by done. destruct (inv_no_leak_buffer0 q Hq); auto.
  - intros q Hq. destruct (decide (p = q)) as [<-|]; [lia|].
    rewrite lookup_insert_ne in Hq by done. specialize (inv_next0 q Hq). lia.
Qed.

Lemma new_surface_inv s pc ps pb w :
  mReadContext s = None -> mDrawContext s = None -> mAttachedColorBuffer s = None ->
  inv pc ps pb w ->
  inv pc (Some (next_ptr (w_heap w)) :: ps) pb
    (put_surface (next_ptr (w_heap w)) s (alloc w).2).
Proof.
  intros Hr Hd Ha []. set (p := next_ptr (w_heap w)).
  assert (Hp : surfaces (w_heap w) !! p = None).
  { apply eq_None_not_Some. intros Hs.
    specialize (inv_next0 p (or_intror (or_introl Hs))). lia. }
  split; cbn; try done.
  - intros q [?|[?|Hq]]; apply inv_context0; [by left|by right; left|right; right].
    apply map_Exists_insert_inv in Hq as [[?|?]|?]; [congruence..|done].
  - intros q Hq. destruct (decide (p = q)) as [->|]; [by rewrite lookup_insert_eq|].
    rewrite lookup_insert_ne by done. by apply inv_surface0.
  - intros q [?|Hq]; apply inv_buffer0; [by left|right].
    apply map_Exists_insert_inv in Hq as [?|?]; [congruence|done].
  - intros q Hq. destruct (inv_no_leak_context0 q Hq) as [[?|[?|Ho]]|?];
      [by left; left|by left; right; left| |by right].
    left. right. right.
    destruct (map_Exists_insert_old _ _ p s Ho) as [?|(y & Hy & _)]; [done|].
    by rewrite Hp in Hy.
  - intros q Hq. rewrite elem_of_pending. destruct (decide (p = q)) as [->|]; [by auto|].
    rewrite lookup_insert_ne in Hq by done. destruct (inv_no_leak_surface0 q Hq); auto.
  - intros q Hq. destruct (inv_no_leak_buffer0 q Hq) as [[?|Ho]|?];
      [by left; left| |by right].
    left. right.
    destruct (map_Exists_insert_old _ _ p s Ho) as [?|(y & Hy & _)]; [done|].
    by rewrite Hp in Hy.
  - intros q Hq. destruct (decide (p = q)) as [<-|]; [lia|].
    rewrite lookup_insert_ne in Hq by done. specialize (inv_next0 q Hq). lia.
Qed.
End inv.
