(* ===== verification/Steps.v ===== *)
(** * Executions of the render threads

    Every operation of [Renderer] takes a state in which nothing dangles and
    nothing is leaked to such a state, so every execution of any number of render
    threads does: [step] is one operation of the calling thread, a switch to
    another thread, or a thread's start or end. *)

From S2P Require Import Prelude Gl RendererConfig TextureDraw TextureResize ColorBuffer RenderState Renderer Handles Ownership.

(** ** Tables and threads are not touched by destruction *)

Section drops.
Context {D : Type} `{!Driver D}.
Implicit Types w : World D.

Definition same_tables w w' : Prop :=
  w_tables w' = w_tables w /\ w_self w' = w_self w /\ w_others w' = w_others w /\
  w_display w' = w_display w.

#[export] Instance same_tables_preorder : PreOrder same_tables.
Proof.
  split; [done|]. unfold same_tables. intros x y z (?&?&?&?) (?&?&?&?).
  split_and!; congruence.
Qed.

Lemma frame_same_tables {A} (m : M (World D) A) : respects frame m -> respects same_tables m.
Proof. intros Hm w. destruct (Hm w) as (?&?&?&?&?). by split_and!. Qed.

Lemma drop_context_tables c : respects same_tables (drop_context c).
Proof.
  destruct c as [p|]; [|apply respects_ret, _]. intros w. cbn.
  case_decide; [done|]. destruct (contexts _ !! p) as [c|]; [|done]. by case_match.
Qed.

Lemma drop_buffer_tables c : respects same_tables (drop_buffer c).
Proof.
  destruct c as [p|]; [|apply respects_ret, _]. intros w. cbn [drop_buffer].
  case_decide; [done|]. destruct (buffers _ !! p) as [b|]; [|done].
  apply respects_bind; [apply _|apply frame_same_tables, respects_delete, _|]. by intros _ w'.
Qed.

Lemma drop_surface_tables c : respects same_tables (drop_surface c).
Proof.
  destruct c as [p|]; [|apply respects_ret, _]. intros w. cbn [drop_surface].
  case_decide; [done|]. destruct (surfaces _ !! p) as [s|]; [|done].
  set (w1 := if _ : bool then w else _).
  assert (Hw : same_tables w w1) by (unfold w1; by case_match).
  etransitivity; [exact Hw|]. rewrite !bind_run.
  etransitivity; [|apply drop_buffer_tables].
  etransitivity; [|apply drop_context_tables].
  etransitivity; [|apply drop_context_tables]. done.
Qed.

(** Destroying a context or a buffer leaves the surfaces alone; destroying a
    buffer leaves the contexts alone. *)
Lemma drop_context_surfaces c w :
  surfaces (w_heap (drop_context c w).2) = surfaces (w_heap w) /\
  buffers (w_heap (drop_context c w).2) = buffers (w_heap w).
Proof.
  destruct c as [p|]; [|done]. cbn. case_decide; [done|].
  destruct (contexts _ !! p) as [c|]; [|done]. by case_match.
Qed.

Lemma drop_buffer_surfaces c w :
  surfaces (w_heap (drop_buffer c w).2) = surfaces (w_heap w) /\
  contexts (w_heap (drop_buffer c w).2) = contexts (w_heap w).
Proof.
  destruct c as [p|]; [|done]. cbn [drop_buffer]. case_decide; [done|].
  destruct (buffers _ !! p) as [b|]; [|done]. rewrite bind_run.
  cbn [modify fst snd del_buffer with_heap w_heap surfaces contexts].
  by destruct (respects_delete (D := D) frame b w) as (_ & -> & _).
Qed.
End drops.

#[export] Hint Resolve drop_context_tables drop_buffer_tables drop_surface_tables : respects.

(** ** Every operation preserves ownership *)

Section operations.
Context {D : Type} `{!Driver D}.
Implicit Types w : World D.

(** [m] keeps the state owned. *)
Definition safe {A} (m : M (World D) A) : Prop := forall w, owned w -> owned (m w).2.

Lemma safe_bind {A B} (m : M (World D) A) (f : A -> M (World D) B) :
  safe m -> (forall a, safe (f a)) -> safe (m ≫= f).
Proof. intros Hm Hf w Hw. rewrite bind_run. by apply Hf, Hm. Qed.

Lemma safe_ret {A} (a : A) : safe (mret a).
Proof. by intros w. Qed.

Lemma safe_gets {A} (f : World D -> A) : safe (gets f).
Proof. by intros w. Qed.

Lemma safe_when b m : safe m -> safe (when b m).
Proof. destruct b; [done|]. intros _. apply safe_ret. Qed.

Lemma safe_mseq ms : Forall safe ms -> safe (mseq ms).
Proof. induction 1; cbn; [apply safe_ret|by apply safe_bind]. Qed.

Lemma safe_frame {A} (m : M (World D) A) : respects frame m -> safe m.
Proof. intros Hm w Hw. by apply (inv_frame _ _ _ w). Qed.

Lemma safe_upd_self f :
  (forall i, currContext (f i) = currContext i /\ currDrawSurf (f i) = currDrawSurf i /\
             currReadSurf (f i) = currReadSurf i) -> safe (upd_self f).
Proof. intros Hf w Hw. cbn. by apply same_thread_inv; [apply Hf..|]. Qed.

Lemma safe_erase_context h : safe (erase_context h).
Proof.
  intros w Hw. unfold erase_context. rewrite !bind_run. cbn [gets modify fst snd].
  by apply drop_context_inv, delete_context_inv.
Qed.

Lemma safe_erase_window h : safe (erase_window h).
Proof.
  intros w Hw. unfold erase_window. rewrite !bind_run. cbn [gets modify fst snd].
  by apply drop_surface_inv, delete_window_inv.
Qed.

Lemma safe_erase_colorbuffer h : safe (erase_colorbuffer h).
Proof.
  intros w Hw. unfold erase_colorbuffer. rewrite !bind_run. cbn [gets modify fst snd].
  by apply drop_buffer_inv, delete_colorbuffer_inv.
Qed.

Lemma safe_unref_colorbuffer h : safe (unref_colorbuffer h).
Proof.
  intros w Hw. unfold unref_colorbuffer. rewrite bind_run. cbn [gets fst snd].
  destruct (m_colorbuffers (w_tables w) !! h) as [r|] eqn:Hr; [|done].
  rewrite bind_run. cbn [modify fst snd].
  apply safe_when; [apply safe_erase_colorbuffer|]. by apply recount_colorbuffer_inv.
Qed.

Lemma safe_genHandle : safe genHandle.
Proof. intros w Hw. unfold genHandle. destruct (gen_loop _ _ _); [|done]. by destruct Hw. Qed.

Lemma safe_openColorBuffer h : safe (openColorBuffer h).
Proof.
  intros w Hw. unfold openColorBuffer. rewrite bind_run. cbn [gets fst snd].
  destruct (m_colorbuffers (w_tables w) !! h) as [r|] eqn:Hr; [|done].
  rewrite bind_run. cbn. by apply recount_colorbuffer_inv.
Qed.

Lemma safe_drainRenderContext : safe drainRenderContext.
Proof.
  apply safe_bind; [apply safe_gets|]. intros tinfo. case_decide; [apply safe_ret|].
  apply safe_bind; [|intros _; by apply safe_upd_self].
  apply safe_mseq, Forall_fmap, Forall_true. intros h. apply safe_erase_context.
Qed.

Lemma safe_drainWindowSurface : safe drainWindowSurface.
Proof.
  apply safe_bind; [apply safe_gets|]. intros tinfo. case_decide; [apply safe_ret|].
  apply safe_bind; [|intros _; by apply safe_upd_self].
  apply safe_mseq, Forall_fmap, Forall_true. intros h. apply safe_bind; [apply safe_gets|].
  intros [[p hcb]|]; [|apply safe_ret].
  apply safe_bind; [apply safe_when, safe_unref_colorbuffer|]. intros _. apply safe_erase_window.
Qed.

Lemma safe_DestroyRenderContext h : safe (DestroyRenderContext h).
Proof.
  apply safe_bind; [apply safe_erase_context|]. intros _.
  apply safe_bind; [apply safe_gets|]. intros tinfo. case_decide; [apply safe_ret|].
  by apply safe_upd_self.
Qed.

Lemma safe_DestroyWindowSurface h : safe (DestroyWindowSurface h).
Proof.
  apply safe_bind; [apply safe_gets|]. intros [x|]; [|apply safe_ret].
  apply safe_bind; [apply safe_erase_window|]. intros _.
  apply safe_bind; [apply safe_gets|]. intros tinfo. case_decide; [apply safe_ret|].
  by apply safe_upd_self.
Qed.

(** *** Creating *)

Lemma genHandle_inv pc ps pb w : inv pc ps pb w -> inv pc ps pb (genHandle w).2.
Proof. intros Hw. unfold genHandle. destruct (gen_loop _ _ _); [|done]. by destruct Hw. Qed.

Lemma genHandle_spec h w :
  (genHandle w).1 = Some h ->
  m_contexts (w_tables (genHandle w).2) !! h = None /\
  m_windows (w_tables (genHandle w).2) !! h = None /\
  w_heap (genHandle w).2 = w_heap w.
Proof.
  unfold genHandle. destruct (gen_loop _ _ _) as [id|] eqn:E; [|done]. intros [= ->].
  apply gen_loop_some in E as [_ E]. unfold taken in E.
  rewrite !not_elem_of_union, !not_elem_of_dom in E. tauto.
Qed.

(** The operation returns, and then the state is owned. *)
Definition safe_if_returns {A} (m : M (World D) (option A)) : Prop :=
  forall w, owned w -> is_Some (m w).1 -> owned (m w).2.

Lemma safe_createColorBuffer p_width p_height p_internalFormat :
  safe_if_returns (createColorBuffer p_width p_height p_internalFormat).
Proof.
  intros w Hw. unfold createColorBuffer. rewrite 2!bind_run. cbn [gets fst snd].
  set (b := ColorBuffer_create _ _ _ _).
  assert (Hw1 : owned (b w).2) by (by apply safe_frame, Hw; apply respects_create, _).
  revert Hw1. generalize (b w).2. intros w1 Hw1. clear Hw.
  destruct (b w).1 as [cb0|]; [|done]. clear b w.
  rewrite 3!bind_run. cbn [modify fst snd]. change (alloc w1).1 with (next_ptr (w_heap w1)).
  apply (new_buffer_inv cb0), genHandle_inv in Hw1. revert Hw1.
  set (w2 := put_buffer _ cb0 _). intros Hw2.
  destruct (genHandle w2).1 as [h|] eqn:Hh; [|by intros [? [=]]]. intros _.
  rewrite bind_run. unfold put_colorbuffer. rewrite !bind_run. cbn [gets modify fst snd].
  apply drop_buffer_inv, insert_colorbuffer_inv; [|done].
  apply genHandle_spec in Hh as (_ & _ & ->). cbn. by rewrite lookup_insert_eq.
Qed.

Lemma safe_createRenderContext p_config p_share p_isGL2 :
  safe_if_returns (createRenderContext p_config p_share p_isGL2).
Proof.
  intros w Hw. unfold createRenderContext. rewrite 2!bind_run. cbn [gets fst snd].
  destruct (config_get _ _) as [config|]; [|done].
  destruct (shared_context p_share w) as [share|]; [|done].
  rewrite bind_run. unfold RenderContext_create.
  destruct (eglCreateContext _ _ _ _) as [ctx d].
  assert (Hw1 : owned (with_drv d w)) by (by apply (inv_frame _ _ _ w)).
  revert Hw1. generalize (with_drv d w). intros w1 Hw1. clear Hw.
  destruct (ctx =? EGL_NO_CONTEXT); [done|]. rewrite !bind_run. cbn [modify fst snd mret M_ret].
  change (alloc w1).1 with (next_ptr (w_heap w1)).
  apply (new_context_inv (mkRC ctx p_isGL2)), genHandle_inv in Hw1. revert Hw1.
  set (w2 := put_context _ _ _). intros Hw2. rewrite bind_run.
  destruct (genHandle w2).1 as [h|] eqn:Hh; [|by intros [? [=]]]. intros _.
  apply genHandle_spec in Hh as (Hn & _ & Hheap).
  rewrite !bind_run. cbn [modify fst snd]. apply safe_upd_self; [done|].
  apply insert_context_inv; [done| |done].
  rewrite Hheap. cbn. by rewrite lookup_insert_eq.
Qed.

(** Resizing keeps what the surface refers to. *)
Definition same_pointers (s s' : WindowSurface) : Prop :=
  mReadContext s' = mReadContext s /\ mDrawContext s' = mDrawContext s /\
  mAttachedColorBuffer s' = mAttachedColorBuffer s.

Lemma resize_pointers s p_width p_height w : same_pointers s (resize s p_width p_height w).1.2.
Proof.
  unfold resize. destruct (_ && _ && _); [done|].
  repeat (rewrite bind_run; cbv beta). case_match; [done|]. by rewrite bind_run.
Qed.

Lemma safe_createWindowSurface p_config p_width p_height :
  safe_if_returns (createWindowSurface p_config p_width p_height).
Proof.
  intros w Hw. unfold createWindowSurface. rewrite bind_run. cbn [gets fst snd].
  destruct (config_get _ _) as [config|]; [|done].
  unfold WindowSurface_create. rewrite 2!bind_run.
  set (r := resize _ _ _).
  assert (Hw1 : owned (r w).2) by (apply safe_frame, Hw; apply frame_resize).
  assert (Hs : same_pointers (mkWS 0 None None None 0 0 (mEglConfig config)) (r w).1.2)
    by apply resize_pointers.
  revert Hw1 Hs. generalize (r w).1.2 (r w).2. intros s w1 Hw1 (Hr & Hd & Ha). clear Hw.
  destruct (r w).1.1; [|done]. clear r w.
  rewrite !bind_run. cbn [modify fst snd mret M_ret].
  change (alloc w1).1 with (next_ptr (w_heap w1)).
  apply (new_surface_inv s), genHandle_inv in Hw1; [|done..]. revert Hw1.
  set (w2 := put_surface _ _ _). intros Hw2. rewrite bind_run.
  destruct (genHandle w2).1 as [h|] eqn:Hh; [|by intros [? [=]]]. intros _.
  apply genHandle_spec in Hh as (_ & Hn & Hheap).
  rewrite !bind_run. cbn [modify fst snd]. apply safe_upd_self; [done|].
  apply insert_window_inv; [done| |done].
  rewrite Hheap. cbn. by rewrite lookup_insert_eq.
Qed.

(** *** Color buffers *)

Lemma find_buffer_some h p b w :
  find_buffer h w = Some (p, b) -> buffers (w_heap w) !! p = Some b.
Proof.
  unfold find_buffer. destruct (m_colorbuffers _ !! h) as [r|]; [|done]. cbn.
  destruct (buffers _ !! cb r) eqn:E; [|done]. cbn. by intros [= <- <-].
Qed.

Lemma find_window_some h p s w :
  find_window h w = Some (p, s) ->
  surfaces (w_heap w) !! p = Some s /\ exists hcb, m_windows (w_tables w) !! h = Some (p, hcb).
Proof.
  unfold find_window. destruct (m_windows _ !! h) as [[p' hcb]|]; [|done]. cbn.
  destruct (surfaces _ !! p') eqn:E; [|done]. cbn. intros [= <- <-]. eauto.
Qed.

(** Drawing into a live buffer, then storing it. *)
Lemma safe_put_buffer {A} (m : M (World D) (A * ColorBuffer)) p w :
  respects frame m -> is_Some (buffers (w_heap w) !! p) -> owned w ->
  owned (put_buffer p (m w).1.2 (m w).2).
Proof.
  intros Hm Hp Hw. destruct (Hm w) as (_ & Hh & _).
  apply put_buffer_inv; [by rewrite Hh|]. by apply safe_frame.
Qed.

Lemma safe_readColorBuffer h x y width height format type :
  safe (readColorBuffer h x y width height format type).
Proof.
  intros w Hw. unfold readColorBuffer. rewrite bind_run. cbn [gets fst snd].
  destruct (find_buffer h w) as [[p b]|] eqn:Hb; [|done]. apply find_buffer_some in Hb.
  rewrite !bind_run. cbn [modify fst snd].
  apply safe_put_buffer; [apply respects_readPixels, _|by rewrite Hb|done].
Qed.

Lemma safe_updateColorBuffer h x y width height format type pixels :
  safe (updateColorBuffer h x y width height format type pixels).
Proof.
  apply safe_bind; [apply safe_gets|]. intros [[p b]|]; [|apply safe_ret].
  apply safe_bind; [apply safe_frame, respects_subUpdate, _|]. intros _. apply safe_ret.
Qed.

Lemma safe_bindColorBufferToTexture h : safe (bindColorBufferToTexture h).
Proof.
  do 2 (apply safe_bind; [apply safe_gets|intros ?]). case_match; [|apply safe_ret].
  case_match. apply safe_frame, respects_bindToTexture, _.
Qed.

Lemma safe_bindColorBufferToRenderbuffer h : safe (bindColorBufferToRenderbuffer h).
Proof.
  do 2 (apply safe_bind; [apply safe_gets|intros ?]). case_match; [|apply safe_ret].
  case_match. apply safe_frame, respects_bindToRenderbuffer, _.
Qed.

(** *** Windows *)

Lemma safe_flushColorBuffer s : safe (flushColorBuffer s).
Proof.
  intros w Hw. unfold flushColorBuffer. destruct (mAttachedColorBuffer s) as [p|]; [|done].
  destruct (_ || _); [done|]. rewrite bind_run. cbn [gets fst snd id].
  destruct (buffers (w_heap w) !! p) as [b|] eqn:Hb; [|done].
  destruct (_ || _); [done|]. destruct (_ ≫= _) as [ctx|]; [|done].
  unfold flush_attached. rewrite 2!bind_run. cbn [current_binding gets fst snd].
  set (mc := egl_make_current _ _ _).
  assert (Hf : frame w (mc w).2) by apply frame_make_current.
  assert (Hw1 : owned (mc w).2) by by apply (inv_frame _ _ _ w).
  destruct (mc w).1; [|done]. rewrite !bind_run. cbn [gets modify fst snd mret M_ret].
  apply safe_frame; [apply frame_make_current|].
  apply safe_put_buffer; [apply respects_blit, _| |done].
  destruct Hf as (_ & -> & _). by rewrite Hb.
Qed.

Lemma safe_flushWindowSurfaceColorBuffer h : safe (flushWindowSurfaceColorBuffer h).
Proof.
  apply safe_bind; [apply safe_gets|]. intros [[p s]|]; [|apply safe_ret].
  apply safe_bind; [apply safe_flushColorBuffer|]. intros _. apply safe_ret.
Qed.

(** A surface is stored with the pointers it had, or with other live ones. *)
Lemma pending_nil (q : ptr) l l' : Forall (fun x => x = None) l -> Some q ∈ l -> Some q ∈ (l' : list (option ptr)).
Proof. intros Hl Hq. by eapply Forall_forall in Hl; [|exact Hq]. Qed.

Lemma put_surface_settled p s s' w :
  surfaces (w_heap w) !! p = Some s ->
  (forall q, mReadContext s' = Some q -> is_Some (contexts (w_heap w) !! q)) ->
  (forall q, mDrawContext s' = Some q -> is_Some (contexts (w_heap w) !! q)) ->
  (forall q, mAttachedColorBuffer s' = Some q -> is_Some (buffers (w_heap w) !! q)) ->
  owned w ->
  inv ((if decide (mDrawContext s' = mDrawContext s) then None else mDrawContext s) ::
       (if decide (mReadContext s' = mReadContext s) then None else mReadContext s) :: []) []
    ((if decide (mAttachedColorBuffer s' = mAttachedColorBuffer s) then None
      else mAttachedColorBuffer s) :: []) (put_surface p s' w).
Proof.
  intros Hs Hr Hd Ha Hw. pose proof (put_surface_inv p s s' [] [] [] w Hs Hr Hd Ha Hw) as Hi.
  destruct (put_surface_owns p s' w) as (Or & Od & Oa).
  destruct Hi as [I1 I2 I3 L1 L2 L3 N]. split; try done.
  - intros q Hq. destruct (L1 q Hq) as [|Hin]; [by left|].
    rewrite !elem_of_pending in Hin. rewrite !elem_of_pending.
    destruct Hin as [Hin|[Hin|Hin]]; [| |by apply not_elem_of_nil in Hin].
    + destruct (decide (mDrawContext s' = _)) as [Hc|]; [|by auto].
      left. apply Od. congruence.
    + destruct (decide (mReadContext s' = _)) as [Hc|]; [|by auto].
      left. apply Or. congruence.
  - intros q Hq. destruct (L3 q Hq) as [|Hin]; [by left|].
    rewrite !elem_of_pending in Hin. rewrite !elem_of_pending.
    destruct Hin as [Hin|Hin]; [|by apply not_elem_of_nil in Hin].
    case_decide as Hc; auto. left. apply Oa. congruence.
Qed.

Lemma live_context w p s q :
  owned w -> surfaces (w_heap w) !! p = Some s ->
  mReadContext s = Some q \/ mDrawContext s = Some q -> is_Some (contexts (w_heap w) !! q).
Proof. intros Hw Hs Hq. apply (inv_context _ _ _ _ Hw). right; right. by exists p, s. Qed.

Lemma live_attached w p s q :
  owned w -> surfaces (w_heap w) !! p = Some s ->
  mAttachedColorBuffer s = Some q -> is_Some (buffers (w_heap w) !! q).
Proof. intros Hw Hs Hq. apply (inv_buffer _ _ _ _ Hw). right. by exists p, s. Qed.

Lemma drop_none pc pb w : inv (None :: pc) [] pb w -> inv pc [] pb w.
Proof. by apply inv_settled_context. Qed.

Lemma setColorBuffer_safe this s p b w :
  surfaces (w_heap w) !! this = Some s -> buffers (w_heap w) !! p = Some b -> owned w ->
  owned (setColorBuffer this s p b w).2 /\ same_tables w (setColorBuffer this s p b w).2.
Proof.
  intros Hs Hp Hw. unfold setColorBuffer. rewrite 2!bind_run. cbn [modify fst snd].
  set (s' := set_attached (Some p) s). set (w1 := put_surface this s' w).
  set (w2 := (drop_buffer (mAttachedColorBuffer s) w1).2).
  assert (H1 : inv [] [] [mAttachedColorBuffer s] w1).
  { pose proof (put_surface_settled this s s' w Hs) as Hi.
    rewrite !(decide_True (P := mReadContext s' = _)), !(decide_True (P := mDrawContext s' = _))
      in Hi by done.
    apply (inv_weaken _ _ _ [] [] [mAttachedColorBuffer s]) in Hi; [exact Hi| | | |..].
    - intros q. apply pending_nil. by repeat constructor.
    - done.
    - intros q. rewrite !elem_of_pending. intros [Hq|?]; [|by right]. left.
      by destruct (decide _).
    - intros q Hq. eapply live_context; eauto.
    - intros q Hq. eapply live_context; eauto.
    - intros q [= <-]. by rewrite Hp.
    - done. }
  assert (H2 : owned w2) by by apply drop_buffer_inv.
  assert (T2 : same_tables w w2).
  { etransitivity; [|apply drop_buffer_tables]. done. }
  assert (Hs2 : surfaces (w_heap w2) !! this = Some s').
  { unfold w2. destruct (drop_buffer_surfaces (mAttachedColorBuffer s) w1) as [-> _].
    apply lookup_insert_eq. }
  clearbody w2. clear Hw H1 w1. destruct (_ || _); [|done]. cbn [when]. rewrite bind_run.
  cbn [modify fst snd]. set (r := resize s' _ _ w2).
  pose proof (resize_pointers s' (m_width b) (m_height b) w2) as (Er & Ed & Ea).
  pose proof (frame_resize s' (m_width b) (m_height b) w2) as Hf. fold r in Er, Ed, Ea, Hf.
  assert (H3 : owned r.2) by by apply (inv_frame _ _ _ w2).
  assert (Hs3 : surfaces (w_heap r.2) !! this = Some s') by by destruct Hf as (_ & -> & _).
  split.
  - pose proof (put_surface_settled this s' r.1.2 r.2 Hs3) as Hi.
    rewrite Er, Ed, Ea, !decide_True in Hi by done.
    eapply (inv_weaken _ _ _ [] [] []) in Hi; [exact Hi|..]; try done.
    + intros q. apply pending_nil. by repeat constructor.
    + intros q. apply pending_nil. by repeat constructor.
    + intros q Hq. eapply live_context; eauto.
    + intros q Hq. eapply live_context; eauto.
    + intros q Hq. eapply live_attached; eauto.
  - etransitivity; [exact T2|]. destruct Hf as (?&?&?&?&?). by split_and!.
Qed.

Lemma safe_setWindowSurfaceColorBuffer h hcb : safe (setWindowSurfaceColorBuffer h hcb).
Proof.
  intros w Hw. unfold setWindowSurfaceColorBuffer. rewrite 2!bind_run. cbn [gets fst snd].
  destruct (find_window h w) as [[pw s]|] eqn:Hwin; [|done].
  destruct (find_buffer hcb w) as [[pb b]|] eqn:Hbuf; [|done].
  apply find_window_some in Hwin as (Hs & old & Hh). apply find_buffer_some in Hbuf.
  rewrite 2!bind_run. cbn [modify fst snd mret M_ret].
  destruct (setColorBuffer_safe pw s pb b w) as [Ho Ht]; [done..|].
  destruct Ht as (Htab & _). eapply update_window_inv; [by rewrite Htab|done].
Qed.

(** *** Making a context current *)

(** The pointer is null or one of a table, so that no drop destroys its object. *)
Definition tabled_context (c : option ptr) w : Prop :=
  forall p, c = Some p -> exists h, m_contexts (w_tables w) !! h = Some p.
Definition tabled_surface (c : option ptr) w : Prop :=
  forall p, c = Some p -> exists h hcb, m_windows (w_tables w) !! h = Some (p, hcb).

Lemma tabled_context_same c w w' : same_tables w w' -> tabled_context c w -> tabled_context c w'.
Proof. intros (Ht & _). unfold tabled_context. by rewrite Ht. Qed.
Lemma tabled_surface_same c w w' : same_tables w w' -> tabled_surface c w -> tabled_surface c w'.
Proof. intros (Ht & _). unfold tabled_surface. by rewrite Ht. Qed.

Lemma tabled_context_live c pc ps pb w p :
  inv pc ps pb w -> tabled_context c w -> c = Some p -> is_Some (contexts (w_heap w) !! p).
Proof.
  intros Hi Ht ->. destruct (Ht p eq_refl) as [h Hh].
  apply (inv_context _ _ _ _ Hi). left. by exists h, p.
Qed.
Lemma tabled_surface_live c pc ps pb w p :
  inv pc ps pb w -> tabled_surface c w -> c = Some p -> is_Some (surfaces (w_heap w) !! p).
Proof.
  intros Hi Ht ->. destruct (Ht p eq_refl) as (h & hcb & Hh).
  apply (inv_surface _ _ _ _ Hi). left. by exists h, (p, hcb).
Qed.

Lemma resolve_tabled c d r w ctx draw read :
  resolve c d r w = Some (ctx, draw, read) ->
  tabled_context ctx w /\ tabled_surface draw w /\ tabled_surface read w /\
  (is_Some draw <-> is_Some read).
Proof.
  unfold resolve. destruct (_ && _ && _).
  { intros [= <- <- <-]. by split_and!. }
  destruct (m_contexts _ !! c) as [pc|] eqn:Hc; [|done]. cbn.
  destruct (m_windows _ !! d) as [[pd hd]|] eqn:Hd; [|done]. cbn.
  destruct (negb _).
  - destruct (m_windows _ !! r) as [[pr hr]|] eqn:Hr; [|done]. cbn. intros [= <- <- <-].
    split_and!; [intros p [= <-]; eauto..|done].
  - cbn. intros [= <- <- <-]. split_and!; [intros p [= <-]; eauto..|done].
Qed.

(** Storing a surface whose read or draw context changes, and settling the old
    one. *)
Lemma rebind_surface_safe p s s' old w :
  surfaces (w_heap w) !! p = Some s ->
  mAttachedColorBuffer s' = mAttachedColorBuffer s ->
  (forall q, mReadContext s' = Some q -> is_Some (contexts (w_heap w) !! q)) ->
  (forall q, mDrawContext s' = Some q -> is_Some (contexts (w_heap w) !! q)) ->
  (mReadContext s' = mReadContext s \/ mReadContext s = old) ->
  (mDrawContext s' = mDrawContext s \/ mDrawContext s = old) ->
  owned w ->
  let w' := (drop_context old (put_surface p s' w)).2 in
  owned w' /\ same_tables w w' /\ surfaces (w_heap w') !! p = Some s'.
Proof.
  intros Hs Ha Hr Hd Or Od Hw w'.
  pose proof (put_surface_settled p s s' w Hs Hr Hd) as Hi.
  assert (H1 : inv [old] [] [] (put_surface p s' w)).
  { eapply (inv_weaken _ _ _ [old] [] []) in Hi; [exact Hi|..]; try done.
    - intros q. rewrite !elem_of_pending. intros [Hq|[Hq|?]]; [| |by right]; left;
        case_decide; done || (destruct Or, Od; congruence).
    - intros q. apply pending_nil. rewrite decide_True by done. by repeat constructor.
    - intros q Hq. eapply live_attached; [done..|congruence]. }
  split_and!.
  - by apply drop_context_inv.
  - etransitivity; [|apply drop_context_tables]. done.
  - unfold w'. destruct (drop_context_surfaces old (put_surface p s' w)) as [-> _].
    apply lookup_insert_eq.
Qed.

Lemma ws_bind_safe this ctx t w :
  tabled_context ctx w -> owned w ->
  owned (ws_bind this ctx t w).2 /\ same_tables w (ws_bind this ctx t w).2.
Proof.
  intros Hc Hw. unfold ws_bind. destruct (surfaces (w_heap w) !! this) as [s|] eqn:Hs; [|done].
  assert (Hlive : forall q, ctx = Some q -> is_Some (contexts (w_heap w) !! q))
    by (intros q Hq; by eapply tabled_context_live).
  assert (Hold : forall q, mReadContext s = Some q \/ mDrawContext s = Some q ->
    is_Some (contexts (w_heap w) !! q)) by (intros q Hq; by eapply live_context).
  destruct t; rewrite !bind_run; cbn [modify fst snd].
  - destruct (rebind_surface_safe this s (set_read_context ctx s) (mReadContext s) w)
      as (?&?&?); cbn; auto.
  - destruct (rebind_surface_safe this s (set_draw_context ctx s) (mDrawContext s) w)
      as (?&?&?); cbn; auto.
  - destruct (rebind_surface_safe this s (set_read_context ctx s) (mReadContext s) w)
      as (H1 & T1 & S1); cbn; auto.
    set (w1 := (drop_context _ _).2) in *. clearbody w1.
    destruct (rebind_surface_safe this (set_read_context ctx s)
                (set_draw_context ctx (set_read_context ctx s)) (mDrawContext s) w1)
      as (H2 & T2 & S2); cbn; auto.
    + intros q Hq. eapply tabled_context_live; [exact H1| |exact Hq].
      by eapply tabled_context_same.
    + intros q Hq. eapply tabled_context_live; [exact H1| |exact Hq].
      by eapply tabled_context_same.
    + split; [done|]. by etransitivity.
Qed.

Lemma bind_surfaces_safe ctx d r w :
  tabled_context ctx w -> owned w ->
  owned (bind_surfaces ctx d r w).2 /\ same_tables w (bind_surfaces ctx d r w).2.
Proof.
  intros Hc Hw. unfold bind_surfaces. destruct d as [d|], r as [r|]; [|done..].
  destruct (negb _); [|by apply ws_bind_safe].
  rewrite bind_run. destruct (ws_bind_safe d ctx BIND_DRAW w) as [H1 T1]; [done..|].
  destruct (ws_bind_safe r ctx BIND_READ (ws_bind d ctx BIND_DRAW w).2) as [H2 T2]; [|done|].
  { by eapply tabled_context_same. }
  split; [done|]. by etransitivity.
Qed.

Lemma set_decoder_inv ctx pc ps pb w : inv pc ps pb w -> inv pc ps pb (set_decoder ctx w).2.
Proof.
  intros Hw. unfold set_decoder. destruct ctx as [p|].
  - rewrite bind_run. cbn [gets fst snd]. case_match; by apply same_thread_inv.
  - rewrite bind_run. cbn. apply same_thread_inv; [done..|]. by apply same_thread_inv.
Qed.

(** A thread pointer is overwritten and its object dropped at once. *)
Lemma replace_context_safe c w :
  tabled_context c w -> owned w ->
  let w' := (drop_context (currContext (w_self w)) (upd_self (set_currContext c) w).2).2 in
  owned w' /\ w_tables w' = w_tables w /\
  currDrawSurf (w_self w') = currDrawSurf (w_self w) /\
  currReadSurf (w_self w') = currReadSurf (w_self w).
Proof.
  intros Hc Hw. cbv zeta. destruct (drop_context_tables (currContext (w_self w))
    (upd_self (set_currContext c) w).2) as (T & S & _).
  split; [|by rewrite T, S]. apply drop_context_inv, set_currContext_inv; [|done].
  intros p. by apply (tabled_context_live c [] [] [] w).
Qed.

Lemma replace_surfaces_safe draw read w :
  tabled_surface draw w -> tabled_surface read w -> owned w ->
  let m := (upd_self (set_currDrawSurf draw) ;; drop_surface (currDrawSurf (w_self w)) ;;
            upd_self (set_currReadSurf read) ;; drop_surface (currReadSurf (w_self w))) in
  owned (m w).2.
Proof.
  intros Hd Hr Hw m. unfold m. rewrite !bind_run.
  set (w1 := (upd_self (set_currDrawSurf draw) w).2).
  destruct (drop_surface_tables (currDrawSurf (w_self w)) w1) as (T & S & _).
  assert (H1 : owned (drop_surface (currDrawSurf (w_self w)) w1).2).
  { apply drop_surface_inv, set_currDrawSurf_inv; [|done].
    intros p. by apply (tabled_surface_live draw [] [] [] w). }
  apply drop_surface_inv.
  replace (currReadSurf (w_self w)) with
    (currReadSurf (w_self (drop_surface (currDrawSurf (w_self w)) w1).2)) by by rewrite S.
  apply set_currReadSurf_inv; [|done].
  intros p. apply (tabled_surface_live read [] [] [] _ _ H1).
  unfold tabled_surface. by rewrite T.
Qed.

Lemma release_surfaces_safe w ctx :
  owned w ->
  let m := (upd_self (set_currDrawSurf None) ;; upd_self (set_currReadSurf None) ;;
            set_decoder ctx ;; drop_surface (currReadSurf (w_self w)) ;;
            drop_surface (currDrawSurf (w_self w))) in
  owned (m w).2.
Proof.
  intros Hw m. unfold m. rewrite !bind_run.
  apply drop_surface_inv, drop_surface_inv, set_decoder_inv.
  apply (set_currReadSurf_inv None _ _ _ (upd_self (set_currDrawSurf None) w).2); [done|].
  by apply set_currDrawSurf_inv.
Qed.

Lemma safe_bindContext c d r : safe (bindContext c d r).
Proof.
  intros w0 Hw0. unfold bindContext. rewrite bind_run. cbn [gets fst snd id].
  destruct (resolve c d r w0) as [[[ctx draw] read]|] eqn:Hres; [|done].
  apply resolve_tabled in Hres as (Hc & Hd & Hr & Hiff).
  rewrite bind_run. set (mc := egl_make_current _ _ _).
  assert (Hf : frame w0 (mc w0).2) by apply frame_make_current.
  assert (Hw : owned (mc w0).2) by by apply (inv_frame _ _ _ w0).
  assert (Ht : w_tables (mc w0).2 = w_tables w0) by apply Hf.
  revert Hw Ht. generalize (mc w0).2. intros w Hw Ht.
  destruct (mc w0).1; [|done]. clear Hf Hw0 mc. cbn [negb].
  assert (Hc' : tabled_context ctx w) by by unfold tabled_context; rewrite Ht.
  assert (Hd' : tabled_surface draw w) by by unfold tabled_surface; rewrite Ht.
  assert (Hr' : tabled_surface read w) by by unfold tabled_surface; rewrite Ht.
  clear Hc Hd Hr Ht w0. rewrite 2!bind_run. cbn [gets fst snd].
  set (unbind := negb _ && negb _).
  set (bs := (if unbind : bool then _ else _ : M (World D) unit)).
  assert (Hbs : owned (bs w).2 /\ same_tables w (bs w).2)
    by (unfold bs; destruct unbind; by apply bind_surfaces_safe).
  revert Hbs. generalize (bs w).2. intros w1 [H1 (T1 & S1 & _)]. clear bs.
  rewrite <- !S1. rewrite 2!bind_run.
  destruct (replace_context_safe ctx w1) as (H2 & T2 & D2 & R2);
    [by unfold tabled_context; rewrite T1|done|].
  revert H2 T2 D2 R2. set (w2 := (drop_context _ _).2). clearbody w2. intros H2 T2 D2 R2.
  rewrite <- D2, <- R2.
  assert (Hd2 : tabled_surface draw w2) by by unfold tabled_surface; rewrite T2, T1.
  assert (Hr2 : tabled_surface read w2) by by unfold tabled_surface; rewrite T2, T1.
  destruct unbind eqn:Hu; cbn [when negb].
  - assert (draw = None /\ read = None) as [-> ->].
    { unfold unbind in Hu. repeat case_bool_decide; try done.
      split; by apply eq_None_not_Some. }
    pose proof (release_surfaces_safe w2 ctx H2) as H3. cbv zeta in H3.
    rewrite !bind_run in H3. rewrite !bind_run. exact H3.
  - pose proof (replace_surfaces_safe draw read w2 Hd2 Hr2 H2) as H3. cbv zeta in H3.
    rewrite !bind_run in H3. rewrite !bind_run. by apply set_decoder_inv.
Qed.

(** *** Client images *)

Lemma safe_createClientImage context target buffer :
  safe (createClientImage context target buffer).
Proof.
  intros w Hw. unfold createClientImage. case_match; [|done].
  destruct (eglCreateImageKHR _ _ _ _). by apply (inv_frame _ _ _ w).
Qed.

Lemma safe_destroyClientImage image : safe (destroyClientImage image).
Proof.
  intros w Hw. unfold destroyClientImage. destruct (eglDestroyImageKHR _ _).
  by apply (inv_frame _ _ _ w).
Qed.

Lemma safe_finalize : safe finalize.
Proof.
  apply safe_bind; [apply safe_gets|]. intros w.
  apply safe_bind.
  { apply safe_mseq, Forall_fmap, Forall_true. intros h. apply safe_erase_colorbuffer. }
  intros _. apply safe_bind.
  { apply safe_mseq, Forall_fmap, Forall_true. intros h. apply safe_erase_window. }
  intros _. apply safe_bind.
  { apply safe_mseq, Forall_fmap, Forall_true. intros h. apply safe_erase_context. }
  intros _. apply safe_frame. respects_tac; intros w'; done || apply frame_make_current.
Qed.
End operations.

(** ** Executions *)

Inductive Call :=
| CreateColorBuffer (p_width p_height p_internalFormat : Z)
| CreateRenderContext (p_config p_share : Z) (p_isGL2 : bool)
| CreateWindowSurface (p_config p_width p_height : Z)
| DrainRenderContext
| DrainWindowSurface
| DestroyContext (p_context : Z)
| DestroySurface (p_surface : Z)
| OpenColorBuffer (h : Z)
| CloseColorBuffer (h : Z)
| FlushWindowSurfaceColorBuffer (h : Z)
| SetWindowSurfaceColorBuffer (h hcb : Z)
| ReadColorBuffer (h x y width height format type : Z)
| UpdateColorBuffer (h x y width height format type : Z) (pixels : list Z)
| BindColorBufferToTexture (h : Z)
| BindColorBufferToRenderbuffer (h : Z)
| BindContext (p_context p_drawSurface p_readSurface : Z)
| CreateClientImage (context target buffer : Z)
| DestroyClientImage (image : Z)
| Finalize.

Section steps.
Context {D : Type} `{!Driver D}.
Implicit Types w : World D.

Definition returned {A} (r : option A * World D) : option (World D) :=
  match r.1 with Some _ => Some r.2 | None => None end.

(** The state after a call, [None] when it does not return. *)
Definition exec (c : Call) w : option (World D) :=
  match c with
  | CreateColorBuffer pw ph f => returned (createColorBuffer pw ph f w)
  | CreateRenderContext cfg share gl2 => returned (createRenderContext cfg share gl2 w)
  | CreateWindowSurface cfg pw ph => returned (createWindowSurface cfg pw ph w)
  | DrainRenderContext => Some (drainRenderContext w).2
  | DrainWindowSurface => Some (drainWindowSurface w).2
  | DestroyContext h => Some (DestroyRenderContext h w).2
  | DestroySurface h => Some (DestroyWindowSurface h w).2
  | OpenColorBuffer h => Some (openColorBuffer h w).2
  | CloseColorBuffer h => Some (closeColorBuffer h w).2
  | FlushWindowSurfaceColorBuffer h => Some (flushWindowSurfaceColorBuffer h w).2
  | SetWindowSurfaceColorBuffer h hcb => Some (setWindowSurfaceColorBuffer h hcb w).2
  | ReadColorBuffer h x y pw ph f t => Some (readColorBuffer h x y pw ph f t w).2
  | UpdateColorBuffer h x y pw ph f t px => Some (updateColorBuffer h x y pw ph f t px w).2
  | BindColorBufferToTexture h => Some (bindColorBufferToTexture h w).2
  | BindColorBufferToRenderbuffer h => Some (bindColorBufferToRenderbuffer h w).2
  | BindContext c d r => Some (bindContext c d r w).2
  | CreateClientImage c t b => Some (createClientImage c t b w).2
  | DestroyClientImage i => Some (destroyClientImage i w).2
  | Finalize => Some (finalize w).2
  end.

(** The end of a thread: its [RenderThreadInfo] is destroyed, members in reverse. *)
Definition thread_exit : M (World D) unit :=
  tinfo ← gets w_self;
  modify (with_self info_new) ;;
  drop_surface (currReadSurf tinfo) ;;
  drop_surface (currDrawSurf tinfo) ;;
  drop_context (currContext tinfo).

(** One step: a call; the guest's own GL commands, which change the driver only;
    a switch to another thread, for which other things are current; a new thread;
    the end of the calling one, after which a thread with nothing current takes
    its place. *)
Inductive step : World D -> World D -> Prop :=
| step_call c w w' : exec c w = Some w' -> step w w'
| step_guest_gl d w : step w (with_drv d w)
| step_switch d w i l1 l2 :
    w_others w = l1 ++ i :: l2 ->
    step w (mkWorld d (w_display w) (w_saved w) (w_tables w) (w_heap w) i
              (l1 ++ w_self w :: l2))
| step_start w :
    step w (mkWorld (w_drv w) (w_display w) (w_saved w) (w_tables w) (w_heap w) (w_self w)
              (info_new :: w_others w))
| step_exit w : step w (thread_exit w).2.

Definition world_init (d : D) (dpy : Display) : World D :=
  mkWorld d dpy (mkSaved 0 0 0) (mkTables 0 ∅ ∅ ∅) (mkHeap ∅ ∅ ∅ 1) info_new [].

Fixpoint exec_all (cs : list Call) w : option (World D) :=
  match cs with [] => Some w | c :: cs => exec c w ≫= exec_all cs end.

Lemma exec_all_steps cs : forall w w', exec_all cs w = Some w' -> rtc step w w'.
Proof.
  induction cs as [|c cs IH]; intros w w'; cbn; [by intros [= <-]|].
  destruct (exec c w) as [w1|] eqn:E; [|done]. cbn. intros H.
  eapply rtc_l; [by eapply step_call|by apply IH].
Qed.

Lemma exec_owned c w w' : exec c w = Some w' -> owned w -> owned w'.
Proof.
  assert (Hr : forall A (m : M (World D) (option A)),
    safe_if_returns m -> returned (m w) = Some w' -> owned w -> owned w').
  { intros A m Hm Heq Hw. unfold returned in Heq. specialize (Hm w Hw).
    destruct (m w) as [[x|] w1]; [|done]. injection Heq as <-. eauto. }
  assert (Hs : forall A (m : M (World D) A),
    safe m -> Some (m w).2 = Some w' -> owned w -> owned w') by (intros A m Hm [= <-]; apply Hm).
  destruct c; cbn [exec]; (apply Hr || apply Hs).
  - apply safe_createColorBuffer.
  - apply safe_createRenderContext.
  - apply safe_createWindowSurface.
  - apply safe_drainRenderContext.
  - apply safe_drainWindowSurface.
  - apply safe_DestroyRenderContext.
  - apply safe_DestroyWindowSurface.
  - apply safe_openColorBuffer.
  - apply safe_unref_colorbuffer.
  - apply safe_flushWindowSurfaceColorBuffer.
  - apply safe_setWindowSurfaceColorBuffer.
  - apply safe_readColorBuffer.
  - apply safe_updateColorBuffer.
  - apply safe_bindColorBufferToTexture.
  - apply safe_bindColorBufferToRenderbuffer.
  - apply safe_bindContext.
  - apply safe_createClientImage.
  - apply safe_destroyClientImage.
  - apply safe_finalize.
Qed.

(** Another calling thread, among the same threads. *)
Lemma switch_owned (d : D) dpy s t h i j l l' w :
  w = mkWorld d dpy s t h i l -> (i :: l) ≡ₚ (j :: l') ->
  owned w -> forall d' : D, owned (mkWorld d' dpy s t h j l').
Proof.
  intros -> Hperm Hw d'. revert Hw. unfold owned.
  assert (He : forall P, Exists P (i :: l) <-> Exists P (j :: l')) by (intros P; by rewrite Hperm).
  apply inv_change; try done; unfold context_owned, surface_owned, threads; cbn [w_self w_others];
    intros p; rewrite ?He; auto.
Qed.

Lemma thread_exit_owned w : owned w -> owned (thread_exit w).2.
Proof.
  intros Hw. unfold thread_exit. rewrite !bind_run. cbn [gets modify fst snd].
  apply drop_context_inv, drop_surface_inv, drop_surface_inv.
  set (i := w_self w).
  assert (H : inv [currContext i] [currDrawSurf i; currReadSurf i] []
    (upd_self (set_currDrawSurf None) (upd_self (set_currReadSurf None)
      (upd_self (set_currContext None) w).2).2).2).
  { apply (set_currDrawSurf_inv None _ [currReadSurf i]
             _ (upd_self (set_currReadSurf None) (upd_self (set_currContext None) w).2).2); [done|].
    apply (set_currReadSurf_inv None _ [] _ (upd_self (set_currContext None) w).2); [done|].
    by apply set_currContext_inv. }
  eapply (same_thread_inv info_new) in H; [|done..].
  eapply inv_weaken; [..|exact H]; try done.
  intros p. rewrite !elem_of_pending. tauto.
Qed.

Lemma step_owned w w' : step w w' -> owned w -> owned w'.
Proof.
  intros [c w1 w2 He|d w1|d w1 i l1 l2 Ho|w1|w1] Hw.
  - by eapply exec_owned.
  - by apply (inv_frame _ _ _ w1).
  - destruct w1 as [d0 dpy s t h j l]. cbn in *. eapply switch_owned; [done| |exact Hw].
    rewrite Ho. solve_Permutation.
  - revert Hw. apply inv_change; try done; unfold context_owned, surface_owned, threads;
      cbn [w_self w_others]; intros p; rewrite ?Exists_cons;
      unfold info_uses_context, info_uses_surface; cbn; intuition congruence.
  - by apply thread_exit_owned.
Qed.

Lemma init_owned d dpy : owned (world_init d dpy).
Proof.
  assert (He : forall A (P : Z -> A -> Prop), ~ map_Exists P (∅ : gmap Z A))
    by (intros A P (i & x & Hi & _); by rewrite lookup_empty in Hi).
  split; cbn; intros p; try (rewrite lookup_empty; by intros [? [=]]).
  - intros [Hx|[Hx|Hx]]; [by apply He in Hx| |by apply He in Hx].
    apply Exists_cons in Hx as [Hx|Hx]; [done|by inversion Hx].
  - intros [Hx|Hx]; [by apply He in Hx|].
    apply Exists_cons in Hx as [[Hx|Hx]|Hx]; [done..|by inversion Hx].
  - intros [Hx|Hx]; by apply He in Hx.
  - rewrite !lookup_empty. intros [[? [=]]|[[? [=]]|[? [=]]]].
Qed.

End steps.

(** ** Examples *)

Definition demo_display : Display :=
  mkDisplay [mkConfig 10 []] true 1 4 1 0 2 (mkTD 1 2 3 0 1 0 4 5).

Definition demo_calls : list Call :=
  [CreateColorBuffer 4 4 GL_RGBA; CreateRenderContext 0 0 true; CreateWindowSurface 0 4 4;
   BindContext 2 3 3; SetWindowSurfaceColorBuffer 3 1; FlushWindowSurfaceColorBuffer 3;
   DestroySurface 3; DestroyContext 2; CloseColorBuffer 1].

Definition demo : World Toy :=
  default (world_init toy_init demo_display)
    (exec_all demo_calls (world_init toy_init demo_display)).


(** The decoders' context data is a raw pointer: after a GLES 1 and then a
    GLES 2 context are made current and the first is destroyed, the GLES 1 decoder
    of the thread still points into the destroyed context. *)
Theorem decoder_data_dangles :
  exists (w : World Toy) p,
    rtc step (world_init toy_init demo_display) w /\
    m_glDec (w_self w) = Some p /\ contexts (w_heap w) !! p = None.
Proof.
  set (calls := [CreateRenderContext 0 0 false; CreateRenderContext 0 0 true;
                 CreateWindowSurface 0 4 4; BindContext 1 3 3; BindContext 2 3 3;
                 DestroyContext 1]).
  exists (default (world_init toy_init demo_display)
            (exec_all calls (world_init toy_init demo_display))), 1.
  split; [|by vm_compute]. apply (exec_all_steps calls). by vm_compute.
Qed.

(** A window takes no reference to the color buffer it is given, yet draining
    a thread's windows drops one: the buffer goes although the guest, which never
    closed it, still holds its only reference. *)
Theorem drain_drops_guest_reference :
  exists w1 w2 : World Toy,
    rtc step (world_init toy_init demo_display) w1 /\
    (refcount <$> m_colorbuffers (w_tables w1) !! 1) = Some 1 /\
    exec DrainWindowSurface w1 = Some w2 /\ m_colorbuffers (w_tables w2) !! 1 = None.
Proof.
  set (calls := [CreateColorBuffer 4 4 GL_RGBA; CreateWindowSurface 0 4 4;
                 SetWindowSurfaceColorBuffer 2 1]).
  set (w1 := default (world_init toy_init demo_display)
               (exec_all calls (world_init toy_init demo_display))).
  exists w1, (drainWindowSurface w1).2.
  split; [apply (exec_all_steps calls); by vm_compute|]. by split_and!; [vm_compute..].
Qed.
