(* ===== verification/Binding.v ===== *)
(** * The guest's binding and the sizes of windows

    Two invariants of [Renderer]'s operations.  The renderer works in a context
    of its own, on the thread of the guest: [guest_binding_preserved] shows that
    every operation but the ones that are asked to change it leaves the thread's
    context and surfaces as they were.  A window is resized to the color buffer it
    is given: [window_fits_buffer] shows that the sizes agree whenever the window
    has a pbuffer at all. *)

From S2P Require Import Prelude Gl RendererConfig TextureDraw TextureResize ColorBuffer RenderState Renderer Ownership Steps.

(** ** [bind_locked] and [unbind_locked] satisfy [HelperLaws] *)

(** The thread's binding is, in the end, what it was. *)
Abbreviation binding := restored.

Section helper.
Context {D : Type} `{!Driver D} `{!DriverLaws D} `{!Reliable D}.
Implicit Types w : World D.

Definition saved_binding w : Z * Z * Z :=
  (m_prevDrawSurf (w_saved w), m_prevReadSurf (w_saved w), m_prevContext (w_saved w)).

Lemma make_current_cur draw read ctx w :
  cur (egl_make_current draw read ctx w).2 = (draw, read, ctx) /\
  (egl_make_current draw read ctx w).1 = true /\
  w_saved (egl_make_current draw read ctx w).2 = w_saved w.
Proof.
  unfold egl_make_current, cur. pose proof (make_current_succeeds draw read ctx (w_drv w)) as H1.
  pose proof (make_current_ok draw read ctx (w_drv w) H1) as H2.
  destruct (eglMakeCurrent _ _ _ _) as [ok d]. by split_and!.
Qed.

Lemma bind_locked_run w :
  bind_locked w =
  (true, with_saved (mkSaved (eglGetCurrentDrawSurface (w_drv w))
                      (eglGetCurrentReadSurface (w_drv w)) (eglGetCurrentContext (w_drv w)))
           (egl_make_current (m_pbufSurface (w_display w)) (m_pbufSurface (w_display w))
              (m_pbufContext (w_display w)) w).2).
Proof.
  unfold bind_locked, current_binding. rewrite 3!bind_run. cbn [gets fst snd].
  destruct (make_current_cur (m_pbufSurface (w_display w)) (m_pbufSurface (w_display w))
    (m_pbufContext (w_display w)) w) as (_ & -> & _). by rewrite bind_run.
Qed.

#[export] Instance world_helper_laws : HelperLaws (World D) D.
Proof.
  refine {| saved := saved_binding |}.
  - done.
  - intros w _. cbn [setupContext world_helper]. by rewrite bind_locked_run.
  - intros w. cbn [setupContext world_helper]. by rewrite bind_locked_run.
  - intros w. cbn [teardownContext world_helper]. rewrite bind_run.
    unfold unbind_locked. rewrite 2!bind_run. cbn [gets fst snd mret M_ret].
    destruct (make_current_cur (m_prevDrawSurf (w_saved w)) (m_prevReadSurf (w_saved w))
      (m_prevContext (w_saved w)) w) as (Hc & -> & _). rewrite bind_run. exact Hc.
Qed.

(** ** Operations that leave the binding alone *)

Lemma binding_modify (f : World D -> World D) :
  (forall w, current (w_drv (f w)) = current (w_drv w)) -> respects binding (modify f).
Proof. intros Hf w. apply Hf. Qed.

Lemma binding_gets {A} (f : World D -> A) : respects binding (gets f).
Proof. done. Qed.

Lemma binding_drop_context c : respects binding (drop_context c).
Proof.
  destruct c as [p|]; [|done]. intros w. cbn. case_decide; [done|].
  destruct (contexts _ !! p); [|done]. case_match; [done|]. apply destroy_context_current.
Qed.

Lemma binding_drop_buffer c : respects binding (drop_buffer c).
Proof.
  destruct c as [p|]; [|done]. intros w. cbn [drop_buffer]. case_decide; [done|].
  destruct (buffers _ !! p) as [b|]; [|done]. rewrite bind_run.
  cbn [modify snd]. exact (restored_delete b w).
Qed.

Lemma binding_drop_surface c : respects binding (drop_surface c).
Proof.
  destruct c as [p|]; [|done]. intros w. cbn [drop_surface]. case_decide; [done|].
  destruct (surfaces _ !! p) as [s|]; [|done].
  set (w1 := if _ : bool then w else _).
  assert (Hw : binding w w1).
  { unfold w1. case_match; [done|]. apply destroy_surface_current. }
  etransitivity; [exact Hw|]. rewrite !bind_run.
  etransitivity; [|apply binding_drop_buffer].
  etransitivity; [|apply binding_drop_context].
  etransitivity; [|apply binding_drop_context]. done.
Qed.
End helper.

#[export] Hint Resolve binding_drop_context binding_drop_buffer binding_drop_surface : respects.
#[export] Hint Extern 1 (respects restored _) =>
  first [ apply restored_create | apply restored_delete | apply restored_readPixels
        | apply restored_subUpdate | apply restored_blit ] : respects.
#[export] Hint Extern 1 (respects restored (modify _)) =>
  apply binding_modify; intros; reflexivity : respects.

Section guest.
Context {D : Type} `{!Driver D} `{!DriverLaws D} `{!Reliable D}.
Implicit Types w : World D.

Lemma binding_upd_self (f : RenderThreadInfo -> RenderThreadInfo) :
  respects binding (upd_self f : M (World D) unit).
Proof. by apply binding_modify. Qed.

Lemma binding_genHandle : respects binding (genHandle (D := D)).
Proof. intros w. unfold genHandle. by destruct (gen_loop _ _ _). Qed.

Lemma binding_alloc : respects binding (alloc (D := D)).
Proof. done. Qed.

Lemma binding_erase_context h : respects binding (erase_context (D := D) h).
Proof. unfold erase_context. respects_tac. Qed.

Lemma binding_erase_window h : respects binding (erase_window (D := D) h).
Proof. unfold erase_window. respects_tac. Qed.

Lemma binding_erase_colorbuffer h : respects binding (erase_colorbuffer (D := D) h).
Proof. unfold erase_colorbuffer. respects_tac. Qed.
#[local] Hint Resolve binding_upd_self binding_genHandle binding_alloc binding_erase_context
  binding_erase_window binding_erase_colorbuffer : respects.

Lemma binding_unref h : respects binding (unref_colorbuffer (D := D) h).
Proof. unfold unref_colorbuffer. respects_tac. Qed.
#[local] Hint Resolve binding_unref : respects.

Lemma binding_drain_window h : respects binding (drain_window (D := D) h).
Proof. unfold drain_window. respects_tac. Qed.
#[local] Hint Resolve binding_drain_window : respects.

Lemma binding_put_colorbuffer h r : respects binding (put_colorbuffer (D := D) h r).
Proof. unfold put_colorbuffer. respects_tac. Qed.
#[local] Hint Resolve binding_put_colorbuffer : respects.

Lemma binding_createColorBuffer pw ph f : respects binding (createColorBuffer (D := D) pw ph f).
Proof. unfold createColorBuffer. respects_tac. Qed.

Lemma binding_create_context config share gl2 :
  respects binding (RenderContext_create (D := D) config share gl2).
Proof.
  intros w. unfold RenderContext_create.
  pose proof (create_context_current config share (if gl2 then 2 else 1) (w_drv w)) as H.
  destruct (eglCreateContext _ _ _ _) as [c d].
  assert (Hw : binding w (with_drv d w)) by exact H.
  etransitivity; [exact Hw|]. by destruct (c =? EGL_NO_CONTEXT).
Qed.
#[local] Hint Resolve binding_create_context : respects.

Lemma binding_createRenderContext config share gl2 :
  respects binding (createRenderContext (D := D) config share gl2).
Proof. unfold createRenderContext. respects_tac. Qed.

(** A new window has no pbuffer, so nothing is rebound. *)
Lemma binding_create_surface config pw ph :
  respects binding (WindowSurface_create (D := D) config pw ph).
Proof.
  intros w. unfold WindowSurface_create, resize. cbn [mSurface Z.eqb negb andb orb when].
  rewrite !bind_run. cbn [gets fst snd mret M_ret current_binding].
  pose proof (create_surface_current config (i32 (u32 pw)) (i32 (u32 ph)) (w_drv w)) as H.
  cbn [mConfig]. destruct (eglCreatePbufferSurface _ _ _ _) as [x d]. cbn [fst snd].
  assert (Hw : binding w (with_drv d w)) by exact H.
  etransitivity; [exact Hw|]. by destruct (x =? EGL_NO_SURFACE).
Qed.
#[local] Hint Resolve binding_create_surface : respects.

Lemma binding_createWindowSurface config pw ph :
  respects binding (createWindowSurface (D := D) config pw ph).
Proof. unfold createWindowSurface. respects_tac. Qed.

(** The surface is made current for the copy, and the old binding put back. *)
Lemma binding_flushColorBuffer s : respects binding (flushColorBuffer (D := D) s).
Proof.
  unfold flushColorBuffer. destruct (mAttachedColorBuffer s) as [p|]; [|done].
  destruct (_ || _); [done|]. intros w. rewrite bind_run. cbn [gets fst snd id].
  destruct (buffers _ !! p) as [b|]; [|done]. destruct (_ || _); [done|].
  destruct (_ ≫= _) as [ctx|]; [|done]. unfold flush_attached.
  rewrite 2!bind_run. cbn [current_binding gets fst snd].
  destruct (make_current_cur (mSurface s) (mSurface s) (mContext ctx) w) as (_ & -> & _).
  rewrite !bind_run. cbn [mret M_ret fst snd]. apply make_current_cur.
Qed.
#[local] Hint Resolve binding_flushColorBuffer : respects.

(** The calls that are asked to change what is current. *)
Definition rebinds (c : Call) : bool :=
  match c with
  | BindContext _ _ _ | SetWindowSurfaceColorBuffer _ _ | Finalize => true
  | _ => false
  end.

Lemma binding_client_image c t b : respects binding (createClientImage (D := D) c t b).
Proof.
  intros w. unfold createClientImage. case_match; [|done].
  pose proof (create_image_current (egl_context w o) t b (w_drv w)) as Hc.
  destruct (eglCreateImageKHR _ _ _ _) as [x d]. exact Hc.
Qed.

Lemma binding_destroy_image i : respects binding (destroyClientImage (D := D) i).
Proof.
  intros w. unfold destroyClientImage. pose proof (destroy_image_current i (w_drv w)) as Hc.
  destruct (eglDestroyImageKHR _ _) as [x d]. exact Hc.
Qed.

End guest.


(** ** A window has the size of its buffer *)

Section fits.
Context {D : Type} `{!Driver D}.
Implicit Types w : World D.

(** Every surface with a pbuffer and an attached buffer has the buffer's size, but
    for the surface [e]. *)
Definition fits (e : option ptr) w : Prop :=
  (forall p s q, surfaces (w_heap w) !! p = Some s -> mAttachedColorBuffer s = Some q ->
     q < next_ptr (w_heap w)) /\
  (forall p s q b, surfaces (w_heap w) !! p = Some s -> mAttachedColorBuffer s = Some q ->
     buffers (w_heap w) !! q = Some b -> mSurface s <> 0 -> e <> Some p ->
     mWidth s = m_width b /\ mHeight s = m_height b) /\
  (forall q, is_Some (buffers (w_heap w) !! q) -> q < next_ptr (w_heap w)).

Definition keeps_fit e w w' : Prop := fits e w -> fits e w'.

#[export] Instance keeps_fit_preorder e : PreOrder (keeps_fit e).
Proof. split; unfold keeps_fit; [by intros x|]. by intros x y z; eauto. Qed.

Lemma fit_heap e w w' : w_heap w' = w_heap w -> keeps_fit e w w'.
Proof. unfold keeps_fit, fits. by intros ->. Qed.

Lemma fit_frame {A} e (m : M (World D) A) : respects frame m -> respects (keeps_fit e) m.
Proof. intros Hm w. apply fit_heap, Hm. Qed.

Lemma fit_modify e (f : World D -> World D) :
  (forall w, w_heap (f w) = w_heap w) -> respects (keeps_fit e) (modify f).
Proof. intros Hf w. apply fit_heap, Hf. Qed.

(** Objects go, or change nothing that matters. *)
Lemma fit_shrink e w w' :
  next_ptr (w_heap w') = next_ptr (w_heap w) ->
  (forall p s', surfaces (w_heap w') !! p = Some s' ->
     mAttachedColorBuffer s' = None \/
     exists s, surfaces (w_heap w) !! p = Some s /\ mSurface s' = mSurface s /\
       mAttachedColorBuffer s' = mAttachedColorBuffer s /\
       mWidth s' = mWidth s /\ mHeight s' = mHeight s) ->
  (forall q b', buffers (w_heap w') !! q = Some b' ->
     exists b, buffers (w_heap w) !! q = Some b /\ m_width b' = m_width b /\
       m_height b' = m_height b) ->
  keeps_fit e w w'.
Proof.
  intros Hn Hs Hb (H1 & H2 & H3). split_and!.
  - intros p s' q Hp Hq. rewrite Hn.
    destruct (Hs p s' Hp) as [|(s & Hps & E1 & E2 & E3 & E4)]; [congruence|].
    apply (H1 p s); congruence.
  - intros p s' q b' Hp Hq Hb' Hsurf He.
    destruct (Hs p s' Hp) as [|(s & Hps & E1 & E2 & E3 & E4)]; [congruence|].
    destruct (Hb q b' Hb') as (b & Hqb & -> & ->). rewrite E3, E4.
    apply (H2 p s q b); congruence.
  - intros q [b' Hq]. rewrite Hn. destruct (Hb q b' Hq) as (b & Hqb & _). apply H3. by eexists.
Qed.

Lemma fit_drop_context e c : respects (keeps_fit e) (drop_context c).
Proof.
  destruct c as [p|]; [|by apply respects_ret, _]. intros w. cbn. case_decide; [reflexivity|].
  destruct (contexts _ !! p); [|reflexivity]. case_match; (apply fit_shrink; cbn; [done|eauto 20..]).
Qed.

Lemma fit_drop_buffer e c : respects (keeps_fit e) (drop_buffer c).
Proof.
  destruct c as [p|]; [|by apply respects_ret, _]. intros w. cbn [drop_buffer].
  case_decide; [reflexivity|]. destruct (buffers _ !! p) as [b|]; [|reflexivity]. rewrite bind_run.
  etransitivity; [apply (fit_frame e _ (respects_delete frame b) w)|].
  generalize (ColorBuffer_delete b w).2. intros w1. apply fit_shrink; cbn; [done|eauto 20|].
  intros q b' [_ Hq]%lookup_delete_Some. eauto.
Qed.

Lemma fit_drop_surface e c : respects (keeps_fit e) (drop_surface c).
Proof.
  destruct c as [p|]; [|by apply respects_ret, _]. intros w. cbn [drop_surface].
  case_decide; [reflexivity|]. destruct (surfaces _ !! p) as [s|]; [|reflexivity].
  set (w1 := if _ : bool then w else _).
  assert (Hw : keeps_fit e w w1) by (unfold w1; case_match; [reflexivity|by apply fit_heap]).
  etransitivity; [exact Hw|]. rewrite !bind_run.
  etransitivity; [|apply fit_drop_buffer].
  etransitivity; [|apply fit_drop_context].
  etransitivity; [|apply fit_drop_context].
  apply fit_shrink; cbn; [done| |eauto 20].
  intros q s' [_ Hq]%lookup_delete_Some. eauto 20.
Qed.

Lemma fit_upd_self e f : respects (keeps_fit e) (upd_self f : M (World D) unit).
Proof. by apply fit_modify. Qed.

Lemma fit_genHandle e : respects (keeps_fit e) (genHandle (D := D)).
Proof. intros w. unfold genHandle. destruct (gen_loop _ _ _); by apply fit_heap. Qed.
End fits.

#[export] Hint Resolve fit_drop_context fit_drop_buffer fit_drop_surface fit_upd_self
  fit_genHandle : respects.
#[export] Hint Extern 1 (respects (keeps_fit _) (modify _)) =>
  apply fit_modify; intros; reflexivity : respects.

(** ** The dimensions of a buffer never change *)

Section dimensions.
Context {W D : Type} `{!Driver D} `{!HasDriver W D} `{!Helper W}.

Definition same_size (b b' : ColorBuffer) : Prop :=
  m_width b' = m_width b /\ m_height b' = m_height b.

Lemma same_size_with_helper {A} b (fail : A * ColorBuffer) (body : M W (A * ColorBuffer)) (w : W) :
  same_size b fail.2 -> (forall w, same_size b (body w).1.2) ->
  same_size b (with_helper_context fail body w).1.2.
Proof.
  intros Hf Hb. unfold with_helper_context. rewrite bind_run.
  destruct (setupContext w).1; [|done]. rewrite !bind_run. apply Hb.
Qed.

Lemma same_size_readPixels b x y pw ph f t (w : W) :
  same_size b (readPixels b x y pw ph f t w).1.2.
Proof.
  apply same_size_with_helper; [done|]. intros w'. rewrite bind_run.
  destruct (bindFbo _ _ _).1.1; [|done]. by rewrite !bind_run.
Qed.

Lemma same_size_blit c b (w : W) : same_size b (blitFromCurrentReadBuffer c b w).1.2.
Proof.
  destruct c as [gl2|]; [|done]. unfold blitFromCurrentReadBuffer. rewrite 7!bind_run.
  apply same_size_with_helper; [done|]. intros w'. rewrite bind_run.
  destruct (bindFbo _ _ _).1.1; [|done]. by rewrite !bind_run.
Qed.
End dimensions.

Section fit_operations.
Context {D : Type} `{!Driver D}.
Implicit Types w : World D.

Abbreviation fit := (keeps_fit None).

Lemma fit_erase_context h : respects fit (erase_context (D := D) h).
Proof. unfold erase_context. respects_tac. Qed.
Lemma fit_erase_window h : respects fit (erase_window (D := D) h).
Proof. unfold erase_window. respects_tac. Qed.
Lemma fit_erase_colorbuffer h : respects fit (erase_colorbuffer (D := D) h).
Proof. unfold erase_colorbuffer. respects_tac. Qed.
#[local] Hint Resolve fit_erase_context fit_erase_window fit_erase_colorbuffer : respects.
Lemma fit_unref h : respects fit (unref_colorbuffer (D := D) h).
Proof. unfold unref_colorbuffer. respects_tac. Qed.
#[local] Hint Resolve fit_unref : respects.
Lemma fit_drain_window h : respects fit (drain_window (D := D) h).
Proof. unfold drain_window. respects_tac. Qed.
#[local] Hint Resolve fit_drain_window : respects.
Lemma fit_put_colorbuffer h r : respects fit (put_colorbuffer (D := D) h r).
Proof. unfold put_colorbuffer. respects_tac. Qed.
#[local] Hint Resolve fit_put_colorbuffer : respects.

(** A new object's address is not yet in use. *)
Lemma fit_new_buffer b w : fit w (put_buffer (alloc w).1 b (alloc w).2).
Proof.
  intros (H1 & H2 & H3). split_and!; cbn.
  - intros p s q Hp Hq. specialize (H1 p s q Hp Hq). lia.
  - intros p s q b' Hp Hq Hb'. specialize (H1 p s q Hp Hq).
    rewrite lookup_insert_ne in Hb' by lia. by apply (H2 p s q).
  - intros q Hq. destruct (decide (next_ptr (w_heap w) = q)) as [<-|Hne]; [lia|].
    rewrite lookup_insert_ne in Hq by done. specialize (H3 q Hq). lia.
Qed.

Lemma fit_new_surface s w :
  mAttachedColorBuffer s = None -> fit w (put_surface (alloc w).1 s (alloc w).2).
Proof.
  intros Hs (H1 & H2 & H3). split_and!; cbn.
  - intros p s' q Hp Hq. apply lookup_insert_Some in Hp as [[_ <-]|[_ Hp]]; [congruence|].
    specialize (H1 p s' q Hp Hq). lia.
  - intros p s' q b' Hp Hq. apply lookup_insert_Some in Hp as [[_ <-]|[_ Hp]]; [congruence|].
    by apply (H2 p s').
  - intros q Hq. specialize (H3 q Hq). lia.
Qed.

Lemma fit_new_context c w : fit w (put_context (alloc w).1 c (alloc w).2).
Proof.
  intros (H1 & H2 & H3). split_and!; cbn; [|done|].
  - intros p s q Hp Hq. specialize (H1 p s q Hp Hq). lia.
  - intros q Hq. specialize (H3 q Hq). lia.
Qed.

Lemma fit_createColorBuffer pw ph f : respects fit (createColorBuffer (D := D) pw ph f).
Proof.
  unfold createColorBuffer. apply respects_bind; [apply _|respects_tac|]. intros dpy.
  apply respects_bind; [apply _|apply fit_frame, respects_create, _|].
  intros [b|]; [|respects_tac]. intros w. rewrite 2!bind_run.
  etransitivity; [apply (fit_new_buffer b)|].
  change (modify (put_buffer (alloc w).1 b) (alloc w).2).2
    with (put_buffer (alloc w).1 b (alloc w).2).
  set (w1 := put_buffer _ b _). set (q := (alloc w).1). clearbody w1 q. revert w1.
  lazymatch goal with |- forall w1, keeps_fit _ w1 (?m w1).2 => change (respects fit m) end.
  respects_tac.
Qed.

Lemma fit_createRenderContext config share gl2 :
  respects fit (createRenderContext (D := D) config share gl2).
Proof.
  assert (H : forall c s, respects fit (RenderContext_create (D := D) c s gl2)).
  { intros c s w. unfold RenderContext_create. destruct (eglCreateContext _ _ _ _) as [ctx d].
    etransitivity; [by apply (fit_heap None w (with_drv d w))|].
    destruct (ctx =? EGL_NO_CONTEXT); [reflexivity|]. rewrite !bind_run.
    apply (fit_new_context _ (with_drv d w)). }
  unfold createRenderContext. respects_tac.
Qed.

Lemma fit_createWindowSurface config pw ph :
  respects fit (createWindowSurface (D := D) config pw ph).
Proof.
  assert (H : forall c, respects fit (WindowSurface_create (D := D) c pw ph)).
  { intros c w. unfold WindowSurface_create. rewrite bind_run.
    set (rs := resize _ _ _). set (r := rs w).
    etransitivity; [apply (fit_frame None rs (frame_resize _ _ _) w)|].
    destruct (resize_pointers (mkWS 0 None None None 0 0 c) (u32 pw) (u32 ph) w) as (_ & _ & Ha).
    fold rs in Ha. fold r in Ha |- *. destruct r.1.1; [|reflexivity]. rewrite !bind_run.
    by apply fit_new_surface. }
  unfold createWindowSurface. respects_tac.
Qed.

Lemma fit_put_buffer p b b' w :
  buffers (w_heap w) !! p = Some b -> same_size b b' -> fit w (put_buffer p b' w).
Proof.
  intros Hb [Hw Hh]. apply fit_shrink; cbn; [done|eauto 20|].
  intros q b0 [[<- <-]|[_ Hq]]%lookup_insert_Some; eauto.
Qed.

Lemma fit_put_surface p s s' w :
  surfaces (w_heap w) !! p = Some s -> mSurface s' = mSurface s ->
  mAttachedColorBuffer s' = mAttachedColorBuffer s -> mWidth s' = mWidth s ->
  mHeight s' = mHeight s -> fit w (put_surface p s' w).
Proof.
  intros Hs E1 E2 E3 E4. apply fit_shrink; cbn; [done| |eauto 20].
  intros q s0 [[<- <-]|[_ Hq]]%lookup_insert_Some; eauto 20.
Qed.

Lemma fit_readColorBuffer h x y pw ph f t :
  respects fit (readColorBuffer (D := D) h x y pw ph f t).
Proof.
  intros w. unfold readColorBuffer. rewrite bind_run. cbn [gets fst snd].
  destruct (find_buffer h w) as [[p b]|] eqn:Hb; [|reflexivity].
  apply find_buffer_some in Hb. rewrite !bind_run. cbn [modify snd mret M_ret].
  pose proof (respects_readPixels frame b x y pw ph f t w) as (_ & Hf & _).
  etransitivity; [|eapply fit_put_buffer; [by rewrite Hf|apply same_size_readPixels]].
  by apply fit_heap.
Qed.

Lemma fit_flushColorBuffer s : respects fit (flushColorBuffer (D := D) s).
Proof.
  intros w. unfold flushColorBuffer. destruct (mAttachedColorBuffer s) as [p|]; [|reflexivity].
  destruct (_ || _); [reflexivity|]. rewrite bind_run. cbn [gets fst snd id].
  destruct (buffers (w_heap w) !! p) as [b|] eqn:Hb; [|reflexivity].
  destruct (_ || _); [reflexivity|]. destruct (_ ≫= _) as [ctx|]; [|reflexivity].
  unfold flush_attached. rewrite 2!bind_run. cbn [current_binding gets fst snd].
  set (mc := egl_make_current _ _ _).
  assert (Hf : frame w (mc w).2) by apply frame_make_current.
  assert (Hb1 : buffers (w_heap (mc w).2) !! p = Some b) by by destruct Hf as (_ & -> & _).
  etransitivity; [apply fit_heap, Hf|]. revert Hb1. generalize (mc w).2. intros w1 Hb1.
  destruct (mc w).1; [|reflexivity]. rewrite !bind_run. cbn [gets modify fst snd mret M_ret].
  etransitivity; [|apply fit_frame, frame_make_current].
  pose proof (respects_blit frame (curr_isGL2 w1) b w1) as (_ & Hf1 & _).
  etransitivity; [|eapply fit_put_buffer; [by rewrite Hf1|apply same_size_blit]].
  by apply fit_heap.
Qed.

Lemma drop_buffer_shrinks c w q b :
  buffers (w_heap (drop_buffer c w).2) !! q = Some b -> buffers (w_heap w) !! q = Some b.
Proof.
  destruct c as [p|]; [|done]. cbn [drop_buffer]. case_decide; [done|].
  destruct (buffers _ !! p) as [b0|]; [|done]. rewrite bind_run.
  destruct (respects_delete (D := D) frame b0 w) as (_ & Hh & _).
  cbn [modify snd del_buffer with_heap w_heap buffers]. rewrite Hh.
  by intros [_ Hq]%lookup_delete_Some.
Qed.

(** After [resize] there is no pbuffer, or it has the size asked for. *)
Lemma resize_size s pw ph w :
  mSurface (resize s pw ph w).1.2 = 0 \/
  (mWidth (resize s pw ph w).1.2 = pw /\ mHeight (resize s pw ph w).1.2 = ph).
Proof.
  unfold resize. destruct (_ && _ && _) eqn:E.
  { right. cbn. lia. }
  repeat (rewrite bind_run; cbv beta). case_match; [by left|].
  rewrite bind_run. by right.
Qed.

(** The surface [this] gets its exemption lifted. *)
Lemma fits_repair this s' p b w :
  surfaces (w_heap w) !! this = Some s' -> mAttachedColorBuffer s' = Some p ->
  (forall b', buffers (w_heap w) !! p = Some b' -> same_size b b') ->
  (mSurface s' = 0 \/ (mWidth s' = m_width b /\ mHeight s' = m_height b)) ->
  fits (Some this) w -> fits None w.
Proof.
  intros Hs Ha Hb Hsz (H1 & H2 & H3). split_and!; [done| |done].
  intros q s0 r b0 Hq Hr Hb0 Hne _. destruct (decide (q = this)) as [->|Hqt].
  - assert (s0 = s') as -> by congruence. assert (r = p) as -> by congruence.
    destruct (Hb b0 Hb0) as [E1 E2]. destruct Hsz as [|[E3 E4]]; [done|]. split; congruence.
  - apply (H2 q s0 r b0); congruence.
Qed.

Lemma fit_setColorBuffer this s p b w :
  surfaces (w_heap w) !! this = Some s -> buffers (w_heap w) !! p = Some b ->
  fit w (setColorBuffer this s p b w).2.
Proof.
  intros Hs Hp Hw. unfold setColorBuffer. rewrite 2!bind_run. cbn [modify fst snd].
  set (s' := set_attached (Some p) s). set (w1 := put_surface this s' w).
  assert (F1 : fits (Some this) w1).
  { destruct Hw as (H1 & H2 & H3). split_and!; cbn; [| |done].
    - intros q s0 r [[<- <-]|[_ Hq]]%lookup_insert_Some Hr; [|by apply (H1 q s0)].
      injection Hr as <-. apply H3. by eexists.
    - intros q s0 r b0 [[<- <-]|[_ Hq]]%lookup_insert_Some Hr Hb0 Hn He; [done|].
      by apply (H2 q s0 r b0). }
  set (w2 := (drop_buffer (mAttachedColorBuffer s) w1).2).
  assert (F2 : fits (Some this) w2) by by apply (fit_drop_buffer (Some this)).
  assert (S2 : surfaces (w_heap w2) !! this = Some s').
  { unfold w2. destruct (drop_buffer_surfaces (mAttachedColorBuffer s) w1) as [-> _].
    apply lookup_insert_eq. }
  assert (B2 : forall b', buffers (w_heap w2) !! p = Some b' -> same_size b b').
  { intros b' Hb'%drop_buffer_shrinks. cbn in Hb'. assert (b' = b) as -> by congruence. done. }
  clearbody w2. clear F1 Hw w1.
  destruct (negb (m_width b =? mWidth s) || negb (m_height b =? mHeight s)) eqn:E; cbn [when].
  - rewrite bind_run. cbn [modify snd]. set (rs := resize s' (m_width b) (m_height b)).
    destruct (frame_resize s' (m_width b) (m_height b) w2) as (_ & Hh & _). fold rs in Hh.
    destruct (resize_pointers s' (m_width b) (m_height b) w2) as (_ & _ & Ha). fold rs in Ha.
    pose proof (resize_size s' (m_width b) (m_height b) w2) as Hsz. fold rs in Hsz.
    apply (fits_repair this (rs w2).1.2 p b).
    + apply lookup_insert_eq.
    + by rewrite Ha.
    + cbn. by rewrite Hh.
    + done.
    + destruct F2 as (H1 & H2 & H3). split_and!; cbn; rewrite Hh; [| |done].
      * intros q s0 r [[<- <-]|[_ Hq]]%lookup_insert_Some Hr; [|by apply (H1 q s0)].
        apply (H1 this s'); congruence.
      * intros q s0 r b0 [[<- <-]|[_ Hq]]%lookup_insert_Some Hr Hb0 Hn He; [done|].
        by apply (H2 q s0 r b0).
  - apply (fits_repair this s' p b); try done. right.
    unfold s'. cbn. lia.
Qed.

Lemma fit_setWindowSurfaceColorBuffer h hcb :
  respects fit (setWindowSurfaceColorBuffer (D := D) h hcb).
Proof.
  intros w. unfold setWindowSurfaceColorBuffer. rewrite 2!bind_run. cbn [gets fst snd].
  destruct (find_window h w) as [[pw s]|] eqn:Hwin; [|reflexivity].
  destruct (find_buffer hcb w) as [[pb b]|] eqn:Hbuf; [|reflexivity].
  apply find_window_some in Hwin as (Hs & _). apply find_buffer_some in Hbuf.
  rewrite 2!bind_run. etransitivity; [by apply fit_setColorBuffer|]. by apply fit_heap.
Qed.

Lemma fit_ws_bind this ctx t : respects fit (ws_bind (D := D) this ctx t).
Proof.
  intros w. unfold ws_bind. destruct (surfaces (w_heap w) !! this) as [s|] eqn:Hs; [|reflexivity].
  destruct t; rewrite !bind_run; cbn [modify snd].
  1,2: etransitivity; [|apply fit_drop_context]; by apply (fit_put_surface _ s).
  set (s1 := set_read_context ctx s). set (w1 := (drop_context _ (put_surface this s1 w)).2).
  assert (H1 : surfaces (w_heap w1) !! this = Some s1).
  { unfold w1. destruct (drop_context_surfaces (mReadContext s) (put_surface this s1 w)) as [-> _].
    apply lookup_insert_eq. }
  assert (F1 : fit w w1).
  { etransitivity; [|apply fit_drop_context]. by apply (fit_put_surface _ s). }
  etransitivity; [exact F1|]. etransitivity; [|apply fit_drop_context].
  by apply (fit_put_surface _ s1).
Qed.

Lemma fit_bindContext c d r : respects fit (bindContext (D := D) c d r).
Proof.
  unfold bindContext, bind_surfaces, set_decoder.
  apply respects_bind; [apply _|respects_tac|]. intros w.
  destruct (resolve c d r w) as [[[ctx draw] read]|]; [|respects_tac].
  apply respects_bind; [apply _|apply fit_frame, frame_make_current|]. intros ok.
  respects_tac; apply fit_ws_bind.
Qed.

Lemma fit_subUpdate b x y pw ph f t px : respects fit (subUpdate (W := World D) b x y pw ph f t px).
Proof. apply fit_frame, respects_subUpdate, _. Qed.
Lemma fit_bindToTexture c b : respects fit (bindToTexture (W := World D) c b).
Proof. apply fit_frame, respects_bindToTexture, _. Qed.
Lemma fit_bindToRenderbuffer c b : respects fit (bindToRenderbuffer (W := World D) c b).
Proof. apply fit_frame, respects_bindToRenderbuffer, _. Qed.
Lemma fit_make_current draw read ctx : respects fit (egl_make_current (D := D) draw read ctx).
Proof. apply fit_frame, frame_make_current. Qed.
#[local] Hint Resolve fit_flushColorBuffer fit_subUpdate fit_bindToTexture
  fit_bindToRenderbuffer fit_make_current : respects.

Lemma exec_fits c w w' : exec c w = Some w' -> fits None w -> fits None w'.
Proof.
  assert (Hr : forall A (m : M (World D) (option A)),
    respects fit m -> returned (m w) = Some w' -> fit w w').
  { intros A m Hm. unfold returned. specialize (Hm w).
    destruct (m w) as [[x|] w1]; [|done]. by intros [= <-]. }
  assert (Hs : forall A (m : M (World D) A),
    respects fit m -> Some (m w).2 = Some w' -> fit w w') by (intros A m Hm [= <-]; apply Hm).
  destruct c; cbn [exec]; (apply Hr || apply Hs); clear Hr Hs;
    auto using fit_createColorBuffer, fit_createRenderContext, fit_createWindowSurface,
      fit_readColorBuffer, fit_setWindowSurfaceColorBuffer, fit_bindContext.
  - unfold drainRenderContext. respects_tac.
  - unfold drainWindowSurface. respects_tac.
  - unfold DestroyRenderContext. respects_tac.
  - unfold DestroyWindowSurface. respects_tac.
  - unfold openColorBuffer. respects_tac.
  - unfold closeColorBuffer. respects_tac.
  - unfold flushWindowSurfaceColorBuffer. respects_tac.
  - unfold updateColorBuffer. respects_tac.
  - unfold bindColorBufferToTexture. respects_tac.
  - unfold bindColorBufferToRenderbuffer. respects_tac.
  - intros w1. apply fit_heap. unfold createClientImage. case_match; [|done].
    by destruct (eglCreateImageKHR _ _ _ _).
  - intros w1. apply fit_heap. unfold destroyClientImage. by destruct (eglDestroyImageKHR _ _).
  - unfold finalize. respects_tac.
Qed.

Lemma fit_thread_exit : respects fit (thread_exit (D := D)).
Proof. unfold thread_exit. respects_tac. Qed.

Lemma step_fits w w' : step w w' -> fits None w -> fits None w'.
Proof.
  intros [c w1 w2 He|d w1|d w1 i l1 l2 Ho|w1|w1]; [by eapply exec_fits|by apply fit_heap..|].
  apply fit_thread_exit.
Qed.

(** C4: In every state the render threads reach, a window that has a pbuffer and
    an attached color buffer is exactly as large as the buffer: the sizes that
    [flushColorBuffer] compares can only differ after the pbuffer could not be
    created. *)
Theorem window_fits_buffer (d : D) dpy w p s q b :
  rtc step (world_init d dpy) w ->
  surfaces (w_heap w) !! p = Some s -> mAttachedColorBuffer s = Some q ->
  buffers (w_heap w) !! q = Some b -> mSurface s <> 0 ->
  mWidth s = m_width b /\ mHeight s = m_height b.
Proof.
  intros Hsteps Hs Ha Hb Hn.
  assert (Hw : fits None w).
  { eapply (rtc_invariant step (fits None)); [apply step_fits|exact Hsteps|].
    split_and!; cbn; [intros p0 s0 q0 Hp0|intros p0 s0 q0 b0 Hp0|intros q0 [? Hq0]];
      by rewrite lookup_empty in *. }
  destruct Hw as (_ & H & _). by apply (H p s q b).
Qed.
End fit_operations.

Lemma window_fits_buffer_witness :
  let calls := [CreateColorBuffer 8 6 GL_RGBA; CreateWindowSurface 0 4 4;
                SetWindowSurfaceColorBuffer 2 1] in
  let w := default (world_init toy_init demo_display)
             (exec_all calls (world_init toy_init demo_display)) in
  let s := default (mkWS 0 None None None 0 0 0) (surfaces (w_heap w) !! 2) in
  let tr := mkTR 0 0 0 (mkFB 0 0 0 0 0) (mkFB 0 0 0 0 0) 0 in
  let b := default (mkCB 0 0 0 0 0 0 0 0 tr) (buffers (w_heap w) !! 1) in
  mWidth s = 8 /\ mWidth s = m_width b /\ mHeight s = m_height b.
Proof.
  intros calls w s tr b. split; [by vm_compute|].
  apply (window_fits_buffer toy_init demo_display w 2 s 1 b).
  - apply (exec_all_steps calls). by vm_compute.
  - by vm_compute.
  - by vm_compute.
  - by vm_compute.
  - by vm_compute.
Defined.
