(* ===== verification/Utils.v ===== *)
(** * Text and file helpers

    [src/src/anbox/utils.{h,cpp}].  Text is [string], file contents are lists of
    bytes.  [boost::format], which [string_format] calls, is a parameter
    ([BoostFormat]); what the code relies on is that it treats the directives the
    code uses as [printf] does.  [snprintf] and [sscanf] of the C library are
    [printf] and [scan_hex]. *)

From Stdlib Require Import Ascii.
From S2P Require Import Prelude.

(** ** Characters and bytes *)

Definition char_of (b : Z) : ascii := ascii_of_nat (Z.to_nat b).
Definition byte_of (c : ascii) : Z := Z.of_nat (nat_of_ascii c).

Fixpoint text (l : list Z) : string :=
  match l with [] => EmptyString | b :: l => String (char_of b) (text l) end.

Fixpoint bytes_of (s : string) : list Z :=
  match s with EmptyString => [] | String c s => byte_of c :: bytes_of s end.

Lemma text_bytes_of s : text (bytes_of s) = s.
Proof.
  induction s as [|c s IH]; [done|]. cbn. rewrite IH. unfold char_of, byte_of.
  by rewrite Nat2Z.id, ascii_nat_embedding.
Qed.

Lemma bytes_of_app s t : bytes_of (String.append s t) = bytes_of s ++ bytes_of t.
Proof.
  induction s as [|c s IH]; [done|].
  change (byte_of c :: bytes_of (String.append s t) = byte_of c :: (bytes_of s ++ bytes_of t)).
  by rewrite IH.
Qed.

Lemma string_length_app s t :
  String.length (String.append s t) = (String.length s + String.length t)%nat.
Proof.
  induction s as [|c s IH]; [done|].
  change (S (String.length (String.append s t)) = S (String.length s + String.length t)%nat).
  by rewrite IH.
Qed.

Lemma zlen_bytes_of s : zlen (bytes_of s) = Z.of_nat (String.length s).
Proof. induction s as [|c s IH]; [done|]. cbn [bytes_of String.length]. rewrite zlen_cons, IH. lia. Qed.

Definition is_digit (c : ascii) : bool :=
  let n := nat_of_ascii c in (48 <=? n)%nat && (n <=? 57)%nat.

Definition is_space (c : ascii) : bool :=
  let n := nat_of_ascii c in ((9 <=? n)%nat && (n <=? 13)%nat) || (n =? 32)%nat.

Definition digit_of (c : ascii) : Z := byte_of c - 48.

(** ** [string_starts_with], [strip_surrounding_quotes] *)

Definition string_starts_with (text prefix : string) : bool :=
  String.eqb (String.substring 0 (String.length prefix) text) prefix.

Lemma starts_with_prefix t p : string_starts_with t p = true <-> String.prefix p t = true.
Proof. unfold string_starts_with. by rewrite String.eqb_eq, String.prefix_correct. Qed.

(** Two beginnings of one text: one begins the other. *)
Lemma prefix_comparable a : forall b t,
  String.prefix a t = true -> String.prefix b t = true ->
  String.prefix a b || String.prefix b a = true.
Proof.
  induction a as [|c a IH]; intros b t Ha Hb; [by destruct b|].
  destruct t as [|d t]; [done|]. destruct b as [|e b]; [done|].
  cbn in *. destruct (ascii_dec c d) as [->|]; [|done]. destruct (ascii_dec e d) as [->|]; [|done].
  destruct (ascii_dec d d) as [_|]; [|done]. by apply (IH b t).
Qed.

Definition quote : ascii := ascii_of_nat 34.

(** [text[0]] of the empty string is its terminator, [text[length - 1]] is outside
    it: [None]. *)
Definition strip_surrounding_quotes (text : string) : string :=
  let n := String.length text in
  match String.get 0 text, String.get (n - 1) text with
  | Some a, Some b =>
      if Ascii.eqb a quote && Ascii.eqb b quote then String.substring 1 (n - 2) text else text
  | _, _ => text
  end.

(** ** Formatting *)

Inductive Arg := Num (n : Z) | Str (s : string).

Definition hex_digit (d : Z) : ascii := char_of (if d <? 10 then 48 + d else 87 + d).

(** [n] digits at most in the base, no leading zeros. *)
Fixpoint digits (base : Z) (n : nat) (z : Z) : string :=
  match n with
  | O => EmptyString
  | S n => String.append (if z <? base then EmptyString else digits base n (z / base))
             (String (hex_digit (z mod base)) EmptyString)
  end.

(** 64-bit values. *)
Definition to_hex (z : Z) : string := digits 16 16 z.
Definition to_dec (z : Z) : string :=
  if z <? 0 then String "-" (digits 10 20 (- z)) else digits 10 20 z.

Fixpoint fill (c : Z) (n : nat) : string :=
  match n with O => EmptyString | S n => String (char_of c) (fill c n) end.

Definition pad (zero : bool) (width : Z) (s : string) : string :=
  String.append (fill (if zero then 48 else 32) (Z.to_nat width - String.length s)) s.

(** The directives [%d], [%x] and [%s] with a flag [0], a width and the size [z].
    [mode]: inside a directive, its flag and width. *)
Fixpoint printf (mode : option (bool * Z)) (f : string) (args : list Arg) : string :=
  match f with
  | EmptyString => EmptyString
  | String c f =>
      match mode with
      | None =>
          if Ascii.eqb c "%" then printf (Some (false, 0)) f args
          else String c (printf None f args)
      | Some (zero, width) =>
          if Ascii.eqb c "0" && (width =? 0) then printf (Some (true, 0)) f args
          else if is_digit c then printf (Some (zero, 10 * width + digit_of c)) f args
          else if Ascii.eqb c "z" then printf mode f args
          else
            match args with
            | Num n :: args =>
                String.append
                  (pad zero width (if Ascii.eqb c "x" then to_hex n else to_dec n))
                  (printf None f args)
            | Str s :: args => String.append (pad false width s) (printf None f args)
            | [] => printf None f args
            end
      end
  end.

(** ** Hexadecimal numbers *)

Definition hex_value (b : Z) : option Z :=
  if (48 <=? b) && (b <=? 57) then Some (b - 48)
  else if (65 <=? b) && (b <=? 70) then Some (b - 55)
  else if (97 <=? b) && (b <=? 102) then Some (b - 87)
  else None.

Fixpoint scan_hex_digits (acc : Z) (l : list Z) : Z :=
  match l with
  | [] => acc
  | b :: l => match hex_value b with Some d => scan_hex_digits (16 * acc + d) l | None => acc end
  end.

Definition skip_0x (l : list Z) : list Z :=
  match l with
  | b :: x :: l' => if (b =? 48) && ((x =? 120) || (x =? 88)) then l' else l
  | _ => l
  end.

(** [sscanf]'s [%x] into an [unsigned int] of 0: white space, a sign, [0x], digits;
    on the bytes given. *)
Fixpoint scan_hex (l : list Z) : Z :=
  match l with
  | [] => 0
  | b :: l' =>
      if is_space (char_of b) then scan_hex l'
      else if b =? 45 then u32 (- scan_hex_digits 0 (skip_0x l'))
      else if b =? 43 then scan_hex_digits 0 (skip_0x l')
      else scan_hex_digits 0 (skip_0x l)
  end.

Definition hexbyte (b : Z) : Prop := is_Some (hex_value b).

Lemma hex_digit_value d : 0 <= d < 16 -> hex_value (byte_of (hex_digit d)) = Some d.
Proof.
  intros Hd. assert (Hin : d ∈ seqZ 0 16) by (apply elem_of_seqZ; lia).
  assert (Hall : Forall (fun d => hex_value (byte_of (hex_digit d)) = Some d) (seqZ 0 16))
    by (apply (bool_decide_unpack _); by vm_compute).
  rewrite Forall_forall in Hall. by apply Hall.
Qed.

Lemma hexbyte_plain b :
  hexbyte b -> is_space (char_of b) = false /\ b <> 45 /\ b <> 43 /\ b <> 120 /\ b <> 88.
Proof.
  intros Hb. assert (Hr : 48 <= b < 103) by (revert Hb; unfold hexbyte, hex_value;
    repeat case_match; intros [? ?]; try done; lia).
  assert (Hall : forallb (fun b => bool_decide (hex_value b = None) ||
      negb (is_space (char_of b)) && negb (b =? 45) && negb (b =? 43) && negb (b =? 120) &&
      negb (b =? 88)) (seqZ 48 55) = true) by by vm_compute.
  rewrite forallb_forall in Hall.
  specialize (Hall b ltac:(apply list_elem_of_In, elem_of_seqZ; lia)).
  destruct Hb as [d Hb]. rewrite Hb in Hall. cbn in Hall.
  destruct (is_space (char_of b)); [done|]. split; [done|lia].
Qed.

Lemma scan_hex_plain l : Forall hexbyte l -> scan_hex l = scan_hex_digits 0 l.
Proof.
  intros Hl. destruct Hl as [|b l Hb Hl]; [done|].
  destruct (hexbyte_plain b Hb) as (Hs & ? & ? & _). cbn [scan_hex]. rewrite Hs.
  rewrite !(proj2 (Z.eqb_neq _ _)) by done. f_equal. unfold skip_0x.
  destruct Hl as [|x l Hx _]; [done|]. destruct (hexbyte_plain x Hx) as (_ & _ & _ & ? & ?).
  rewrite (proj2 (Z.eqb_neq x 120)), (proj2 (Z.eqb_neq x 88)) by done. by rewrite andb_false_r.
Qed.

Lemma scan_hex_digits_app l1 l2 acc :
  Forall hexbyte l1 -> scan_hex_digits acc (l1 ++ l2) = scan_hex_digits (scan_hex_digits acc l1) l2.
Proof.
  intros Hl. revert acc. induction Hl as [|b l1 [d Hb] _ IH]; intros acc; [done|].
  cbn. rewrite Hb. apply IH.
Qed.

Lemma digits_hex k : forall z,
  0 <= z < 16 ^ Z.of_nat k ->
  Forall hexbyte (bytes_of (digits 16 k z)) /\ scan_hex_digits 0 (bytes_of (digits 16 k z)) = z.
Proof.
  induction k as [|k IH]; intros z Hz; [cbn in *; split; [constructor|lia]|].
  cbn [digits]. rewrite bytes_of_app. cbn [bytes_of].
  assert (Hmod : 0 <= z mod 16 < 16) by (apply Z.mod_pos_bound; lia).
  pose proof (hex_digit_value (z mod 16) Hmod) as Hd.
  assert (Hpre : Forall hexbyte (bytes_of (if z <? 16 then EmptyString else digits 16 k (z / 16))) /\
    scan_hex_digits 0 (bytes_of (if z <? 16 then EmptyString else digits 16 k (z / 16))) = z / 16).
  { destruct (Z.ltb_spec z 16).
    - split; [constructor|]. cbn. symmetry. apply Z.div_small. lia.
    - apply IH. split; [apply Z.div_pos; lia|]. apply Z.div_lt_upper_bound; [lia|].
      rewrite <- Z.pow_succ_r by lia. rewrite <- Nat2Z.inj_succ; lia. }
  destruct Hpre as [Hf Hs]. split.
  - apply Forall_app. split; [done|]. constructor; [by eexists|constructor].
  - rewrite scan_hex_digits_app, Hs by done. cbn [scan_hex_digits]. rewrite Hd.
    pose proof (Z.div_mod z 16). lia.
Qed.

Lemma digits_length m : forall k z,
  0 <= z < 16 ^ Z.of_nat (S m) -> (String.length (digits 16 k z) <= S m)%nat.
Proof.
  induction m as [|m IH]; intros k z Hz; (destruct k as [|k]; [cbn; lia|]); cbn [digits].
  - assert (Hz' : 0 <= z < 16) by exact Hz. destruct (Z.ltb_spec z 16); [|lia].
    rewrite string_length_app. cbn. lia.
  - rewrite string_length_app. destruct (Z.ltb_spec z 16); [cbn; lia|]. cbn [String.length]. specialize (IH k (z / 16)).
    enough (String.length (digits 16 k (z / 16)) <= S m)%nat by lia. apply IH.
    split; [apply Z.div_pos; lia|]. apply Z.div_lt_upper_bound; [lia|].
    rewrite <- Z.pow_succ_r by lia. rewrite <- Nat2Z.inj_succ; lia.
Qed.

Lemma bytes_of_fill c n : 0 <= c < 256 -> bytes_of (fill c n) = replicate n c.
Proof.
  intros Hc. induction n as [|n IH]; [done|]. cbn. rewrite IH. f_equal.
  unfold byte_of, char_of. rewrite nat_ascii_embedding by lia. lia.
Qed.

(** A number written with leading zeros reads back. *)
Lemma padded_hex n :
  0 <= n < 65536 ->
  let l := bytes_of (pad true 4 (to_hex n)) in zlen l = 4 /\ scan_hex l = n.
Proof.
  intros Hn l. unfold l, pad, to_hex.
  pose proof (digits_length 3 16 n ltac:(cbn; lia)) as Hlen.
  destruct (digits_hex 16 n ltac:(cbn; lia)) as [Hf Hs].
  rewrite bytes_of_app, bytes_of_fill by lia. set (k := (Z.to_nat 4 - _)%nat).
  assert (Hz : Forall hexbyte (replicate k 48)) by (apply Forall_replicate; by eexists).
  split.
  - rewrite zlen_app, zlen_bytes_of. unfold zlen. rewrite length_replicate. unfold k. lia.
  - rewrite scan_hex_plain by (by apply Forall_app).
    rewrite scan_hex_digits_app by done.
    assert (Hk : scan_hex_digits 0 (replicate k 48) = 0) by (clear; induction k; [done|]; done).
    by rewrite Hk.
Qed.

Definition CR : string := String (char_of 13) EmptyString.

Class BoostFormat := boost_format : string -> list Arg -> string.

Definition string_format `{BoostFormat} (f : string) (args : list Arg) : string :=
  boost_format f args.

(** The formats the models of this development use. *)
Definition reply_format : string := String.append "%s" (String.append CR (String.append "OK" newline)).

Definition used_formats : list string :=
  [reply_format; "+CTEC: %d,%x"; "+CREF: %d,%d"; "+CGREG: %d,%d"; "+CFUN: %d";
   "ro.sf.lcd_density=%d"; "host:emulator:%d"; "%04x%s"; "%02x   "; " %02x"; "  %s";
   "anbox-%s.desktop"; "anbox-%s.png"; "Failed to start container: %s"]%string.

Class BoostFormatLaws `{BoostFormat} : Prop :=
  boost_format_printf f args : f ∈ used_formats -> boost_format f args = printf None f args.

(** For examples. *)
Definition toy_format : BoostFormat := printf None.

Lemma toy_format_laws : BoostFormatLaws (H := toy_format).
Proof. done. Qed.

(** ** [write_to_fd] *)

Definition ENOSPC : Z := 28.

(** What [write] answers for the length asked: its result and [errno]. *)
Definition write_answer : Type := Z -> Z * Z.

(** The result, [errno] where it is set, and the bytes written; [None] when the
    answers given are used up. *)
Fixpoint write_to_fd (outs : list write_answer) (content : list Z) (len : Z) (done : list Z) :
    option (Z * option Z) * list Z :=
  if len <=? 0 then (Some (0, None), done)
  else
    match outs with
    | [] => (None, done)
    | write :: outs =>
        let '(res, errno) := write len in
        if (res <? 0) && (errno =? EINTR) then write_to_fd outs content len done
        else if res <=? 0 then (Some (-1, Some (if res =? 0 then ENOSPC else errno)), done)
        else write_to_fd outs (zdrop res content) (len - res) (done ++ ztake res content)
    end.

(** ** [find_program_on_path] *)

(** [path.find(c, start)]. *)
Definition find_char (c : ascii) (start : nat) (l : list ascii) : option nat :=
  (fun p => start + p.1)%nat <$> list_find (eq c) (drop start l).

(** [l.substr(start, n)] *)
Definition sub (start n : nat) (l : list ascii) : list ascii := take n (drop start l).

Section path.
(** [stat] succeeds and others may execute the file. *)
Variable executable : list ascii -> bool.

Fixpoint find_on_path (n : nat) (path name : list ascii) (start_pos : nat) : list ascii :=
  match n with
  | O => []
  | S n =>
      match find_char ":" start_pos path with
      | None => []
      | Some end_pos =>
          let current_path := sub start_pos (end_pos - start_pos) path ++ "/"%char :: name in
          if executable current_path then current_path
          else find_on_path n path name (S end_pos)
      end
  end.

Definition find_program_on_path (path name : list ascii) : list ascii :=
  find_on_path (S (length path)) path name 0.

(** The components of a search path. *)
Fixpoint components (path cur : list ascii) : list (list ascii) :=
  match path with
  | [] => [cur]
  | c :: path => if Ascii.eqb c ":" then cur :: components path [] else components path (cur ++ [c])
  end.

Definition candidate (name dir : list ascii) : list ascii := dir ++ "/"%char :: name.

Fixpoint first_executable (l : list (list ascii)) : list ascii :=
  match l with [] => [] | p :: l => if executable p then p else first_executable l end.

(** What the search looks at: every component but the last. *)
Definition searched (path name : list ascii) : list (list ascii) :=
  candidate name <$> removelast (components path []).
End path.

(** ** [hex_dump] *)

(** The C string in [buff]. *)
Fixpoint c_str (l : list Z) : list Z :=
  match l with [] => [] | b :: l => if b =? 0 then [] else b :: c_str l end.

Section hex_dump.
Context `{BoostFormat}.

Definition endl : string := newline.
Definition show_buff (buff : list Z) : string :=
  String.append (string_format "  %s" [Str (text (c_str buff))]) endl.

Definition printable (b : Z) : Z := if (b <? 0x20) || (0x7e <? b) then 46 else b.

(** One byte's turn: the row number when a row begins, the byte, the text column. *)
Definition dump_byte (i b : Z) (buff : list Z) (out : string) : list Z * string :=
  let out :=
    if i mod 16 =? 0 then
      String.append (String.append out (if i =? 0 then EmptyString else show_buff buff))
        (string_format "%02x   " [Num i])
    else out in
  (zinsert (i mod 16 + 1) 0 (zinsert (i mod 16) (printable b) buff),
   String.append out (string_format " %02x" [Num b])).

Fixpoint dump_bytes (i : Z) (data : list Z) (buff : list Z) (out : string) : list Z * string :=
  match data with
  | [] => (buff, out)
  | b :: data => let '(buff, out) := dump_byte i b buff out in dump_bytes (i + 1) data buff out
  end.

(** Up to the end of the row. *)
Definition fill_row (i : Z) : string :=
  String.concat EmptyString (replicate (Z.to_nat ((- i) mod 16)) "   "%string).

Definition hex_dump (data : list Z) : string :=
  match data with
  | [] => String.append "NULL" endl
  | _ =>
      let '(buff, out) := dump_bytes 0 data (replicate 17 0) EmptyString in
      String.append out (String.append (fill_row (zlen data)) (show_buff buff))
  end.
End hex_dump.

(** ** Properties *)

Definition write_law (w : write_answer) : Prop := forall len, 0 < len -> (w len).1 <= len.

Lemma write_to_fd_ok outs : forall content len done,
  Forall write_law outs -> 0 <= len <= zlen content ->
  let '(r, written) := write_to_fd outs content len done in
  exists k, written = done ++ ztake k content /\ 0 <= k <= len /\
  match r with
  | Some (0, e) => k = len
  | Some (res, e) => res = -1 /\ is_Some e /\ k < len
  | None => k < len
  end.
Proof.
  induction outs as [|write outs IH]; intros content len done Hlaw Hlen; cbn [write_to_fd];
    destruct (Z.leb_spec len 0).
  1, 3: exists 0; split_and!; [by rewrite app_nil_r|lia..].
  - exists 0. split_and!; [by rewrite app_nil_r|lia..].
  - inversion Hlaw as [|? ? Hw Hlaw']; subst. specialize (Hw len ltac:(lia)).
    destruct (write len) as [res errno]. cbn in Hw.
    destruct ((res <? 0) && (errno =? EINTR)); [by apply IH|].
    destruct (Z.leb_spec res 0).
    + exists 0. split_and!; [by rewrite app_nil_r|lia|lia|done|by eexists|lia].
    + specialize (IH (zdrop res content) (len - res) (done ++ ztake res content) Hlaw').
      destruct (write_to_fd outs _ _ _) as [r written].
      destruct IH as (k & -> & Hk & Hr); [rewrite zlen_zdrop; lia|].
      exists (res + k). split; [|split; [lia|]].
      * by rewrite <- app_assoc, ztake_add by lia.
      * destruct r as [[[|p|p] e]|]; intuition lia.
Qed.

(** [write_to_fd] writes the whole content or reports an error: on success exactly
    the first [len] bytes are written, in order, whatever the lengths of the partial
    writes and the interruptions; on an error less than that, and [errno] is set. *)
Theorem write_to_fd_complete outs content len :
  Forall write_law outs -> 0 <= len <= zlen content ->
  let '(r, written) := write_to_fd outs content len [] in
  match r with
  | Some (0, _) => written = ztake len content
  | Some (res, e) =>
      res = -1 /\ is_Some e /\ exists k, 0 <= k < len /\ written = ztake k content
  | None => exists k, 0 <= k < len /\ written = ztake k content
  end.
Proof.
  intros Hlaw Hlen. pose proof (write_to_fd_ok outs content len [] Hlaw Hlen) as H.
  destruct (write_to_fd outs content len []) as [r written].
  destruct H as (k & -> & Hk & Hr). cbn [app].
  destruct r as [[[|p|p] e]|]; [by subst| | |exists k; by split; [lia|]];
    destruct Hr as (? & ? & ?); (split; [done|]; split; [done|]); exists k; by split; [lia|].
Qed.

Lemma write_to_fd_complete_witness :
  write_to_fd [fun len => (Z.min len 2, 0); fun _ => (-1, EINTR); fun len => (len, 0)] [7; 8; 9] 3 [] =
    (Some (0, None), [7; 8; 9]) /\
  (let '(r, written) :=
     write_to_fd [fun len => (Z.min len 2, 0); fun _ => (-1, EINTR); fun len => (len, 0)] [7; 8; 9] 3 [] in
   written = ztake 3 [7; 8; 9]).
Proof.
  split; [by vm_compute|].
  apply (write_to_fd_complete
    [fun len => (Z.min len 2, 0); fun _ => (-1, EINTR); fun len => (len, 0)] [7; 8; 9] 3); [|by vm_compute].
  do 3 (constructor; [intros n Hn; cbn; lia|]). constructor.
Defined.

(** ** The search path *)

Lemma components_ne path cur : components path cur <> [].
Proof. revert cur. induction path as [|c path IH]; intros cur; cbn; [done|by case_match]. Qed.

Lemma components_find path : forall cur,
  components path cur =
    match list_find (eq ":"%char) path with
    | None => [cur ++ path]
    | Some (k, _) => (cur ++ take k path) :: components (drop (S k) path) []
    end.
Proof.
  induction path as [|c path IH]; intros cur; cbn [components list_find]; [by rewrite app_nil_r|].
  destruct (Ascii.eqb_spec c ":"%char) as [->|Hne].
  - rewrite decide_True by done. cbn. by rewrite app_nil_r.
  - rewrite decide_False by done. rewrite IH.
    destruct (list_find (eq ":"%char) path) as [[k x]|]; cbn; by rewrite <- app_assoc.
Qed.

Lemma find_on_path_ok executable name n : forall path start,
  (length path - start < n)%nat -> (start <= length path)%nat ->
  find_on_path executable n path name start =
    first_executable executable (candidate name <$> removelast (components (drop start path) [])).
Proof.
  induction n as [|n IH]; intros path start Hn Hs; [lia|]. cbn [find_on_path].
  rewrite components_find. unfold find_char.
  destruct (list_find (eq ":"%char) (drop start path)) as [[k x]|] eqn:Hf; [|done].
  apply list_find_Some in Hf as (Hk & _ & _). apply lookup_lt_Some in Hk.
  rewrite length_drop in Hk. cbn [fmap option_fmap option_map fst].
  destruct (components (drop (S k) (drop start path)) []) as [|d ds] eqn:Hd;
    [by apply components_ne in Hd|].
  cbn [removelast fmap list_fmap first_executable app]. unfold candidate at 1, sub.
  replace (start + k - start)%nat with k by lia. case_match; [done|].
  rewrite IH by lia. rewrite drop_drop in Hd. replace (start + S k)%nat with (S (start + k)) in Hd by lia.
  by rewrite Hd.
Qed.

(** [find_program_on_path] yields the first executable candidate among the
    components of the path but the last one, which is never looked at; without a
    candidate, the empty string.  The loop ends. *)
Theorem program_search executable path name :
  find_program_on_path executable path name =
    first_executable executable (searched path name).
Proof. unfold find_program_on_path, searched. rewrite find_on_path_ok by lia. done. Qed.
