(* ===== verification/IpConfig.v ===== *)
(** * The container's network configuration

    [BinaryWriter] (src/src/anbox/common/binary_writer.{h,cpp}) writes numbers and
    strings into a block of bytes and throws when it is full; [IpConfigBuilder]
    (src/src/anbox/android/ip_config_builder.{h,cpp}) writes with it the file
    Android reads its static address from.  An exception is [None].  [decode] reads
    the format back; the theorem: what is written is read as what was meant, and
    writing fails exactly when the block is too small. *)

From S2P Require Import Prelude Utils.

(** ** BinaryWriter *)

Inductive Order := Big | Little.

(** [begin_] is offset 0 and [end_] the length of the block. *)
Record BinaryWriter := mkWriter {
  block : list Z;
  current_ : Z;
  byte_order_ : Order
}.

(** [little]: the host's order. *)
Definition writer_new (little : bool) (block : list Z) : BinaryWriter :=
  mkWriter block 0 (if little then Little else Big).

Definition set_byte_order (o : Order) (w : BinaryWriter) : BinaryWriter :=
  mkWriter (block w) (current_ w) o.

(** The [n] bytes of a value, the highest first. *)
Fixpoint big_endian (n : nat) (v : Z) : list Z :=
  match n with O => [] | S n => big_endian n (v / 256) ++ [v mod 256] end.

Definition ordered (o : Order) (l : list Z) : list Z :=
  match o with Big => l | Little => reverse l end.

(** [memcpy] to [current_], after the test. *)
Definition put (l : list Z) (w : BinaryWriter) : option BinaryWriter :=
  if zlen (block w) <? current_ w + zlen l then None
  else
    Some (mkWriter
      (ztake (current_ w) (block w) ++ l ++ zdrop (current_ w + zlen l) (block w))
      (current_ w + zlen l) (byte_order_ w)).

Definition write_uint16 (value : Z) (w : BinaryWriter) : option BinaryWriter :=
  put (ordered (byte_order_ w) (big_endian 2 value)) w.

Definition write_uint32 (value : Z) (w : BinaryWriter) : option BinaryWriter :=
  put (ordered (byte_order_ w) (big_endian 4 value)) w.

Definition write_string (s : list Z) (w : BinaryWriter) : option BinaryWriter := put s w.

(** The size becomes a 16-bit number. *)
Definition write_string_with_size (s : list Z) (w : BinaryWriter) : option BinaryWriter :=
  w ← write_uint16 (u16 (zlen s)) w; write_string s w.

Definition bytes_written (w : BinaryWriter) : Z := current_ w.

(** ** IpConfigBuilder *)

Inductive Version := Version1 | Version2.
Inductive Assignment := Static | DHCP.

Definition version_value (v : Version) : Z := match v with Version1 => 1 | Version2 => 2 end.

Record IpConfigBuilder := mkIp {
  version_ : Version;
  assignment_ : Assignment;
  link_address : list Z;
  link_prefix_length : Z;
  gateway_ : list Z;
  dns_servers_ : list (list Z);
  id_ : Z
}.

Definition assignment_key : list Z := bytes_of "ipAssignment".
Definition link_address_key : list Z := bytes_of "linkAddress".
Definition gateway_key : list Z := bytes_of "gateway".
Definition dns_key : list Z := bytes_of "dns".
Definition id_key : list Z := bytes_of "id".
Definition eos_key : list Z := bytes_of "eos".
Definition is_default_gateway : Z := 0.
Definition gateway_is_present : Z := 1.

Definition assignment_to_string (a : Assignment) : list Z :=
  match a with Static => bytes_of "STATIC" | DHCP => bytes_of "DHCP" end.

Fixpoint write_servers (servers : list (list Z)) (w : BinaryWriter) : option BinaryWriter :=
  match servers with
  | [] => Some w
  | s :: servers => w ← write_string_with_size s w; write_servers servers w
  end.

Definition ip_write (c : IpConfigBuilder) (w : BinaryWriter) : option (Z * BinaryWriter) :=
  let w := set_byte_order Big w in
  w ← write_uint32 (version_value (version_ c)) w;
  w ← write_string_with_size assignment_key w;
  w ← write_string_with_size (assignment_to_string (assignment_ c)) w;
  w ← write_string_with_size link_address_key w;
  w ← write_string_with_size (link_address c) w;
  w ← write_uint32 (link_prefix_length c) w;
  w ← write_string_with_size gateway_key w;
  w ← write_uint32 is_default_gateway w;
  w ← write_uint32 gateway_is_present w;
  w ← write_string_with_size (gateway_ c) w;
  w ← write_string_with_size dns_key w;
  w ← write_servers (dns_servers_ c) w;
  w ← write_string_with_size id_key w;
  w ← write_uint32 (id_ c) w;
  w ← write_string_with_size eos_key w;
  Some (bytes_written w, w).

Definition set_version (v : Version) (c : IpConfigBuilder) : IpConfigBuilder :=
  mkIp v (assignment_ c) (link_address c) (link_prefix_length c) (gateway_ c) (dns_servers_ c) (id_ c).
Definition set_assignment (a : Assignment) (c : IpConfigBuilder) : IpConfigBuilder :=
  mkIp (version_ c) a (link_address c) (link_prefix_length c) (gateway_ c) (dns_servers_ c) (id_ c).
Definition set_link_address (address : list Z) (prefix_length : Z) (c : IpConfigBuilder) :
    IpConfigBuilder :=
  mkIp (version_ c) (assignment_ c) address prefix_length (gateway_ c) (dns_servers_ c) (id_ c).
Definition set_gateway (gateway : list Z) (c : IpConfigBuilder) : IpConfigBuilder :=
  mkIp (version_ c) (assignment_ c) (link_address c) (link_prefix_length c) gateway (dns_servers_ c) (id_ c).
Definition set_dns_servers (servers : list (list Z)) (c : IpConfigBuilder) : IpConfigBuilder :=
  mkIp (version_ c) (assignment_ c) (link_address c) (link_prefix_length c) (gateway_ c) servers (id_ c).
Definition set_id (id : Z) (c : IpConfigBuilder) : IpConfigBuilder :=
  mkIp (version_ c) (assignment_ c) (link_address c) (link_prefix_length c) (gateway_ c) (dns_servers_ c) id.

(** ** The format *)

Definition str (s : list Z) : list Z := big_endian 2 (u16 (zlen s)) ++ s.

(** What should be in the block. *)
Definition encode (c : IpConfigBuilder) : list Z :=
  big_endian 4 (version_value (version_ c)) ++
  str assignment_key ++ str (assignment_to_string (assignment_ c)) ++
  str link_address_key ++ str (link_address c) ++ big_endian 4 (link_prefix_length c) ++
  str gateway_key ++ big_endian 4 is_default_gateway ++ big_endian 4 gateway_is_present ++
  str (gateway_ c) ++
  str dns_key ++ concat (str <$> dns_servers_ c) ++
  str id_key ++ big_endian 4 (id_ c) ++ str eos_key.

(** Readers: a value and what follows it. *)
Definition reader (A : Type) : Type := list Z -> option (A * list Z).

Fixpoint get_int (n : nat) (acc : Z) : reader Z := fun l =>
  match n, l with
  | O, _ => Some (acc, l)
  | S n, b :: l => get_int n (256 * acc + b) l
  | S n, [] => None
  end.

Definition get_str : reader (list Z) := fun l =>
  '(n, l) ← get_int 2 0 l;
  if zlen l <? n then None else Some (ztake n l, zdrop n l).

Definition expect (key : list Z) : reader unit := fun l =>
  '(s, l) ← get_str l; if decide (s = key) then Some (tt, l) else None.

Definition get_version : reader Version := fun l =>
  '(v, l) ← get_int 4 0 l;
  if v =? 1 then Some (Version1, l) else if v =? 2 then Some (Version2, l) else None.

Definition get_assignment : reader Assignment := fun l =>
  '(s, l) ← get_str l;
  if decide (s = assignment_to_string Static) then Some (Static, l)
  else if decide (s = assignment_to_string DHCP) then Some (DHCP, l) else None.

(** Up to the key that follows the servers. *)
Fixpoint get_servers (n : nat) : reader (list (list Z)) := fun l =>
  match n with
  | O => None
  | S n =>
      '(s, l) ← get_str l;
      if decide (s = id_key) then Some ([], l)
      else '(ss, l) ← get_servers n l; Some (s :: ss, l)
  end.

Definition decode (l : list Z) : option IpConfigBuilder :=
  '(version, l) ← get_version l;
  '(_, l) ← expect assignment_key l;
  '(assignment, l) ← get_assignment l;
  '(_, l) ← expect link_address_key l;
  '(address, l) ← get_str l;
  '(prefix, l) ← get_int 4 0 l;
  '(_, l) ← expect gateway_key l;
  '(_, l) ← get_int 4 0 l;
  '(_, l) ← get_int 4 0 l;
  '(gateway, l) ← get_str l;
  '(_, l) ← expect dns_key l;
  '(servers, l) ← get_servers (length l) l;
  '(id, l) ← get_int 4 0 l;
  '(_, l) ← expect eos_key l;
  if decide (l = []) then Some (mkIp version assignment address prefix gateway servers id) else None.

(** ** Writing *)

Definition writer_wf (w : BinaryWriter) : Prop := 0 <= current_ w <= zlen (block w).

(** [m] writes [l] in the high-first order. *)
Definition writes (l : list Z) (m : BinaryWriter -> option BinaryWriter) : Prop :=
  forall w, writer_wf w -> byte_order_ w = Big -> m w = put l w.

Lemma put_some l w w' :
  writer_wf w -> put l w = Some w' ->
  writer_wf w' /\ byte_order_ w' = byte_order_ w /\ zlen (block w') = zlen (block w) /\
  current_ w' = current_ w + zlen l /\
  ztake (current_ w') (block w') = ztake (current_ w) (block w) ++ l.
Proof.
  intros Hw. unfold put. pose proof (zlen_nonneg l).
  destruct (Z.ltb_spec (zlen (block w)) (current_ w + zlen l)); [done|]. intros [= <-].
  unfold writer_wf in *. cbn [block current_ byte_order_].
  assert (Hlen : zlen (ztake (current_ w) (block w) ++ l ++ zdrop (current_ w + zlen l) (block w)) =
    zlen (block w)) by (rewrite !zlen_app, zlen_ztake, zlen_zdrop; lia).
  rewrite Hlen. split_and!; try (done || lia).
  rewrite app_assoc. apply ztake_app_eq. rewrite zlen_app, zlen_ztake; lia.
Qed.

Lemma put_put l1 l2 w : writer_wf w -> (put l1 w ≫= put l2) = put (l1 ++ l2) w.
Proof.
  intros Hw. pose proof (zlen_nonneg l1). pose proof (zlen_nonneg l2).
  destruct (put l1 w) as [w1|] eqn:H1; cbn [mbind option_bind].
  - destruct (put_some l1 w w1 Hw H1) as (Hw1 & Ho & Hlen & Hcur & Htake).
    rewrite Hcur in Htake.
    assert (Hdrop : forall n, current_ w + zlen l1 <= n -> zdrop n (block w1) = zdrop n (block w)).
    { intros n Hn. unfold put in H1. case_match; [done|]. simplify_eq. cbn [block].
      rewrite app_assoc, zdrop_app_ge by (unfold writer_wf in Hw; rewrite zlen_app, zlen_ztake; lia).
      unfold writer_wf in Hw. rewrite zlen_app, zlen_ztake by lia. unfold zdrop.
      rewrite drop_drop. f_equal. lia. }
    unfold put at 1. rewrite Hlen, Hcur, Htake, Ho, Hdrop by lia.
    unfold put. rewrite zlen_app, <- !app_assoc, <- !Z.add_assoc. done.
  - unfold put in *. rewrite zlen_app. case_match; [|done].
    destruct (Z.ltb_spec (zlen (block w)) (current_ w + (zlen l1 + zlen l2))); [done|lia].
Qed.

Lemma writes_bind l1 l2 m1 m2 :
  writes l1 m1 -> writes l2 m2 -> writes (l1 ++ l2) (fun w => w ← m1 w; m2 w).
Proof.
  intros H1 H2 w Hw Ho. rewrite H1, <- put_put by done.
  destruct (put l1 w) as [w1|] eqn:Hp; [|done]. cbn.
  destruct (put_some l1 w w1 Hw Hp) as (Hw1 & Ho1 & _). apply H2; congruence.
Qed.

Lemma writes_uint16 v : writes (big_endian 2 v) (write_uint16 v).
Proof. intros w _ Ho. unfold write_uint16. by rewrite Ho. Qed.

Lemma writes_uint32 v : writes (big_endian 4 v) (write_uint32 v).
Proof. intros w _ Ho. unfold write_uint32. by rewrite Ho. Qed.

Lemma writes_str s : writes (str s) (write_string_with_size s).
Proof. unfold str. apply (writes_bind _ _ (write_uint16 _)); [apply writes_uint16|by intros w]. Qed.

Lemma writes_nil : writes [] (fun w => Some w).
Proof.
  intros [b c o] [Hw Hl] _. unfold put. cbn in *. rewrite Z.add_0_r.
  destruct (Z.ltb_spec (zlen b) c); [lia|]. by rewrite ztake_zdrop.
Qed.

Lemma writes_servers servers : writes (concat (str <$> servers)) (write_servers servers).
Proof.
  induction servers as [|s servers IH]; [apply writes_nil|].
  apply (writes_bind _ _ (write_string_with_size s)); [apply writes_str|done].
Qed.

Lemma ip_write_put c w :
  writer_wf w ->
  ip_write c w = (w' ← put (encode c) (set_byte_order Big w); Some (bytes_written w', w')).
Proof.
  intros Hw. unfold ip_write.
  assert (Hall : writes (encode c) (fun w =>
    w ← write_uint32 (version_value (version_ c)) w;
    w ← write_string_with_size assignment_key w;
    w ← write_string_with_size (assignment_to_string (assignment_ c)) w;
    w ← write_string_with_size link_address_key w;
    w ← write_string_with_size (link_address c) w;
    w ← write_uint32 (link_prefix_length c) w;
    w ← write_string_with_size gateway_key w;
    w ← write_uint32 is_default_gateway w;
    w ← write_uint32 gateway_is_present w;
    w ← write_string_with_size (gateway_ c) w;
    w ← write_string_with_size dns_key w;
    w ← write_servers (dns_servers_ c) w;
    w ← write_string_with_size id_key w;
    w ← write_uint32 (id_ c) w;
    write_string_with_size eos_key w)).
  { unfold encode. repeat (apply writes_bind; [first
      [ apply writes_uint32 | apply writes_str | apply writes_servers ]|]). apply writes_str. }
  rewrite <- (Hall (set_byte_order Big w)) by done.
  cbv beta zeta.
  repeat match goal with
  | |- (?m ≫= _) = _ => destruct m as [?|]; cbn [mbind option_bind]; [|reflexivity]
  end. reflexivity.
Qed.

(** ** Reading *)

Definition value (acc : Z) (l : list Z) : Z := foldl (fun a b => 256 * a + b) acc l.

Lemma get_int_app l1 l acc : get_int (length l1) acc (l1 ++ l) = Some (value acc l1, l).
Proof. revert acc. induction l1 as [|b l1 IH]; intros acc; [done|]. cbn. apply IH. Qed.

Lemma length_big_endian n v : length (big_endian n v) = n.
Proof. revert v. induction n as [|n IH]; intros v; [done|]. cbn. rewrite length_app, IH. cbn. lia. Qed.

Lemma value_big_endian n : forall v, 0 <= v < 256 ^ Z.of_nat n -> value 0 (big_endian n v) = v.
Proof.
  induction n as [|n IH]; intros v Hv; [cbn in *; lia|].
  cbn [big_endian]. unfold value. rewrite foldl_app. cbn. fold (value 0 (big_endian n (v / 256))).
  rewrite IH.
  - pose proof (Z.div_mod v 256). lia.
  - split; [apply Z.div_pos; lia|]. apply Z.div_lt_upper_bound; [lia|].
    rewrite <- Z.pow_succ_r by lia. rewrite <- Nat2Z.inj_succ. lia.
Qed.

Lemma get_int_be n v l :
  0 <= v < 256 ^ Z.of_nat n -> get_int n 0 (big_endian n v ++ l) = Some (v, l).
Proof.
  intros Hv. rewrite <- (length_big_endian n v) at 1. rewrite get_int_app.
  by rewrite value_big_endian.
Qed.

Definition short_string (s : list Z) : Prop := zlen s < 65536.

Lemma get_str_str s l : short_string s -> get_str (str s ++ l) = Some (s, l).
Proof.
  intros Hs. unfold get_str, str, short_string in *. pose proof (zlen_nonneg s).
  rewrite wrapu_id by (unfold in_u; lia). rewrite <- app_assoc, get_int_be by (cbn; lia).
  cbn [mbind option_bind]. rewrite zlen_app. pose proof (zlen_nonneg l).
  destruct (Z.ltb_spec (zlen s + zlen l) (zlen s)); [lia|].
  by rewrite ztake_app_exact, zdrop_app_exact.
Qed.

Lemma expect_str key l : short_string key -> expect key (str key ++ l) = Some (tt, l).
Proof.
  intros Hk. unfold expect. rewrite get_str_str by done. cbn. by rewrite decide_True.
Qed.

Lemma get_servers_str servers : forall n l,
  Forall (fun s => short_string s /\ s <> id_key) servers -> (length servers < n)%nat ->
  get_servers n (concat (str <$> servers) ++ str id_key ++ l) = Some (servers, l).
Proof.
  induction servers as [|s servers IH]; intros n l Hs Hn; (destruct n as [|n]; [lia|]);
    cbn [get_servers fmap list_fmap concat app].
  - rewrite get_str_str by done. cbn. done.
  - inversion Hs as [|? ? [Hshort Hne] Hs']; subst. rewrite <- app_assoc, get_str_str by done.
    cbn [mbind option_bind]. rewrite decide_False by done. cbn in Hn.
    rewrite IH by (done || lia). done.
Qed.

(** What the format can hold: numbers of 32 bits, strings of 16-bit length, and no
    server called like the key that ends their list. *)
Record ip_ok (c : IpConfigBuilder) : Prop := {
  ok_address : short_string (link_address c);
  ok_prefix : 0 <= link_prefix_length c < 2 ^ 32;
  ok_gateway : short_string (gateway_ c);
  ok_servers : Forall (fun s => short_string s /\ s <> id_key) (dns_servers_ c);
  ok_id : 0 <= id_ c < 2 ^ 32
}.

Lemma servers_length servers l : (length servers < length (concat (str <$> servers) ++ str id_key ++ l))%nat.
Proof.
  rewrite !length_app. change (length (str id_key)) with 4%nat.
  induction servers as [|s servers IH]; [cbn; lia|].
  cbn [fmap list_fmap concat length]. rewrite length_app.
  assert (2 <= length (str s))%nat by (unfold str; rewrite length_app, length_big_endian; lia). lia.
Qed.

Lemma get_version_be v l : get_version (big_endian 4 (version_value v) ++ l) = Some (v, l).
Proof. unfold get_version. rewrite get_int_be by (destruct v; cbn; lia). by destruct v. Qed.

Lemma get_assignment_str a l : get_assignment (str (assignment_to_string a) ++ l) = Some (a, l).
Proof. unfold get_assignment. rewrite get_str_str by (by destruct a). by destruct a. Qed.

Lemma expect_last key : short_string key -> expect key (str key) = Some (tt, []).
Proof. intros Hk. rewrite <- (app_nil_r (str key)). by apply expect_str. Qed.

(** One reader of [decode] consumes what [encode] wrote for it. *)
Ltac read_one :=
  first
    [ rewrite get_version_be
    | rewrite get_assignment_str
    | rewrite expect_str by reflexivity
    | rewrite expect_last by reflexivity
    | rewrite get_servers_str by (done || apply servers_length)
    | rewrite get_str_str by done
    | rewrite get_int_be by (done || (cbn; lia)) ];
  cbn [mbind option_bind].

Lemma decode_encode c : ip_ok c -> decode (encode c) = Some c.
Proof.
  intros []. unfold decode, encode. repeat read_one. by destruct c.
Qed.

(** ** The properties *)


(** A configuration as the container's network has it. *)
Definition container_ip : IpConfigBuilder :=
  set_id 0 (set_dns_servers [bytes_of "8.8.8.8"; bytes_of "8.8.4.4"]
    (set_gateway (bytes_of "192.168.250.1")
      (set_link_address (bytes_of "192.168.250.2") 24
        (set_assignment Static (set_version Version2 (mkIp Version1 DHCP [] 0 [] [] 7)))))).


(** The 16 bits of a size: a string of 65536 bytes is announced as empty, and its bytes
    stand where the next value is read. *)
Lemma size_truncated s l : zlen s = 65536 -> get_str (str s ++ l) = Some ([], s ++ l).
Proof.
  intros Hs. unfold get_str, str. rewrite Hs, <- app_assoc. cbn [app].
  change (u16 65536) with 0. rewrite get_int_be by (cbn; lia). cbn [mbind option_bind].
  pose proof (zlen_nonneg (s ++ l)). destruct (Z.ltb_spec (zlen (s ++ l)) 0); [lia|done].
Qed.
