(* ===== verification/Rect.v ===== *)
(** * Rectangles

    [src/src/anbox/graphics/rect.{h,cpp}]: four 32-bit coordinates.  Arithmetic
    wraps where the program's signed overflow would (the theorems bound it away).
    Reading a rectangle from text goes through [string_split] and
    [boost::lexical_cast], which are parameters; a cast that throws leaves the
    rectangle as it was, as the function's [catch] does. *)

From stdpp Require Import pretty.
From S2P Require Import Prelude.

Record Rect := mkRect {
  left : Z;
  top : Z;
  right : Z;
  bottom : Z
}.

#[export] Instance Rect_eq_dec : EqDecision Rect.
Proof. solve_decision. Defined.

Definition Invalid : Rect := mkRect (-1) (-1) (-1) (-1).
Definition Empty : Rect := mkRect 0 0 0 0.

Definition rect_of_size (width height : Z) : Rect := mkRect 0 0 width height.

Definition width (r : Rect) : Z := i32 (right r - left r).
Definition height (r : Rect) : Z := i32 (bottom r - top r).
Definition valid (r : Rect) : bool := (0 <=? width r) && (0 <=? height r).

Definition merge (r rhs : Rect) : Rect :=
  mkRect (Z.min (left r) (left rhs)) (Z.min (top r) (top rhs))
    (Z.max (right r) (right rhs)) (Z.max (bottom r) (bottom rhs)).

Definition translate (r : Rect) (x y : Z) : Rect :=
  mkRect x y (i32 (x + width r)) (i32 (y + height r)).

Definition rect_resize (r : Rect) (w h : Z) : Rect :=
  mkRect (left r) (top r) (i32 (left r + w)) (i32 (top r + h)).

(** [operator<<]. *)
Definition rect_print (r : Rect) : string :=
  String.concat EmptyString
    ["{"; pretty (left r); ","; pretty (top r); ","; pretty (right r); ",";
     pretty (bottom r); "} {"; pretty (width r); ","; pretty (height r); "}"]%string.

(** [operator>>] on the word read from the stream; [split] is [string_split] at a
    comma, [lexical_cast] gives [None] where it throws. *)
Definition rect_parse (split : string -> list string) (lexical_cast : string -> option Z)
    (str : string) (r : Rect) : Rect :=
  match split str with
  | [a; b] =>
      match lexical_cast a, lexical_cast b with
      | Some x, Some y => mkRect 0 0 x y
      | _, _ => r
      end
  | [a; b; c; d] =>
      match lexical_cast a, lexical_cast b, lexical_cast c, lexical_cast d with
      | Some x, Some y, Some z, Some t => mkRect x y z t
      | _, _, _, _ => r
      end
  | _ => r
  end.

(** ** Properties *)

(** The sides are in order and their lengths fit. *)
Definition proper (r : Rect) : Prop :=
  left r <= right r /\ top r <= bottom r /\
  right r - left r < 2 ^ 31 /\ bottom r - top r < 2 ^ 31.

Definition within (a b : Rect) : Prop :=
  left b <= left a /\ top b <= top a /\ right a <= right b /\ bottom a <= bottom b.

Lemma width_proper r : proper r -> width r = right r - left r.
Proof. intros (?&?&?&?). apply wraps_id; unfold in_s; lia. Qed.

Lemma height_proper r : proper r -> height r = bottom r - top r.
Proof. intros (?&?&?&?). apply wraps_id; unfold in_s; lia. Qed.

(** Merging gives the least rectangle that holds both, whatever the order;
    moving a rectangle keeps its size, resizing keeps its corner, as long as the
    new edges fit 32 bits. *)
Theorem rect_operations (r s : Rect) :
  (within r (merge r s) /\ within s (merge r s) /\
   forall t, within r t -> within s t -> within (merge r s) t) /\
  merge r s = merge s r /\
  (forall x y, proper r -> in_s 32 (x + (right r - left r)) -> in_s 32 (y + (bottom r - top r)) ->
     left (translate r x y) = x /\ top (translate r x y) = y /\
     width (translate r x y) = width r /\ height (translate r x y) = height r) /\
  (forall w h, 0 <= w < 2 ^ 31 -> 0 <= h < 2 ^ 31 ->
     in_s 32 (left r + w) -> in_s 32 (top r + h) ->
     width (rect_resize r w h) = w /\ height (rect_resize r w h) = h).
Proof.
  split_and!.
  - unfold within, merge. cbn. lia.
  - unfold within, merge. cbn. lia.
  - unfold within, merge. cbn. intros. lia.
  - unfold merge. f_equal; lia.
  - intros x y Hr Hx Hy. unfold translate. rewrite width_proper, height_proper by done.
    rewrite !wraps_id by (done || lia). cbn.
    destruct Hr as (?&?&?&?). unfold in_s in *.
    split_and!; try done; unfold width, height; cbn; rewrite wraps_id; unfold in_s; lia.
  - intros w h Hw Hh Hx Hy. unfold rect_resize, width, height. cbn.
    rewrite !(wraps_id 32 (_ + _)) by (done || lia).
    rewrite !wraps_id by (unfold in_s; lia). lia.
Qed.
