(* ===== verification/Composer.v ===== *)
(** * Mapping layers to windows

    [src/src/anbox/graphics/]: a [Renderable] is a layer of a frame
    (emugl/Renderable.{h,cpp}; its transformation, always the default, is left
    out).  A strategy groups the layers of a frame by window:
    [multi_window_process_layers] (multi_window_composer_strategy.cpp) by the task
    id in the layer's name, with coordinates made relative to the window's largest
    layer, [single_window_process_layers] (single_window_composer_strategy.cpp)
    all into one window.  [LayerComposer] (layer_composer.cpp) draws the result.
    A window is its pointer, an integer; [find_window] is
    [wm::Manager::find_window_for_task]. *)

From stdpp Require Import sorting.
From Stdlib Require Import Ascii SpecFloat.
From S2P Require Import Prelude Utils Rect.

(** ** Renderables *)

Record Renderable := mkRenderable {
  name : string;
  buffer : Z;
  alpha : spec_float;
  screen_position : Rect;
  crop : Rect
}.

Definition set_screen_position (r : Renderable) (rect : Rect) : Renderable :=
  mkRenderable (name r) (buffer r) (alpha r) rect (crop r).

(** ** Names of layers *)

Fixpoint digits_value (acc : Z) (s : string) : Z :=
  match s with
  | EmptyString => acc
  | String c s =>
      if is_digit c then digits_value (acc * 10 + Z.of_nat (Ascii.nat_of_ascii c - 48)) s else acc
  end.

Definition scan_digits (s : string) : option Z :=
  match s with
  | EmptyString => None
  | String c _ => if is_digit c then Some (digits_value 0 s) else None
  end.

(** [sscanf]'s [%d]: white space, a sign, digits.  [None] when nothing matched. *)
Fixpoint scan_int (s : string) : option Z :=
  match s with
  | EmptyString => None
  | String c s' =>
      if is_space c then scan_int s'
      else if Ascii.eqb c "-"%char then Z.opp <$> scan_digits s'
      else if Ascii.eqb c "+"%char then scan_digits s'
      else scan_digits s
  end.

Definition surface_prefix : string := "org.anbox.surface.".

(** The task a layer belongs to. *)
Definition layer_task (n : string) : option Z :=
  if string_starts_with n surface_prefix then
    match scan_int (String.substring (String.length surface_prefix) (String.length n) n) with
    | Some id => if i32 id =? 0 then None else Some (i32 id)
    | None => None
    end
  else None.

(** ** The multi-window strategy *)

Section multi.
Variable find_window : Z -> option Z.

Definition layer_window (r : Renderable) : option Z := layer_task (name r) ≫= find_window.

(** The first loop. *)
Fixpoint group_layers (rs : list Renderable) (win_layers : gmap Z (list Renderable)) :
    gmap Z (list Renderable) :=
  match rs with
  | [] => win_layers
  | r :: rs =>
      match layer_window r with
      | None => group_layers rs win_layers
      | Some w =>
          match win_layers !! w with
          | None => group_layers rs (<[w := [r]]> win_layers)
          | Some l => group_layers rs (<[w := l ++ [r]]> win_layers)
          end
      end
  end.

Definition layer_area (r : Renderable) : Z :=
  i32 (width (screen_position r) * height (screen_position r)).

Fixpoint largest_frame (rs : list Renderable) (frame : Rect) (max_layer_area : Z) : Rect :=
  match rs with
  | [] => frame
  | r :: rs =>
      if layer_area r <? max_layer_area then largest_frame rs frame max_layer_area
      else largest_frame rs (screen_position r) (layer_area r)
  end.

(** Coordinates relative to the window. *)
Definition relative_to (frame : Rect) (r : Renderable) : Renderable :=
  let p := screen_position r in
  set_screen_position r
    (mkRect (i32 (left p - left frame + left (crop r)))
            (i32 (top p - top frame + top (crop r)))
            (i32 (right p - left frame + left (crop r)))
            (i32 (bottom p - top frame + top (crop r)))).

Definition place_layers (rs : list Renderable) : list Renderable :=
  relative_to (largest_frame rs Invalid (-1)) <$> rs.

Definition multi_window_process_layers (rs : list Renderable) : gmap Z (list Renderable) :=
  place_layers <$> group_layers rs ∅.

(** ** The single-window strategy

    The window may be null: [None]. *)
Definition sprite_name : string := "Sprite".

Definition single_window_process_layers (rs : list Renderable) :
    option Z * list Renderable :=
  (find_window 0, List.filter (fun r => negb (String.eqb (name r) sprite_name)) rs).

(** ** LayerComposer

    The draw calls, window by window in pointer order. *)
Variable window_frame : Z -> Rect.

Definition submit_layers (win_layers : gmap Z (list Renderable)) :
    list (Z * Rect * list Renderable) :=
  (fun w => (w, rect_of_size (width (window_frame w)) (height (window_frame w)),
             default [] (win_layers !! w)))
    <$> merge_sort Z.le (fst <$> map_to_list win_layers).

(** ** Properties *)

(** The layers of a window, in the order of the frame. *)
Definition layers_of (w : Z) (rs : list Renderable) : list Renderable :=
  filter (fun r => layer_window r = Some w) rs.

Lemma group_layers_spec rs : forall m w,
  group_layers rs m !! w =
  match m !! w with
  | Some l => Some (l ++ layers_of w rs)
  | None => match layers_of w rs with [] => None | l => Some l end
  end.
Proof.
  unfold layers_of. induction rs as [|r rs IH]; intros m w; cbn [group_layers].
  { destruct (m !! w); [by rewrite app_nil_r|done]. }
  destruct (layer_window r) as [w'|] eqn:Hr.
  - destruct (decide (w' = w)) as [->|Hne].
    + rewrite filter_cons_True by done.
      destruct (m !! w) as [l|] eqn:Hm; rewrite IH, lookup_insert_eq; [|done].
      by rewrite <- app_assoc.
    + rewrite filter_cons_False by congruence.
      destruct (m !! w') as [l|] eqn:Hm; by rewrite IH, lookup_insert_ne by done.
  - rewrite filter_cons_False by congruence. apply IH.
Qed.

Lemma largest_frame_spec rs : forall frame m,
  (largest_frame rs frame m = frame /\ Forall (fun r => layer_area r < m) rs) \/
  (exists r, r ∈ rs /\ largest_frame rs frame m = screen_position r /\ m <= layer_area r /\
     Forall (fun r' => layer_area r' <= layer_area r) rs).
Proof.
  induction rs as [|r rs IH]; intros frame m; cbn [largest_frame]; [by left|].
  destruct (layer_area r <? m) eqn:E.
  - destruct (IH frame m) as [[H1 H2]|(r' & Hr' & H1 & H2 & H3)].
    + left. split; [done|]. constructor; [lia|done].
    + right. exists r'. split_and!; [by right|done|done|]. constructor; [lia|done].
  - right. destruct (IH (screen_position r) (layer_area r)) as [[H1 H2]|(r' & Hr' & H1 & H2 & H3)].
    + exists r. split_and!; [by left|done|lia|]. constructor; [lia|].
      eapply Forall_impl; [exact H2|]. cbn. lia.
    + exists r'. split_and!; [by right|done|lia|]. constructor; [lia|done].
Qed.

(** C12: A window is drawn exactly when some layer of the frame names a task it
    shows; it gets all these layers, in the frame's order, with names, buffers,
    alphas and crops as they were and positions made relative to the position of
    one of them, a largest one. *)
Theorem multi_window_layers rs w :
  (multi_window_process_layers rs !! w = None <-> layers_of w rs = []) /\
  (layers_of w rs <> [] -> Forall (fun r => -1 <= layer_area r) (layers_of w rs) ->
   exists r0, r0 ∈ layers_of w rs /\
     Forall (fun r => layer_area r <= layer_area r0) (layers_of w rs) /\
     multi_window_process_layers rs !! w =
       Some (relative_to (screen_position r0) <$> layers_of w rs)).
Proof.
  unfold multi_window_process_layers. rewrite lookup_fmap, group_layers_spec, lookup_empty.
  split.
  - by destruct (layers_of w rs).
  - intros Hne Hpos.
    destruct (largest_frame_spec (layers_of w rs) Invalid (-1)) as [[_ H]|(r0 & Hin & H1 & _ & H3)].
    + destruct (layers_of w rs) as [|r l]; [done|].
      apply Forall_cons in H as [H _]. apply Forall_cons in Hpos as [Hpos _]. lia.
    + exists r0. split_and!; [done|done|]. unfold place_layers.
      destruct (layers_of w rs) as [|r l]; [done|]. cbn [fmap option_fmap option_map].
      by rewrite H1.
Qed.
End multi.

Lemma multi_window_layers_witness :
  let find_window t := if t =? 7 then Some 100 else None in
  let r1 := mkRenderable "org.anbox.surface.7" 1 S754_nan (mkRect 10 20 110 220) Empty in
  let r2 := mkRenderable "org.anbox.surface.7" 2 S754_nan (mkRect 30 40 50 60) Empty in
  let r3 := mkRenderable "org.anbox.surface.8" 3 S754_nan (mkRect 0 0 500 500) Empty in
  layers_of find_window 100 [r1; r3; r2] <> [] /\
  exists r0, r0 ∈ layers_of find_window 100 [r1; r3; r2] /\
    Forall (fun r => layer_area r <= layer_area r0) (layers_of find_window 100 [r1; r3; r2]) /\
    multi_window_process_layers find_window [r1; r3; r2] !! 100 =
      Some (relative_to (screen_position r0) <$> layers_of find_window 100 [r1; r3; r2]).
Proof.
  intros find_window r1 r2 r3. split; [by vm_compute|].
  apply (multi_window_layers find_window [r1; r3; r2] 100); [by vm_compute|].
  change (layers_of find_window 100 [r1; r3; r2]) with [r1; r2].
  repeat constructor; by vm_compute.
Defined.
