(* ===== verification/Floating.v ===== *)
(** * Binary floating point

    [float] and [double] of the C++ code are the [spec_float]s of the Standard Library
    with 24 and 53 digits: the operations of IEEE 754, rounded to nearest, as functions
    that can be evaluated.  [denotes] says what number a [spec_float] is, and the lemmas
    that a conversion or a sum whose result has few enough digits is exact. *)

From Stdlib Require Import SpecFloat.
From S2P Require Import Prelude.

(** ** The operations the code uses *)

Definition f32 (z : Z) : spec_float := binary_normalize 24 128 z 0 false.
Definition f32_add : spec_float -> spec_float -> spec_float := SFadd 24 128.
Definition f32_sub : spec_float -> spec_float -> spec_float := SFsub 24 128.
Definition f32_mul : spec_float -> spec_float -> spec_float := SFmul 24 128.
Definition f32_div : spec_float -> spec_float -> spec_float := SFdiv 24 128.
Definition f64 (z : Z) : spec_float := binary_normalize 53 1024 z 0 false.
Definition f64_add : spec_float -> spec_float -> spec_float := SFadd 53 1024.
Definition f64_mul : spec_float -> spec_float -> spec_float := SFmul 53 1024.
Definition f64_div : spec_float -> spec_float -> spec_float := SFdiv 53 1024.

(** A double as a float, rounded to nearest; a float is a double as it is. *)
Definition to_f32 (x : spec_float) : spec_float :=
  match x with
  | S754_finite s m e => binary_normalize 24 128 (cond_Zopp s (Zpos m)) e s
  | _ => x
  end.

(** The integral part, as a conversion to an integer takes it. *)
Definition trunc (x : spec_float) : Z :=
  match x with
  | S754_finite s m e => Z.quot (cond_Zopp s (Zpos m) * 2 ^ Z.max e 0) (2 ^ Z.max (- e) 0)
  | _ => 0
  end.

(** To [int]; what does not fit has no defined result, x86 gives the smallest integer. *)
Definition to_int (x : spec_float) : Z :=
  match x with
  | S754_zero _ | S754_finite _ _ _ =>
      if (- 2 ^ 31 <=? trunc x) && (trunc x <? 2 ^ 31) then trunc x else - 2 ^ 31
  | _ => - 2 ^ 31
  end.

(** A [float] as the 32-bit word that is sent for it: sign, exponent, fraction; a NaN
    is the quiet one. *)
Definition bits_of_f32 (x : spec_float) : Z :=
  let sign (s : bool) := if s then 2 ^ 31 else 0 in
  match x with
  | S754_zero s => sign s
  | S754_infinity s => sign s + 255 * 2 ^ 23
  | S754_nan => 255 * 2 ^ 23 + 2 ^ 22
  | S754_finite s m e =>
      sign s + (if Zpos m <? 2 ^ 23 then Zpos m else (e + 150) * 2 ^ 23 + (Zpos m - 2 ^ 23))
  end.

Definition f32_of_bits (z : Z) : spec_float :=
  let s := 2 ^ 31 <=? z in
  let exponent := (z / 2 ^ 23) mod 2 ^ 8 in
  let fraction := z mod 2 ^ 23 in
  if exponent =? 255 then if fraction =? 0 then S754_infinity s else S754_nan
  else if exponent =? 0 then
    match fraction with Zpos m => S754_finite s m (-149) | _ => S754_zero s end
  else match fraction + 2 ^ 23 with Zpos m => S754_finite s m (exponent - 150) | _ => S754_nan end.

(** ** The number a float is: [m] times two to the power of [e] *)

Definition denotes (prec : Z) (x : spec_float) (m e : Z) : Prop :=
  match x with
  | S754_zero _ => m = 0
  | S754_finite s p e' =>
      Z.log2 (Zpos p) + 1 = prec /\
      exists k, 0 <= k /\ e' = e - k /\ cond_Zopp s (Zpos p) = m * 2 ^ k
  | _ => False
  end.

Lemma digits_log2 p : Zpos (digits2_pos p) = Z.log2 (Zpos p) + 1.
Proof.
  induction p as [p IH|p IH|]; cbn [digits2_pos]; [| |done].
  - rewrite Pos2Z.inj_succ, IH. change (Zpos p~1) with (2 * Zpos p + 1). by rewrite Z.log2_succ_double.
  - rewrite Pos2Z.inj_succ, IH. change (Zpos p~0) with (2 * Zpos p). by rewrite Z.log2_double.
Qed.

Lemma iter_pos_nat {A} (f : A -> A) n : forall x, SpecFloat.iter_pos f n x = Nat.iter (Pos.to_nat n) f x.
Proof.
  induction n as [n IH|n IH|]; intros x; cbn [SpecFloat.iter_pos]; [| |done]; rewrite !IH.
  - rewrite Pos2Nat.inj_xI. replace (S (2 * Pos.to_nat n)) with (Pos.to_nat n + (Pos.to_nat n + 1))%nat by lia.
    by rewrite !Nat.iter_add.
  - rewrite Pos2Nat.inj_xO. replace (2 * Pos.to_nat n)%nat with (Pos.to_nat n + Pos.to_nat n)%nat by lia.
    by rewrite Nat.iter_add.
Qed.

(** Shifting zeros out to the right. *)
Lemma shr_exact n : forall q, 0 < q ->
  Nat.iter n shr_1 (Build_shr_record (q * 2 ^ Z.of_nat n) false false) = Build_shr_record q false false.
Proof.
  induction n as [|n IH]; intros q Hq; [by rewrite Z.mul_1_r|].
  rewrite Nat.iter_succ_r. rewrite Nat2Z.inj_succ, Z.pow_succ_r by lia.
  replace (q * (2 * 2 ^ Z.of_nat n)) with (2 * (q * 2 ^ Z.of_nat n)) by ring.
  assert (0 < q * 2 ^ Z.of_nat n) by (apply Z.mul_pos_pos; [done|apply Z.pow_pos_nonneg; lia]).
  specialize (IH q Hq). destruct (q * 2 ^ Z.of_nat n) as [|p|p]; [lia| |lia]. exact IH.
Qed.

Lemma shl_exact m n : Zpos (Pos.iter xO m n) = Zpos m * 2 ^ Zpos n.
Proof.
  revert m. induction n as [|n IH] using Pos.peano_ind; intros m; [cbn; lia|].
  rewrite Pos.iter_succ, Pos2Z.inj_succ, Z.pow_succ_r by lia.
  change (Zpos (Pos.iter xO m n)~0) with (2 * Zpos (Pos.iter xO m n)). rewrite IH. ring.
Qed.

Lemma shl_align_exact a e ez : ez <= e -> Zpos (fst (shl_align a e ez)) = Zpos a * 2 ^ (e - ez).
Proof.
  intros Hez. unfold shl_align. destruct (ez - e) as [|d|d] eqn:E; [|lia|].
  - replace (e - ez) with 0 by lia. cbn. lia.
  - replace (e - ez) with (Zpos d) by lia. apply shl_exact.
Qed.

Lemma cond_Zopp_mul (b : bool) u v : cond_Zopp b (u * v) = cond_Zopp b u * v.
Proof. destruct b; cbn; lia. Qed.

Section exact.
Context (prec emax : Z).
Hypothesis Hprec : 0 < prec.

(** A mantissa with all its digits stays as it is. *)
Lemma shr_fexp_full q e : Z.log2 (Zpos q) + 1 = prec -> emin prec emax <= e ->
  shr_fexp prec emax (Zpos q) e loc_Exact = (Build_shr_record (Zpos q) false false, e).
Proof.
  intros Hq He. unfold shr_fexp, fexp. cbn [Zdigits2 shr_record_of_loc]. rewrite digits_log2, Hq.
  replace (Z.max (prec + e - prec) (emin prec emax) - e) with 0 by lia. done.
Qed.

(** With too many digits, the superfluous ones being zeros. *)
Lemma shr_fexp_wide q p n e : Z.log2 (Zpos q) + 1 = prec -> emin prec emax <= e ->
  Zpos p = Zpos q * 2 ^ Zpos n ->
  shr_fexp prec emax (Zpos p) e loc_Exact = (Build_shr_record (Zpos q) false false, e + Zpos n).
Proof.
  intros Hq He Hp. unfold shr_fexp, fexp. cbn [Zdigits2 shr_record_of_loc].
  rewrite digits_log2, Hp, Z.log2_mul_pow2 by lia.
  replace (Z.max _ (emin prec emax) - e) with (Zpos n) by lia. cbn [shr].
  rewrite iter_pos_nat. rewrite <- (positive_nat_Z n). by rewrite shr_exact.
Qed.

(** [q] in [sx] times two to the power of [e]. *)
Lemma binary_round_aux_full sx p q n e : Z.log2 (Zpos q) + 1 = prec -> emin prec emax <= e ->
  0 <= n -> e + n <= emax - prec -> Zpos p = Zpos q * 2 ^ n ->
  binary_round_aux prec emax sx (Zpos p) e loc_Exact = S754_finite sx q (e + n).
Proof.
  intros Hq He Hn Hmax Hp. unfold binary_round_aux.
  assert (shr_fexp prec emax (Zpos p) e loc_Exact = (Build_shr_record (Zpos q) false false, e + n)) as ->.
  { destruct n as [|n|n]; [| |lia].
    - rewrite Z.mul_1_r in Hp. injection Hp as ->. rewrite Z.add_0_r. by apply shr_fexp_full.
    - by apply shr_fexp_wide. }
  cbn [shr_m loc_of_shr_record round_nearest_even]. rewrite shr_fexp_full by (done || lia).
  cbn [shr_m]. by rewrite (proj2 (Z.leb_le _ _)).
Qed.

(** What has at most [prec] digits is kept, whatever zeros it is written with. *)
Lemma binary_normalize_exact m k e s :
  Z.abs m < 2 ^ prec -> 0 <= k -> emin prec emax + prec <= e - k -> e <= emax - prec ->
  denotes prec (binary_normalize prec emax (m * 2 ^ k) (e - k) s) m e.
Proof.
  intros Hm Hk Hmin Hmax.
  assert (Hpos : forall sx p, 0 < Z.abs m -> Zpos p = Z.abs m * 2 ^ k ->
    exists q k', 0 <= k' /\ Zpos q = Z.abs m * 2 ^ k' /\ Z.log2 (Zpos q) + 1 = prec /\
    binary_round prec emax sx p (e - k) = S754_finite sx q (e - k')).
  { intros sx p H0 Hp. pose proof (Z.log2_lt_pow2 (Z.abs m) prec H0) as Hl.
    pose proof (Z.log2_nonneg (Z.abs m)) as Hl0.
    assert (Hd : Z.log2 (Zpos p) = Z.log2 (Z.abs m) + k) by (rewrite Hp, Z.log2_mul_pow2; lia).
    unfold binary_round, fexp. rewrite digits_log2, Hd.
    assert (Hlt : Z.log2 (Z.abs m) < prec) by (apply Z.log2_lt_pow2; lia).
    set (n := prec - 1 - Z.log2 (Z.abs m)).
    destruct (Z.abs m) as [|a|a] eqn:Ea; [lia| |lia].
    assert (Hq : exists q, Zpos q = Zpos a * 2 ^ n /\ Z.log2 (Zpos q) + 1 = prec).
    { exists (Z.to_pos (Zpos a * 2 ^ n)). rewrite Z2Pos.id.
      - split; [done|]. rewrite Z.log2_mul_pow2 by lia. lia.
      - apply Z.mul_pos_pos; [lia|]. apply Z.pow_pos_nonneg; lia. }
    destruct Hq as (q & Hq & Hdq). exists q, n. split; [lia|]. split; [done|]. split; [done|].
    replace (Z.max _ _) with (e - n) by lia. unfold shl_align.
    destruct (e - n - (e - k)) as [|d|d] eqn:Ed.
    - erewrite (binary_round_aux_full sx p q 0 (e - k)); [f_equal; lia|done|lia|lia|lia|].
      rewrite Z.mul_1_r, Hq, Hp. do 2 f_equal. lia.
    - erewrite (binary_round_aux_full sx p q (Zpos d) (e - k)); [f_equal; lia|done|lia|lia|lia|].
      rewrite Hq, Hp, <- Z.mul_assoc, <- Z.pow_add_r by lia. do 2 f_equal. lia.
    - erewrite (binary_round_aux_full sx _ q 0 (e - n)); [f_equal; lia|done|lia|lia|lia|].
      rewrite Z.mul_1_r, shl_exact, Hq, Hp, <- Z.mul_assoc, <- Z.pow_add_r by lia. do 2 f_equal. lia. }
  destruct (Z.eq_dec m 0) as [->|Hz]; [done|].
  assert (Hk2 : 0 < 2 ^ k) by (apply Z.pow_pos_nonneg; lia).
  destruct (m * 2 ^ k) as [|p|p] eqn:E; cbn [binary_normalize].
  - destruct (Z.mul_eq_0 m (2 ^ k)) as [[|] _]; lia.
  - destruct (Hpos false p) as (q & k' & Hk' & Hq & Hd & ->); [lia|nia|]. cbn.
    split; [done|]. exists k'. split; [done|]. split; [done|]. nia.
  - destruct (Hpos true p) as (q & k' & Hk' & Hq & Hd & ->); [lia|nia|]. cbn.
    split; [done|]. exists k'. split; [done|]. split; [done|]. nia.
Qed.

(** The digits of the mantissa are those of the number and the zeros behind them. *)
Lemma full_digits m k s p : Z.log2 (Zpos p) + 1 = prec -> 0 <= k ->
  cond_Zopp s (Zpos p) = m * 2 ^ k -> 0 < Z.abs m /\ Z.log2 (Z.abs m) + k + 1 = prec.
Proof.
  intros Hp H0 Hpm. assert (Hk2 : 0 < 2 ^ k) by (apply Z.pow_pos_nonneg; lia).
  assert (E : Zpos p = Z.abs m * 2 ^ k) by (destruct s; cbn in Hpm; nia).
  rewrite E, Z.log2_mul_pow2 in Hp by nia. split; [nia|lia].
Qed.

(** The sum of two numbers is exact when it has few enough digits. *)
Lemma add_exact x y m1 e1 m2 e2 :
  denotes prec x m1 e1 -> denotes prec y m2 e2 -> e2 <= e1 ->
  Z.abs (m1 * 2 ^ (e1 - e2) + m2) < 2 ^ prec ->
  emin prec emax + 2 * prec <= e2 -> e1 <= emax - prec ->
  denotes prec (SFadd prec emax x y) (m1 * 2 ^ (e1 - e2) + m2) e2.
Proof.
  intros Hx Hy He Hm Hmin Hmax.
  destruct x as [sx|sx| |sx p ex]; cbn in Hx; try done.
  - subst m1. destruct y as [sy|sy| |sy q ey]; cbn in Hy; try done.
    subst m2. by destruct sx, sy.
  - destruct Hx as (Hp & k1 & Hk1 & -> & Hpm). destruct (full_digits _ _ _ _ Hp Hk1 Hpm) as [Hm1 Hl1].
    pose proof (Z.log2_nonneg (Z.abs m1)).
    destruct y as [sy|sy| |sy q ey]; cbn in Hy; try done.
    + subst m2. rewrite Z.add_0_r in *. cbn [SFadd denotes]. split; [done|].
      exists (k1 - (e1 - e2)).
      assert (Z.log2 (Z.abs (m1 * 2 ^ (e1 - e2))) < prec).
      { apply Z.log2_lt_pow2; [|done]. assert (0 < 2 ^ (e1 - e2)) by (apply Z.pow_pos_nonneg; lia). nia. }
      rewrite Z.abs_mul, (Z.abs_eq (2 ^ _)) in * by (apply Z.pow_nonneg; lia).
      rewrite Z.log2_mul_pow2 in * by lia. split; [lia|]. split; [lia|].
      rewrite Hpm, <- Z.mul_assoc, <- Z.pow_add_r by lia. do 2 f_equal. lia.
    + destruct Hy as (Hq & k2 & Hk2 & -> & Hqm). destruct (full_digits _ _ _ _ Hq Hk2 Hqm) as [Hm2 Hl2].
      pose proof (Z.log2_nonneg (Z.abs m2)).
      cbn [SFadd]. set (ez := Z.min (e1 - k1) (e2 - k2)).
      rewrite !shl_align_exact, !cond_Zopp_mul, Hpm, Hqm by lia.
      rewrite <- !Z.mul_assoc, <- !Z.pow_add_r by lia.
      replace (k1 + (e1 - k1 - ez)) with ((e1 - e2) + (e2 - ez)) by lia.
      replace (k2 + (e2 - k2 - ez)) with (e2 - ez) by lia.
      rewrite Z.pow_add_r, Z.mul_assoc, <- Z.mul_add_distr_r by lia.
      replace ez with (e2 - (e2 - ez)) at 2 by lia.
      apply binary_normalize_exact; lia.
Qed.

Lemma trunc_denotes x m e : denotes prec x m e -> e <= 0 -> trunc x = Z.quot m (2 ^ (- e)).
Proof.
  intros Hx He. assert (2 ^ (- e) <> 0) by (apply Z.pow_nonzero; lia).
  destruct x as [s|s| |s p e']; cbn in Hx; try done.
  - subst. by rewrite Z.quot_0_l.
  - destruct Hx as (_ & k & Hk & -> & Hp). cbn [trunc]. rewrite Hp, Z.max_r, Z.max_l by lia.
    rewrite Z.mul_1_r. replace (- (e - k)) with (- e + k) by lia. rewrite Z.pow_add_r by lia.
    apply Z.quot_mul_cancel_r; [done|]. apply Z.pow_nonzero; lia.
Qed.

Lemma to_int_denotes x m e : denotes prec x m e -> e <= 0 ->
  - 2 ^ 31 <= Z.quot m (2 ^ (- e)) < 2 ^ 31 -> to_int x = Z.quot m (2 ^ (- e)).
Proof.
  intros Hx He Hr. pose proof (trunc_denotes x m e Hx He) as Ht.
  unfold to_int. destruct x; try done; rewrite Ht;
    by rewrite (proj2 (Z.leb_le _ _)), (proj2 (Z.ltb_lt _ _)) by lia.
Qed.
End exact.

Lemma f64_denotes z : Z.abs z < 2 ^ 53 -> denotes 53 (f64 z) z 0.
Proof.
  intros Hz. pose proof (binary_normalize_exact 53 1024 ltac:(lia) z 0 0 false Hz) as H.
  rewrite Z.mul_1_r in H. apply H; done.
Qed.

(** A double that has few enough digits is the same number as a float. *)
Lemma to_f32_denotes x m e : denotes 53 x m e -> Z.abs m < 2 ^ 24 -> - 70 <= e <= 0 ->
  denotes 24 (to_f32 x) m e.
Proof.
  intros Hx Hm He. destruct x as [s|s| |s p e']; cbn in Hx; try done.
  destruct Hx as (Hp & k & Hk & -> & Hpm).
  destruct (full_digits 53 m k s p Hp Hk Hpm) as [_ Hl]. pose proof (Z.log2_nonneg (Z.abs m)).
  cbn [to_f32]. rewrite Hpm. apply binary_normalize_exact; unfold emin; lia.
Qed.
