(* ===== verification/RenderControl.v ===== *)
(** * The render control interface

    [src/src/anbox/graphics/emugl/RenderControl.cpp]: the functions the guest
    calls through the render control decoder, on the registered renderer (a
    [World], absent until [registerRenderer]), the display sizes of
    DisplayManager.cpp and the layers posted for the next frame.  The guest's
    32-bit arguments become [int]s where the renderer takes them so.  Boost's
    [split], which [string_split] calls, is a parameter. *)

From Stdlib Require Import SpecFloat.
From S2P Require Import Prelude Rect Composer Gl RendererConfig TextureDraw TextureResize ColorBuffer RenderState Renderer.

Definition rendererVersion : Z := 1.

Definition FB_WIDTH : Z := 1.
Definition FB_HEIGHT : Z := 2.
Definition FB_XDPI : Z := 3.
Definition FB_YDPI : Z := 4.
Definition FB_FPS : Z := 5.
Definition FB_MIN_SWAP_INTERVAL : Z := 6.
Definition FB_MAX_SWAP_INTERVAL : Z := 7.

(** [DisplayInfo]. *)
Record DisplayInfo := mkDisplayInfo {
  vertical_resolution : Z;
  horizontal_resolution : Z
}.

Definition set_resolution (vertical horizontal : Z) : DisplayInfo :=
  mkDisplayInfo vertical horizontal.

Record RC (D : Type) := mkRC {
  renderer : option (World D);
  display_info : DisplayInfo;
  composer : bool;
  frame_layers : list Renderable
}.
Arguments mkRC {D}.
Arguments renderer {D}.
Arguments display_info {D}.
Arguments composer {D}.
Arguments frame_layers {D}.

Section RenderControl.
Context {D : Type} `{!Driver D}.
(** [string_split(text, ' ')]. *)
Variable split : string -> list string.

(** Runs on the renderer; [fail] without one. *)
Definition on_renderer {A} (fail : A) (m : M (World D) A) : M (RC D) A :=
  fun rc =>
    match renderer rc with
    | None => (fail, rc)
    | Some w =>
        let '(a, w) := m w in
        (a, @mkRC D (Some w) (display_info rc) (composer rc) (frame_layers rc))
    end.

(** A function that creates an object; it returns [None] if it never does. *)
Definition creating (m : M (World D) (option Z)) : M (RC D) (option Z) := on_renderer (Some 0) m.

(** ** Versions and strings *)

Definition rcGetRendererVersion : Z := rendererVersion.

(** The version, [None] for [EGL_FALSE]. *)
Definition rcGetEGLVersion : M (RC D) (option (Z * Z)) :=
  on_renderer None (gets (fun w => Some (eglMajor (w_display w), eglMinor (w_display w)))).

(** The loop over the tokens; the stream's position is the length written. *)
Fixpoint approve (tokens whitelist : list string) (approved : string) : string :=
  match tokens with
  | [] => approved
  | ext :: tokens =>
      if bool_decide (ext ∈ whitelist) then
        let approved :=
          if (0 <? String.length approved)%nat then String.append approved " " else approved in
        approve tokens whitelist (String.append approved ext)
      else approve tokens whitelist approved
  end.

Definition filter_extensions (extensions : string) (whitelist : list string) : string :=
  approve (split extensions) whitelist "".

Definition egl_whitelist : list string :=
  ["EGL_KHR_image_base"; "EGL_KHR_gl_texture_2D_image"]%string.

Definition gl_whitelist : list string :=
  ["GL_OES_EGL_image"; "GL_OES_EGL_image_external"; "GL_OES_depth24"; "GL_OES_depth32";
   "GL_OES_element_index_uint"; "GL_OES_texture_float"; "GL_OES_texture_float_linear";
   "GL_OES_compressed_paletted_texture"; "GL_OES_compressed_ETC1_RGB8_texture";
   "GL_OES_depth_texture"; "GL_OES_texture_half_float"; "GL_OES_texture_half_float_linear";
   "GL_OES_packed_depth_stencil"; "GL_OES_vertex_half_float"; "GL_OES_standard_derivatives";
   "GL_OES_texture_npot"; "GL_OES_rgb8_rgba8"]%string.

(** The answer to a string query: the result and what is written to the buffer,
    with its terminating zero; [buffer] is whether there is one. *)
Definition answer (result : string) (buffer : bool) (bufferSize : Z) : Z * option string :=
  let len := i32 (i32 (Z.of_nat (String.length result)) + 1) in
  if negb buffer || (bufferSize <? len) then (i32 (- len), None) else (len, Some result).

Definition rcQueryEGLString (name : Z) (buffer : bool) (bufferSize : Z) :
    M (RC D) (Z * option string) :=
  on_renderer (0, None)
    (gets (fun w =>
       let result := eglQueryString (w_drv w) name in
       if String.eqb result "" then (0, None)
       else
         let result := if name =? EGL_EXTENSIONS then filter_extensions result egl_whitelist
                       else result in
         answer result buffer bufferSize)).

(** It asks the calling thread's current context, not the renderer; without a renderer
    no context can be current. *)
Definition rcGetGLString (name : Z) (buffer : bool) (bufferSize : Z) (rc : RC D) :
    Z * option string :=
  let result :=
    match renderer rc with
    | Some w =>
        match curr_isGL2 w with
        | Some isGL2 => default ""%string (glGetString isGL2 (w_drv w) name)
        | None => ""%string
        end
    | None => ""%string
    end in
  let result :=
    if name =? GL_VERSION then "OpenGL ES 2.0"%string
    else if name =? GL_EXTENSIONS then filter_extensions result gl_whitelist
    else result in
  answer result buffer bufferSize.

(** ** Configurations *)

Definition rcGetNumConfigs (w : World D) : Z * Z :=
  let '(numConfigs, numAttribs) := getPackInfo (m_configs (w_display w)) in
  (numConfigs, u32 numAttribs).

Definition rcGetConfigs (bufSize : Z) (buffer : bool) (w : World D) : Z * list Z :=
  packConfigs (m_configs (w_display w)) buffer bufSize.

(** [garbage]: the uninitialised locals of [chooseConfig]; [None] where it reads
    past the attributes. *)
Definition rcChooseConfig (garbage : Z) (attribs : list Z) (attribs_size : Z) (configs : bool)
    (configs_size : Z) : M (RC D) (option (Z * option (list Z))) :=
  if attribs_size =? 0 then mret (Some (0, None))
  else on_renderer (Some (0, None))
    (gets (fun w => chooseConfig garbage (w_drv w) (m_configs (w_display w)) attribs configs
                      (i32 configs_size))).

Definition rcGetFBParam (param : Z) (rc : RC D) : Z :=
  match renderer rc with
  | None => 0
  | Some _ =>
      if param =? FB_WIDTH then i32 (vertical_resolution (display_info rc))
      else if param =? FB_HEIGHT then i32 (horizontal_resolution (display_info rc))
      else if param =? FB_XDPI then 72
      else if param =? FB_YDPI then 72
      else if param =? FB_FPS then 60
      else if param =? FB_MIN_SWAP_INTERVAL then 1
      else if param =? FB_MAX_SWAP_INTERVAL then 1
      else 0
  end.

(** ** Contexts, surfaces and color buffers *)

Definition rcCreateContext (config share glVersion : Z) : M (RC D) (option Z) :=
  creating (createRenderContext (i32 config) share ((glVersion =? 2) || (glVersion =? 3))).

Definition rcDestroyContext (context : Z) : M (RC D) unit :=
  on_renderer tt (DestroyRenderContext context).

Definition rcCreateWindowSurface (config width height : Z) : M (RC D) (option Z) :=
  creating (createWindowSurface (i32 config) (i32 width) (i32 height)).

Definition rcDestroyWindowSurface (windowSurface : Z) : M (RC D) unit :=
  on_renderer tt (DestroyWindowSurface windowSurface).

Definition rcCreateColorBuffer (width height internalFormat : Z) : M (RC D) (option Z) :=
  creating (createColorBuffer (i32 width) (i32 height) internalFormat).

Definition rcOpenColorBuffer2 (colorbuffer : Z) : M (RC D) Z :=
  on_renderer (-1) (openColorBuffer colorbuffer).

Definition rcOpenColorBuffer (colorbuffer : Z) : M (RC D) unit :=
  rcOpenColorBuffer2 colorbuffer ;; mret tt.

Definition rcCloseColorBuffer (colorbuffer : Z) : M (RC D) unit :=
  on_renderer tt (closeColorBuffer colorbuffer).

Definition rcFlushWindowColorBuffer (windowSurface : Z) : M (RC D) Z :=
  ok ← on_renderer false (flushWindowSurfaceColorBuffer windowSurface);
  mret (if (ok : bool) then 0 else -1).

Definition rcSetWindowColorBuffer (windowSurface colorBuffer : Z) : M (RC D) unit :=
  on_renderer false (setWindowSurfaceColorBuffer windowSurface colorBuffer) ;; mret tt.

Definition rcMakeCurrent (context drawSurf readSurf : Z) : M (RC D) Z :=
  ok ← on_renderer false (bindContext context drawSurf readSurf);
  mret (if (ok : bool) then 1 else 0).

Definition rcFBPost (colorBuffer : Z) : M (RC D) unit := mret tt.
Definition rcFBSetSwapInterval (interval : Z) : M (RC D) unit := mret tt.

Definition rcBindTexture (colorBuffer : Z) : M (RC D) unit :=
  on_renderer false (bindColorBufferToTexture colorBuffer) ;; mret tt.

Definition rcBindRenderbuffer (colorBuffer : Z) : M (RC D) unit :=
  on_renderer false (bindColorBufferToRenderbuffer colorBuffer) ;; mret tt.

Definition rcColorBufferCacheFlush (colorBuffer postCount forRead : Z) : M (RC D) Z := mret 0.

Definition rcReadColorBuffer (colorBuffer x y width height format type : Z) :
    M (RC D) (option (list Z)) :=
  on_renderer None (readColorBuffer colorBuffer x y width height format type).

(** The renderer's result is not looked at. *)
Definition rcUpdateColorBuffer (colorBuffer x y width height format type : Z)
    (pixels : list Z) : M (RC D) Z :=
  on_renderer (-1)
    (updateColorBuffer colorBuffer x y width height format type pixels ;; mret 0).

Definition rcCreateClientImage (context target buffer : Z) : M (RC D) Z :=
  on_renderer 0 (createClientImage context target buffer).

Definition rcDestroyClientImage (image : Z) : M (RC D) Z :=
  on_renderer 0 (destroyClientImage image).

(** ** Displays *)

Definition rcGetNumDisplays : Z := 1.
Definition rcGetDisplayWidth (display_id : Z) (rc : RC D) : Z :=
  i32 (vertical_resolution (display_info rc)).
Definition rcGetDisplayHeight (display_id : Z) (rc : RC D) : Z :=
  i32 (horizontal_resolution (display_info rc)).
Definition rcGetDisplayDpiX (display_id : Z) : Z := 120.
Definition rcGetDisplayDpiY (display_id : Z) : Z := 120.
Definition rcGetDisplayVsyncPeriod (display_id : Z) : Z := 1.

(** ** Layers *)

Definition is_layer_blacklisted (name : string) : bool := bool_decide (name ∈ ["Sprite"%string]).

Definition set_frame_layers (l : list Renderable) (rc : RC D) : RC D :=
  @mkRC D (renderer rc) (display_info rc) (composer rc) l.

Definition rcPostLayer (name : string) (color_buffer : Z) (alpha : spec_float)
    (sourceCropLeft sourceCropTop sourceCropRight sourceCropBottom
     displayFrameLeft displayFrameTop displayFrameRight displayFrameBottom : Z) : M (RC D) unit :=
  let r := mkRenderable name color_buffer alpha
             (mkRect displayFrameLeft displayFrameTop displayFrameRight displayFrameBottom)
             (mkRect sourceCropLeft sourceCropTop sourceCropRight sourceCropBottom) in
  modify (fun rc => set_frame_layers (frame_layers rc ++ [r]) rc).

(** What the composer is given, [None] without one. *)
Definition rcPostAllLayersDone : M (RC D) (option (list Renderable)) :=
  fun rc => ((if composer rc then Some (frame_layers rc) else None), set_frame_layers [] rc).

(** ** Properties *)

(** The tokens with a space between two. *)
Fixpoint join (l : list string) : string :=
  match l with
  | [] => ""
  | [x] => x
  | x :: l => String.append x (String.append " " (join l))
  end%string.

Lemma append_cons x (a b : string) : String.append (String x a) b = String x (String.append a b).
Proof. done. Qed.

Lemma append_assoc (a b c : string) :
  String.append (String.append a b) c = String.append a (String.append b c).
Proof. induction a as [|x a IH]; [done|]. by rewrite !append_cons, IH. Qed.

Lemma append_length (a b : string) :
  String.length (String.append a b) = (String.length a + String.length b)%nat.
Proof. induction a as [|x a IH]; [done|]. rewrite append_cons. cbn. by rewrite IH. Qed.

Lemma append_nil_r (a : string) : String.append a "" = a.
Proof. induction a as [|x a IH]; [done|]. by rewrite append_cons, IH. Qed.

Lemma approve_nonempty tokens whitelist : forall approved,
  (0 < String.length approved)%nat ->
  approve tokens whitelist approved =
  String.append approved
    (foldr (fun x s => String.append " " (String.append x s)) ""%string
       (filter (fun x => x ∈ whitelist) tokens)).
Proof.
  induction tokens as [|x l IH]; intros approved Hlen; cbn [approve].
  { by rewrite append_nil_r. }
  case_bool_decide as Hx.
  - rewrite filter_cons_True by done. rewrite (proj2 (Nat.ltb_lt _ _) Hlen), IH.
    + cbn [foldr]. by rewrite !append_assoc.
    + rewrite !append_length. lia.
  - rewrite filter_cons_False by done. by apply IH.
Qed.

Lemma approve_join tokens whitelist :
  Forall (fun x => (0 < String.length x)%nat) whitelist ->
  approve tokens whitelist "" = join (filter (fun x => x ∈ whitelist) tokens).
Proof.
  intros Hw. induction tokens as [|x l IH]; cbn [approve]; [done|].
  case_bool_decide as Hx; [|by rewrite filter_cons_False].
  rewrite filter_cons_True by done. cbn [String.length Nat.ltb Nat.leb String.append].
  rewrite approve_nonempty by by eapply Forall_forall in Hw; [|exact Hx].
  clear IH Hx. generalize (filter (fun x => x ∈ whitelist) l). intros k.
  revert x. induction k as [|y k IH]; intros x; [apply append_nil_r|].
  change (join (x :: y :: k)) with (String.append x (String.append " " (join (y :: k)))).
  by rewrite <- (IH y).
Qed.

(** The extension list the guest sees is the list of the driver's extensions
    that are in the white list, in the driver's order, with one space between two;
    the result of a query is the length of the string with its terminating zero
    when that fits the buffer, and then exactly the string is written; otherwise
    it is minus the length and nothing is written. *)
Theorem extension_query (extensions : string) (buffer : bool) (bufferSize : Z) :
  let approved := join (filter (fun x => x ∈ gl_whitelist) (split extensions)) in
  let len := Z.of_nat (String.length approved) + 1 in
  filter_extensions extensions gl_whitelist = approved /\
  filter_extensions extensions egl_whitelist =
    join (filter (fun x => x ∈ egl_whitelist) (split extensions)) /\
  (len < 2 ^ 31 ->
   answer approved buffer bufferSize =
     if buffer && (len <=? bufferSize) then (len, Some approved) else (- len, None)).
Proof.
  intros approved len. split_and!.
  - apply approve_join. repeat constructor.
  - apply approve_join. repeat constructor.
  - intros Hlen. unfold answer. fold approved. cbv zeta.
    rewrite (wraps_id 32 (Z.of_nat _)) by (unfold in_s; lia). fold len.
    rewrite (wraps_id 32 len) by (unfold in_s; lia).
    rewrite (wraps_id 32 (- len)) by (unfold in_s; lia).
    destruct buffer; cbn [negb orb andb]; [|done].
    by rewrite Z.leb_antisym; destruct (bufferSize <? len).
Qed.

(** An update of a color buffer that does not exist is reported to the guest
    as done. *)
Theorem update_failure_unreported (rc : RC D) (w : World D) colorBuffer x y pw ph format type pixels :
  renderer rc = Some w -> m_colorbuffers (w_tables w) !! colorBuffer = None ->
  (updateColorBuffer colorBuffer x y pw ph format type pixels w).1 = false /\
  rcUpdateColorBuffer colorBuffer x y pw ph format type pixels rc = (0, rc).
Proof.
  intros Hr Hc. unfold rcUpdateColorBuffer, on_renderer, updateColorBuffer. rewrite Hr.
  unfold find_buffer. rewrite !bind_run. cbn [gets fst snd]. rewrite Hc. cbn.
  split; [done|]. destruct rc. cbn in *. by rewrite Hr.
Qed.
End RenderControl.

Lemma update_failure_unreported_witness :
  let dpy := mkDisplay [] true 1 4 1 0 2 (mkTD 1 2 3 0 1 0 4 5) in
  let w := mkWorld toy_init dpy (mkSaved 0 0 0) (mkTables 0 ∅ ∅ ∅) (mkHeap ∅ ∅ ∅ 1) info_new [] in
  let rc := mkRC (Some w) (set_resolution 1280 720) true [] in
  (updateColorBuffer 5 0 0 1 1 GL_RGBA GL_UNSIGNED_BYTE [0; 0; 0; 0] w).1 = false /\
  rcUpdateColorBuffer 5 0 0 1 1 GL_RGBA GL_UNSIGNED_BYTE [0; 0; 0; 0] rc = (0, rc).
Proof. intros dpy w rc. by apply (update_failure_unreported rc w). Defined.
