(* ===== verification/WindowManager.v ===== *)
(** * Window managers

    [src/src/anbox/wm/]: windows by task.  [MultiWindowManager]
    (multi_window_manager.cpp) follows the updates of Android's window manager:
    tasks of the freeform stack that have a surface get a window, a removal
    releases the task's window.  [SingleWindowManager] (single_window_manager.cpp)
    has one window.  A window (window.cpp) is its task, frame, title and whether it
    is attached to the renderer.  The platform that creates windows, the
    application database and the Android side are parameters; requests to them are
    recorded as events in order.  A window's destructor, which releases it once
    more when its last owner lets go of it, is not part of the manager. *)

From stdpp Require Import sorting.
From S2P Require Import Prelude Rect.

(** ** Stacks *)

Inductive StackId := Stack_Invalid | Stack_Default | Stack_Fullscreen | Stack_Freeform.

#[export] Instance StackId_eq_dec : EqDecision StackId.
Proof. solve_decision. Defined.

(** [operator<<] and [operator>>]; an unknown word leaves the value alone. *)
Definition stack_print (stack : StackId) : string :=
  match stack with
  | Stack_Default => "default"
  | Stack_Fullscreen => "fullscreen"
  | Stack_Freeform => "freeform"
  | Stack_Invalid => ""
  end.

Definition stack_parse (s : string) (stack : StackId) : StackId :=
  if String.eqb s "default" then Stack_Default
  else if String.eqb s "fullscreen" then Stack_Fullscreen
  else if String.eqb s "freeform" then Stack_Freeform
  else stack.

Record WindowState := mkState {
  display : Z;
  has_surface : bool;
  frame : Rect;
  package_name : string;
  task : Z;
  stack : StackId
}.

Definition WindowState_default : WindowState :=
  mkState (-1) false Invalid "" (-1) Stack_Invalid.

Record Window := mkWindow {
  window_task : Z;
  window_frame : Rect;
  title : string;
  attached : bool
}.

Definition update_frame (w : Window) (f : Rect) : Window :=
  if decide (f = window_frame w) then w else mkWindow (window_task w) f (title w) (attached w).

(** What leaves the manager, in order. *)
Inductive Event :=
| CreateNativeWindow (t : Z)
| DestroyNativeWindow (t : Z)
| UpdateState (t : Z) (states : list WindowState)
| ApiResizeTask (t : Z) (r : Rect) (mode : Z)
| ApiSetFocusedTask (t : Z)
| ApiRemoveTask (t : Z)
| Terminate.

Section managers.
(** [has_renderer]: the windows have a renderer; [native_ok]: it can create a
    native window; [find_app]: the name of an installed application;
    [create_window]: the platform makes a window for the task. *)
Variable has_renderer : bool.
Variable native_ok : Z -> bool.
Variable find_app : string -> option string.
Variable create_window : Z -> bool.

Definition attach (w : Window) : bool * Window * list Event :=
  if negb has_renderer then (false, w, [])
  else
    let ok := native_ok (window_task w) in
    (ok, mkWindow (window_task w) (window_frame w) (title w) ok, [CreateNativeWindow (window_task w)]).

(** [release] leaves [attached_] as it is. *)
Definition release (w : Window) : list Event :=
  if negb has_renderer || negb (attached w) then [] else [DestroyNativeWindow (window_task w)].

(** ** MultiWindowManager *)

(** The keys of a [std::map] in order. *)
Definition map_keys {A} (m : gmap Z A) : list Z := merge_sort Z.le (fst <$> map_to_list m).

Abbreviation Windows := (gmap Z Window).
Abbreviation Updates := (gmap Z (list WindowState)).

(** One window of [updated]; [platform] is whether the platform still exists. *)
Definition update_one (platform : bool) (st : Windows * Updates * list Event) (window : WindowState) :
    Windows * Updates * list Event :=
  let '(windows, updates, events) := st in
  if negb (bool_decide (stack window = Stack_Freeform)) then st
  else if negb (has_surface window) then st
  else match windows !! task window with
  | Some _ =>
      match updates !! task window with
      | None => (windows, <[task window := [window]]> updates, events)
      | Some l => (windows, <[task window := l ++ [window]]> updates, events)
      end
  | None =>
      let t := default (package_name window) (find_app (package_name window)) in
      if negb platform then st
      else if create_window (task window) then
        let '(_, w, ev) := attach (mkWindow (task window) (frame window) t false) in
        (<[task window := w]> windows, updates, events ++ ev)
      else (windows, updates, events ++ [ApiRemoveTask (task window)])
  end.

Definition remove_one (updates : Updates) (st : Windows * list Event) (window : WindowState) :
    Windows * list Event :=
  let '(windows, events) := st in
  match windows !! task window with
  | None => st
  | Some w =>
      match updates !! task window with
      | None => (delete (task window) windows, events ++ release w)
      | Some _ => st
      end
  end.

Definition apply_window_state_update (platform : bool) (windows : Windows)
    (updated removed : list WindowState) : Windows * list Event :=
  let '(windows, updates, events) := foldl (update_one platform) (windows, ∅, []) updated in
  let sent := omap (fun t => match windows !! t, updates !! t with
                             | Some _, Some l => Some (UpdateState t l)
                             | _, _ => None
                             end) (map_keys updates) in
  foldl (remove_one updates) (windows, events ++ sent) removed.

(** The search goes through the windows, not by key. *)
Definition find_window_for_task (windows : Windows) (t : Z) : option Window :=
  x ← list_find (fun k => (window_task <$> windows !! k) = Some t) (map_keys windows);
  windows !! x.2.

Definition resize_task (t : Z) (r : Rect) (resize_mode : Z) : list Event :=
  [ApiResizeTask t r resize_mode].
Definition set_focused_task (t : Z) : list Event := [ApiSetFocusedTask t].
Definition remove_task (t : Z) : list Event := [ApiRemoveTask t].

(** ** SingleWindowManager

    [setup] needs the platform: [None] is the exception. *)
Definition single_setup (platform : bool) (window_size : Rect) : option (Window * list Event) :=
  if platform then
    let '(_, w, ev) := attach (mkWindow 0 window_size "Anbox - Android in a Box" false) in
    Some (w, ev)
  else None.

Definition single_find_window_for_task (window : Window) (t : Z) : Window := window.

Definition single_remove_task (t : Z) : list Event := if negb (t =? 0) then [] else [Terminate].

(** ** Properties *)

(** The states of a task that count: freeform, with a surface. *)
Definition eligible (t : Z) (l : list WindowState) : list WindowState :=
  filter (fun s => stack s = Stack_Freeform /\ has_surface s = true /\ task s = t) l.

(** A task without a window can get one. *)
Definition creatable (platform : bool) (t : Z) : bool := platform && create_window t.

(** The states collected for the task: all of them when it had a window, all but
    the one the window was made for otherwise. *)
Definition collected (platform : bool) (windows : Windows) (t : Z) (l : list WindowState) :
    list WindowState :=
  match windows !! t with
  | Some _ => eligible t l
  | None => if creatable platform t then tail (eligible t l) else []
  end.

Definition has_window (platform : bool) (windows : Windows) (t : Z) (l : list WindowState) : Prop :=
  is_Some (windows !! t) \/ (creatable platform t = true /\ eligible t l <> []).

(** Every window is filed under its task. *)
Definition windows_ok (windows : Windows) : Prop :=
  forall t w, windows !! t = Some w -> window_task w = t.

Definition nonempty (updates : Updates) : Prop := forall t, updates !! t <> Some [].

Lemma attach_task w : window_task (attach w).1.2 = window_task w.
Proof. unfold attach. by destruct (negb has_renderer). Qed.

Lemma update_one_spec platform windows updates ev s :
  nonempty updates -> windows_ok windows ->
  let '(windows', updates', _) := update_one platform (windows, updates, ev) s in
  nonempty updates' /\ windows_ok windows' /\
  forall t, (is_Some (windows' !! t) <-> has_window platform windows t [s]) /\
    default [] (updates' !! t) = default [] (updates !! t) ++ collected platform windows t [s].
Proof.
  intros Hne Hok. unfold update_one.
  assert (Hskip : (forall t, eligible t [s] = []) -> nonempty updates /\ windows_ok windows /\
    forall t, (is_Some (windows !! t) <-> has_window platform windows t [s]) /\
      default [] (updates !! t) = default [] (updates !! t) ++ collected platform windows t [s]).
  { intros He. split_and!; [done..|]. intros t. unfold has_window, collected. rewrite He.
    split; [intuition|]. destruct (windows !! t), (creatable platform t); by rewrite app_nil_r. }
  case_bool_decide as Hst; cbn [negb].
  2: { apply Hskip. intros t. unfold eligible. by rewrite filter_cons_False by tauto. }
  destruct (has_surface s) eqn:Hsf; cbn [negb].
  2: { apply Hskip. intros t. unfold eligible. rewrite filter_cons_False; [done|]. by rewrite Hsf; intros (?&?&?). }
  assert (Hel : forall t, eligible t [s] = if decide (task s = t) then [s] else []).
  { intros t. unfold eligible. case_decide.
    - by rewrite filter_cons_True.
    - by rewrite filter_cons_False by tauto. }
  destruct (windows !! task s) as [w|] eqn:Hw.
  - assert (Hup : forall l, (updates !! task s = None /\ l = [s]) \/
        (exists l0, updates !! task s = Some l0 /\ l = l0 ++ [s]) ->
      nonempty (<[task s := l]> updates) /\ windows_ok windows /\
      forall t, (is_Some (windows !! t) <-> has_window platform windows t [s]) /\
        default [] (<[task s := l]> updates !! t) =
          default [] (updates !! t) ++ collected platform windows t [s]).
    { intros l Hl. split_and!; [|done|].
      - intros t. destruct (decide (task s = t)) as [<-|Hn].
        + rewrite lookup_insert_eq. destruct Hl as [[_ ->]|(l0 & _ & ->)]; [done|]. by destruct l0.
        + rewrite lookup_insert_ne by done. apply Hne.
      - intros t. unfold has_window, collected. rewrite !Hel. case_decide as Ht.
        + subst t. rewrite Hw, lookup_insert_eq. split; [split; eauto|].
          destruct Hl as [[-> ->]|(l0 & -> & ->)]; done.
        + rewrite lookup_insert_ne by done. split; [intuition|].
          destruct (windows !! t), (creatable platform t); by rewrite app_nil_r. }
    destruct (updates !! task s) as [l0|] eqn:Hu; apply Hup; eauto.
  - destruct platform; cbn [negb].
    2: { split_and!; [done..|]. intros t. unfold has_window, collected, creatable.
         rewrite !Hel. cbn [andb]. split; [intuition congruence|].
         destruct (windows !! t) eqn:Ht; [|by rewrite app_nil_r].
         rewrite decide_False by congruence. by rewrite app_nil_r. }
    destruct (create_window (task s)) eqn:Hc.
    + set (w0 := mkWindow _ _ _ _). pose proof (attach_task w0) as Ha.
      destruct (attach w0) as [[ok w] ev']. cbn in Ha.
      split_and!; [done| |].
      * intros t w1. destruct (decide (task s = t)) as [<-|Hn].
        -- rewrite lookup_insert_eq. by intros [= <-].
        -- rewrite lookup_insert_ne by done. apply Hok.
      * intros t. unfold has_window, collected, creatable. rewrite !Hel. cbn [andb].
        destruct (decide (task s = t)) as [<-|Hn].
        -- rewrite lookup_insert_eq, Hw, Hc. split; [split; [by right|by eauto]|].
           by rewrite app_nil_r.
        -- rewrite lookup_insert_ne by done. split; [intuition|].
           destruct (windows !! t), (create_window t); by rewrite app_nil_r.
    + split_and!; [done..|]. intros t. unfold has_window, collected, creatable.
      rewrite !Hel. cbn [andb]. destruct (decide (task s = t)) as [<-|Hn].
      * rewrite Hw, Hc, app_nil_r. split; [|done]. split; [by left|]. by intros [|[]].
      * split; [intuition|]. destruct (windows !! t), (create_window t); by rewrite app_nil_r.
Qed.

Lemma eligible_cons t s l : eligible t (s :: l) = eligible t [s] ++ eligible t l.
Proof. unfold eligible. by rewrite <- filter_app. Qed.

Lemma update_loop_spec platform l : forall windows updates ev,
  nonempty updates -> windows_ok windows ->
  let '(windows', updates', _) := foldl (update_one platform) (windows, updates, ev) l in
  nonempty updates' /\ windows_ok windows' /\
  forall t, (is_Some (windows' !! t) <-> has_window platform windows t l) /\
    default [] (updates' !! t) = default [] (updates !! t) ++ collected platform windows t l.
Proof.
  induction l as [|s l IH]; intros windows updates ev Hne Hok; cbn [foldl].
  { split_and!; [done..|]. intros t. unfold has_window, collected, eligible. cbn.
    split; [intuition|]. destruct (windows !! t), (creatable platform t); by rewrite app_nil_r. }
  pose proof (update_one_spec platform windows updates ev s Hne Hok) as H1.
  destruct (update_one platform (windows, updates, ev) s) as [[w1 u1] ev1].
  destruct H1 as (Hne1 & Hok1 & H1). pose proof (IH w1 u1 ev1 Hne1 Hok1) as H2.
  destruct (foldl _ _ _) as [[w2 u2] ev2]. destruct H2 as (Hne2 & Hok2 & H2).
  split_and!; [done..|]. intros t. specialize (H1 t) as [A1 B1]. specialize (H2 t) as [A2 B2].
  rewrite A2, B2, B1, <- app_assoc. clear A2 B2 B1 IH.
  unfold has_window, collected in *. rewrite (eligible_cons t s l).
  destruct (windows !! t) as [w|], (w1 !! t) as [w1'|], (creatable platform t), (eligible t [s]);
    cbn in *; try (split; [intuition (eauto; congruence)|by rewrite ?app_nil_r]);
    exfalso; destruct A1 as [A1 A1']; try (by destruct A1' as [? [=]]; eauto);
    try (destruct A1 as [[? [=]]|[? ?]]; by eauto); try (destruct A1' as [? [=]]; right; done).
Qed.

Lemma remove_loop_spec updates l : forall windows ev t,
  (foldl (remove_one updates) (windows, ev) l).1 !! t =
  if decide (t ∈ task <$> l /\ updates !! t = None) then None else windows !! t.
Proof.
  induction l as [|s l IH]; intros windows ev t; cbn [foldl].
  { rewrite decide_False; [done|]. by intros [?%not_elem_of_nil ?]. }
  assert (Hs : exists ev', remove_one updates (windows, ev) s =
    (if decide (updates !! task s = None) then delete (task s) windows else windows, ev')).
  { unfold remove_one. destruct (windows !! task s) as [w|] eqn:Hw.
    - destruct (updates !! task s); [by eexists|]. by eexists.
    - exists ev. case_decide; [|done]. by rewrite delete_id. }
  destruct Hs as [ev' ->]. rewrite IH. cbn [fmap list_fmap].
  destruct (decide (t ∈ task <$> l /\ updates !! t = None)) as [[H1 H2]|Hno].
  { rewrite decide_True; [done|]. split; [by right|done]. }
  destruct (decide (task s = t)) as [<-|Hne].
  - case_decide as Hu.
    + rewrite lookup_delete_eq, decide_True; [done|]. split; [by left|done].
    + rewrite decide_False; [done|]. by intros [_ ?].
  - rewrite (decide_False (P := t ∈ task s :: _ /\ _)).
    2: { intros [[->|?]%elem_of_cons ?]; [done|]. by apply Hno. }
    case_decide; [by rewrite lookup_delete_ne|done].
Qed.

Lemma find_window_correct windows t :
  windows_ok windows -> find_window_for_task windows t = windows !! t.
Proof.
  intros Hok. unfold find_window_for_task.
  destruct (list_find _ _) as [[i k]|] eqn:E; cbn.
  - apply list_find_Some in E as (_ & Hk & _). cbn in Hk.
    destruct (windows !! k) as [w|] eqn:Hw; [|done]. cbn in Hk. injection Hk as Hk.
    assert (k = t) as <- by (rewrite <- Hk; symmetry; by apply Hok). done.
  - apply list_find_None in E. destruct (windows !! t) as [w|] eqn:Hw; [exfalso|done].
    eapply Forall_forall in E; [apply E; by rewrite Hw; cbn; rewrite (Hok t w Hw)|].
    unfold map_keys. rewrite merge_sort_Permutation. apply list_elem_of_fmap.
    exists (t, w). split; [done|]. by apply elem_of_map_to_list.
Qed.

(** C18: After an update a task has a window exactly when it had one, or a
    freeform state with a surface came and the platform made one; unless a state of
    the task was removed and no other state of a known window was collected for it.
    Every window stays filed under its task, so that searching finds it. *)
Theorem windows_after_update platform windows updated removed t :
  windows_ok windows ->
  let windows' := (apply_window_state_update platform windows updated removed).1 in
  windows_ok windows' /\ find_window_for_task windows' t = windows' !! t /\
  (is_Some (windows' !! t) <->
   has_window platform windows t updated /\
   ~ (t ∈ task <$> removed /\ collected platform windows t updated = [])).
Proof.
  intros Hok. unfold apply_window_state_update.
  pose proof (update_loop_spec platform updated windows ∅ []) as H.
  destruct (foldl _ _ updated) as [[w1 u1] ev1].
  destruct H as (Hne & Hok1 & H1); [intros i; by rewrite lookup_empty|done|].
  assert (Hu : u1 !! t = None <-> collected platform windows t updated = []).
  { destruct (H1 t) as [_ Hc]. rewrite lookup_empty in Hc. cbn in Hc. rewrite <- Hc.
    specialize (Hne t). destruct (u1 !! t) as [[|x l]|]; cbn; split; congruence. }
  assert (Hok2 : forall ev, windows_ok (foldl (remove_one u1) (w1, ev) removed).1).
  { intros ev i w. rewrite remove_loop_spec. case_decide; [done|]. apply Hok1. }
  split; [apply Hok2|]. split; [by apply find_window_correct|].
  - rewrite remove_loop_spec. case_decide as Hd; rewrite Hu in Hd.
    + split; [by intros [? [=]]|]. by intros [_ ?].
    + destruct (H1 t) as [-> _]. tauto.
Qed.

End managers.

Lemma windows_after_update_witness :
  let st t := mkState 0 true (rect_of_size 10 10) "app" t Stack_Freeform in
  let windows := {[7 := mkWindow 7 (rect_of_size 10 10) "app" true]} : gmap Z Window in
  let windows' := (apply_window_state_update true (fun _ => true) (fun _ => None)
                     (fun _ => true) true windows [st 7; st 9] [st 7; st 9]).1 in
  windows !! 7 <> None /\ windows' !! 9 = None /\
  windows_ok windows' /\ find_window_for_task windows' 7 = windows' !! 7 /\
  (is_Some (windows' !! 7) <->
   has_window (fun _ => true) true windows 7 [st 7; st 9] /\
   ~ (7 ∈ task <$> [st 7; st 9] /\
      collected (fun _ => true) true windows 7 [st 7; st 9] = [])).
Proof.
  intros st windows windows'. split; [by vm_compute|]. split; [by vm_compute|].
  apply (windows_after_update true (fun _ => true) (fun _ => None) (fun _ => true)).
  intros t w [<- <-]%lookup_singleton_Some. done.
Defined.
