(* ===== verification/Rpc.v ===== *)
(** * Remote procedure calls

    [src/src/anbox/rpc/]: [Channel] (channel.cpp) frames an invocation or an event
    and sends it, [MessageProcessor] (message_processor.cpp) cuts the incoming
    bytes into messages and dispatches them, [PendingCallCache]
    (pending_call_cache.cpp) has the callers that wait for a response.  A byte is
    an integer; a message's payload is its serialised form, protobuf's parser and
    serialiser are parameters.  Reading past the buffer and an exception are
    results of their own. *)

From S2P Require Import Prelude.

(** ** The wire format *)

Definition header_size : Z := 4.

Definition MT_invocation : Z := 0.
Definition MT_response : Z := 1.

Definition header_bytes (size type : Z) : list Z :=
  [Z.land (Z.shiftr size 16) 0xff; Z.land (Z.shiftr size 8) 0xff; Z.land (Z.shiftr size 0) 0xff; type].

(** The bytes [Channel::send_message] and [send_response] hand to the sender. *)
Definition frame (type : Z) (payload : list Z) : list Z := header_bytes (zlen payload) type ++ payload.

(** ** PendingCallCache

    A call is the caller's response object and its closure. *)

Record PendingCall := mkCall {
  response : Z;
  complete : Z
}.

Abbreviation PendingCalls := (gmap Z PendingCall).

(** Keys are [int]s. *)
Definition save_completion_details (id : Z) (c : PendingCall) (calls : PendingCalls) : PendingCalls :=
  <[i32 id := c]> calls.

(** The response object to fill; [None] where [at] throws. *)
Definition populate_message_for_result (id : Z) (calls : PendingCalls) : option Z :=
  response <$> calls !! i32 id.

(** The closures to run, and the calls left; the null closure is not run. *)
Definition complete_response (id : Z) (calls : PendingCalls) : list Z * PendingCalls :=
  match calls !! i32 id with
  | Some c => (if complete c =? 0 then [] else [complete c], delete (i32 id) calls)
  | None => ([], calls)
  end.

Definition force_completion (calls : PendingCalls) : list Z * PendingCalls :=
  ((fun p => complete p.2) <$> map_to_list calls, ∅).

Definition calls_empty (calls : PendingCalls) : bool := bool_decide (calls = ∅).

(** ** Channel *)

Record Invocation := mkInvocation {
  inv_id : Z;
  method_name : string;
  parameters : list Z;
  protocol_version : Z
}.

Record Result := mkResult {
  result_id : option Z;
  result_response : list Z;
  events : list (list Z)
}.

Section rpc.
Variable serialize_invocation : Invocation -> list Z.
Variable serialize_result : Result -> list Z.
Variable parse_result : list Z -> Result.

(** The id, and the next one. *)
Definition next_id (next_message_id : Z) : Z * Z := (next_message_id, u32 (next_message_id + 1)).

Definition invocation_for (next_message_id : Z) (method : string) (request : list Z) :
    Invocation * Z :=
  let '(id, next) := next_id next_message_id in (mkInvocation id method request 1, next).

(** [ok]: the sender does not throw.  The result: the bytes sent, the closures run
    and the new state; a failed send completes every pending call. *)
Definition send_message (type : Z) (payload : list Z) (ok : bool) (calls : PendingCalls) :
    option (list Z) * list Z * PendingCalls :=
  if ok then (Some (frame type payload), [], calls)
  else let '(ran, calls) := force_completion calls in (None, ran, calls).

Definition call_method (method : string) (params : list Z) (c : PendingCall) (ok : bool)
    (next_message_id : Z) (calls : PendingCalls) : option (list Z) * list Z * PendingCalls * Z :=
  let '(inv, next) := invocation_for next_message_id method params in
  let calls := save_completion_details (inv_id inv) c calls in
  (send_message MT_invocation (serialize_invocation inv) ok calls, next).

Definition send_event (event : list Z) (ok : bool) (calls : PendingCalls) :
    option (list Z) * list Z * PendingCalls :=
  send_message MT_response (serialize_result (mkResult None [] [event])) ok calls.

(** ** MessageProcessor *)

Definition send_response (id : Z) (resp : list Z) : list Z :=
  frame MT_response (serialize_result (mkResult (Some id) resp [])).

(** What a message leads to. *)
Inductive Action :=
| Dispatch (raw_invocation : list Z)
| FillResponse (resp : Z) (bytes : list Z)
| RunClosure (closure : Z)
| ProcessEvent (event : list Z).

(** One whole message; [None] for the exception on an unknown id. *)
Definition handle (type : Z) (payload : list Z) (calls : PendingCalls) :
    option (list Action * PendingCalls) :=
  if type =? MT_invocation then Some ([Dispatch payload], calls)
  else if type =? MT_response then
    let result := parse_result payload in
    let evs := ProcessEvent <$> events result in
    match result_id result with
    | None => Some (evs, calls)
    | Some id =>
        match populate_message_for_result id calls with
        | None => None
        | Some resp =>
            let '(ran, calls) := complete_response id calls in
            Some (FillResponse resp (result_response result) :: (RunClosure <$> ran) ++ evs, calls)
        end
    end
  else Some ([], calls).

Inductive Outcome :=
| Waiting        (* all whole messages are handled *)
| Thrown         (* an unknown id; the message stays in the buffer *)
| OutOfBounds    (* the header or the message is read past the buffer's end *)
| OutOfFuel.

Definition message_size (buffer : list Z) : Z :=
  match buffer with
  | high :: medium :: low :: _ => Z.shiftl high 16 + Z.shiftl medium 8 + low
  | _ => 0
  end.

(** The loop.  [buffer_.size() - header_size] is a [size_t]: with fewer bytes than
    a header it wraps around, but by then the header was read out of bounds. *)
Fixpoint process_loop (n : nat) (buffer : list Z) (calls : PendingCalls) (done : list Action) :
    Outcome * list Z * PendingCalls * list Action :=
  match n with
  | O => (OutOfFuel, buffer, calls, done)
  | S n =>
      match buffer with
      | [] => (Waiting, buffer, calls, done)
      | _ :: _ :: _ :: type :: rest =>
          let size := message_size buffer in
          if u64 (zlen buffer - header_size) <? size then (Waiting, buffer, calls, done)
          else
            match handle type (ztake size rest) calls with
            | None => (Thrown, buffer, calls, done)
            | Some (acts, calls) => process_loop n (zdrop size rest) calls (done ++ acts)
            end
      | _ => (OutOfBounds, buffer, calls, done)
      end
  end.

Definition process_data (data buffer : list Z) (calls : PendingCalls) :
    Outcome * list Z * PendingCalls * list Action :=
  let buffer := buffer ++ data in process_loop (S (length buffer)) buffer calls [].

(** The connection hands over the bytes as it reads them, chunk by chunk. *)
Fixpoint feed (chunks : list (list Z)) (buffer : list Z) (calls : PendingCalls)
    (done : list Action) : Outcome * list Z * PendingCalls * list Action :=
  match chunks with
  | [] => (Waiting, buffer, calls, done)
  | chunk :: chunks =>
      match process_data chunk buffer calls with
      | (Waiting, buffer, calls, acts) => feed chunks buffer calls (done ++ acts)
      | (o, buffer, calls, acts) => (o, buffer, calls, done ++ acts)
      end
  end.

(** ** The stream a connection should be *)

(** The messages of a stream handled one by one. *)
Fixpoint handle_all (msgs : list (Z * list Z)) (calls : PendingCalls) (done : list Action) :
    option (PendingCalls * list Action) :=
  match msgs with
  | [] => Some (calls, done)
  | (type, payload) :: msgs =>
      match handle type payload calls with
      | None => None
      | Some (acts, calls) => handle_all msgs calls (done ++ acts)
      end
  end.

Definition frame_of (m : Z * list Z) : list Z := frame m.1 m.2.

Definition stream (msgs : list (Z * list Z)) : list Z := concat (frame_of <$> msgs).

Definition small (m : Z * list Z) : Prop := zlen m.2 < 2 ^ 24.

(** Position [pos] of the stream is inside a header. *)
Fixpoint torn (msgs : list (Z * list Z)) (pos : Z) : bool :=
  match msgs with
  | [] => false
  | m :: msgs =>
      if pos <? zlen (frame_of m) then (0 <? pos) && (pos <? header_size)
      else torn msgs (pos - zlen (frame_of m))
  end.

(** No chunk ends inside a header; [pos]: where the first one starts. *)
Fixpoint untorn (msgs : list (Z * list Z)) (pos : Z) (chunks : list (list Z)) : bool :=
  match chunks with
  | [] => true
  | c :: chunks => negb (torn msgs (pos + zlen c)) && untorn msgs (pos + zlen c) chunks
  end.

(** ** Framing *)

Lemma land_ff x : Z.land x 0xff = x mod 256.
Proof. change 0xff with (Z.ones 8). by rewrite Z.land_ones. Qed.

Lemma message_size_frame type payload rest :
  message_size (frame type payload ++ rest) = zlen payload mod 2 ^ 24.
Proof.
  unfold frame, header_bytes, message_size. cbn [app].
  rewrite !land_ff, !Z.shiftl_mul_pow2, !Z.shiftr_div_pow2 by lia.
  change (2 ^ 0) with 1. rewrite Z.div_1_r.
  change (2 ^ 16) with (256 * 256). change (2 ^ 8) with 256.
  change (2 ^ 24) with (256 * (256 * 256)).
  set (n := zlen payload).
  rewrite Z.rem_mul_r, (Z.rem_mul_r (n / 256)), Z.div_div by lia. lia.
Qed.

Lemma zlen_frame type payload : zlen (frame type payload) = header_size + zlen payload.
Proof. unfold frame. by rewrite zlen_app. Qed.

Lemma stream_cons m msgs : stream (m :: msgs) = frame_of m ++ stream msgs.
Proof. done. Qed.

Lemma small_size m rest : small m -> message_size (frame_of m ++ rest) = zlen m.2.
Proof.
  intros Hm. unfold frame_of. rewrite message_size_frame. apply Z.mod_small.
  unfold small in Hm. pose proof (zlen_nonneg m.2). lia.
Qed.

(** ** The loop *)

(** With a whole frame at the front it handles that frame. *)
Lemma process_loop_frame n m rest calls done :
  small m -> zlen rest < 2 ^ 62 ->
  process_loop (S n) (frame_of m ++ rest) calls done =
    match handle m.1 m.2 calls with
    | None => (Thrown, frame_of m ++ rest, calls, done)
    | Some (acts, calls) => process_loop n rest calls (done ++ acts)
    end.
Proof.
  intros Hm Hrest. pose proof (small_size m rest Hm) as Hsize. unfold small in Hm.
  pose proof (zlen_nonneg m.2). pose proof (zlen_nonneg rest).
  assert (Hlen : zlen (frame_of m ++ rest) = header_size + zlen m.2 + zlen rest)
    by (unfold frame_of; rewrite zlen_app, zlen_frame; lia).
  unfold frame_of, frame, header_bytes in *. cbn [app process_loop] in *.
  rewrite Hsize, Hlen, wrapu_id by (unfold in_u, header_size; lia).
  destruct (Z.ltb_spec (header_size + zlen m.2 + zlen rest - header_size) (zlen m.2)); [lia|].
  by rewrite ztake_app_exact, zdrop_app_exact.
Qed.

(** With less than a frame, its header whole, it waits. *)
Lemma process_loop_partial n m buffer rest calls done :
  small m -> buffer ++ rest = frame_of m -> rest <> [] -> header_size <= zlen buffer ->
  process_loop (S n) buffer calls done = (Waiting, buffer, calls, done).
Proof.
  intros Hm Heq Hrest Hlong.
  assert (Hsize : message_size (buffer ++ rest) = zlen m.2).
  { rewrite Heq, <- (app_nil_r (frame_of m)). by apply small_size. }
  assert (Hlen : zlen buffer + zlen rest = header_size + zlen m.2).
  { rewrite <- zlen_app, Heq. apply zlen_frame. }
  assert (0 < zlen rest) by (destruct rest; [done|unfold zlen; cbn; lia]).
  unfold small in Hm. unfold zlen, header_size in Hlong.
  destruct buffer as [|high [|medium [|low [|type rem]]]]; cbn in Hlong; try lia.
  cbn [process_loop app message_size] in *. rewrite Hsize.
  rewrite wrapu_id by (unfold in_u, header_size in *; rewrite !zlen_cons in *;
                       pose proof (zlen_nonneg rem); lia).
  by destruct (Z.ltb_spec (zlen (high :: medium :: low :: type :: rem) - header_size) (zlen m.2));
    [|unfold header_size in *; lia].
Qed.

(** What of the stream the loop has not handled: less than one frame. *)
Definition incomplete (buffer : list Z) (msgs : list (Z * list Z)) : Prop :=
  match msgs with [] => True | m :: _ => zlen buffer < zlen (frame_of m) end.

Lemma process_loop_stream msgs : forall n buffer rest calls done calls' done',
  Forall small msgs -> buffer ++ rest = stream msgs -> torn msgs (zlen buffer) = false ->
  (length buffer < n)%nat -> zlen buffer < 2 ^ 62 ->
  handle_all msgs calls done = Some (calls', done') ->
  exists k buffer1 calls1 done1,
    process_loop n buffer calls done = (Waiting, buffer1, calls1, done1) /\
    buffer = stream (take k msgs) ++ buffer1 /\
    handle_all (take k msgs) calls done = Some (calls1, done1) /\
    handle_all (drop k msgs) calls1 done1 = Some (calls', done') /\
    incomplete buffer1 (drop k msgs).
Proof.
  induction msgs as [|m msgs IH]; intros n buffer rest calls done calls' done' Hsmall Heq Htorn
    Hn Hbound Hall; (destruct n as [|n]; [lia|]).
  { apply app_nil in Heq as [-> ->]. by exists 0%nat, [], calls, done. }
  inversion Hsmall as [|? ? Hm Hms]; subst. cbn [torn] in Htorn. rewrite stream_cons in Heq.
  destruct (Z.ltb_spec (zlen buffer) (zlen (frame_of m))) as [Hlt|Hge].
  - exists 0%nat, buffer, calls, done. split; [|done].
    destruct buffer as [|b buffer]; [done|].
    apply app_eq_lt in Heq as (k & Hf & Hr & Hk); [|done].
    apply (process_loop_partial n m (b :: buffer) k); [done..|].
    rewrite zlen_cons in *. pose proof (zlen_nonneg buffer). lia.
  - apply app_eq_ge in Heq as (k & -> & Hr); [|done]. cbn [handle_all] in Hall.
    rewrite zlen_app in Hbound, Htorn. pose proof (zlen_nonneg (frame_of m)).
    rewrite process_loop_frame by (done || lia). destruct m as [type payload]. cbn [fst snd] in *.
    destruct (handle type payload calls) as [[acts calls2]|] eqn:Hh; [|done].
    destruct (IH n k rest calls2 (done ++ acts) calls' done') as (j & b1 & c1 & d1 & ? & ? & ? & ? & ?);
      try done; [by rewrite Z.add_simpl_l in Htorn| |lia|].
    { rewrite length_app in Hn. cbn in Hn. lia. }
    exists (S j), b1, c1, d1. cbn [take drop]. rewrite stream_cons. cbn [handle_all]. rewrite Hh.
    split_and!; try done. subst k. by rewrite app_assoc.
Qed.

Lemma torn_drop k : forall msgs pos,
  zlen (stream (take k msgs)) <= pos ->
  torn msgs pos = torn (drop k msgs) (pos - zlen (stream (take k msgs))).
Proof.
  induction k as [|k IH]; intros msgs pos Hpos; [by rewrite Z.sub_0_r|].
  destruct msgs as [|m msgs]; [done|]. cbn [take drop torn] in *.
  rewrite stream_cons, zlen_app in *. pose proof (zlen_nonneg (stream (take k msgs))).
  destruct (Z.ltb_spec pos (zlen (frame_of m))); [lia|].
  rewrite IH by lia. f_equal. lia.
Qed.

Lemma untorn_drop k msgs chunks : forall pos,
  zlen (stream (take k msgs)) <= pos ->
  untorn msgs pos chunks = untorn (drop k msgs) (pos - zlen (stream (take k msgs))) chunks.
Proof.
  induction chunks as [|c chunks IH]; intros pos Hpos; [done|]. cbn [untorn].
  pose proof (zlen_nonneg c).
  rewrite (torn_drop k) by lia. rewrite IH by lia. by rewrite Z.add_sub_swap.
Qed.

Lemma process_loop_done n : forall buffer calls done,
  process_loop n buffer calls done =
    let '(o, b, c, acts) := process_loop n buffer calls [] in (o, b, c, done ++ acts).
Proof.
  induction n as [|n IH]; intros buffer calls done; cbn [process_loop].
  { by rewrite app_nil_r. }
  repeat case_match; simplify_eq; try (by rewrite app_nil_r);
    rewrite IH in *; repeat case_match; simplify_eq; by rewrite ?app_assoc, ?app_nil_r.
Qed.

Lemma feed_stream chunks : forall msgs buffer calls done calls' done',
  Forall small msgs -> buffer ++ concat chunks = stream msgs -> incomplete buffer msgs ->
  untorn msgs (zlen buffer) chunks = true -> zlen (stream msgs) < 2 ^ 62 ->
  handle_all msgs calls done = Some (calls', done') ->
  feed chunks buffer calls done = (Waiting, [], calls', done').
Proof.
  induction chunks as [|chunk chunks IH]; intros msgs buffer calls done calls' done' Hsmall Heq
    Hinc Hun Hbound Hall.
  - cbn [concat feed] in *. rewrite app_nil_r in Heq. subst buffer. destruct msgs as [|m msgs].
    + cbn in Hall. by simplify_eq.
    + cbn [incomplete] in Hinc. rewrite stream_cons, zlen_app in Hinc.
      pose proof (zlen_nonneg (stream msgs)). lia.
  - cbn [concat feed untorn] in *. apply andb_prop in Hun as [Ht Hun].
    rewrite app_assoc in Heq. rewrite <- zlen_app in Ht, Hun.
    assert (zlen (buffer ++ chunk) < 2 ^ 62).
    { rewrite <- Heq, zlen_app in Hbound. pose proof (zlen_nonneg (concat chunks)). lia. }
    destruct (process_loop_stream msgs (S (length (buffer ++ chunk))) (buffer ++ chunk)
      (concat chunks) calls done calls' done') as (k & b1 & c1 & d1 & Hrun & Hb & _ & Hrest & Hinc1);
      try done; [by destruct (torn _ _)|lia|].
    unfold process_data. rewrite process_loop_done in Hrun.
    destruct (process_loop _ (buffer ++ chunk) calls []) as [[[o b] c] acts]. simplify_eq.
    assert (Hlen : zlen (buffer ++ chunk) = zlen (stream (take k msgs)) + zlen b1)
      by (by rewrite Hb, zlen_app).
    assert (Hs : stream msgs = stream (take k msgs) ++ stream (drop k msgs)).
    { unfold stream. by rewrite <- concat_app, <- fmap_app, take_drop. }
    rewrite Hs, zlen_app in Hbound. pose proof (zlen_nonneg (stream (take k msgs))).
    pose proof (zlen_nonneg b1).
    apply (IH (drop k msgs) b1); try done; [by apply Forall_drop| | |lia].
    + rewrite Hb, Hs, <- app_assoc in Heq. by apply app_inv_head in Heq.
    + rewrite (untorn_drop k), Hlen, Z.add_simpl_l in Hun by lia. done.
Qed.

(** ** The life of a channel

    The calls made on it, the events sent and the responses that arrive, in any
    order; [ok] says whether the send succeeds. *)

Inductive ChannelEvent :=
| Call (method : string) (params : list Z) (c : PendingCall) (ok : bool)
| Event (event : list Z) (ok : bool)
| Response (id : Z).

Record ChannelState := mkChannel {
  pending_calls_ : PendingCalls;
  next_message_id : Z;
  ran : list Z
}.

Definition channel_step (s : ChannelState) (e : ChannelEvent) : ChannelState :=
  match e with
  | Call method params c ok =>
      let '(_, closures, calls, next) :=
        call_method method params c ok (next_message_id s) (pending_calls_ s) in
      mkChannel calls next (ran s ++ closures)
  | Event event ok =>
      let '(_, closures, calls) := send_event event ok (pending_calls_ s) in
      mkChannel calls (next_message_id s) (ran s ++ closures)
  | Response id =>
      let '(closures, calls) := complete_response id (pending_calls_ s) in
      mkChannel calls (next_message_id s) (ran s ++ closures)
  end.

Definition channel_run (s : ChannelState) (es : list ChannelEvent) : ChannelState :=
  foldl channel_step s es.

Definition calls_of (e : ChannelEvent) : list Z :=
  match e with Call _ _ c _ => [complete c] | _ => [] end.

Definition waiting (calls : PendingCalls) : list Z := (fun p => complete p.2) <$> map_to_list calls.

Definition channel_init : ChannelState := mkChannel ∅ 0 [].

(** [n] calls were made: every pending id is one of them. *)
Definition channel_inv (n : Z) (s : ChannelState) : Prop :=
  next_message_id s = u32 n /\
  (forall k, is_Some (pending_calls_ s !! k) -> exists i, 0 <= i < n /\ k = i32 i) /\
  (forall k c, pending_calls_ s !! k = Some c -> complete c <> 0).

Lemma i32_inj x y : 0 <= x < 2 ^ 32 -> 0 <= y < 2 ^ 32 -> i32 x = i32 y -> x = y.
Proof.
  intros Hx Hy H. apply wraps_inj in H; [done|lia..].
Qed.

Lemma waiting_insert id c calls :
  calls !! i32 id = None -> waiting (save_completion_details id c calls) ≡ₚ complete c :: waiting calls.
Proof. intros H. unfold waiting, save_completion_details. by rewrite map_to_list_insert. Qed.

Lemma force_waiting calls : force_completion calls = (waiting calls, ∅).
Proof. done. Qed.

Lemma waiting_empty : waiting ∅ = [].
Proof. unfold waiting. by rewrite map_to_list_empty. Qed.

Lemma waiting_complete id calls :
  (forall k c, calls !! k = Some c -> complete c <> 0) ->
  let '(closures, calls') := complete_response id calls in
  closures ++ waiting calls' ≡ₚ waiting calls.
Proof.
  intros Hnz. unfold complete_response, waiting. destruct (calls !! i32 id) as [c|] eqn:Hc; [|done].
  destruct (Z.eqb_spec (complete c) 0) as [H|]; [by apply Hnz in Hc|].
  by rewrite <- (map_to_list_delete _ _ _ Hc).
Qed.

Lemma complete_keeps id calls k c :
  (complete_response id calls).2 !! k = Some c -> calls !! k = Some c.
Proof. unfold complete_response. case_match; [|done]. cbn. by intros [_ ?]%lookup_delete_Some. Qed.

Lemma channel_step_ok n s e :
  channel_inv n s -> 0 <= n -> n + zlen (calls_of e) <= 2 ^ 32 -> Forall (fun c => c <> 0) (calls_of e) ->
  channel_inv (n + zlen (calls_of e)) (channel_step s e) /\
  ran (channel_step s e) ++ waiting (pending_calls_ (channel_step s e)) ≡ₚ
    (ran s ++ waiting (pending_calls_ s)) ++ calls_of e.
Proof.
  destruct s as [calls next rn]. intros (Hnext & Hkeys & Hnz) Hn Hmax He. cbn in Hnext, Hkeys, Hnz. subst next.
  destruct e as [method params c ok|event ok|id]; cbn [calls_of channel_step] in *.
  - inversion He; subst. change (zlen [complete c]) with 1 in *.
    assert (Hnew : calls !! i32 n = None).
    { apply eq_None_not_Some. intros (i & Hi & Heq)%Hkeys. apply i32_inj in Heq; lia. }
    unfold call_method, invocation_for, next_id, send_message. cbn.
    rewrite (wrapu_id 32 n) by (unfold in_u; lia).
    pose proof (waiting_insert n c calls Hnew) as Hw.
    destruct ok; cbn; (split; [split_and!|]); try done.
    + cbn. unfold save_completion_details.
      intros k [<-|(_ & Hk)]%lookup_insert_is_Some; [exists n; split; [lia|done]|].
      destruct (Hkeys k Hk) as (i & ? & ?). exists i. split; [lia|done].
    + cbn. unfold save_completion_details.
      intros k c' [(<- & <-)|(_ & Hk)]%lookup_insert_Some; eauto.
    + rewrite app_nil_r, Hw. solve_Permutation.
    + cbn. by intros k [? ?%lookup_empty_Some].
    + change ((fun p : Z * PendingCall => complete p.2) <$>
        map_to_list (save_completion_details n c calls)) with
        (waiting (save_completion_details n c calls)).
      rewrite waiting_empty, Hw. solve_Permutation.
  - change (zlen []) with 0. rewrite Z.add_0_r, app_nil_r. unfold send_event, send_message.
    destruct ok; cbn; (split; [split_and!|]); try done.
    + by rewrite app_nil_r.
    + cbn. by intros k [? ?%lookup_empty_Some].
    + by rewrite waiting_empty, app_nil_r.
  - change (zlen []) with 0. rewrite Z.add_0_r, app_nil_r. pose proof (waiting_complete id calls Hnz) as Hw.
    pose proof (complete_keeps id calls) as Hk.
    cbn [pending_calls_ next_message_id ran].
    destruct (complete_response id calls) as [closures calls']. cbn in *.
    split; [|by rewrite <- app_assoc, Hw]. split; [|split].
    + done.
    + intros k [c' Hc]. apply Hkeys. eauto.
    + intros k c' Hc. eauto.
Qed.

Lemma channel_run_ok es : forall n s,
  channel_inv n s -> 0 <= n -> n + zlen (es ≫= calls_of) <= 2 ^ 32 ->
  Forall (fun c => c <> 0) (es ≫= calls_of) ->
  ran (channel_run s es) ++ waiting (pending_calls_ (channel_run s es)) ≡ₚ
    (ran s ++ waiting (pending_calls_ s)) ++ (es ≫= calls_of).
Proof.
  induction es as [|e es IH]; intros n s Hinv Hn Hbound Hnz; [by rewrite app_nil_r|].
  change ((e :: es) ≫= calls_of) with (calls_of e ++ (es ≫= calls_of)) in *.
  apply Forall_app in Hnz as [He Hes]. rewrite zlen_app in Hbound.
  pose proof (zlen_nonneg (calls_of e)). pose proof (zlen_nonneg (es ≫= calls_of)).
  destruct (channel_step_ok n s e) as [Hinv' Hstep]; [done|lia..|done|].
  change (channel_run s (e :: es)) with (channel_run (channel_step s e) es).
  rewrite (IH _ _ Hinv') by (done || lia). by rewrite Hstep, <- !app_assoc.
Qed.

(** ** Properties *)

(** C5: messages that arrive in chunks cut anywhere but inside a header are
    handled one by one, in order, each exactly once, and nothing of them stays in
    the buffer. *)
Theorem rpc_stream_delivered msgs chunks calls calls' acts :
  Forall small msgs -> zlen (stream msgs) < 2 ^ 62 ->
  concat chunks = stream msgs -> untorn msgs 0 chunks = true ->
  handle_all msgs calls [] = Some (calls', acts) ->
  feed chunks [] calls [] = (Waiting, [], calls', acts).
Proof.
  intros Hsmall Hbound Hchunks Hun Hall. apply (feed_stream chunks msgs); try done.
  destruct msgs as [|m msgs]; [done|]. cbn [incomplete]. unfold frame_of.
  rewrite zlen_frame. pose proof (zlen_nonneg m.2). unfold header_size. unfold zlen at 1. cbn. lia.
Qed.

(** C7: the closure of every call made on a channel has either run exactly once or
    is still waiting, whatever sends fail and whatever responses arrive, wanted or
    not; ids do not repeat in the first 2^32 calls. *)
Theorem calls_complete_once es :
  Forall (fun c => c <> 0) (es ≫= calls_of) -> zlen (es ≫= calls_of) <= 2 ^ 32 ->
  let s := channel_run channel_init es in
  ran s ++ waiting (pending_calls_ s) ≡ₚ (es ≫= calls_of).
Proof.
  intros Hnz Hlen s. unfold s. rewrite (channel_run_ok es 0); [..|lia|lia|done].
  - cbn. by rewrite waiting_empty.
  - split; [done|]. split; intros k; cbn; [intros [? ?%lookup_empty_Some]; done|].
    by intros c ?%lookup_empty_Some.
Qed.

(** What the loop cannot take.  A read that ends inside a header is followed by
    an access past the end of the buffer; the header of a payload of 2^24 bytes or
    more announces its length modulo 2^24; a response to an id nobody waits for
    throws and stays in front of everything that arrives later. *)
Lemma rpc_limits m buffer data calls :
  (0 < zlen (buffer ++ data) < header_size ->
     process_data data buffer calls = (OutOfBounds, buffer ++ data, calls, [])) /\
  message_size (frame_of m) = zlen m.2 mod 2 ^ 24 /\
  (small m -> zlen (buffer ++ data) < 2 ^ 62 -> handle m.1 m.2 calls = None ->
     process_data data (frame_of m ++ buffer) calls =
       (Thrown, frame_of m ++ buffer ++ data, calls, [])).
Proof.
  split; [|split].
  - unfold process_data, header_size. intros Hlen.
    destruct (buffer ++ data) as [|b0 [|b1 [|b2 [|b3 l]]]]; [by destruct Hlen|..].
    all: try done. rewrite !zlen_cons in Hlen. pose proof (zlen_nonneg l). lia.
  - rewrite <- (app_nil_r (frame_of m)). apply message_size_frame.
  - intros Hm Hbound Hnone. unfold process_data. rewrite <- app_assoc, process_loop_frame by done.
    by rewrite Hnone.
Qed.
End rpc.

(** ** At concrete inputs *)

(** A serialisation for the examples: a response is its id, then its bytes. *)
Definition toy_invocation (i : Invocation) : list Z := inv_id i :: parameters i.
Definition toy_result (r : Result) : list Z := default 0 (result_id r) :: result_response r.
Definition toy_parse (l : list Z) : Result :=
  match l with
  | id :: l => mkResult (Some id) l []
  | [] => mkResult None [] []
  end.

Definition toy_msgs : list (Z * list Z) := [(0, [9; 9; 9]); (1, [5; 1; 2]); (0, [])].

Definition toy_chunks : list (list Z) :=
  [[0; 0; 3; 0; 9]; [9; 9; 0; 0; 3; 1]; []; [5; 1; 2; 0; 0; 0; 0]].

Lemma rpc_stream_delivered_witness :
  feed toy_parse toy_chunks [] {[5 := mkCall 70 71]} [] =
    (Waiting, [], ∅, [Dispatch [9; 9; 9]; FillResponse 70 [1; 2]; RunClosure 71; Dispatch []]).
Proof.
  apply (rpc_stream_delivered toy_parse toy_msgs toy_chunks).
  - repeat constructor.
  - by vm_compute.
  - by vm_compute.
  - by vm_compute.
  - by vm_compute.
Defined.

Definition toy_events : list ChannelEvent :=
  [Call "create_session" [] (mkCall 70 71) true; Call "launch" [1] (mkCall 80 81) true;
   Response 1; Response 9; Event [3] true; Call "stop" [] (mkCall 90 91) true;
   Event [4] false; Response 0; Call "again" [] (mkCall 100 101) true].

Definition toy_run : ChannelState :=
  channel_run toy_invocation toy_result channel_init toy_events.

Lemma calls_complete_once_witness :
  length (ran toy_run) = 3%nat /\ waiting (pending_calls_ toy_run) = [101] /\
  ran toy_run ++ [101] ≡ₚ [71; 81; 91; 101].
Proof.
  split; [by vm_compute|]. split; [by vm_compute|].
  apply (calls_complete_once toy_invocation toy_result toy_events).
  - repeat (constructor; [done|]). constructor.
  - by vm_compute.
Defined.

Lemma rpc_limits_witness :
  process_data toy_parse [0; 2] [0] ∅ = (OutOfBounds, [0; 0; 2], ∅, []) /\
  process_data toy_parse [0; 0; 0] ([0; 0; 1; 1; 7]) ∅ =
    (Thrown, [0; 0; 1; 1; 7; 0; 0; 0], ∅, []).
Proof.
  split.
  - apply (rpc_limits toy_parse (1, [7]) [0] [0; 2] ∅). by vm_compute.
  - apply (rpc_limits toy_parse (1, [7]) [] [0; 0; 0] ∅); by vm_compute.
Defined.
