(* ===== verification/BufferedStream.v ===== *)
(** * The render thread's byte stream

    [src/src/anbox/graphics/buffered_io_stream.{h,cpp}]: the connection's thread
    posts what arrives to [in_queue_], the render thread reads from it and commits
    what it writes to [out_queue_], a worker sends that out.  A memory cell is
    [option Z], as in SmallVector.v; the socket's [send] is the list of its results
    and error numbers.  The theorems: reads hand out what was posted, in order and
    without loss, blocking only when there is nothing; a commit appends one buffer;
    what the socket gets. *)

From S2P Require Import Prelude SmallVector Ring BufferQueue.

Abbreviation cells := (list (option Z)).

#[local] Set Default Proof Using "Type".

Section stream.
Variable malloc_ok : Z -> bool.

Record BufferedIOStream := mkStream {
  write_buffer_ : Buffer;
  read_buffer_ : Buffer;
  read_buffer_left_ : Z;
  in_queue_ : BufferQueue Buffer;
  out_queue_ : BufferQueue Buffer
}.

Definition stream_new (buffer_size : Z) : option BufferedIOStream :=
  write_buffer ← resize_noinit 0 malloc_ok buffer_size default_object;
  Some (mkStream write_buffer default_object 0 (bq_new 1024) (bq_new 16)).

(** ** Reading *)

Inductive read_result :=
| Got (bytes : cells)   (* [*inout_len] of them *)
| Null                  (* [nullptr] *)
| Blocks                (* asleep in [pop_locked]; it starts over when woken *)
| ReadFuel.

(** One iteration's pop; [count]: the bytes read so far. *)
Definition read_pop (count : Z) (s : BufferedIOStream) :
    attempt (Z * BufferQueue Buffer * Buffer * list signal) :=
  if count =? 0 then pop_locked (in_queue_ s) (read_buffer_ s)
  else Returns (try_pop_locked (in_queue_ s) (read_buffer_ s)).

(** [got]: what is at [buf] already; [count] is its length. *)
Fixpoint read_loop (n : nat) (wanted : Z) (got : cells) (s : BufferedIOStream) :
    read_result * BufferedIOStream :=
  match n with
  | O => (ReadFuel, s)
  | S n =>
      let count := zlen got in
      let left := read_buffer_left_ s in
      if wanted <=? count then (Got got, s)
      else if 0 <? left then
        let avail := Z.min (wanted - count) left in
        let from := sv_size (read_buffer_ s) - left in
        read_loop n wanted (got ++ ztake avail (zdrop from (sv_storage (read_buffer_ s))))
          (mkStream (write_buffer_ s) (read_buffer_ s) (left - avail) (in_queue_ s) (out_queue_ s))
      else
        match read_pop count s with
        | Waits => (Blocks, s)
        | Returns (result, q, buffer, _) =>
            let left' := if result =? 0 then sv_size buffer else left in
            let s := mkStream (write_buffer_ s) buffer left' q (out_queue_ s) in
            if result =? 0 then read_loop n wanted got s
            else if 0 <? count then (Got got, s) else (Null, s)
        end
  end.

(** Every iteration empties the read buffer or pops. *)
Definition read_fuel (s : BufferedIOStream) : nat := 3 + 2 * Z.to_nat (count_ (in_queue_ s)).

Definition read (wanted : Z) (s : BufferedIOStream) : read_result * BufferedIOStream :=
  read_loop (read_fuel s) wanted [] s.

Definition post_data (data : Buffer) (s : BufferedIOStream) : attempt (Z * BufferedIOStream) :=
  match push_locked (in_queue_ s) data with
  | Waits => Waits
  | Returns (r, q, _, _) =>
      Returns (r, mkStream (write_buffer_ s) (read_buffer_ s) (read_buffer_left_ s) q (out_queue_ s))
  end.

Definition needs_data (s : BufferedIOStream) : bool := negb (can_pop_locked (in_queue_ s)).

Definition forceStop (s : BufferedIOStream) : BufferedIOStream :=
  mkStream (write_buffer_ s) (read_buffer_ s) (read_buffer_left_ s)
    (close_locked (in_queue_ s)).1 (close_locked (out_queue_ s)).1.

(** ** Writing *)

Definition with_write (b : Buffer) (q : BufferQueue Buffer) (s : BufferedIOStream) :
    BufferedIOStream :=
  mkStream b (read_buffer_ s) (read_buffer_left_ s) (in_queue_ s) q.

(** [None]: the program aborts for want of memory. *)
Definition allocBuffer (min_size : Z) (s : BufferedIOStream) : option BufferedIOStream :=
  if sv_size (write_buffer_ s) <? min_size then
    b ← resize_noinit 0 malloc_ok min_size (write_buffer_ s);
    Some (with_write b (out_queue_ s) s)
  else Some s.

(** The push's result is not looked at; [Waits]: the queue is full. *)
Definition commitBuffer (size : Z) (s : BufferedIOStream) :
    option (attempt (Z * BufferedIOStream)) :=
  if isAllocated (write_buffer_ s) then
    b ← resize 0 malloc_ok size (write_buffer_ s);
    Some (match push_locked (out_queue_ s) b with
          | Waits => Waits
          | Returns (_, q, b, _) => Returns (size, with_write b q s)
          end)
  else
    b ← sv_of_range 512 malloc_ok (ztake size (sv_storage (write_buffer_ s)));
    Some (match push_locked (out_queue_ s) b with
          | Waits => Waits
          | Returns (_, q, _, _) => Returns (size, with_write (write_buffer_ s) q s)
          end).

(** ** The worker

    What [send_raw] answers, call by call: for the length asked, its result and
    [errno].  [None]: the answers given are used up. *)

Definition answer : Type := Z -> Z * Z.

Fixpoint send_loop (outs : list answer) (buffer : cells) (bytes_left : Z) (wire : cells) :
    option (list answer) * Z * cells :=
  if bytes_left <=? 0 then (Some outs, 0, wire)
  else
    match outs with
    | [] => (None, bytes_left, wire)
    | send_raw :: outs =>
        let '(written, errno) := send_raw bytes_left in
        if written <? 0 then
          if negb (errno =? EINTR) && negb (errno =? EAGAIN) then (Some outs, bytes_left, wire)
          else send_loop outs buffer bytes_left wire
        else
          send_loop outs buffer (bytes_left - written)
            (wire ++ ztake written (zdrop (zlen buffer - bytes_left) buffer))
    end.

Inductive worker_result :=
| Asleep                       (* in [pop_locked] *)
| Stopped                      (* the thread has ended *)
| Sending (unsent : cells)     (* in [send_raw] *)
| WorkerFuel.

(** [thread_main]; a buffer starts as a fresh object. *)
Fixpoint thread_main (n : nat) (outs : list answer) (q : BufferQueue Buffer) (wire : cells) :
    worker_result * BufferQueue Buffer * cells :=
  match n with
  | O => (WorkerFuel, q, wire)
  | S n =>
      match pop_locked q default_object with
      | Waits => (Asleep, q, wire)
      | Returns (result, q, buffer, _) =>
          if negb (result =? 0) && negb (result =? - EAGAIN) then (Stopped, q, wire)
          else
            match send_loop outs (contents buffer) (sv_size buffer) wire with
            | (None, bytes_left, wire) =>
                (Sending (zdrop (sv_size buffer - bytes_left) (contents buffer)), q, wire)
            | (Some outs, _, wire) => thread_main n outs q wire
            end
      end
  end.

(** ** Reads *)

Record stream_wf (s : BufferedIOStream) : Prop := {
  swf_write : sv_wf 512 (write_buffer_ s);
  swf_read : sv_wf 512 (read_buffer_ s);
  swf_left : 0 <= read_buffer_left_ s <= sv_size (read_buffer_ s);
  swf_in : bq_wf (in_queue_ s);
  swf_out : bq_wf (out_queue_ s)
}.

(** What has been posted and not yet read. *)
Definition unread (s : BufferedIOStream) : cells :=
  zdrop (sv_size (read_buffer_ s) - read_buffer_left_ s) (contents (read_buffer_ s)) ++
  concat (items (in_queue_ s)).

Definition closed_in (s : BufferedIOStream) : bool := closed_ (in_queue_ s).

(** The loop leaves the writing side alone. *)
Definition same_write (s s' : BufferedIOStream) : Prop :=
  write_buffer_ s' = write_buffer_ s /\ out_queue_ s' = out_queue_ s.

Definition read_ok (wanted : Z) (got : cells) (s : BufferedIOStream)
    (r : read_result * BufferedIOStream) : Prop :=
  stream_wf r.2 /\ same_write s r.2 /\ closed_in r.2 = closed_in s /\
  match r.1 with
  | Got bytes =>
      bytes = ztake wanted (got ++ unread s) /\ unread r.2 = zdrop wanted (got ++ unread s) /\
      (bytes = [] -> wanted <= 0)
  | Null => got = [] /\ unread s = [] /\ unread r.2 = [] /\ closed_in s = true /\ 0 < wanted
  | Blocks => got = [] /\ unread s = [] /\ unread r.2 = [] /\ closed_in s = false /\ 0 < wanted
  | ReadFuel => False
  end.

(** One copy out of the read buffer. *)
Lemma unread_copy s avail :
  stream_wf s -> 0 <= avail <= read_buffer_left_ s ->
  let s' := mkStream (write_buffer_ s) (read_buffer_ s) (read_buffer_left_ s - avail)
              (in_queue_ s) (out_queue_ s) in
  stream_wf s' /\
  unread s = ztake avail (zdrop (sv_size (read_buffer_ s) - read_buffer_left_ s)
                            (sv_storage (read_buffer_ s))) ++ unread s' /\
  zlen (ztake avail (zdrop (sv_size (read_buffer_ s) - read_buffer_left_ s)
                            (sv_storage (read_buffer_ s)))) = avail.
Proof.
  intros [Hw Hr Hl Hi Ho] Ha s'. pose proof (wf_size 512 _ Hr).
  pose proof (wf_storage 512 _ Hr) as Hst. split; [by constructor; simpl; try lia|].
  set (from := sv_size _ - _) in *. split.
  - unfold unread. cbn. fold from. rewrite app_assoc. f_equal.
    unfold contents. rewrite (zslice_split from avail) by (unfold from; lia).
    do 2 f_equal. unfold from. lia.
  - rewrite zlen_ztake; [done|]. rewrite zlen_zdrop; unfold from in *; lia.
Qed.

(** A pop that succeeds, once the read buffer is empty. *)
Lemma read_pop_ok count s :
  stream_wf s -> read_buffer_left_ s = 0 -> 0 <= count ->
  match read_pop count s with
  | Waits => count = 0 /\ unread s = [] /\ closed_in s = false
  | Returns (r, q, buffer, _) =>
      (r = 0 /\ 0 < count_ (in_queue_ s) /\ count_ q = count_ (in_queue_ s) - 1 /\
       let s' := mkStream (write_buffer_ s) buffer (sv_size buffer) q (out_queue_ s) in
       stream_wf s' /\ unread s' = unread s /\ closed_in s' = closed_in s) \/
      (r <> 0 /\ q = in_queue_ s /\ buffer = read_buffer_ s /\ unread s = [] /\
       (count = 0 -> closed_in s = true))
  end.
Proof.
  intros [Hw Hr Hl Hi Ho] Hleft Hcount. unfold closed_in.
  assert (Hu : unread s = concat (items (in_queue_ s))).
  { unfold unread. rewrite Hleft, Z.sub_0_r, zdrop_all; [done|].
    rewrite (zlen_contents 512) by done. lia. }
  pose proof (zlen_items _ Hi) as Hitems. pose proof (bq_wf_count _ Hi).
  assert (Hempty : count_ (in_queue_ s) = 0 -> unread s = []).
  { intros Hz. rewrite Hu, (zlen_nil_inv (items _)); [done|lia]. }
  assert (Htry : count_ (in_queue_ s) <> 0 ->
    let '(r, q, buffer, sg) := try_pop_locked (in_queue_ s) (read_buffer_ s) in
    r = 0 /\ 0 < count_ (in_queue_ s) /\ count_ q = count_ (in_queue_ s) - 1 /\
       let s' := mkStream (write_buffer_ s) buffer (sv_size buffer) q (out_queue_ s) in
       stream_wf s' /\ unread s' = unread s /\ closed_in s' = closed_in s).
  { intros Hz. pose proof (pop_locked_pass (in_queue_ s) (read_buffer_ s)) as Hp.
    unfold pop_locked in Hp. rewrite (proj2 (Z.eqb_neq _ _) Hz) in Hp.
    destruct (try_pop_locked _ _) as [[[r q] b] sg] eqn:Htry.
    destruct (Hp _ _ _ _ Hi Hr eq_refl) as (Hq & Hb & Hcl & Hcap & [(-> & Hit & Hcnt & _)|(-> & _)]).
    - split; [done|]. split; [lia|]. split; [done|]. split; [|split; [|done]].
      + change (movable_wf b) with (sv_wf 512 b) in Hb. constructor; cbn; try done.
        pose proof (wf_size 512 b Hb). lia.
      + unfold unread at 1. cbn. rewrite Z.sub_diag, zdrop_0, Hu, Hit. done.
    - unfold try_pop_locked in Htry. rewrite (proj2 (Z.eqb_neq _ _) Hz) in Htry.
      injection Htry as Heio. by unfold EIO in Heio. }
  unfold read_pop, pop_locked.
  destruct (Z.eqb_spec (count_ (in_queue_ s)) 0) as [Hz|Hz].
  - destruct (Z.eqb_spec count 0); [destruct (closed_ _) eqn:Hcl|].
    + right. split_and!; auto.
    + by split_and!; auto.
    + unfold try_pop_locked. rewrite Hz. cbn. right.
      destruct (closed_ _); split_and!; auto; done.
  - specialize (Htry Hz). destruct (try_pop_locked _ _) as [[[r q] b] sg].
    destruct (count =? 0); left; exact Htry.
Qed.

(** Iterations still needed. *)
Definition read_steps (s : BufferedIOStream) : nat :=
  2 * Z.to_nat (count_ (in_queue_ s)) + if 0 <? read_buffer_left_ s then 1 else 0.

Lemma read_loop_ok n : forall wanted got s,
  stream_wf s -> zlen got <= Z.max wanted 0 ->
  wanted <= zlen got /\ (1 <= n)%nat \/ (read_steps s + 2 <= n)%nat ->
  read_ok wanted got s (read_loop n wanted got s).
Proof.
  induction n as [|n IH]; intros wanted got s Hwf Hgot Hn; [lia|]. cbn [read_loop].
  pose proof (zlen_nonneg got).
  destruct (Z.leb_spec wanted (zlen got)) as [Hdone|Hmore].
  { unfold read_ok. cbn. split_and!; try done.
    - destruct (Z.leb_spec 0 wanted); [by rewrite ztake_app_eq by lia|].
      assert (got = []) as -> by (apply zlen_nil_inv; lia). cbn.
      by rewrite ztake_nonpos by lia.
    - destruct (Z.leb_spec 0 wanted).
      + replace wanted with (zlen got) by lia. by rewrite zdrop_app_exact.
      + assert (got = []) as -> by (apply zlen_nil_inv; lia). cbn.
        by rewrite zdrop_nonpos by lia.
    - intros ->. done. }
  destruct (Z.ltb_spec 0 (read_buffer_left_ s)) as [Hleft|Hleft].
  - set (avail := Z.min _ _).
    destruct (unread_copy s avail Hwf) as (Hwf' & Hun & Hlen); [lia|].
    set (chunk := ztake avail _) in *. set (s' := mkStream _ _ _ _ _) in *.
    destruct (IH wanted (got ++ chunk) s' Hwf') as (? & ? & ? & Hr).
    + rewrite zlen_app. lia.
    + rewrite zlen_app, Hlen. unfold read_steps in *. cbn in *.
      destruct (Z.ltb_spec 0 (read_buffer_left_ s)), (Z.ltb_spec 0 (read_buffer_left_ s - avail)); lia.
    + unfold read_ok. destruct (read_loop n wanted (got ++ chunk) s') as [r s2]. cbn in *.
      split_and!; try done. rewrite Hun, app_assoc.
      destruct r; try done; destruct Hr as (Hnil & _); apply app_nil in Hnil as [-> Hc];
        rewrite Hc in Hlen; unfold zlen in Hlen; cbn in Hlen; lia.
  - assert (Hz : read_buffer_left_ s = 0) by (destruct Hwf; lia).
    pose proof (read_pop_ok (zlen got) s Hwf Hz) as Hpop.
    destruct (read_pop (zlen got) s) as [[[[r q] b] sg]|].
    + destruct Hpop as [(-> & Hpos & Hcnt & Hwf' & Hun & Hcl)|(Hr & -> & -> & Hun & Hcl)]; [lia| |].
      * cbn [Z.eqb]. destruct (IH wanted got _ Hwf' Hgot) as (? & ? & ? & Hres).
        { right. unfold read_steps in *. cbn. rewrite Hcnt, Hz in *.
          destruct (0 <? sv_size b); cbn in Hn; lia. }
        unfold read_ok. rewrite Hun, Hcl in *. split_and!; done.
      * rewrite (proj2 (Z.eqb_neq _ _) Hr), Hz.
        set (s' := mkStream _ _ _ _ _).
        assert (s' = s) as -> by (unfold s'; rewrite <- Hz; by destruct s).
        destruct (Z.ltb_spec 0 (zlen got)).
        -- unfold read_ok. cbn. rewrite Hun, app_nil_r.
           split_and!; try done; [by rewrite ztake_all by lia|by rewrite zdrop_all by lia|].
           intros ->. done.
        -- assert (got = []) as -> by (apply zlen_nil_inv; lia).
           unfold read_ok; cbn; split_and!; try done; by apply Hcl.
    + destruct Hpop as (Hg & Hun & Hcl); [lia|]. assert (got = []) as -> by (apply zlen_nil_inv; lia).
      by unfold read_ok; cbn; split_and!.
Qed.

(** ** Construction and arrival *)

Lemma stream_new_wf n s : 0 <= n -> stream_new n = Some s -> stream_wf s /\ unread s = [].
Proof.
  unfold stream_new. intros Hn. destruct (resize_noinit _ _ _ _) as [b|] eqn:Hb; [|done].
  cbn. intros [= <-]. apply (resize_impl_spec 0 512) in Hb as [Hb _]; [|by apply sv_default_wf|done].
  split; [|done]. constructor; cbn; try done;
    apply bq_new_wf; unfold ring_cap; lia.
Qed.

Lemma post_ok data s :
  stream_wf s -> sv_wf 512 data -> can_push_locked (in_queue_ s) = true ->
  exists s', post_data data s = Returns (0, s') /\ stream_wf s' /\
    unread s' = unread s ++ contents data.
Proof.
  intros [Hw Hr Hl Hi Ho] Hd Hcan.
  unfold can_push_locked in Hcan. apply andb_prop in Hcan as [Hopen Hroom].
  unfold post_data. destruct (push_locked (in_queue_ s) data) as [[[[r q] b'] sg]|] eqn:Hp.
  - destruct (push_locked_pass _ _ _ _ _ _ Hi Hd Hp) as [Hq [(-> & Hit & _)|(-> & _ & _ & Hcl)]].
    + eexists. split; [done|]. split; [by constructor|].
      unfold unread. cbn. rewrite Hit, concat_app. cbn. by rewrite app_nil_r, app_assoc.
    + by rewrite Hcl in Hopen.
  - unfold push_locked in Hp. by replace (_ =? _) with false in Hp by lia.
Qed.

(** ** Commits *)

(** The buffer a commit pushes: the first [size] cells written. *)
Lemma commit_buffer size b :
  sv_wf 512 b -> 0 <= size <= sv_size b ->
  if isAllocated b then
    exists b', resize 0 malloc_ok size b = Some b' /\ sv_wf 512 b' /\
      contents b' = ztake size (contents b)
  else
    exists b', sv_of_range 512 malloc_ok (ztake size (sv_storage b)) = Some b' /\ sv_wf 512 b' /\
      contents b' = ztake size (contents b).
Proof.
  intros Hb Hs. pose proof (wf_size 512 b Hb). destruct (isAllocated b) eqn:Ha.
  - exists (if size <? sv_size b then set_size b size else b). unfold resize, resize_impl.
    destruct (Z.ltb_spec size (sv_size b)).
    + split; [done|]. split; [apply set_size_wf; [done|lia]|]. apply (contents_shrink 512); [done|lia].
    + replace (sv_size b <? size) with false by lia. split; [done|]. split; [done|].
      rewrite ztake_all; [done|]. rewrite (zlen_contents 512) by done. lia.
  - assert (Hcap : sv_capacity b = 512).
    { apply (wf_inplace 512); [done|]. unfold isAllocated in Ha. by destruct (sv_heap b). }
    assert (Hlen : zlen (ztake size (sv_storage b)) = size).
    { apply zlen_ztake. rewrite (wf_storage 512) by done. lia. }
    assert (Hcut : ztake size (sv_storage b) = ztake size (contents b)).
    { unfold contents, ztake. rewrite take_take. f_equal. lia. }
    assert (Hsome : is_Some (sv_of_range 512 malloc_ok (ztake size (sv_storage b)))).
    { unfold sv_of_range, insert_back, grow_for_size. rewrite Hlen. case_match; [by eexists|].
      replace (sv_capacity _ <? _) with false by (cbn [sv_capacity sv_size sv_default]; lia).
      by eexists. }
    destruct Hsome as [b' Hb']. exists b'. split; [done|].
    unfold sv_of_range in Hb'.
    apply (insert_back_spec 512) in Hb' as [? ->]; [|apply sv_default_wf; lia].
    split; [done|]. unfold contents at 1. cbn. by rewrite Hcut.
Qed.

Lemma commit_ok size s :
  stream_wf s -> 0 <= size <= sv_size (write_buffer_ s) ->
  can_push_locked (out_queue_ s) = true ->
  exists s', commitBuffer size s = Some (Returns (size, s')) /\ stream_wf s' /\
    items (out_queue_ s') = items (out_queue_ s) ++ [ztake size (contents (write_buffer_ s))] /\
    capacity_ (out_queue_ s') = capacity_ (out_queue_ s) /\ unread s' = unread s.
Proof.
  intros [Hw Hr Hl Hi Ho] Hs Hcan. pose proof (commit_buffer size _ Hw Hs) as Hc.
  unfold can_push_locked in Hcan. apply andb_prop in Hcan as [Hopen Hroom].
  assert (Hpush : forall b, sv_wf 512 b -> exists q b' sg,
    push_locked (out_queue_ s) b = Returns (0, q, b', sg) /\ bq_wf q /\ sv_wf 512 b' /\
    items q = items (out_queue_ s) ++ [contents b] /\ capacity_ q = capacity_ (out_queue_ s)).
  { intros b Hb. pose proof (try_push_refines (out_queue_ s) b Ho Hb) as Href.
    destruct (try_push_locked (out_queue_ s) b) as [[[r q] b'] sg] eqn:Htry.
    destruct Href as (_ & _ & Hb' & _).
    assert (Hp : push_locked (out_queue_ s) b = Returns (r, q, b', sg)).
    { unfold push_locked. rewrite Htry. by replace (_ =? _) with false by lia. }
    pose proof (push_locked_pass _ _ _ _ _ _ Ho Hb Hp) as [Hq [(-> & Hit & _ & _ & Hcap & _)|(-> & _ & _ & Hcl)]].
    - by exists q, b', sg.
    - by rewrite Hcl in Hopen. }
  unfold commitBuffer. destruct (isAllocated (write_buffer_ s)); destruct Hc as (b & -> & Hb & <-);
    destruct (Hpush b Hb) as (q & b' & sg & Hp & Hq & Hb' & Hit & Hcap); cbn -[push_locked];
    rewrite Hp; eexists; (split; [reflexivity|]); (split; [by constructor|done]).
Qed.

Lemma alloc_ok min_size s s' :
  stream_wf s -> 0 <= min_size -> allocBuffer min_size s = Some s' ->
  stream_wf s' /\ min_size <= sv_size (write_buffer_ s') /\ out_queue_ s' = out_queue_ s /\
  unread s' = unread s.
Proof.
  intros [Hw Hr Hl Hi Ho] Hm. unfold allocBuffer. case_match eqn:Hlt.
  - destruct (resize_noinit 0 malloc_ok min_size (write_buffer_ s)) as [b|] eqn:Hres; [|done].
    cbn. intros [= <-]. apply (resize_impl_spec 0 512) in Hres as [Hb Hstep]; [|done..].
    split; [by constructor|]. split; [|done]. cbn. rewrite <- (zlen_contents 512 b Hb).
    pose proof (zlen_contents 512 _ Hw).
    inversion Hstep as [| | | | |?? Hle|?? tl Hle Htl| |]; subst; [lia|].
    rewrite zlen_app. lia.
  - intros [= <-]. split; [done|]. split; [lia|done].
Qed.

(** ** The wire *)

(** The socket accepts no more than it is given, and reports no error but an
    interruption or a lack of room. *)
Definition healthy (o : answer) : Prop :=
  forall len, 0 <= len ->
    (o len).1 <= len /\ ((o len).1 < 0 -> (o len).2 = EINTR \/ (o len).2 = EAGAIN).

Lemma send_loop_ok outs : forall buffer left wire,
  Forall healthy outs -> 0 <= left <= zlen buffer ->
  let '(outs', left', wire') := send_loop outs buffer left wire in
  0 <= left' <= left /\
  wire' ++ zdrop (zlen buffer - left') buffer = wire ++ zdrop (zlen buffer - left) buffer /\
  match outs' with Some o => left' = 0 /\ Forall healthy o | None => True end.
Proof.
  induction outs as [|send_raw outs IH]; intros buffer left wire Ho Hleft; cbn [send_loop];
    destruct (Z.leb_spec left 0).
  1, 3: split_and!; try (done || lia); by replace left with 0 by lia.
  - split_and!; done || lia.
  - inversion Ho as [|? ? Hs Hos]; subst. destruct (Hs left) as [Hle Herr]; [lia|].
    destruct (send_raw left) as [written errno]. cbn in Hle, Herr.
    destruct (Z.ltb_spec written 0).
    + destruct Herr as [->| ->]; [done|apply IH; [done|lia]..].
    + specialize (IH buffer (left - written)
        (wire ++ ztake written (zdrop (zlen buffer - left) buffer)) Hos).
      destruct (send_loop outs buffer (left - written) _) as [[o l] w].
      destruct IH as (? & Hw & ?); [lia|]. split_and!; [lia|lia| |done].
      rewrite Hw, <- app_assoc. f_equal. 
      rewrite <- (ztake_zdrop written (zdrop (zlen buffer - left) buffer)) at 2. f_equal.
      unfold zdrop. rewrite drop_drop. f_equal. lia.
Qed.

Definition unsent (r : worker_result) : cells :=
  match r with Sending l => l | _ => [] end.

Lemma thread_main_ok n : forall outs q wire,
  Forall healthy outs -> bq_wf q -> count_ q + 1 < Z.of_nat n ->
  let '(r, q', wire') := thread_main n outs q wire in
  wire' ++ unsent r ++ concat (items q') = wire ++ concat (items q) /\
  match r with
  | WorkerFuel => False
  | Sending _ => True
  | Asleep => items q' = [] /\ closed_ q' = false
  | Stopped => items q' = [] /\ closed_ q' = true
  end.
Proof.
  induction n as [|n IH]; intros outs q wire Ho Hq Hn.
  { pose proof (bq_wf_count q Hq). lia. }
  cbn [thread_main]. pose proof (zlen_items q Hq) as Hlen.
  destruct (pop_locked q default_object) as [[[[r q2] b] sg]|] eqn:Hpop.
  - destruct (pop_locked_pass _ _ _ _ _ _ Hq default_object_wf Hpop)
      as (Hq2 & Hb & Hcl & Hcap & [(-> & Hit & Hcnt & _)|(-> & -> & -> & _ & Hc)]).
    + cbn [Z.eqb negb andb]. pose proof (zlen_contents 512 b Hb) as Hsize.
      pose proof (send_loop_ok outs (contents b) (sv_size b) wire Ho) as Hsend.
      rewrite Hsize, Z.sub_diag, zdrop_0 in Hsend.
      destruct (send_loop outs (contents b) (sv_size b) wire) as [[[o|] l] w].
      * pose proof (wf_size 512 b Hb). destruct Hsend as (_ & Hw & -> & Ho2); [lia|].
        specialize (IH o q2 w Ho2 Hq2). destruct (thread_main n o q2 w) as [[r q'] w'].
        destruct IH as [Hw' ?]; [lia|]. split; [|done].
        rewrite Hw', Hit. cbn. rewrite zdrop_all, app_nil_r in Hw by lia.
        by rewrite Hw, <- app_assoc.
      * pose proof (wf_size 512 b Hb). destruct Hsend as (_ & Hw & _); [lia|]. split; [|done].
        cbn. by rewrite Hit, app_assoc, Hw, <- app_assoc.
    + cbn. split; [done|]. split; [|done].
      unfold pop_locked in Hpop. destruct (Z.eqb_spec (count_ q) 0) as [Hz|].
      * apply zlen_nil_inv. lia.
      * injection Hpop as Hpop. unfold try_pop_locked in Hpop.
        rewrite (proj2 (Z.eqb_neq (count_ q) 0)) in Hpop by done. injection Hpop as Heio.
        by unfold EIO in Heio.
  - cbn. split; [done|]. unfold pop_locked in Hpop.
    destruct (Z.eqb_spec (count_ q) 0); [|done]. destruct (closed_ q) eqn:Hc; [done|].
    split; [|done]. apply zlen_nil_inv. lia.
Qed.

(** ** Properties *)

(** C6: reading hands out what was posted, in order and without loss: as much of it
    as was asked for and is there; [nullptr] comes only from a closed and empty
    stream, and the reader sleeps only when nothing is left to read. *)
Theorem stream_reads_in_order wanted s :
  stream_wf s ->
  let '(r, s') := read wanted s in
  stream_wf s' /\
  match r with
  | Got bytes =>
      bytes = ztake wanted (unread s) /\ unread s' = zdrop wanted (unread s) /\
      (0 < wanted -> bytes <> [])
  | Null => 0 < wanted /\ unread s = [] /\ closed_in s = true
  | Blocks => 0 < wanted /\ unread s = [] /\ closed_in s = false
  | ReadFuel => False
  end.
Proof.
  clear malloc_ok. intros Hwf. unfold read.
  destruct (read_loop_ok (read_fuel s) wanted [] s Hwf) as (Hwf' & _ & _ & Hr).
  - unfold zlen. cbn. lia.
  - right. unfold read_fuel, read_steps. destruct (0 <? _); lia.
  - destruct (read_loop _ _ _ _) as [r s']. cbn in *. split; [done|].
    destruct r; try tauto. destruct Hr as (-> & Hun & Hnil). split_and!; [done|done|].
    intros Hw Hempty. specialize (Hnil Hempty). lia.
Qed.

(** C31: what the render thread commits goes out in order: with room in the queue a
    commit succeeds, without asking for memory, and appends the first [size] bytes
    of the write buffer; what is on the wire, not yet sent of the current buffer and
    queued is always the same sequence for a socket that reports no error but an
    interruption or a lack of room. *)
Theorem stream_writes_in_order size s outs wire :
  stream_wf s -> 0 <= size <= sv_size (write_buffer_ s) ->
  capacity_ (out_queue_ s) <= 16 -> can_push_locked (out_queue_ s) = true ->
  Forall healthy outs ->
  exists s', commitBuffer size s = Some (Returns (size, s')) /\ stream_wf s' /\
    forall n, 18 < Z.of_nat n ->
    let '(r, q, wire') := thread_main n outs (out_queue_ s') wire in
    wire' ++ unsent r ++ concat (items q) =
      wire ++ concat (items (out_queue_ s)) ++ ztake size (contents (write_buffer_ s)) /\
    match r with
    | Asleep => items q = [] /\ closed_ q = false
    | Stopped => items q = [] /\ closed_ q = true
    | Sending _ => True
    | WorkerFuel => False
    end.
Proof.
  intros Hwf Hs Hcap Hcan Ho.
  destruct (commit_ok size s Hwf Hs Hcan) as (s' & Hc & Hwf' & Hit & Hcap' & _).
  exists s'. split; [done|]. split; [done|]. intros n Hn.
  pose proof (bq_wf_count _ (swf_out _ Hwf')).
  pose proof (thread_main_ok n outs (out_queue_ s') wire Ho (swf_out _ Hwf')) as Hmain.
  destruct (thread_main n outs (out_queue_ s') wire) as [[r q] w].
  destruct Hmain as [Hw Hr]; [lia|]. rewrite Hw, Hit, concat_app. cbn. rewrite app_nil_r.
  split; [done|]. destruct r; done.
Qed.

End stream.

(** ** At concrete inputs *)

Definition enough (n : Z) : bool := true.

Definition bytes_buffer (l : list Z) : Buffer :=
  default default_object (sv_of_range 512 enough (Some <$> l)).

Definition no_stream : BufferedIOStream :=
  mkStream default_object default_object 0 (bq_new 1) (bq_new 1).

Definition posted (data : Buffer) (s : BufferedIOStream) : BufferedIOStream :=
  match post_data data s with Returns (_, s) => s | Waits => no_stream end.

Definition toy_stream : BufferedIOStream :=
  posted (bytes_buffer [4; 5]) (posted (bytes_buffer []) (posted (bytes_buffer [1; 2; 3])
    (default no_stream (stream_new enough 384)))).

Lemma bytes_buffer_wf l : sv_wf 512 (bytes_buffer l) /\ contents (bytes_buffer l) = Some <$> l.
Proof.
  unfold bytes_buffer, sv_of_range.
  destruct (insert_back enough (Some <$> l) (sv_default 512)) as [b|] eqn:Hb.
  - apply (insert_back_spec 512) in Hb as [? Hc]; [|by apply sv_default_wf].
    split; [done|]. exact Hc.
  - exfalso. unfold insert_back, grow_for_size, set_capacity in Hb. by repeat case_match.
Qed.

Lemma posted_ok data s :
  stream_wf s -> sv_wf 512 data -> can_push_locked (in_queue_ s) = true ->
  stream_wf (posted data s) /\ unread (posted data s) = unread s ++ contents data.
Proof.
  intros Hs Hd Hcan. destruct (post_ok data s Hs Hd Hcan) as (s' & Hp & ? & ?).
  unfold posted. by rewrite Hp.
Qed.

Lemma toy_stream_wf : stream_wf toy_stream.
Proof.
  assert (Hnew : stream_wf (default no_stream (stream_new enough 384))).
  { destruct (stream_new enough 384) as [s|] eqn:Hs; [by apply (stream_new_wf enough 384)|].
    constructor; cbn; try done; apply bq_new_wf; unfold ring_cap; lia. }
  unfold toy_stream. do 3 (apply posted_ok; [|apply bytes_buffer_wf|by vm_compute]). exact Hnew.
Qed.

Lemma stream_reads_in_order_witness :
  (read 4 toy_stream).1 = Got [Some 1; Some 2; Some 3; Some 4] /\
  unread (read 4 toy_stream).2 = [Some 5].
Proof.
  assert (Hg : (read 4 toy_stream).1 = Got [Some 1; Some 2; Some 3; Some 4]) by by vm_compute.
  split; [exact Hg|].
  pose proof (stream_reads_in_order 4 toy_stream toy_stream_wf) as H.
  destruct (read 4 toy_stream) as [r s']. cbn in Hg. subst r.
  destruct H as (_ & _ & Hun & _). cbn [snd]. rewrite Hun. by vm_compute.
Defined.

Definition slow_socket : list answer :=
  [fun len => (Z.min len 2, 0); fun _ => (-1, EAGAIN); fun len => (len, 0)].

Lemma stream_writes_in_order_witness :
  exists s', commitBuffer enough 3 toy_stream = Some (Returns (3, s')) /\
    forall n, 18 < Z.of_nat n ->
    let '(r, q, wire') := thread_main n slow_socket (out_queue_ s') [Some 9] in
    wire' ++ unsent r ++ concat (items q) =
      Some 9 :: ztake 3 (contents (write_buffer_ toy_stream)).
Proof.
  destruct (stream_writes_in_order enough 3 toy_stream slow_socket [Some 9] toy_stream_wf)
    as (s' & Hc & _ & Hrun); [by vm_compute..| |].
  - repeat (constructor; [intros len Hlen; cbn; unfold EINTR, EAGAIN; split; [lia|intros; auto; lia]|]).
    constructor.
  - exists s'. split; [exact Hc|]. intros n Hn. specialize (Hrun n Hn).
    destruct (thread_main n slow_socket (out_queue_ s') [Some 9]) as [[r q] w].
    destruct Hrun as [Hw _]. rewrite Hw. by vm_compute.
Defined.

(** A socket error in the middle of a buffer: the rest of it is dropped and the
    next buffer follows. *)
Example write_error_tears_stream :
  thread_main 4 [fun _ => (1, 0); fun _ => (-1, 32); fun len => (len, 0)]
    (in_queue_ toy_stream) [] =
  (Asleep, (thread_main 4 [fun _ => (1, 0); fun _ => (-1, 32); fun len => (len, 0)]
    (in_queue_ toy_stream) []).1.2, [Some 1; Some 4; Some 5]).
Proof. by vm_compute. Qed.
