(* ===== verification/RenderThread.v ===== *)
(** * The render thread

    [src/src/anbox/graphics/emugl/ReadBuffer.{h,cpp}] and [RenderThread.cpp].
    [Section readbuffer]: the buffer as the object has it, a block of memory, a read
    offset and a number of valid bytes.  [Section decode]: the thread's loop over
    the three decoders, which are generated code and so parameters: a decoder
    looks at the valid bytes and says how many it used.  [Section exit]: how the
    thread leaves the renderer.  The stream is any function that gives at most what
    it is asked for ([stream_law]), as [read] of BufferedStream.v does. *)

From stdpp Require Import sorting.
From S2P Require Import Prelude Gl RendererConfig ColorBuffer RenderState Renderer Ownership Steps.

(** ** ReadBuffer *)

Definition INT_MAX : Z := 2147483647.

Section readbuffer.
(** [stream->read(buf, &len)]: [None] for [NULL]. *)
Context {W : Type}.
Variable stream_read : Z -> W -> option (list (option Z)) * W.
Variable realloc_ok : Z -> bool.

Record ReadBuffer := mkRB {
  m_buf : list (option Z);
  m_readPtr : Z;   (* the offset from [m_buf] *)
  m_size : Z;
  m_validData : Z
}.

Definition ReadBuffer_new (bufsize : Z) : ReadBuffer :=
  mkRB (replicate (Z.to_nat bufsize) None) 0 bufsize 0.

(** The bytes a decoder sees: [validData()] of them at [buf()]. *)
Definition valid (b : ReadBuffer) : list (option Z) :=
  ztake (m_validData b) (zdrop (m_readPtr b) (m_buf b)).

(** [l] written at offset [i]. *)
Definition write_at (i : Z) (l mem : list (option Z)) : list (option Z) :=
  ztake i mem ++ l ++ zdrop (i + zlen l) mem.

(** [realloc]: the common part stays. *)
Definition resized (n : Z) (mem : list (option Z)) : list (option Z) :=
  ztake n mem ++ replicate (Z.to_nat (n - zlen mem)) None.

(** [memmove] of the valid bytes to the front. *)
Definition compact (b : ReadBuffer) : list (option Z) :=
  if (0 <? m_validData b) && (0 <? m_readPtr b) then write_at 0 (valid b) (m_buf b) else m_buf b.

Definition grown_size (size : Z) : Z :=
  let new_size := u64 (size * 2) in if new_size <? size then INT_MAX else new_size.

(** The result, the buffer and the stream. *)
Definition getData (b : ReadBuffer) (w : W) : Z * ReadBuffer * W :=
  let mem := compact b in
  let len := m_size b - m_validData b in
  let new_size := grown_size (m_size b) in
  if (len =? 0) && negb (realloc_ok new_size) then
    (-1, mkRB mem (m_readPtr b) (m_size b) (m_validData b), w)
  else
    let mem := if len =? 0 then resized new_size mem else mem in
    let size := if len =? 0 then new_size else m_size b in
    let '(r, w) := stream_read (size - m_validData b) w in
    match r with
    | None => (-1, mkRB mem 0 size (m_validData b), w)
    | Some l =>
        (i32 (zlen l), mkRB (write_at (m_validData b) l mem) 0 size (m_validData b + zlen l), w)
    end.

Definition consume (amount : Z) (b : ReadBuffer) : ReadBuffer :=
  mkRB (m_buf b) (m_readPtr b + amount) (m_size b) (m_validData b - amount).

Record rb_wf (b : ReadBuffer) : Prop := {
  rb_len : zlen (m_buf b) = m_size b;
  rb_read : 0 <= m_readPtr b;
  rb_valid : 0 <= m_validData b;
  rb_end : m_readPtr b + m_validData b <= m_size b;
  rb_size : 0 < m_size b < 2 ^ 62
}.

Lemma zlen_valid b : rb_wf b -> zlen (valid b) = m_validData b.
Proof. intros []. unfold valid. rewrite zlen_ztake; [done|]. rewrite zlen_zdrop; lia. Qed.

Lemma consume_ok n b :
  rb_wf b -> 0 <= n <= m_validData b ->
  rb_wf (consume n b) /\ valid b = ztake n (valid b) ++ valid (consume n b).
Proof.
  intros [] Hn. split; [by constructor; cbn; lia|].
  rewrite <- (ztake_zdrop n (valid b)) at 1. f_equal.
  unfold valid, consume, ztake, zdrop. cbn [m_validData m_readPtr m_buf].
  rewrite skipn_firstn_comm, drop_drop. f_equal; [lia|f_equal; lia].
Qed.

Lemma write_at_len i l mem :
  0 <= i -> i + zlen l <= zlen mem -> zlen (write_at i l mem) = zlen mem.
Proof.
  intros Hi Hl. pose proof (zlen_nonneg l). unfold write_at.
  rewrite !zlen_app, zlen_ztake, zlen_zdrop; lia.
Qed.

Lemma write_at_prefix i l mem :
  0 <= i <= zlen mem -> ztake (i + zlen l) (write_at i l mem) = ztake i mem ++ l.
Proof.
  intros Hi. unfold write_at. rewrite app_assoc. apply ztake_app_eq.
  rewrite zlen_app, zlen_ztake; lia.
Qed.

Lemma compact_ok b :
  rb_wf b -> zlen (compact b) = m_size b /\ ztake (m_validData b) (compact b) = valid b.
Proof.
  intros Hb. pose proof (zlen_valid b Hb) as Hv. destruct Hb as []. unfold compact.
  destruct (Z.ltb_spec 0 (m_validData b)); [destruct (Z.ltb_spec 0 (m_readPtr b))|]; cbn [andb].
  - split; [rewrite write_at_len; lia|].
    pose proof (write_at_prefix 0 (valid b) (m_buf b)) as Hw. rewrite Hv, Z.add_0_l in Hw. cbn in Hw.
    rewrite Hw; [done|lia].
  - split; [done|]. unfold valid. by replace (m_readPtr b) with 0 by lia.
  - split; [done|]. unfold valid. by rewrite !ztake_nonpos by lia.
Qed.

(** What the stream promises. *)
Definition stream_law : Prop :=
  forall len w, 0 <= len -> match (stream_read len w).1 with Some l => zlen l <= len | None => True end.

Lemma grown_size_ok size : 0 < size < 2 ^ 62 -> grown_size size = size * 2.
Proof.
  intros H. unfold grown_size. rewrite wrapu_id by (unfold in_u; lia).
  by replace (size * 2 <? size) with false by lia.
Qed.

(** The two ends of a call, given the memory and the size it reads into. *)
Lemma read_into mem size v w :
  stream_law -> zlen mem = size -> 0 <= v <= size -> 0 < size < 2 ^ 62 ->
  match stream_read (size - v) w with
  | (None, _) => rb_wf (mkRB mem 0 size v) /\ valid (mkRB mem 0 size v) = ztake v mem
  | (Some l, _) =>
      zlen l <= size - v /\
      rb_wf (mkRB (write_at v l mem) 0 size (v + zlen l)) /\
      valid (mkRB (write_at v l mem) 0 size (v + zlen l)) = ztake v mem ++ l
  end.
Proof.
  intros Hlaw Hlen Hv Hsize. specialize (Hlaw (size - v) w).
  destruct (stream_read (size - v) w) as [[l|] w'].
  - specialize (Hlaw ltac:(lia)). cbn in Hlaw. pose proof (zlen_nonneg l).
    split; [done|]. split; [constructor; cbn; try lia; rewrite write_at_len; lia|].
    unfold valid. cbn [m_validData m_readPtr m_buf]. by rewrite zdrop_0, write_at_prefix by lia.
  - split; [by constructor; cbn; lia|done].
Qed.

Lemma resized_ok size n mem :
  zlen mem = size -> size <= n -> zlen (resized n mem) = n /\ ztake size (resized n mem) = mem.
Proof.
  intros Hlen Hn. unfold resized. rewrite (ztake_all n mem) by lia.
  pose proof (zlen_nonneg mem).
  split; [rewrite zlen_app, zlen_replicate; lia|]. apply ztake_app_eq. lia.
Qed.

Lemma getData_ok b w :
  stream_law -> rb_wf b -> m_size b < 2 ^ 61 ->
  let '(stat, b', w') := getData b w in
  rb_wf b' /\ (m_size b' = m_size b \/ m_size b' = m_size b * 2 /\ m_size b = m_validData b) /\
  (stat = -1 /\ valid b' = valid b \/
   exists l, stream_read (m_size b' - m_validData b) w = (Some l, w') /\
     stat = i32 (zlen l) /\ valid b' = valid b ++ l).
Proof.
  intros Hlaw Hb Hbound. pose proof (compact_ok b Hb) as [Hmem Hfront].
  pose proof Hb as [Hlen Hread Hvalid Hend Hsize]. unfold getData.
  rewrite (grown_size_ok (m_size b)) by lia.
  destruct (Z.eqb_spec (m_size b - m_validData b) 0) as [Hfull|Hroom]; cbn [andb].
  - destruct (realloc_ok _); cbn [negb].
    + destruct (resized_ok (m_size b) (m_size b * 2) (compact b)) as [Hr1 Hr2]; [done|lia|].
      assert (Hv : ztake (m_validData b) (resized (m_size b * 2) (compact b)) = valid b).
      { replace (m_validData b) with (m_size b) at 1 by lia. rewrite Hr2, <- Hfront.
        symmetry. apply ztake_all. lia. }
      pose proof (read_into _ _ (m_validData b) w Hlaw Hr1) as Hin.
      rewrite Hv in Hin. destruct (stream_read _ _) as [[l|] w'] eqn:Hsr.
      * destruct Hin as (Hl & Hwf & Hval); [lia|lia|].
        split; [done|]. split; [right; cbn; lia|]. right. by exists l.
      * destruct Hin as (Hwf & Hval); [lia|lia|]. split; [done|]. split; [right; cbn; lia|]. by left.
    + assert (m_readPtr b = 0) as Hz by lia. split; [by constructor; cbn; lia|].
      split; [by left|]. left. split; [done|]. unfold valid at 1. cbn. by rewrite Hz, zdrop_0.
  - pose proof (read_into _ _ (m_validData b) w Hlaw Hmem) as Hin.
    rewrite Hfront in Hin. destruct (stream_read _ _) as [[l|] w'] eqn:Hsr.
    + destruct Hin as (Hl & Hwf & Hval); [lia|lia|].
      split; [done|]. split; [by left|]. right. by exists l.
    + destruct Hin as (Hwf & Hval); [lia|lia|]. split; [done|]. split; [by left|]. by left.
Qed.
End readbuffer.

(** ** The decoding loop *)

Abbreviation bytes := (list (option Z)).

Section decode.
Context {W : Type}.
Variable stream_read : Z -> W -> option bytes * W.
Variable realloc_ok : Z -> bool.

(** [decode(buf, len, stream)]: how many bytes it used. *)
Abbreviation decoder := (bytes -> W -> Z * W).
Variables m_glDec m_gl2Dec m_rcDec : decoder.

(** One decoder's turn: whether it used something, the buffer, the world, and the
    bytes used so far. *)
Definition decode_with (dec : decoder) (progress : bool) (b : ReadBuffer) (w : W) (used : bytes) :
    bool * ReadBuffer * W * bytes :=
  let '(last, w) := dec (valid b) w in
  if 0 <? last then (true, consume last b, w, used ++ ztake last (valid b))
  else (progress, b, w, used).

Definition decode_pass (b : ReadBuffer) (w : W) (used : bytes) :
    bool * ReadBuffer * W * bytes :=
  let '(progress, b, w, used) := decode_with m_glDec false b w used in
  let '(progress, b, w, used) := decode_with m_gl2Dec progress b w used in
  decode_with m_rcDec progress b w used.

(** [None]: out of fuel. *)
Fixpoint decode_loop (n : nat) (b : ReadBuffer) (w : W) (used : bytes) :
    option (ReadBuffer * W * bytes) :=
  match n with
  | O => None
  | S n =>
      let '(progress, b, w, used) := decode_pass b w used in
      if progress then decode_loop n b w used else Some (b, w, used)
  end.

Inductive thread_status := Alive | Left | DecodeFuel.

(** The thread after at most [n] reads: where it is, its buffer, the world, the
    bytes the stream gave it and those the decoders used. *)
Fixpoint thread_loop (n : nat) (b : ReadBuffer) (w : W) (received used : bytes) :
    thread_status * ReadBuffer * W * bytes * bytes :=
  match n with
  | O => (Alive, b, w, received, used)
  | S n =>
      let '(stat, b', w) := getData stream_read realloc_ok b w in
      let received := received ++ zdrop (m_validData b) (valid b') in
      if stat <=? 0 then (Left, b', w, received, used)
      else
        match decode_loop (S (Z.to_nat (m_validData b'))) b' w used with
        | None => (DecodeFuel, b', w, received, used)
        | Some (b, w, used) => thread_loop n b w received used
        end
  end.

Definition STREAM_BUFFER_SIZE : Z := 4 * 1024 * 1024.

Definition decoder_law (dec : decoder) : Prop := forall l w, 0 <= (dec l w).1 <= zlen l.

Hypothesis glDec_law : decoder_law m_glDec.
Hypothesis gl2Dec_law : decoder_law m_gl2Dec.
Hypothesis rcDec_law : decoder_law m_rcDec.

Lemma decode_with_ok dec progress b w used :
  decoder_law dec -> rb_wf b ->
  let '(progress', b', w', used') := decode_with dec progress b w used in
  rb_wf b' /\ used' ++ valid b' = used ++ valid b /\ m_size b' = m_size b /\
  (progress' = progress /\ m_validData b' = m_validData b \/
   progress' = true /\ m_validData b' < m_validData b).
Proof.
  intros Hdec Hb. specialize (Hdec (valid b) w). rewrite zlen_valid in Hdec by done.
  unfold decode_with. destruct (dec (valid b) w) as [last w']. cbn in Hdec.
  destruct (Z.ltb_spec 0 last).
  - destruct (consume_ok last b Hb) as [Hb' Hv]; [lia|].
    split; [done|]. split; [by rewrite <- app_assoc, <- Hv|]. split; [done|]. right. cbn. lia.
  - split_and!; try done. by left.
Qed.

Lemma decode_pass_ok b w used :
  rb_wf b ->
  let '(progress, b', w', used') := decode_pass b w used in
  rb_wf b' /\ used' ++ valid b' = used ++ valid b /\ m_size b' = m_size b /\
  (progress = true -> m_validData b' < m_validData b) /\ m_validData b' <= m_validData b.
Proof.
  intros Hb. unfold decode_pass.
  pose proof (decode_with_ok m_glDec false b w used glDec_law Hb) as H1.
  destruct (decode_with m_glDec false b w used) as [[[p1 b1] w1] u1].
  destruct H1 as (Hb1 & He1 & Hs1 & Hp1).
  pose proof (decode_with_ok m_gl2Dec p1 b1 w1 u1 gl2Dec_law Hb1) as H2.
  destruct (decode_with m_gl2Dec p1 b1 w1 u1) as [[[p2 b2] w2] u2].
  destruct H2 as (Hb2 & He2 & Hs2 & Hp2).
  pose proof (decode_with_ok m_rcDec p2 b2 w2 u2 rcDec_law Hb2) as H3.
  destruct (decode_with m_rcDec p2 b2 w2 u2) as [[[p3 b3] w3] u3].
  destruct H3 as (Hb3 & He3 & Hs3 & Hp3).
  split; [done|]. split; [congruence|]. split; [congruence|].
  intuition (subst; done || lia).
Qed.

Lemma decode_loop_ok n : forall b w used,
  rb_wf b -> m_validData b < Z.of_nat n ->
  exists b' w' used', decode_loop n b w used = Some (b', w', used') /\
    rb_wf b' /\ used' ++ valid b' = used ++ valid b /\ m_size b' = m_size b.
Proof.
  induction n as [|n IH]; intros b w used Hb Hn; [destruct Hb; lia|].
  cbn [decode_loop]. pose proof (decode_pass_ok b w used Hb) as Hp.
  destruct (decode_pass b w used) as [[[[] b1] w1] u1]; destruct Hp as (Hb1 & He & Hs & Hlt & _).
  - destruct (IH b1 w1 u1 Hb1) as (b' & w' & u' & Hrun & ? & He' & ?); [specialize (Hlt eq_refl); lia|].
    exists b', w', u'. split_and!; try done; congruence.
  - by exists b1, w1, u1.
Qed.
Hypothesis law : stream_law stream_read.

Variable bufsize : Z.
Hypothesis bufsize_range : 0 < bufsize < 2 ^ 60.

Definition loop_inv (b : ReadBuffer) (received used : bytes) : Prop :=
  rb_wf b /\ used ++ valid b = received /\ m_size b <= Z.max bufsize (2 * zlen received).

Lemma loop_step b w received used :
  loop_inv b received used -> zlen received < 2 ^ 59 ->
  let '(stat, b', w') := getData stream_read realloc_ok b w in
  let received' := received ++ zdrop (m_validData b) (valid b') in
  zlen received' < 2 ^ 59 -> loop_inv b' received' used.
Proof.
  intros (Hb & He & Hsize) Hrec.
  pose proof (getData_ok stream_read realloc_ok b w law Hb ltac:(lia)) as Hget.
  destruct (getData stream_read realloc_ok b w) as [[stat b'] w'].
  destruct Hget as (Hb' & Hs & Hv). cbv zeta. intros Hrec'.
  assert (Hval : valid b' = valid b ++ zdrop (m_validData b) (valid b')).
  { rewrite <- (zlen_valid b) by done. destruct Hv as [[_ ->]|(l & _ & _ & ->)].
    - by rewrite zdrop_all, app_nil_r.
    - by rewrite zdrop_app_exact. }
  split; [done|]. split; [by rewrite <- He, <- app_assoc, <- Hval|].
  rewrite <- He, !zlen_app, zlen_valid in * by done.
  pose proof (zlen_nonneg used). pose proof (zlen_nonneg (zdrop (m_validData b) (valid b'))). lia.
Qed.

Lemma thread_loop_received n : forall b w received used,
  let '(_, _, _, received', _) := thread_loop n b w received used in
  zlen received <= zlen received'.
Proof.
  induction n as [|n IH]; intros b w received used; cbn [thread_loop]; [done|].
  destruct (getData _ _ b w) as [[stat b1] w1].
  set (received1 := received ++ _).
  assert (zlen received <= zlen received1).
  { unfold received1. rewrite zlen_app. pose proof (zlen_nonneg (zdrop (m_validData b) (valid b1))). lia. }
  destruct (stat <=? 0); [done|].
  destruct (decode_loop _ b1 w1 used) as [[[b2 w2] used2]|]; [|done].
  specialize (IH b2 w2 received1 used2).
  destruct (thread_loop n b2 w2 received1 used2) as [[[[st b'] w'] rec'] used']. lia.
Qed.

Lemma thread_loop_ok n : forall b w received used,
  loop_inv b received used ->
  let '(status, b', _, received', used') := thread_loop n b w received used in
  zlen received' < 2 ^ 59 -> status <> DecodeFuel /\ loop_inv b' received' used'.
Proof.
  induction n as [|n IH]; intros b w received used Hinv; cbn [thread_loop]; [done|].
  pose proof (loop_step b w received used Hinv) as Hstep.
  destruct (getData _ _ b w) as [[stat b1] w1]. set (received1 := received ++ _) in *.
  assert (zlen received <= zlen received1).
  { unfold received1. rewrite zlen_app. pose proof (zlen_nonneg (zdrop (m_validData b) (valid b1))). lia. }
  destruct (stat <=? 0); [intros Hb; split; [done|apply Hstep; lia]|].
  destruct (Z.ltb_spec (zlen received1) (2 ^ 59)) as [Hlt|Hge].
  - destruct (Hstep ltac:(lia) Hlt) as (Hb1 & He & Hsize).
    destruct (decode_loop_ok (S (Z.to_nat (m_validData b1))) b1 w1 used) as
      (b2 & w2 & used2 & -> & Hb2 & He2 & Hs2); [done|destruct Hb1; lia|].
    apply IH. split; [done|]. split; [by rewrite He2|by rewrite Hs2].
  - destruct (decode_loop _ b1 w1 used) as [[[b2 w2] used2]|]; [|lia].
    pose proof (thread_loop_received n b2 w2 received1 used2) as Hrec.
    destruct (thread_loop n b2 w2 received1 used2) as [[[[st b'] w'] rec'] used']. lia.
Qed.

(** C10: the decoders use exactly the bytes the stream gives, in order and each once:
    what they used followed by what the buffer holds is what was received, after any
    number of reads; the decoding loop ends whatever the decoders do.  The buffer
    doubles only when it is full, so it stays below twice the stream's length. *)
Theorem decoders_consume_stream n w :
  let '(status, b, _, received, used) :=
    thread_loop n (ReadBuffer_new bufsize) w [] [] in
  zlen received < 2 ^ 59 ->
  status <> DecodeFuel /\ used ++ valid b = received /\
  m_readPtr b + m_validData b <= m_size b /\ zlen (m_buf b) = m_size b /\
  m_size b <= Z.max bufsize (2 * zlen received).
Proof.
  assert (Hinit : loop_inv (ReadBuffer_new bufsize) [] []).
  { split; [|split; [done|apply Z.le_max_l]].
    constructor; cbn [m_buf m_size m_readPtr m_validData ReadBuffer_new];
      [apply zlen_replicate|..]; lia. }
  pose proof (thread_loop_ok n _ w [] [] Hinit) as H.
  destruct (thread_loop n _ w [] []) as [[[[status b] w'] received] used].
  intros Hrec. destruct (H Hrec) as (? & [] & ? & ?). done.
Qed.
End decode.

(** ** Leaving the renderer *)

Section exit.
Context {D : Type} `{!Driver D}.
Implicit Types w : World D.

(** The end of [RenderThread::main], after the decoders' shader tables. *)
Definition thread_exit : M (World D) unit :=
  bindContext 0 0 0 ;; drainWindowSurface ;; drainRenderContext.

(** What destroying objects leaves alone. *)
Definition keeps w w' : Prop :=
  w_self w' = w_self w /\ m_contexts (w_tables w') = m_contexts (w_tables w) /\
  m_windows (w_tables w') = m_windows (w_tables w).

#[export] Instance keeps_preorder : PreOrder keeps.
Proof. split; [done|]. intros x y z (?&?&?) (?&?&?). split_and!; congruence. Qed.

Lemma frame_keeps {A} (m : M (World D) A) : respects frame m -> respects keeps m.
Proof. intros Hm w. destruct (Hm w) as (Ht & _ & Hi & _). unfold keeps. by rewrite Ht. Qed.

Lemma keeps_drop_context p : respects keeps (drop_context p).
Proof.
  intros w. unfold drop_context. destruct p as [p|]; [|done].
  repeat case_match; done.
Qed.

Lemma keeps_drop_buffer p : respects keeps (drop_buffer p).
Proof.
  intros w. unfold drop_buffer. destruct p as [p|]; [|done].
  destruct (decide _); [done|]. destruct (buffers _ !! p) as [c|]; [|done].
  rewrite bind_run. etransitivity; [apply (frame_keeps (ColorBuffer_delete c)), respects_delete, _|done].
Qed.

Lemma keeps_drop_surface p : respects keeps (drop_surface p).
Proof.
  intros w. unfold drop_surface. destruct p as [p|]; [|done].
  destruct (decide _); [done|]. destruct (surfaces _ !! p) as [s|]; [|done].
  set (w1 := if mSurface s =? 0 then w else _).
  assert (keeps w w1) as Hw by (unfold w1; by case_match).
  etransitivity; [exact Hw|].
  assert (respects keeps (modify (del_surface p))) by done.
  apply respects_bind; [apply _|done|intros _].
  apply respects_bind; [apply _|apply keeps_drop_context|intros _].
  apply respects_bind; [apply _|apply keeps_drop_context|intros _].
  apply keeps_drop_buffer.
Qed.
#[local] Hint Resolve keeps_drop_context keeps_drop_buffer keeps_drop_surface : respects.

Lemma keeps_unref h : respects keeps (unref_colorbuffer h).
Proof.
  unfold unref_colorbuffer, erase_colorbuffer. respects_tac; done.
Qed.
#[local] Hint Resolve keeps_unref : respects.

Lemma keeps_ws_bind p ctx t : respects keeps (ws_bind p ctx t).
Proof.
  intros w. unfold ws_bind. destruct (surfaces _ !! p) as [s|]; [|done].
  assert (Hput : forall x, respects keeps (modify (put_surface p x))) by done.
  generalize w. change (respects keeps (match t with
    | BIND_READ => modify (put_surface p (set_read_context ctx s)) ;; drop_context (mReadContext s)
    | BIND_DRAW => modify (put_surface p (set_draw_context ctx s)) ;; drop_context (mDrawContext s)
    | BIND_READDRAW =>
        modify (put_surface p (set_read_context ctx s)) ;; drop_context (mReadContext s) ;;
        modify (put_surface p (set_draw_context ctx (set_read_context ctx s))) ;;
        drop_context (mDrawContext s)
    end)).
  respects_tac; apply Hput.
Qed.
#[local] Hint Resolve keeps_ws_bind : respects.

Lemma keeps_make_current draw read ctx : respects keeps (egl_make_current draw read ctx).
Proof. apply frame_keeps, frame_make_current. Qed.
#[local] Hint Resolve keeps_make_current : respects.

(** Several handles erased one by one. *)
Definition erased {A} (l : list Z) (m m' : gmap Z A) : Prop :=
  forall h, m' !! h = if decide (h ∈ l) then None else m !! h.

Lemma erased_nil {A} (m : gmap Z A) : erased [] m m.
Proof. intros h. by rewrite decide_False by apply not_elem_of_nil. Qed.

Lemma erased_cons {A} h l (m m' : gmap Z A) : erased l (delete h m) m' -> erased (h :: l) m m'.
Proof.
  intros He k. rewrite He.
  destruct (decide (k ∈ l)) as [Hl|Hl].
  - by rewrite decide_True by (right; exact Hl).
  - destruct (decide (h = k)) as [->|Hk].
    + rewrite decide_True by left. apply lookup_delete_eq.
    + rewrite lookup_delete_ne, decide_False; [done| |done].
      intros [->|]%elem_of_cons; done.
Qed.

Lemma erase_contexts_run l : forall w,
  let w' := (mseq (erase_context <$> l) w).2 in
  w_self w' = w_self w /\ m_windows (w_tables w') = m_windows (w_tables w) /\
  erased l (m_contexts (w_tables w)) (m_contexts (w_tables w')).
Proof.
  induction l as [|h l IH]; intros w; cbn [fmap list_fmap mseq].
  - split_and!; [done..|apply erased_nil].
  - rewrite bind_run. set (w1 := (erase_context h w).2).
    assert (Hw1 : keeps (set_m_contexts (delete h (m_contexts (w_tables w))) w) w1)
      by (unfold w1, erase_context; rewrite !bind_run; apply keeps_drop_context).
    destruct Hw1 as (Hs & Hc & Hw), (IH w1) as (Hs1 & Hw2 & Hc1).
    rewrite Hs1, Hs, Hw2, Hw. rewrite Hc in Hc1.
    split_and!; [done..|by apply erased_cons].
Qed.

(** A handle that names no window is passed over. *)
Lemma drain_window_run h w :
  keeps (set_m_windows (delete h (m_windows (w_tables w))) w) (drain_window h w).2.
Proof.
  unfold drain_window. rewrite bind_run. cbn [gets fst snd].
  destruct (m_windows (w_tables w) !! h) as [[p old]|] eqn:Hh.
  - rewrite bind_run. set (w1 := (when _ _ w).2).
    assert (Hw1 : keeps w w1) by (unfold w1; generalize w; apply respects_when;
      [apply _|apply keeps_unref]).
    destruct Hw1 as (Hs & Hc & Hw). unfold erase_window. rewrite !bind_run.
    etransitivity; [|apply keeps_drop_surface]. unfold keeps. cbn. by rewrite Hs, Hc, Hw.
  - cbn. split_and!; [done..|]. cbn. by rewrite delete_id.
Qed.

Lemma drain_windows_run l : forall w,
  let w' := (mseq (drain_window <$> l) w).2 in
  w_self w' = w_self w /\ m_contexts (w_tables w') = m_contexts (w_tables w) /\
  erased l (m_windows (w_tables w)) (m_windows (w_tables w')).
Proof.
  induction l as [|h l IH]; intros w; cbn [fmap list_fmap mseq].
  - split_and!; [done..|apply erased_nil].
  - rewrite bind_run. set (w1 := (drain_window h w).2).
    destruct (drain_window_run h w : keeps _ w1) as (Hs & Hc & Hw), (IH w1) as (Hs1 & Hc2 & Hw1).
    rewrite Hs1, Hs, Hc2, Hc. rewrite Hw in Hw1.
    split_and!; [done..|by apply erased_cons].
Qed.

Lemma elem_of_ascending (s : gset Z) h : h ∈ ascending s <-> h ∈ s.
Proof. unfold ascending. rewrite merge_sort_Permutation. apply elem_of_elements. Qed.
Lemma drain_windows_ok w :
  let w' := (drainWindowSurface w).2 in
  w_self w' = set_windowSet ∅ (w_self w) /\
  m_contexts (w_tables w') = m_contexts (w_tables w) /\
  erased (ascending (m_windowSet (w_self w))) (m_windows (w_tables w)) (m_windows (w_tables w')).
Proof.
  unfold drainWindowSurface. rewrite bind_run. cbn [gets fst snd].
  destruct (decide (m_windowSet (w_self w) = ∅)) as [He|_].
  - cbn. rewrite He. split_and!; [by destruct (w_self w); cbn in *; subst|done|].
    apply erased_nil.
  - rewrite bind_run. destruct (drain_windows_run (ascending (m_windowSet (w_self w))) w)
      as (Hs & Hc & Hw). cbn. by rewrite Hs.
Qed.

Lemma drain_contexts_ok w :
  let w' := (drainRenderContext w).2 in
  w_self w' = set_contextSet ∅ (w_self w) /\
  m_windows (w_tables w') = m_windows (w_tables w) /\
  erased (ascending (m_contextSet (w_self w))) (m_contexts (w_tables w)) (m_contexts (w_tables w')).
Proof.
  unfold drainRenderContext. rewrite bind_run. cbn [gets fst snd].
  destruct (decide (m_contextSet (w_self w) = ∅)) as [He|_].
  - cbn. rewrite He. split_and!; [by destruct (w_self w); cbn in *; subst|done|].
    apply erased_nil.
  - rewrite bind_run. destruct (erase_contexts_run (ascending (m_contextSet (w_self w))) w)
      as (Hs & Hw & Hc). cbn. by rewrite Hs.
Qed.

Context `{!Reliable D}.

(** A computation that changes the thread's record by [f] and the tables of contexts
    and windows not at all. *)
Definition effect {A} (f : RenderThreadInfo -> RenderThreadInfo) (m : M (World D) A) : Prop :=
  forall w, keeps (with_self (f (w_self w)) w) (m w).2.

Lemma effect_keeps {A} (m : M (World D) A) : respects keeps m -> effect id m.
Proof. intros Hm w. destruct (Hm w) as (?&?&?). by split_and!. Qed.

Lemma effect_upd f : effect f (upd_self f).
Proof. done. Qed.

Lemma effect_bind {A B} f g (m : M (World D) A) (k : A -> M (World D) B) :
  effect f m -> (forall a, effect g (k a)) -> effect (fun i => g (f i)) (m ≫= k).
Proof.
  intros Hm Hk w. rewrite bind_run. destruct (Hm w) as (Hs & Hc & Hw).
  destruct (Hk (m w).1 (m w).2) as (Hs' & Hc' & Hw'). cbn in *.
  unfold keeps. cbn. rewrite Hs', Hs, Hc', Hc, Hw', Hw. done.
Qed.

Lemma effect_ext {A} f g (m : M (World D) A) :
  (forall i, f i = g i) -> effect f m -> effect g m.
Proof. intros Hfg Hm w. rewrite <- Hfg. apply Hm. Qed.

(** Unbinding on a driver that lets it: no context, surface or decoder data stays. *)
Definition unbound (i : RenderThreadInfo) : RenderThreadInfo :=
  mkInfo None None None None None (m_contextSet i) (m_windowSet i).

Lemma unbind_run w : keeps (with_self (unbound (w_self w)) w) (bindContext 0 0 0 w).2.
Proof.
  unfold bindContext. rewrite bind_run. cbn [gets fst snd id].
  change (resolve 0 0 0 w) with (Some (None (A := ptr), None (A := ptr), None (A := ptr))).
  cbv beta iota. rewrite bind_run.
  set (mk := egl_make_current _ _ _).
  assert (Hok : (mk w).1 = true).
  { unfold mk, egl_make_current. pose proof (make_current_succeeds
      (egl_surface w None) (egl_surface w None) (egl_context w None) (w_drv w)) as H.
    destruct (eglMakeCurrent _ _ _ _). exact H. }
  rewrite Hok. cbn [negb].
  assert (Hmk : keeps w (mk w).2) by apply keeps_make_current.
  set (w1 := (mk w).2) in *. clearbody w1. clear Hok mk.
  cbv zeta. rewrite bool_decide_eq_false_2 by (by intros []). cbn [negb andb when].
  assert (Heff : forall (m : M (World D) bool), effect unbound m ->
    keeps (with_self (unbound (w_self w)) w) (m w1).2).
  { intros m Hm. destruct (Hm w1) as (Hs & Hc & Hw), Hmk as (Hs1 & Hc1 & Hw1).
    cbn in *. unfold keeps. cbn. by rewrite Hs, Hs1, Hc, Hc1, Hw, Hw1. }
  apply Heff.
  eapply effect_ext; cycle 1.
  - repeat (eapply effect_bind; [|intros ?]); try apply effect_upd;
      apply effect_keeps; unfold bind_surfaces; respects_tac.
  - intros i. by unfold unbound.
Qed.

End exit.

(** ** At concrete inputs *)

(** A stream of chunks, each read gets one of them or its front. *)
Definition chunk_read (len : Z) (w : list bytes) : option bytes * list bytes :=
  match w with
  | [] => (None, [])
  | c :: w => (Some (ztake len c), if zlen c <=? len then w else zdrop len c :: w)
  end.

(** A decoder of two-byte messages that begin with its tag. *)
Definition tag_decoder (tag : Z) (l : bytes) (w : list bytes) : Z * list bytes :=
  match l with
  | Some t :: _ :: _ => (if t =? tag then 2 else 0, w)
  | _ => (0, w)
  end.

Definition tagged (l : list Z) : bytes := Some <$> l.

Definition toy_chunks : list bytes :=
  [tagged [3; 10]; tagged [1; 11; 2]; tagged [12; 1]; tagged [13; 3; 14; 9; 9; 9]].

Lemma chunk_read_law : stream_law chunk_read.
Proof.
  intros len w Hlen. destruct w as [|c w]; [done|]. cbn.
  unfold zlen, ztake. rewrite length_take. lia.
Qed.

Lemma tag_decoder_law tag : decoder_law (tag_decoder tag).
Proof.
  intros l w. destruct l as [|[t|] [|x l]]; cbn; try (unfold zlen; cbn; lia).
  pose proof (zlen_nonneg l). rewrite !zlen_cons. case_match; lia.
Qed.

(** Four bytes of room to begin with; the ninth byte of the stream makes them more. *)
Lemma decoders_consume_stream_witness :
  let '(status, b, _, received, used) :=
    thread_loop chunk_read (fun _ => true) (tag_decoder 1) (tag_decoder 2) (tag_decoder 3)
      7 (ReadBuffer_new 4) toy_chunks [] [] in
  status = Left /\ used = tagged [3; 10; 1; 11; 2; 12; 1; 13; 3; 14] /\
  valid b = tagged [9; 9; 9] /\ used ++ valid b = received /\ m_size b <= 2 * zlen received.
Proof.
  pose proof (decoders_consume_stream chunk_read (fun _ => true) (tag_decoder 1) (tag_decoder 2)
    (tag_decoder 3) (tag_decoder_law 1) (tag_decoder_law 2) (tag_decoder_law 3)
    chunk_read_law 4 ltac:(lia) 7 toy_chunks) as H.
  destruct (thread_loop _ _ _ _ _ _ _ _ _ _) as [[[[status b] w] received] used] eqn:E.
  vm_compute in E. simplify_eq. destruct H as (_ & H & _); [by vm_compute|].
  split_and!; try by vm_compute.
Defined.

