(* ===== verification/Gsm.v ===== *)
(** * The modem

    [src/src/anbox/qemu/]: [AtParser] (at_parser.cpp) cuts a stream into lines and
    dispatches the commands, [GsmMessageProcessor] (gsm_message_processor.cpp)
    answers them.  The handlers are values of [Handler]; the map of handlers is the
    list of its entries in key order, in which the code walks it.  The theorems:
    how the stream is cut does not matter, and what every command is answered. *)

From Stdlib Require Import Ascii.
From S2P Require Import Prelude Utils.

(** ** AtParser *)

Section parser.
Variable Handler : Type.

Definition Handlers : Type := list (string * Handler).

Definition string_lt (a b : string) : bool :=
  match String.compare a b with Lt => true | _ => false end.

(** [std::map::insert]: sorted by key; a key that is there keeps its value. *)
Fixpoint register_command (command : string) (h : Handler) (hs : Handlers) : Handlers :=
  match hs with
  | [] => [(command, h)]
  | (k, v) :: rest =>
      if String.eqb k command then hs
      else if string_lt command k then (command, h) :: hs
      else (k, v) :: register_command command h rest
  end.

Definition is_line_end (b : Z) : bool := (b =? 10) || (b =? 13).

(** The first entry whose key the command begins with. *)
Fixpoint find_handler (hs : Handlers) (real_command : string) : option Handler :=
  match hs with
  | [] => None
  | (k, h) :: hs => if string_starts_with real_command k then Some h else find_handler hs real_command
  end.

(** The handler called and its argument. *)
Definition processs_command (hs : Handlers) (command : string) : option (Handler * string) :=
  if negb (string_starts_with command "AT") then None
  else
    let real_command := String.substring 2 (String.length command - 2) command in
    (fun h => (h, real_command)) <$> find_handler hs real_command.

(** The loop over the positions of [data] from [pos] on, [rest] being what is there;
    the calls made so far and the bytes they took. *)
Fixpoint at_loop (hs : Handlers) (data rest : list Z) (pos bytes_processed : Z)
    (calls : list (Handler * string)) : Z * list (Handler * string) :=
  match rest with
  | [] => (bytes_processed, calls)
  | byte :: rest =>
      if is_line_end byte then
        let command := text (ztake (pos - bytes_processed) (zdrop bytes_processed data)) in
        at_loop hs data rest (pos + 1) (bytes_processed + (pos - bytes_processed) + 1)
          (calls ++ option_list (processs_command hs command))
      else at_loop hs data rest (pos + 1) bytes_processed calls
  end.

(** What is left of [data], and the calls. *)
Definition at_process_data (hs : Handlers) (data : list Z) : list Z * list (Handler * string) :=
  let '(bytes_processed, calls) := at_loop hs data data 0 0 [] in
  (zdrop bytes_processed data, calls).

(** The reference: the lines that end in [data], and the start of the next one. *)
Fixpoint at_lines (data cur : list Z) : list (list Z) * list Z :=
  match data with
  | [] => ([], cur)
  | b :: data =>
      if is_line_end b then let '(ls, rest) := at_lines data [] in (cur :: ls, rest)
      else at_lines data (cur ++ [b])
  end.

Definition calls_for (hs : Handlers) (ls : list (list Z)) : list (Handler * string) :=
  ls ≫= (fun l => option_list (processs_command hs (text l))).

Lemma at_lines_app d1 d2 cur :
  at_lines (d1 ++ d2) cur =
    let '(ls1, rest) := at_lines d1 cur in
    let '(ls2, rest) := at_lines d2 rest in (ls1 ++ ls2, rest).
Proof.
  revert cur. induction d1 as [|b d1 IH]; intros cur; cbn [at_lines app].
  { by destruct (at_lines d2 cur). }
  case_match; rewrite IH.
  - destruct (at_lines d1 []) as [ls r]. by destruct (at_lines d2 r).
  - by destruct (at_lines d1 (cur ++ [b])).
Qed.

Lemma at_loop_lines hs data rest : forall done cur calls,
  data = done ++ cur ++ rest ->
  let '(processed, calls') := at_loop hs data rest (zlen done + zlen cur) (zlen done) calls in
  let '(ls, remainder) := at_lines rest cur in
  calls' = calls ++ calls_for hs ls /\ zdrop processed data = remainder.
Proof.
  induction rest as [|b rest IH]; intros done cur calls Hdata; cbn [at_loop at_lines].
  - split; [by rewrite app_nil_r|]. subst data. by rewrite app_nil_r, zdrop_app_exact.
  - destruct (is_line_end b).
    + rewrite Z.add_simpl_l. 
      assert (Hcmd : ztake (zlen cur) (zdrop (zlen done) data) = cur)
        by (rewrite Hdata, zdrop_app_exact; apply ztake_app_exact).
      rewrite Hcmd.
      specialize (IH (done ++ cur ++ [b]) []
        (calls ++ option_list (processs_command hs (text cur)))).
      assert (Hlen : zlen (done ++ cur ++ [b]) = zlen done + zlen cur + 1)
        by (rewrite !zlen_app; change (zlen [b]) with 1; lia).
      change (zlen []) with 0 in IH. rewrite Hlen, Z.add_0_r in IH.
      destruct (at_loop hs data rest _ _ _) as [processed calls'].
      destruct (at_lines rest []) as [ls remainder].
      destruct IH as [-> ?]; [by rewrite Hdata, <- !app_assoc|].
      split; [|done]. unfold calls_for. cbn. by rewrite <- app_assoc.
    + specialize (IH done (cur ++ [b]) calls). rewrite zlen_app in IH.
      change (zlen [b]) with 1 in IH. rewrite Z.add_assoc in IH. apply IH.
      rewrite Hdata. by rewrite <- (app_assoc cur).
Qed.
Lemma at_process_data_lines hs data :
  at_process_data hs data =
    let '(ls, remainder) := at_lines data [] in (remainder, calls_for hs ls).
Proof.
  unfold at_process_data. pose proof (at_loop_lines hs data data [] [] [] eq_refl) as H.
  change (zlen [] + zlen []) with 0 in H. change (zlen []) with 0 in H.
  destruct (at_loop hs data data 0 0 []) as [processed calls].
  destruct (at_lines data []) as [ls remainder]. by destruct H as [-> ->].
Qed.

(** What is left begins no further line. *)
Lemma at_lines_rest data : forall cur,
  forallb (fun b => negb (is_line_end b)) cur = true ->
  forallb (fun b => negb (is_line_end b)) (at_lines data cur).2 = true.
Proof.
  induction data as [|b data IH]; intros cur Hcur; cbn [at_lines]; [done|].
  destruct (is_line_end b) eqn:Hb.
  - specialize (IH [] eq_refl). by destruct (at_lines data []).
  - apply IH. rewrite forallb_app, Hcur. cbn. by rewrite Hb.
Qed.

Lemma at_lines_cur l cur :
  forallb (fun b => negb (is_line_end b)) l = true -> at_lines l cur = ([], cur ++ l).
Proof.
  revert cur. induction l as [|b l IH]; intros cur; cbn; [by rewrite app_nil_r|].
  intros [Hb Hl]%andb_prop. destruct (is_line_end b); [done|].
  rewrite IH by done. by rewrite <- app_assoc.
Qed.

(** The connection's reads, each added to the buffer and processed. *)
Fixpoint at_feed (hs : Handlers) (chunks : list (list Z)) (buffer : list Z)
    (calls : list (Handler * string)) : list Z * list (Handler * string) :=
  match chunks with
  | [] => (buffer, calls)
  | c :: chunks =>
      let '(buffer, new) := at_process_data hs (buffer ++ c) in
      at_feed hs chunks buffer (calls ++ new)
  end.

Lemma at_feed_lines hs chunks : forall buffer calls,
  forallb (fun b => negb (is_line_end b)) buffer = true ->
  at_feed hs chunks buffer calls =
    let '(ls, remainder) := at_lines (buffer ++ concat chunks) [] in
    (remainder, calls ++ calls_for hs ls).
Proof.
  induction chunks as [|c chunks IH]; intros buffer calls Hb; cbn [at_feed concat].
  - rewrite app_nil_r, at_lines_cur by done. by rewrite app_nil_r.
  - rewrite at_process_data_lines, app_assoc, (at_lines_app (buffer ++ c)).
    pose proof (at_lines_rest (buffer ++ c) [] eq_refl) as Hrest.
    destruct (at_lines (buffer ++ c) []) as [ls r]. rewrite IH by exact Hrest.
    rewrite (at_lines_app r), (at_lines_cur r) by exact Hrest. cbn.
    destruct (at_lines (concat chunks) r) as [ls2 r2].
    unfold calls_for. by rewrite bind_app, app_assoc.
Qed.
End parser.

(** ** GsmMessageProcessor *)

Inductive GsmHandler := OkReply | Ctec | Cmgf | Creg | Cgreg | Cfun.

#[export] Instance GsmHandler_eq_dec : EqDecision GsmHandler.
Proof. solve_decision. Defined.

Definition csc_command : string :=
  String.append "+CSCS=" (String quote (String.append "HEX" (String quote EmptyString))).

(** The constructor's calls, in order. *)
Definition gsm_commands : Handlers GsmHandler :=
  [("E0Q0V1", OkReply); ("S0=0", OkReply); ("+CTEC", Ctec); ("+CMEE=1", OkReply);
   ("+CCWA=1", OkReply); ("+CMOD=0", OkReply); ("+CMUT=0", OkReply); ("+CSSN=0,1", OkReply);
   ("+COLP=0", OkReply); (csc_command, OkReply); ("+CUSD=1", OkReply);
   ("+CGEREP=1,0", OkReply); ("+CMGF", Cmgf); ("%CPI=3", OkReply); ("%CSTAT=1", OkReply);
   ("+CREG", Creg); ("+CGREG", Cgreg); ("+CFUN", Cfun)]%string.

Definition gsm_handlers : Handlers GsmHandler :=
  foldl (fun hs c => register_command GsmHandler c.1 c.2 hs) [] gsm_commands.

Section gsm.
Context `{BoostFormat}.

(** The text sent. *)
Definition send_reply (message : string) : string := string_format reply_format [Str message].

(** [technology::gsm]. *)
Definition technology_gsm : Z := 0.

Definition handle_ctec (command : string) : option string :=
  if String.eqb command "+CTEC=?" then Some (send_reply "+CTEC: 0,1,2,3")
  else if String.eqb command "+CTEC?" then
    Some (send_reply (string_format "+CTEC: %d,%x" [Num technology_gsm; Num 0x0f]))
  else None.

Definition handle_cmgf (command : string) : option string :=
  if String.eqb command "+CMGF=0" then Some (send_reply EmptyString) else None.

Definition handle_creg (command : string) : option string :=
  if String.eqb command "+CREG=?" then Some (send_reply "+CREG: (0-2)")
  else if String.eqb command "+CREG?" then
    Some (send_reply (string_format "+CREF: %d,%d" [Num 0; Num 0]))
  else if string_starts_with command "+CREG=" then Some (send_reply EmptyString)
  else None.

Definition handle_cgreg (command : string) : option string :=
  if String.eqb command "+CGREG=?" then Some (send_reply "+CGREG: (0-2)")
  else if String.eqb command "+CGREG?" then
    Some (send_reply (string_format "+CGREG: %d,%d" [Num 0; Num 0]))
  else if string_starts_with command "+CGREG=" then Some (send_reply EmptyString)
  else None.

Definition handle_cfun (command : string) : option string :=
  if String.eqb command "+CFUN?" then Some (send_reply (string_format "+CFUN: %d" [Num 1]))
  else if string_starts_with command "+CFUN=" then Some (send_reply EmptyString)
  else None.

Definition run_handler (h : GsmHandler) (command : string) : option string :=
  match h with
  | OkReply => Some (send_reply "OK")
  | Ctec => handle_ctec command
  | Cmgf => handle_cmgf command
  | Creg => handle_creg command
  | Cgreg => handle_cgreg command
  | Cfun => handle_cfun command
  end.

Definition run_calls (calls : list (GsmHandler * string)) : list string :=
  calls ≫= (fun c => option_list (run_handler c.1 c.2)).

(** The buffer left and the texts sent. *)
Definition gsm_process_data (data buffer : list Z) : list Z * list string :=
  let '(buffer, calls) := at_process_data GsmHandler gsm_handlers (buffer ++ data) in
  (buffer, run_calls calls).

Fixpoint gsm_feed (chunks : list (list Z)) (buffer : list Z) (sent : list string) :
    list Z * list string :=
  match chunks with
  | [] => (buffer, sent)
  | c :: chunks =>
      let '(buffer, new) := gsm_process_data c buffer in gsm_feed chunks buffer (sent ++ new)
  end.

(** What one line is answered. *)
Definition gsm_answer (line : list Z) : list string :=
  run_calls (option_list (processs_command GsmHandler gsm_handlers (text line))).

Lemma gsm_feed_at chunks : forall buffer calls,
  gsm_feed chunks buffer (run_calls calls) =
    let '(buffer, calls) := at_feed GsmHandler gsm_handlers chunks buffer calls in
    (buffer, run_calls calls).
Proof.
  induction chunks as [|c chunks IH]; intros buffer calls; cbn [gsm_feed at_feed]; [done|].
  unfold gsm_process_data. destruct (at_process_data _ _ _) as [b new].
  rewrite <- IH. f_equal. unfold run_calls. by rewrite bind_app.
Qed.

(** C33: however the guest's bytes are cut into reads, the modem answers the lines that
    end in them one by one and in order, and keeps the unfinished line. *)
Theorem gsm_stream_answers chunks :
  let '(ls, remainder) := at_lines (concat chunks) [] in
  gsm_feed chunks [] [] = (remainder, ls ≫= gsm_answer).
Proof.
  pose proof (gsm_feed_at chunks [] []) as Hf.
  rewrite at_feed_lines in Hf by done. cbn [app] in Hf.
  destruct (at_lines (concat chunks) []) as [ls remainder]. cbn in Hf. rewrite Hf. f_equal.
  clear Hf. unfold calls_for, gsm_answer, run_calls.
  induction ls as [|l ls IH]; [done|]. cbn. by rewrite bind_app, IH.
Qed.

(** No command is a beginning of another one. *)
Definition prefix_free (l : list string) : bool :=
  forallb (fun a => forallb (fun b => String.eqb a b || negb (String.prefix a b)) l) l.

Lemma find_handler_unique (hs : Handlers GsmHandler) c k h :
  NoDup (fst <$> hs) -> prefix_free (fst <$> hs) = true -> (k, h) ∈ hs ->
  string_starts_with c k = true -> find_handler GsmHandler hs c = Some h.
Proof.
  intros Hnd Hfree Hin Hk. apply starts_with_prefix in Hk.
  assert (Honly : forall k', k' ∈ fst <$> hs -> String.prefix k' c = true -> k' = k).
  { intros k' Hk' Hp. assert (Hkk : k ∈ fst <$> hs) by (apply list_elem_of_fmap; by exists (k, h)).
    unfold prefix_free in Hfree. rewrite forallb_forall in Hfree.
    assert (Hab : forall a b, a ∈ fst <$> hs -> b ∈ fst <$> hs -> String.prefix a b = true -> a = b).
    { intros a b Ha Hb Hpre. apply list_elem_of_In in Ha, Hb. specialize (Hfree a Ha).
      rewrite forallb_forall in Hfree. specialize (Hfree b Hb). rewrite Hpre in Hfree.
      rewrite orb_false_r in Hfree. by apply String.eqb_eq. }
    pose proof (prefix_comparable k k' c Hk Hp) as [Hpre|Hpre]%orb_prop; [symmetry|]; by apply Hab. }
  clear Hfree. induction hs as [|[k' h'] hs IH]; [by apply elem_of_nil in Hin|].
  cbn [find_handler]. cbn in Hnd. apply NoDup_cons in Hnd as [Hn Hnd].
  destruct (string_starts_with c k') eqn:Hs.
  - apply starts_with_prefix in Hs. assert (k' = k) as -> by (apply Honly; [left|done]).
    apply elem_of_cons in Hin as [[= ->]|Hin]; [done|].
    destruct Hn. apply list_elem_of_fmap. by exists (k, h).
  - apply elem_of_cons in Hin as [[= -> ->]|Hin].
    + apply starts_with_prefix in Hk. congruence.
    + apply IH; [done|done|]. intros k2 Hk2. apply Honly. by right.
Qed.

Lemma processs_command_at k h c :
  (k, h) ∈ gsm_commands -> string_starts_with c k = true ->
  processs_command GsmHandler gsm_handlers (String.append "AT" c) = Some (h, c).
Proof.
  intros Hin Hk. unfold processs_command.
  replace (string_starts_with (String.append "AT" c) "AT") with true
    by (symmetry; apply starts_with_prefix; clear; destruct c; reflexivity). cbn [negb].
  assert (Hpre : String.prefix c c = true)
    by (clear; induction c as [|a c IH]; [done|]; cbn; by destruct (ascii_dec a a)).
  apply String.prefix_correct in Hpre.
  assert (Hc : String.substring 2 (String.length (String.append "AT" c) - 2) (String.append "AT" c) = c).
  { change (String.length (String.append "AT" c) - 2)%nat with (String.length c - 0)%nat.
    by rewrite Nat.sub_0_r. }
  rewrite Hc. rewrite (find_handler_unique gsm_handlers c k h); [done| | | |done].
  - apply (bool_decide_unpack _). by vm_compute.
  - by vm_compute.
  - assert (Hsub : Forall (fun e => e ∈ gsm_handlers) gsm_commands)
      by (apply (bool_decide_unpack _); by vm_compute).
    rewrite Forall_forall in Hsub. by apply Hsub.
Qed.

(** The text of an answer. *)
Definition final_ok (message : string) : string :=
  String.append message (String.append CR (String.append "OK" newline)).

(** The queries and settings the guest's radio layer uses, and the answers before the
    final [OK]. *)
Definition gsm_table : list (string * string) :=
  [("E0Q0V1", "OK"); ("S0=0", "OK"); ("+CTEC=?", "+CTEC: 0,1,2,3"); ("+CTEC?", "+CTEC: 0,f");
   ("+CMEE=1", "OK"); ("+CUSD=1", "OK"); ("+CGEREP=1,0", "OK"); ("%CPI=3", "OK");
   ("+CMGF=0", EmptyString); ("+CREG=?", "+CREG: (0-2)"); ("+CREG?", "+CREF: 0,0");
   ("+CREG=2", EmptyString); ("+CGREG=?", "+CGREG: (0-2)"); ("+CGREG?", "+CGREG: 0,0");
   ("+CGREG=1", EmptyString); ("+CFUN?", "+CFUN: 1"); ("+CFUN=0", EmptyString)]%string.

End gsm.

Definition answered `{BoostFormat} (e : string * string) : bool :=
  bool_decide (gsm_answer (bytes_of (String.append "AT" e.1)) = [final_ok e.2]).

Lemma table_answered e :
  e ∈ gsm_table ->
  (let H := toy_format in gsm_answer (bytes_of (String.append "AT" e.1))) = [final_ok e.2].
Proof.
  assert (Hall : forallb (@answered toy_format) gsm_table = true) by by vm_compute.
  rewrite forallb_forall in Hall. intros He. specialize (Hall e (proj1 (list_elem_of_In _ _) He)).
  by apply bool_decide_eq_true in Hall.
Qed.

Section answers.
Context `{BoostFormat, !BoostFormatLaws}.

Lemma format_printf f args :
  bool_decide (f ∈ used_formats) = true ->
  string_format f args = @string_format toy_format f args.
Proof. intros Hf. apply boost_format_printf. by apply bool_decide_eq_true in Hf. Qed.

Lemma run_handler_printf h c : run_handler h c = @run_handler toy_format h c.
Proof.
  destruct h; cbn; unfold handle_ctec, handle_cmgf, handle_creg, handle_cgreg, handle_cfun,
    send_reply; rewrite ?(format_printf reply_format _ eq_refl),
      ?(format_printf "+CTEC: %d,%x" _ eq_refl), ?(format_printf "+CREF: %d,%d" _ eq_refl),
      ?(format_printf "+CGREG: %d,%d" _ eq_refl), ?(format_printf "+CFUN: %d" _ eq_refl);
    reflexivity.
Qed.

Lemma gsm_answer_printf l : gsm_answer l = (let H := toy_format in gsm_answer l).
Proof.
  unfold gsm_answer, run_calls. destruct (processs_command _ _ _) as [[h c]|]; [|done].
  cbn -[run_handler]. by rewrite run_handler_printf.
Qed.

(** A command goes to the handler registered for the beginning it has, whatever
    the order of the map; the table lists what the guest's commands are answered.
    The answer to the query [+CREG?] is marked [+CREF], and the commands answered by
    [OK] alone get it twice. *)
Theorem gsm_dispatch :
  (forall k h c, (k, h) ∈ gsm_commands -> string_starts_with c k = true ->
     gsm_answer (bytes_of (String.append "AT" c)) = option_list (run_handler h c)) /\
  Forall (fun e => gsm_answer (bytes_of (String.append "AT" e.1)) = [final_ok e.2]) gsm_table.
Proof.
  split.
  - intros k h c Hin Hk. unfold gsm_answer. rewrite text_bytes_of, (processs_command_at k h) by done.
    cbn. by rewrite app_nil_r.
  - apply Forall_forall. intros e He. rewrite gsm_answer_printf. apply table_answered, He.
Qed.
End answers.

Lemma gsm_dispatch_witness :
  @gsm_answer toy_format (bytes_of "AT+CREG?") = [final_ok "+CREF: 0,0"].
Proof.
  destruct (@gsm_dispatch toy_format toy_format_laws) as [_ H].
  rewrite Forall_forall in H. apply (H ("+CREG?"%string, "+CREF: 0,0"%string)).
  apply list_elem_of_In. do 10 right. by left.
Defined.
