(* ===== verification/Network.v ===== *)
(** * Sockets and connections

    [Connections] (src/src/anbox/network/connections.h) is the table of the open
    connections of a server, by id; [SocketConnection] (network/socket_connection.cpp)
    reads from its socket and hands what it read to its processor;
    [BaseSocketMessenger] (network/base_socket_messenger.cpp) writes whole messages to
    a non-blocking socket and reads a given number of bytes.

    What boost::asio answers is an input: [asio::write] says it wrote all, or how much
    it had written when it failed; [asio::read] gives bytes and an error. *)

From S2P Require Import Prelude.

(** ** Connections *)

Definition Connections : Type -> Type := gmap Z.

Section Connections.
Context {A : Type}.
Implicit Types (c : A) (m : Connections A).

(** [std::map::insert]: an id that is taken keeps its connection. *)
Definition connections_add (id : Z) c m : Connections A :=
  match m !! id with Some _ => m | None => <[id := c]> m end.

Definition connections_remove (id : Z) m : Connections A := delete id m.

Definition connections_includes (id : Z) m : bool := bool_decide (is_Some (m !! id)).

Definition connections_clear (_ : Connections A) : Connections A := ∅.

Definition connections_size m : Z := Z.of_nat (size m).

(** [std::map::at]: the connection of id [n], not the [n]th; [None] is the exception. *)
Definition connections_at (n : Z) m : option A := m !! n.

Lemma connections_add_fresh id c m : m !! id = None -> connections_add id c m = <[id := c]> m.
Proof. intros H. unfold connections_add. by rewrite H. Qed.

Lemma connections_add_lookup id c m : is_Some (connections_add id c m !! id).
Proof.
  unfold connections_add. destruct (m !! id) eqn:E; [rewrite E; eauto|].
  rewrite lookup_insert_eq. eauto.
Qed.
End Connections.

(** ** SocketConnection *)

(** The processor's object and whether a read is outstanding. *)
Record SocketConnection (P : Type) := mkConnection { processor_ : P; reading : bool }.
Arguments mkConnection {P}.
Arguments processor_ {P}.
Arguments reading {P}.

(** An outstanding read ends with an error or with bytes. *)
Inductive ReadResult := ReadError | ReadBytes (data : list Z).

Section SocketConnection.
(** [MessageProcessor::process_data]: [false] ends the connection. *)
Context {P : Type} (process_data : P -> list Z -> P * bool).

Definition read_next_message (c : SocketConnection P) : SocketConnection P :=
  mkConnection (processor_ c) true.

(** The read is no longer outstanding; an entry of the table is its processor. *)
Definition on_read_size (id : Z) (r : ReadResult) (s : SocketConnection P * gset Z) :
    SocketConnection P * gset Z :=
  let '(c, open) := s in
  let c := mkConnection (processor_ c) false in
  match r with
  | ReadError => (c, open ∖ {[id]})
  | ReadBytes data =>
      let '(p, more) := process_data (processor_ c) data in
      let c := mkConnection p false in
      if more then (read_next_message c, open) else (c, open ∖ {[id]})
  end.

(** The results arrive one after the other, each for the read asked for last. *)
Fixpoint on_reads (id : Z) (rs : list ReadResult) (s : SocketConnection P * gset Z) :
    SocketConnection P * gset Z :=
  match rs with
  | [] => s
  | r :: rs => if reading s.1 then on_reads id rs (on_read_size id r s) else s
  end.

(** A connection that reads is in the table, and nobody else's entry is touched. *)
Lemma on_reads_table id rs : forall c open, id ∈ open -> reading c = true ->
  let s := on_reads id rs (c, open) in
  (if reading s.1 then s.2 = open else s.2 = open ∖ {[id]}).
Proof.
  induction rs as [|r rs IH]; intros [p b] open Hin Hb; cbn in Hb; subst b; [done|].
  cbn [on_reads reading fst].
  destruct r as [|data]; cbn [on_read_size processor_].
  - by destruct rs.
  - destruct (process_data p data) as [p' []]; [by apply IH|by destruct rs].
Qed.
End SocketConnection.

(** ** BaseSocketMessenger: sending *)

(** What [boost::asio::write] did with a buffer: wrote it, or met the error
    [try_again] or another one after [n] bytes. *)
Inductive WriteAnswer := Written | TryAgain (n : Z) | Failed (n : Z).

Inductive Progress := Sent | Again | Thrown.

Global Instance progress_eq_dec : EqDecision Progress.
Proof. solve_decision. Defined.

(** One turn of [send]'s loop: the bytes that went to the socket, and what follows. *)
Definition send_attempt (data : list Z) (a : WriteAnswer) : list Z * Progress :=
  match a with
  | Written => (data, Sent)
  | TryAgain n => (ztake n data, Again)
  | Failed n => (ztake n data, Thrown)
  end.

(** The loop of one thread; it is still in it when the answers end. *)
Fixpoint send (data : list Z) (answers : list WriteAnswer) : list Z * Progress :=
  match answers with
  | [] => ([], Again)
  | a :: answers =>
      let '(bytes, p) := send_attempt data a in
      match p with
      | Again => let '(rest, p) := send data answers in (bytes ++ rest, p)
      | _ => (bytes, p)
      end
  end.

(** [::send] takes [n] bytes, or fails with [n] negative. *)
Definition send_raw (data : list Z) (n : Z) : list Z * Z := (ztake n data, n).

(** *** Several threads

    [message_lock] is held during one attempt, not during the loop. *)
Record Messenger := mkMessenger {
  wire : list Z;
  senders : gmap Z (list Z)
}.

Inductive MEvent :=
  | Begin (t : Z) (data : list Z)
  | Attempt (t : Z) (data : list Z) (a : WriteAnswer).

Inductive messenger_step : Messenger -> MEvent -> Messenger -> Prop :=
  | step_begin s t data :
      senders s !! t = None ->
      messenger_step s (Begin t data) (mkMessenger (wire s) (<[t := data]> (senders s)))
  | step_attempt s t data a bytes p :
      senders s !! t = Some data -> send_attempt data a = (bytes, p) ->
      messenger_step s (Attempt t data a)
        (mkMessenger (wire s ++ bytes)
          (if decide (p = Again) then senders s else delete t (senders s))).

Inductive messenger_run : Messenger -> list MEvent -> Messenger -> Prop :=
  | run_nil s : messenger_run s [] s
  | run_snoc s tr s' e s'' :
      messenger_run s tr s' -> messenger_step s' e s'' -> messenger_run s (tr ++ [e]) s''.

(** ** BaseSocketMessenger: receiving *)

Inductive ReadErrorCode := WouldBlock | OtherError.

(** [boost::asio::read]: the bytes it put into the rest of the buffer and the error. *)
Definition ReadAnswer : Type := list Z * option ReadErrorCode.

(** What its documentation says of a buffer of [size] bytes: without an error it is
    full, with one it is not. *)
Definition read_contract (size : Z) (a : ReadAnswer) : Prop :=
  match a.2 with None => zlen a.1 = size | Some _ => zlen a.1 < size end.

(** The loop; the last error is the result.  [None]: the answers do not end it. *)
Fixpoint receive_loop (size : Z) (data : list Z) (e : option ReadErrorCode)
    (answers : list ReadAnswer) : option (list Z * option ReadErrorCode) :=
  if size <=? zlen data then Some (data, e)
  else
    match answers with
    | [] => None
    | (bytes, e) :: answers =>
        let data := data ++ bytes in
        match e with
        | Some OtherError => Some (data, e)
        | _ => receive_loop size data e answers
        end
    end.

Definition receive_msg (size : Z) (answers : list ReadAnswer) :
    option (list Z * option ReadErrorCode) :=
  receive_loop size [] None answers.

(** ** What a reader gets *)

(** Each answer meets the contract for the part of the buffer that is left. *)
Fixpoint reads_contract (size : Z) (answers : list ReadAnswer) : Prop :=
  match answers with
  | [] => True
  | a :: answers => read_contract size a /\ reads_contract (size - zlen a.1) answers
  end.

Lemma receive_loop_spec size answers : forall data e d e',
  zlen data <= size -> (e = None <-> zlen data = size) \/ data = [] /\ e = None ->
  reads_contract (size - zlen data) answers ->
  receive_loop size data e answers = Some (d, e') -> 0 < size ->
  (exists more, d = data ++ more) /\ zlen d <= size /\ (e' = None <-> zlen d = size) /\
  (e' = None \/ e' = Some OtherError).
Proof.
  induction answers as [|[bytes e1] answers IH]; intros data e d e' Hle Hinv Hc Hr Hpos; cbn in Hr;
    destruct (Z.leb_spec size (zlen data)) as [Hfull|Hfull].
  1, 3: simplify_eq;
    assert (e' = None) as -> by (destruct Hinv as [Hinv|[-> ->]]; [apply Hinv; lia|done]);
    split; [by exists []; rewrite app_nil_r|]; split; [done|]; split; [split; [lia|done]|by left].
  - done.
  - destruct Hc as [Hc Hcs]. cbn in Hc, Hcs. unfold read_contract in Hc. cbn in Hc.
    pose proof (zlen_app data bytes) as Hlen.
    destruct e1 as [[]|].
    + apply IH in Hr as ((more & ->) & Hr); [|lia|left; split; [done|lia]| |done].
      * split; [exists (bytes ++ more); by rewrite app_assoc|done].
      * replace (size - zlen (data ++ bytes)) with (size - zlen data - zlen bytes) by lia. done.
    + simplify_eq. split; [by exists bytes|]. split; [lia|]. split; [split; [done|lia]|by right].
    + apply IH in Hr as ((more & ->) & Hr); [|lia|left; split; [lia|done]| |done].
      * split; [exists (bytes ++ more); by rewrite app_assoc|done].
      * replace (size - zlen (data ++ bytes)) with (size - zlen data - zlen bytes) by lia. done.
Qed.

(** [receive_msg] fills the buffer or reports why not; waiting is no reason. *)
Lemma receive_msg_spec size answers d e :
  0 < size -> reads_contract size answers -> receive_msg size answers = Some (d, e) ->
  zlen d <= size /\ (e = None <-> zlen d = size) /\ (e = None \/ e = Some OtherError).
Proof.
  intros Hpos Hc Hr.
  destruct (receive_loop_spec size answers [] None d e) as (_ & H); try done.
  - change (0 <= size). lia.
  - by right.
  - change (zlen []) with 0. by rewrite Z.sub_0_r.
Qed.

(** ** What the peer of several senders gets *)

Definition begun (tr : list MEvent) : list (list Z) :=
  omap (fun e => match e with Begin _ d => Some d | _ => None end) tr.

Definition sent (tr : list MEvent) : list (list Z) :=
  omap (fun e => match e with Attempt _ d Written => Some d | _ => None end) tr.

Definition thrown (tr : list MEvent) : list (list Z) :=
  omap (fun e => match e with Attempt _ d (Failed _) => Some d | _ => None end) tr.

(** The bytes of attempts that failed after a part of their message. *)
Definition partial_bytes (tr : list MEvent) : Z :=
  foldr (fun e z => match e with Attempt _ _ (TryAgain n | Failed n) => n + z | _ => z end) 0 tr.

(** No attempt writes more than there is. *)
Definition legal (e : MEvent) : Prop :=
  match e with Attempt _ d (TryAgain n | Failed n) => 0 <= n <= zlen d | _ => True end.

Definition pending (s : Messenger) : list (list Z) := snd <$> map_to_list (senders s).

Lemma pending_insert t d w m :
  m !! t = None -> pending (mkMessenger w (<[t := d]> m)) ≡ₚ d :: (snd <$> map_to_list m).
Proof. intros H. unfold pending. cbn [senders]. by rewrite map_to_list_insert. Qed.

Lemma pending_delete t d w m :
  m !! t = Some d -> (snd <$> map_to_list m) ≡ₚ d :: pending (mkMessenger w (delete t m)).
Proof. intros H. unfold pending. cbn [senders]. by rewrite <- (map_to_list_delete m t d H). Qed.

Lemma partial_bytes_snoc tr e : partial_bytes (tr ++ [e]) = partial_bytes tr + partial_bytes [e].
Proof.
  induction tr as [|x tr IH]; [done|].
  destruct x as [|? ? []]; cbn [app]; unfold partial_bytes in *; cbn [foldr] in *; lia.
Qed.

Lemma partial_bytes_nonneg tr : Forall legal tr -> 0 <= partial_bytes tr.
Proof.
  induction 1 as [|e tr Hl _ IH]; [done|].
  destruct e as [|? ? []]; unfold partial_bytes, legal in *; cbn [foldr]; lia.
Qed.

(** One attempt: what is added to the wire. *)
Lemma attempt_bytes t d a bytes p :
  legal (Attempt t d a) -> send_attempt d a = (bytes, p) ->
  zlen bytes = zlen (concat (sent [Attempt t d a])) + partial_bytes [Attempt t d a] /\
  (partial_bytes [Attempt t d a] = 0 -> bytes = concat (sent [Attempt t d a])).
Proof.
  intros Hl H. unfold partial_bytes, legal in *.
  destruct a as [|n|n]; cbn [send_attempt] in H; simplify_eq; cbn [foldr sent omap list_omap concat].
  - cbn. rewrite app_nil_r. split; [rewrite Z.add_0_r|]; done.
  - change (zlen []) with 0. rewrite zlen_ztake by lia. split; [lia|]. intros Hn. apply ztake_nonpos; lia.
  - change (zlen []) with 0. rewrite zlen_ztake by lia. split; [lia|]. intros Hn. apply ztake_nonpos; lia.
Qed.

Lemma wire_length s0 tr s :
  messenger_run s0 tr s -> wire s0 = [] -> Forall legal tr ->
  zlen (wire s) = zlen (concat (sent tr)) + partial_bytes tr /\
  (partial_bytes tr = 0 -> wire s = concat (sent tr)).
Proof.
  intros Hrun H0. induction Hrun as [s0|s0 tr s e s' Hrun IH Hstep]; intros Hl.
  - rewrite H0. split; [done|done].
  - apply Forall_app in Hl as [Hl He]. apply Forall_inv in He.
    destruct (IH H0 Hl) as [IHl IHw]. pose proof (partial_bytes_nonneg tr Hl).
    rewrite partial_bytes_snoc. unfold sent. rewrite omap_app. fold (sent tr). fold (sent [e]).
    rewrite concat_app, zlen_app.
    destruct Hstep as [s t d Hn|s t d a bytes p Hs Ha]; cbn [wire].
    + change (concat (sent [Begin t d])) with (@nil Z). change (partial_bytes [Begin t d]) with 0. change (zlen []) with 0.
      rewrite app_nil_r. split; [lia|]. intros. apply IHw. lia.
    + destruct (attempt_bytes t d a bytes p He Ha) as [Hb1 Hb2].
      assert (0 <= partial_bytes [Attempt t d a]) by (by apply partial_bytes_nonneg, Forall_singleton).
      rewrite zlen_app. split; [lia|]. intros Hz. rewrite IHw, Hb2 by lia. done.
Qed.

Lemma messages_conserved s0 tr s :
  messenger_run s0 tr s -> senders s0 = ∅ ->
  begun tr ≡ₚ sent tr ++ thrown tr ++ pending s.
Proof.
  intros Hrun H0. induction Hrun as [s0|s0 tr s e s' Hrun IH Hstep].
  - unfold pending. by rewrite H0, map_to_list_empty.
  - specialize (IH H0). unfold begun, sent, thrown in *. rewrite !omap_app.
    destruct Hstep as [s t d Hn|s t d a bytes p Hs Ha].
    + cbn. rewrite !app_nil_r, (pending_insert t d _ _ Hn), IH.
      rewrite <- !app_assoc. do 2 f_equiv. symmetry. apply Permutation_cons_append.
    + rewrite IH. destruct a as [|n|n]; cbn in Ha; simplify_eq; cbn -[map_to_list];
        rewrite ?app_nil_r, <- ?app_assoc; [|done|];
        unfold pending at 1; rewrite (pending_delete t _ (wire s) _ Hs).
      * f_equiv. cbn. by rewrite <- Permutation_middle.
      * f_equiv. f_equiv. done.
Qed.

Definition messenger_new : Messenger := mkMessenger [] ∅.

(** C35: however many threads send over one socket and however often it is not ready:
    every message whose [send] was called is written, given up with an exception or
    still being sent, and the peer receives the written messages, each once, whole and in
    the order in which they were finished, exactly when no attempt failed after a part of
    its message; one that did leaves that part on the wire, and [send] then starts the
    same message from its beginning again. *)
Theorem messenger_sends tr s :
  messenger_run messenger_new tr s -> Forall legal tr ->
  begun tr ≡ₚ sent tr ++ thrown tr ++ pending s /\
  zlen (wire s) = zlen (concat (sent tr)) + partial_bytes tr /\
  (wire s = concat (sent tr) <-> partial_bytes tr = 0) /\
  (forall t d n, senders s !! t = Some d -> 0 <= n <= zlen d ->
    exists s', messenger_run messenger_new
        (tr ++ [Attempt t d (TryAgain n)] ++ [Attempt t d Written]) s' /\
      wire s' = wire s ++ ztake n d ++ d).
Proof.
  intros Hrun Hl. destruct (wire_length _ _ _ Hrun eq_refl Hl) as [Hlen Hw].
  split_and!; [by apply (messages_conserved messenger_new)|done|split; [|done]|].
  - intros E. rewrite E in Hlen. lia.
  - intros t d n Hs Hn. eexists. split.
    + rewrite app_assoc. eapply run_snoc; [eapply run_snoc; [exact Hrun|]|].
      * by eapply step_attempt.
      * by eapply step_attempt.
    + cbn. by rewrite app_assoc.
Qed.

(** Two senders; the first is not ready once, after nothing. *)
Lemma messenger_sends_witness :
  exists s, messenger_run messenger_new
      [Begin 1 [1; 2; 3]; Begin 2 [4]; Attempt 1 [1; 2; 3] (TryAgain 0); Attempt 2 [4] Written;
       Attempt 1 [1; 2; 3] Written] s /\
    wire s = [4; 1; 2; 3].
Proof.
  assert (Hrun : exists s, messenger_run messenger_new
    ((((([] ++ [Begin 1 [1; 2; 3]]) ++ [Begin 2 [4]]) ++ [Attempt 1 [1; 2; 3] (TryAgain 0)]) ++
      [Attempt 2 [4] Written]) ++ [Attempt 1 [1; 2; 3] Written]) s).
  { eexists.
    eapply run_snoc; [eapply run_snoc; [eapply run_snoc; [eapply run_snoc;
      [eapply run_snoc; [apply run_nil|]|]|]|]|].
    - by apply step_begin.
    - by apply step_begin.
    - by eapply step_attempt.
    - by eapply step_attempt.
    - by eapply step_attempt. }
  destruct Hrun as [s Hrun]. exists s. split; [exact Hrun|].
  apply (messenger_sends _ s Hrun); [|reflexivity].
  cbn [app]. repeat (apply Forall_cons; split); try apply Forall_nil; cbn; try done; lia.
Defined.
