(* ===== verification/Qemud.v ===== *)
(** * The services behind the pipe

    [src/src/anbox/qemu/]: how a pipe's client is identified and which processor it
    gets (pipe_connection_creator.cpp), the framing of the [qemud] services
    (qemud_message_processor.cpp) and the services themselves: boot properties,
    sensors, fingerprint, hardware control, boot animation, camera.  What a
    processor sends is a list of byte lists, one per [send].  The modem is in Gsm.v,
    the adb proxy in Adb.v. *)

From Stdlib Require Import Ascii.
From S2P Require Import Prelude Utils Network.

Definition header_size : Z := 4.

(** ** Headers *)

(** [send_header]: what [snprintf] leaves in the array, without the terminator. *)
Definition send_header (size : Z) : list Z := ztake header_size (bytes_of (printf None "%04zx" [Num size])).

Definition finish_message : list Z := [0].

(** ** The command loop *)

Fixpoint process_commands (n : nat) (buffer : list Z) (handled : list string) :
    option (list Z * list string) :=
  match n with
  | O => None
  | S n =>
      if zlen buffer <? header_size then Some (buffer, handled)
      else
        (* the array has no terminator; the model stops at its end *)
        let body_size := scan_hex (ztake header_size buffer) in
        let total_size := header_size + body_size in
        if zlen buffer <? total_size then Some (buffer, handled)
        else
          let command := text (ztake body_size (zdrop header_size buffer)) in
          let consumed := header_size + body_size in
          let buffer := zdrop consumed buffer in
          let remaining := u64 (zlen buffer - consumed) in
          if remaining <=? 0 then Some (buffer, handled ++ [command])
          else process_commands n buffer (handled ++ [command])
  end.

(** The buffer left and the commands handled, in order. *)
Definition qemud_process_data (data buffer : list Z) : option (list Z * list string) :=
  let buffer := buffer ++ data in process_commands (S (length buffer)) buffer [].

(** ** Densities and the services *)

Inductive DensityType := low | medium | tv | high | xhigh | xxhigh.

Definition density_value (d : DensityType) : Z :=
  match d with low => 120 | medium => 160 | tv => 213 | high => 240 | xhigh => 360 | xxhigh => 480 end.

Definition current_density : DensityType := medium.

Definition dp_to_pixel (dp : Z) : Z :=
  i32 (u32 (dp * density_value current_density) / density_value medium).

Section services.
Context `{BoostFormat}.

Definition boot_properties : list string :=
  [string_format "ro.sf.lcd_density=%d" [Num (density_value current_density)]].

Definition list_properties : list (list Z) :=
  (boot_properties ≫= (fun prop => [send_header (zlen (bytes_of prop)); bytes_of prop])) ++
  [finish_message].

Definition boot_properties_handle_command (command : string) : list (list Z) :=
  if String.eqb command "list" then list_properties else [].
End services.

Definition list_sensors : list (list Z) :=
  let buf := bytes_of (printf None "%d" [Num 0]) in
  [send_header (zlen buf); buf; finish_message].

Definition sensors_handle_command (command : string) : list (list Z) :=
  if String.eqb command "list-sensors" then list_sensors else [].

Definition listen : list (list Z) :=
  let buf := bytes_of "off" in [send_header (zlen buf); buf; finish_message].

Definition fingerprint_handle_command (command : string) : list (list Z) :=
  if String.eqb command "listen" then listen else [].

Definition hwcontrol_handle_command (command : string) : list (list Z) := [].

(** The icon's whole blocks: [read] fails on a shorter one. *)
Fixpoint retrieve_icon (n : nat) (file : list Z) : list (list Z) :=
  match n with
  | O => []
  | S n => if zlen file <? 1024 then [] else ztake 1024 file :: retrieve_icon n (zdrop 1024 file)
  end.

Definition bootanimation_handle_command (icon : list Z) (command : string) : list (list Z) :=
  if String.eqb command "retrieve-icon" then retrieve_icon (length icon) icon else [].

(** ** The camera *)

Definition camera_list : list (list Z) := [bytes_of newline].

Definition camera_handle_command (command : string) : list (list Z) :=
  if String.eqb command "list" then camera_list else [].

(** [None]: the erasure goes past the end of the buffer, for want of a terminator. *)
Fixpoint camera_process_commands (n : nat) (buffer : list Z) (sent : list (list Z)) :
    option (list (list Z)) :=
  match n, buffer with
  | _, [] => Some sent
  | O, _ => None
  | S n, _ =>
      match list_find (eq 0) buffer with
      | None => None
      | Some (size, _) =>
          let command := text (take size buffer) in
          camera_process_commands n (drop (size + 1) buffer) (sent ++ camera_handle_command command)
      end
  end.

Definition camera_process_data (data buffer : list Z) : option (list (list Z)) :=
  let buffer := buffer ++ data in camera_process_commands (length buffer) buffer [].

(** ** Clients of the pipe *)

Inductive client_type :=
| opengles | qemud_boot_properties | qemud_hw_control | qemud_sensors | qemud_camera
| qemud_fingerprint | qemud_gsm | qemud_adb | bootanimation | invalid.

Definition client_type_to_string (t : client_type) : string :=
  match t with
  | opengles => "opengles"
  | qemud_boot_properties => "boot-properties"
  | qemud_hw_control => "hw-control"
  | qemud_sensors => "sensors"
  | qemud_camera => "camera"
  | qemud_fingerprint => "fingerprint"
  | qemud_gsm => "gsm"
  | qemud_adb => "adb"
  | bootanimation => "boot-animation"
  | invalid => "unknown"
  end.

(** The bytes up to the terminator; [None]: the connection ends before it, and the
    text is read past the end of the buffer. *)
Fixpoint receive_identifier (received : list Z) : option (list Z) :=
  match received with
  | [] => None
  | b :: received => if b =? 0 then Some [] else cons b <$> receive_identifier received
  end.

Definition client_of (identifier_and_args : string) : client_type :=
  if string_starts_with identifier_and_args "pipe:opengles" then opengles
  else if string_starts_with identifier_and_args "pipe:qemud:boot-properties" then qemud_boot_properties
  else if string_starts_with identifier_and_args "pipe:qemud:hw-control" then qemud_hw_control
  else if string_starts_with identifier_and_args "pipe:qemud:sensors" then qemud_sensors
  else if string_starts_with identifier_and_args "pipe:qemud:camera" then qemud_camera
  else if string_starts_with identifier_and_args "pipe:qemud:fingerprintlisten" then qemud_fingerprint
  else if string_starts_with identifier_and_args "pipe:qemud:gsm" then qemud_gsm
  else if string_starts_with identifier_and_args "pipe:anbox:bootanimation" then bootanimation
  else if string_starts_with identifier_and_args "pipe:qemud:adb" then qemud_adb
  else invalid.

Definition identify_client (received : list Z) : option client_type :=
  (fun l => client_of (text l)) <$> receive_identifier received.

Inductive Processor :=
| OpenGlesMessageProcessor | BootPropertiesMessageProcessor | HwControlMessageProcessor
| SensorsMessageProcessor | CameraMessageProcessor | FingerprintMessageProcessor
| GsmMessageProcessor | AdbMessageProcessor | NullMessageProcessor.

Definition create_processor (t : client_type) : Processor :=
  match t with
  | opengles => OpenGlesMessageProcessor
  | qemud_boot_properties => BootPropertiesMessageProcessor
  | qemud_hw_control => HwControlMessageProcessor
  | qemud_sensors => SensorsMessageProcessor
  | qemud_camera => CameraMessageProcessor
  | qemud_fingerprint => FingerprintMessageProcessor
  | qemud_gsm => GsmMessageProcessor
  | qemud_adb => AdbMessageProcessor
  | _ => NullMessageProcessor
  end.

(** The connections made: id, name and processor. *)
Record PipeConnectionCreator := mkCreator {
  next_connection_id : Z;
  connections : gmap Z (string * Processor)
}.

(** The processor is never null, so nothing is thrown. *)
Definition create_connection_for (received : list Z) (c : PipeConnectionCreator) :
    option PipeConnectionCreator :=
  t ← identify_client received;
  let id := next_connection_id c in
  Some (mkCreator (i32 (id + 1))
    (connections_add id (client_type_to_string t, create_processor t) (connections c))).

(** ** The framing is right for one message *)

Definition header (n : Z) : list Z := send_header n.
Definition qmsg (body : list Z) : list Z := header (zlen body) ++ body.

(** Header and size agree up to 65535 bytes. *)
Lemma header_ok n : 0 <= n < 65536 -> zlen (header n) = header_size /\ scan_hex (header n) = n.
Proof.
  intros Hn. destruct (padded_hex n Hn) as [Hlen Hscan].
  assert (Hh : header n = bytes_of (pad true 4 (to_hex n))).
  { unfold header, send_header.
    change (printf None "%04zx" [Num n]) with (String.append (pad true 4 (to_hex n)) EmptyString).
    rewrite bytes_of_app, app_nil_r. apply ztake_all. unfold header_size. lia. }
  by rewrite Hh.
Qed.

Definition short (body : list Z) : Prop := zlen body < 65536.

Lemma header_short body : short body -> zlen (header (zlen body)) = header_size /\
  scan_hex (header (zlen body)) = zlen body.
Proof. intros H. apply header_ok. pose proof (zlen_nonneg body). unfold short in H. lia. Qed.

Lemma zlen_qmsg body : short body -> zlen (qmsg body) = header_size + zlen body.
Proof. intros H. unfold qmsg. rewrite zlen_app. by rewrite (proj1 (header_short body H)). Qed.

(** ** What the loop serves *)

Definition qstream (bodies : list (list Z)) : list Z := concat (qmsg <$> bodies).

(** [tail] is less than a message. *)
Definition partial (tail : list Z) : Prop :=
  zlen tail < header_size \/ zlen tail < header_size + scan_hex (ztake header_size tail).

(** The messages served and the ones left: after a message the loop ends when as many
    bytes remain as the message had. *)
Fixpoint served (bodies : list (list Z)) (tail : list Z) : list (list Z) * list (list Z) :=
  match bodies with
  | [] => ([], [])
  | b :: bs =>
      if zlen (qstream bs ++ tail) =? zlen (qmsg b) then ([b], bs)
      else let '(h, r) := served bs tail in (b :: h, r)
  end.

Lemma process_one n body rest handled :
  short body -> zlen rest < 2 ^ 62 ->
  process_commands (S n) (qmsg body ++ rest) handled =
    if zlen rest =? zlen (qmsg body) then Some (rest, handled ++ [text body])
    else process_commands n rest (handled ++ [text body]).
Proof.
  intros Hs Hrest. destruct (header_short body Hs) as [Hlen Hscan].
  pose proof (zlen_qmsg body Hs) as Hq. pose proof (zlen_nonneg body). pose proof (zlen_nonneg rest).
  cbn [process_commands]. rewrite zlen_app, Hq.
  assert (Ht : ztake header_size (qmsg body ++ rest) = header (zlen body)).
  { unfold qmsg. rewrite <- app_assoc. by apply ztake_app_eq. }
  assert (Hd : zdrop header_size (qmsg body ++ rest) = body ++ rest).
  { unfold qmsg. rewrite <- app_assoc, <- Hlen. apply zdrop_app_exact. }
  assert (Hr : zdrop (header_size + zlen body) (qmsg body ++ rest) = rest)
    by (rewrite <- Hq; apply zdrop_app_exact).
  rewrite Ht, Hscan, Hd, Hr, ztake_app_exact. clear Ht Hd Hr. unfold short, header_size in *.
  destruct (Z.ltb_spec (4 + zlen body + zlen rest) 4); [lia|].
  destruct (Z.ltb_spec (4 + zlen body + zlen rest) (4 + zlen body)); [lia|].
  pose proof (wrapu_range 64 (zlen rest - (4 + zlen body)) ltac:(lia)) as Hr.
  unfold in_u in Hr.
  destruct (Z.eqb_spec (zlen rest) (4 + zlen body)) as [->|Hne].
  - rewrite Z.sub_diag, wrapu_id by (unfold in_u; lia). done.
  - destruct (Z.leb_spec (u64 (zlen rest - (4 + zlen body))) 0); [|done].
    destruct Hne. apply (wrapu_inj 64); [lia|lia|].
    rewrite <- (Z.sub_add (4 + zlen body) (zlen rest)), <- wrapu_add_l.
    replace (u64 (zlen rest - (4 + zlen body))) with 0 by lia. done.
Qed.

Lemma process_partial n tail handled :
  partial tail -> process_commands (S n) tail handled = Some (tail, handled).
Proof.
  intros Hp. cbn [process_commands]. destruct (Z.ltb_spec (zlen tail) header_size); [done|].
  destruct Hp as [Hp|Hp]; [lia|].
  by destruct (Z.ltb_spec (zlen tail) (header_size + scan_hex (ztake header_size tail))); [|lia].
Qed.

Lemma process_stream bodies : forall n tail handled,
  Forall short bodies -> partial tail -> zlen (qstream bodies ++ tail) < 2 ^ 62 ->
  (length bodies < n)%nat ->
  process_commands n (qstream bodies ++ tail) handled =
    let '(h, r) := served bodies tail in Some (qstream r ++ tail, handled ++ (text <$> h)).
Proof.
  induction bodies as [|b bs IH]; intros n tail handled Hs Ht Hlen Hn; (destruct n as [|n]; [lia|]).
  - cbn [qstream served concat fmap list_fmap app]. rewrite process_partial by done.
    by rewrite app_nil_r.
  - inversion Hs as [|? ? Hb Hbs]; subst. cbn [served].
    change (qstream (b :: bs)) with (qmsg b ++ qstream bs) in *. rewrite <- app_assoc in *.
    rewrite zlen_app in Hlen. pose proof (zlen_nonneg (qmsg b)).
    rewrite process_one by (done || lia).
    case_match; [done|]. cbn in Hn. rewrite IH by (done || lia).
    destruct (served bs tail) as [h r]. by rewrite <- app_assoc.
Qed.

(** C34: the commands that arrive are served in order: exactly the complete ones up to
    the first after which as many bytes remain as it had itself.  There the loop ends
    early and the rest waits for more data: of two commands of one size that arrive
    together the second is not served. *)
Theorem qemud_serves bodies tail :
  Forall short bodies -> partial tail -> zlen (qstream bodies ++ tail) < 2 ^ 62 ->
  let '(h, r) := served bodies tail in
  qemud_process_data (qstream bodies ++ tail) [] = Some (qstream r ++ tail, text <$> h) /\
  h ++ r = bodies /\
  (r = [] \/ exists b, last h = Some b /\ zlen (qstream r ++ tail) = zlen (qmsg b)).
Proof.
  intros Hs Ht Hlen. unfold qemud_process_data. cbn [app].
  rewrite process_stream; [|done..|].
  - destruct (served bodies tail) as [h r] eqn:Hserved. split; [done|].
    clear Hs Hlen. revert h r Hserved. induction bodies as [|b bs IH]; intros h r; cbn [served].
    + intros [= <- <-]. split; [done|by left].
    + destruct (Z.eqb_spec (zlen (qstream bs ++ tail)) (zlen (qmsg b))) as [Heq|].
      * intros [= <- <-]. split; [done|]. right. by exists b.
      * destruct (served bs tail) as [h' r'] eqn:Hs. intros [= <- <-].
        destruct (IH h' r' eq_refl) as [<- Hr]. split; [done|].
        destruct Hr as [?|(c & Hc & ?)]; [by left|]. right. exists c. split; [|done].
        by destruct h'.
  - clear Ht Hlen. induction Hs as [|b bs Hb Hbs IH]; [cbn; lia|].
    change (qstream (b :: bs)) with (qmsg b ++ qstream bs).
    rewrite !length_app in *. pose proof (zlen_qmsg b Hb) as Hq. pose proof (zlen_nonneg b).
    unfold zlen, header_size in *. cbn [length]. lia.
Qed.

Definition toy_bodies : list (list Z) := [bytes_of "list"; bytes_of "list"; bytes_of "listen"].

Lemma qemud_serves_witness :
  qemud_process_data (qstream [bytes_of "list"; bytes_of "list"]) [] =
    Some (qmsg (bytes_of "list"), ["list"%string]) /\
  qemud_process_data (qstream toy_bodies ++ [48; 48]) [] =
    Some ([48; 48], ["list"; "list"; "listen"]%string).
Proof.
  split.
  - pose proof (qemud_serves [bytes_of "list"; bytes_of "list"] []) as H.
    rewrite app_nil_r in H. destruct H as [H _]; [repeat constructor|by left|by vm_compute|exact H].
  - destruct (qemud_serves toy_bodies [48; 48]) as [H _];
      [repeat constructor|by left|by vm_compute|exact H].
Defined.

(** ** The services' answers *)

Lemma retrieve_icon_ok n : forall file,
  zlen file <= Z.of_nat n -> concat (retrieve_icon n file) = ztake (zlen file / 1024 * 1024) file.
Proof.
  induction n as [|n IH]; intros file Hn; cbn [retrieve_icon].
  - by rewrite (zlen_nil_inv file) by lia.
  - pose proof (zlen_nonneg file). destruct (Z.ltb_spec (zlen file) 1024).
    + rewrite Z.div_small by lia. done.
    + cbn [concat]. assert (Hlen : zlen (zdrop 1024 file) = zlen file - 1024) by (apply zlen_zdrop; lia).
      rewrite IH, Hlen by lia.
      pose proof (Z.div_pos (zlen file - 1024) 1024).
      replace (zlen file) with ((zlen file - 1024) + 1 * 1024) at 2 by lia.
      rewrite Z.div_add by lia.
      replace (((zlen file - 1024) / 1024 + 1) * 1024)
        with (1024 + (zlen file - 1024) / 1024 * 1024) by lia.
      symmetry. apply ztake_add; lia.
Qed.

Section answers.
Context `{BoostFormat, !BoostFormatLaws}.

(** The three services that answer do so with one message in the framing their
    clients use and a final zero byte, and answer nothing else; the icon is sent in
    whole blocks of 1024 bytes, its last part never. *)
Lemma qemud_services :
  (forall c, concat (boot_properties_handle_command c) =
     if String.eqb c "list" then qmsg (bytes_of "ro.sf.lcd_density=160") ++ [0] else []) /\
  (forall c, concat (sensors_handle_command c) =
     if String.eqb c "list-sensors" then qmsg (bytes_of "0") ++ [0] else []) /\
  (forall c, concat (fingerprint_handle_command c) =
     if String.eqb c "listen" then qmsg (bytes_of "off") ++ [0] else []) /\
  (forall icon, concat (bootanimation_handle_command icon "retrieve-icon") =
     ztake (zlen icon / 1024 * 1024) icon).
Proof.
  split; [|split; [|split]].
  - intros c. unfold boot_properties_handle_command, list_properties, boot_properties, string_format.
    rewrite boost_format_printf by (do 5 right; left).
    by destruct (String.eqb c "list"); [vm_compute|].
  - intros c. unfold sensors_handle_command. by destruct (String.eqb _ _); [vm_compute|].
  - intros c. unfold fingerprint_handle_command. by destruct (String.eqb _ _); [vm_compute|].
  - intros icon. unfold bootanimation_handle_command. cbn [String.eqb Ascii.eqb Bool.eqb].
    apply retrieve_icon_ok. unfold zlen. lia.
Qed.
End answers.

Lemma qemud_services_witness :
  concat (@boot_properties_handle_command toy_format "list") =
    bytes_of "0015ro.sf.lcd_density=160" ++ [0].
Proof.
  destruct (@qemud_services toy_format toy_format_laws) as [H _].
  rewrite (H "list"%string). by vm_compute.
Defined.

(** ** The camera *)

Definition cstream (commands : list (list Z)) : list Z := concat ((fun c => c ++ [0]) <$> commands).

Lemma list_find_zero c rest :
  Forall (fun b => b <> 0) c -> list_find (eq 0) (c ++ 0 :: rest) = Some (length c, 0).
Proof.
  intros Hc. induction Hc as [|b c Hb Hc IH]; [done|]. cbn. rewrite decide_False by done.
  by rewrite IH.
Qed.

Lemma list_find_no_zero c : Forall (fun b => b <> 0) c -> list_find (eq 0) c = None.
Proof.
  intros Hc. induction Hc as [|b c Hb Hc IH]; [done|]. cbn. rewrite decide_False by done.
  by rewrite IH.
Qed.

Lemma camera_ok commands : forall n rest sent,
  Forall (Forall (fun b => b <> 0)) commands -> Forall (fun b => b <> 0) rest ->
  (length (cstream commands ++ rest) <= n)%nat ->
  camera_process_commands n (cstream commands ++ rest) sent =
    match rest with
    | [] => Some (sent ++ (commands ≫= (fun c => camera_handle_command (text c))))
    | _ => None
    end.
Proof.
  induction commands as [|c cs IH]; intros n rest sent Hcs Hrest Hn.
  - cbn [cstream fmap list_fmap concat app]. destruct rest as [|r rest].
    + rewrite app_nil_r. by destruct n.
    + destruct n as [|n]; [done|]. cbn [camera_process_commands].
      by rewrite list_find_no_zero by done.
  - inversion Hcs as [|? ? Hc Hcs']; subst.
    change (cstream (c :: cs)) with ((c ++ [0]) ++ cstream cs) in *.
    rewrite <- !app_assoc in *. cbn [app] in *.
    rewrite length_app in Hn. cbn [length] in Hn.
    destruct n as [|n]; [lia|].
    assert (Hstep : camera_process_commands (S n) (c ++ 0 :: cstream cs ++ rest) sent =
      camera_process_commands n (cstream cs ++ rest) (sent ++ camera_handle_command (text c))).
    { cbn [camera_process_commands]. rewrite list_find_zero by done.
      rewrite take_app_length, Nat.add_1_r.
      replace (drop (S (length c)) (c ++ 0 :: cstream cs ++ rest)) with (cstream cs ++ rest)
        by (rewrite cons_middle, app_assoc; symmetry; rewrite drop_app_ge;
            rewrite length_app; cbn; [|lia]; by replace (S (length c) - (length c + 1))%nat with 0%nat by lia).
      by destruct c. }
    rewrite Hstep, IH by (done || lia). destruct rest; [|done]. cbn.
    by rewrite <- app_assoc.
Qed.

(** The camera answers the zero-terminated commands of a read one by one; a read
    whose last command is not terminated makes it erase past the end of its buffer. *)
Lemma camera_commands commands rest :
  Forall (Forall (fun b => b <> 0)) commands -> Forall (fun b => b <> 0) rest ->
  camera_process_data (cstream commands ++ rest) [] =
    match rest with
    | [] => Some (commands ≫= (fun c => camera_handle_command (text c)))
    | _ => None
    end.
Proof. intros Hc Hr. unfold camera_process_data. cbn [app]. by rewrite camera_ok. Qed.

Example camera_twice :
  camera_process_data (cstream [bytes_of "list"; bytes_of "list"]) [] =
    Some [bytes_of newline; bytes_of newline] /\
  camera_process_data (bytes_of "list") [] = None.
Proof.
  split.
  - pose proof (camera_commands [bytes_of "list"; bytes_of "list"] []) as H.
    rewrite app_nil_r in H. apply H; repeat (constructor || done).
  - pose proof (camera_commands [] (bytes_of "list")) as H.
    apply H; repeat (constructor || done).
Qed.

(** ** Clients *)

Definition service_name (t : client_type) : string :=
  match t with
  | opengles => "pipe:opengles"
  | qemud_boot_properties => "pipe:qemud:boot-properties"
  | qemud_hw_control => "pipe:qemud:hw-control"
  | qemud_sensors => "pipe:qemud:sensors"
  | qemud_camera => "pipe:qemud:camera"
  | qemud_fingerprint => "pipe:qemud:fingerprintlisten"
  | qemud_gsm => "pipe:qemud:gsm"
  | qemud_adb => "pipe:qemud:adb"
  | bootanimation => "pipe:anbox:bootanimation"
  | invalid => EmptyString
  end.

Lemma client_of_service t args : client_of (String.append (service_name t) args) = t \/ t = invalid.
Proof. destruct t; [left..|by right]; destruct args; vm_compute; reflexivity. Qed.

Lemma text_app l1 l2 : text (l1 ++ l2) = String.append (text l1) (text l2).
Proof.
  induction l1 as [|b l1 IH]; [done|]. cbn [app text].
  change (String.append (String (char_of b) (text l1)) (text l2)) with
    (String (char_of b) (String.append (text l1) (text l2))). by rewrite IH.
Qed.

Lemma receive_identifier_ok l later :
  Forall (fun b => b <> 0) l -> receive_identifier (l ++ 0 :: later) = Some l.
Proof.
  intros Hl. induction Hl as [|b l Hb Hl IH]; [done|]. cbn.
  rewrite (proj2 (Z.eqb_neq b 0)) by done. by rewrite IH.
Qed.

(** a client that names a service, with any arguments, gets a connection under the
    next id with that service's name and processor, unless the ids have come round to a
    connection that is still open; the boot animation's processor is
    the null one, and a client that names none of them is given that one, too, instead
    of being refused. *)
Theorem pipe_clients t args later c :
  t <> invalid -> Forall (fun b => b <> 0) args ->
  exists c', create_connection_for (bytes_of (service_name t) ++ args ++ 0 :: later) c = Some c' /\
    next_connection_id c' = i32 (next_connection_id c + 1) /\
    connections c' = connections_add (next_connection_id c)
      (client_type_to_string t, create_processor t) (connections c) /\
    (connections c !! next_connection_id c = None ->
      connections c' !! next_connection_id c =
        Some (client_type_to_string t, create_processor t)) /\
    (create_processor t = NullMessageProcessor <-> t = bootanimation) /\
    create_processor invalid = NullMessageProcessor.
Proof.
  intros Ht Hargs. unfold create_connection_for, identify_client.
  rewrite app_assoc, receive_identifier_ok.
  - cbn [fmap option_fmap option_map]. rewrite text_app, text_bytes_of.
    destruct (client_of_service t (text args)) as [->|]; [|done].
    eexists. split; [reflexivity|]. split; [done|]. split; [done|]. split.
    { intros Hn. cbn [connections]. by rewrite connections_add_fresh, lookup_insert_eq. }
    split; [|done]. split; [by destruct t|by intros ->].
  - apply Forall_app. split; [|done]. apply (bool_decide_unpack _). by destruct t; vm_compute.
Qed.

Lemma pipe_clients_witness :
  exists c', create_connection_for (bytes_of (service_name qemud_gsm) ++ [65] ++ [0; 7]) (mkCreator 4 ∅)
      = Some c' /\ connections c' !! 4 = Some ("gsm"%string, GsmMessageProcessor).
Proof.
  destruct (pipe_clients qemud_gsm [65] [7] (mkCreator 4 ∅)) as (c' & Hc & _ & _ & Hconn & _);
    [done|repeat constructor; done|].
  exists c'. split; [exact Hc|]. by apply Hconn.
Defined.
