(* ===== verification/Adb.v ===== *)
(** * The adb proxy

    [src/src/anbox/qemu/adb_message_processor.{h,cpp}]: one processor per connection
    of the guest's adb daemon.  A processor waits for [accept], takes the lock all of
    them share, listens for the host's adb, tells the guest [ok], waits for [start]
    and passes data both ways.  [Adb] is one processor's state; [adb_event] has
    all of them with the lock and the events that reach them.  The theorem: however
    the events interleave, one processor at most listens on the host's port and it
    is the one that holds the lock. *)

From Stdlib Require Import Ascii.
From S2P Require Import Prelude Utils.

Inductive State :=
| waiting_for_guest_accept_command
| waiting_for_host_connection
| waiting_for_guest_start_command
| proxying_data
| closed_by_container
| closed_by_host.

#[export] Instance State_eq_dec : EqDecision State.
Proof. solve_decision. Defined.

Definition default_adb_client_port : Z := 5037.
Definition default_host_listen_port : Z := 5559.
Definition accept_command : list Z := bytes_of "accept".
Definition ok_command : list Z := bytes_of "ok".
Definition start_command : list Z := bytes_of "start".

(** [lock_]: [unique_lock]'s state; [Wanting] is a thread asleep in [lock]. *)
Inductive LockState := Unlocked | Wanting | Owning.

Record Adb := mkAdb {
  state_ : State;
  expected_command_ : list Z;
  buffer_ : list Z;
  host_connector_ : bool;
  host_messenger_ : bool;
  lock_ : LockState
}.

Definition adb_new : Adb :=
  mkAdb waiting_for_guest_accept_command accept_command [] false false Unlocked.

(** What it does to the outside: sends to the guest and the host's data connection,
    closing the guest's connection, and a message to the host's adb server. *)
Inductive Effect :=
| ToGuest (l : list Z)
| ToHost (l : list Z)
| CloseGuest
| Announce (l : list Z).

Definition with_state (st : State) (expected : list Z) (a : Adb) : Adb :=
  mkAdb st expected (buffer_ a) (host_connector_ a) (host_messenger_ a) (lock_ a).
Definition with_connector (c : bool) (a : Adb) : Adb :=
  mkAdb (state_ a) (expected_command_ a) (buffer_ a) c (host_messenger_ a) (lock_ a).
Definition with_lock (l : LockState) (a : Adb) : Adb :=
  mkAdb (state_ a) (expected_command_ a) (buffer_ a) (host_connector_ a) (host_messenger_ a) l.
Definition with_buffer (expected buffer : list Z) (a : Adb) : Adb :=
  mkAdb (state_ a) expected buffer (host_connector_ a) (host_messenger_ a) (lock_ a).

Abbreviation Adbs := (gmap Z Adb).

Section adb.
Context `{BoostFormat}.

(** Connecting to the server fails silently when [server_up] is false. *)
Definition wait_for_host_connection (server_up : bool) (a : Adb) : list Effect * Adb :=
  if negb (bool_decide (state_ a = waiting_for_guest_accept_command)) then ([], a)
  else
    let a := with_connector true a in
    let message := string_format "host:emulator:%d" [Num default_host_listen_port] in
    let handshake := string_format "%04x%s" [Num (zlen (bytes_of message)); Str message] in
    (if server_up then [Announce (bytes_of handshake)] else [], a).

(** What follows [lock_.lock()]. *)
Definition lock_acquired (server_up : bool) (a : Adb) : list Effect * Adb :=
  let a := with_lock Owning a in
  if bool_decide (state_ a = closed_by_host) then ([], with_connector false a)
  else wait_for_host_connection server_up a.

(** [free]: nobody holds the lock.  Without it the thread goes to sleep. *)
Definition advance_state (free server_up : bool) (a : Adb) : list Effect * Adb :=
  match state_ a with
  | waiting_for_guest_accept_command =>
      if free then lock_acquired server_up a else ([], with_lock Wanting a)
  | waiting_for_host_connection =>
      ([ToGuest ok_command], with_state waiting_for_guest_start_command start_command a)
  | waiting_for_guest_start_command => ([], with_state proxying_data (expected_command_ a) a)
  | proxying_data => ([], a)
  | closed_by_host => ([CloseGuest], a)
  | closed_by_container => ([], a)
  end.

Definition on_host_connection (a : Adb) : list Effect * Adb :=
  ([ToGuest ok_command],
   mkAdb waiting_for_guest_start_command start_command (buffer_ a) (host_connector_ a) true (lock_ a)).

(** [canceled]: the object may be gone already, and is not touched. *)
Definition on_host_error (canceled : bool) (a : Adb) : list Effect * Adb :=
  if canceled then ([], a) else ([CloseGuest], with_state closed_by_host (expected_command_ a) a).

Definition on_host_data (l : list Z) (a : Adb) : list Effect * Adb := ([ToGuest l], a).

Inductive Verdict :=
| Fine (* process_data returns true *)
| Refused (* it returns false *)
| BadRead (* the command is compared past its end *)
| NullMessenger.

(** [memcmp(buffer, expected, n) != 0]; [expected] is followed by a zero, and what
    comes after that is [None]. *)
Fixpoint differs (n : nat) (buffer expected : list Z) : option bool :=
  match n, buffer, expected with
  | O, _, _ => Some false
  | S n, b :: buffer, e :: expected => if b =? e then differs n buffer expected else Some true
  | S n, _, _ => None
  end.

Definition adb_process_data (free server_up : bool) (data : list Z) (a : Adb) :
    Verdict * list Effect * Adb :=
  if bool_decide (state_ a = proxying_data) then
    if host_messenger_ a then (Fine, [ToHost data], a) else (NullMessenger, [], a)
  else
    let buffer := buffer_ a ++ data in
    let expected := expected_command_ a in
    let a := with_buffer expected buffer a in
    if (0 <? zlen expected) && (zlen expected <=? zlen buffer) then
      match differs (length data) buffer (expected ++ [0]) with
      | None => (BadRead, [], a)
      | Some true => (Refused, [], a)
      | Some false =>
          let a := with_buffer [] (zdrop (zlen expected) buffer) a in
          let '(es, a) := advance_state free server_up a in (Fine, es, a)
      end
    else (Fine, [], a).

(** ** All processors *)

Definition owns (a : Adb) : bool := match lock_ a with Owning => true | _ => false end.

(** [active_instance_] is free. *)
Definition lock_free (s : Adbs) : bool := bool_decide (map_Forall (fun _ a => owns a = false) s).

Inductive Event :=
| Connected (id : Z)
| Data (id : Z) (data : list Z) (server_up : bool)
| Acquired (id : Z) (server_up : bool)
| HostConnected (id : Z)
| HostData (id : Z) (data : list Z)
| HostError (id : Z) (canceled : bool)
| Destroyed (id : Z).

(** An event that can happen, and what it leads to. *)
Definition adb_event (e : Event) (s : Adbs) : option (list Effect * Adbs) :=
  match e with
  | Connected id =>
      match s !! id with Some _ => None | None => Some ([], <[id := adb_new]> s) end
  | Data id data up =>
      a ← s !! id;
      match lock_ a with
      | Wanting => None
      | _ => let '(_, es, a) := adb_process_data (lock_free s) up data a in Some (es, <[id := a]> s)
      end
  | Acquired id up =>
      a ← s !! id;
      match lock_ a with
      | Wanting =>
          if lock_free s then let '(es, a) := lock_acquired up a in Some (es, <[id := a]> s)
          else None
      | _ => None
      end
  | HostConnected id =>
      a ← s !! id;
      if host_connector_ a then let '(es, a) := on_host_connection a in Some (es, <[id := a]> s)
      else None
  | HostData id data =>
      a ← s !! id;
      if bool_decide (state_ a = proxying_data) then
        let '(es, a) := on_host_data data a in Some (es, <[id := a]> s)
      else None
  | HostError id canceled =>
      a ← s !! id;
      if bool_decide (state_ a = proxying_data) then
        let '(es, a) := on_host_error canceled a in Some (es, <[id := a]> s)
      else None
  | Destroyed id =>
      a ← s !! id;
      match lock_ a with Wanting => None | _ => Some ([], delete id s) end
  end.

Definition adb_step (s s' : Adbs) : Prop := exists e es, adb_event e s = Some (es, s').
(** ** One processor *)

Record adb_ok (a : Adb) : Prop := {
  ok_connector : host_connector_ a = true -> lock_ a = Owning;
  ok_messenger : host_messenger_ a = true -> lock_ a = Owning;
  ok_connected : state_ a = waiting_for_guest_start_command \/ state_ a = proxying_data ->
    host_messenger_ a = true;
  ok_accepted : state_ a = waiting_for_guest_accept_command -> lock_ a <> Unlocked ->
    expected_command_ a = [];
  ok_wanting : lock_ a = Wanting -> state_ a = waiting_for_guest_accept_command;
  ok_states : state_ a <> waiting_for_host_connection /\ state_ a <> closed_by_container
}.

Lemma adb_new_ok : adb_ok adb_new.
Proof. by split; cbn; try done; intros []. Qed.

(** A change of the processor that may take the lock only when it is free. *)
Definition adb_kept (free : bool) (a a' : Adb) : Prop :=
  adb_ok a' /\ (owns a' = true -> owns a = true \/ free = true).

Lemma lock_acquired_ok up a :
  adb_ok a -> state_ a = waiting_for_guest_accept_command -> expected_command_ a = [] ->
  adb_ok (lock_acquired up a).2.
Proof.
  intros [] Hs He. unfold lock_acquired, wait_for_host_connection. cbn. rewrite Hs.
  cbn. split; cbn; rewrite ?Hs; try done.
Qed.

Lemma adb_process_data_ok free up data a :
  adb_ok a -> lock_ a <> Wanting ->
  let '(v, _, a') := adb_process_data free up data a in
  v <> NullMessenger /\ adb_kept free a a'.
Proof.
  intros Ha Hw. unfold adb_process_data.
  destruct (bool_decide_reflect (state_ a = proxying_data)) as [Hp|Hp].
  { rewrite (ok_connected a Ha (or_intror Hp)). split; [done|]. split; [done|by left]. }
  set (buf := buffer_ a ++ data).
  assert (Hb : forall e, adb_ok a -> (e = expected_command_ a \/ e = []) -> forall l,
    adb_kept free a (with_buffer e l a)).
  { intros e [] He l. split; [split; cbn; try done|by left].
    intros Hs Hl. destruct He as [->| ->]; auto. }
  destruct ((0 <? _) && _) eqn:Hlen; [|split; [done|apply Hb; [done|by left]]].
  destruct (differs _ _ _) as [[]|];
    [split; [done|apply Hb; [done|by left]]| |split; [done|apply Hb; [done|by left]]].
  set (a1 := with_buffer [] _ _).
  assert (Hk : adb_kept free a a1) by (apply (Hb []); [done|by right]).
  destruct Hk as [Ha1 Hown1].
  destruct (state_ a) eqn:Hs; unfold advance_state; cbn [state_ a1 with_buffer]; rewrite Hs.
  - assert (Hu : lock_ a = Unlocked).
    { destruct (lock_ a) eqn:Hl; [done|done|].
      assert (He : expected_command_ a = []) by (apply (ok_accepted a Ha Hs); congruence).
      rewrite He in Hlen. done. }
    destruct free.
    + pose proof (lock_acquired_ok up a1 Ha1 Hs eq_refl) as Hok.
      destruct (lock_acquired up a1) as [es a2]. split; [done|]. split; [done|by right].
    + split; [done|]. split; [|cbn; done]. destruct Ha1 as []. split; cbn; try done.
      * intros Hc. specialize (ok_connector0 Hc). cbn in ok_connector0. congruence.
      * intros Hc. specialize (ok_messenger0 Hc). cbn in ok_messenger0. congruence.
  - by destruct (ok_states a Ha).
  - split; [done|]. destruct Ha1 as []. split; [|by left]. split; cbn in *; try done.
    intros _. apply ok_connected0. by left.
  - done.
  - by destruct (ok_states a Ha).
  - split; [done|]. split; [done|exact Hown1].
Qed.

Lemma on_host_connection_ok a :
  adb_ok a -> host_connector_ a = true -> adb_kept false a (on_host_connection a).2.
Proof.
  intros [] Hc. specialize (ok_connector0 Hc). split; [|by left].
  split; cbn; try done. intros Hl. congruence.
Qed.

Lemma on_host_error_ok canceled a :
  adb_ok a -> state_ a = proxying_data -> adb_kept false a (on_host_error canceled a).2.
Proof.
  intros Ha Hs. unfold on_host_error. destruct canceled; [split; [done|by left]|].
  destruct Ha as []. split; [|by left]. split; cbn; try done.
  - by intros [].
  - intros Hl. specialize (ok_wanting0 Hl). congruence.
Qed.

(** ** All of them *)

Definition adbs_inv (s : Adbs) : Prop :=
  map_Forall (fun _ a => adb_ok a) s /\
  forall i j a b, s !! i = Some a -> s !! j = Some b -> owns a = true -> owns b = true -> i = j.

Lemma adbs_insert i a s :
  adbs_inv s -> adb_ok a ->
  (owns a = true -> (exists a0, s !! i = Some a0 /\ owns a0 = true) \/ lock_free s = true) ->
  adbs_inv (<[i := a]> s).
Proof.
  intros [Hall Huniq] Ha Hown. split; [by apply map_Forall_insert_2|].
  assert (Hother : forall j b, i <> j -> s !! j = Some b -> owns a = true -> owns b = true -> i = j).
  { intros j b _ Hj Hoa Hob. destruct (Hown Hoa) as [(a0 & Hi & Ho)|Hfree]; [by eapply Huniq|].
    unfold lock_free in Hfree. apply bool_decide_eq_true in Hfree.
    specialize (Hfree j b Hj). cbn in Hfree. congruence. }
  intros j k b c Hj Hk Hb Hc.
  apply lookup_insert_Some in Hj as [[<- <-]|[Hij Hj]], Hk as [[<- <-]|[Hik Hk]].
  - done.
  - by eapply Hother.
  - symmetry. by eapply Hother.
  - by eapply Huniq.
Qed.

Lemma adbs_update i a0 a s :
  adbs_inv s -> s !! i = Some a0 -> adb_kept (lock_free s) a0 a -> adbs_inv (<[i := a]> s).
Proof.
  intros Hs Hi [Ha Hown]. apply adbs_insert; [done|done|].
  intros Ho. destruct (Hown Ho); [left; by exists a0|by right].
Qed.

Lemma adb_kept_weaken free a a' : adb_kept false a a' -> adb_kept free a a'.
Proof. intros [? Hk]. split; [done|]. intros Ho. destruct (Hk Ho); [by left|done]. Qed.

Lemma adb_event_inv e s es s' : adbs_inv s -> adb_event e s = Some (es, s') -> adbs_inv s'.
Proof.
  intros Hs. pose proof Hs as [Hall Huniq].
  destruct e as [id|id data up|id up|id|id data|id canceled|id]; cbn [adb_event];
    destruct (s !! id) as [a|] eqn:Hid; try done; cbn [mbind option_bind];
    try (assert (Ha : adb_ok a) by (by apply (Hall id))).
  - intros [= <- <-]. apply adbs_insert; [done|apply adb_new_ok|done].
  - destruct (lock_ a) eqn:Hl; try done;
      pose proof (adb_process_data_ok (lock_free s) up data a Ha) as Hp;
      destruct (adb_process_data _ up data a) as [[v es'] a'];
      (destruct Hp as [_ Hk]; [congruence|]); intros [= <- <-]; by eapply adbs_update.
  - destruct (lock_ a) eqn:Hl; try done. destruct (lock_free s) eqn:Hfree; [|done].
    pose proof (ok_wanting a Ha Hl) as Hst.
    pose proof (lock_acquired_ok up a Ha Hst ltac:(apply (ok_accepted a Ha Hst); congruence)) as Hok.
    destruct (lock_acquired up a) as [es' a']. intros [= <- <-].
    apply adbs_insert; [done|done|by right].
  - destruct (host_connector_ a) eqn:Hc; [|done]. intros [= <- <-].
    eapply adbs_update; [done|done|]. by apply adb_kept_weaken, on_host_connection_ok.
  - case_bool_decide; [|done]. intros [= <- <-].
    eapply adbs_update; [done|done|]. split; [done|by left].
  - case_bool_decide as Hst; [|done].
    pose proof (on_host_error_ok canceled a Ha Hst) as Hk.
    destruct (on_host_error canceled a) as [es' a']. intros [= <- <-].
    eapply adbs_update; [done|done|]. by apply adb_kept_weaken.
  - destruct (lock_ a) eqn:Hl; try done; intros [= <- <-];
      (split; [by apply map_Forall_delete|]);
      intros i j b c [_ Hi]%lookup_delete_Some [_ Hj]%lookup_delete_Some; by apply Huniq.
Qed.

(** C23: whatever events happen in whatever order: two processors never hold the lock
    at once, only the holder listens on the host's port or is connected to it, and one
    that waits for [start] or passes data has its connection; when the holder is
    destroyed the lock is free and any processor asleep on it can go on. *)
Theorem adb_exclusive s :
  rtc adb_step ∅ s ->
  (forall i j a b, s !! i = Some a -> s !! j = Some b -> lock_ a = Owning -> lock_ b = Owning -> i = j) /\
  (forall i a, s !! i = Some a -> host_connector_ a || host_messenger_ a = true -> lock_ a = Owning) /\
  (forall i a, s !! i = Some a ->
     state_ a = waiting_for_guest_start_command \/ state_ a = proxying_data ->
     host_messenger_ a = true) /\
  (forall i j a b up, s !! i = Some a -> lock_ a = Owning -> i <> j ->
     s !! j = Some b -> lock_ b = Wanting ->
     adb_event (Destroyed i) s = Some ([], delete i s) /\
     is_Some (adb_event (Acquired j up) (delete i s))).
Proof.
  intros Hreach. assert (Hinv : adbs_inv s).
  { apply (rtc_invariant adb_step adbs_inv ∅ s); [|done|].
    - intros x y (e & es & He) Hx. by eapply adb_event_inv.
    - split; [apply map_Forall_empty|]. by intros i j a b ?%lookup_empty_Some. }
  destruct Hinv as [Hall Huniq].
  assert (Hown : forall a, lock_ a = Owning -> owns a = true) by (intros a Ha; unfold owns; by rewrite Ha).
  split; [eauto|]. split; [|split].
  - intros i a Hi. destruct (Hall i a Hi). destruct (host_connector_ a); cbn; auto.
  - intros i a Hi. by destruct (Hall i a Hi).
  - intros i j a b up Hi Ha Hij Hj Hb. split.
    { cbn [adb_event]. rewrite Hi. cbn. by rewrite Ha. }
    cbn [adb_event]. rewrite lookup_delete_ne, Hj by done. cbn [mbind option_bind]. rewrite Hb.
    assert (Hfree : lock_free (delete i s) = true).
    { apply bool_decide_eq_true. intros k c [Hk Hc]%lookup_delete_Some.
      destruct (owns c) eqn:Ho; [|done]. destruct Hk. by eapply Huniq; [..|exact Ho]; eauto. }
    rewrite Hfree. destruct (lock_acquired up b). by eexists.
Qed.
End adb.

(** ** At concrete inputs *)

Fixpoint adb_run (es : list Event) (s : Adbs) : option Adbs :=
  match es with
  | [] => Some s
  | e :: es => r ← @adb_event toy_format e s; adb_run es r.2
  end.

Lemma adb_run_steps es : forall s s', adb_run es s = Some s' -> rtc (@adb_step toy_format) s s'.
Proof.
  induction es as [|e es IH]; intros s s'; cbn [adb_run]; [intros [= ->]; apply rtc_refl|].
  destruct (@adb_event toy_format e s) as [[out s1]|] eqn:He; [|done]. cbn. intros Hrun.
  eapply rtc_l; [by exists e, out|]. by apply IH.
Qed.

(** One proxies, a second sleeps on the lock. *)
Definition toy_adb_events' : list Event :=
  [Connected 1; Connected 2; Data 1 accept_command true; Data 2 accept_command true;
   HostConnected 1; Data 1 start_command true; HostData 1 [1; 2]; HostError 1 false].

Lemma adb_exclusive_witness :
  let s := default ∅ (adb_run toy_adb_events' ∅) in
  (lock_ <$> s !! 1) = Some Owning /\ (lock_ <$> s !! 2) = Some Wanting /\
  is_Some (@adb_event toy_format (Acquired 2 true) (delete 1 s)).
Proof.
  set (s := default ∅ (adb_run toy_adb_events' ∅)).
  assert (H1 : (lock_ <$> s !! 1) = Some Owning) by by vm_compute.
  assert (H2 : (lock_ <$> s !! 2) = Some Wanting) by by vm_compute.
  split; [exact H1|]. split; [exact H2|].
  assert (Hreach : rtc (@adb_step toy_format) ∅ s) by (apply (adb_run_steps toy_adb_events'); by vm_compute).
  destruct (s !! 1) as [a|] eqn:Ha; [|done]. destruct (s !! 2) as [b|] eqn:Hb; [|done].
  cbn in H1, H2. injection H1 as H1. injection H2 as H2.
  destruct (@adb_exclusive toy_format s Hreach) as (_ & _ & _ & Hfree).
  by destruct (Hfree 1 2 a b true Ha H1 ltac:(done) Hb H2).
Defined.

(** The comparison takes the length of the last read, not of the command: after four
    other bytes the last byte of a wrong command decides. *)
Example wrong_command_accepted :
  let '(v, _, a) := @adb_process_data toy_format true true (bytes_of "a")
    (adb_process_data (H := toy_format) true true (bytes_of "aXYZW") adb_new).2 in
  v = Fine /\ lock_ a = Owning.
Proof. by vm_compute. Qed.

(** A read that goes on after the command is refused, or compared past the end of
    the command. *)
Example longer_read :
  (@adb_process_data toy_format true true (accept_command ++ bytes_of "X") adb_new).1.1 = Refused /\
  (@adb_process_data toy_format true true (accept_command ++ [0; 1]) adb_new).1.1 = BadRead.
Proof. by vm_compute. Qed.

(** A second connection from the host while data is passed starts over. *)
Example second_host_connection :
  (state_ <$> default ∅ (adb_run [Connected 1; Data 1 accept_command true; HostConnected 1;
     Data 1 start_command true; HostConnected 1] ∅) !! 1) = Some waiting_for_guest_start_command.
Proof. by vm_compute. Qed.
