(* ===== verification/Input.v ===== *)
(** * Input devices

    [Device] (src/src/anbox/input/device.{h,cpp}) describes one input device to the
    clients that connect to its socket and sends them its events.  The description is
    the memory of a C struct; a write outside one of its arrays is [None].  The host is
    little-endian. *)

From S2P Require Import Prelude Utils Network.

(** ** The description of a device *)

(** [struct input_id] of linux/input.h. *)
Record input_id := mkInputId { bustype : Z; vendor : Z; product : Z; version : Z }.

(** The bit masks of a device. *)
Inductive Mask := Key | Abs | Rel | Sw | Led | Ff | Prop_.

Global Instance mask_eq_dec : EqDecision Mask.
Proof. solve_decision. Defined.

(** The largest codes, of linux/input-event-codes.h. *)
Definition mask_max (k : Mask) : Z :=
  match k with
  | Key => 767 | Abs => 63 | Rel => 15 | Sw => 15 | Led => 15 | Ff => 127 | Prop_ => 31
  end.

Definition mask_bytes (k : Mask) : Z := (mask_max k + 1) / 8.
Definition ABS_CNT : Z := 64.

Record Info := mkInfo {
  name : list Z;
  driver_version : Z;
  id : input_id;
  physical_location : list Z;
  unique_id : list Z;
  bitmask : Mask -> list Z;
  abs_max : list Z;
  abs_min : list Z
}.

Definition zeros (n : Z) : list Z := replicate (Z.to_nat n) 0.

(** [memset] in the constructor. *)
Definition info_new : Info :=
  mkInfo (zeros 80) 0 (mkInputId 0 0 0 0) (zeros 80) (zeros 80)
    (fun k => zeros (mask_bytes k)) (zeros ABS_CNT) (zeros ABS_CNT).

(** What [c_str] shows. *)
Fixpoint c_str (s : list Z) : list Z :=
  match s with [] => [] | b :: s => if b =? 0 then [] else b :: c_str s end.

(** [snprintf(old, n, "%s", s)]: what is longer is cut, what is behind stays. *)
Definition snprintf_s (n : Z) (s old : list Z) : list Z :=
  let t := ztake (n - 1) (c_str s) in t ++ [0] ++ zdrop (zlen t + 1) old.

Definition set_name (s : list Z) (i : Info) : Info :=
  mkInfo (snprintf_s 80 s (name i)) (driver_version i) (id i) (physical_location i)
    (unique_id i) (bitmask i) (abs_max i) (abs_min i).

Definition set_driver_version (v : Z) (i : Info) : Info :=
  mkInfo (name i) v (id i) (physical_location i) (unique_id i) (bitmask i) (abs_max i) (abs_min i).

Definition set_input_id (d : input_id) (i : Info) : Info :=
  mkInfo (name i) (driver_version i) (mkInputId (bustype d) (vendor d) (product d) (version d))
    (physical_location i) (unique_id i) (bitmask i) (abs_max i) (abs_min i).

Definition set_physical_location (s : list Z) (i : Info) : Info :=
  mkInfo (name i) (driver_version i) (id i) (snprintf_s 80 s (physical_location i))
    (unique_id i) (bitmask i) (abs_max i) (abs_min i).

Definition set_unique_id (s : list Z) (i : Info) : Info :=
  mkInfo (name i) (driver_version i) (id i) (physical_location i)
    (snprintf_s 80 s (unique_id i)) (bitmask i) (abs_max i) (abs_min i).

Definition set_bit (array : list Z) (bit : Z) : option (list Z) :=
  old ← zlookup array (bit / 8);
  Some (zinsert (bit / 8) (u8 (Z.lor old (Z.shiftl 1 (bit mod 8)))) array).

Definition with_mask (k : Mask) (l : list Z) (i : Info) : Info :=
  mkInfo (name i) (driver_version i) (id i) (physical_location i) (unique_id i)
    (fun k' => if decide (k' = k) then l else bitmask i k') (abs_max i) (abs_min i).

Definition set_mask_bit (k : Mask) (bit : Z) (i : Info) : option Info :=
  l ← set_bit (bitmask i k) bit; Some (with_mask k l i).

Definition set_key_bit (bit : Z) : Info -> option Info := set_mask_bit Key bit.
Definition set_abs_bit (bit : Z) : Info -> option Info := set_mask_bit Abs bit.
Definition set_rel_bit (bit : Z) : Info -> option Info := set_mask_bit Rel bit.
Definition set_sw_bit (bit : Z) : Info -> option Info := set_mask_bit Sw bit.
Definition set_led_bit (bit : Z) : Info -> option Info := set_mask_bit Led bit.
Definition set_ff_bit (bit : Z) : Info -> option Info := set_mask_bit Ff bit.
Definition set_prop_bit (bit : Z) : Info -> option Info := set_mask_bit Prop_ bit.

Definition set_abs_min (bit value : Z) (i : Info) : option Info :=
  if bit <? ABS_CNT then
    Some (mkInfo (name i) (driver_version i) (id i) (physical_location i) (unique_id i)
      (bitmask i) (abs_max i) (zinsert bit value (abs_min i)))
  else None.

Definition set_abs_max (bit value : Z) (i : Info) : option Info :=
  if bit <? ABS_CNT then
    Some (mkInfo (name i) (driver_version i) (id i) (physical_location i) (unique_id i)
      (bitmask i) (zinsert bit value (abs_max i)) (abs_min i))
  else None.

(** The struct in memory, [sizeof(info_)] bytes: two bytes fill the gap before the
    32-bit arrays. *)
Definition id_bytes (d : input_id) : list Z :=
  little_endian 2 (bustype d) ++ little_endian 2 (vendor d) ++
  little_endian 2 (product d) ++ little_endian 2 (version d).

Definition info_bytes (i : Info) : list Z :=
  name i ++ little_endian 4 (u32 (driver_version i)) ++ id_bytes (id i) ++
  physical_location i ++ unique_id i ++
  concat (bitmask i <$> [Key; Abs; Rel; Sw; Led; Ff; Prop_]) ++ [0; 0] ++
  concat (little_endian 4 <$> abs_max i) ++ concat (little_endian 4 <$> abs_min i).

(** ** Events *)

(** [type] and [code] have 16 bits, [value] 32 and a sign. *)
Record Event := mkEvent { type : Z; code : Z; value : Z }.

(** [CompatEvent]: 24 bytes. *)
Definition event_bytes (sec usec : Z) (e : Event) : list Z :=
  little_endian 8 (u64 sec) ++ little_endian 8 (u64 usec) ++
  little_endian 2 (type e) ++ little_endian 2 (code e) ++ little_endian 4 (u32 (value e)).

(** ** The device and its clients *)

(** A client: what it was sent; sending to one that is gone throws. *)
Record Client := mkClient { received : list Z; alive : bool }.

Record Device := mkDevice {
  info_ : Info;
  next_connection_id_ : Z;
  connections_ : Connections Client
}.

Definition device_new : Device := mkDevice info_new 0 ∅.

Definition deliver (data : list Z) (c : Client) : Client := mkClient (received c ++ data) true.

(** The loop over [connections_->at(n)] from [n] on; [true]: it was left by an exception. *)
Fixpoint send_from (n : Z) (count : nat) (data : list Z) (m : Connections Client) :
    Connections Client * bool :=
  match count with
  | O => (m, false)
  | S count =>
      match connections_at n m with
      | None => (m, true)
      | Some c =>
          if alive c then send_from (n + 1) count data (<[n := deliver data c]> m)
          else (m, true)
      end
  end.

(** [sec] and [nsec]: the monotonic clock. *)
Definition send_events (sec nsec : Z) (events : list Event) (d : Device) : Device * bool :=
  let data := concat (event_bytes sec (nsec / 1000) <$> events) in
  let '(m, threw) := send_from 0 (size (connections_ d)) data (connections_ d) in
  (mkDevice (info_ d) (next_connection_id_ d) m, threw).

Definition next_id (d : Device) : Z * Device :=
  (next_connection_id_ d,
   mkDevice (info_ d) (i32 (next_connection_id_ d + 1)) (connections_ d)).

(** The info goes to the new connection, whether or not the table took it. *)
Definition new_client (d : Device) : Device :=
  let '(n, d) := next_id d in
  mkDevice (info_ d) (next_connection_id_ d)
    (connections_add n (mkClient (info_bytes (info_ d)) true) (connections_ d)).

(** ** The description keeps its type *)

Definition bytes (n : Z) (l : list Z) : Prop := zlen l = n /\ Forall (in_u 8) l.

Record info_typed (i : Info) : Prop := {
  typed_name : bytes 80 (name i);
  typed_version : in_s 32 (driver_version i);
  typed_id : in_u 16 (bustype (id i)) /\ in_u 16 (vendor (id i)) /\
    in_u 16 (product (id i)) /\ in_u 16 (Input.version (id i));
  typed_location : bytes 80 (physical_location i);
  typed_unique : bytes 80 (unique_id i);
  typed_mask : forall k, bytes (mask_bytes k) (bitmask i k);
  typed_max : zlen (abs_max i) = ABS_CNT /\ Forall (in_u 32) (abs_max i);
  typed_min : zlen (abs_min i) = ABS_CNT /\ Forall (in_u 32) (abs_min i)
}.

(** A call of one of the setters. *)
Inductive Setting :=
  | SetName (s : list Z)
  | SetDriverVersion (v : Z)
  | SetInputId (d : input_id)
  | SetPhysicalLocation (s : list Z)
  | SetUniqueId (s : list Z)
  | SetBit (k : Mask) (bit : Z)
  | SetAbsMin (bit v : Z)
  | SetAbsMax (bit v : Z).

Global Instance input_id_eq_dec : EqDecision input_id.
Proof. solve_decision. Defined.
Global Instance setting_eq_dec : EqDecision Setting.
Proof. solve_decision. Defined.

Definition apply_setting (s : Setting) (i : Info) : option Info :=
  match s with
  | SetName s => Some (set_name s i)
  | SetDriverVersion v => Some (set_driver_version v i)
  | SetInputId d => Some (set_input_id d i)
  | SetPhysicalLocation s => Some (set_physical_location s i)
  | SetUniqueId s => Some (set_unique_id s i)
  | SetBit k bit => set_mask_bit k bit i
  | SetAbsMin bit v => set_abs_min bit v i
  | SetAbsMax bit v => set_abs_max bit v i
  end.

Fixpoint apply_settings (ss : list Setting) (i : Info) : option Info :=
  match ss with [] => Some i | s :: ss => i ← apply_setting s i; apply_settings ss i end.

(** The arguments have the types of the parameters. *)
Definition setting_typed (s : Setting) : Prop :=
  match s with
  | SetName s | SetPhysicalLocation s | SetUniqueId s => Forall (in_u 8) s
  | SetDriverVersion v => in_s 32 v
  | SetInputId d => in_u 16 (bustype d) /\ in_u 16 (vendor d) /\ in_u 16 (product d) /\
      in_u 16 (version d)
  | SetBit _ bit => in_u 64 bit
  | SetAbsMin bit v | SetAbsMax bit v => in_u 64 bit /\ in_u 32 v
  end.

(** The arrays have a place for it. *)
Definition setting_fits (s : Setting) : Prop :=
  match s with
  | SetBit k bit => bit <= mask_max k
  | SetAbsMin bit _ | SetAbsMax bit _ => bit < ABS_CNT
  | _ => True
  end.

(** Bit [bit] of an array, as a reader takes it. *)
Definition read_bit (array : list Z) (bit : Z) : bool :=
  match zlookup array (bit / 8) with Some x => Z.testbit x (bit mod 8) | None => false end.

Lemma Forall_take_drop {A} (P : A -> Prop) n l : Forall P l -> Forall P (ztake n l) /\ Forall P (zdrop n l).
Proof. rewrite <- (ztake_zdrop n l) at 1. by rewrite Forall_app. Qed.

Lemma c_str_Forall (P : Z -> Prop) s : Forall P s -> Forall P (c_str s).
Proof.
  induction 1 as [|b s Hb Hs IH]; [constructor|]. cbn. destruct (b =? 0); [constructor|].
  by constructor.
Qed.

Lemma snprintf_typed n s old :
  0 < n -> Forall (in_u 8) s -> bytes n old -> bytes n (snprintf_s n s old).
Proof.
  intros Hn Hs [Hlen Hold]. unfold snprintf_s, bytes. set (t := ztake (n - 1) (c_str s)).
  pose proof (zlen_nonneg t). assert (zlen t <= n - 1).
  { unfold t, zlen, ztake. rewrite length_take. lia. }
  split.
  - rewrite !zlen_app, zlen_zdrop by lia. change (zlen [0]) with 1. lia.
  - rewrite !Forall_app. split; [by apply Forall_take_drop, c_str_Forall|].
    split; [repeat constructor; done|]. by apply Forall_take_drop.
Qed.

Lemma mask_size k : 8 * mask_bytes k = mask_max k + 1.
Proof. by destruct k. Qed.

Lemma set_bit_some n array bit :
  bytes n array -> 0 <= bit < 8 * n -> exists old,
  zlookup array (bit / 8) = Some old /\ in_u 8 old /\
  set_bit array bit = Some (zinsert (bit / 8) (Z.lor old (2 ^ (bit mod 8))) array) /\
  in_u 8 (Z.lor old (2 ^ (bit mod 8))).
Proof.
  intros [Hlen Hb] Hbit.
  assert (Hi : 0 <= bit / 8 < n).
  { split; [apply Z.div_pos; lia|apply Z.div_lt_upper_bound; lia]. }
  destruct (zlookup_lt (bit / 8) array) as [old Hold]; [lia|].
  assert (Ho : in_u 8 old) by (by eapply zlookup_Forall).
  pose proof (Z.mod_pos_bound bit 8) as Hm.
  assert (Hlor : in_u 8 (Z.lor old (2 ^ (bit mod 8)))).
  { unfold in_u in *. split; [apply Z.lor_nonneg; split; [lia|apply Z.pow_nonneg; lia]|].
    destruct (Z.eq_dec (Z.lor old (2 ^ (bit mod 8))) 0) as [->|Hz]; [lia|].
    apply Z.log2_lt_pow2; [|].
    - assert (0 <= Z.lor old (2 ^ (bit mod 8))); [|lia].
      apply Z.lor_nonneg; split; [lia|apply Z.pow_nonneg; lia].
    - rewrite Z.log2_lor by (lia || apply Z.pow_nonneg; lia). rewrite Z.log2_pow2 by lia.
      destruct (Z.eq_dec old 0) as [->|]; [cbn; lia|].
      assert (Z.log2 old < 8) by (apply Z.log2_lt_pow2; lia). lia. }
  exists old. split_and!; try done. unfold set_bit. rewrite Hold. cbn [mbind option_bind].
  rewrite Z.shiftl_mul_pow2, Z.mul_1_l, wrapu_id by (done || lia). done.
Qed.

Lemma Forall_zinsert {A} (P : A -> Prop) i x l : P x -> Forall P l -> Forall P (zinsert i x l).
Proof. intros Hx Hl. unfold zinsert. case_decide; [by apply Forall_insert|done]. Qed.

(** The bit is set and no other is changed. *)
Lemma set_bit_ok n array bit :
  bytes n array -> 0 <= bit < 8 * n -> exists array',
  set_bit array bit = Some array' /\ bytes n array' /\
  forall b, 0 <= b -> read_bit array' b = bool_decide (b = bit) || read_bit array b.
Proof.
  intros Ha Hbit. destruct (set_bit_some n array bit Ha Hbit) as (old & Hold & _ & -> & Hnew).
  destruct Ha as [Hlen Hb]. eexists. split; [done|]. split.
  - split; [by rewrite zlen_zinsert|by apply Forall_zinsert].
  - intros b Hb0. unfold read_bit. destruct (Z.eq_dec (b / 8) (bit / 8)) as [E|E].
    + assert (Hi : 0 <= bit / 8 < zlen array).
      { split; [apply Z.div_pos; lia|apply Z.div_lt_upper_bound; lia]. }
      rewrite E, zlookup_zinsert_eq, Hold by done. rewrite Z.lor_spec, orb_comm. f_equal.
      pose proof (Z.mod_pos_bound bit 8). pose proof (Z.mod_pos_bound b 8).
      rewrite Z.pow2_bits_eqb by lia.
      pose proof (Z.div_mod bit 8). pose proof (Z.div_mod b 8).
      case_bool_decide; [subst; by apply Z.eqb_refl|]. apply Z.eqb_neq. lia.
    + rewrite zlookup_zinsert_ne by done. rewrite bool_decide_eq_false_2; [done|]. congruence.
Qed.

(** Which bits a setting sets. *)
Definition sets_bit (k : Mask) (b : Z) (s : Setting) : bool := bool_decide (s = SetBit k b).

Lemma apply_setting_ok s i :
  setting_typed s -> info_typed i ->
  match apply_setting s i with
  | Some i' => setting_fits s /\ info_typed i' /\
      (forall k b, 0 <= b -> read_bit (bitmask i' k) b = sets_bit k b s || read_bit (bitmask i k) b)
  | None => ~ setting_fits s
  end.
Proof.
  intros Hs Hi. unfold sets_bit. destruct s as [s|v|d|s|s|k bit|bit v|bit v]; cbn in Hs |- *.
  1-5: split; [done|split; [destruct Hi; split; cbn; try done; by apply snprintf_typed|]];
    intros k b _; by rewrite bool_decide_eq_false_2.
  - unfold set_mask_bit.
    destruct (decide (bit <= mask_max k)) as [Hfit|Hfit].
    + destruct (set_bit_ok (mask_bytes k) (bitmask i k) bit) as (l & -> & Hl & Hread).
      { apply typed_mask, Hi. } { rewrite mask_size. unfold in_u in Hs. lia. }
      cbn [mbind option_bind]. split; [done|]. split.
      * destruct Hi. split; cbn; try done. intros k'. by case_decide; subst.
      * intros k' b Hb. cbn. case_decide as Hk.
        -- subst k'. rewrite Hread by done. f_equal. apply bool_decide_ext. naive_solver.
        -- rewrite bool_decide_eq_false_2 by congruence. done.
    + unfold set_bit. pose proof (mask_size k).
      replace (zlookup (bitmask i k) (bit / 8)) with (@None Z); [cbn; lia|].
      destruct (typed_mask i Hi k) as [Hlen _]. unfold in_u in Hs. symmetry.
      assert (mask_bytes k <= bit / 8) by (apply Z.div_le_lower_bound; lia).
      unfold zlookup. case_decide; [|done]. apply lookup_ge_None. unfold zlen in Hlen. lia.
  - unfold set_abs_min. destruct (Z.ltb_spec bit ABS_CNT); [|lia]. split; [lia|]. split.
    + destruct Hi as [????? ? ? [Hn1 Hn2]]. split; cbn; try done.
      split; [by rewrite zlen_zinsert|]. apply Forall_zinsert; [apply Hs|done].
    + intros k b _. by rewrite bool_decide_eq_false_2.
  - unfold set_abs_max. destruct (Z.ltb_spec bit ABS_CNT); [|lia]. split; [lia|]. split.
    + destruct Hi as [????? ? [Hn1 Hn2] ?]. split; cbn; try done.
      split; [by rewrite zlen_zinsert|]. apply Forall_zinsert; [apply Hs|done].
    + intros k b _. by rewrite bool_decide_eq_false_2.
Qed.

Lemma zeros_typed n : 0 <= n -> bytes n (zeros n).
Proof.
  intros Hn. split; [by apply zlen_replicate|]. apply Forall_replicate. done.
Qed.

Lemma info_new_typed : info_typed info_new.
Proof.
  split; cbn; try (apply zeros_typed; lia); try done.
  - intros k. apply zeros_typed. by destruct k.
  - split; [done|]. by apply Forall_replicate.
  - split; [done|]. by apply Forall_replicate.
Qed.

Lemma read_bit_zeros n b : read_bit (zeros n) b = false.
Proof.
  unfold read_bit, zlookup, zeros. case_decide; [|done].
  destruct (_ !! _) as [x|] eqn:E; [|done]. apply lookup_replicate in E as [-> _]. apply Z.bits_0.
Qed.

Lemma apply_settings_ok ss : forall i, Forall setting_typed ss -> info_typed i ->
  match apply_settings ss i with
  | Some i' => Forall setting_fits ss /\ info_typed i' /\
      (forall k b, 0 <= b -> read_bit (bitmask i' k) b = existsb (sets_bit k b) ss || read_bit (bitmask i k) b)
  | None => ~ Forall setting_fits ss
  end.
Proof.
  induction ss as [|s ss IH]; intros i Hss Hi; [by split|].
  inversion Hss as [|? ? Hs Hss']; subst. pose proof (apply_setting_ok s i Hs Hi) as H.
  cbn [apply_settings]. destruct (apply_setting s i) as [i1|]; cbn [mbind option_bind].
  - destruct H as (Hfit & Hi1 & Hb1). specialize (IH i1 Hss' Hi1).
    destruct (apply_settings ss i1) as [i2|].
    + destruct IH as (Hfits & Hi2 & Hb2). split; [by constructor|]. split; [done|].
      intros k b Hb. rewrite Hb2, Hb1 by done. cbn [existsb].
      by destruct (sets_bit k b s), (existsb (sets_bit k b) ss).
    + intros Hf. inversion Hf; subst. done.
  - intros Hf. inversion Hf; subst. done.
Qed.

(** *** The size in memory *)

Lemma little_endian_bytes n : forall v, Forall (in_u 8) (little_endian n v).
Proof.
  induction n as [|n IH]; intros v; [constructor|]. cbn. constructor; [|apply IH].
  apply Z.mod_pos_bound. lia.
Qed.

Lemma concat_le4 l : bytes (4 * zlen l) (concat (little_endian 4 <$> l)).
Proof.
  induction l as [|v l [IH1 IH2]]; [by split|].
  change (concat (little_endian 4 <$> v :: l))
    with (little_endian 4 v ++ concat (little_endian 4 <$> l)). split.
  - rewrite zlen_app, zlen_cons, IH1, zlen_little_endian. lia.
  - apply Forall_app. split; [apply little_endian_bytes|done].
Qed.

Lemma bytes_app n k l1 l2 : bytes n l1 -> bytes k l2 -> bytes (n + k) (l1 ++ l2).
Proof. intros [H1 H2] [H3 H4]. split; [rewrite zlen_app; lia|by apply Forall_app]. Qed.

Lemma little_endian_typed n v : bytes (Z.of_nat n) (little_endian n v).
Proof. split; [apply zlen_little_endian|apply little_endian_bytes]. Qed.

Lemma info_bytes_typed i : info_typed i -> bytes 896 (info_bytes i).
Proof.
  intros []. unfold info_bytes, id_bytes.
  change 896 with (80 + (4 + ((2 + (2 + (2 + 2))) + (80 + (80 + (130 + (2 + (256 + 256)))))))).
  repeat apply bytes_app; try done; try apply (little_endian_typed 2); try apply (little_endian_typed 4).
  - cbn [fmap list_fmap concat]. rewrite app_nil_r.
    change 130 with (96 + (8 + (2 + (2 + (2 + (16 + 4)))))).
    repeat apply bytes_app; apply typed_mask0.
  - split; [done|]. repeat constructor; done.
  - destruct typed_max0 as [Hl _]. pose proof (concat_le4 (abs_max i)) as H.
    rewrite Hl in H. exact H.
  - destruct typed_min0 as [Hl _]. pose proof (concat_le4 (abs_min i)) as H.
    rewrite Hl in H. exact H.
Qed.

(** C28: whatever the setters of a device are called with, its description keeps its type:
    the texts fill 80 bytes, every mask has its bytes, every number its width; a bit of a
    mask is set exactly when a setter was asked to; in memory it is the 896 bytes a
    client is sent.  A call leaves the struct exactly when its code lies behind the
    largest one of linux/input.h. *)
Theorem device_info_typed ss :
  Forall setting_typed ss ->
  match apply_settings ss info_new with
  | Some i => Forall setting_fits ss /\ info_typed i /\
      (forall k b, 0 <= b -> read_bit (bitmask i k) b = true <-> SetBit k b ∈ ss) /\
      zlen (info_bytes i) = 896 /\ Forall (in_u 8) (info_bytes i)
  | None => ~ Forall setting_fits ss
  end.
Proof.
  intros Hss. pose proof (apply_settings_ok ss info_new Hss info_new_typed) as H.
  destruct (apply_settings ss info_new) as [i|]; [|done].
  destruct H as (Hfits & Hi & Hb). destruct (info_bytes_typed i Hi) as [Hlen Hbytes].
  split_and!; try done. intros k b Hb0. rewrite Hb by done.
  cbn [bitmask info_new]. rewrite read_bit_zeros, orb_false_r, existsb_exists.
  split.
  - intros (s & Hin & E). apply bool_decide_eq_true in E as ->. by apply list_elem_of_In.
  - intros Hin. exists (SetBit k b). split; [by apply list_elem_of_In|by apply bool_decide_eq_true].
Qed.

(** The devices of the SDL platform (src/src/anbox/platform/sdl/platform.cpp). *)
Definition BUS_VIRTUAL : Z := 6.
Definition BTN_MOUSE : Z := 272.
Definition BTN_MISC : Z := 256.
Definition KEY_OK : Z := 352.
Definition ABS_MT_SLOT : Z := 47.
Definition ABS_MT_TOUCH_MAJOR : Z := 48.
Definition ABS_MT_TOUCH_MINOR : Z := 49.
Definition ABS_MT_POSITION_X : Z := 53.
Definition ABS_MT_POSITION_Y : Z := 54.
Definition ABS_MT_TRACKING_ID : Z := 57.
Definition MAX_TRACKING_ID : Z := 10.

Definition pointer_settings : list Setting :=
  [ SetName (bytes_of "anbox-pointer"); SetDriverVersion 1;
    SetInputId (mkInputId BUS_VIRTUAL 2 2 2); SetPhysicalLocation (bytes_of "none");
    SetBit Key BTN_MOUSE; SetBit Rel 0; SetBit Rel 1; SetBit Rel 6; SetBit Rel 8; SetBit Prop_ 0 ].

Definition keyboard_settings : list Setting :=
  [ SetName (bytes_of "anbox-keyboard"); SetDriverVersion 1;
    SetInputId (mkInputId BUS_VIRTUAL 3 3 3); SetPhysicalLocation (bytes_of "none");
    SetBit Key BTN_MISC; SetBit Key KEY_OK ].

(** [width], [height]: of the display. *)
Definition touch_settings (width height : Z) : list Setting :=
  [ SetName (bytes_of "anbox-touch"); SetDriverVersion 1;
    SetInputId (mkInputId BUS_VIRTUAL 4 4 4); SetPhysicalLocation (bytes_of "none");
    SetBit Abs ABS_MT_SLOT; SetAbsMax ABS_MT_SLOT 10;
    SetBit Abs ABS_MT_TOUCH_MAJOR; SetAbsMax ABS_MT_TOUCH_MAJOR 127;
    SetBit Abs ABS_MT_TOUCH_MINOR; SetAbsMax ABS_MT_TOUCH_MINOR 127;
    SetBit Abs ABS_MT_POSITION_X; SetAbsMax ABS_MT_POSITION_X (u32 width);
    SetBit Abs ABS_MT_POSITION_Y; SetAbsMax ABS_MT_POSITION_Y (u32 height);
    SetBit Abs ABS_MT_TRACKING_ID; SetAbsMax ABS_MT_TRACKING_ID MAX_TRACKING_ID;
    SetBit Prop_ 1 ].

Lemma bytes_of_typed s : Forall (in_u 8) (bytes_of s).
Proof.
  induction s as [|a s IH]; [constructor|]. cbn. constructor; [|done].
  unfold byte_of, in_u. pose proof (Ascii.nat_ascii_bounded a). lia.
Qed.

Lemma touch_settings_typed width height : Forall setting_typed (touch_settings width height).
Proof.
  assert (Hclosed : forall w x, bool_decide (0 <= x < 2 ^ w) = true -> in_u w x)
    by (intros w x H; by apply bool_decide_eq_true in H).
  repeat (apply Forall_cons; split); try apply Forall_nil; cbn [setting_typed];
    try apply bytes_of_typed; try (split_and!; by apply Hclosed); try done.
  all: split; [by apply Hclosed|apply wrapu_range; lia].
Qed.

(** The touch screen can be described, and is what the guest looks for. *)
Lemma device_info_typed_witness :
  exists i, apply_settings (touch_settings 1920 1080) info_new = Some i /\
    zlen (info_bytes i) = 896 /\
    read_bit (bitmask i Abs) ABS_MT_TRACKING_ID = true /\
    read_bit (bitmask i Prop_) 0 = false.
Proof.
  pose proof (device_info_typed (touch_settings 1920 1080) (touch_settings_typed _ _)) as H.
  destruct (apply_settings (touch_settings 1920 1080) info_new) as [i|] eqn:E.
  - exists i. destruct H as (_ & _ & Hbit & Hlen & _). split; [done|]. split; [exact Hlen|]. split.
    + apply Hbit; [done|]. apply list_elem_of_In. cbn. tauto.
    + destruct (read_bit (bitmask i Prop_) 0) eqn:Hr; [|done].
      apply Hbit in Hr; [|done]. apply list_elem_of_In in Hr. cbn in Hr.
      exfalso. repeat destruct Hr as [Hr|Hr]; done.
  - exfalso. apply H. repeat (apply Forall_cons; split); try apply Forall_nil; done.
Defined.

(** ** What the clients receive *)

(** What happens to a device: a client connects, events are sent, a client goes away
    without the device being told. *)
Inductive DeviceEvent :=
  | Connect
  | Events (sec nsec : Z) (events : list Event)
  | Gone (n : Z).

Definition device_event (e : DeviceEvent) (d : Device) : Device :=
  match e with
  | Connect => new_client d
  | Events sec nsec events => (send_events sec nsec events d).1
  | Gone n =>
      mkDevice (info_ d) (next_connection_id_ d)
        (alter (fun c => mkClient (received c) false) n (connections_ d))
  end.

Definition device_run (es : list DeviceEvent) (d : Device) : Device :=
  foldl (fun d e => device_event e d) d es.

(** [n] connections with the ids from 0 on. *)
Definition numbered (n : Z) (d : Device) : Prop :=
  0 <= n /\ next_connection_id_ d = i32 n /\
  forall k, is_Some (connections_ d !! k) <-> 0 <= k < n.

Lemma numbered_size n d : numbered n d -> size (connections_ d) = Z.to_nat n.
Proof.
  intros (Hn & _ & Hk). rewrite <- (size_dom (D := gset Z)).
  assert (dom (connections_ d) = list_to_set (seqZ 0 n) :> gset Z) as ->.
  { apply set_eq. intros k. rewrite elem_of_dom, elem_of_list_to_set, elem_of_seqZ, Hk. lia. }
  rewrite size_list_to_set by apply NoDup_seqZ. by rewrite length_seqZ.
Qed.

(** The clients of a range of ids, all alive. *)
Definition all_alive (from : Z) (count : nat) (m : Connections Client) : Prop :=
  forall k, from <= k < from + Z.of_nat count -> exists c, m !! k = Some c /\ alive c = true.

Lemma send_from_alive data count : forall n m, all_alive n count m ->
  exists m', send_from n count data m = (m', false) /\
    (forall k, n <= k < n + Z.of_nat count -> m' !! k = deliver data <$> m !! k) /\
    (forall k, ~ n <= k < n + Z.of_nat count -> m' !! k = m !! k).
Proof.
  induction count as [|count IH]; intros n m Ha.
  - exists m. split; [done|]. split; [intros; lia|done].
  - destruct (Ha n) as (c & Hc & Hal); [lia|]. cbn [send_from]. unfold connections_at.
    rewrite Hc, Hal.
    destruct (IH (n + 1) (<[n := deliver data c]> m)) as (m' & -> & Hin & Hout).
    { intros k Hk. destruct (Ha k) as (c' & Hc' & Hal'); [lia|]. exists c'.
      by rewrite lookup_insert_ne by lia. }
    exists m'. split; [done|]. split; intros k Hk.
    + destruct (decide (k = n)) as [->|].
      * rewrite Hout, lookup_insert_eq, Hc by lia. done.
      * rewrite Hin, lookup_insert_ne by lia. done.
    + rewrite Hout, lookup_insert_ne by lia. done.
Qed.

(** The first client that is gone ends the loop. *)
Lemma send_from_gone data count : forall n m j c,
  n <= j < n + Z.of_nat count -> all_alive n (Z.to_nat (j - n)) m ->
  m !! j = Some c -> alive c = false ->
  exists m', send_from n count data m = (m', true) /\
    (forall k, n <= k < j -> m' !! k = deliver data <$> m !! k) /\
    (forall k, ~ n <= k < j -> m' !! k = m !! k).
Proof.
  induction count as [|count IH]; intros n m j c Hj Ha Hc Hdead; [lia|].
  cbn [send_from]. unfold connections_at. destruct (decide (j = n)) as [->|Hne].
  - rewrite Hc, Hdead. exists m. split; [done|]. split; [intros; lia|done].
  - destruct (Ha n) as (c0 & Hc0 & Hal); [lia|]. rewrite Hc0, Hal.
    destruct (IH (n + 1) (<[n := deliver data c0]> m) j c) as (m' & -> & Hin & Hout); try done.
    { lia. }
    { intros k Hk. destruct (Ha k) as (c' & Hc' & Hal'); [lia|]. exists c'.
      by rewrite lookup_insert_ne by lia. }
    { by rewrite lookup_insert_ne by lia. }
    exists m'. split; [done|]. split; intros k Hk.
    + destruct (decide (k = n)) as [->|].
      * rewrite Hout, lookup_insert_eq, Hc0 by lia. done.
      * rewrite Hin, lookup_insert_ne by lia. done.
    + rewrite Hout, lookup_insert_ne by lia. done.
Qed.

Fixpoint connects (es : list DeviceEvent) : Z :=
  match es with [] => 0 | Connect :: es => 1 + connects es | _ :: es => connects es end.

Lemma connects_nonneg es : 0 <= connects es.
Proof. induction es as [|[] es IH]; cbn [connects]; lia. Qed.

Lemma connects_app es1 es2 : connects (es1 ++ es2) = connects es1 + connects es2.
Proof. induction es1 as [|[] es1 IH]; cbn [connects app]; lia. Qed.

Definition stays (e : DeviceEvent) : Prop := match e with Gone _ => False | _ => True end.

Definition event_data (e : DeviceEvent) : list Z :=
  match e with
  | Events sec nsec events => concat (event_bytes sec (nsec / 1000) <$> events)
  | _ => []
  end.

(** [n] clients, all there. *)
Definition serving (n : Z) (d : Device) : Prop :=
  numbered n d /\ forall k c, connections_ d !! k = Some c -> alive c = true.

Lemma serving_all_alive n d : serving n d -> all_alive 0 (Z.to_nat n) (connections_ d).
Proof.
  intros [(Hn & _ & Hk) Hal] k Hr. destruct (proj2 (Hk k)) as [c Hc]; [lia|].
  exists c. split; [done|by eapply Hal].
Qed.

Lemma i32_id n : 0 <= n < 2 ^ 31 -> i32 n = n.
Proof. intros H. apply wraps_id; [lia|]. unfold in_s. cbn. lia. Qed.

Lemma i32_succ n : i32 (i32 n + 1) = i32 (n + 1).
Proof.
  Transparent wraps. unfold wraps. Opaque wraps.
  replace ((n + 2 ^ (32 - 1)) mod 2 ^ 32 - 2 ^ (32 - 1) + 1 + 2 ^ (32 - 1))
    with ((n + 2 ^ (32 - 1)) mod 2 ^ 32 + 1) by lia.
  rewrite Zplus_mod_idemp_l. do 2 f_equal. lia.
Qed.

Lemma new_client_serving n d :
  serving n d -> n < 2 ^ 31 ->
  serving (n + 1) (new_client d) /\
  connections_ (new_client d) = <[n := mkClient (info_bytes (info_ d)) true]> (connections_ d).
Proof.
  intros [(Hn & Hid & Hk) Hal] Hlt.
  assert (Hc : connections_ (new_client d) =
    <[n := mkClient (info_bytes (info_ d)) true]> (connections_ d)).
  { unfold new_client, next_id. cbn. rewrite Hid, i32_id by lia. apply connections_add_fresh.
    apply eq_None_not_Some. rewrite Hk. lia. }
  split; [|done]. split.
  - split; [lia|]. split; [cbn; rewrite Hid; apply i32_succ|]. intros k. rewrite Hc.
    destruct (decide (k = n)) as [->|]; [rewrite lookup_insert_eq; split; [lia|eauto]|].
    rewrite lookup_insert_ne, Hk by done. lia.
  - intros k c. rewrite Hc. destruct (decide (k = n)) as [->|].
    + rewrite lookup_insert_eq. by intros [= <-].
    + rewrite lookup_insert_ne by done. apply Hal.
Qed.

Lemma send_events_serving n d sec nsec events :
  serving n d ->
  exists d', send_events sec nsec events d = (d', false) /\ serving n d' /\ info_ d' = info_ d /\
    forall k, connections_ d' !! k =
      deliver (event_data (Events sec nsec events)) <$> connections_ d !! k.
Proof.
  intros Hs. pose proof (serving_all_alive n d Hs) as Ha.
  destruct Hs as [Hnum Hal]. destruct Hnum as (Hn & Hid & Hk).
  unfold send_events. rewrite (numbered_size n d) by done.
  destruct (send_from_alive (event_data (Events sec nsec events)) (Z.to_nat n) 0
    (connections_ d) Ha) as (m' & Hsend & Hin & Hout).
  cbn [event_data] in Hsend. rewrite Hsend.
  assert (Hm : forall k, m' !! k =
    deliver (event_data (Events sec nsec events)) <$> connections_ d !! k).
  { intros k. destruct (decide (0 <= k < n)) as [|Hr]; [apply Hin; lia|].
    rewrite Hout by lia. destruct (connections_ d !! k) eqn:E; [|done].
    exfalso. apply Hr, Hk. eauto. }
  eexists. split; [done|]. split; [|by split]. split.
  - split; [done|]. split; [done|]. intros k. cbn. rewrite Hm, fmap_is_Some. apply Hk.
  - intros k c. cbn. rewrite Hm. by intros (c0 & _ & ->)%fmap_Some.
Qed.

Lemma device_run_serving es : forall n d,
  serving n d -> Forall stays es -> n + connects es <= 2 ^ 31 ->
  let d' := device_run es d in
  serving (n + connects es) d' /\ info_ d' = info_ d /\
  forall k c, connections_ d !! k = Some c ->
    connections_ d' !! k = Some (mkClient (received c ++ concat (event_data <$> es)) true).
Proof.
  induction es as [|e es IH]; intros n d Hs Hst Hb; cbv zeta.
  { cbn. rewrite Z.add_0_r. split_and!; try done. intros k c Hc. rewrite app_nil_r.
    destruct Hs as [_ Hal]. rewrite Hc. specialize (Hal k c Hc). by destruct c; cbn in *; subst. }
  inversion Hst as [|? ? He Hst']; subst.
  change (device_run (e :: es) d) with (device_run es (device_event e d)).
  pose proof (connects_nonneg es).
  destruct e as [|sec nsec events|]; [| |done]; cbn [device_event].
  - cbn [connects] in *. destruct Hs as [Hnum Hal]. pose proof Hnum as (Hn & _ & Hk).
    destruct (new_client_serving n d) as [Hs1 Hc1]; [by split|lia|].
    destruct (IH (n + 1) (new_client d)) as (Hs2 & Hi & Hl); [done|done|lia|].
    replace (n + (1 + connects es)) with (n + 1 + connects es) by lia.
    split; [exact Hs2|]. split; [exact Hi|]. intros k c Hc.
    rewrite (Hl k c); [done|]. rewrite Hc1, lookup_insert_ne; [done|].
    intros ->. assert (Hr : 0 <= k < k) by (apply Hk; eauto). lia.
  - cbn [connects] in *.
    destruct (send_events_serving n d sec nsec events Hs) as (d1 & -> & Hs1 & Hi1 & Hl1).
    destruct (IH n d1) as (Hs2 & Hi & Hl); [done|done|lia|].
    split; [exact Hs2|]. split; [cbn [fst]; by rewrite Hi|].
    intros k c Hc. specialize (Hl1 k). rewrite Hc in Hl1. cbn [fst]. rewrite (Hl k _ Hl1). cbn [deliver received].
    by rewrite <- app_assoc.
Qed.

(** With client [j] gone. *)
Lemma send_events_gone n d j sec nsec events :
  serving n d -> 0 <= j < n ->
  let (d', threw) := send_events sec nsec events (device_event (Gone j) d) in
  threw = true /\
  forall k, connections_ d' !! k =
    (if k <? j then deliver (event_data (Events sec nsec events)) <$> connections_ d !! k
     else connections_ (device_event (Gone j) d) !! k).
Proof.
  intros [(Hn & Hid & Hk) Hal] Hj. destruct (proj2 (Hk j) Hj) as [c Hc].
  set (m := connections_ (device_event (Gone j) d)).
  assert (Hm : forall k, k <> j -> m !! k = connections_ d !! k)
    by (intros k Hne; unfold m; cbn; by rewrite lookup_alter_ne).
  assert (Hmj : m !! j = Some (mkClient (received c) false))
    by (unfold m; cbn; by rewrite lookup_alter_eq, Hc).
  assert (Hsz : size m = Z.to_nat n).
  { apply (numbered_size n (mkDevice (info_ d) (next_connection_id_ d) m)).
    split; [done|]. split; [done|]. intros k. rewrite <- Hk. cbn [connections_].
    destruct (decide (k = j)) as [->|]; [|by rewrite Hm]. by rewrite Hmj, Hc. }
  unfold send_events. fold m. rewrite Hsz.
  destruct (send_from_gone (event_data (Events sec nsec events)) (Z.to_nat n) 0 m j
    (mkClient (received c) false)) as (m' & Hsend & Hin & Hout); [lia| |done|done|].
  { intros k Hkr. destruct (proj2 (Hk k)) as [c' Hc']; [lia|]. exists c'.
    rewrite Hm by lia. split; [done|by eapply Hal]. }
  cbn [event_data] in Hsend. rewrite Hsend. split; [done|]. intros k. cbn [connections_].
  destruct (Z.ltb_spec k j).
  - destruct (decide (0 <= k)); [rewrite Hin, Hm by lia; done|].
    rewrite Hout, Hm by lia. destruct (connections_ d !! k) eqn:E; [|done].
    assert (0 <= k < n) by (apply Hk; eauto). lia.
  - by rewrite Hout by lia.
Qed.

(** A device whose description is ready. *)
Definition device_with (i : Info) : Device := mkDevice i 0 ∅.

Lemma device_with_serving i : serving 0 (device_with i).
Proof.
  split; [|done]. split; [lia|]. split; [by rewrite i32_id by lia|]. intros k.
  cbn. rewrite lookup_empty, is_Some_alt. split; [done|lia].
Qed.

(** A client of a device receives the description first and then the events sent
    from then on, all and in order, as long as no client goes away; when one is gone,
    sending throws at it in every call: the clients that came before it are served, the
    ones after it never again. *)
Theorem device_delivers i es1 es2 :
  Forall stays es1 -> Forall stays es2 -> connects (es1 ++ Connect :: es2) <= 2 ^ 31 ->
  let d := device_run (es1 ++ Connect :: es2) (device_with i) in
  connections_ d !! connects es1 =
    Some (mkClient (info_bytes i ++ concat (event_data <$> es2)) true) /\
  (forall j sec nsec events, 0 <= j < connects (es1 ++ Connect :: es2) ->
    let (d', threw) := send_events sec nsec events (device_event (Gone j) d) in
    threw = true /\
    forall k, connections_ d' !! k =
      (if k <? j then deliver (event_data (Events sec nsec events)) <$> connections_ d !! k
       else connections_ (device_event (Gone j) d) !! k)).
Proof.
  intros H1 H2 Hb. cbv zeta.
  pose proof (connects_app es1 (Connect :: es2)) as Hcon. cbn [connects] in Hcon.
  pose proof (connects_nonneg es1). pose proof (connects_nonneg es2).
  destruct (device_run_serving es1 0 (device_with i)) as (Hs1 & Hi1 & _);
    [apply device_with_serving|done|lia|].
  destruct (device_run_serving (es1 ++ Connect :: es2) 0 (device_with i)) as (Hs & _ & _);
    [apply device_with_serving|apply Forall_app; by split; [|constructor]|lia|].
  split.
  - unfold device_run. rewrite foldl_app. cbn [foldl device_event].
    destruct (new_client_serving _ _ Hs1) as [Hs2 Hc]; [lia|].
    destruct (device_run_serving es2 _ _ Hs2 H2) as (_ & _ & Hl); [lia|].
    apply (Hl _ (mkClient (info_bytes i) true)).
    rewrite Hc, Z.add_0_l, lookup_insert_eq. by rewrite Hi1.
  - intros j sec nsec events Hj. by apply (send_events_gone (connects (es1 ++ Connect :: es2))).
Qed.

Lemma device_delivers_witness :
  let d := device_run [Connect; Connect; Events 1 2000 [mkEvent 3 57 (-1)]; Connect]
    (device_with info_new) in
  connections_ d !! 1 =
    Some (mkClient (info_bytes info_new ++
      [1; 0; 0; 0; 0; 0; 0; 0; 2; 0; 0; 0; 0; 0; 0; 0; 3; 0; 57; 0; 255; 255; 255; 255]) true) /\
  (send_events 5 6 [] (device_event (Gone 0) d)).2 = true.
Proof.
  destruct (device_delivers info_new [Connect] [Events 1 2000 [mkEvent 3 57 (-1)]; Connect])
    as [H1 H2]; [repeat constructor|repeat constructor|cbn; lia|].
  split; [exact H1|].
  specialize (H2 0 5 6 []). cbv zeta in H2. revert H2.
  destruct (send_events _ _ _ _) as [d' threw]. intros H2. apply H2. cbn. lia.
Defined.

(** ** The manager *)

(** [devices_], and the counter that all managers share. *)
Record InputManager := mkInputManager {
  devices_ : gmap Z (string * Device);
  next_device_id : Z
}.

(** [dir]: SystemConfiguration's input_device_dir. *)
Definition build_device_path (dir : string) (n : Z) : string :=
  String.append dir (String.append "/event" (to_dec n)).

Definition create_device (dir : string) (m : InputManager) : Z * InputManager :=
  let n := next_device_id m in
  (n, mkInputManager
    (match devices_ m !! n with
     | Some _ => devices_ m
     | None => <[n := (build_device_path dir n, device_new)]> (devices_ m)
     end)
    (u32 (n + 1))).

Lemma create_device_new dir m :
  devices_ m !! next_device_id m = None ->
  devices_ (create_device dir m).2 !! next_device_id m =
    Some (build_device_path dir (next_device_id m), device_new).
Proof. intros H. unfold create_device. cbn. by rewrite H, lookup_insert_eq. Qed.
