(* ===== verification/Touch.v ===== *)
(** * Input from the SDL platform

    [KeycodeConverter] (src/src/anbox/platform/sdl/keycode_converter.cpp) gives the Linux
    key of a scan code; [Platform] (platform/sdl/platform.cpp) turns SDL's events into
    events of its three devices.  Fingers are told to the guest by the kernel's
    multi-touch protocol with slots; [guest_event] is a reader of that protocol, and the
    theorem is that the guest sees the fingers that are down, where they are.

    SDL's answers (where the focused window is, where the mouse is, and the position of
    a finger, which is computed in floating point) are inputs. *)

From S2P Require Import Prelude Input.

(** ** Key codes *)

(** A constant of SDL's enumeration is its name without [SDL_SCANCODE_]. *)
Definition SDL_Scancode : Set := string.

Definition code_map : list SDL_Scancode :=
  ["UNKNOWN"; "ESCAPE"; "1"; "2"; "3"; "4"; "5"; "6"; "7"; "8"; "9"; "0"; "MINUS"; "EQUALS";
   "BACKSPACE"; "TAB"; "Q"; "W"; "E"; "R"; "T"; "Y"; "U"; "I"; "O"; "P"; "LEFTBRACKET";
   "RIGHTBRACKET"; "RETURN"; "LCTRL"; "A"; "S"; "D"; "F"; "G"; "H"; "J"; "K"; "L";
   "SEMICOLON"; "APOSTROPHE"; "GRAVE"; "LSHIFT"; "BACKSLASH"; "Z"; "X"; "C"; "V"; "B"; "N";
   "M"; "COMMA"; "PERIOD"; "SLASH"; "RSHIFT"; "KP_MULTIPLY"; "LALT"; "SPACE"; "CAPSLOCK";
   "F1"; "F2"; "F3"; "F4"; "F5"; "F6"; "F7"; "F8"; "F9"; "F10"; "NUMLOCKCLEAR"; "SCROLLLOCK";
   "KP_7"; "KP_8"; "KP_9"; "KP_MINUS"; "KP_4"; "KP_5"; "KP_6"; "KP_PLUS"; "KP_1"; "KP_2";
   "KP_3"; "KP_0"; "KP_PERIOD"; "UNKNOWN"; "LANG5"; "UNKNOWN"; "F11"; "F12"; "UNKNOWN";
   "LANG3"; "LANG4"; "UNKNOWN"; "LANG3"; "UNKNOWN"; "KP_COMMA"; "KP_ENTER"; "RCTRL";
   "KP_DIVIDE"; "SYSREQ"; "RALT"; "UNKNOWN"; "HOME"; "UP"; "PAGEUP"; "LEFT"; "RIGHT"; "END";
   "DOWN"; "PAGEDOWN"; "INSERT"; "DELETE"; "UNKNOWN"; "MUTE"; "VOLUMEDOWN"; "VOLUMEUP";
   "POWER"; "KP_EQUALS"; "KP_MINUS"; "PAUSE"; "UNKNOWN"; "KP_COMMA"; "LANG1"; "LANG2";
   "INTERNATIONAL3"; "LGUI"; "RGUI"; "APPLICATION"; "STOP"; "AGAIN"; "UNKNOWN"; "UNDO";
   "UNKNOWN"; "COPY"; "UNKNOWN"; "PASTE"; "FIND"; "CUT"; "HELP"; "MENU"; "CALCULATOR";
   "UNKNOWN"; "SLEEP"; "UNKNOWN"; "UNKNOWN"; "UNKNOWN"; "UNKNOWN"; "UNKNOWN"; "APP1"; "APP1";
   "WWW"; "UNKNOWN"; "UNKNOWN"; "UNKNOWN"; "UNKNOWN"; "MAIL"; "AC_BOOKMARKS"; "COMPUTER";
   "AC_BACK"; "AC_FORWARD"; "UNKNOWN"; "EJECT"; "UNKNOWN"; "AUDIONEXT"; "AUDIOPLAY";
   "AUDIOPREV"; "AUDIOSTOP"; "UNKNOWN"; "UNKNOWN"; "UNKNOWN"; "UNKNOWN"; "UNKNOWN"; "AC_HOME";
   "AC_REFRESH"; "UNKNOWN"; "UNKNOWN"; "UNKNOWN"; "UNKNOWN"; "UNKNOWN"; "KP_LEFTPAREN";
   "KP_RIGHTPAREN"; "UNKNOWN"; "AGAIN"; "F13"; "F14"; "F15"; "F16"; "F17"; "F18"; "F19";
   "F20"; "F21"; "F22"; "F23"; "F24"; "UNKNOWN"; "UNKNOWN"; "UNKNOWN"; "UNKNOWN"; "UNKNOWN";
   "UNKNOWN"; "UNKNOWN"; "UNKNOWN"; "UNKNOWN"; "UNKNOWN"; "UNKNOWN"; "UNKNOWN"; "UNKNOWN";
   "UNKNOWN"; "UNKNOWN"; "UNKNOWN"; "UNKNOWN"; "UNKNOWN"; "UNKNOWN"; "UNKNOWN"; "UNKNOWN";
   "UNKNOWN"; "UNKNOWN"; "UNKNOWN"; "UNKNOWN"; "UNKNOWN"; "UNKNOWN"; "UNKNOWN"; "UNKNOWN";
   "UNKNOWN"; "UNKNOWN"; "UNKNOWN"; "UNKNOWN"; "UNKNOWN"; "UNKNOWN"; "UNKNOWN"; "UNKNOWN";
   "UNKNOWN"; "UNKNOWN"; "UNKNOWN"; "UNKNOWN"; "UNKNOWN"; "UNKNOWN"; "UNKNOWN"; "UNKNOWN";
   "UNKNOWN"; "UNKNOWN"; "UNKNOWN"; "UNKNOWN"; "UNKNOWN"; "UNKNOWN"; "UNKNOWN"; "UNKNOWN";
   "UNKNOWN"]%string.

Definition KEY_RESERVED : Z := 0.

(** The loop from entry [n] on. *)
Fixpoint convert_from (n : Z) (map : list SDL_Scancode) (scan_code : SDL_Scancode) : Z :=
  match map with
  | [] => KEY_RESERVED
  | c :: map => if String.eqb c scan_code then n else convert_from (n + 1) map scan_code
  end.

Definition convert (scan_code : SDL_Scancode) : Z := convert_from 0 code_map scan_code.

(** ** The events of linux/input-event-codes.h *)

Definition EV_SYN : Z := 0.
Definition EV_KEY : Z := 1.
Definition EV_REL : Z := 2.
Definition EV_ABS : Z := 3.
Definition SYN_REPORT : Z := 0.
Definition BTN_LEFT : Z := 272.
Definition ABS_X : Z := 0.
Definition ABS_Y : Z := 1.
Definition REL_X : Z := 0.
Definition REL_Y : Z := 1.
Definition REL_WHEEL : Z := 8.

Definition syn : Event := mkEvent EV_SYN SYN_REPORT 0.

(** ** Fingers and slots *)

Definition MAX_FINGERS : Z := 10.

(** A slot holds the id of its finger, -1 when it is free. *)
Record Touch := mkTouch { touch_slots : list Z; last_slot : Z }.

(** The loop of the constructor. *)
Definition touch_new : Touch := mkTouch (replicate (Z.to_nat MAX_FINGERS) (-1)) (-1).

Fixpoint find_slot_from (i : Z) (slots : list Z) (id : Z) : Z :=
  match slots with
  | [] => -1
  | s :: slots => if s =? id then i else find_slot_from (i + 1) slots id
  end.

Definition find_touch_slot (id : Z) (t : Touch) : Z := find_slot_from 0 (touch_slots t) id.

(** The events are appended to the caller's vector. *)
Definition push_slot (slot : Z) (t : Touch) : Touch * list Event :=
  if last_slot t =? slot then (t, [])
  else (mkTouch (touch_slots t) slot, [mkEvent EV_ABS ABS_MT_SLOT slot]).

Definition set_slot (slot id : Z) (t : Touch) : Touch :=
  mkTouch (zinsert slot id (touch_slots t)) (last_slot t).

Definition push_finger_down (x y finger_id : Z) (t : Touch) : Touch * list Event :=
  let slot := find_touch_slot (-1) t in
  if slot =? -1 then (t, [])
  else
    let t := set_slot slot finger_id t in
    let '(t, events) := push_slot slot t in
    (t, events ++
      [ mkEvent EV_ABS ABS_MT_TRACKING_ID (Z.rem finger_id MAX_TRACKING_ID + 1);
        mkEvent EV_ABS ABS_MT_POSITION_X x; mkEvent EV_ABS ABS_MT_POSITION_Y y; syn ]).

Definition push_finger_up (finger_id : Z) (t : Touch) : Touch * list Event :=
  let slot := find_touch_slot finger_id t in
  if slot =? -1 then (t, [])
  else
    let '(t, events) := push_slot slot t in
    (set_slot slot (-1) t, events ++ [ mkEvent EV_ABS ABS_MT_TRACKING_ID (-1); syn ]).

Definition push_finger_motion (x y finger_id : Z) (t : Touch) : Touch * list Event :=
  let slot := find_touch_slot finger_id t in
  if slot =? -1 then (t, [])
  else
    let '(t, events) := push_slot slot t in
    (t, events ++
      [ mkEvent EV_ABS ABS_MT_POSITION_X x; mkEvent EV_ABS ABS_MT_POSITION_Y y; syn ]).

(** ** The platform's events *)

Record Configuration := mkConfiguration { no_touch_emulation : bool; single_window : bool }.

(** What SDL says at the time of an event: the position of the focused window, if there
    is one, and of the mouse. *)
Record SDL_State := mkSDL { window_position : option (Z * Z); mouse_state : Z * Z }.

(** The position of a finger is the one [calculate_touch_coordinates] computes before
    it adjusts it to the window. *)
Inductive SDL_Event :=
  | MouseButtonDown (x y : Z)
  | MouseButtonUp
  | MouseMotion (x y xrel yrel : Z)
  | MouseWheel (y : Z)
  | KeyDown (scan_code : SDL_Scancode)
  | KeyUp (scan_code : SDL_Scancode)
  | FingerDown (id x y : Z)
  | FingerUp (id : Z)
  | FingerMotion (id x y : Z)
  | OtherEvent.

(** [None]: no window has the focus. *)
Definition adjust_coordinates (c : Configuration) (sdl : SDL_State) (p : Z * Z) : option (Z * Z) :=
  if single_window c then Some p
  else '(rel_x, rel_y) ← window_position sdl; Some (i32 (p.1 + rel_x), i32 (p.2 + rel_y)).

Definition emulated_touch_id_ : Z := 0.

Inductive InputDevice := PointerDevice | KeyboardDevice | TouchDevice.

(** The vectors that [process_input_event] fills. *)
Record Vectors := mkVectors {
  mouse_events : list Event;
  keyboard_events : list Event;
  touch_events : list Event
}.

Definition no_events : Vectors := mkVectors [] [] [].
Definition mouse (es : list Event) : Vectors := mkVectors es [] [].
Definition keyboard (es : list Event) : Vectors := mkVectors [] es [].
Definition touching (r : Touch * list Event) : Touch * Vectors := (r.1, mkVectors [] [] r.2).

Definition key_event (scan_code : SDL_Scancode) (value : Z) : Vectors :=
  let code := convert scan_code in
  if code =? KEY_RESERVED then no_events else keyboard [mkEvent EV_KEY code value].

(** The [switch]. *)
Definition collect_events (c : Configuration) (sdl : SDL_State) (e : SDL_Event) (t : Touch) :
    Touch * Vectors :=
  match e with
  | MouseButtonDown x y =>
      if no_touch_emulation c then (t, mouse [mkEvent EV_KEY BTN_LEFT 1])
      else
        match adjust_coordinates c sdl (x, y) with
        | None => (t, no_events)
        | Some (x, y) => touching (push_finger_down x y emulated_touch_id_ t)
        end
  | MouseButtonUp =>
      if no_touch_emulation c then (t, mouse [mkEvent EV_KEY BTN_LEFT 0])
      else touching (push_finger_up emulated_touch_id_ t)
  | MouseMotion x y xrel yrel =>
      match adjust_coordinates c sdl (x, y) with
      | None => (t, no_events)
      | Some (x, y) =>
          if no_touch_emulation c then
            (t, mouse [mkEvent EV_ABS ABS_X x; mkEvent EV_ABS ABS_Y y;
              mkEvent EV_REL REL_X xrel; mkEvent EV_REL REL_Y yrel])
          else touching (push_finger_motion x y emulated_touch_id_ t)
      end
  | MouseWheel wheel =>
      if no_touch_emulation c then (t, mouse [mkEvent EV_REL REL_WHEEL wheel])
      else
        match adjust_coordinates c sdl (mouse_state sdl) with
        | None => (t, no_events)
        | Some (x, y) =>
            (t, mouse [mkEvent EV_ABS ABS_X x; mkEvent EV_ABS ABS_Y y;
              mkEvent EV_REL REL_WHEEL wheel])
        end
  | KeyDown scan_code => (t, key_event scan_code 1)
  | KeyUp scan_code => (t, key_event scan_code 0)
  | FingerDown id x y =>
      match adjust_coordinates c sdl (x, y) with
      | None => (t, no_events)
      | Some (x, y) => touching (push_finger_down x y (i32 id) t)
      end
  | FingerUp id => touching (push_finger_up (i32 id) t)
  | FingerMotion id x y =>
      match adjust_coordinates c sdl (x, y) with
      | None => (t, no_events)
      | Some (x, y) => touching (push_finger_motion x y (i32 id) t)
      end
  | OtherEvent => (t, no_events)
  end.

Definition sent_to (d : InputDevice) (es : list Event) : list (InputDevice * list Event) :=
  match es with [] => [] | _ => [(d, es)] end.

(** The calls of [send_events]. *)
Definition process_input_event (c : Configuration) (sdl : SDL_State) (e : SDL_Event) (t : Touch) :
    Touch * list (InputDevice * list Event) :=
  let '(t, v) := collect_events c sdl e t in
  (t, sent_to PointerDevice (match mouse_events v with [] => [] | es => es ++ [syn] end) ++
      sent_to KeyboardDevice (keyboard_events v) ++
      sent_to TouchDevice (touch_events v)).

(** ** What the guest sees

    The multi-touch protocol of the kernel, with slots: an event of the device is about
    the slot selected last; a tracking id starts a contact there, a negative one ends it. *)

Record Slot := mkSlot { tracking : Z; pos_x : Z; pos_y : Z }.

Record Guest := mkGuest { selected : Z; guest_slots : gmap Z Slot }.

Definition guest_new : Guest := mkGuest 0 ∅.

Definition guest_slot (i : Z) (g : Guest) : Slot := default (mkSlot (-1) 0 0) (guest_slots g !! i).

Definition set_selected (s : Slot) (g : Guest) : Guest :=
  mkGuest (selected g) (<[selected g := s]> (guest_slots g)).

Definition guest_event (g : Guest) (e : Event) : Guest :=
  let s := guest_slot (selected g) g in
  if negb (type e =? EV_ABS) then g
  else if code e =? ABS_MT_SLOT then mkGuest (value e) (guest_slots g)
  else if code e =? ABS_MT_TRACKING_ID then set_selected (mkSlot (value e) (pos_x s) (pos_y s)) g
  else if code e =? ABS_MT_POSITION_X then set_selected (mkSlot (tracking s) (value e) (pos_y s)) g
  else if code e =? ABS_MT_POSITION_Y then set_selected (mkSlot (tracking s) (pos_x s) (value e)) g
  else g.

Definition guest_run (es : list Event) (g : Guest) : Guest := foldl guest_event g es.

(** The contact in a slot, if there is one. *)
Definition contact (g : Guest) (i : Z) : option (Z * Z) :=
  let s := guest_slot i g in if tracking s <? 0 then None else Some (pos_x s, pos_y s).

Lemma guest_run_app es1 es2 g : guest_run (es1 ++ es2) g = guest_run es2 (guest_run es1 g).
Proof. apply foldl_app. Qed.

Lemma set_selected_same s g i : i = selected g -> guest_slot i (set_selected s g) = s.
Proof. intros ->. unfold guest_slot, set_selected. cbn. by rewrite lookup_insert_eq. Qed.

Lemma set_selected_other s g i : i <> selected g -> guest_slot i (set_selected s g) = guest_slot i g.
Proof. intros H. unfold guest_slot, set_selected. cbn. by rewrite lookup_insert_ne. Qed.

(** The three kinds of messages, in a selected slot. *)
Lemma guest_down i tr x y g :
  selected g = i -> 0 <= tr ->
  let g' := guest_run [ mkEvent EV_ABS ABS_MT_TRACKING_ID tr; mkEvent EV_ABS ABS_MT_POSITION_X x;
    mkEvent EV_ABS ABS_MT_POSITION_Y y; syn ] g in
  selected g' = i /\ guest_slot i g' = mkSlot tr x y /\
  forall j, j <> i -> guest_slot j g' = guest_slot j g.
Proof.
  intros <- Htr. cbn [guest_run foldl]. unfold guest_event. cbn -[set_selected guest_slot].
  rewrite !set_selected_same by done. cbn [tracking pos_x pos_y]. split; [done|]. split; [done|].
  intros j Hj. by rewrite !set_selected_other by done.
Qed.

Lemma guest_motion i x y g :
  selected g = i ->
  let g' := guest_run [ mkEvent EV_ABS ABS_MT_POSITION_X x; mkEvent EV_ABS ABS_MT_POSITION_Y y; syn ] g in
  selected g' = i /\ guest_slot i g' = mkSlot (tracking (guest_slot i g)) x y /\
  forall j, j <> i -> guest_slot j g' = guest_slot j g.
Proof.
  intros <-. cbn [guest_run foldl]. unfold guest_event. cbn -[set_selected guest_slot].
  rewrite !set_selected_same by done. cbn [tracking pos_x pos_y]. split; [done|]. split; [done|].
  intros j Hj. by rewrite !set_selected_other by done.
Qed.

Lemma guest_up i g :
  selected g = i ->
  let g' := guest_run [ mkEvent EV_ABS ABS_MT_TRACKING_ID (-1); syn ] g in
  selected g' = i /\ tracking (guest_slot i g') = -1 /\
  forall j, j <> i -> guest_slot j g' = guest_slot j g.
Proof.
  intros <-. cbn [guest_run foldl]. unfold guest_event. cbn -[set_selected guest_slot].
  rewrite !set_selected_same by done. split; [done|]. split; [done|].
  intros j Hj. by rewrite !set_selected_other by done.
Qed.

(** ** Fingers *)

Inductive FingerOp := Down (f x y : Z) | Up (f : Z) | Motion (f x y : Z).

Definition finger_op (o : FingerOp) (t : Touch) : Touch * list Event :=
  match o with
  | Down f x y => push_finger_down x y f t
  | Up f => push_finger_up f t
  | Motion f x y => push_finger_motion x y f t
  end.

(** The fingers that are told to the guest, and where they are: at most ten. *)
Definition fingers_step (o : FingerOp) (m : gmap Z (Z * Z)) : gmap Z (Z * Z) :=
  match o with
  | Down f x y => if Z.of_nat (size m) <? MAX_FINGERS then <[f := (x, y)]> m else m
  | Up f => delete f m
  | Motion f x y => match m !! f with Some _ => <[f := (x, y)]> m | None => m end
  end.

(** Ids are not negative, and a finger that is down does not come down. *)
Definition op_legal (o : FingerOp) (m : gmap Z (Z * Z)) : Prop :=
  match o with Down f _ _ => 0 <= f /\ m !! f = None | Up f | Motion f _ _ => 0 <= f end.

(** What an event of SDL means for the fingers. *)
Definition op_of (c : Configuration) (sdl : SDL_State) (e : SDL_Event) : option FingerOp :=
  match e with
  | MouseButtonDown x y =>
      if no_touch_emulation c then None
      else '(x, y) ← adjust_coordinates c sdl (x, y); Some (Down emulated_touch_id_ x y)
  | MouseButtonUp => if no_touch_emulation c then None else Some (Up emulated_touch_id_)
  | MouseMotion x y _ _ =>
      if no_touch_emulation c then None
      else '(x, y) ← adjust_coordinates c sdl (x, y); Some (Motion emulated_touch_id_ x y)
  | FingerDown id x y => '(x, y) ← adjust_coordinates c sdl (x, y); Some (Down (i32 id) x y)
  | FingerUp id => Some (Up (i32 id))
  | FingerMotion id x y => '(x, y) ← adjust_coordinates c sdl (x, y); Some (Motion (i32 id) x y)
  | _ => None
  end.

(** What the touch device is sent. *)
Definition touch_part (out : list (InputDevice * list Event)) : list Event :=
  concat (omap (fun p => match p with (TouchDevice, es) => Some es | _ => None end) out).

Lemma sent_to_touch_part (es ms ks : list Event) :
  touch_part (sent_to PointerDevice ms ++ sent_to KeyboardDevice ks ++ sent_to TouchDevice es) = es.
Proof. destruct ms, ks, es; cbn; by rewrite ?app_nil_r. Qed.

Lemma process_op c sdl e t :
  let '(t', out) := process_input_event c sdl e t in
  match op_of c sdl e with
  | Some o => t' = (finger_op o t).1 /\ touch_part out = (finger_op o t).2
  | None => t' = t /\ touch_part out = []
  end.
Proof.
  unfold process_input_event. destruct (collect_events c sdl e t) as [t' v] eqn:E.
  rewrite sent_to_touch_part. unfold collect_events, touching, key_event in E.
  destruct e; cbn [op_of]; try destruct (no_touch_emulation c);
    repeat match goal with
    | H : context [adjust_coordinates ?c ?s ?p] |- _ => destruct (adjust_coordinates c s p) as [[]|]
    | H : context [convert ?x =? ?y] |- _ => destruct (convert x =? y)
    end; by simplify_eq/=.
Qed.

(** ** The slots, the guest and the fingers agree *)

Record agrees (m : gmap Z (Z * Z)) (t : Touch) (g : Guest) : Prop := {
  ag_len : zlen (touch_slots t) = MAX_FINGERS;
  ag_last : last_slot t = -1 \/ selected g = last_slot t;
  ag_unique : forall i j f, f <> -1 ->
    zlookup (touch_slots t) i = Some f -> zlookup (touch_slots t) j = Some f -> i = j;
  ag_contact : forall i, contact g i = (f ← zlookup (touch_slots t) i; m !! f);
  ag_finger : forall f, is_Some (m !! f) -> 0 <= f /\ exists i, zlookup (touch_slots t) i = Some f;
  ag_slot : forall i f, zlookup (touch_slots t) i = Some f -> f <> -1 ->
    is_Some (m !! f) /\ tracking (guest_slot i g) = Z.rem f MAX_TRACKING_ID + 1
}.

Lemma find_slot_from_spec id slots : forall i0, 0 <= i0 ->
  let i := find_slot_from i0 slots id in
  (i = -1 /\ forall j, zlookup slots j <> Some id) \/
  (i0 <= i /\ zlookup slots (i - i0) = Some id).
Proof.
  induction slots as [|s slots IH]; intros i0 H0; cbv zeta; cbn [find_slot_from].
  - left. split; [done|]. intros j. unfold zlookup. by case_decide.
  - destruct (Z.eqb_spec s id) as [->|Hne].
    + right. split; [lia|]. by rewrite Z.sub_diag.
    + destruct (IH (i0 + 1)) as [[Hi Hno]|[Hi Hyes]]; [lia| |].
      * left. split; [done|]. intros j Hj. apply (Hno (j - 1)). unfold zlookup in *.
        case_decide; [|done]. destruct (decide (j = 0)) as [->|]; [by simplify_eq/=|].
        rewrite decide_True by lia. replace (Z.to_nat j) with (S (Z.to_nat (j - 1))) in Hj by lia.
        exact Hj.
      * right. split; [lia|]. unfold zlookup in *. case_decide; [|done].
        rewrite decide_True by lia.
        replace (Z.to_nat (find_slot_from (i0 + 1) slots id - i0))
          with (S (Z.to_nat (find_slot_from (i0 + 1) slots id - (i0 + 1)))) by lia. exact Hyes.
Qed.

Lemma zlookup_range {A} (l : list A) i x : zlookup l i = Some x -> 0 <= i < zlen l.
Proof.
  unfold zlookup, zlen. case_decide; [|done]. intros Hx. apply lookup_lt_Some in Hx. lia.
Qed.

Lemma find_touch_slot_spec id t :
  (find_touch_slot id t = -1 /\ forall j, zlookup (touch_slots t) j <> Some id) \/
  (0 <= find_touch_slot id t /\ zlookup (touch_slots t) (find_touch_slot id t) = Some id).
Proof.
  unfold find_touch_slot. pose proof (find_slot_from_spec id (touch_slots t) 0) as H.
  cbv zeta in H. rewrite Z.sub_0_r in H. apply H. lia.
Qed.

(** Distinct but for the free ones: no duplicates among the others. *)
Lemma NoDup_slots (l : list Z) :
  (forall i j f, f <> -1 -> zlookup l i = Some f -> zlookup l j = Some f -> i = j) ->
  NoDup (filter (fun f => f <> -1) l).
Proof.
  induction l as [|x l IH]; intros H; [constructor|].
  assert (IH' : NoDup (filter (fun f => f <> -1) l)).
  { apply IH. intros i j f Hf Hi Hj.
    assert (Hs : forall k, zlookup l k = Some f -> zlookup (x :: l) (k + 1) = Some f).
    { intros k Hk. apply zlookup_range in Hk as Hr. unfold zlookup in *.
      rewrite decide_True in Hk by lia. rewrite decide_True by lia. by replace (Z.to_nat (k + 1)) with (S (Z.to_nat k)) by lia. }
    specialize (H _ _ f Hf (Hs i Hi) (Hs j Hj)). lia. }
  destruct (decide (x = -1)) as [->|Hx]; [by rewrite filter_cons_False by tauto|].
  rewrite filter_cons_True by done. constructor; [|done].
  intros [_ Hin]%list_elem_of_filter. apply list_elem_of_lookup in Hin as [k Hk].
  assert (E : 0 = Z.of_nat (S k)); [|lia]. apply (H _ _ x Hx); [done|].
  unfold zlookup. rewrite decide_True by lia. by rewrite Nat2Z.id.
Qed.

Lemma agrees_size m t g : agrees m t g ->
  size m = length (filter (fun f => f <> -1) (touch_slots t)).
Proof.
  intros [Hlen _ Hu _ Hf Hs]. rewrite <- (size_dom (D := gset Z)).
  assert (dom m = list_to_set (filter (fun f => f <> -1) (touch_slots t)) :> gset Z) as ->.
  { apply set_eq. intros f. rewrite elem_of_dom, elem_of_list_to_set, list_elem_of_filter. split.
    - intros H. destruct (Hf f H) as [H0 [i Hi]]. split; [lia|].
      unfold zlookup in Hi. case_decide; [|done]. by eapply list_elem_of_lookup_2.
    - intros [Hne [k Hk]%list_elem_of_lookup]. apply (Hs (Z.of_nat k)); [|done].
      unfold zlookup. rewrite decide_True by lia. by rewrite Nat2Z.id. }
  apply size_list_to_set. by apply NoDup_slots.
Qed.

Lemma filter_all (l : list Z) : Forall (fun f => f <> -1) l -> filter (fun f => f <> -1) l = l.
Proof.
  induction 1 as [|f l Hf Hl IH]; [done|]. by rewrite filter_cons_True, IH.
Qed.

(** There is a free slot exactly when there are less than ten fingers. *)
Lemma agrees_free m t g : agrees m t g ->
  (Z.of_nat (size m) <? MAX_FINGERS) = negb (find_touch_slot (-1) t =? -1).
Proof.
  intros Ha. rewrite (agrees_size m t g Ha). pose proof (ag_len _ _ _ Ha) as Hlen.
  destruct (find_touch_slot_spec (-1) t) as [[-> Hno]|[H0 Hyes]].
  - rewrite filter_all.
    + unfold zlen in Hlen. rewrite Hlen. done.
    + apply Forall_lookup. intros k f Hk ->. apply (Hno (Z.of_nat k)).
      unfold zlookup. rewrite decide_True by lia. by rewrite Nat2Z.id.
  - rewrite (proj2 (Z.eqb_neq _ _)) by lia. cbn [negb]. apply Z.ltb_lt. unfold zlen in Hlen.
    assert (length (filter (fun f => f <> (-1)%Z) (touch_slots t)) < length (touch_slots t))%nat; [|lia].
    apply (length_filter_lt _ _ (-1)%Z); [|tauto].
    unfold zlookup in Hyes. case_decide; [|done]. by eapply list_elem_of_lookup_2.
Qed.

(** The slot of a message is selected, nothing else changes. *)
Lemma push_slot_ok t g i :
  (last_slot t = -1 \/ selected g = last_slot t) -> 0 <= i ->
  let '(t', es) := push_slot i t in
  touch_slots t' = touch_slots t /\ last_slot t' = i /\
  selected (guest_run es g) = i /\ forall j, guest_slot j (guest_run es g) = guest_slot j g.
Proof.
  intros Hlast Hi. unfold push_slot. destruct (Z.eqb_spec (last_slot t) i) as [Hl|Hl]; [|done].
  destruct Hlast as [Hm|Hs]; [lia|]. split_and!; try done. cbn. congruence.
Qed.

Lemma contact_same g g' i : guest_slot i g' = guest_slot i g -> contact g' i = contact g i.
Proof. unfold contact. by intros ->. Qed.

Lemma tracking_nonneg f : 0 <= f -> 0 <= Z.rem f MAX_TRACKING_ID + 1.
Proof. intros H. pose proof (Z.rem_bound_pos f MAX_TRACKING_ID). unfold MAX_TRACKING_ID in *. lia. Qed.

Lemma contact_at g i tr x y : guest_slot i g = mkSlot tr x y -> 0 <= tr -> contact g i = Some (x, y).
Proof. unfold contact. intros -> H. cbn. by rewrite (proj2 (Z.ltb_ge _ _)). Qed.

(** A finger in slot [i]: put there, moved, taken away. *)
Section update.
Context (m : gmap Z (Z * Z)) (t t' : Touch) (g g' : Guest) (i f x y : Z).
Hypothesis Ha : agrees m t g.
Hypothesis Hf : 0 <= f.
Hypothesis Hlast : last_slot t' = i.
Hypothesis Hsel : selected g' = i.
Hypothesis Hother : forall j, j <> i -> guest_slot j g' = guest_slot j g.

Lemma agrees_put :
  zlookup (touch_slots t) i = Some (-1) -> m !! f = None ->
  touch_slots t' = zinsert i f (touch_slots t) ->
  guest_slot i g' = mkSlot (Z.rem f MAX_TRACKING_ID + 1) x y ->
  agrees (<[f := (x, y)]> m) t' g'.
Proof.
  intros Hfree Hnew Hslots Hs. destruct Ha as [Hlen _ Hu Hc Hm Ho].
  pose proof (zlookup_range _ _ _ Hfree) as Hr.
  assert (Hi : zlookup (touch_slots t') i = Some f) by (rewrite Hslots; by apply zlookup_zinsert_eq).
  assert (Hj : forall j, j <> i -> zlookup (touch_slots t') j = zlookup (touch_slots t) j)
    by (intros j Hne; rewrite Hslots; by apply zlookup_zinsert_ne).
  assert (Hnof : forall j, zlookup (touch_slots t) j <> Some f).
  { intros j E. destruct (Ho j f E) as [[p Hp] _]; [lia|congruence]. }
  split.
  - rewrite Hslots, zlen_zinsert. done.
  - right. congruence.
  - intros j k f' Hf' E1 E2. destruct (decide (j = i)) as [Ej|Ej], (decide (k = i)) as [Ek|Ek].
    + congruence.
    + exfalso. apply (Hnof k). rewrite (Hj k Ek) in E2. congruence.
    + exfalso. apply (Hnof j). rewrite (Hj j Ej) in E1. congruence.
    + rewrite (Hj j Ej) in E1. rewrite (Hj k Ek) in E2. eapply Hu; eassumption.
  - intros j. destruct (decide (j = i)) as [->|Hne].
    + rewrite Hi. cbn. rewrite lookup_insert_eq. eapply contact_at; [done|].
      by apply tracking_nonneg.
    + rewrite Hj by done. rewrite (contact_same g g') by auto. rewrite Hc.
      destruct (zlookup (touch_slots t) j) as [f'|] eqn:E; [|done]. cbn.
      rewrite lookup_insert_ne; [done|]. intros ->. eapply Hnof; eassumption.
  - intros f' [p Hp]. destruct (decide (f' = f)) as [->|Hne]; [split; [done|by exists i]|].
    rewrite lookup_insert_ne in Hp by done. destruct (Hm f') as [H0 [j E]]; [by exists p|].
    split; [done|]. exists j. rewrite Hj; [done|]. intros ->. rewrite Hfree in E. simplify_eq.
  - intros j f' E Hf'. destruct (decide (j = i)) as [->|Hne].
    + rewrite Hi in E. simplify_eq. rewrite lookup_insert_eq, Hs. by split; [eexists|].
    + rewrite Hj in E by done. rewrite Hother by done. destruct (Ho j f' E Hf') as [[p Hp] Ht].
      split; [|done]. rewrite lookup_insert_ne; [by exists p|]. intros ->. eapply Hnof; eassumption.
Qed.

Lemma agrees_move :
  zlookup (touch_slots t) i = Some f ->
  touch_slots t' = touch_slots t ->
  guest_slot i g' = mkSlot (tracking (guest_slot i g)) x y ->
  agrees (<[f := (x, y)]> m) t' g'.
Proof.
  intros Hi Hslots Hs. destruct Ha as [Hlen _ Hu Hc Hm Ho].
  destruct (Ho i f Hi) as [_ Htr]; [lia|]. split; rewrite ?Hslots; try done.
  - right. congruence.
  - intros j. destruct (decide (j = i)) as [->|Hne].
    + rewrite Hi. cbn. rewrite lookup_insert_eq. eapply contact_at; [done|].
      rewrite Htr. by apply tracking_nonneg.
    + rewrite (contact_same g g') by auto. rewrite Hc.
      destruct (zlookup (touch_slots t) j) as [f'|] eqn:E; [|done]. cbn.
      rewrite lookup_insert_ne; [done|]. intros ->. apply Hne. eapply Hu; [|done..]. lia.
  - intros f' [p Hp]. destruct (decide (f' = f)) as [->|Hne]; [split; [done|by exists i]|].
    rewrite lookup_insert_ne in Hp by done. apply Hm. by exists p.
  - intros j f' E Hf'. destruct (Ho j f' E Hf') as [[p Hp] Ht]. split.
    + destruct (decide (f' = f)) as [->|]; [rewrite lookup_insert_eq; eauto|].
      rewrite lookup_insert_ne by done. eauto.
    + destruct (decide (j = i)) as [->|]; [by rewrite Hs|]. by rewrite Hother.
Qed.

Lemma agrees_remove :
  zlookup (touch_slots t) i = Some f ->
  touch_slots t' = zinsert i (-1) (touch_slots t) ->
  tracking (guest_slot i g') = -1 ->
  agrees (delete f m) t' g'.
Proof.
  intros Hold Hslots Hs. destruct Ha as [Hlen _ Hu Hc Hm Ho].
  pose proof (zlookup_range _ _ _ Hold) as Hr.
  assert (Hi : zlookup (touch_slots t') i = Some (-1)) by (rewrite Hslots; by apply zlookup_zinsert_eq).
  assert (Hj : forall j, j <> i -> zlookup (touch_slots t') j = zlookup (touch_slots t) j)
    by (intros j Hne; rewrite Hslots; by apply zlookup_zinsert_ne).
  assert (Hnof : forall j f', j <> i -> zlookup (touch_slots t) j = Some f' -> f' <> f).
  { intros j f' Hne E ->. apply Hne. eapply Hu; [|done..]. lia. }
  split.
  - rewrite Hslots, zlen_zinsert. done.
  - right. congruence.
  - intros j k f' Hf' E1 E2. destruct (decide (j = i)) as [->|Ej]; [congruence|].
    destruct (decide (k = i)) as [->|Ek]; [congruence|].
    rewrite (Hj j Ej) in E1. rewrite (Hj k Ek) in E2. eapply Hu; eassumption.
  - intros j. destruct (decide (j = i)) as [->|Hne].
    + rewrite Hi. unfold contact. rewrite Hs. cbn. symmetry.
      apply eq_None_not_Some. intros [p [Hp1 Hp2]%lookup_delete_Some]. 
      destruct (Hm (-1)) as [H0 _]; [by exists p|lia].
    + rewrite Hj by done. rewrite (contact_same g g') by auto. rewrite Hc.
      destruct (zlookup (touch_slots t) j) as [f'|] eqn:E; [|done]. cbn.
      rewrite lookup_delete_ne; [done|]. intros <-. eapply Hnof; [| |reflexivity]; eassumption.
  - intros f' [p [Hne Hp]%lookup_delete_Some]. destruct (Hm f') as [H0 [j E]]; [by exists p|].
    split; [done|]. exists j. rewrite Hj; [done|]. intros ->. congruence.
  - intros j f' E Hf'. destruct (decide (j = i)) as [->|Hne]; [congruence|].
    rewrite Hj in E by done. rewrite Hother by done. destruct (Ho j f' E Hf') as [[p Hp] Ht].
    split; [|done]. exists p. apply lookup_delete_Some. split; [|done].
    intros <-. eapply Hnof; [| |reflexivity]; eassumption.
Qed.
End update.

Lemma step_agrees m t g o :
  agrees m t g -> op_legal o m ->
  let '(t', es) := finger_op o t in agrees (fingers_step o m) t' (guest_run es g).
Proof.
  intros Ha Hl. pose proof (ag_last _ _ _ Ha) as Hlast.
  destruct o as [f x y|f|f x y]; cbn [finger_op fingers_step].
  - destruct Hl as [Hf Hnew]. unfold push_finger_down. rewrite (agrees_free m t g Ha).
    destruct (find_touch_slot_spec (-1) t) as [[-> Hno]|[H0 Hyes]]; [done|].
    set (i := find_touch_slot (-1) t) in *. rewrite (proj2 (Z.eqb_neq i (-1))) by lia. cbn [negb].
    pose proof (push_slot_ok (set_slot i f t) g i Hlast H0) as Hp.
    destruct (push_slot i (set_slot i f t)) as [t' es]. destruct Hp as (Hslots & Hl' & Hsel & Hsame).
    rewrite guest_run_app.
    destruct (guest_down i _ x y _ Hsel (tracking_nonneg f Hf)) as (Hsel' & Hslot & Hother).
    eapply agrees_put; try done. intros j Hj. by rewrite Hother.
  - unfold push_finger_up. destruct (find_touch_slot_spec f t) as [[-> Hno]|[H0 Hyes]].
    + cbn. rewrite delete_id; [done|]. apply eq_None_not_Some. intros Hs.
      destruct (ag_finger _ _ _ Ha f Hs) as [_ [j E]]. by eapply Hno.
    + set (i := find_touch_slot f t) in *. rewrite (proj2 (Z.eqb_neq i (-1))) by lia.
      pose proof (push_slot_ok t g i Hlast H0) as Hp.
      destruct (push_slot i t) as [t' es]. destruct Hp as (Hslots & Hl' & Hsel & Hsame).
      rewrite guest_run_app. destruct (guest_up i _ Hsel) as (Hsel' & Hslot & Hother).
      eapply agrees_remove; try done; [|by cbn; rewrite Hslots].
      intros j Hj. by rewrite Hother.
  - unfold push_finger_motion. destruct (find_touch_slot_spec f t) as [[-> Hno]|[H0 Hyes]].
    + cbn. destruct (m !! f) eqn:E; [|done].
      destruct (ag_finger _ _ _ Ha f) as [_ [j Ej]]; [by eexists|]. by exfalso; eapply Hno.
    + set (i := find_touch_slot f t) in *. rewrite (proj2 (Z.eqb_neq i (-1))) by lia.
      pose proof (push_slot_ok t g i Hlast H0) as Hp.
      destruct (push_slot i t) as [t' es]. destruct Hp as (Hslots & Hl' & Hsel & Hsame).
      rewrite guest_run_app. destruct (guest_motion i x y _ Hsel) as (Hsel' & Hslot & Hother).
      destruct (ag_slot _ _ _ Ha i f Hyes) as [[p ->] _]; [cbn in Hl; lia|].
      eapply agrees_move; try done; [by intros j Hj; rewrite Hother|]. rewrite Hslot. by rewrite Hsame.
Qed.

(** ** Whole histories *)

Definition Input_History : Type := list (SDL_State * SDL_Event).

(** The touch device's events, one batch per event of SDL. *)
Fixpoint touch_run (c : Configuration) (es : Input_History) (t : Touch) : Touch * list Event :=
  match es with
  | [] => (t, [])
  | (sdl, e) :: es =>
      let '(t, out) := process_input_event c sdl e t in
      let '(t, events) := touch_run c es t in
      (t, touch_part out ++ events)
  end.

Definition fingers_op (o : option FingerOp) (m : gmap Z (Z * Z)) : gmap Z (Z * Z) :=
  match o with Some o => fingers_step o m | None => m end.

Fixpoint fingers_run (c : Configuration) (es : Input_History) (m : gmap Z (Z * Z)) : gmap Z (Z * Z) :=
  match es with
  | [] => m
  | (sdl, e) :: es => fingers_run c es (fingers_op (op_of c sdl e) m)
  end.

Fixpoint history_legal (c : Configuration) (es : Input_History) (m : gmap Z (Z * Z)) : Prop :=
  match es with
  | [] => True
  | (sdl, e) :: es =>
      match op_of c sdl e with Some o => op_legal o m | None => True end /\
      history_legal c es (fingers_op (op_of c sdl e) m)
  end.

Lemma touch_run_agrees c es : forall m t g,
  agrees m t g -> history_legal c es m ->
  let '(t', events) := touch_run c es t in agrees (fingers_run c es m) t' (guest_run events g).
Proof.
  induction es as [|[sdl e] es IH]; intros m t g Ha Hl; [done|].
  destruct Hl as [Hop Hl]. cbn [touch_run fingers_run]. pose proof (process_op c sdl e t) as Hp.
  destruct (process_input_event c sdl e t) as [t1 out].
  assert (Ha1 : agrees (fingers_op (op_of c sdl e) m) t1 (guest_run (touch_part out) g)).
  { destruct (op_of c sdl e) as [o|]; destruct Hp as [-> ->]; [|done].
    pose proof (step_agrees m t g o Ha Hop) as Hs. by destruct (finger_op o t). }
  specialize (IH _ _ _ Ha1 Hl). destruct (touch_run c es t1) as [t2 events].
  by rewrite guest_run_app.
Qed.

Lemma touch_new_agrees : agrees ∅ touch_new guest_new.
Proof.
  assert (Hfree : forall i f, zlookup (touch_slots touch_new) i = Some f -> f = -1).
  { intros i f. unfold zlookup. case_decide; [|done]. intros [-> _]%lookup_replicate. done. }
  split.
  - done.
  - by left.
  - intros i j f Hf Hi. by apply Hfree in Hi.
  - intros i. unfold contact, guest_slot. cbn. rewrite lookup_empty. cbn.
    destruct (zlookup _ i); by rewrite ?lookup_empty.
  - intros f. rewrite lookup_empty. by intros [].
  - intros i f Hi Hf. by apply Hfree in Hi.
Qed.

(** C13: after any events of SDL a guest that follows the multi-touch protocol has a contact
    in a slot exactly when the platform keeps a finger there, at the place where that
    finger was last; every finger that is down is in one slot, the first ten of them: an
    eleventh is not told to the guest until one of them goes up and it comes down again.
    The tracking ids are 1 to 10: fingers whose ids agree modulo ten have the same. *)
Theorem touch_protocol c es :
  history_legal c es ∅ ->
  let '(t, events) := touch_run c es touch_new in
  let guest := guest_run events guest_new in
  let fingers := fingers_run c es ∅ in
  (forall i, contact guest i = (f ← zlookup (touch_slots t) i; fingers !! f)) /\
  (forall f, is_Some (fingers !! f) -> exists i, zlookup (touch_slots t) i = Some f /\
    (forall j, zlookup (touch_slots t) j = Some f -> j = i) /\
    tracking (guest_slot i guest) = f mod 10 + 1) /\
  Z.of_nat (size fingers) <= MAX_FINGERS /\
  zlen (touch_slots t) = MAX_FINGERS.
Proof.
  intros Hl. pose proof (touch_run_agrees c es _ _ _ touch_new_agrees Hl) as Ha.
  destruct (touch_run c es touch_new) as [t events]. cbv zeta.
  split_and!.
  - apply Ha.
  - intros f Hf. destruct (ag_finger _ _ _ Ha f Hf) as [H0 [i Hi]]. exists i. split; [done|].
    split; [intros j Hj; eapply (ag_unique _ _ _ Ha); [|done..]; lia|].
    destruct (ag_slot _ _ _ Ha i f Hi) as [_ ->]; [lia|].
    unfold MAX_TRACKING_ID. rewrite Z.rem_mod_nonneg by lia. done.
  - rewrite (agrees_size _ _ _ Ha). rewrite <- (ag_len _ _ _ Ha). unfold zlen.
    pose proof (length_filter (fun f => f <> -1) (touch_slots t)). lia.
  - apply Ha.
Qed.

Definition desktop : SDL_State := mkSDL (Some (100, 50)) (0, 0).

(** Two fingers, the first moves, the second goes; the mouse is a finger, too. *)
Lemma touch_protocol_witness :
  let es := (pair desktop) <$>
    [FingerDown 5 1 2; FingerDown 15 3 4; FingerMotion 5 10 20; MouseButtonDown 7 7; FingerUp 15] in
  let guest := guest_run (touch_run (mkConfiguration false false) es touch_new).2 guest_new in
  contact guest 0 = Some (110, 70) /\ contact guest 1 = None /\ contact guest 2 = Some (107, 57).
Proof.
  intros es. set (c := mkConfiguration false false).
  assert (Hl : history_legal c es ∅) by (repeat split; by vm_compute).
  pose proof (touch_protocol c es Hl) as H. intros guest. unfold guest.
  assert (Ht : touch_slots (touch_run c es touch_new).1 = [5; -1; 0; -1; -1; -1; -1; -1; -1; -1])
    by (by vm_compute).
  destruct (touch_run c es touch_new) as [t events]. cbn [fst snd] in *.
  destruct H as [H _]. rewrite !H, !Ht. by vm_compute.
Defined.

(** Two fingers with one tracking id. *)
Lemma tracking_id_clash :
  let guest := guest_run (touch_run (mkConfiguration false true)
    ((pair desktop) <$> [FingerDown 3 1 1; FingerDown 13 2 2]) touch_new).2 guest_new in
  tracking (guest_slot 0 guest) = 4 /\ tracking (guest_slot 1 guest) = 4.
Proof. by vm_compute. Qed.

(** ** Keys *)

Lemma convert_from_spec sc map : forall n,
  (convert_from n map sc = KEY_RESERVED /\ sc ∉ map) \/
  (n <= convert_from n map sc /\ map !! Z.to_nat (convert_from n map sc - n) = Some sc).
Proof.
  induction map as [|c map IH]; intros n; [left; split; [done|apply not_elem_of_nil]|].
  cbn [convert_from]. destruct (String.eqb_spec c sc) as [->|Hne].
  - right. split; [lia|]. by rewrite Z.sub_diag.
  - destruct (IH (n + 1)) as [[H1 H2]|[H1 H2]]; [left|right].
    + split; [done|]. rewrite not_elem_of_cons. split; [congruence|done].
    + split; [lia|].
      replace (Z.to_nat (convert_from (n + 1) map sc - n))
        with (S (Z.to_nat (convert_from (n + 1) map sc - (n + 1)))) by lia. done.
Qed.

(** A key that is sent has its scan code in the table, so no two scan codes are one key;
    a scan code that is not there, or stands for none, sends nothing. *)
Lemma convert_injective sc sc' :
  convert sc <> KEY_RESERVED -> convert sc = convert sc' -> sc = sc'.
Proof.
  unfold convert. intros Hne E.
  destruct (convert_from_spec sc code_map 0) as [[? _]|[_ H1]]; [done|].
  destruct (convert_from_spec sc' code_map 0) as [[? _]|[_ H2]]; [congruence|].
  rewrite E in H1. congruence.
Qed.

Lemma convert_unknown : convert "UNKNOWN" = KEY_RESERVED /\ convert "SDL_NONE" = KEY_RESERVED.
Proof. by vm_compute. Qed.

(** Keys behind a second entry for the same scan code are never sent. *)
Lemma key_unreachable sc : ~ In (convert sc) [93; 118; 121; 149; 182].
Proof.
  intros Hin. destruct (convert_from_spec sc code_map 0) as [[H _]|[_ H]]; fold (convert sc) in H.
  - rewrite H in Hin. cbn in Hin. by repeat destruct Hin as [Hin|Hin].
  - assert (E : convert sc = convert sc) by done. revert E. generalize (convert sc) at 1 as k.
    intros k E. rewrite <- E in H, Hin. cbn in Hin.
    repeat destruct Hin as [<-|Hin]; try done; revert H; vm_compute (_ !! _); intros [= <-];
      revert E; by vm_compute.
Qed.
