(* ===== verification/Calls.v ===== *)
(** * Calls to the Android side

    [AndroidApiStub] (src/src/anbox/bridge/android_api_stub.{h,cpp}) makes four kinds of
    calls, each over one [WaitHandle] (common/wait_handle.{h,cpp}) that all calls of the
    kind share, and gives up waiting after thirty seconds.  A wait is one look at the
    handle under its mutex: it is over, or the caller sleeps.  Several threads may call
    at the same time; a response, a failed send and the end of a caller's patience come
    in any order.  The first part is about the messages, the second about the calls. *)

From S2P Require Import Prelude Rect WindowManager.

(** ** WaitHandle *)

Record WaitHandle := mkHandle { expecting : Z; received : Z }.

Definition handle_new : WaitHandle := mkHandle 0 0.

Definition expect_result (h : WaitHandle) : WaitHandle := mkHandle (expecting h + 1) (received h).
Definition result_received (h : WaitHandle) : WaitHandle := mkHandle (expecting h) (received h + 1).

(** [None]: the caller sleeps. *)
Definition wait_for_all (h : WaitHandle) : option WaitHandle :=
  if received h =? expecting h then Some (mkHandle 0 0) else None.

(** The handle stays as it is; [expired]: the time is over. *)
Definition wait_for_pending (expired : bool) (h : WaitHandle) : option WaitHandle :=
  if (received h =? expecting h) || expired then Some h else None.

Definition wait_for_one (h : WaitHandle) : option WaitHandle :=
  if received h =? 0 then None else Some (mkHandle (expecting h - 1) (received h - 1)).

Definition has_result (h : WaitHandle) : bool := 0 <? received h.
Definition is_pending (h : WaitHandle) : bool := (0 <? expecting h) && negb (received h =? expecting h).

(** ** Intents and messages *)

Record Intent := mkIntent {
  action : string;
  uri : string;
  intent_type : string;
  flags : Z;
  package : string;
  component : string;
  categories : list string
}.

Definition is_empty (s : string) : bool := String.eqb s "".

(** [Intent::valid]. *)
Definition intent_valid (i : Intent) : bool := negb (is_empty (component i) && is_empty (package i)).

(** The stream operator. *)
Definition intent_print (to_string : Z -> string) (i : Intent) : string :=
  let field (name value : string) :=
    if is_empty value then ""%string else String.concat "" [" "; name; "="; value; " "]%string in
  String.concat "" (
    [ "["%string; field "action" (action i); field "uri" (uri i); field "type" (intent_type i);
      (if 0 <? flags i then String.concat "" [" flags="%string; to_string (flags i); " "%string]
       else ""%string);
      field "package" (package i);
      (if is_empty (component i) then ""%string
       else String.concat "" ["component="%string; component i; " "%string]) ] ++
    (match categories i with
     | [] => []
     | cs => ["categories=[ "%string] ++ ((fun c => String.append c " ") <$> cs) ++ ["] "%string]
     end) ++ ["]"%string]).

(** Optional fields of a protobuf message. *)
Record IntentMessage := mkIntentMessage {
  m_action : option string;
  m_uri : option string;
  m_type : option string;
  m_package : option string;
  m_component : option string;
  m_categories : list string
}.

Inductive Message :=
  | LaunchApplication (stack : option StackId) (bounds : option Rect) (intent : IntentMessage)
  | SetFocusedTask (id : Z)
  | RemoveTask (id : Z)
  | ResizeTask (id resize_mode : Z) (rect : Rect).

Definition set_if_not_empty (s : string) : option string := if is_empty s then None else Some s.

Definition intent_message (i : Intent) : IntentMessage :=
  mkIntentMessage (set_if_not_empty (action i)) (set_if_not_empty (uri i))
    (set_if_not_empty (intent_type i)) (set_if_not_empty (package i))
    (set_if_not_empty (component i)) (categories i).

(** The member [launch_bounds_], which nothing assigns to. *)
Definition launch_bounds_ : Rect := Invalid.

Definition launch_message (intent : Intent) (launch_bounds : Rect) (stack : StackId) : Message :=
  LaunchApplication
    (match stack with Stack_Invalid => None | s => Some s end)
    (if decide (launch_bounds = Invalid) then None
     else Some (mkRect (left launch_bounds_) (top launch_bounds_) (right launch_bounds_)
       (bottom launch_bounds_)))
    (intent_message intent).

Definition resize_task_message (id : Z) (rect : Rect) (resize_mode : Z) : Message :=
  ResizeTask id resize_mode (mkRect (left rect) (top rect) (right rect) (bottom rect)).

(** The bounds asked for are not the ones sent. *)
Lemma launch_bounds_lost i b s :
  b <> Invalid -> exists s', launch_message i b s = LaunchApplication s' (Some Invalid) (intent_message i).
Proof. intros H. unfold launch_message. rewrite decide_False by done. eauto. Qed.

(** ** The stub *)

(** One handle for each kind of call. *)
Inductive Kind := Launch | SetFocused | Remove | Resize.

Global Instance kind_eq_dec : EqDecision Kind.
Proof. solve_decision. Defined.

Definition kind_of (m : Message) : Kind :=
  match m with
  | LaunchApplication _ _ _ => Launch
  | SetFocusedTask _ => SetFocused
  | RemoveTask _ => Remove
  | ResizeTask _ _ _ => Resize
  end.

Definition method_of (k : Kind) : string :=
  match k with
  | Launch => "launch_application"
  | SetFocused => "set_focused_task"
  | Remove => "remove_task"
  | Resize => "resize_task"
  end.

(** How a call was completed: by a response, with its error if it has one, or without
    one when the connection broke. *)
Inductive Completion := Reply (error : option string) | Broken.

(** A call that was made.  [waiting]: its caller is in the function, and the [Request]
    with the response object is alive; afterwards both are destroyed. *)
Record Call := mkCall {
  call_kind : Kind;
  completion : option Completion;
  waiting : bool
}.

Record Stub := mkStub {
  channel_ : bool;
  handles : Kind -> WaitHandle;
  calls : list Call
}.

Definition stub_new : Stub := mkStub false (fun _ => handle_new) [].

Definition set_rpc_channel (s : Stub) : Stub := mkStub true (handles s) (calls s).
Definition reset_rpc_channel (s : Stub) : Stub := mkStub false (handles s) (calls s).

Definition update_handle (k : Kind) (f : WaitHandle -> WaitHandle) (hs : Kind -> WaitHandle) :
    Kind -> WaitHandle :=
  fun k' => if decide (k' = k) then f (hs k') else hs k'.

(** [application_launched] and the three others, run by the closure. *)
Definition call_completed (k : Kind) : (Kind -> WaitHandle) -> (Kind -> WaitHandle) :=
  update_handle k result_received.

(** [PendingCallCache::force_completion]: the closure of every call still pending. *)
Fixpoint complete_all (cs : list Call) (hs : Kind -> WaitHandle) :
    list Call * (Kind -> WaitHandle) :=
  match cs with
  | [] => ([], hs)
  | c :: cs =>
      match completion c with
      | Some _ => let '(cs, hs) := complete_all cs hs in (c :: cs, hs)
      | None =>
          let '(cs, hs) := complete_all cs (call_completed (call_kind c) hs) in
          (mkCall (call_kind c) (Some Broken) (waiting c) :: cs, hs)
      end
  end.

(** The beginning of a call, up to the wait; [sent]: the channel could send it.  The
    number of the call, or the exception ([None]). *)
Definition begin_call (k : Kind) (sent : bool) (s : Stub) : option nat * Stub :=
  if negb (channel_ s) then (None, s)
  else
    let hs := update_handle k expect_result (handles s) in
    if sent then
      (Some (length (calls s)), mkStub (channel_ s) hs (calls s ++ [mkCall k None true]))
    else
      let '(cs, hs) := complete_all (calls s ++ [mkCall k None false]) hs in
      (None, mkStub (channel_ s) hs cs).

(** The four calls up to the wait: the number of the call, and what went to the channel,
    if there is one. *)
Definition stub_call (m : Message) (sent : bool) (s : Stub) :
    option nat * option (string * Message) * Stub :=
  let '(n, s') := begin_call (kind_of m) sent s in
  (n, if channel_ s then Some (method_of (kind_of m), m) else None, s').

Lemma stub_call_state m sent s : (stub_call m sent s).2 = (begin_call (kind_of m) sent s).2.
Proof. unfold stub_call. by destruct (begin_call (kind_of m) sent s). Qed.

Definition stub_launch (intent : Intent) (launch_bounds : Rect) (stack : StackId) :=
  stub_call (launch_message intent launch_bounds stack).

(** [RestrictedManager::launch] (application/manager.h), over the stub: a stack of its own
    replaces the caller's. *)
Definition restricted_launch (launch_stack : StackId) (intent : Intent) (launch_bounds : Rect)
    (stack : StackId) :=
  stub_launch intent launch_bounds
    (if decide (launch_stack <> Stack_Invalid) then launch_stack else stack).

Definition stub_set_focused_task (id : Z) := stub_call (SetFocusedTask id).
Definition stub_remove_task (id : Z) := stub_call (RemoveTask id).
Definition stub_resize_task (id : Z) (rect : Rect) (resize_mode : Z) :=
  stub_call (resize_task_message id rect resize_mode).

(** A response to call [i]: written into its response object, then the closure.  The
    flag: that object is no longer there. *)
Definition respond (i : nat) (error : option string) (s : Stub) : option (bool * Stub) :=
  c ← calls s !! i;
  match completion c with
  | Some _ => None
  | None =>
      Some (negb (waiting c),
        mkStub (channel_ s) (call_completed (call_kind c) (handles s))
          (<[i := mkCall (call_kind c) (Some (Reply error)) (waiting c)]> (calls s)))
  end.

Inductive Outcome := Returned | ThrewTimeout | ThrewError (error : string).

(** The rest of a call, from the wait on; [None]: the caller sleeps. *)
Definition end_call (i : nat) (expired : bool) (s : Stub) : option (Outcome * Stub) :=
  c ← calls s !! i;
  if negb (waiting c) then None
  else
    h ← wait_for_pending expired (handles s (call_kind c));
    let s := mkStub (channel_ s) (handles s)
      (<[i := mkCall (call_kind c) (completion c) false]> (calls s)) in
    Some (if negb (has_result h) then ThrewTimeout
          else match completion c with Some (Reply (Some e)) => ThrewError e | _ => Returned end,
          s).

Inductive stub_step : Stub -> Stub -> Prop :=
  | step_channel s b : stub_step s (mkStub b (handles s) (calls s))
  | step_begin s m sent : stub_step s (stub_call m sent s).2
  | step_respond s i error dangling s' :
      respond i error s = Some (dangling, s') -> stub_step s s'
  | step_end s i expired o s' : end_call i expired s = Some (o, s') -> stub_step s s'.

(** ** Counting calls *)

Fixpoint count (p : Call -> bool) (cs : list Call) : Z :=
  match cs with [] => 0 | c :: cs => Z.b2z (p c) + count p cs end.

Definition of_kind (k : Kind) (c : Call) : bool := bool_decide (call_kind c = k).
Definition is_completed (c : Call) : bool := bool_decide (completion c <> None).
Definition completed (k : Kind) (c : Call) : bool := of_kind k c && is_completed c.

Lemma count_app p cs1 cs2 : count p (cs1 ++ cs2) = count p cs1 + count p cs2.
Proof. induction cs1 as [|c cs1 IH]; cbn [count app]; lia. Qed.

Lemma count_insert p cs i c c' : cs !! i = Some c ->
  count p (<[i := c']> cs) = count p cs - Z.b2z (p c) + Z.b2z (p c').
Proof.
  revert i. induction cs as [|c0 cs IH]; intros [|i] Hi; try done; cbn in Hi.
  - simplify_eq. cbn. lia.
  - change (<[S i := c']> (c0 :: cs)) with (c0 :: <[i := c']> cs). cbn [count].
    rewrite (IH i Hi). lia.
Qed.

Lemma count_le p q cs : (forall c, p c = true -> q c = true) -> count p cs <= count q cs.
Proof.
  intros H. induction cs as [|c cs IH]; cbn [count]; [lia|]. specialize (H c).
  destruct (p c); [rewrite H by done|destruct (q c)]; cbn [Z.b2z]; lia.
Qed.

Lemma count_eq p q cs : (forall c, p c = true -> q c = true) ->
  count p cs = count q cs <-> (forall c, c ∈ cs -> q c = true -> p c = true).
Proof.
  intros H. induction cs as [|c cs IH]; cbn [count].
  - split; [|done]. intros _ c. by rewrite elem_of_nil.
  - pose proof (count_le p q cs H) as Hle. pose proof (H c) as Hc. split.
    + intros E c' [->|Hin]%elem_of_cons Hq.
      * destruct (p c) eqn:Ep; [done|]. rewrite Hq in E. cbn [Z.b2z] in E. lia.
      * apply IH; [|done..]. destruct (p c); [rewrite Hc in E by done|destruct (q c)];
          cbn [Z.b2z] in E; lia.
    + intros Hall. assert (Hpq : p c = q c).
      { destruct (q c) eqn:Eq; [|destruct (p c); [by discriminate Hc|done]].
        apply Hall; [apply elem_of_cons; by left|done]. }
      rewrite Hpq. f_equal. apply IH. intros c' Hin. apply Hall. apply elem_of_cons. by right.
Qed.

Lemma count_pos p cs : 0 < count p cs <-> exists c, c ∈ cs /\ p c = true.
Proof.
  induction cs as [|c cs IH]; cbn [count].
  - split; [lia|]. intros (c & Hin & _). by apply elem_of_nil in Hin.
  - assert (0 <= count p cs).
    { clear. induction cs as [|c cs IH]; cbn [count]; [lia|]. destruct (p c); cbn [Z.b2z]; lia. }
    split.
    + intros Hpos. destruct (p c) eqn:E; [exists c; split; [apply elem_of_cons; by left|done]|].
      cbn [Z.b2z] in Hpos. destruct (proj1 IH) as (c' & Hin & Hc'); [lia|].
      exists c'. split; [apply elem_of_cons; by right|done].
    + intros (c' & [->|Hin]%elem_of_cons & Hc'); [rewrite Hc'; cbn [Z.b2z]; lia|].
      assert (0 < count p cs) by (apply IH; eauto). destruct (p c); cbn [Z.b2z]; lia.
Qed.

Lemma handle_eq a b a' b' : a = a' -> b = b' -> mkHandle a b = mkHandle a' b'.
Proof. by intros -> ->. Qed.

(** Two handles with the same numbers. *)
Ltac same_handle :=
  unfold expect_result, result_received; cbn [expecting received Z.b2z]; apply handle_eq; lia.

Lemma of_kind_true k c : call_kind c = k -> of_kind k c = true.
Proof. intros H. by apply bool_decide_eq_true. Qed.

Lemma of_kind_false k c : k <> call_kind c -> of_kind k c = false.
Proof. intros H. apply bool_decide_eq_false. congruence. Qed.

Lemma completed_some k c a : completion c = Some a -> completed k c = of_kind k c.
Proof.
  intros H. unfold completed, is_completed. rewrite H, bool_decide_eq_true_2 by done. apply andb_true_r.
Qed.

Lemma completed_none k c : completion c = None -> completed k c = false.
Proof.
  intros H. unfold completed, is_completed. rewrite H, bool_decide_eq_false_2 by tauto. apply andb_false_r.
Qed.

(** A handle expects the calls of its kind and received the completed ones. *)
Definition counted (s : Stub) : Prop :=
  forall k, handles s k = mkHandle (count (of_kind k) (calls s)) (count (completed k) (calls s)).

Lemma update_handle_eq k f hs : update_handle k f hs k = f (hs k).
Proof. unfold update_handle. by rewrite decide_True. Qed.

Lemma update_handle_ne k k' f hs : k' <> k -> update_handle k f hs k' = hs k'.
Proof. intros H. unfold update_handle. by rewrite decide_False. Qed.

Lemma complete_all_ok cs : forall hs,
  let '(cs', hs') := complete_all cs hs in
  (forall k, count (of_kind k) cs' = count (of_kind k) cs /\
    count (completed k) cs' = count (of_kind k) cs /\
    hs' k = mkHandle (expecting (hs k))
      (received (hs k) + (count (of_kind k) cs - count (completed k) cs))) /\
  length cs' = length cs.
Proof.
  induction cs as [|c cs IH]; intros hs.
  { cbn. split; [|done]. intros k. split_and!; try done. destruct (hs k). cbn. f_equal. lia. }
  cbn [complete_all]. destruct (completion c) as [a|] eqn:Ec.
  - specialize (IH hs). destruct (complete_all cs hs) as [cs' hs']. destruct IH as [IH Hlen].
    split; [|by cbn; rewrite Hlen]. intros k. destruct (IH k) as (H1 & H2 & H3). cbn [count].
    rewrite (completed_some k c a Ec), H1, H2, H3. split_and!; try done. same_handle.
  - specialize (IH (call_completed (call_kind c) hs)).
    destruct (complete_all cs (call_completed (call_kind c) hs)) as [cs' hs']. destruct IH as [IH Hlen].
    split; [|by cbn; rewrite Hlen]. intros k. destruct (IH k) as (H1 & H2 & H3). cbn [count].
    set (c' := mkCall (call_kind c) (Some Broken) (waiting c)).
    assert (Hk : of_kind k c' = of_kind k c) by done.
    rewrite (completed_none k c Ec), (completed_some k c' Broken eq_refl), Hk, H1, H2, H3.
    unfold call_completed. split_and!; try done.
    destruct (decide (k = call_kind c)) as [->|Hne].
    + rewrite update_handle_eq, of_kind_true by done. same_handle.
    + rewrite update_handle_ne, of_kind_false by done. same_handle.
Qed.

Lemma counted_new : counted stub_new.
Proof. by intros []. Qed.

(** A call begins, and ends at once when it could not be sent. *)
Lemma begin_counted s k sent : counted s -> counted (begin_call k sent s).2.
Proof.
  intros Hs. unfold begin_call. destruct (negb (channel_ s)); [done|]. destruct sent.
  - set (c := mkCall k None true). intros k'. cbn [snd handles calls]. rewrite !count_app. cbn [count].
    rewrite (completed_none k' c) by done. destruct (decide (k' = k)) as [->|Hne].
    + rewrite update_handle_eq, Hs, of_kind_true by done. same_handle.
    + rewrite update_handle_ne, Hs, of_kind_false by done. same_handle.
  - set (c := mkCall k None false).
    pose proof (complete_all_ok (calls s ++ [c]) (update_handle k expect_result (handles s))) as H.
    destruct (complete_all _ _) as [cs hs]. destruct H as [H _]. intros k'. cbn [snd handles calls].
    destruct (H k') as (H1 & H2 & H3). rewrite H1, H2, H3, !count_app. cbn [count].
    rewrite (completed_none k' c) by done. destruct (decide (k' = k)) as [->|Hne].
    + rewrite update_handle_eq, Hs, of_kind_true by done. same_handle.
    + rewrite update_handle_ne, Hs, of_kind_false by done. same_handle.
Qed.

Lemma respond_counted i error s dangling s' :
  respond i error s = Some (dangling, s') -> counted s -> counted s'.
Proof.
  unfold respond. intros H Hs. destruct (calls s !! i) as [c|] eqn:Ei; [|done]. cbn in H.
  destruct (completion c) eqn:Ec; [done|]. simplify_eq.
  set (c' := mkCall (call_kind c) (Some (Reply error)) (waiting c)).
  intros k. cbn [handles calls]. rewrite !(count_insert _ _ i c c') by done.
  rewrite (completed_none k c Ec), (completed_some k c' (Reply error)) by done.
  assert (of_kind k c' = of_kind k c) as -> by done. unfold call_completed.
  destruct (decide (k = call_kind c)) as [->|Hne].
  - rewrite update_handle_eq, Hs, of_kind_true by done. same_handle.
  - rewrite update_handle_ne, Hs, of_kind_false by done. same_handle.
Qed.

Lemma end_counted i expired s o s' :
  end_call i expired s = Some (o, s') -> counted s -> counted s'.
Proof.
  unfold end_call. intros H Hs. destruct (calls s !! i) as [c|] eqn:Ei; [|done]. cbn in H.
  destruct (negb (waiting c)); [done|]. destruct (wait_for_pending _ _); [|done]. cbn in H. simplify_eq.
  set (c' := mkCall (call_kind c) (completion c) false).
  intros k. cbn [handles calls]. rewrite !(count_insert _ _ i c c') by done.
  assert (of_kind k c' = of_kind k c) as -> by done.
  assert (completed k c' = completed k c) as -> by done. rewrite Hs. same_handle.
Qed.

Lemma stub_counted s : rtc stub_step stub_new s -> counted s.
Proof.
  intros Hr. eapply (rtc_invariant stub_step counted); [|exact Hr|exact counted_new].
  intros x y Hstep Hx. destruct Hstep as [s0 b|s0 m sent|s0 i error dangling s1 H|s0 i expired o s1 H].
  - exact Hx.
  - rewrite stub_call_state. by apply begin_counted.
  - by eapply respond_counted.
  - by eapply end_counted.
Qed.

(** All calls of the kind are completed; one is. *)
Lemma counted_all s k : counted s ->
  received (handles s k) = expecting (handles s k) <->
  (forall c, c ∈ calls s -> call_kind c = k -> completion c <> None).
Proof.
  intros Hs. rewrite Hs. cbn. rewrite count_eq.
  - unfold completed, of_kind, is_completed.
    setoid_rewrite andb_true_iff. setoid_rewrite bool_decide_eq_true. naive_solver.
  - intros c. unfold completed. by intros [? _]%andb_true_iff.
Qed.

Lemma counted_any s k : counted s ->
  has_result (handles s k) = true <->
  exists c, c ∈ calls s /\ call_kind c = k /\ completion c <> None.
Proof.
  intros Hs. unfold has_result. rewrite Hs. cbn. rewrite Z.ltb_lt, count_pos.
  unfold completed, of_kind, is_completed.
  setoid_rewrite andb_true_iff. setoid_rewrite bool_decide_eq_true. naive_solver.
Qed.


(** Two calls, of which only the first is answered. *)
Lemma answered_once_reachable s :
  s = default stub_new (s1 ← respond 0 None (stub_set_focused_task 1 true (set_rpc_channel stub_new)).2;
    s2 ← end_call 0 false s1.2; Some (stub_set_focused_task 2 true s2.2).2) ->
  rtc stub_step stub_new s.
Proof.
  intros ->.
  destruct (respond 0 None (stub_set_focused_task 1 true (set_rpc_channel stub_new)).2) as [[d s1]|] eqn:E1;
    [|apply rtc_refl].
  cbn [mbind option_bind]. destruct (end_call 0 false (d, s1).2) as [[o s2]|] eqn:E2; [|apply rtc_refl].
  eapply rtc_l; [apply (step_channel _ true)|]. eapply rtc_l; [apply (step_begin _ (SetFocusedTask 1) true)|].
  eapply rtc_l; [eapply step_respond; exact E1|]. eapply rtc_l; [eapply step_end; exact E2|].
  eapply rtc_l; [apply (step_begin _ (SetFocusedTask 2) true)|]. apply rtc_refl.
Qed.

