(* ===== verification/Applications.v ===== *)
(** * Applications

    The Android side tells which applications it has; [Database]
    (src/src/anbox/application/database.{h,cpp}) keeps them by package and
    [LauncherStorage] (application/launcher_storage.cpp) keeps a desktop file and an icon
    for each in a directory.  [handle_application_list_update_event]
    (bridge/platform_api_skeleton.cpp) applies a list of changes.

    The directory is a map from file names to entries.  The file system is an input
    where it decides: whether a file can be written. *)

From Stdlib Require Import Ascii.
From S2P Require Import Prelude Utils Calls.

(** ** Items *)

Record Item := mkItem {
  name : string;
  item_package : string;
  launch_intent : Intent;
  icon : string
}.

Definition Unknown : Item := mkItem "" "" (mkIntent "" "" "" 0 "" "" []) "".

Definition item_valid (i : Item) : bool := negb (is_empty (item_package i)).

Definition clear_icon (i : Item) : Item := mkItem (name i) (item_package i) (launch_intent i) "".

(** ** LauncherStorage *)

(** A regular file, or something else. *)
Inductive Entry := Regular (content : string) | Special.

(** [path_]: whether it exists, and what is in it. *)
Record LauncherStorage := mkStorage { exists_ : bool; entries : gmap string Entry }.

Definition starts_with (prefix s : string) : bool := String.prefix prefix s.

(** Not one of ours. *)
Definition kept (fe : string * Entry) : bool :=
  match fe.2 with Regular _ => negb (starts_with "anbox-" fe.1) | Special => true end.

Definition reset (s : LauncherStorage) : LauncherStorage :=
  if exists_ s then mkStorage true (filter (fun fe => kept fe = true) (entries s)) else s.

Fixpoint replace (old new : ascii) (s : string) : string :=
  match s with
  | EmptyString => EmptyString
  | String c s => String (if Ascii.eqb c old then new else c) (replace old new s)
  end.

Definition clean_package_name (package_name : string) : string := replace "." "-" package_name.

Section applications.
Context {boost : BoostFormat}.

Definition path_for_item (package_name : string) : string := string_format "anbox-%s.desktop" [Str package_name].
Definition path_for_item_icon (package_name : string) : string := string_format "anbox-%s.png" [Str package_name].

Definition snap_exe_path : string := "/snap/bin/anbox".

Section storage.
(** The daemon's executable, whether it runs as a snap, the directory's path before a
    file name, and whether a file can be written. *)
Context (exe : string) (snap : bool) (in_directory : string -> string) (writable : string -> bool).

Definition option_text (format value : string) : string :=
  if is_empty value then "" else string_format format [Str value].

Definition exec_line (i : Intent) : string :=
  String.concat "" [
    string_format "%s launch " [Str (if snap then snap_exe_path else exe)];
    option_text "--action=%s " (action i);
    option_text "--type=%s " (intent_type i);
    option_text "--uri=%s " (uri i);
    option_text "--package=%s " (package i);
    option_text "--component=%s " (component i) ].

Definition desktop_text (i : Item) : string :=
  lines [
    "[Desktop Entry]"%string;
    String.append "Name=" (name i);
    String.append "Exec=" (exec_line (launch_intent i));
    "Terminal=false"%string;
    "Type=Application"%string;
    String.append "Icon=" (in_directory (path_for_item_icon (clean_package_name (item_package i)))) ].

Definition is_special (f : string) (s : LauncherStorage) : bool :=
  match entries s !! f with Some Special => true | _ => false end.

(** [std::ofstream]: the file is made or emptied, and written. *)
Definition write_file (f content : string) (s : LauncherStorage) : option LauncherStorage :=
  if writable f && negb (is_special f s) then
    Some (mkStorage (exists_ s) (<[f := Regular content]> (entries s)))
  else None.

(** The flag: no exception. *)
Definition add_or_update (i : Item) (s : LauncherStorage) : LauncherStorage * bool :=
  let s := mkStorage true (entries s) in
  let package_name := clean_package_name (item_package i) in
  match write_file (path_for_item package_name) (desktop_text i) s with
  | None => (s, false)
  | Some s =>
      match write_file (path_for_item_icon package_name) (icon i) s with
      | None => (s, false)
      | Some s => (s, true)
      end
  end.

Definition storage_remove (i : Item) (s : LauncherStorage) : LauncherStorage :=
  let package_name := clean_package_name (item_package i) in
  mkStorage (exists_ s)
    (delete (path_for_item_icon package_name) (delete (path_for_item package_name) (entries s))).

(** ** Database *)

Record Database := mkDatabase {
  storage_ : LauncherStorage;
  items_ : gmap string Item;
  done_reset : bool
}.

Definition store_or_update (i : Item) (d : Database) : Database * bool :=
  let storage := if done_reset d then storage_ d else reset (storage_ d) in
  let '(storage, ok) := add_or_update i storage in
  (mkDatabase storage
    (if ok then <[item_package i := clear_icon i]> (items_ d) else items_ d) true, ok).

Definition remove (i : Item) (d : Database) : Database :=
  match items_ d !! item_package i with
  | None => d
  | Some _ =>
      mkDatabase (storage_remove i (storage_ d)) (delete (item_package i) (items_ d)) (done_reset d)
  end.

Definition find_by_package (p : string) (d : Database) : Item := default Unknown (items_ d !! p).

(** ** The event *)

Record Application := mkApplication {
  app_name : string;
  app_package : string;
  app_intent : IntentMessage;
  app_icon : string
}.

Record ApplicationListUpdate := mkUpdate {
  applications : list Application;
  removed_applications : list Application
}.

(** A field that is not set reads as the empty text. *)
Definition field (f : option string) : string := default ""%string f.

Definition removed_item (a : Application) : Item :=
  mkItem "" (app_package a) (launch_intent Unknown) "".

(** The type is taken from the uri. *)
Definition stored_item (a : Application) : Item :=
  let li := app_intent a in
  mkItem (app_name a) (app_package a)
    (mkIntent (field (m_action li)) (field (m_uri li)) (field (m_uri li)) 0
      (field (m_package li)) (field (m_component li)) (m_categories li))
    (app_icon a).

Definition remove_application (d : Database) (a : Application) : Database :=
  if is_empty (app_package a) then d else remove (removed_item a) d.

(** An exception leaves the loop. *)
Fixpoint store_applications (l : list Application) (d : Database) : Database * bool :=
  match l with
  | [] => (d, true)
  | a :: l =>
      if is_empty (app_package a) then store_applications l d
      else
        let '(d, ok) := store_or_update (stored_item a) d in
        if ok then store_applications l d else (d, false)
  end.

Definition handle_application_list_update_event (e : ApplicationListUpdate) (d : Database) :
    Database * bool :=
  store_applications (applications e) (foldl remove_application d (removed_applications e)).
End storage.

(** The type of an application's intent is lost, and its uri written in its place. *)
Lemma stored_type a : intent_type (launch_intent (stored_item a)) = uri (launch_intent (stored_item a)).
Proof. done. Qed.

(** ** File names *)

Context {boost_laws : BoostFormatLaws}.

Lemma bytes_of_inj s t : bytes_of s = bytes_of t -> s = t.
Proof. intros H. by rewrite <- (text_bytes_of s), <- (text_bytes_of t), H. Qed.

Lemma path_for_item_app p : path_for_item p = String.append "anbox-" (String.append p ".desktop").
Proof.
  unfold path_for_item, string_format. rewrite boost_format_printf by (apply list_elem_of_In; cbn; auto 20).
  reflexivity.
Qed.

Lemma path_for_item_icon_app p : path_for_item_icon p = String.append "anbox-" (String.append p ".png").
Proof.
  unfold path_for_item_icon, string_format.
  rewrite boost_format_printf by (apply list_elem_of_In; cbn; auto 20). reflexivity.
Qed.

Lemma path_bytes p : bytes_of (path_for_item p) = bytes_of "anbox-" ++ bytes_of p ++ bytes_of ".desktop".
Proof. by rewrite path_for_item_app, !bytes_of_app. Qed.

Lemma path_icon_bytes p : bytes_of (path_for_item_icon p) = bytes_of "anbox-" ++ bytes_of p ++ bytes_of ".png".
Proof. by rewrite path_for_item_icon_app, !bytes_of_app. Qed.

Lemma path_for_item_inj p q : path_for_item p = path_for_item q -> p = q.
Proof.
  intros H%(f_equal bytes_of). rewrite !path_bytes in H.
  by apply app_inv_head, app_inv_tail, bytes_of_inj in H.
Qed.

Lemma path_for_item_icon_inj p q : path_for_item_icon p = path_for_item_icon q -> p = q.
Proof.
  intros H%(f_equal bytes_of). rewrite !path_icon_bytes in H.
  by apply app_inv_head, app_inv_tail, bytes_of_inj in H.
Qed.

Lemma path_ne_icon p q : path_for_item p <> path_for_item_icon q.
Proof.
  intros H%(f_equal (fun s => last (bytes_of s))). rewrite path_bytes, path_icon_bytes, !last_app in H.
  by vm_compute in H.
Qed.

Lemma path_anbox p : starts_with "anbox-" (path_for_item p) = true /\
  starts_with "anbox-" (path_for_item_icon p) = true.
Proof. rewrite path_for_item_app, path_for_item_icon_app. split; destruct p; reflexivity. Qed.

(** A package name as Android has them: no hyphen. *)
Fixpoint plain (s : string) : Prop :=
  match s with EmptyString => True | String c s => c <> "-"%char /\ plain s end.

Lemma clean_inj p : forall q, plain p -> plain q -> clean_package_name p = clean_package_name q -> p = q.
Proof.
  unfold clean_package_name.
  induction p as [|c p IH]; intros [|c' q] Hp Hq; cbn; try done. intros [= Hc H].
  destruct Hp as [Hc1 Hp], Hq as [Hc2 Hq]. f_equal; [|by apply IH].
  destruct (Ascii.eqb_spec c "."), (Ascii.eqb_spec c' "."); congruence.
Qed.

Opaque path_for_item path_for_item_icon.

Definition desktop_file (p : string) : string := path_for_item (clean_package_name p).
Definition icon_file (p : string) : string := path_for_item_icon (clean_package_name p).

Lemma desktop_file_eq p : path_for_item (clean_package_name p) = desktop_file p.
Proof. done. Qed.

Lemma icon_file_eq p : path_for_item_icon (clean_package_name p) = icon_file p.
Proof. done. Qed.

Lemma desktop_ne_icon p q : desktop_file p <> icon_file q.
Proof. unfold desktop_file, icon_file. apply path_ne_icon. Qed.

Lemma file_anbox p : starts_with "anbox-" (desktop_file p) = true /\
  starts_with "anbox-" (icon_file p) = true.
Proof. unfold desktop_file, icon_file. apply path_anbox. Qed.

Lemma file_names p q : plain p -> plain q -> p <> q ->
  desktop_file p <> desktop_file q /\ icon_file p <> icon_file q.
Proof.
  intros Hp Hq Hne. unfold desktop_file, icon_file.
  split; intros E; [apply path_for_item_inj in E|apply path_for_item_icon_inj in E];
    by apply Hne, clean_inj.
Qed.

Opaque starts_with desktop_file icon_file.

(** ** The directory and the database agree *)

Section agree.
Context (exe : string) (snap : bool) (in_directory : string -> string).
Abbreviation text := (desktop_text exe snap in_directory).
Abbreviation always := (fun _ : string => true).

(** The files are those of the items [latest], with their icons. *)
Record storage_ok (latest : gmap string Item) (s : LauncherStorage) : Prop := {
  st_plain : forall p, is_Some (latest !! p) -> plain p;
  st_item : forall p i, latest !! p = Some i ->
    entries s !! desktop_file p = Some (Regular (text i)) /\
    entries s !! icon_file p = Some (Regular (icon i));
  st_only : forall f c, entries s !! f = Some (Regular c) -> starts_with "anbox-" f = true ->
    exists p, is_Some (latest !! p) /\ (f = desktop_file p \/ f = icon_file p)
}.

(** Nothing but regular files has a name of ours. *)
Definition names_free (s : LauncherStorage) : Prop :=
  forall f, starts_with "anbox-" f = true -> is_special f s = false.

Lemma reset_ok s : exists_ s = true \/ entries s = ∅ -> names_free s ->
  storage_ok ∅ (reset s) /\ names_free (reset s).
Proof.
  intros He Hn. assert (Hreg : forall f c, entries (reset s) !! f = Some (Regular c) ->
    starts_with "anbox-" f = false).
  { intros f c. unfold reset. destruct He as [-> | E].
    - cbn. intros [_ Hk]%map_lookup_filter_Some. unfold kept in Hk. cbn in Hk.
      by apply negb_true_iff in Hk.
    - destruct (exists_ s); cbn; rewrite E; [|by rewrite lookup_empty].
      intros [H _]%map_lookup_filter_Some. by rewrite lookup_empty in H. }
  split.
  - split.
    + intros p. rewrite lookup_empty. by intros [].
    + intros p i. by rewrite lookup_empty.
    + intros f c Hf Hs. rewrite (Hreg f c Hf) in Hs. done.
  - intros f Hf. specialize (Hn f Hf). unfold is_special in *.
    destruct (entries (reset s) !! f) as [[|]|] eqn:E; try done. rewrite <- Hn.
    unfold reset in E. destruct (exists_ s); cbn in E; [|by rewrite E].
    apply map_lookup_filter_Some in E as [-> _]. done.
Qed.

Lemma add_ok latest s i :
  storage_ok latest s -> names_free s -> plain (item_package i) ->
  exists s', add_or_update exe snap in_directory always i s = (s', true) /\
    storage_ok (<[item_package i := i]> latest) s' /\ names_free s' /\ exists_ s' = true.
Proof.
  intros [Hpl Hit Hon] Hn Hp. unfold add_or_update, write_file. cbn [andb entries exists_].
  set (p := item_package i) in *. rewrite desktop_file_eq, icon_file_eq.
  destruct (file_anbox p) as [Ha1 Ha2].
  pose proof (fun q => desktop_ne_icon q p) as Hdi.
  assert (Hid : forall q, icon_file q <> desktop_file p)
    by (intros q E; by apply (desktop_ne_icon p q)).
  unfold is_special. cbn [entries]. pose proof (Hn _ Ha1) as Hn1. pose proof (Hn _ Ha2) as Hn2.
  unfold is_special in Hn1, Hn2. rewrite Hn1. cbn [negb entries].
  rewrite lookup_insert_ne by (intros E; by apply (Hdi p)). rewrite Hn2. cbn [negb exists_].
  eexists. split; [reflexivity|]. split; [split|split; [|done]].
  - intros q [j Hj]. destruct (decide (q = p)) as [->|Hne]; [done|].
    rewrite lookup_insert_ne in Hj by done. apply Hpl. by exists j.
  - intros q j Hj. cbn [entries]. destruct (decide (q = p)) as [->|Hne].
    + rewrite lookup_insert_eq in Hj. simplify_eq. split.
      * rewrite lookup_insert_ne, lookup_insert_eq; [done|]. intros E. by apply (Hdi p).
      * by rewrite lookup_insert_eq.
    + rewrite lookup_insert_ne in Hj by done.
      destruct (file_names p q) as [Hf1 Hf2]; [done|by apply Hpl; exists j|done|].
      destruct (Hit q j Hj) as [H1 H2]. split.
      * rewrite !lookup_insert_ne; [done|done|]. intros E. by apply (Hdi q).
      * rewrite !lookup_insert_ne; [done| |done]. intros E. by apply (Hid q).
  - intros f c Hf Hs. cbn [entries] in Hf.
    destruct (decide (f = icon_file p)) as [->|Hne1]; [exists p; rewrite lookup_insert_eq; eauto|].
    rewrite lookup_insert_ne in Hf by done.
    destruct (decide (f = desktop_file p)) as [->|Hne2]; [exists p; rewrite lookup_insert_eq; eauto|].
    rewrite lookup_insert_ne in Hf by done. destruct (Hon f c Hf Hs) as (q & Hq & Hfq). exists q.
    split; [|done]. destruct (decide (q = p)) as [->|]; [by rewrite lookup_insert_eq; eexists|].
    by rewrite lookup_insert_ne.
  - intros f Hf. unfold is_special. cbn [entries].
    destruct (decide (f = icon_file p)) as [->|]; [by rewrite lookup_insert_eq|].
    rewrite lookup_insert_ne by done.
    destruct (decide (f = desktop_file p)) as [->|]; [by rewrite lookup_insert_eq|].
    rewrite lookup_insert_ne by done. by apply Hn.
Qed.

Lemma remove_ok latest s i :
  storage_ok latest s -> names_free s -> is_Some (latest !! item_package i) ->
  storage_ok (delete (item_package i) latest) (storage_remove i s) /\
  names_free (storage_remove i s).
Proof.
  intros [Hpl Hit Hon] Hn Hi. unfold storage_remove. set (p := item_package i) in *.
  rewrite desktop_file_eq, icon_file_eq. split; [split|].
  - intros q [j [_ Hj]%lookup_delete_Some]. apply Hpl. by exists j.
  - intros q j [Hne Hj]%lookup_delete_Some. cbn [entries].
    destruct (file_names p q) as [Hf1 Hf2]; [by apply Hpl|by apply Hpl; exists j|done|].
    destruct (Hit q j Hj) as [H1 H2]. split.
    + rewrite !lookup_delete_ne; [done|done|]. intros E. by apply (desktop_ne_icon q p).
    + rewrite !lookup_delete_ne; [done| |done]. intros E. by apply (desktop_ne_icon p q).
  - intros f c Hf Hs. cbn [entries] in Hf. apply lookup_delete_Some in Hf as [Hne1 Hf].
    apply lookup_delete_Some in Hf as [Hne2 Hf]. destruct (Hon f c Hf Hs) as (q & Hq & Hfq).
    exists q. split; [|done]. destruct (decide (q = p)) as [->|]; [by destruct Hfq|].
    by rewrite lookup_delete_ne.
  - intros f Hf. specialize (Hn f Hf). unfold is_special in *. cbn [entries].
    destruct (decide (f = icon_file p)) as [->|]; [by rewrite lookup_delete_eq|].
    rewrite lookup_delete_ne by done.
    destruct (decide (f = desktop_file p)) as [->|]; [by rewrite lookup_delete_eq|].
    by rewrite lookup_delete_ne.
Qed.

(** What the changes mean: an application without a package is none. *)
Definition removed (e : ApplicationListUpdate) (m : gmap string Item) : gmap string Item :=
  foldl (fun m a => if is_empty (app_package a) then m else delete (app_package a) m) m
    (removed_applications e).

Definition stored (e : ApplicationListUpdate) (m : gmap string Item) : gmap string Item :=
  foldl (fun m a => if is_empty (app_package a) then m
    else <[app_package a := stored_item a]> m) m (applications e).

Definition apply_update (e : ApplicationListUpdate) (m : gmap string Item) : gmap string Item :=
  stored e (removed e m).

(** The database has the items without their icons; until the first is stored it has
    none, and the directory is as it was. *)
Definition database_ok (latest : gmap string Item) (d : Database) : Prop :=
  names_free (storage_ d) /\ items_ d = clear_icon <$> latest /\
  if done_reset d then storage_ok latest (storage_ d)
  else latest = ∅ /\ (exists_ (storage_ d) = true \/ entries (storage_ d) = ∅).

Lemma remove_application_ok latest d a :
  database_ok latest d ->
  database_ok (if is_empty (app_package a) then latest else delete (app_package a) latest)
    (remove_application d a).
Proof.
  unfold remove_application. destruct (is_empty (app_package a)); [done|].
  intros (Hn & Hi & Hs). unfold remove, removed_item. cbn [item_package].
  assert (Hl : items_ d !! app_package a = clear_icon <$> latest !! app_package a)
    by (by rewrite Hi, lookup_fmap).
  destruct (latest !! app_package a) as [i|] eqn:E; rewrite Hl; cbn [fmap option_fmap option_map].
  - unfold database_ok. cbn [storage_ items_ done_reset].
    destruct (done_reset d) eqn:Ed; [|destruct Hs as [-> _]; by rewrite lookup_empty in E].
    set (it := mkItem "" (app_package a) (launch_intent Unknown) "").
    destruct (remove_ok latest (storage_ d) it Hs Hn) as [Hs' Hn']; [by eexists|].
    split; [exact Hn'|]. split; [by rewrite Hi, fmap_delete|exact Hs'].
  - rewrite delete_id by done. done.
Qed.

Lemma store_ok latest d i :
  database_ok latest d -> plain (item_package i) ->
  exists d', store_or_update exe snap in_directory always i d = (d', true) /\
    database_ok (<[item_package i := i]> latest) d' /\ done_reset d' = true.
Proof.
  intros (Hn & Hi & Hs) Hp. unfold store_or_update.
  set (s0 := if done_reset d then storage_ d else reset (storage_ d)).
  assert (H0 : storage_ok latest s0 /\ names_free s0).
  { unfold s0. destruct (done_reset d); [done|]. destruct Hs as [-> He]. by apply reset_ok. }
  destruct H0 as [H0 Hn0]. destruct (add_ok latest s0 i H0 Hn0 Hp) as (s1 & -> & H1 & Hn1 & _).
  eexists. split; [reflexivity|]. split; [|done]. split; [exact Hn1|].
  cbn [items_ done_reset storage_]. split; [by rewrite Hi, fmap_insert|exact H1].
Qed.

Definition plain_update (e : ApplicationListUpdate) : Prop :=
  Forall (fun a => plain (app_package a)) (applications e).

Lemma store_applications_ok l : forall latest d,
  database_ok latest d -> Forall (fun a => plain (app_package a)) l ->
  exists d', store_applications exe snap in_directory always l d = (d', true) /\
    database_ok (foldl (fun m a => if is_empty (app_package a) then m
      else <[app_package a := stored_item a]> m) latest l) d' /\
    (done_reset d = true -> done_reset d' = true).
Proof.
  induction l as [|a l IH]; intros latest d Hd Hl; [by exists d|].
  inversion Hl as [|? ? Ha Hl']; subst. cbn [store_applications foldl].
  destruct (is_empty (app_package a)); [by apply IH|].
  destruct (store_ok latest d (stored_item a) Hd Ha) as (d1 & -> & Hd1 & Hr1).
  destruct (IH _ d1 Hd1 Hl') as (d2 & H2 & Hd2 & Hr2). exists d2. split; [exact H2|].
  split; [exact Hd2|]. intros _. by apply Hr2.
Qed.

Lemma removed_ok l : forall latest d, database_ok latest d ->
  database_ok (foldl (fun m a => if is_empty (app_package a) then m
      else delete (app_package a) m) latest l) (foldl remove_application d l).
Proof.
  induction l as [|a l IH]; intros latest d Hd; [done|]. cbn [foldl].
  apply IH. by apply remove_application_ok.
Qed.

Lemma update_ok latest d e :
  database_ok latest d -> plain_update e ->
  exists d', handle_application_list_update_event exe snap in_directory always e d = (d', true) /\
    database_ok (apply_update e latest) d'.
Proof.
  intros Hd He. unfold handle_application_list_update_event.
  destruct (store_applications_ok (applications e) _ _ (removed_ok (removed_applications e) _ _ Hd) He)
    as (d' & -> & Hd' & _). by exists d'.
Qed.

Fixpoint run_updates (es : list ApplicationListUpdate) (d : Database) : Database * bool :=
  match es with
  | [] => (d, true)
  | e :: es =>
      let '(d, ok) := handle_application_list_update_event exe snap in_directory always e d in
      if ok then run_updates es d else (d, false)
  end.

Lemma run_updates_ok es : forall latest d,
  database_ok latest d -> Forall plain_update es ->
  exists d', run_updates es d = (d', true) /\
    database_ok (foldl (fun m e => apply_update e m) latest es) d'.
Proof.
  induction es as [|e es IH]; intros latest d Hd Hes; [by exists d|].
  inversion Hes as [|? ? He Hes']; subst. cbn [run_updates foldl].
  destruct (update_ok latest d e Hd He) as (d1 & -> & Hd1). by apply IH.
Qed.

(** C19: after any lists of changes the database has the last version of every
    application that was stored and not removed since, without its icon, and, once
    something was stored, the directory has its desktop file and its icon under its
    package's name, and of the files that are named like ours no other, whatever an
    earlier run of the daemon left there; with files that can be written, and package
    names without a hyphen (two that differ in a dot and a hyphen share their files). *)
Theorem database_in_sync es s :
  names_free s -> exists_ s = true \/ entries s = ∅ -> Forall plain_update es ->
  let latest := foldl (fun m e => apply_update e m) ∅ es in
  exists d, run_updates es (mkDatabase s ∅ false) = (d, true) /\
    (forall p, find_by_package p d = default Unknown (clear_icon <$> latest !! p)) /\
    (done_reset d = false -> latest = ∅) /\
    (done_reset d = true -> forall f c,
      (entries (storage_ d) !! f = Some (Regular c) /\ starts_with "anbox-" f = true) <->
      (exists p i, latest !! p = Some i /\
        (f = desktop_file p /\ c = text i \/ f = icon_file p /\ c = icon i))).
Proof.
  intros Hn He Hes. cbv zeta.
  assert (H0 : database_ok ∅ (mkDatabase s ∅ false)).
  { split; [exact Hn|]. split; [cbn [items_]; by rewrite fmap_empty|by split]. }
  destruct (run_updates_ok es ∅ _ H0 Hes) as (d & Hrun & Hn' & Hi & Hs).
  set (latest := foldl _ _ _) in *. exists d. split; [exact Hrun|]. split.
  { intros p. unfold find_by_package. by rewrite Hi, lookup_fmap. }
  split; [intros Hd; rewrite Hd in Hs; apply Hs|].
  intros Hd f c. rewrite Hd in Hs. destruct Hs as [Hpl Hit Hon]. split.
  - intros [Hf Ha]. destruct (Hon f c Hf Ha) as (p & [i Hp] & Hfp). exists p, i. split; [done|].
    destruct (Hit p i Hp) as [H1 H2].
    destruct Hfp as [->| ->]; [left|right]; (split; [done|]); congruence.
  - intros (p & i & Hp & Hfp). destruct (Hit p i Hp) as [H1 H2].
    destruct (file_anbox p) as [Ha1 Ha2].
    destruct Hfp as [[-> ->]|[-> ->]]; done.
Qed.
End agree.
End applications.

#[local] Existing Instance toy_format.
#[local] Existing Instance toy_format_laws.

(** Two applications, one removed later, in a directory with a file of an earlier run. *)
Definition no_intent : IntentMessage := mkIntentMessage None None None (Some "org.a"%string) None [].
Definition app_a : Application := mkApplication "A" "org.a" no_intent "icon-a".
Definition app_b : Application := mkApplication "B" "org.b" no_intent "icon-b".

Lemma app_updates :
  foldl (fun m e => apply_update e m) ∅ [mkUpdate [app_a; app_b] []; mkUpdate [] [app_a]] =
  delete "org.a"%string (<["org.b"%string := stored_item app_b]>
    (<["org.a"%string := stored_item app_a]> ∅)).
Proof.
  unfold apply_update, stored, removed. cbn [foldl applications removed_applications app_package app_a app_b].
  done.
Qed.

Lemma database_in_sync_witness :
  exists d, run_updates "/usr/bin/anbox" false (String.append "/apps/")
      [mkUpdate [app_a; app_b] []; mkUpdate [] [app_a]]
      (mkDatabase (mkStorage true {[ "anbox-old.png"%string := Regular "x" ]}) ∅ false) = (d, true) /\
    find_by_package "org.a" d = Unknown /\ find_by_package "org.b" d = clear_icon (stored_item app_b) /\
    (done_reset d = true -> entries (storage_ d) !! icon_file "org.b" = Some (Regular "icon-b")).
Proof.
  destruct (database_in_sync "/usr/bin/anbox" false (String.append "/apps/")
    [mkUpdate [app_a; app_b] []; mkUpdate [] [app_a]]
    (mkStorage true {[ "anbox-old.png"%string := Regular "x" ]})) as (d & Hrun & Hfind & _ & Hfiles).
  - intros f _. unfold is_special. cbn [entries]. destruct (decide (f = "anbox-old.png"%string)) as [->|].
    + by rewrite lookup_singleton_eq.
    + by rewrite lookup_singleton_ne.
  - by left.
  - repeat constructor; done.
  - rewrite app_updates in Hfind, Hfiles.
    assert (Hb : forall m : gmap string Item, delete "org.a"%string
      (<["org.b"%string := stored_item app_b]> m) !! "org.b"%string = Some (stored_item app_b)).
    { intros m. rewrite lookup_delete_ne, lookup_insert_eq; done. }
    exists d. split; [exact Hrun|]. split; [by rewrite Hfind, lookup_delete_eq|].
    split; [by rewrite Hfind, Hb|]. intros Hd. apply (Hfiles Hd).
    exists "org.b"%string, (stored_item app_b). rewrite Hb. split; [done|]. right. split; reflexivity.
Defined.
