(* ===== verification/Container.v ===== *)
(** * The container

    [LxcContainer] (src/src/anbox/container/lxc_container.cpp) configures, starts and
    stops the container with liblxc; [ManagementApiSkeleton] (management_api_skeleton.cpp)
    answers the session manager's requests with it; [Service] (service.cpp) gives each
    client a container of its own, and has one client at a time.

    liblxc, the kernel and the file system are an input, a record [Host] of their
    answers; what the code asks of them is a log of effects.  An exception is an outcome
    with its text. *)

From Stdlib Require Import Ascii.
From S2P Require Import Prelude Utils Network IpConfig.

(** ** The state *)

Inductive State := inactive | running.

Global Instance state_eq_dec : EqDecision State.
Proof. solve_decision. Defined.

Inductive Effect :=
  | SetItem (key value : string)
  | StopLxc
  | ChownTo (path : string) (uid gid : Z)
  | WriteIpConfig (bytes : list Z)
  | ClearDevices
  | Mknod (path : string) (mode dev : Z)
  | Chmod (path : string) (mode : Z)
  | WriteProperties (text : string)
  | SaveConfig
  | StartLxc.

(** [container_]: [None] is the null pointer, otherwise whether liblxc's container runs. *)
Record LxcContainer := mkLxc {
  state_ : State;
  container_ : option bool;
  binder_devices_ : list string;
  effects : list Effect
}.

Definition lxc_new : LxcContainer := mkLxc inactive None [] [].

(** What the constructor was given. *)
Record Settings := mkSettings {
  privileged_ : bool;
  rootfs_overlay_ : bool;
  container_network_address_ : string;
  container_network_gateway_ : string;
  container_network_dns_servers_ : list string;
  uid : Z;
  gid : Z
}.

Record DeviceSpecification := mkSpec { permission : Z; old_device_name : string }.

(** The two unordered maps are association lists in the order of insertion; the order
    they are iterated in is part of [Host]. *)
Record Configuration := mkConfiguration {
  bind_mounts : list (string * string);
  devices : list (string * DeviceSpecification);
  extra_properties : list string
}.

(** [std::unordered_map::insert]: a key that is there keeps its value. *)
Definition map_insert {A} (k : string) (v : A) (l : list (string * A)) : list (string * A) :=
  if existsb (fun kv => String.eqb kv.1 k) l then l else l ++ [(k, v)].

Record Stat := mkStat { st_rdev : Z; st_mode : Z; st_uid : Z; st_gid : Z }.

(** The answers of the world. *)
Record Host := mkHost {
  lxc2_support : bool;           (* how the daemon was built *)
  snap_confinement : bool;
  snap_is_set : bool;            (* the environment *)
  getuid : Z;
  lxc_created : option bool;     (* null, or whether the container runs *)
  stop_works : bool;
  set_works : string -> string -> bool;
  save_works : bool;
  start_works : bool;
  bridge_exists : bool;          (* /sys/class/net/anbox0 *)
  binderfs : bool;
  new_binder : option string;
  is_directory : string -> bool;
  stat : string -> option Stat;
  mknod_works : string -> bool;
  chown_works : string -> bool;
  chmod_works : string -> bool;
  can_open : string -> bool;
  read_regular : string -> option string;
  little_endian_host : bool;
  order_mounts : list (string * string) -> list (string * string);
  order_devices : list (string * DeviceSpecification) -> list (string * DeviceSpecification);
  string_split : string -> list string;   (* at slashes *)
  rootfs_dir : string;           (* SystemConfiguration *)
  combined_rootfs_dir : string;
  log_dir : string;
  data_dir : string;
  container_state_dir : string;
  container_devices_dir : string;
  basename : string -> string;   (* boost::filesystem::basename *)
  strerror : string              (* of the errno of a failed call *)
}.

(** ** The code: state, and an exception *)

Definition M (A : Type) : Type := LxcContainer -> LxcContainer * (A + string).

Definition ret {A} (a : A) : M A := fun s => (s, inl a).
Definition throw {A} (what : string) : M A := fun s => (s, inr what).
Definition bind {A B} (m : M A) (f : A -> M B) : M B :=
  fun s => match m s with (s, inl a) => f a s | (s, inr e) => (s, inr e) end.

Declare Scope lxc_scope.
Delimit Scope lxc_scope with lxc.
Notation "m ;; k" := (bind m (fun _ => k)) (at level 100, right associativity) : lxc_scope.
Notation "x <- m ;; k" := (bind m (fun x => k)) (at level 100, m at next level, right associativity) : lxc_scope.

Definition effect (e : Effect) : M unit :=
  fun s => (mkLxc (state_ s) (container_ s) (binder_devices_ s) (effects s ++ [e]), inl tt).

Definition set_container (c : option bool) : M unit :=
  fun s => (mkLxc (state_ s) c (binder_devices_ s) (effects s), inl tt).

Definition set_state (st : State) : M unit :=
  fun s => (mkLxc st (container_ s) (binder_devices_ s) (effects s), inl tt).

Definition set_binder_devices (l : list string) : M unit :=
  fun s => (mkLxc (state_ s) (container_ s) l (effects s), inl tt).

Definition get_container : M (option bool) := fun s => (s, inl (container_ s)).

Definition when (b : bool) (m : M unit) : M unit := if b then m else ret tt.

Fixpoint for_each {A} (l : list A) (f : A -> M unit) : M unit :=
  match l with [] => ret tt | x :: l => bind (f x) (fun _ => for_each l f) end.

Section host.
Context {boost : BoostFormat} (h : Host) (c : Settings).
Local Open Scope lxc_scope.

Definition unprivileged_uid : Z := 100000.
Definition android_system_uid : Z := 1000.

(** The names of LXC 2 and 3. *)
Definition key (lxc2 lxc3 : string) : string := if lxc2_support h then lxc2 else lxc3.

Definition set_config_item (key value : string) : M unit :=
  if set_works h key value then effect (SetItem key value)
  else throw (string_format "Failed to set config item %s" [Str key]).

(** [container_->stop]; the result is whether it worked. *)
Definition lxc_stop : M bool :=
  effect StopLxc ;;
  if stop_works h then set_container (Some false) ;; ret true else ret false.

(** *** The id map *)

Record IdRange := mkRange { inside : Z; outside : Z; range_size : Z }.

(** The arithmetic is that of 32-bit unsigned numbers. *)
Definition id_ranges (id : Z) : list IdRange :=
  let base_id := unprivileged_uid in
  let max_id := 100000 in
  [ mkRange 0 base_id (u32 (android_system_uid - 1));
    mkRange android_system_uid id 1;
    mkRange (u32 (android_system_uid + 1)) (u32 (base_id + android_system_uid + 1))
      (u32 (max_id - id - 1)) ].

Definition range_text (kind : string) (r : IdRange) : string :=
  string_format "%s %d %d %d" [Str kind; Num (inside r); Num (outside r); Num (range_size r)].

Definition setup_id_map : M unit :=
  for_each (concat (zip_with (fun u g => [range_text "u" u; range_text "g" g])
      (id_ranges (uid c)) (id_ranges (gid c))))
    (set_config_item (key "lxc.id_map" "lxc.idmap")).

(** *** The network *)

Definition is_space (a : ascii) : bool :=
  Ascii.eqb a " " || ((9 <=? byte_of a) && (byte_of a <=? 13)).

Fixpoint skip_spaces (s : string) : string :=
  match s with
  | String a s' => if is_space a then skip_spaces s' else s
  | EmptyString => s
  end.

Fixpoint atoi_digits (acc : Z) (s : string) : Z :=
  match s with
  | String a s => if is_digit a then atoi_digits (10 * acc + digit_of a) s else acc
  | EmptyString => acc
  end.

Definition atoi (s : string) : Z :=
  match skip_spaces s with
  | String a s' =>
      if Ascii.eqb a "-" then - atoi_digits 0 s'
      else if Ascii.eqb a "+" then atoi_digits 0 s'
      else atoi_digits 0 (String a s')
  | EmptyString => 0
  end.

Definition link_of (address : string) : string * Z :=
  if String.eqb address "" then ("192.168.250.2"%string, 24)
  else
    match string_split h address with
    | [a] => (a, 24)
    | [a; prefix] => (a, u32 (atoi prefix))
    | _ => ("192.168.250.2"%string, 24)
    end.

(** What [IpConfigBuilder]'s setters are called with; the id it starts with is unknown. *)
Definition ip_config : IpConfigBuilder :=
  let '(address, prefix) := link_of (container_network_address_ c) in
  set_id 0
    (set_dns_servers
      (match container_network_dns_servers_ c with
       | [] => [bytes_of "8.8.8.8"]
       | l => bytes_of <$> l
       end)
      (set_gateway
        (bytes_of (if String.eqb (container_network_gateway_ c) "" then "192.168.250.1"%string
          else container_network_gateway_ c))
        (set_link_address (bytes_of address) prefix
          (set_assignment Static (set_version Version2 (mkIp Version1 DHCP [] 0 [] [] 0)))))).

Definition give_to_user (path : string) : M unit :=
  match stat h path with
  | None => ret tt
  | Some st =>
      when (negb (negb (st_uid st =? 0) && negb (st_gid st =? 0)))
        (effect (ChownTo path unprivileged_uid unprivileged_uid))
  end.

Definition in_dir (dir name : string) : string := String.concat "/" [dir; name].

Definition setup_network : M unit :=
  if negb (bridge_exists h) then ret tt
  else
    set_config_item (key "lxc.network.type" "lxc.net.0.type") "veth" ;;
    set_config_item (key "lxc.network.flags" "lxc.net.0.flags") "up" ;;
    set_config_item (key "lxc.network.link" "lxc.net.0.link") "anbox0" ;;
    match ip_write ip_config (writer_new (little_endian_host h) (replicate 512 0)) with
    | None => throw "Write buffer exhausted"
    | Some (size, w) =>
        let data := in_dir (data_dir h) "data" in
        let misc := in_dir data "misc" in
        let ethernet := in_dir misc "ethernet" in
        for_each [data; misc; ethernet] give_to_user ;;
        when (can_open h (in_dir ethernet "ipconfig.txt"))
          (effect (WriteIpConfig (ztake size (block w))))
    end.

(** *** Devices *)

(** Of a [dev_t] of 64 bits, to an [int]. *)
Definition device_major (dev : Z) : Z :=
  i32 (Z.lor (Z.land (Z.shiftr dev 8) 0xfff) (Z.land (Z.shiftr dev 32) 0xfffff000)).

Definition device_minor (dev : Z) : Z :=
  i32 (Z.lor (Z.land dev 0xff) (Z.land (Z.shiftr dev 12) 0xffffff00)).

(** [!0xff] is 0. *)
Definition encoded_device_number (major minor : Z) : Z :=
  Z.lor (Z.lor (Z.land minor 0xff) (i32 (Z.shiftl major 8))) (Z.shiftl (Z.land minor 0) 12).

(** The file type of the old node, the permissions of the new one. *)
Definition device_mode (st_mode permission : Z) : Z :=
  Z.lor (Z.shiftl (Z.shiftr st_mode 9) 9) (Z.land permission (u32 (Z.lnot (Z.shiftl 1 9)))).

Definition strip_slash (s : string) : string :=
  match s with String a s' => if Ascii.eqb a "/" then s' else s | EmptyString => s end.

Definition add_device (device : string) (spec : DeviceSpecification) : M unit :=
  let old := if String.eqb (old_device_name spec) "" then device else old_device_name spec in
  match stat h old with
  | None => throw (string_format "Failed to retrieve information about device %s" [Str device])
  | Some st =>
      let mode := device_mode (st_mode st) (permission spec) in
      let path := in_dir (container_devices_dir h) (basename h device) in
      let number := encoded_device_number (device_major (st_rdev st)) (device_minor (st_rdev st)) in
      let base_uid := if privileged_ c then 0 else unprivileged_uid in
      if negb (mknod_works h path) then
        throw (string_format "Failed to create node for device %s: %s" [Str device; Str (strerror h)])
      else
        effect (Mknod path mode number) ;;
        if negb (chown_works h path) then
          throw (string_format "Failed to change ownership of new node for %s: %s" [Str device; Str (strerror h)])
        else
          effect (ChownTo path (u32 (base_uid + st_uid st)) (u32 (base_uid + st_gid st))) ;;
          if negb (chmod_works h path) then
            throw (string_format "Failed to change mode of new node for %s: %s" [Str device; Str (strerror h)])
          else
            effect (Chmod path mode) ;;
            set_config_item "lxc.mount.entry"
              (string_format "%s %s none bind,create=file,optional 0 0" [Str path; Str (strip_slash device)])
  end.

Definition default_devices : list (string * DeviceSpecification) :=
  [ ("/dev/console", mkSpec 384 ""); ("/dev/full", mkSpec 438 ""); ("/dev/null", mkSpec 438 "");
    ("/dev/random", mkSpec 438 ""); ("/dev/tty", mkSpec 438 ""); ("/dev/urandom", mkSpec 438 "");
    ("/dev/zero", mkSpec 438 ""); ("/dev/tun", mkSpec 432 "/dev/net/tun");
    ("/dev/ashmem", mkSpec 438 "") ]%string.

Definition bind_mount (rootfs_path : string) (m : string * string) : M unit :=
  let create_type := if is_directory h m.1 then "dir"%string else "file"%string in
  let target := if String.prefix "/" m.2 then m.2 else String.append "/" m.2 in
  set_config_item "lxc.mount.entry"
    (string_format "%s %s none bind,create=%s,optional 0 0"
      [Str m.1; Str (String.append rootfs_path target); Str create_type]).

(** One device is asked for. *)
Definition create_binder_devices : M (list (string * string) * list (string * DeviceSpecification)) :=
  if binderfs h then
    match new_binder h with
    | None => throw "Failed to allocate necessary binder devices"
    | Some path => set_binder_devices [path] ;; ret ([(path, "/dev/binder"%string)], [])
    end
  else ret ([], [("/dev/binder"%string, mkSpec 438 "")]).

Definition insert_all {A} (new l : list (string * A)) : list (string * A) :=
  foldl (fun l kv => map_insert kv.1 kv.2 l) l new.

Definition add_properties (rootfs_path : string) (properties : list string) : M unit :=
  match properties with
  | [] => ret tt
  | _ =>
      let new_path := in_dir (container_state_dir h) "default.prop" in
      match read_regular h (in_dir rootfs_path "default.prop") with
      | None => throw "File does not exist"
      | Some content =>
          if negb (can_open h new_path) then throw "Failed to open new default properties file"
          else
            effect (WriteProperties (lines
              (["# Properties added by Anbox"%string] ++ properties ++ [""%string; content]))) ;;
            set_config_item "lxc.mount.entry"
              (string_format "%s %s/default.prop none bind,optional,ro 0 0" [Str new_path; Str rootfs_path])
      end
  end.

(** *** start and stop *)

(** A container to configure that does not run, if stopping works. *)
Definition prepare : M unit :=
  if negb (getuid h =? 0) then throw "You have to start the container as root"
  else
    old <- get_container ;;
    when (bool_decide (old = Some true)) (lxc_stop ;; ret tt) ;;
    match old with
    | Some _ => ret tt
    | None =>
        match lxc_created h with
        | None => throw "Failed to create LXC container instance"
        | Some is_running =>
            set_container (Some is_running) ;;
            when is_running (lxc_stop ;; ret tt)
        end
    end.

Definition configure (configuration : Configuration) : M unit :=
  set_config_item "lxc.mount.auto" "proc:mixed sys:mixed cgroup:mixed" ;;
  set_config_item "lxc.autodev" "1" ;;
  set_config_item (key "lxc.pts" "lxc.pty.max") "1024" ;;
  set_config_item (key "lxc.tty" "lxc.tty.max") "0" ;;
  set_config_item (key "lxc.utsname" "lxc.uts.name") "anbox" ;;
  set_config_item "lxc.group.devices.deny" "" ;;
  set_config_item "lxc.group.devices.allow" "" ;;
  set_config_item (key "lxc.devttydir" "lxc.tty.dir") "" ;;
  set_config_item "lxc.environment" "PATH=/system/bin:/system/sbin:/system/xbin" ;;
  set_config_item (key "lxc.init_cmd" "lxc.init.cmd") "/anbox-init.sh" ;;
  when (snap_confinement h && snap_is_set h) (set_config_item "lxc.namespace.keep" "cgroup") ;;
  let rootfs_path := if rootfs_overlay_ c then combined_rootfs_dir h else rootfs_dir h in
  set_config_item (key "lxc.rootfs" "lxc.rootfs.path") rootfs_path ;;
  set_config_item (key "lxc.loglevel" "lxc.log.level") "0" ;;
  set_config_item (key "lxc.logfile" "lxc.log.file")
    (string_format "%s/container.log" [Str (log_dir h)]) ;;
  when (negb (lxc2_support h))
    (set_config_item "lxc.console.logfile" (string_format "%s/console.log" [Str (log_dir h)]) ;;
     set_config_item "lxc.console.rotate" "1") ;;
  setup_network ;;
  (if snap_confinement h then
     set_config_item "lxc.apparmor.profile" "snap.anbox.container-manager//container"
   else set_config_item (key "lxc.aa_profile" "lxc.apparmor.profile") "unconfined") ;;
  when (negb (privileged_ c)) setup_id_map ;;
  binder <- create_binder_devices ;;
  for_each (order_mounts h (insert_all binder.1 (bind_mounts configuration))) (bind_mount rootfs_path) ;;
  effect ClearDevices ;;
  for_each (order_devices h (insert_all default_devices (insert_all binder.2 (devices configuration))))
    (fun d => add_device d.1 d.2) ;;
  add_properties rootfs_path (extra_properties configuration).

Definition start (configuration : Configuration) : M unit :=
  prepare ;;
  configure configuration ;;
  (if save_works h then effect SaveConfig else throw "Failed to save container configuration") ;;
  (if start_works h then effect StartLxc ;; set_container (Some true)
   else throw "Failed to start container") ;;
  set_state running.

Definition stop : M unit :=
  old <- get_container ;;
  if negb (bool_decide (old = Some true)) then ret tt
  else
    ok <- lxc_stop ;;
    if negb ok then throw "Failed to stop container"
    else set_state inactive ;; set_binder_devices [].

(** ** ManagementApiSkeleton: the error of the response, if any *)

Definition start_container (configuration : Configuration) (s : LxcContainer) :
    LxcContainer * option string :=
  if decide (state_ s = running) then (s, Some "Container is already running"%string)
  else
    let container_configuration := mkConfiguration (insert_all (bind_mounts configuration) [])
      (insert_all ((fun d => (d.1, mkSpec (permission d.2) "")) <$> devices configuration) [])
      (extra_properties configuration) in
    match start container_configuration s with
    | (s, inl _) => (s, None)
    | (s, inr what) => (s, Some (string_format "Failed to start container: %s" [Str what]))
    end.

Definition stop_container (s : LxcContainer) : LxcContainer * option string :=
  if decide (state_ s = running) then
    match stop s with
    | (s, inl _) => (s, None)
    | (s, inr what) => (s, Some (string_format "Failed to stop container: %s" [Str what]))
    end
  else (s, Some "Container is not running"%string).
End host.

(** ** What configuring leaves alone *)

Definition keeps {A} (m : M A) : Prop :=
  forall s, state_ (m s).1 = state_ s /\ container_ (m s).1 = container_ s.

Create HintDb keeps.

Lemma keeps_ret {A} (a : A) : keeps (ret a).
Proof. by intros s. Qed.

Lemma keeps_throw {A} what : keeps (@throw A what).
Proof. by intros s. Qed.

Lemma keeps_effect e : keeps (effect e).
Proof. by intros s. Qed.

Lemma keeps_binder l : keeps (set_binder_devices l).
Proof. by intros s. Qed.

Lemma keeps_bind {A B} (m : M A) (f : A -> M B) : keeps m -> (forall a, keeps (f a)) -> keeps (bind m f).
Proof.
  intros Hm Hf s. unfold bind. specialize (Hm s). destruct (m s) as [s1 [a|e]]; [|done].
  destruct (Hf a s1) as [-> ->]. done.
Qed.

Lemma keeps_when b m : keeps m -> keeps (when b m).
Proof. intros Hm. destruct b; [done|apply keeps_ret]. Qed.

Lemma keeps_for_each {A} (l : list A) f : (forall x, keeps (f x)) -> keeps (for_each l f).
Proof. intros Hf. induction l as [|x l IH]; [apply keeps_ret|]. by apply keeps_bind. Qed.

Lemma keeps_if {A} (b : bool) (m m' : M A) : keeps m -> keeps m' -> keeps (if b then m else m').
Proof. by destruct b. Qed.

#[export] Hint Resolve keeps_ret keeps_throw keeps_effect keeps_binder keeps_bind keeps_when
  keeps_for_each keeps_if : keeps.

(** Goes into the cases of a [match] and applies the hints. *)
Ltac keeps :=
  repeat match goal with
  | |- forall _, _ => intros ?
  | |- keeps (let x := _ in _) => cbv zeta
  | |- keeps (match ?x with _ => _ end) => destruct x
  | |- keeps _ => solve [eauto 2 with keeps nocore]
  | |- keeps (bind _ _) => apply keeps_bind
  | |- keeps (when _ _) => apply keeps_when
  | |- keeps (for_each _ _) => apply keeps_for_each
  end.

Section keeps.
Context {boost : BoostFormat} (h : Host) (c : Settings).

Lemma keeps_set_config_item k v : keeps (set_config_item h k v).
Proof. unfold set_config_item. keeps. Qed.
#[local] Hint Resolve keeps_set_config_item : keeps.

Lemma keeps_setup_id_map : keeps (setup_id_map h c).
Proof. unfold setup_id_map. keeps. Qed.

Lemma keeps_setup_network : keeps (setup_network h c).
Proof. unfold setup_network, give_to_user. keeps. Qed.

Lemma keeps_bind_mount r m : keeps (bind_mount h r m).
Proof. unfold bind_mount. keeps. Qed.

Lemma keeps_create_binder : keeps (create_binder_devices h).
Proof. unfold create_binder_devices. keeps. Qed.

Lemma keeps_add_device d spec : keeps (add_device h c d spec).
Proof. unfold add_device. keeps. Qed.

Lemma keeps_add_properties r l : keeps (add_properties h r l).
Proof. unfold add_properties. keeps. Qed.

#[local] Hint Resolve keeps_setup_id_map keeps_setup_network keeps_bind_mount keeps_create_binder
  keeps_add_device keeps_add_properties : keeps.

Lemma keeps_configure configuration : keeps (configure h c configuration).
Proof. unfold configure. keeps. Qed.
End keeps.

(** ** The life of a container *)

Section life.
Context {boost : BoostFormat} (h : Host) (c : Settings).
Hypothesis Hstop : stop_works h = true.

(** Not running, and as the state says. *)
Definition idle (s : LxcContainer) : Prop := state_ s = inactive /\ container_ s <> Some true.

Lemma prepare_idle s : idle s ->
  match prepare h s with
  | (s', inl _) => idle s' /\ is_Some (container_ s')
  | (s', inr _) => idle s'
  end.
Proof.
  intros [Hs Hc]. unfold prepare. destruct (negb (getuid h =? 0)); [done|].
  unfold bind at 1, get_container. rewrite bool_decide_eq_false_2 by done. unfold bind at 1, when at 1, ret at 1.
  destruct (container_ s) as [b|] eqn:E; [split; [|by rewrite E]; split; congruence|].
  destruct (lxc_created h) as [r|]; [|cbn; split; congruence].
  unfold bind, set_container. destruct r; cbn.
  - rewrite Hstop. cbn. split; [by split|eauto].
  - split; [by split|eauto].
Qed.

Lemma start_idle configuration s : idle s ->
  match start h c configuration s with
  | (s', inl _) => state_ s' = running /\ container_ s' = Some true
  | (s', inr _) => idle s'
  end.
Proof.
  intros Hs. unfold start, bind. pose proof (prepare_idle s Hs) as H1.
  destruct (prepare h s) as [s1 [[]|e]]; [|done]. destruct H1 as [H1 _].
  pose proof (keeps_configure h c configuration s1) as H2.
  destruct (configure h c configuration s1) as [s2 [[]|e]];
    destruct H2 as [H2s H2c]; cbn in H2s, H2c;
    (assert (Hidle : idle s2) by (unfold idle; rewrite H2s, H2c; exact H1)); [|done].
  destruct (save_works h); [|done]. destruct (start_works h); done.
Qed.

Lemma stop_running s : container_ s = Some true ->
  exists s', stop h s = (s', inl tt) /\ idle s'.
Proof.
  intros Hs. unfold stop, bind, get_container. rewrite Hs, bool_decide_eq_true_2 by done. cbn.
  rewrite Hstop. cbn. eexists. by split.
Qed.

(** A container that died leaves nothing to stop. *)
Lemma stop_dead s : container_ s <> Some true -> stop h s = (s, inl tt).
Proof.
  intros Hs. unfold stop, bind, get_container. by rewrite bool_decide_eq_false_2.
Qed.
End life.

(** The requests of a client, with the answers of the host at that time, and the end of
    the container by itself. *)
Inductive Op := StartRequest (h : Host) (configuration : Configuration) | StopRequest (h : Host) | Died.

Definition op_host (o : Op) : Prop :=
  match o with StartRequest h _ | StopRequest h => stop_works h = true | Died => True end.

Definition container_died (s : LxcContainer) : LxcContainer :=
  mkLxc (state_ s) (match container_ s with Some _ => Some false | None => None end)
    (binder_devices_ s) (effects s).

Definition container_op {boost : BoostFormat} (c : Settings) (s : LxcContainer) (o : Op) : LxcContainer :=
  match o with
  | StartRequest h configuration => (start_container h c configuration s).1
  | StopRequest h => (stop_container h s).1
  | Died => container_died s
  end.

Definition container_run {boost : BoostFormat} (c : Settings) (os : list Op) (s : LxcContainer) : LxcContainer :=
  foldl (container_op c) s os.

(** What runs is known to run. *)
Definition known (s : LxcContainer) : Prop := container_ s = Some true -> state_ s = running.

Lemma known_idle s : known s -> state_ s <> running -> idle s.
Proof. intros Hk Hs. split; [by destruct (state_ s)|]. intros E. by apply Hs, Hk. Qed.

Lemma start_container_ok {boost : BoostFormat} h c configuration s :
  stop_works h = true -> known s ->
  let (s', error) := start_container h c configuration s in
  if decide (state_ s = running) then s' = s /\ error = Some "Container is already running"%string
  else match error with
       | None => state_ s' = running /\ container_ s' = Some true
       | Some _ => idle s'
       end.
Proof.
  intros Hstop Hk. unfold start_container. destruct (decide (state_ s = running)) as [|Hs]; [done|].
  pose proof (start_idle h c Hstop (mkConfiguration (insert_all (bind_mounts configuration) [])
      (insert_all ((fun d => (d.1, mkSpec (permission d.2) "")) <$> devices configuration) [])
      (extra_properties configuration)) s (known_idle s Hk Hs)) as H.
  by destruct (start h c _ s) as [s' [[]|e]].
Qed.

Lemma stop_container_ok {boost : BoostFormat} h s :
  stop_works h = true -> known s ->
  let (s', error) := stop_container h s in
  match container_ s with
  | Some true => error = None /\ idle s'
  | _ => s' = s
  end.
Proof.
  intros Hstop Hk. unfold stop_container.
  destruct (decide (state_ s = running)) as [Hs|Hs].
  - destruct (decide (container_ s = Some true)) as [E|E].
    + destruct (stop_running h Hstop s E) as (s' & -> & Hi). by rewrite E.
    + rewrite (stop_dead h s E). by destruct (container_ s) as [[]|].
  - destruct (container_ s) as [[]|] eqn:E; try done. by destruct Hs; apply Hk.
Qed.

Lemma container_op_known {boost : BoostFormat} c s o : op_host o -> known s -> known (container_op c s o).
Proof.
  intros Hh Hk. destruct o as [h configuration|h|]; cbn [container_op].
  - pose proof (start_container_ok h c configuration s Hh Hk) as H.
    destruct (start_container h c configuration s) as [s' error]. cbn [fst].
    destruct (decide (state_ s = running)); [by destruct H as [-> _]|].
    destruct error; [destruct H as [_ H]; by intros E|destruct H as [H _]; by intros _].
  - pose proof (stop_container_ok h s Hh Hk) as H.
    destruct (stop_container h s) as [s' error]. cbn [fst].
    destruct (container_ s) as [[]|] eqn:Ec; [|by subst..]. destruct H as (_ & _ & H). by intros E.
  - intros E. cbn in E. by destruct (container_ s).
Qed.

Lemma container_run_known {boost : BoostFormat} c os : forall s, Forall op_host os -> known s -> known (container_run c os s).
Proof.
  induction os as [|o os IH]; intros s Hos Hk; [done|].
  inversion Hos; subst. cbn [container_run foldl]. apply IH; [done|]. by apply container_op_known.
Qed.

(** The state says it runs, but it does not. *)
Definition stuck (s : LxcContainer) : Prop := state_ s = running /\ container_ s <> Some true.

Lemma container_run_stuck {boost : BoostFormat} c os : forall s, Forall op_host os -> stuck s -> stuck (container_run c os s).
Proof.
  induction os as [|o os IH]; intros s Hos Hs; [done|].
  inversion Hos as [|? ? Ho Hos']; subst. cbn [container_run foldl]. apply IH; [done|].
  destruct Hs as [Hr Hc]. assert (Hk : known s) by (by intros _).
  destruct o as [h configuration|h|]; cbn [container_op].
  - pose proof (start_container_ok h c configuration s Ho Hk) as H.
    destruct (start_container h c configuration s). rewrite decide_True in H by done.
    by destruct H as [-> _].
  - pose proof (stop_container_ok h s Ho Hk) as H. destruct (stop_container h s). cbn [fst].
    destruct (container_ s) as [[]|] eqn:E; [congruence|subst..]; by split; rewrite ?E.
  - split; [done|]. cbn. by destruct (container_ s).
Qed.

(** C21: as long as liblxc can stop a container, one that runs is known to run; a request
    to start is refused exactly when the state says it runs, and otherwise the container
    runs or the response has an error and nothing runs; a request to stop stops what
    runs.  When the container ends by itself the state is not told: it stays at running,
    every later request to start is refused, and none to stop changes that. *)
Theorem container_lifecycle {boost : BoostFormat} {boost_laws : BoostFormatLaws} c os h configuration :
  Forall op_host os -> stop_works h = true ->
  let s := container_run c os lxc_new in
  (container_ s = Some true -> state_ s = running) /\
  (let (s', error) := start_container h c configuration s in
   (error = Some "Container is already running"%string /\ s' = s <-> state_ s = running) /\
   (state_ s <> running ->
     match error with
     | None => state_ s' = running /\ container_ s' = Some true
     | Some _ => state_ s' = inactive /\ container_ s' <> Some true
     end)) /\
  (container_ s = Some true -> exists s', stop_container h s = (s', None) /\
     state_ s' = inactive /\ container_ s' <> Some true) /\
  (state_ s = running -> forall later, Forall op_host later ->
     state_ (container_run c later (container_died s)) = running /\
     container_ (container_run c later (container_died s)) <> Some true).
Proof.
  intros Hos Hstop. cbv zeta.
  assert (Hk : known (container_run c os lxc_new)) by (by apply container_run_known).
  set (s := container_run c os lxc_new) in *. split; [exact Hk|]. split; [|split].
  - pose proof (start_container_ok h c configuration s Hstop Hk) as H.
    destruct (start_container h c configuration s) as [s' error] eqn:E.
    destruct (decide (state_ s = running)) as [Hr|Hr].
    + destruct H as [-> ->]. by split.
    + split; [|by intros _]. split; [|done]. intros [-> ->]. exfalso. destruct H as [_ Hc].
      unfold start_container in E. rewrite decide_False in E by done.
      destruct (start h c _ s) as [s1 [[]|e]]; [done|].
      injection E as _ E. unfold string_format in E.
      rewrite boost_format_printf in E by (apply list_elem_of_In; cbn; auto 20). discriminate E.
  - intros Hc. pose proof (stop_container_ok h s Hstop Hk) as H.
    destruct (stop_container h s) as [s' error]. rewrite Hc in H. destruct H as [-> Hi].
    by exists s'.
  - intros Hr later Hl. apply container_run_stuck; [done|]. split; [done|].
    cbn. by destruct (container_ s).
Qed.

(** A host where everything works, without the bridge and binderfs. *)
Definition good_host : Host :=
  mkHost false false false 0 (Some false) true (fun _ _ => true) true true false false None
    (fun _ => false) (fun _ => Some (mkStat 259 8630 0 0)) (fun _ => true) (fun _ => true)
    (fun _ => true) (fun _ => true) (fun _ => None) true (fun l => l) (fun l => l) (fun s => [s])
    "/rootfs" "/combined" "/log" "/data" "/state" "/devices" (fun s => s) "".

#[local] Existing Instance toy_format.
#[local] Existing Instance toy_format_laws.

Definition some_settings : Settings := mkSettings true false "" "" [] 1000 1000.
Definition some_request : Op := StartRequest good_host (mkConfiguration [] [] []).

(** Started, and then it dies: neither stopping nor starting gets it back. *)
Lemma container_lifecycle_witness :
  let s := container_run some_settings [some_request] lxc_new in
  container_ s = Some true /\
  (exists s', stop_container good_host s = (s', None) /\ state_ s' = inactive /\
    container_ s' <> Some true) /\
  container_ (container_run some_settings [StopRequest good_host; some_request] (container_died s))
    <> Some true.
Proof.
  assert (Hrun : container_ (container_run some_settings [some_request] lxc_new) = Some true)
    by (by vm_compute).
  destruct (container_lifecycle some_settings [some_request] good_host (mkConfiguration [] [] []))
    as (H1 & _ & H3 & H4); [by repeat constructor|done|].
  split; [exact Hrun|]. split; [exact (H3 Hrun)|].
  apply (H4 (H1 Hrun)). by repeat constructor.
Defined.

(** ** The ids of the guest *)

(** The host's id for the guest's id [i]. *)
Fixpoint maps (l : list IdRange) (i : Z) : option Z :=
  match l with
  | [] => None
  | r :: l =>
      if (inside r <=? i) && (i <? inside r + range_size r) then Some (outside r + (i - inside r))
      else maps l i
  end.

(** For a client whose user id is below 100000, the guest's system user is the client
    and the guest's other ids are the host's from 100000 on, so no two have the same id;
    the guest's id 999 has none, and how many there are depends on the client's id.  For
    any other client the size of the last range wraps around to a huge one. *)
Theorem id_map_ranges id :
  in_u 32 id ->
  (id < 100000 -> forall i, 0 <= i ->
    maps (id_ranges id) i =
      if i =? 1000 then Some id
      else if (i <? 999) || ((1001 <=? i) && (i <? 101000 - id)) then Some (100000 + i)
      else None) /\
  (id < 100000 -> forall i j k, 0 <= i -> 0 <= j ->
    maps (id_ranges id) i = Some k -> maps (id_ranges id) j = Some k -> i = j) /\
  (100000 <= id -> range_size <$> last (id_ranges id) = Some (2 ^ 32 + 99999 - id)).
Proof.
  intros Hid. unfold in_u in Hid.
  assert (Hfst : id < 100000 -> forall i, 0 <= i ->
    maps (id_ranges id) i =
      if i =? 1000 then Some id
      else if (i <? 999) || ((1001 <=? i) && (i <? 101000 - id)) then Some (100000 + i)
      else None).
  { intros Hs i Hi. unfold id_ranges, android_system_uid, unprivileged_uid.
    change (u32 (1000 - 1)) with 999. change (u32 (1000 + 1)) with 1001.
    change (u32 (100000 + 1000 + 1)) with 101001. rewrite wrapu_id by (unfold in_u; lia).
    cbn [maps inside outside range_size].
    destruct (Z.leb_spec 0 i), (Z.ltb_spec i (0 + 999)), (Z.ltb_spec i 999), (Z.eqb_spec i 1000),
      (Z.leb_spec 1000 i), (Z.ltb_spec i (1000 + 1)), (Z.leb_spec 1001 i),
      (Z.ltb_spec i (1001 + (100000 - id - 1))), (Z.ltb_spec i (101000 - id));
      cbn [andb orb]; try lia; try done; f_equal; lia. }
  split; [exact Hfst|]. split.
  - intros Hs i j k Hi Hj. rewrite !Hfst by done.
    destruct (Z.eqb_spec i 1000), (Z.eqb_spec j 1000);
      repeat match goal with |- context [if ?b then _ else _] => destruct b eqn:? end;
      intros H1 H2; try done; simplify_eq; lia.
  - intros Hl. cbn [id_ranges last fmap option_fmap option_map range_size]. f_equal.
    rewrite <- (wrapu_id 32 (2 ^ 32 + 99999 - id)) by (unfold in_u; lia).
    Transparent wrapu. unfold wrapu. Opaque wrapu.
    replace (2 ^ 32 + 99999 - id) with (100000 - id - 1 + 1 * 2 ^ 32) by lia.
    by rewrite Z.mod_add by lia.
Qed.

Lemma id_map_ranges_witness :
  maps (id_ranges 1000) 1000 = Some 1000 /\ maps (id_ranges 1000) 999 = None /\
  maps (id_ranges 1000) 10005 = Some 110005.
Proof.
  destruct (id_map_ranges 1000) as [H _]; [by split|].
  rewrite !H by lia. done.
Defined.

(** What liblxc is given, when it takes it. *)
Lemma setup_id_map_items {boost : BoostFormat} h c s :
  (forall k v, set_works h k v = true) ->
  effects (setup_id_map h c s).1 = effects s ++
    (SetItem (key h "lxc.id_map" "lxc.idmap") <$>
      concat (zip_with (fun u g => [range_text "u" u; range_text "g" g])
        (id_ranges (uid c)) (id_ranges (gid c)))).
Proof.
  intros Hset. unfold setup_id_map. generalize (concat (zip_with
    (fun u g => [range_text "u" u; range_text "g" g]) (id_ranges (uid c)) (id_ranges (gid c)))).
  intros l. revert s. induction l as [|x l IH]; intros s; [by rewrite app_nil_r|].
  cbn [for_each]. unfold bind at 1, set_config_item at 1. rewrite Hset. cbn [effect].
  rewrite IH. cbn [effects]. by rewrite <- app_assoc.
Qed.

(** ** Device numbers *)

(** A node is made with the number of the device it stands for when that has a major
    number of twelve bits and a minor number of eight; of a greater minor number only
    eight bits are kept. *)
Lemma device_number_kept dev :
  0 <= dev < 2 ^ 20 -> encoded_device_number (device_major dev) (device_minor dev) = dev.
Proof.
  intros Hd. unfold encoded_device_number, device_major, device_minor.
  assert (Hlow : Z.land dev 0xff = dev mod 256) by (change 0xff with (Z.ones 8); by rewrite Z.land_ones).
  assert (Hmaj : Z.lor (Z.land (Z.shiftr dev 8) 0xfff) (Z.land (Z.shiftr dev 32) 0xfffff000) = dev / 256).
  { rewrite (Z.shiftr_div_pow2 dev 32), Z.div_small by lia. rewrite Z.land_0_l, Z.lor_0_r.
    change 0xfff with (Z.ones 12). rewrite Z.land_ones, Z.shiftr_div_pow2 by lia.
    apply Z.mod_small. split; [apply Z.div_pos; lia|apply Z.div_lt_upper_bound; lia]. }
  assert (Hmin : Z.lor (Z.land dev 0xff) (Z.land (Z.shiftr dev 12) 0xffffff00) = dev mod 256).
  { assert (Hz : Z.land (Z.shiftr dev 12) 0xffffff00 = 0).
    { assert (H0 : 0 <= Z.shiftr dev 12 < 256).
      { rewrite Z.shiftr_div_pow2 by lia.
        split; [apply Z.div_pos; lia|apply Z.div_lt_upper_bound; lia]. }
      revert H0. generalize (Z.shiftr dev 12). intros k Hk.
      rewrite <- (Z.mod_small k 256) by done. change 256 with (2 ^ 8). rewrite <- Z.land_ones by lia.
      rewrite <- Z.land_assoc. change (Z.land (Z.ones 8) 0xffffff00) with 0. apply Z.land_0_r. }
    by rewrite Hz, Z.lor_0_r. }
  rewrite Hmaj, Hmin, Z.land_0_r, Z.shiftl_0_l, Z.lor_0_r.
  pose proof (Z.mod_pos_bound dev 256). pose proof (Z.div_mod dev 256).
  assert (0 <= dev / 256 < 4096) by (split; [apply Z.div_pos; lia|apply Z.div_lt_upper_bound; lia]).
  assert (Hi : forall x, 0 <= x < 2 ^ 31 -> i32 x = x)
    by (intros x Hx; apply wraps_id; [lia|]; unfold in_s; cbn; lia).
  rewrite (Hi (dev mod 256)) by lia. rewrite (Hi (dev / 256)) by lia. rewrite Z.shiftl_mul_pow2 by lia.
  change (2 ^ 8) with 256. rewrite Hi by lia.
  assert (Hm : Z.land (dev mod 256) 0xff = dev mod 256).
  { change 0xff with (Z.ones 8). rewrite Z.land_ones by lia. apply Z.mod_small. change (2 ^ 8) with 256. lia. }
  rewrite Hm.
  assert (Hz : Z.land (dev mod 256) (dev / 256 * 256) = 0).
  { rewrite <- Hlow, <- Z.land_assoc, (Z.land_comm 0xff). change 0xff with (Z.ones 8).
    rewrite Z.land_ones by lia. change (2 ^ 8) with 256. rewrite Z.mod_mul by lia. apply Z.land_0_r. }
  rewrite <- Z.lxor_lor, <- Z.add_nocarry_lxor by done. lia.
Qed.

(** The number of the device with the major number 1 and the minor number 256. *)
Lemma device_number_lost :
  let dev := 2 ^ 20 + 2 ^ 8 in
  device_major dev = 1 /\ device_minor dev = 256 /\
  encoded_device_number (device_major dev) (device_minor dev) = 2 ^ 8.
Proof. by vm_compute. Qed.

(** ** Service *)

(** The connections' containers by id; one client at a time. *)
Record Service := mkService {
  next_connection_id_ : Z;
  connections_ : Connections LxcContainer
}.

Definition next_id (s : Service) : Z * Service :=
  (next_connection_id_ s, mkService (i32 (next_connection_id_ s + 1)) (connections_ s)).

(** [None]: the socket is closed. *)
Definition new_client (s : Service) : option Service :=
  if 1 <=? connections_size (connections_ s) then None
  else
    let '(id, s) := next_id s in
    Some (mkService (next_connection_id_ s) (connections_add id lxc_new (connections_ s))).

Lemma new_client_one s s' : new_client s = Some s' ->
  connections_ s = ∅ /\ connections_ s' = {[ next_connection_id_ s := lxc_new ]}.
Proof.
  unfold new_client, connections_size. destruct (Z.leb_spec 1 (Z.of_nat (size (connections_ s)))); [done|].
  assert (Hs : connections_ s = ∅) by (apply map_size_empty_inv; lia).
  cbn. intros [= <-]. split; [done|]. cbn. by rewrite Hs, connections_add_fresh.
Qed.
