(* ===== verification/Bridge.v ===== *)
(** * The bridge to Android

    What comes from the Android side over the wire.  [MessageProcessor]'s messages
    (Rpc.v) are invocations, which [invoke] (src/src/anbox/rpc/template_message_processor.h)
    takes apart and answers, and events.  [PlatformMessageProcessor]
    (bridge/platform_message_processor.cpp) hands them to [PlatformApiSkeleton]
    (bridge/platform_api_skeleton.cpp), which works on the clipboard of the platform, the
    window manager (WindowManager.v) and the database of applications (Applications.v);
    [ManagementApiMessageProcessor] (container/management_api_message_processor.cpp)
    hands them to the container (Container.v).

    protobuf is an input: [Serializable] is its promise for a type of messages.  The
    sender takes what it is given, as Network.v says when it does. *)

From S2P Require Import Prelude Utils Rect WindowManager Calls Applications Container Rpc.

(** ** Messages *)

Class Serializable (A : Type) := {
  serialize : A -> list Z;
  parse : list Z -> option A
}.

Class SerializableLaw (A : Type) `{Serializable A} : Prop :=
  parse_serialize (a : A) : parse (serialize a) = Some a.

(** [set_error] of a message type. *)
Class HasError (A : Type) := set_error : string -> A -> A.

Record Void := mkVoid { void_error : option string }.
Record ClipboardData := mkClipboard { clip_text : option string; clip_error : option string }.

#[export] Instance void_has_error : HasError Void := fun what _ => mkVoid (Some what).
#[export] Instance clipboard_has_error : HasError ClipboardData :=
  fun what r => mkClipboard (clip_text r) (Some what).

(** A message that arrives, with its type on the wire. *)
Inductive ClientMessage := Invoke (i : Invocation) | Events (l : list (list Z)).

(** ** A message processor and its server *)

Section processor.
Context (serialize_invocation : Invocation -> list Z) (parse_invocation : list Z -> Invocation)
  (serialize_result : Result -> list Z) (parse_result : list Z -> Result) {S : Type}.

(** The server's method gets the parameters and runs its closure with the response, or
    throws with the response as far as it was filled.  The state and the bytes sent;
    [None]: the exception about parameters that cannot be parsed. *)
Definition invoke {P R} `{Serializable P, Serializable R, HasError R}
    (function : P -> S -> S * (R + R * string)) (i : Invocation) (s : S) :
    option (S * list (list Z)) :=
  parameter_message ← parse (parameters i);
  let '(s, r) := function parameter_message s in
  let result_message :=
    match r with
    | inl r => r
    | inr (r, what) => set_error (String.append "Error processing request: " what) r
    end in
  Some (s, [send_response serialize_result (inv_id i) (serialize result_message)]).

Context (dispatch : Invocation -> S -> option (S * list (list Z)))
  (process_event_sequence : list Z -> S -> option S).

(** What the loop of [process_data] does with a message, in the order of [Rpc.process_loop];
    responses are for the callers of the other direction.  [None]: an exception, which
    ends the loop. *)
Definition run_action (a : Action) (s : S) : option (S * list (list Z)) :=
  match a with
  | Dispatch raw => dispatch (parse_invocation raw) s
  | ProcessEvent e => s ← process_event_sequence e s; Some (s, [])
  | FillResponse _ _ | RunClosure _ => Some (s, [])
  end.

Fixpoint run_actions (l : list Action) (s : S) : option (S * list (list Z)) :=
  match l with
  | [] => Some (s, [])
  | a :: l => '(s, out) ← run_action a s; '(s, rest) ← run_actions l s; Some (s, out ++ rest)
  end.

(** *** Messages one by one *)

Fixpoint run_events (l : list (list Z)) (s : S) : option S :=
  match l with
  | [] => Some s
  | e :: l => s ← process_event_sequence e s; run_events l s
  end.

Definition run_message (m : ClientMessage) (s : S) : option (S * list (list Z)) :=
  match m with
  | Invoke i => dispatch i s
  | Events l => s ← run_events l s; Some (s, [])
  end.

Fixpoint run_messages (ms : list ClientMessage) (s : S) : option (S * list (list Z)) :=
  match ms with
  | [] => Some (s, [])
  | m :: ms => '(s, out) ← run_message m s; '(s, rest) ← run_messages ms s; Some (s, out ++ rest)
  end.

Definition encode (m : ClientMessage) : Z * list Z :=
  match m with
  | Invoke i => (MT_invocation, serialize_invocation i)
  | Events l => (MT_response, serialize_result (mkResult None [] l))
  end.

(** The bytes come in pieces that do not end in a header. *)
Definition arrives (ms : list ClientMessage) (chunks : list (list Z)) : Prop :=
  let l := encode <$> ms in
  Forall small l /\ zlen (stream l) < 2 ^ 62 /\ concat chunks = stream l /\ untorn l 0 chunks = true.

Hypothesis parse_serialize_invocation : forall i, parse_invocation (serialize_invocation i) = i.
Hypothesis parse_serialize_result : forall r, parse_result (serialize_result r) = r.

Lemma run_actions_app l1 l2 s :
  run_actions (l1 ++ l2) s =
    '(s, out) ← run_actions l1 s; '(s, rest) ← run_actions l2 s; Some (s, out ++ rest).
Proof.
  revert s. induction l1 as [|a l1 IH]; intros s; cbn [app run_actions mbind option_bind].
  { by destruct (run_actions l2 s) as [[]|]. }
  destruct (run_action a s) as [[s1 out]|]; [|done]. cbn. rewrite IH.
  destruct (run_actions l1 s1) as [[s2 out2]|]; [|done]. cbn.
  destruct (run_actions l2 s2) as [[]|]; [|done]. cbn. by rewrite app_assoc.
Qed.

Lemma run_actions_events l : forall s,
  run_actions (ProcessEvent <$> l) s = s ← run_events l s; Some (s, []).
Proof.
  induction l as [|e l IH]; intros s; [done|]. cbn. destruct (process_event_sequence e s) as [s1|]; [|done].
  cbn. setoid_rewrite IH. by destruct (run_events l s1).
Qed.

(** The actions of a message are the message's. *)
Lemma handle_encode m calls : exists acts,
  handle parse_result (encode m).1 (encode m).2 calls = Some (acts, calls) /\
  forall s, run_actions acts s = run_message m s.
Proof.
  destruct m as [i|l]; unfold handle; cbn [encode fst snd].
  - exists [Dispatch (serialize_invocation i)]. split; [done|]. intros s.
    cbn. rewrite parse_serialize_invocation. destruct (dispatch i s) as [[]|]; [|done].
    cbn. by rewrite app_nil_r.
  - change (MT_response =? MT_invocation) with false. change (MT_response =? MT_response) with true.
    cbv iota. rewrite parse_serialize_result. cbn [result_id events].
    exists (ProcessEvent <$> l). split; [done|]. apply run_actions_events.
Qed.

Lemma handle_all_encode ms : forall calls done, exists acts,
  handle_all parse_result (encode <$> ms) calls done = Some (calls, done ++ acts) /\
  forall s, run_actions acts s = run_messages ms s.
Proof.
  induction ms as [|m ms IH]; intros calls done0; [by exists []; rewrite app_nil_r|].
  destruct (handle_encode m calls) as (acts & Hh & Hrun).
  destruct (IH calls (done0 ++ acts)) as (rest & Hall & Hrest). exists (acts ++ rest).
  cbn [fmap list_fmap handle_all]. destruct (encode m) as [type payload]. cbn [fst snd] in Hh.
  rewrite Hh. rewrite <- app_assoc in Hall. split; [exact Hall|]. intros s.
  rewrite run_actions_app, Hrun. cbn [run_messages].
  destruct (run_message m s) as [[s1 out]|]; [|done]. cbn. by rewrite Hrest.
Qed.

(** Over the wire the server sees the messages one by one. *)
Lemma messages_served ms chunks calls s : arrives ms chunks -> exists acts,
  feed parse_result chunks [] calls [] = (Waiting, [], calls, acts) /\
  run_actions acts s = run_messages ms s.
Proof.
  intros (Hsmall & Hbound & Hchunks & Hun).
  destruct (handle_all_encode ms calls []) as (acts & Hall & Hrun). exists acts. split; [|apply Hrun].
  apply (feed_stream parse_result chunks (encode <$> ms)); try done.
  destruct (encode <$> ms) as [|f l]; [done|]. cbn [incomplete]. unfold frame_of.
  rewrite zlen_frame. pose proof (zlen_nonneg f.2). unfold header_size. unfold zlen at 1. cbn. lia.
Qed.
End processor.

(** ** PlatformApiSkeleton *)

(** The clipboard of a platform (platform/base_platform.h). *)
Class Clipboard (C : Type) := {
  platform_set_clipboard_data : string -> C -> C;
  platform_get_clipboard_data : C -> string
}.

(** A text that is not empty can be had back, an empty one is ignored. *)
Class ClipboardLaw (C : Type) `{Clipboard C} : Prop :=
  get_set_clipboard text (c : C) :
    platform_get_clipboard_data (platform_set_clipboard_data text c) =
      if is_empty text then platform_get_clipboard_data c else text.

(** SDL's (platform/sdl/platform.cpp): the text it holds, empty when it has none. *)
#[export] Instance sdl_clipboard : Clipboard string := {
  platform_set_clipboard_data text c := if is_empty text then c else text;
  platform_get_clipboard_data c := if is_empty c then ""%string else c
}.

#[export] Instance sdl_clipboard_law : ClipboardLaw string.
Proof. intros text c. cbn -[is_empty]. by destruct (is_empty text) eqn:E; rewrite ?E. Qed.

(** [NullPlatform]'s (platform/null/platform.cpp), which has none. *)
#[export] Instance null_clipboard : Clipboard unit := {
  platform_set_clipboard_data _ c := c;
  platform_get_clipboard_data _ := ""%string
}.

(** *** The events *)

Record WindowStateMessage := mkWindowStateMessage {
  display_id : Z;
  m_has_surface : bool;
  frame_left : Z;
  frame_top : Z;
  frame_right : Z;
  frame_bottom : Z;
  m_package_name : string;
  task_id : Z;
  stack_id : Z
}.

Record EventSequence := mkEventSequence {
  boot_finished : bool;
  window_state_update : option (list WindowStateMessage * list WindowStateMessage);
  application_list_update : option ApplicationListUpdate
}.

(** [wm::Stack::Id] of an integer; the managers only ask whether it is [Freeform], so
    numbers that are none are as good as [Invalid]. *)
Definition stack_of (n : Z) : StackId :=
  if n =? 0 then Stack_Default else if n =? 1 then Stack_Fullscreen
  else if n =? 2 then Stack_Freeform else Stack_Invalid.

Definition convert_window_state (w : WindowStateMessage) : WindowState :=
  mkState (display_id w) (m_has_surface w)
    (mkRect (frame_left w) (frame_top w) (frame_right w) (frame_bottom w))
    (m_package_name w) (task_id w) (stack_of (stack_id w)).

Section skeleton.
Context {boost : BoostFormat} {C : Type} `{Clipboard C}
  (serialize_result : Result -> list Z)
  `{Serializable Void, Serializable ClipboardData, Serializable EventSequence}.
(** The launcher's directory, as in Applications.v, and the windows' renderer and
    platform, as in WindowManager.v; the session has a [MultiWindowManager]. *)
Context (exe : string) (snap : bool) (in_directory : string -> string) (writable : string -> bool)
  (has_renderer : bool) (native_ok create_window : Z -> bool) (platform : bool).

(** [boots]: how often the handler of the boot event ran. *)
Record Session := mkSession {
  clipboard : C;
  boot_finished_handler_ : bool;
  boots : Z;
  windows_ : gmap Z Window;
  wm_events : list WindowManager.Event;
  app_db_ : Database
}.

Definition set_clipboard_data (request : ClipboardData) (s : Session) :
    Session * (Void + Void * string) :=
  (match clip_text request with
   | Some text => mkSession (platform_set_clipboard_data text (clipboard s))
       (boot_finished_handler_ s) (boots s) (windows_ s) (wm_events s) (app_db_ s)
   | None => s
   end, inl (mkVoid None)).

Definition get_clipboard_data (_ : Void) (s : Session) :
    Session * (ClipboardData + ClipboardData * string) :=
  let text := platform_get_clipboard_data (clipboard s) in
  (s, inl (mkClipboard (if is_empty text then None else Some text) None)).

Definition handle_boot_finished_event (s : Session) : Session :=
  if boot_finished_handler_ s then
    mkSession (clipboard s) true (boots s + 1) (windows_ s) (wm_events s) (app_db_ s)
  else s.

Definition register_boot_finished_handler (s : Session) : Session :=
  mkSession (clipboard s) true (boots s) (windows_ s) (wm_events s) (app_db_ s).

(** The name the window manager finds for a package: [find_by_package], and [valid]. *)
Definition title_of (d : Database) (p : string) : option string :=
  let app := find_by_package p d in if item_valid app then Some (name app) else None.

Definition handle_window_state_update_event (u : list WindowStateMessage * list WindowStateMessage)
    (s : Session) : Session :=
  let '(ws, evs) := apply_window_state_update has_renderer native_ok (title_of (app_db_ s))
    create_window platform (windows_ s) (convert_window_state <$> u.1) (convert_window_state <$> u.2) in
  mkSession (clipboard s) (boot_finished_handler_ s) (boots s) ws (wm_events s ++ evs) (app_db_ s).

(** [None]: the exception about a launcher that cannot be written. *)
Definition handle_applications (u : ApplicationListUpdate) (s : Session) : option Session :=
  let '(db, ok) := handle_application_list_update_event exe snap in_directory writable u (app_db_ s) in
  if ok then
    Some (mkSession (clipboard s) (boot_finished_handler_ s) (boots s) (windows_ s) (wm_events s) db)
  else None.

(** ** PlatformMessageProcessor *)

Definition dispatch (i : Invocation) (s : Session) : option (Session * list (list Z)) :=
  if String.eqb (method_name i) "set_clipboard_data" then
    invoke serialize_result set_clipboard_data i s
  else if String.eqb (method_name i) "get_clipboard_data" then
    invoke serialize_result get_clipboard_data i s
  else Some (s, []).

Definition process_event_sequence (raw_events : list Z) (s : Session) : option Session :=
  match parse raw_events with
  | None => Some s
  | Some seq =>
      let s := if boot_finished seq then handle_boot_finished_event s else s in
      let s := match window_state_update seq with
               | Some u => handle_window_state_update_event u s
               | None => s
               end in
      match application_list_update seq with
      | Some u => handle_applications u s
      | None => Some s
      end
  end.
End skeleton.

Arguments Session : clear implicits.
Arguments mkSession {C}.
Arguments clipboard {C}.
Arguments boot_finished_handler_ {C}.
Arguments boots {C}.
Arguments windows_ {C}.
Arguments wm_events {C}.
Arguments app_db_ {C}.

(** ** ManagementApiMessageProcessor

    The messages of the container manager; the container's answers are those of
    [Container.start_container] and [Container.stop_container]. *)

Section management.
Context {boost : BoostFormat} (serialize_result : Result -> list Z)
  `{!Serializable Void, !Serializable Container.Configuration, !SerializableLaw Container.Configuration}
  (h : Host) (c : Settings).

(** The message of [StopContainer] has nothing the skeleton reads. *)
Record StopContainer := mkStop { force : bool }.
Context `{!Serializable StopContainer, !SerializableLaw StopContainer}.

Definition api_start_container (request : Container.Configuration) (s : LxcContainer) :
    LxcContainer * (Void + Void * string) :=
  let '(s, error) := start_container h c request s in (s, inl (mkVoid error)).

Definition api_stop_container (_ : StopContainer) (s : LxcContainer) :
    LxcContainer * (Void + Void * string) :=
  let '(s, error) := stop_container h s in (s, inl (mkVoid error)).

Definition management_dispatch (i : Invocation) (s : LxcContainer) :
    option (LxcContainer * list (list Z)) :=
  if String.eqb (method_name i) "start_container" then
    invoke serialize_result api_start_container i s
  else if String.eqb (method_name i) "stop_container" then
    invoke serialize_result api_stop_container i s
  else Some (s, []).

(** Events are ignored. *)
Definition management_process_event_sequence (_ : list Z) (s : LxcContainer) : option LxcContainer :=
  Some s.
(** The container manager's requests over the wire: the container is what the requests
    leave it as, one after the other, and every response has the error of its request. *)
Definition container_request (id : Z) (r : option Container.Configuration) : Invocation :=
  match r with
  | Some configuration => mkInvocation id "start_container" (serialize configuration) 1
  | None => mkInvocation id "stop_container" (serialize (mkStop false)) 1
  end.

Fixpoint container_serves (rs : list (Z * option Container.Configuration)) (s : LxcContainer) :
    LxcContainer * list (list Z) :=
  match rs with
  | [] => (s, [])
  | (id, r) :: rs =>
      let '(s, error) := match r with
                         | Some configuration => start_container h c configuration s
                         | None => stop_container h s
                         end in
      let '(s, rest) := container_serves rs s in
      (s, send_response serialize_result id (serialize (mkVoid error)) :: rest)
  end.

Lemma management_messages rs : forall s,
  run_messages management_dispatch management_process_event_sequence
    ((fun r => Invoke (container_request r.1 r.2)) <$> rs) s = Some (container_serves rs s).
Proof.
  induction rs as [|[id r] rs IH]; intros s; [done|]. cbn [fmap list_fmap run_messages fst snd].
  assert (H1 : run_message management_dispatch management_process_event_sequence
      (Invoke (container_request id r)) s =
    let '(s, error) := match r with
                       | Some configuration => start_container h c configuration s
                       | None => stop_container h s
                       end in
    Some (s, [send_response serialize_result id (serialize (mkVoid error))])).
  { destruct r as [configuration|]; cbn [run_message container_request];
      unfold management_dispatch; cbn [method_name].
    - change (String.eqb "start_container" "start_container") with true. cbv iota.
      unfold invoke. cbn [parameters inv_id]. rewrite parse_serialize. cbn [mbind option_bind].
      unfold api_start_container. by destruct (start_container h c configuration s).
    - change (String.eqb "stop_container" "start_container") with false.
      change (String.eqb "stop_container" "stop_container") with true. cbv iota.
      unfold invoke. cbn [parameters inv_id]. rewrite parse_serialize. cbn [mbind option_bind].
      unfold api_stop_container. by destruct (stop_container h s). }
  rewrite H1. cbn [container_serves].
  destruct (match r with Some _ => _ | None => _ end) as [s1 error]. cbn [mbind option_bind].
  change (list_fmap _ _ ?f rs) with (f <$> rs). rewrite IH. by destruct (container_serves rs s1).
Qed.
End management.

(** ** What a session is to Android

    A text in the clipboard, the windows, the applications by package, with their
    icons, and how often the system booted. *)

Record Desktop := mkDesktop {
  d_text : string;
  d_boots : Z;
  d_windows : gmap Z Window;
  d_events : list WindowManager.Event;
  d_apps : gmap string Item
}.

Inductive Request :=
  | SetClipboard (text : option string)
  | GetClipboard
  | Other (method : string) (params : list Z).

Inductive Answer := Done | Text (text : option string).

Inductive FromAndroid := Ask (id : Z) (r : Request) | Tell (l : list EventSequence).

Section desktop.
Context (has_renderer : bool) (native_ok create_window : Z -> bool) (platform : bool).

Definition desktop_event (d : Desktop) (e : EventSequence) : Desktop :=
  let boots := if boot_finished e then d_boots d + 1 else d_boots d in
  let '(ws, evs) :=
    match window_state_update e with
    | Some u => apply_window_state_update has_renderer native_ok (fun p => name <$> d_apps d !! p)
        create_window platform (d_windows d) (convert_window_state <$> u.1) (convert_window_state <$> u.2)
    | None => (d_windows d, [])
    end in
  mkDesktop (d_text d) boots ws (d_events d ++ evs)
    (match application_list_update e with Some u => apply_update u (d_apps d) | None => d_apps d end).

Definition desktop_request (r : Request) (d : Desktop) : Desktop * option Answer :=
  match r with
  | SetClipboard (Some text) =>
      (if is_empty text then d else mkDesktop text (d_boots d) (d_windows d) (d_events d) (d_apps d),
       Some Done)
  | SetClipboard None => (d, Some Done)
  | GetClipboard => (d, Some (Text (if is_empty (d_text d) then None else Some (d_text d))))
  | Other _ _ => (d, None)
  end.

Definition desktop_step (d : Desktop) (m : FromAndroid) : Desktop * list (Z * Answer) :=
  match m with
  | Ask id r =>
      let '(d, a) := desktop_request r d in
      (d, match a with Some a => [(id, a)] | None => [] end)
  | Tell l => (foldl desktop_event d l, [])
  end.

Fixpoint desktop_run (ms : list FromAndroid) (d : Desktop) : Desktop * list (Z * Answer) :=
  match ms with
  | [] => (d, [])
  | m :: ms =>
      let '(d, out) := desktop_step d m in
      let '(d, rest) := desktop_run ms d in (d, out ++ rest)
  end.
End desktop.

(** The names of methods are others; package names are as Android has them. *)
Definition plain_event (e : EventSequence) : Prop :=
  match application_list_update e with Some u => plain_update u | None => True end.

Definition legal (m : FromAndroid) : Prop :=
  match m with
  | Ask _ (Other method _) => method <> "set_clipboard_data"%string /\ method <> "get_clipboard_data"%string
  | Ask _ _ => True
  | Tell l => Forall plain_event l
  end.

(** ** The session is that desktop *)

Lemma update_one_find has_renderer native_ok f g create_window platform st w :
  (forall p, f p = g p) ->
  update_one has_renderer native_ok f create_window platform st w =
  update_one has_renderer native_ok g create_window platform st w.
Proof. intros H. unfold update_one. destruct st as [[ws us] evs]. by rewrite H. Qed.

Lemma apply_window_state_update_find has_renderer native_ok f g create_window platform ws u r :
  (forall p, f p = g p) ->
  apply_window_state_update has_renderer native_ok f create_window platform ws u r =
  apply_window_state_update has_renderer native_ok g create_window platform ws u r.
Proof.
  intros H. unfold apply_window_state_update.
  assert (Hl : forall l st, foldl (update_one has_renderer native_ok f create_window platform) st l =
    foldl (update_one has_renderer native_ok g create_window platform) st l).
  { induction l as [|w l IH]; intros st; [done|]. cbn [foldl].
    by rewrite (update_one_find _ _ f g) by done. }
  by rewrite Hl.
Qed.

(** Applications are filed under their packages, which have a name. *)
Definition filed (apps : gmap string Item) : Prop :=
  forall p i, apps !! p = Some i -> item_package i = p /\ is_empty p = false.

Lemma filed_insert apps a : is_empty (app_package a) = false -> filed apps ->
  filed (<[app_package a := stored_item a]> apps).
Proof.
  intros Ha Hf p i [[<- <-]|[_ H]]%lookup_insert_Some; [done|by apply Hf].
Qed.

Lemma filed_update u apps : filed apps -> filed (apply_update u apps).
Proof.
  intros Hf. unfold apply_update, stored, removed.
  assert (Hr : forall l m, filed m -> filed (foldl (fun m a => if is_empty (app_package a) then m
    else delete (app_package a) m) m l)).
  { induction l as [|a l IH]; intros m Hm; [done|]. cbn [foldl]. apply IH.
    destruct (is_empty (app_package a)); [done|]. intros p i [_ H]%lookup_delete_Some. by apply Hm. }
  apply (Hr (removed_applications u)) in Hf. revert Hf. generalize (foldl (fun m a =>
    if is_empty (app_package a) then m else delete (app_package a) m) apps (removed_applications u)).
  induction (applications u) as [|a l IH]; intros m Hm; [done|]. cbn [foldl]. apply IH.
  destruct (is_empty (app_package a)) eqn:E; [done|]. by apply filed_insert.
Qed.

Section refinement.
Context {boost : BoostFormat} {boost_laws : BoostFormatLaws} {C : Type} `{!Clipboard C, !ClipboardLaw C}
  (serialize_invocation : Invocation -> list Z) (parse_invocation : list Z -> Invocation)
  (serialize_result : Result -> list Z) (parse_result : list Z -> Result)
  `{!Serializable Void, !SerializableLaw Void, !Serializable ClipboardData, !SerializableLaw ClipboardData,
    !Serializable EventSequence, !SerializableLaw EventSequence}
  (exe : string) (snap : bool) (in_directory : string -> string)
  (has_renderer : bool) (native_ok create_window : Z -> bool) (platform : bool).

Abbreviation always := (fun _ : string => true).
Abbreviation session_dispatch := (@dispatch C _ serialize_result _ _).
Abbreviation session_event :=
  (@process_event_sequence boost C _ exe snap in_directory always has_renderer native_ok create_window platform).

Definition request_message (id : Z) (r : Request) : Invocation :=
  match r with
  | SetClipboard text => mkInvocation id "set_clipboard_data" (serialize (mkClipboard text None)) 1
  | GetClipboard => mkInvocation id "get_clipboard_data" (serialize (mkVoid None)) 1
  | Other method params => mkInvocation id method params 1
  end.

Definition message_of (m : FromAndroid) : ClientMessage :=
  match m with
  | Ask id r => Invoke (request_message id r)
  | Tell l => Events (serialize <$> l)
  end.

(** The response with the id of its request. *)
Definition answer_bytes (a : Z * Answer) : list Z :=
  send_response serialize_result a.1
    (match a.2 with Done => serialize (mkVoid None) | Text text => serialize (mkClipboard text None) end).

Record session_is (d : Desktop) (s : Session C) : Prop := {
  is_text : platform_get_clipboard_data (clipboard s) = d_text d;
  is_handler : boot_finished_handler_ s = true;
  is_boots : boots s = d_boots d;
  is_windows : windows_ s = d_windows d;
  is_events : wm_events s = d_events d;
  is_apps : database_ok exe snap in_directory (d_apps d) (app_db_ s);
  is_filed : filed (d_apps d)
}.

Lemma title_of_of d db p :
  database_ok exe snap in_directory d db -> filed d -> title_of db p = name <$> d !! p.
Proof.
  intros (_ & Hi & _) Hf. unfold title_of, find_by_package. rewrite Hi, lookup_fmap.
  destruct (d !! p) as [i|] eqn:E; [|done]. cbn. destruct (Hf p i E) as [<- He].
  unfold item_valid. cbn. unfold is_empty in He. by rewrite He.
Qed.

Abbreviation desktop_event' := (desktop_event has_renderer native_ok create_window platform).

Lemma event_refines d s e : plain_event e -> session_is d s -> exists s',
  session_event (serialize e) s = Some s' /\ session_is (desktop_event' d e) s'.
Proof.
  intros He [Ht Hh Hb Hw Hv Ha Hf].
  unfold process_event_sequence. rewrite parse_serialize. cbv zeta.
  set (s1 := if boot_finished e then handle_boot_finished_event s else s).
  assert (H1 : clipboard s1 = clipboard s /\ boot_finished_handler_ s1 = true /\
    boots s1 = (if boot_finished e then d_boots d + 1 else d_boots d) /\ windows_ s1 = d_windows d /\
    wm_events s1 = d_events d /\ app_db_ s1 = app_db_ s).
  { unfold s1, handle_boot_finished_event. rewrite Hh. destruct (boot_finished e); cbn; split_and!; congruence. }
  clearbody s1. destruct H1 as (Hc1 & Hh1 & Hb1 & Hw1 & Hv1 & Ha1).
  set (s2 := match window_state_update e with Some u => _ | None => s1 end).
  assert (H2 : clipboard s2 = clipboard s /\ boot_finished_handler_ s2 = true /\ boots s2 = boots s1 /\
    windows_ s2 = d_windows (desktop_event' d e) /\ wm_events s2 = d_events (desktop_event' d e) /\
    app_db_ s2 = app_db_ s).
  { unfold s2, desktop_event. destruct (window_state_update e) as [u|].
    - unfold handle_window_state_update_event.
      rewrite (apply_window_state_update_find _ _ (title_of (app_db_ s1)) (fun p => name <$> d_apps d !! p))
        by (intros p; rewrite Ha1; by apply title_of_of).
      rewrite Hw1. destruct (apply_window_state_update _ _ _ _ _ _ _ _) as [ws evs]. cbn. by rewrite Hv1.
    - cbn. by rewrite app_nil_r. }
  clearbody s2. destruct H2 as (Hc2 & Hh2 & Hb2 & Hw2 & Hv2 & Ha2).
  assert (Hd : d_text (desktop_event' d e) = d_text d /\
    d_boots (desktop_event' d e) = boots s2 /\
    d_apps (desktop_event' d e) =
      match application_list_update e with Some u => apply_update u (d_apps d) | None => d_apps d end).
  { unfold desktop_event. destruct (match window_state_update e with Some u => _ | None => _ end).
    cbn. by rewrite Hb2, Hb1. }
  destruct Hd as (Hdt & Hdb & Hda). unfold plain_event in He.
  destruct (application_list_update e) as [u|].
  - unfold handle_applications. rewrite Ha2.
    destruct (update_ok exe snap in_directory (d_apps d) (app_db_ s) u Ha He) as (db & -> & Hdb').
    eexists. split; [done|].
    split; cbn; rewrite ?Hda, ?Hdt, ?Hc2; try done. by apply filed_update.
  - exists s2. split; [done|]. split; rewrite ?Hda, ?Hdt, ?Hc2, ?Ha2; done.
Qed.

Lemma events_refine l : forall d s, Forall plain_event l -> session_is d s -> exists s',
  run_events session_event (serialize <$> l) s = Some s' /\ session_is (foldl desktop_event' d l) s'.
Proof.
  induction l as [|e l IH]; intros d s Hl Hs; [by exists s|].
  inversion Hl as [|? ? He Hl']; subst. destruct (event_refines d s e He Hs) as (s1 & H1 & Hs1).
  destruct (IH _ s1 Hl' Hs1) as (s2 & H2 & Hs2). exists s2. split; [|done].
  cbn [fmap list_fmap run_events]. by rewrite H1.
Qed.

Abbreviation step := (desktop_step has_renderer native_ok create_window platform).

Lemma message_refines d s m : legal m -> session_is d s -> exists s',
  run_message session_dispatch session_event (message_of m) s = Some (s', answer_bytes <$> (step d m).2) /\
  session_is (step d m).1 s'.
Proof.
  intros Hm Hs. destruct m as [id r|l].
  - cbn [message_of run_message desktop_step]. destruct r as [text| |method params]; unfold dispatch.
    + cbn [request_message method_name]. change (String.eqb "set_clipboard_data" "set_clipboard_data") with true. cbv iota.
      unfold invoke. cbn [parameters inv_id]. rewrite parse_serialize. cbn.
      destruct text as [text|]; eexists; (split; [reflexivity|]); [|done].
      destruct Hs as [Ht Hh Hb Hw Hv Ha Hf]. cbn -[is_empty].
      destruct (is_empty text) eqn:E; split; cbn; try done; rewrite get_set_clipboard, E; done.
    + cbn [request_message method_name]. change (String.eqb "get_clipboard_data" "set_clipboard_data") with false.
      change (String.eqb "get_clipboard_data" "get_clipboard_data") with true. cbv iota.
      unfold invoke. cbn [parameters inv_id]. rewrite parse_serialize. cbn -[is_empty].
      exists s. split; [|done]. unfold answer_bytes. cbn -[is_empty]. by rewrite (is_text _ _ Hs).
    + destruct Hm as [H1 H2]. cbn [request_message method_name].
      rewrite (proj2 (String.eqb_neq _ _) H1), (proj2 (String.eqb_neq _ _) H2). by exists s.
  - cbn [message_of run_message desktop_step fst snd fmap list_fmap].
    destruct (events_refine l d s Hm Hs) as (s1 & H1 & Hs1). exists s1. by rewrite H1.
Qed.

Lemma messages_refine ms : forall d s, Forall legal ms -> session_is d s -> exists s',
  let '(d', out) := desktop_run has_renderer native_ok create_window platform ms d in
  run_messages session_dispatch session_event (message_of <$> ms) s = Some (s', answer_bytes <$> out) /\
  session_is d' s'.
Proof.
  induction ms as [|m ms IH]; intros d s Hms Hs; [by exists s|].
  inversion Hms as [|? ? Hm Hms']; subst. destruct (message_refines d s m Hm Hs) as (s1 & H1 & Hs1).
  cbn [desktop_run fmap list_fmap run_messages]. destruct (step d m) as [d1 out]. cbn [fst snd] in *.
  destruct (IH d1 s1 Hms' Hs1) as (s2 & H2). exists s2.
  destruct (desktop_run _ _ _ _ ms d1) as [d2 rest]. destruct H2 as [H2 Hs2]. split; [|done].
  rewrite H1. cbn [mbind option_bind]. change (@list_fmap FromAndroid ClientMessage message_of ms)
    with (message_of <$> ms). rewrite H2. cbn. by rewrite fmap_app.
Qed.

(** C3: the session refines its desktop.  Requests and events that arrive as bytes, cut
    anywhere but inside a header, leave the session with the clipboard, the windows, the
    applications and the number of boots that they leave the desktop with, one after the
    other; every request for the clipboard is answered once, in order, with its id, and a
    request for a method the session does not have is not answered at all; nothing of the
    bytes stays behind and the calls of the other direction are left alone. *)
Theorem session_refines ms chunks calls d s :
  (forall i, parse_invocation (serialize_invocation i) = i) ->
  (forall r, parse_result (serialize_result r) = r) ->
  arrives serialize_invocation serialize_result (message_of <$> ms) chunks ->
  Forall legal ms -> session_is d s ->
  let '(d', out) := desktop_run has_renderer native_ok create_window platform ms d in
  exists acts s',
    feed parse_result chunks [] calls [] = (Waiting, [], calls, acts) /\
    run_actions parse_invocation session_dispatch session_event acts s =
      Some (s', answer_bytes <$> out) /\
    session_is d' s'.
Proof.
  intros Hi Hr Ha Hms Hs.
  destruct (messages_served serialize_invocation parse_invocation serialize_result parse_result
    session_dispatch session_event Hi Hr _ chunks calls s Ha) as (acts & Hfeed & Hrun).
  destruct (messages_refine ms d s Hms Hs) as (s' & H).
  destruct (desktop_run _ _ _ _ ms d) as [d' out]. destruct H as [H Hs'].
  exists acts, s'. by rewrite Hrun.
Qed.
End refinement.

(** ** At a concrete input

    A serialisation for the example: the number of the message. *)

Definition toy_serializable {A} `{Countable A} : Serializable A := {|
  serialize a := [Zpos (countable.encode a)];
  parse l := match l with [Zpos p] => countable.decode p | _ => None end
|}.

Lemma toy_law {A} `{Countable A} : @SerializableLaw A toy_serializable.
Proof. intros a. cbn. apply decode_encode. Qed.

#[local] Instance void_dec : EqDecision Void.
Proof. solve_decision. Defined.

#[local] Instance void_countable : Countable Void.
Proof.
  apply (inj_countable' (void_error)
    (mkVoid)).
  by intros [].
Defined.

#[local] Instance clipboarddata_dec : EqDecision ClipboardData.
Proof. solve_decision. Defined.

#[local] Instance clipboarddata_countable : Countable ClipboardData.
Proof.
  apply (inj_countable' (fun r => (clip_text r, clip_error r))
    (fun '(x0, x1) => mkClipboard x0 x1)).
  by intros [].
Defined.

#[local] Instance intentmessage_dec : EqDecision IntentMessage.
Proof. solve_decision. Defined.

#[local] Instance intentmessage_countable : Countable IntentMessage.
Proof.
  apply (inj_countable' (fun r => (m_action r, m_uri r, m_type r, m_package r, m_component r, m_categories r))
    (fun '(x0, x1, x2, x3, x4, x5) => mkIntentMessage x0 x1 x2 x3 x4 x5)).
  by intros [].
Defined.

#[local] Instance application_dec : EqDecision Application.
Proof. solve_decision. Defined.

#[local] Instance application_countable : Countable Application.
Proof.
  apply (inj_countable' (fun r => (app_name r, app_package r, app_intent r, app_icon r))
    (fun '(x0, x1, x2, x3) => mkApplication x0 x1 x2 x3)).
  by intros [].
Defined.

#[local] Instance applicationlistupdate_dec : EqDecision ApplicationListUpdate.
Proof. solve_decision. Defined.

#[local] Instance applicationlistupdate_countable : Countable ApplicationListUpdate.
Proof.
  apply (inj_countable' (fun r => (applications r, removed_applications r))
    (fun '(x0, x1) => mkUpdate x0 x1)).
  by intros [].
Defined.

#[local] Instance windowstatemessage_dec : EqDecision WindowStateMessage.
Proof. solve_decision. Defined.

#[local] Instance windowstatemessage_countable : Countable WindowStateMessage.
Proof.
  apply (inj_countable' (fun r => (display_id r, m_has_surface r, frame_left r, frame_top r, frame_right r, frame_bottom r, m_package_name r, task_id r, stack_id r))
    (fun '(x0, x1, x2, x3, x4, x5, x6, x7, x8) => mkWindowStateMessage x0 x1 x2 x3 x4 x5 x6 x7 x8)).
  by intros [].
Defined.

#[local] Instance eventsequence_dec : EqDecision EventSequence.
Proof. solve_decision. Defined.

#[local] Instance eventsequence_countable : Countable EventSequence.
Proof.
  apply (inj_countable' (fun r => (boot_finished r, window_state_update r, application_list_update r))
    (fun '(x0, x1, x2) => mkEventSequence x0 x1 x2)).
  by intros [].
Defined.

#[local] Instance invocation_dec : EqDecision Invocation.
Proof. solve_decision. Defined.

#[local] Instance invocation_countable : Countable Invocation.
Proof.
  apply (inj_countable' (fun r => (inv_id r, method_name r, parameters r, protocol_version r))
    (fun '(x0, x1, x2, x3) => mkInvocation x0 x1 x2 x3)).
  by intros [].
Defined.

#[local] Instance result_dec : EqDecision Result.
Proof. solve_decision. Defined.

#[local] Instance result_countable : Countable Result.
Proof.
  apply (inj_countable' (fun r => (result_id r, result_response r, events r))
    (fun '(x0, x1, x2) => mkResult x0 x1 x2)).
  by intros [].
Defined.

#[local] Existing Instance toy_serializable.
#[local] Existing Instance toy_law.
#[local] Existing Instance toy_format.
#[local] Existing Instance toy_format_laws.

(** Of a message whose serialisation it is; the others do not matter. *)
Definition toy_invocation : Invocation -> list Z := serialize.
Definition toy_result : Result -> list Z := serialize.
Definition toy_parse_invocation (l : list Z) : Invocation :=
  default (mkInvocation 0 "" [] 0) (parse l).
Definition toy_parse_result (l : list Z) : Result := default (mkResult None [] []) (parse l).

(** The clipboard is set, the system boots and has an application, whose window comes up;
    the clipboard is read, and something else is asked for. *)
Definition toy_window : WindowStateMessage :=
  mkWindowStateMessage 0 true 0 0 10 10 "org.a" 7 2.

Definition toy_messages : list FromAndroid :=
  [ Ask 1 (SetClipboard (Some "hi"%string));
    Tell [mkEventSequence true None (Some (mkUpdate [app_a] []));
          mkEventSequence false (Some ([toy_window], [])) None];
    Ask 2 GetClipboard; Ask 3 (Other "unknown" []) ].

Definition toy_session : Session string :=
  mkSession ""%string true 0 ∅ [] (mkDatabase (mkStorage false ∅) ∅ false).

Definition toy_desktop : Desktop := mkDesktop "" 0 ∅ [] ∅.

Definition toy_stream : list Z :=
  stream (encode toy_invocation toy_result <$> (message_of <$> toy_messages)).

Lemma session_refines_witness : exists acts s',
  feed toy_parse_result [toy_stream] [] ∅ [] = (Waiting, [], ∅, acts) /\
  run_actions toy_parse_invocation (dispatch toy_result)
    (process_event_sequence "/usr/bin/anbox" false (String.append "/apps/") (fun _ => true) true
      (fun _ => true) (fun _ => true) true) acts toy_session =
    Some (s', answer_bytes toy_result <$> [(1, Done); (2, Text (Some "hi"%string))]) /\
  boots s' = 1 /\ title <$> windows_ s' !! 7 = Some "A"%string.
Proof.
  assert (Hrun : let r := desktop_run true (fun _ => true) (fun _ => true) true toy_messages toy_desktop in
    r.2 = [(1, Done); (2, Text (Some "hi"%string))] /\ d_boots r.1 = 1 /\
    title <$> d_windows r.1 !! 7 = Some "A"%string) by (split_and!; by vm_compute).
  pose proof (session_refines toy_invocation toy_parse_invocation toy_result toy_parse_result
    "/usr/bin/anbox" false (String.append "/apps/") true (fun _ => true) (fun _ => true) true
    toy_messages [toy_stream] ∅ toy_desktop toy_session) as H.
  destruct (desktop_run _ _ _ _ toy_messages toy_desktop) as [d' out].
  cbn in Hrun. destruct Hrun as (-> & Hb & Hw).
  destruct H as (acts & s' & Hfeed & Hacts & Hs').
  - intros i. unfold toy_parse_invocation, toy_invocation. by rewrite parse_serialize.
  - intros r. unfold toy_parse_result, toy_result. by rewrite parse_serialize.
  - unfold arrives. cbv zeta. split_and!; [repeat constructor|by vm_compute|apply app_nil_r|by vm_compute].
  - repeat constructor; done.
  - split; try done.
    split; [intros f _; done|]. split; [symmetry; apply (fmap_empty clear_icon)|]. by split; [|right].
  - exists acts, s'. split; [exact Hfeed|]. split; [exact Hacts|].
    destruct Hs' as [_ _ H1 H2 _ _ _]. split; [exact (eq_trans H1 Hb)|]. rewrite H2. exact Hw.
Defined.
