(* ===== verification/Wayland.v ===== *)
(** * Windows on Wayland

    A [WaylandWindow] (src/src/fydeos/wayland_window.{h,cc}) shows what the renderer draws
    through a pool of buffers shared with the compositor: [bind] hands one out to draw
    into, [unbind] gives it to the compositor, which releases it later.  The renderer's
    part is in graphics/emugl/Renderer.cpp: [createFydeBuffer] and [deleteFydeBuffer]
    make and delete what OpenGL needs for a buffer, [bindWindow_locked] and
    [unbind_locked] surround a frame.

    The kernel's buffer manager and the compositor are inputs: whether a buffer can be
    had and how many planes it has, and when it is released.  A [Buffer] is known by its
    address.  The frames and the messages of the compositor are on two threads; any
    order of whole steps is possible. *)

From S2P Require Import Prelude Gl Rect RenderState.

(** ** Buffers *)

Inductive BufferState := NONE | IDLE | DIRTY | BUSY.

Global Instance buffer_state_eq_dec : EqDecision BufferState.
Proof. solve_decision. Defined.

Record Buffer_Ext := mkExt { image : Z; texture : Z; fbo : Z }.

Record Buffer := mkBuffer {
  address : Z;
  buffer_width : Z;
  buffer_height : Z;
  state : BufferState;
  ext : Buffer_Ext
}.

Definition set_state (s : BufferState) (b : Buffer) : Buffer :=
  mkBuffer (address b) (buffer_width b) (buffer_height b) s (ext b).

(** [next_address]: where the next buffer will be; [commits]: what the compositor was
    given, in order. *)
Record WaylandWindow := mkWayland {
  current_rect_ : Rect;
  scale_ : Z;
  buffers_ : list Buffer;
  next_address : Z;
  commits : list Z
}.

(** The constructor: the scale it is given is not used. *)
Definition wayland_new (frame : Rect) : WaylandWindow :=
  mkWayland (mkRect (left frame) (top frame) (right frame) (bottom frame)) 1 [] 1 [].

Definition with_buffers (l : list Buffer) (p : WaylandWindow) : WaylandWindow :=
  mkWayland (current_rect_ p) (scale_ p) l (next_address p) (commits p).

(** [buffer] has the size of the window. *)
Definition fits (p : WaylandWindow) (b : Buffer) : bool :=
  (width (current_rect_ p) =? buffer_width b) && (height (current_rect_ p) =? buffer_height b).

Definition usable (p : WaylandWindow) (b : Buffer) : bool :=
  fits p b && bool_decide (state b = IDLE).

(** The state of the buffer at an address. *)
Definition mark (a : Z) (s : BufferState) (l : list Buffer) : list Buffer :=
  (fun b => if address b =? a then set_state s b else b) <$> l.

(** The listener: the compositor released the buffer. *)
Definition buffer_release (a : Z) (p : WaylandWindow) : WaylandWindow :=
  with_buffers
    ((fun b => if address b =? a then set_state (if fits p b then IDLE else DIRTY) b else b)
      <$> buffers_ p) p.

(** [unbind]: attached and committed; [None]: the buffer is not of this window. *)
Definition wayland_unbind (a : Z) (p : WaylandWindow) : option WaylandWindow :=
  match List.find (fun b => address b =? a) (buffers_ p) with
  | None => None
  | Some b => Some (mkWayland (current_rect_ p) (scale_ p) (buffers_ p) (next_address p) (commits p ++ [address b]))
  end.

(** The renderer writes through the pointer [bind] gave it. *)
Definition set_ext (a : Z) (e : Buffer_Ext) (p : WaylandWindow) : WaylandWindow :=
  with_buffers
    ((fun b => if address b =? a
               then mkBuffer (address b) (buffer_width b) (buffer_height b) (state b) e else b)
      <$> buffers_ p) p.

Definition get_ext (a : Z) (p : WaylandWindow) : option Buffer_Ext :=
  ext <$> List.find (fun b => address b =? a) (buffers_ p).

(** [shell_surface_bounds_changed], as far as the buffers are concerned; the window's
    frame and its task get the same rectangle. *)
Definition bounds_changed (x y w h : Z) (p : WaylandWindow) : WaylandWindow :=
  mkWayland (mkRect x y (i32 (x + w)) (i32 (y + h))) (scale_ p) (buffers_ p) (next_address p) (commits p).

(** ** What OpenGL needs for a buffer *)

Definition EGL_LINUX_DMA_BUF_EXT : Z := 0x3270.

(** The answer of the buffer manager: no buffer, or one of so many planes. *)
Inductive Gbm := NoBuffer | Planes (n : Z).

Section buffers.
Context {D : Type} `{!Driver D}.

Definition texture_parameters : M D unit :=
  s_gles2_ (TexParameteri GL_TEXTURE_WRAP_S GL_CLAMP_TO_EDGE) ;;
  s_gles2_ (TexParameteri GL_TEXTURE_WRAP_T GL_CLAMP_TO_EDGE) ;;
  s_gles2_ (TexParameteri GL_TEXTURE_MAG_FILTER GL_LINEAR) ;;
  s_gles2_ (TexParameteri GL_TEXTURE_MIN_FILTER GL_LINEAR).

(** A texture over the image and a framebuffer over the texture. *)
Definition attach_image (image : Z) : M D Buffer_Ext :=
  texture ← s_gles2 GenTexture;
  s_gles2_ (BindTexture texture) ;;
  texture_parameters ;;
  s_gles2_ (EGLImageTargetTexture2D image) ;;
  fbo ← s_gles2 GenFramebuffer;
  s_gles2_ (BindFramebuffer fbo) ;;
  s_gles2_ (FramebufferTexture2D texture) ;;
  mret (mkExt image texture fbo).

(** [None]: the trap for an incomplete framebuffer.  The attributes describe the buffer. *)
Definition createFydeBuffer : M D (option Buffer_Ext) :=
  image ← (fun d => eglCreateImageKHR EGL_NO_CONTEXT EGL_LINUX_DMA_BUF_EXT 0 d);
  e ← attach_image image;
  status ← s_gles2 CheckFramebufferStatus;
  if negb (status =? GL_FRAMEBUFFER_COMPLETE) then mret None
  else s_gles2_ (BindTexture 0) ;; mret (Some e).

(** The framebuffer is deleted as if it were a texture. *)
Definition deleteFydeBuffer (e : Buffer_Ext) : M D unit :=
  s_gles2_ (DeleteTextures [fbo e]) ;;
  s_gles2_ (DeleteTextures [texture e]) ;;
  egl_destroy_image (image e).

(** ** DequeueBuffer *)

(** [CreateBuffer]; [None]: the process dies, at the trap above or because the listener
    is added to a buffer that there is not.  A buffer of several planes is left without
    an image. *)
Definition create_buffer (gbm : Gbm) (p : WaylandWindow) : M D (option Buffer) :=
  let new e := mkBuffer (next_address p) (i32 (width (current_rect_ p) * scale_ p))
    (i32 (height (current_rect_ p) * scale_ p)) IDLE e in
  match gbm with
  | NoBuffer => mret None
  | Planes n =>
      if n =? 1 then e ← createFydeBuffer; mret (new <$> e)
      else mret (Some (new (mkExt 0 0 0)))
  end.

(** The loop over the dirty buffers: they leave the pool. *)
Fixpoint drop_dirty (l : list Buffer) : M D (list Buffer) :=
  match l with
  | [] => mret []
  | b :: l =>
      if negb (bool_decide (state b = DIRTY)) then l ← drop_dirty l; mret (b :: l)
      else deleteFydeBuffer (ext b) ;; drop_dirty l
  end.

Inductive Dequeued := Got (a : Z) (p : WaylandWindow) | Died | OutOfFuel.

Fixpoint dequeue (n : nat) (gbm : Gbm) (p : WaylandWindow) : M D Dequeued :=
  match n with
  | O => mret OutOfFuel
  | S n =>
      match List.find (usable p) (buffers_ p) with
      | Some b => mret (Got (address b) (with_buffers (mark (address b) BUSY (buffers_ p)) p))
      | None =>
          buffer ← create_buffer gbm p;
          match buffer with
          | None => mret Died
          | Some b =>
              l ← drop_dirty (buffers_ p);
              dequeue n gbm (mkWayland (current_rect_ p) (scale_ p) (l ++ [b]) (next_address p + 1) (commits p))
          end
      end
  end.

(** Once a buffer was made it is found. *)
Definition DequeueBuffer (gbm : Gbm) (p : WaylandWindow) : M D Dequeued := dequeue 2 gbm p.

(** [bind]: the address of the buffer's [Buffer_Ext]. *)
Definition wayland_bind (gbm : Gbm) (p : WaylandWindow) : M D Dequeued := DequeueBuffer gbm p.
End buffers.

(** ** The pool with its two users

    [bound]: handed to the renderer for a frame; [held]: committed and not yet released,
    which the compositor does with what it holds.  Between the steps anything may happen
    to the driver. *)

Record Pool := mkPool { window : WaylandWindow; bound : gset Z; held : gset Z }.

Definition pool_new (frame : Rect) : Pool := mkPool (wayland_new frame) ∅ ∅.

Section pool.
Context {D : Type} `{!Driver D}.

Inductive pool_step : Pool * D -> Pool * D -> Prop :=
  | pool_bind p b h d gbm a p' d' :
      wayland_bind gbm p d = (Got a p', d') ->
      pool_step (mkPool p b h, d) (mkPool p' ({[a]} ∪ b) h, d')
  | pool_write p b h d a e :
      a ∈ b -> pool_step (mkPool p b h, d) (mkPool (set_ext a e p) b h, d)
  | pool_unbind p b h d a p' :
      a ∈ b -> wayland_unbind a p = Some p' ->
      pool_step (mkPool p b h, d) (mkPool p' (b ∖ {[a]}) ({[a]} ∪ h), d)
  | pool_release p b h d a :
      a ∈ h -> pool_step (mkPool p b h, d) (mkPool (buffer_release a p) b (h ∖ {[a]}), d)
  | pool_bounds p b h d x y w ht :
      pool_step (mkPool p b h, d) (mkPool (bounds_changed x y w ht p) b h, d)
  | pool_driver s d d' : pool_step (s, d) (s, d').

(** The buffers in use are the busy ones; addresses are not used again. *)
Record pool_ok (s : Pool) : Prop := {
  ok_scale : scale_ (window s) = 1;
  ok_nodup : NoDup (address <$> buffers_ (window s));
  ok_fresh : Forall (fun b => address b < next_address (window s)) (buffers_ (window s));
  ok_busy : forall a, a ∈ bound s ∪ held s <->
    (exists b, b ∈ buffers_ (window s) /\ address b = a /\ state b = BUSY);
  ok_disjoint : bound s ## held s
}.

Lemma find_elem {A} (f : A -> bool) l x : List.find f l = Some x -> x ∈ l /\ f x = true.
Proof. intros H%List.find_some. by rewrite list_elem_of_In. Qed.

Lemma drop_dirty_run l : forall d,
  (drop_dirty l d).1 = filter (fun b => state b <> DIRTY) l.
Proof.
  induction l as [|b l IH]; intros d; [done|]. cbn [drop_dirty].
  case_bool_decide as Hb; cbn [negb].
  - rewrite filter_cons_False by (intros H; by apply H). rewrite bind_run. apply IH.
  - rewrite filter_cons_True by done. rewrite bind_run. cbn. by rewrite IH.
Qed.

Lemma i32_idem x : i32 (i32 x) = i32 x.
Proof. apply wraps_id; [lia|]. apply wraps_range. lia. Qed.

Lemma create_buffer_some gbm p d b :
  scale_ p = 1 -> (create_buffer gbm p d).1 = Some b ->
  address b = next_address p /\ state b = IDLE /\ usable p b = true.
Proof.
  intros Hs H.
  assert (Hb : exists e, b = mkBuffer (next_address p) (i32 (width (current_rect_ p) * scale_ p))
    (i32 (height (current_rect_ p) * scale_ p)) IDLE e).
  { unfold create_buffer in H. destruct gbm as [|n]; [done|]. destruct (n =? 1).
    - rewrite bind_run in H. cbn in H. destruct (createFydeBuffer d).1 as [e|]; [|done].
      cbn in H. simplify_eq. eauto.
    - cbn in H. simplify_eq. eauto. }
  destruct Hb as [e ->]. split; [done|]. split; [done|]. unfold usable, fits. cbn [buffer_width buffer_height state].
  rewrite Hs, !Z.mul_1_r. unfold width, height. rewrite !i32_idem, !Z.eqb_refl.
  by rewrite bool_decide_eq_true_2.
Qed.

(** What [DequeueBuffer] does: a buffer that is idle and fits is taken, or one is made
    and the dirty ones are dropped. *)
Lemma dequeue_spec gbm p d :
  scale_ p = 1 ->
  match (DequeueBuffer gbm p d).1 with
  | Got a p' =>
      (exists b, b ∈ buffers_ p /\ address b = a /\ usable p b = true /\
         p' = with_buffers (mark a BUSY (buffers_ p)) p) \/
      (exists b, address b = next_address p /\ a = next_address p /\ usable p b = true /\
         p' = mkWayland (current_rect_ p) (scale_ p)
           (mark a BUSY (filter (fun b => state b <> DIRTY) (buffers_ p) ++ [b]))
           (next_address p + 1) (commits p))
  | Died => List.find (usable p) (buffers_ p) = None /\ (create_buffer gbm p d).1 = None
  | OutOfFuel => False
  end.
Proof.
  intros Hs. unfold DequeueBuffer. cbn [dequeue].
  destruct (List.find (usable p) (buffers_ p)) as [b|] eqn:E.
  { cbn. left. apply find_elem in E as [? ?]. eauto. }
  rewrite bind_run. destruct (create_buffer gbm p d) as [[b|] d1] eqn:Ec; [|done].
  pose proof (create_buffer_some gbm p d b Hs) as Hb. rewrite Ec in Hb. cbn [fst] in Hb.
  destruct (Hb eq_refl) as (Ha & Hi & Hu). cbn [fst snd]. rewrite bind_run, drop_dirty_run.
  set (l := filter _ _). set (p1 := mkWayland _ _ _ _ _).
  assert (Hf : List.find (usable p1) (buffers_ p1) = Some b).
  { change (usable p1) with (usable p). cbn [p1 buffers_].
    assert (Hl : List.find (usable p) l = None).
    { destruct (List.find (usable p) l) as [x|] eqn:El; [|done].
      apply find_elem in El as [[_ Hx]%list_elem_of_filter Hux].
      by rewrite (List.find_none _ _ E x) in Hux by by apply list_elem_of_In. }
    clear -Hl Hu. induction l as [|x l IH]; cbn in *; [by rewrite Hu|].
    destruct (usable p x); [done|]. by apply IH. }
  rewrite Hf. cbn. right. exists b. by rewrite Ha.
Qed.

(** *** What is committed *)

Lemma unbind_commits a p p' : wayland_unbind a p = Some p' -> commits p' = commits p ++ [a].
Proof.
  unfold wayland_unbind. destruct (List.find _ _) as [b|] eqn:E; [|done].
  apply find_elem in E as [_ E]. intros [= <-]. cbn. do 2 f_equal. lia.
Qed.

Lemma bind_commits gbm p d a p' : (wayland_bind gbm p d).1 = Got a p' -> commits p' = commits p.
Proof.
  unfold wayland_bind, DequeueBuffer. cbn [dequeue].
  destruct (List.find _ _) as [b|]; [by intros [= _ <-]|]. rewrite bind_run.
  destruct (create_buffer gbm p d).1 as [b|]; [|done]. rewrite bind_run.
  destruct (List.find _ _) as [b1|]; [by intros [= _ <-]|]. rewrite bind_run.
  destruct (create_buffer gbm _ _).1 as [b1|]; [|done]. by rewrite bind_run.
Qed.

(** *** Buffers by address *)

Lemma address_inj (l : list Buffer) b1 b2 :
  NoDup (address <$> l) -> b1 ∈ l -> b2 ∈ l -> address b1 = address b2 -> b1 = b2.
Proof.
  intros Hnd [i Hi]%list_elem_of_lookup [j Hj]%list_elem_of_lookup Ha.
  assert (i = j) as ->; [|congruence].
  eapply (NoDup_lookup _ i j (address b1) Hnd); rewrite list_lookup_fmap, ?Hi, ?Hj; cbn; congruence.
Qed.

Lemma address_remap a (s : Buffer -> BufferState) (l : list Buffer) :
  address <$> ((fun b => if address b =? a then set_state (s b) b else b) <$> l) = address <$> l.
Proof.
  rewrite <- list_fmap_compose. apply list_fmap_ext. intros i b _. cbn. by destruct (address b =? a).
Qed.

(** The busy buffers when the one at [a] changes its state. *)
Lemma busy_remap a (s : Buffer -> BufferState) (l : list Buffer) x :
  (exists b, b ∈ (fun b => if address b =? a then set_state (s b) b else b) <$> l /\
    address b = x /\ state b = BUSY) <->
  (x <> a /\ exists b, b ∈ l /\ address b = x /\ state b = BUSY) \/
  (x = a /\ exists b, b ∈ l /\ address b = a /\ s b = BUSY).
Proof.
  setoid_rewrite list_elem_of_fmap. split.
  - intros (b & (b0 & -> & Hb0) & Hx & Hs). destruct (Z.eqb_spec (address b0) a) as [Ha|Ha]; cbn in *.
    + right. split; [congruence|]. eauto.
    + left. split; [congruence|]. eauto.
  - intros [(Hx & b & Hb & Ha & Hs)|(-> & b & Hb & Ha & Hs)].
    + exists b. split; [|done]. exists b. split; [|done]. by destruct (Z.eqb_spec (address b) a); [congruence|].
    + exists (set_state (s b) b). split; [|done]. exists b. split; [|done]. by rewrite Ha, Z.eqb_refl.
Qed.

Lemma busy_mark a (l : list Buffer) x b0 : b0 ∈ l -> address b0 = a ->
  (exists b, b ∈ mark a BUSY l /\ address b = x /\ state b = BUSY) <->
  x = a \/ exists b, b ∈ l /\ address b = x /\ state b = BUSY.
Proof.
  intros Hb0 Ha. unfold mark. rewrite (busy_remap a (fun _ => BUSY)). split.
  - intros [[_ H]|[H _]]; eauto.
  - intros [->|H]; [right; eauto|]. destruct (decide (x = a)) as [->|Hx]; [right; eauto|left; eauto].
Qed.

Lemma busy_filter (l : list Buffer) x :
  (exists b, b ∈ filter (fun b => state b <> DIRTY) l /\ address b = x /\ state b = BUSY) <->
  exists b, b ∈ l /\ address b = x /\ state b = BUSY.
Proof.
  setoid_rewrite list_elem_of_filter. split; intros (b & Hb & Ha & Hs); exists b.
  - by destruct Hb.
  - split; [|done]. split; [|done]. by rewrite Hs.
Qed.

Lemma usable_idle p b : usable p b = true -> state b = IDLE.
Proof. unfold usable. intros [_ H]%andb_true_iff. by apply bool_decide_eq_true in H. Qed.

(** *** The invariant *)

Lemma pool_new_ok frame : pool_ok (pool_new frame).
Proof.
  split; cbn; [done|constructor|constructor| |set_solver].
  intros a. split; [set_solver|]. by intros (b & ?%not_elem_of_nil & _).
Qed.

(** The buffer that is handed out is not in use. *)
Lemma bind_ok p b h d gbm a p' d' :
  pool_ok (mkPool p b h) -> wayland_bind gbm p d = (Got a p', d') ->
  pool_ok (mkPool p' ({[a]} ∪ b) h) /\ (a ∉ b ∪ h) /\
  exists x, (x ∈ buffers_ p') /\ address x = a /\ fits p' x = true.
Proof.
  intros [Hs Hnd Hfr Hbusy Hdis] Hrun. cbn [window bound held] in *.
  pose proof (dequeue_spec gbm p d Hs) as H. unfold wayland_bind in Hrun. rewrite Hrun in H. cbn [fst] in H.
  destruct H as [(x & Hx & Hxa & Hu & ->)|(x & Hxa & -> & Hu & ->)].
  - assert (Ha : a ∉ b ∪ h).
    { rewrite Hbusy. intros (y & Hy & Hya & Hst).
      assert (y = x) as -> by (eapply address_inj; [done..|congruence]).
      by rewrite (usable_idle _ _ Hu) in Hst. }
    split; [|split; [done|]].
    + split; cbn.
      * done.
      * unfold mark. by rewrite (address_remap a (fun _ => BUSY)).
      * unfold mark. apply Forall_fmap. eapply Forall_impl; [exact Hfr|]. intros y Hy. cbn.
        by destruct (address y =? a).
      * intros y. rewrite (busy_mark a _ y x) by done. rewrite <- Hbusy. set_solver.
      * set_solver.
    + exists (set_state BUSY x). split; [|split; [done|]].
      * cbn. apply list_elem_of_fmap. exists x. by rewrite Hxa, Z.eqb_refl.
      * by apply andb_true_iff in Hu as [Hf _].
  - set (n := next_address p) in *. set (l := filter _ _) in *.
    assert (Hfr' : Forall (fun y => address y < n) l).
    { apply Forall_forall. intros y [_ Hy]%list_elem_of_filter. by apply (proj1 (Forall_forall _ _) Hfr). }
    assert (Hn : n ∉ b ∪ h).
    { rewrite Hbusy. intros (y & Hy & Hya & _). rewrite Forall_forall in Hfr. specialize (Hfr y Hy). lia. }
    assert (Hin : x ∈ l ++ [x]) by (apply elem_of_app; right; by left).
    split; [|split; [done|]].
    + split; cbn.
      * done.
      * unfold mark. rewrite (address_remap n (fun _ => BUSY)), fmap_app. cbn. rewrite Hxa.
        apply NoDup_app. split; [|split; [|apply NoDup_singleton]].
        -- eapply sublist_NoDup; [exact Hnd|]. unfold l. clear. induction (buffers_ p) as [|y k IH]; [done|].
           rewrite filter_cons. case_decide; [by constructor|by apply sublist_cons].
        -- intros y (z & Hy & Hz)%list_elem_of_fmap Hyn%list_elem_of_singleton.
           pose proof (proj1 (Forall_forall _ _) Hfr' z Hz) as Hlt. cbn in Hlt. lia.
      * unfold mark. apply Forall_fmap, Forall_app. split.
        -- eapply Forall_impl; [exact Hfr'|]. intros y Hy. cbn in *.
           destruct (address y =? n); cbn; lia.
        -- constructor; [|done]. cbn. rewrite Hxa, Z.eqb_refl. cbn. lia.
      * intros y. rewrite (busy_mark n _ y x) by done. rewrite !elem_of_union, elem_of_singleton.
        assert (Hold : (exists z, z ∈ l ++ [x] /\ address z = y /\ state z = BUSY) <-> y ∈ b ∪ h).
        { rewrite Hbusy, <- (busy_filter (buffers_ p)). fold l. split.
          - intros (z & [Hz|Hz%list_elem_of_singleton]%elem_of_app & Hza & Hst); [eauto|].
            subst z. by rewrite (usable_idle _ _ Hu) in Hst.
          - intros (z & Hz & H2). exists z. split; [|done]. apply elem_of_app. by left. }
        rewrite Hold. set_solver.
      * set_solver.
    + exists (set_state BUSY x). split; [|split; [done|]].
      * cbn. apply list_elem_of_fmap. exists x. by rewrite Hxa, Z.eqb_refl.
      * by apply andb_true_iff in Hu as [Hf _].
Qed.

Lemma release_ok p b h a :
  pool_ok (mkPool p b h) -> a ∈ h -> pool_ok (mkPool (buffer_release a p) b (h ∖ {[a]})).
Proof.
  intros [Hs Hnd Hfr Hbusy Hdis] Ha. cbn [window bound held] in *. split; cbn.
  - done.
  - by rewrite (address_remap a (fun x => if fits p x then IDLE else DIRTY)).
  - apply Forall_fmap. eapply Forall_impl; [exact Hfr|]. intros x Hx. cbn. by destruct (address x =? a).
  - intros x. rewrite (busy_remap a (fun y => if fits p y then IDLE else DIRTY)), <- Hbusy.
    assert (Hno : ~ exists y, y ∈ buffers_ p /\ address y = a /\ (if fits p y then IDLE else DIRTY) = BUSY).
    { intros (y & _ & _ & H). by destruct (fits p y). }
    set_solver.
  - set_solver.
Qed.

Lemma write_ok p b h a e : pool_ok (mkPool p b h) -> pool_ok (mkPool (set_ext a e p) b h).
Proof.
  intros [Hs Hnd Hfr Hbusy Hdis]. cbn [window bound held] in *.
  set (f := fun x => if address x =? a
    then mkBuffer (address x) (buffer_width x) (buffer_height x) (state x) e else x).
  assert (Hf : forall x, address (f x) = address x /\ state (f x) = state x).
  { intros x. unfold f. by destruct (address x =? a). }
  change (buffers_ (set_ext a e p)) with (f <$> buffers_ p).
  split; cbn; [done| | | |done].
  - change (buffers_ (set_ext a e p)) with (f <$> buffers_ p). rewrite <- list_fmap_compose.
    erewrite list_fmap_ext; [exact Hnd|]. intros i x _. apply Hf.
  - apply Forall_fmap. eapply Forall_impl; [exact Hfr|]. intros x Hx. cbn. fold (f x). by rewrite (proj1 (Hf x)).
  - intros x. rewrite Hbusy. fold f. split.
    + intros (y & Hy & Hya & Hst). exists (f y). split; [by apply list_elem_of_fmap_2|].
      by rewrite (proj1 (Hf y)), (proj2 (Hf y)).
    + intros (? & (y & -> & Hy)%list_elem_of_fmap & Hya & Hst). exists y.
      by rewrite (proj1 (Hf y)) in Hya; rewrite (proj2 (Hf y)) in Hst.
Qed.

Lemma pool_step_ok s d s' d' : pool_step (s, d) (s', d') -> pool_ok s -> pool_ok s'.
Proof.
  intros Hstep. inversion Hstep; subst; intros Hok; [| | |by apply release_ok| |done].
  - by eapply bind_ok.
  - by apply write_ok.
  - match goal with H : wayland_unbind _ _ = _ |- _ => unfold wayland_unbind in H;
      destruct (List.find _ _) in H; [|done]; injection H as <- end.
    destruct Hok as [Hs Hnd Hfr Hbusy Hdis]. cbn [window bound held] in *.
    split; cbn; [done..| |set_solver]. intros x. rewrite <- Hbusy.
    destruct (decide (x = a)); set_solver.
  - destruct Hok as [Hs Hnd Hfr Hbusy Hdis]. by split.
Qed.

Lemma pool_reachable_ok frame d0 sd : rtc pool_step (pool_new frame, d0) sd -> pool_ok sd.1.
Proof.
  intros Hr. apply (rtc_invariant pool_step (fun sd => pool_ok sd.1) (pool_new frame, d0) sd); [|done|].
  - intros [s d] [s' d'] Hstep. by apply (pool_step_ok s d s' d').
  - apply pool_new_ok.
Qed.

(** C14: in every order of frames, releases by the compositor and changes of the window's
    size, the buffers that are drawn into and those the compositor holds are different
    ones, they are exactly the busy ones of the pool, so that none of them is dropped from
    it; [bind] hands out a buffer of the window's size that neither of them has, or the
    process dies because no buffer could be made, and its recursion ends; [unbind] finds
    the buffer it is given. *)
Theorem pool_safe frame d0 s d gbm :
  rtc pool_step (pool_new frame, d0) (s, d) ->
  (bound s ## held s) /\
  (forall a, a ∈ bound s ∪ held s <->
    (exists b, (b ∈ buffers_ (window s)) /\ address b = a /\ state b = BUSY)) /\
  match (wayland_bind gbm (window s) d).1 with
  | Got a p' => (a ∉ bound s ∪ held s) /\
      exists b, (b ∈ buffers_ p') /\ address b = a /\ state b = BUSY /\ fits p' b = true
  | Died => gbm = NoBuffer \/ (createFydeBuffer d).1 = None
  | OutOfFuel => False
  end /\
  (forall a, a ∈ bound s -> is_Some (wayland_unbind a (window s))).
Proof.
  intros Hok%pool_reachable_ok. cbn [fst] in Hok. destruct s as [p b h]. cbn [window bound held].
  destruct (Hok) as [Hs _ _ Hbusy Hdis]. cbn [window bound held] in *.
  split; [done|]. split; [done|]. split.
  - pose proof (dequeue_spec gbm p d Hs) as Hspec.
    destruct (wayland_bind gbm p d) as [r d'] eqn:Hrun. unfold wayland_bind in Hrun.
    rewrite Hrun in Hspec. cbn [fst] in *. destruct r as [a p'| |]; [| |done].
    + destruct (bind_ok p b h d gbm a p' d' Hok Hrun) as ([_ Hnd' _ Hbusy' _] & Ha & x & Hx & Hxa & Hf).
      cbn [window bound held] in *. split; [done|]. exists x. split_and!; try done.
      destruct (proj1 (Hbusy' a)) as (y & Hy & Hya & Hst); [set_solver|].
      by rewrite <- (address_inj _ y x Hnd' Hy Hx) by congruence.
    + destruct Hspec as [_ Hc]. unfold create_buffer in Hc. destruct gbm as [|n]; [by left|right].
      destruct (n =? 1); [|done]. rewrite bind_run in Hc. cbn in Hc. by destruct (createFydeBuffer d).1.
  - intros a Ha. destruct (proj1 (Hbusy a)) as (x & Hx & Hxa & _); [set_solver|].
    unfold wayland_unbind. destruct (List.find _ _) eqn:E; [by eexists|].
    rewrite list_elem_of_In in Hx. pose proof (List.find_none _ _ E x Hx) as H. cbn in H. lia.
Qed.

(** *** Buffers of an old size

    A buffer that is released after the window changed its size is dropped when the next
    one is made; one that was idle already stays for ever. *)

Definition old_buffer (k : Z) : Buffer := mkBuffer k k 1 IDLE (mkExt 0 0 0).

(** After a frame at each of the widths 1 to [n]. *)
Definition grown (n : Z) : WaylandWindow :=
  mkWayland (mkRect 0 0 n 1) 1 (old_buffer <$> seqZ 1 n) (n + 1) (seqZ 1 n).

Lemma find_none_elem {A} (f : A -> bool) l : (forall x, x ∈ l -> f x = false) -> List.find f l = None.
Proof.
  induction l as [|x l IH]; intros H; [done|]. cbn. rewrite (H x) by by left.
  apply IH. intros y Hy. apply H. by right.
Qed.

Lemma find_last {A} (f : A -> bool) l x :
  (forall y, y ∈ l -> f y = false) -> f x = true -> List.find f (l ++ [x]) = Some x.
Proof.
  intros Hl Hx. induction l as [|y l IH]; cbn; [by rewrite Hx|]. rewrite (Hl y) by by left.
  apply IH. intros z Hz. apply Hl. by right.
Qed.

Lemma drop_dirty_idle n d : drop_dirty (old_buffer <$> seqZ 1 n) d = (old_buffer <$> seqZ 1 n, d).
Proof.
  induction (seqZ 1 n) as [|k l IH]; [done|]. cbn [fmap list_fmap drop_dirty old_buffer state].
  rewrite bool_decide_eq_false_2 by done. cbn [negb]. rewrite bind_run.
  change (list_fmap Z Buffer old_buffer l) with (old_buffer <$> l). by rewrite IH.
Qed.

Lemma remap_below (n : Z) (f : Buffer -> Buffer) :
  (fun b => if address b =? n + 1 then f b else b) <$> (old_buffer <$> seqZ 1 n) = old_buffer <$> seqZ 1 n.
Proof.
  rewrite <- list_fmap_compose. apply list_fmap_ext. intros i k [-> Hk]%lookup_seqZ. cbn.
  destruct (Z.eqb_spec (1 + Z.of_nat i) (n + 1)); [lia|done].
Qed.

Lemma seqZ_next n : 0 <= n -> seqZ 1 (n + 1) = seqZ 1 n ++ [n + 1].
Proof. intros Hn. rewrite seqZ_app by lia. by rewrite (Z.add_comm n 1). Qed.

Lemma i32_lt n : 0 <= n < 2 ^ 31 -> i32 n = n.
Proof. intros Hn. apply wraps_id; [lia|]. unfold in_s. cbn. lia. Qed.

(** One more width. *)
Lemma grow_step n d :
  0 <= n -> n + 1 < 2 ^ 31 ->
  rtc pool_step (mkPool (grown n) ∅ ∅, d) (mkPool (grown (n + 1)) ∅ ∅, d).
Proof.
  intros Hn Hmax.
  set (p1 := mkWayland (mkRect 0 0 (n + 1) 1) 1 (old_buffer <$> seqZ 1 n) (n + 1) (seqZ 1 n)).
  assert (Hp1 : bounds_changed 0 0 (n + 1) 1 (grown n) = p1).
  { unfold bounds_changed, grown, p1. cbn. by rewrite i32_lt by lia. }
  assert (Hw : width (current_rect_ p1) = n + 1) by (unfold width; cbn; rewrite i32_lt by lia; lia).
  assert (Hh : height (current_rect_ p1) = 1) by done.
  assert (Hno : forall b, b ∈ old_buffer <$> seqZ 1 n -> usable p1 b = false).
  { intros b (k & -> & Hk%elem_of_seqZ)%list_elem_of_fmap. unfold usable, fits. rewrite Hw. cbn.
    destruct (Z.eqb_spec (n + 1) k); [lia|done]. }
  set (p2 := mkWayland (mkRect 0 0 (n + 1) 1) 1 (old_buffer <$> seqZ 1 n ++ [n + 1]) (n + 2) (seqZ 1 n)).
  assert (Hbind : wayland_bind (Planes 2) p1 d =
    (Got (n + 1) (with_buffers (mark (n + 1) BUSY (buffers_ p2)) p2), d)).
  { unfold wayland_bind, DequeueBuffer. cbn [dequeue].
    replace (List.find (usable p1) (buffers_ p1)) with (@None Buffer) by (symmetry; by apply find_none_elem).
    rewrite bind_run.
    unfold create_buffer. change (2 =? 1) with false. cbn [mret M_ret fst snd].
    rewrite bind_run. change (buffers_ p1) with (old_buffer <$> seqZ 1 n). rewrite drop_dirty_idle. cbn [fst snd].
    set (b := mkBuffer _ _ _ _ _).
    assert (Hb : b = old_buffer (n + 1)).
    { unfold b, old_buffer. cbn [next_address p1 scale_]. rewrite Hw, Hh, !Z.mul_1_r.
      by rewrite i32_lt by lia. }
    rewrite Hb. replace (next_address p1 + 1) with (n + 2) by (cbn; lia).
    assert (Hf : usable p1 (old_buffer (n + 1)) = true).
    { unfold usable, fits. rewrite Hw, Hh. cbn. by rewrite Z.eqb_refl. }
    unfold p2. rewrite fmap_app. change (old_buffer <$> [n + 1]) with [old_buffer (n + 1)].
    pose proof (find_last (usable p1) (old_buffer <$> seqZ 1 n) (old_buffer (n + 1)) Hno Hf) as Hfind.
    unfold p1 in Hfind. unfold p1. cbn [current_rect_ scale_ commits buffers_].
    change (usable (mkWayland (mkRect 0 0 (n + 1) 1) 1 ((old_buffer <$> seqZ 1 n) ++ [old_buffer (n + 1)])
      (n + 2) (seqZ 1 n))) with
      (usable (mkWayland (mkRect 0 0 (n + 1) 1) 1 (old_buffer <$> seqZ 1 n) (n + 1) (seqZ 1 n))).
    rewrite Hfind. done. }
  assert (Hmark : forall s, mark (n + 1) s (old_buffer <$> seqZ 1 n ++ [n + 1]) =
    (old_buffer <$> seqZ 1 n) ++ [set_state s (old_buffer (n + 1))]).
  { intros s. unfold mark. rewrite fmap_app, fmap_app, remap_below. cbn. by rewrite Z.eqb_refl. }
  eapply rtc_l; [apply (pool_bounds _ _ _ _ 0 0 (n + 1) 1)|]. rewrite Hp1.
  eapply rtc_l; [apply (pool_bind _ _ _ _ _ _ _ _ Hbind)|].
  eapply rtc_l; [eapply (pool_unbind _ _ _ _ (n + 1)); [set_solver|]|].
  { unfold wayland_unbind. cbn [buffers_ with_buffers p2]. rewrite Hmark.
    rewrite (find_last _ _ (set_state BUSY (old_buffer (n + 1)))); [reflexivity| |].
    - intros b (k & -> & Hk%elem_of_seqZ)%list_elem_of_fmap. cbn. lia.
    - cbn. lia. }
  eapply rtc_l; [apply (pool_release _ _ _ _ (n + 1)); set_solver|].
  match goal with |- rtc _ (mkPool ?p ?b ?h, _) _ => replace (mkPool p b h) with (mkPool (grown (n + 1)) ∅ ∅) end;
    [apply rtc_refl|].
  f_equal; [|set_solver..]. unfold buffer_release, grown. cbn [current_rect_ scale_ buffers_ next_address commits with_buffers p2].
  rewrite seqZ_next by lia. unfold with_buffers. cbn [current_rect_ scale_ next_address commits].
  replace (n + 1 + 1) with (n + 2) by lia. f_equal.
  rewrite !fmap_app, remap_below. f_equal. cbn [fmap list_fmap address set_state old_buffer].
  rewrite Z.eqb_refl. f_equal.
  match goal with |- _ = set_state (if ?c then _ else _) _ => assert (c = true) as -> end; [|done].
  unfold fits. cbn [current_rect_ buffer_width buffer_height set_state old_buffer].
  change (mkRect 0 0 (n + 1) 1) with (current_rect_ p1). by rewrite Hw, Hh, Z.eqb_refl.
Qed.

(** The pool has as many buffers as the window had sizes, none of them in use. *)
Lemma pool_grows n d :
  0 <= n < 2 ^ 31 ->
  exists s, rtc pool_step (pool_new (mkRect 0 0 0 1), d) (s, d) /\
    bound s = ∅ /\ held s = ∅ /\ zlen (buffers_ (window s)) = n.
Proof.
  intros Hn. exists (mkPool (grown n) ∅ ∅). split; [|split; [done|split; [done|]]].
  - destruct Hn as [Hn Hm]. revert Hm. pattern n. apply natlike_ind; [|clear n Hn|done].
    + intros _. apply rtc_refl.
    + intros n Hn IH Hm. unfold Z.succ in *. etrans; [apply IH; lia|]. apply grow_step; lia.
  - unfold grown, zlen. cbn [window buffers_]. rewrite length_fmap, length_seqZ. lia.
Qed.
End pool.

(** A second frame is drawn while the compositor has the first. *)
Lemma pool_safe_witness :
  let frame := mkRect 0 0 100 50 in
  let p := mkWayland frame 1 [mkBuffer 1 100 50 BUSY (mkExt 1 2 3)] 2 [1] in
  let d := (wayland_bind (Planes 1) (wayland_new frame) toy_init).2 in
  rtc pool_step (pool_new frame, toy_init) (mkPool p ∅ {[1]}, d) /\
  match (wayland_bind (Planes 2) p d).1 with
  | Got a p' => (a ∉ (∅ : gset Z) ∪ {[1]}) /\
      exists b, (b ∈ buffers_ p') /\ address b = a /\ state b = BUSY /\ fits p' b = true
  | _ => False
  end.
Proof.
  cbv zeta. set (frame := mkRect 0 0 100 50). set (p := mkWayland _ _ _ _ _). set (d := (_ : _ * Toy).2).
  assert (Hr : rtc pool_step (pool_new frame, toy_init) (mkPool p ∅ {[1]}, d)).
  { set (p0 := mkWayland frame 1 [mkBuffer 1 100 50 BUSY (mkExt 1 2 3)] 2 []).
    eapply rtc_l; [apply (pool_bind _ _ _ _ (Planes 1) 1 p0 d); by vm_compute|].
    eapply rtc_l; [apply (pool_unbind p0 _ _ d 1 p); [set_solver|done]|].
    replace (mkPool p _ _) with (mkPool p ∅ {[1]}); [apply rtc_refl|].
    f_equal; apply set_eq; set_solver. }
  split; [exact Hr|]. destruct (pool_safe frame toy_init _ _ (Planes 2) Hr) as (_ & _ & H & _).
  cbn [window bound held] in H. destruct (wayland_bind (Planes 2) p d) as [[a p'| |] d'] eqn:E; [exact H| |].
  - destruct H as [H|H]; [done|by vm_compute in H].
  - done.
Defined.
