(* ===== verification/NativeWindow.v ===== *)
(** * Drawing into the platform's windows

    The part of [Renderer] (src/src/anbox/graphics/emugl/Renderer.cpp) that shows the
    layers of a frame in a window of the platform: [createNativeWindow],
    [destroyNativeWindow] and [draw], between [bindWindow_locked], which has a buffer of
    the window (Wayland.v) attached to a new framebuffer, and [unbind_locked], which
    hands it to the compositor.  The coordinates are computed in binary32 as the C++
    code does ([SpecFloat]); the matrices are glm's, of which [translate] and [scale]
    (src/external/glm) are used.  [tan] is the C library's.

    [Frames] is the renderer with its windows and the windows of the platform, by their
    handle, which is the address of the platform's window.  The lemmas say what drawing
    leaves as it is; Frames.v and Drawn.v have the theorems. *)

From Stdlib Require Import SpecFloat.
From S2P Require Import Prelude Floating Gl Rect Composer TextureResize TextureDraw ColorBuffer RenderState Wayland.

(** ** Floating point *)

Definition M_PI : spec_float := S754_finite false 7074237752028440 (-51).

(** ** Matrices: four columns of four *)

Record vec4 := Vec4 { vx : spec_float; vy : spec_float; vz : spec_float; vw : spec_float }.

Record mat4 := Mat4 { col0 : vec4; col1 : vec4; col2 : vec4; col3 : vec4 }.

Definition vec_add (a b : vec4) : vec4 :=
  Vec4 (f32_add (vx a) (vx b)) (f32_add (vy a) (vy b)) (f32_add (vz a) (vz b)) (f32_add (vw a) (vw b)).

Definition vec_mul (a : vec4) (x : spec_float) : vec4 :=
  Vec4 (f32_mul (vx a) x) (f32_mul (vy a) x) (f32_mul (vz a) x) (f32_mul (vw a) x).

(** [glm::mat4()] and [glm::mat4(1.0f)]. *)
Definition identity : mat4 :=
  Mat4 (Vec4 (f32 1) (f32 0) (f32 0) (f32 0)) (Vec4 (f32 0) (f32 1) (f32 0) (f32 0))
    (Vec4 (f32 0) (f32 0) (f32 1) (f32 0)) (Vec4 (f32 0) (f32 0) (f32 0) (f32 1)).

Definition mat_translate (m : mat4) (x y z : spec_float) : mat4 :=
  Mat4 (col0 m) (col1 m) (col2 m)
    (vec_add (vec_add (vec_add (vec_mul (col0 m) x) (vec_mul (col1 m) y)) (vec_mul (col2 m) z)) (col3 m)).

Definition mat_scale (m : mat4) (x y z : spec_float) : mat4 :=
  Mat4 (vec_mul (col0 m) x) (vec_mul (col1 m) y) (vec_mul (col2 m) z) (col3 m).

Definition vec_list (v : vec4) : list spec_float := [vx v; vy v; vz v; vw v].

Definition value_ptr (m : mat4) : list spec_float :=
  vec_list (col0 m) ++ vec_list (col1 m) ++ vec_list (col2 m) ++ vec_list (col3 m).

(** ** The renderer's windows and programs *)

Record RendererWindow := mkRW {
  native_window : Z;
  surface : Z;
  viewport : Rect;
  screen_to_gl_coords : mat4;
  display_transform : mat4;
  pWaylandRenderer : Z
}.

(** [new RendererWindow], and what [createNativeWindow] sets; a [Rect] is empty at
    first. *)
Definition window_new (native surf : Z) : RendererWindow :=
  mkRW native surf Empty identity identity native.

Record Program := mkProgram {
  id : Z;
  tex_uniform : Z;
  position_attr : Z;
  texcoord_attr : Z;
  center_uniform : Z;
  display_transform_uniform : Z;
  transform_uniform : Z;
  screen_to_gl_coords_uniform : Z;
  alpha_uniform : Z
}.

Record Frames (D : Type) := mkFrames {
  f_world : World D;
  m_nativeWindows : gmap Z RendererWindow;
  platform_windows : gmap Z WaylandWindow;
  m_defaultProgram : Program;
  m_alphaProgram : Program;
  m_eglConfig : Z
}.
Arguments mkFrames {D}.
Arguments f_world {D}.
Arguments m_nativeWindows {D}.
Arguments platform_windows {D}.
Arguments m_defaultProgram {D}.
Arguments m_alphaProgram {D}.
Arguments m_eglConfig {D}.

Section updates.
Context {D : Type}.
Implicit Types f : Frames D.

Definition with_world (w : World D) f : Frames D :=
  mkFrames w (m_nativeWindows f) (platform_windows f) (m_defaultProgram f) (m_alphaProgram f) (m_eglConfig f).
Definition set_m_nativeWindows (m : gmap Z RendererWindow) f : Frames D :=
  mkFrames (f_world f) m (platform_windows f) (m_defaultProgram f) (m_alphaProgram f) (m_eglConfig f).
Definition set_platform_windows (m : gmap Z WaylandWindow) f : Frames D :=
  mkFrames (f_world f) (m_nativeWindows f) m (m_defaultProgram f) (m_alphaProgram f) (m_eglConfig f).
Definition put_platform (h : Z) (p : WaylandWindow) f : Frames D :=
  set_platform_windows (<[h := p]> (platform_windows f)) f.

(** A step of the rest of the renderer. *)
Definition in_world {A} (m : M (World D) A) : M (Frames D) A :=
  fun f => let '(a, w) := m (f_world f) in (a, with_world w f).

#[export] Instance frames_driver : HasDriver (Frames D) D := {|
  get_drv f := w_drv (f_world f);
  set_drv d f := with_world (with_drv d (f_world f)) f
|}.

#[export] Instance frames_driver_laws : HasDriverLaws (Frames D) D.
Proof. split; [done|by intros [[]]|done]. Qed.

(** A step of the driver. *)
Definition on_driver {A} (m : M D A) : M (Frames D) A :=
  fun f => let '(a, d) := m (get_drv f) in (a, set_drv d f).
End updates.

(** ** The viewport *)

Definition GL_BLEND : Z := 0x0BE2.
Definition GL_ONE : Z := 1.
Definition GL_ONE_MINUS_SRC_ALPHA : Z := 0x0303.
Definition GL_DEPTH_BUFFER_BIT : Z := 0x100.
Definition GL_STENCIL_BUFFER_BIT : Z := 0x400.
Definition GL_COLOR_BUFFER_BIT : Z := 0x4000.

Section viewport.
Variable tan : spec_float -> spec_float.

Definition near (rect : Rect) : spec_float :=
  to_f32 (f64_div (f32_div (f32 (height rect)) (f32 2))
    (tan (f64_div (f64_div (f64_mul (f64 30) M_PI) (f64 180)) (f64 2)))).

Definition set_w (x : spec_float) (v : vec4) : vec4 := Vec4 (vx v) (vy v) (vz v) x.

Definition projection (rect : Rect) : mat4 :=
  let m := mat_translate identity (f32 (-1)) (f32 1) (f32 0) in
  let m := Mat4 (col0 m) (col1 m) (set_w (f32 (-1)) (col2 m)) (col3 m) in
  let far := SFopp (near rect) in
  let m := mat_scale m (f32_div (f32 2) (f32 (width rect))) (f32_div (f32 (-2)) (f32 (height rect)))
    (f32_div (f32 2) (f32_sub (near rect) far)) in
  mat_translate m (f32 (i32 (- left rect))) (f32 (i32 (- top rect))) (f32 0).

Definition setupViewport (rect : Rect) (window : RendererWindow) : RendererWindow :=
  mkRW (native_window window) (surface window) rect (projection rect) (display_transform window)
    (pWaylandRenderer window).
End viewport.

(** ** Tessellation *)

Record Vertex := mkVertex { position : list spec_float; texcoord : list spec_float }.

Record Primitive := mkPrimitive {
  type : Z;
  tex_id : Z;
  nvertices : Z;
  vertices : list Vertex
}.

Definition sizeof_Vertex : Z := 20.

(** The floats from the first vertex on. *)
Definition vertex_floats (p : Primitive) : list spec_float :=
  concat ((fun v => position v ++ texcoord v) <$> vertices p).

Definition tessellate (buf_size : Rect) (renderable : Renderable) : list Primitive :=
  let rect := screen_position renderable in
  let l := f32 (left rect) in
  let r := f32 (right rect) in
  let t := f32 (top rect) in
  let b := f32 (bottom rect) in
  let tex_left := f32_div (f32 (left (crop renderable))) (f32 (width buf_size)) in
  let tex_top := f32_div (f32 (top (crop renderable))) (f32 (height buf_size)) in
  let tex_right := f32_div (f32 (right (crop renderable))) (f32 (width buf_size)) in
  let tex_bottom := f32_div (f32 (bottom (crop renderable))) (f32 (height buf_size)) in
  [mkPrimitive GL_TRIANGLE_STRIP 0 4
     [mkVertex [l; t; f32 0] [tex_left; tex_top];
      mkVertex [l; b; f32 0] [tex_left; tex_bottom];
      mkVertex [r; t; f32 0] [tex_right; tex_top];
      mkVertex [r; b; f32 0] [tex_right; tex_bottom]]].

(** ** Drawing *)

Section draw.
Context {D : Type} `{!Driver D}.
Variable tan : spec_float -> spec_float.

(** The color buffer of a layer and where it is. *)
Definition layer_buffer (r : Renderable) (f : Frames D) : option (ptr * ColorBuffer) :=
  ref ← m_colorbuffers (w_tables (f_world f)) !! buffer r;
  b ← buffers (w_heap (f_world f)) !! cb ref;
  Some (cb ref, b).

(** One round of the loop over the primitives. *)
Definition draw_primitive (p : ptr) (prog : Program) (prim : Primitive) : M (Frames D) unit :=
  b ← gets (fun f => buffers (w_heap (f_world f)) !! p);
  match b with
  | None => mret tt
  | Some b =>
      b ← bind b;
      in_world (modify (put_buffer p b)) ;;
      s_gles2_ (VertexArray (position_attr prog) 3 sizeof_Vertex (vertex_floats prim)) ;;
      s_gles2_ (VertexArray (texcoord_attr prog) 2 sizeof_Vertex (drop 3 (vertex_floats prim))) ;;
      s_gles2_ (Enable GL_BLEND) ;;
      s_gles2_ (BlendFuncSeparate GL_ONE GL_ONE_MINUS_SRC_ALPHA GL_ONE GL_ONE_MINUS_SRC_ALPHA) ;;
      s_gles2_ (DrawArrays (type prim) (nvertices prim))
  end.

(** [draw] of one layer; the color buffer stays where it is, so the reference into
    the table stays valid. *)
Definition draw_layer (window : RendererWindow) (r : Renderable) (prog : Program) : M (Frames D) unit :=
  color_buffer ← gets (layer_buffer r);
  match color_buffer with
  | None => mret tt
  | Some (p, b) =>
      s_gles2_ (UseProgram (id prog)) ;;
      s_gles2_ (Uniform1i (tex_uniform prog) 0) ;;
      s_gles2_ (UniformMatrix4fv (display_transform_uniform prog) (value_ptr (display_transform window))) ;;
      s_gles2_ (UniformMatrix4fv (screen_to_gl_coords_uniform prog)
        (value_ptr (screen_to_gl_coords window))) ;;
      s_gles2_ ActiveTexture0 ;;
      let rect := screen_position r in
      let centerx := f32_add (f32 (left rect)) (f32_div (f32 (width rect)) (f32 2)) in
      let centery := f32_add (f32 (top rect)) (f32_div (f32 (height rect)) (f32 2)) in
      s_gles2_ (Uniform2f (center_uniform prog) centerx centery) ;;
      s_gles2_ (UniformMatrix4fv (transform_uniform prog) (value_ptr identity)) ;;
      when (0 <=? alpha_uniform prog) (s_gles2_ (Uniform1f (alpha_uniform prog) (alpha r))) ;;
      s_gles2_ (EnableVertexAttribArray (position_attr prog)) ;;
      s_gles2_ (EnableVertexAttribArray (texcoord_attr prog)) ;;
      mseq (draw_primitive p prog <$>
        tessellate (rect_of_size (i32 (m_width b)) (i32 (m_height b))) r)
  end.

(** Translucent layers are drawn with the program that has an alpha value. *)
Definition layer_program (r : Renderable) (f : Frames D) : Program :=
  if SFltb (alpha r) (f32 1) then m_alphaProgram f else m_defaultProgram f.

(** ** A frame *)

(** [Dies]: the process does, on a null or dangling pointer or in a trap. *)
Inductive Bound := NotBound | BoundTo (a : Z) | Dies.

(** The buffer gets a new texture and a new framebuffer each time. *)
Definition bindWindow_locked (gbm : Gbm) (window : RendererWindow) : M (Frames D) Bound :=
  prev ← in_world current_binding;
  ctx ← gets (fun f => m_eglContext (w_display (f_world f)));
  ok ← in_world (egl_make_current (surface window) (surface window) ctx);
  if negb ok then mret NotBound
  else
    let h := pWaylandRenderer window in
    pw ← gets (fun f => platform_windows f !! h);
    match pw with
    | None => mret Dies
    | Some p =>
        got ← on_driver (wayland_bind gbm p);
        match got with
        | Got a p =>
            match get_ext a p with
            | None => mret Dies
            | Some pExt =>
                pExt ← on_driver (attach_image (image pExt));
                modify (put_platform h (set_ext a pExt p)) ;;
                in_world (modify (with_saved prev)) ;;
                mret (BoundTo a)
            end
        | _ => mret Dies
        end
    end.

(** [unbind_locked] with a window; [None]: the process dies. *)
Definition unbind_window (window : RendererWindow) (a : Z) : M (Frames D) (option bool) :=
  let h := pWaylandRenderer window in
  pw ← gets (fun f => platform_windows f !! h);
  match pw ≫= wayland_unbind a with
  | None => mret None
  | Some p =>
      modify (put_platform h p) ;;
      ok ← in_world unbind_locked;
      mret (Some ok)
  end.

Definition egl_swap (surf : Z) : M (Frames D) unit :=
  on_driver (modify (eglSwapBuffers surf)).

(** [Some false]: no window. *)
Definition createNativeWindow (gbm : Gbm) (native : Z) : M (Frames D) (option bool) :=
  config ← gets m_eglConfig;
  surf ← on_driver (eglCreatePbufferSurface config 1 1);
  if surf =? EGL_NO_SURFACE then mret (Some false)
  else
    let window := window_new native surf in
    bound ← bindWindow_locked gbm window;
    match bound with
    | NotBound => on_driver (modify (eglDestroySurface surf)) ;; mret (Some false)
    | Dies => mret None
    | BoundTo a =>
        s_gles2_ (Clear (Z.lor (Z.lor GL_COLOR_BUFFER_BIT GL_DEPTH_BUFFER_BIT) GL_STENCIL_BUFFER_BIT)) ;;
        egl_swap surf ;;
        ok ← unbind_window window a;
        match ok with
        | None => mret None
        | Some _ =>
            modify (fun f =>
              match m_nativeWindows f !! native with
              | Some _ => f
              | None => set_m_nativeWindows (<[native := window]> (m_nativeWindows f)) f
              end) ;;
            mret (Some true)
        end
    end.

Definition destroyNativeWindow (native : Z) : M (Frames D) unit :=
  w ← gets (fun f => m_nativeWindows f !! native);
  match w with
  | None => mret tt
  | Some window =>
      in_world (egl_make_current EGL_NO_SURFACE EGL_NO_SURFACE EGL_NO_CONTEXT) ;;
      when (negb (surface window =? EGL_NO_SURFACE))
        (on_driver (modify (eglDestroySurface (surface window)))) ;;
      modify (fun f => set_m_nativeWindows (delete native (m_nativeWindows f)) f)
  end.

Definition draw_layers (window : RendererWindow) (renderables : list Renderable) : M (Frames D) unit :=
  mseq ((fun r => prog ← gets (layer_program r); draw_layer window r prog) <$> renderables).

(** What is drawn once the buffer is attached. *)
Definition draw_contents (native : Z) (window_frame : Rect) (renderables : list Renderable)
    (window : RendererWindow) : M (Frames D) unit :=
  let window := setupViewport tan window_frame window in
  modify (fun f => set_m_nativeWindows (<[native := window]> (m_nativeWindows f)) f) ;;
  s_gles2_ (SetViewport 0 0 (width window_frame) (height window_frame)) ;;
  s_gles2_ (ClearColor (f32 0) (f32 0) (f32 0) (f32 1)) ;;
  s_gles2_ (ColorMask true true true true) ;;
  s_gles2_ (Clear GL_COLOR_BUFFER_BIT) ;;
  draw_layers window renderables ;;
  egl_swap (surface window).

(** The result; [None]: the process dies. *)
Definition draw_frame (gbm : Gbm) (native : Z) (window_frame : Rect) (renderables : list Renderable) :
    M (Frames D) (option bool) :=
  w ← gets (fun f => m_nativeWindows f !! native);
  match w with
  | None => mret (Some false)
  | Some window =>
      bound ← bindWindow_locked gbm window;
      match bound with
      | NotBound => mret (Some false)
      | Dies => mret None
      | BoundTo a =>
          draw_contents native window_frame renderables window ;;
          ok ← unbind_window window a;
          match ok with None => mret None | Some _ => mret (Some false) end
      end
  end.
End draw.

(** With a tangent of 15 degrees, corners of a frame go to the corners of the screen. *)
Example projection_corners :
  let tan15 (_ : spec_float) := S754_finite false 4826808959081060 (-54) in
  let rect := mkRect 17 33 1041 801 in
  let m := projection tan15 rect in
  let apply x y := vec_add (vec_add (vec_mul (col0 m) x) (vec_mul (col1 m) y)) (col3 m) in
  apply (f32 (left rect)) (f32 (top rect)) = Vec4 (f32 (-1)) (f32 1) (f32 0) (f32 1) /\
  apply (f32 (right rect)) (f32 (bottom rect)) = Vec4 (f32 1) (f32 (-1)) (f32 0) (f32 1).
Proof. by vm_compute. Qed.

(** ** What drawing leaves as it is *)

(** A resizer, and a color buffer, without what drawing may change. *)
Definition forget_names (fb : Framebuffer) : Framebuffer :=
  mkFB (TextureResize.texture fb) (framebuffer fb) (TextureResize.program fb) 0 0.

Definition forget (tr : TextureResize) : TextureResize :=
  mkTR (TextureResize.mWidth tr) (TextureResize.mHeight tr) 1 (forget_names (mFBWidth tr))
    (forget_names (mFBHeight tr)) (TextureResize.mVertexBuffer tr).

Definition shape (b : ColorBuffer) : ColorBuffer := set_resizer (forget (m_resizer b)) b.

Lemma forget_same tr tr' : same_resizer tr tr' -> forget tr' = forget tr.
Proof.
  intros (Hw & Hh & (H1 & H2 & H3) & (H4 & H5 & H6) & Hv). unfold forget, forget_names. congruence.
Qed.

(** The state without the driver and without what drawing may change. *)
Definition outline {D} (f : Frames D) : Frames unit :=
  let w := f_world f in
  let h := w_heap w in
  mkFrames
    (mkWorld tt (w_display w) (w_saved w) (w_tables w)
       (mkHeap (contexts h) (surfaces h) (shape <$> buffers h) (next_ptr h)) (w_self w) (w_others w))
    (m_nativeWindows f) (platform_windows f) (m_defaultProgram f) (m_alphaProgram f) (m_eglConfig f).

Section layers.
Context {D : Type} `{!Driver D} `{!DriverLaws D}.

Definition still (f f' : Frames D) : Prop := outline f' = outline f /\ cur f' = cur f.

#[export] Instance still_preorder : PreOrder still.
Proof. split; [done|]. intros f1 f2 f3 [] []. split; congruence. Qed.

#[export] Instance still_gl : GLInvariant still.
Proof.
  split; [apply _|..].
  - intros api c f. unfold still, cur. rewrite gles_drv. split; [|apply gl_current].
    unfold gles. by destruct (gl _ _ _).
  - intros t b f. unfold still, egl_create_image. cbv zeta.
    pose proof (create_image_current (eglGetCurrentContext (get_drv f)) t b (get_drv f)) as H.
    by destruct (eglCreateImageKHR _ _ _ _).
  - intros i f. split; [done|]. apply destroy_image_current.
Qed.

Lemma still_update tr tex : respects (W := Frames D) still (update tr tex).
Proof.
  unfold update, setupFramebuffers, TextureResize.resize, detachShaders, attachShaders, createShader.
  respects_tac.
Qed.

Definition vport (f : Frames D) : Z * Z * Z * Z := glGetViewport (get_drv f).

(** Nothing but the inside of the color buffers has changed. *)
Definition kept (f f' : Frames D) : Prop := still f f' /\ vport f' = vport f.

#[export] Instance kept_preorder : PreOrder kept.
Proof. split; [done|]. intros f1 f2 f3 [] []. split; [by etransitivity|congruence]. Qed.

Definition moves_viewport (c : GLCall) : bool := match c with SetViewport _ _ _ _ => true | _ => false end.

Lemma kept_gles2 c : moves_viewport c = false -> respects kept (s_gles2 (W := Frames D) c).
Proof.
  intros Hc f. split; [apply respects_s_gles2, _|]. unfold vport, s_gles2.
  rewrite gles_drv. apply viewport_kept. by intros x y w h ->.
Qed.

Lemma kept_gles2_ c : moves_viewport c = false -> respects kept (s_gles2_ (W := Frames D) c).
Proof.
  intros Hc f. split; [apply respects_s_gles2_, _|]. unfold vport.
  rewrite s_gles2_drv. apply viewport_kept. by intros x y w h ->.
Qed.

#[local] Hint Extern 1 (respects kept (s_gles2 _)) => by apply kept_gles2 : respects.
#[local] Hint Extern 1 (respects kept (s_gles2_ _)) => by apply kept_gles2_ : respects.

(** Drawing from a color buffer keeps its names. *)
Lemma bind_kept b (f : Frames D) : kept f (bind b f).2 /\ shape (bind b f).1 = shape b.
Proof.
  unfold bind. rewrite 2!bind_run. cbn [fst mret M_ret].
  destruct (update_correct (m_resizer b) (m_tex b) f) as (Hv & Hs & _).
  split.
  - transitivity (update (m_resizer b) (m_tex b) f).2; [split; [apply still_update|exact Hv]|].
    by apply kept_gles2_.
  - unfold shape. cbn. by rewrite (forget_same _ _ Hs).
Qed.

Lemma put_buffer_kept p b b' (f : Frames D) :
  buffers (w_heap (f_world f)) !! p = Some b -> shape b' = shape b ->
  kept f (in_world (modify (put_buffer p b')) f).2.
Proof.
  intros Hp Hs. split; [|done]. split; [|done]. unfold outline. cbn. f_equal. f_equal.
  f_equal. rewrite fmap_insert, Hs. apply insert_id. by rewrite lookup_fmap, Hp.
Qed.

Lemma kept_lookup p b (f f' : Frames D) :
  kept f f' -> buffers (w_heap (f_world f)) !! p = Some b ->
  exists b1, buffers (w_heap (f_world f')) !! p = Some b1 /\ shape b1 = shape b.
Proof.
  intros [[Ho _] _] Hp.
  pose proof (f_equal (fun o => buffers (w_heap (f_world o)) !! p) Ho) as H. cbn in H.
  rewrite !lookup_fmap, Hp in H. destruct (buffers (w_heap (f_world f')) !! p) as [b1|]; [|done].
  exists b1. split; [done|]. exact (Some_inj _ _ H).
Qed.

Lemma kept_draw_primitive p prog prim : respects kept (draw_primitive (D := D) p prog prim).
Proof.
  intros f. unfold draw_primitive. rewrite bind_run. cbn [gets fst snd].
  destruct (buffers _ !! p) as [b|] eqn:Hp; [|done]. rewrite bind_run.
  destruct (bind_kept b f) as [Hk Hs]. destruct (bind b f) as [b' f1]. cbn [fst snd] in *.
  destruct (kept_lookup p b f f1 Hk Hp) as (b1 & Hp1 & Hs1).
  etransitivity; [exact Hk|]. rewrite bind_run.
  etransitivity; [apply (put_buffer_kept p b1 b'); [done|congruence]|].
  match goal with |- kept ?g _ => generalize g end. clear -DriverLaws0.
  match goal with |- forall g, kept g (?m g).2 => change (respects kept m) end. respects_tac.
Qed.
#[local] Hint Resolve kept_draw_primitive : respects.

Lemma kept_draw_layer window r prog : respects kept (draw_layer (D := D) window r prog).
Proof. unfold draw_layer. respects_tac. Qed.
#[local] Hint Resolve kept_draw_layer : respects.

Lemma kept_draw_layers window rs : respects kept (draw_layers (D := D) window rs).
Proof. unfold draw_layers. respects_tac. Qed.

(** A layer's buffer, up to what drawing may change. *)
Definition layer_shape (r : Renderable) (f : Frames D) : option ColorBuffer :=
  shape <$> (snd <$> layer_buffer r f).

(** What the layers are looked up in. *)
Definition scene (f : Frames D) : Tables * gmap ptr ColorBuffer * Program * Program :=
  (w_tables (f_world f), shape <$> buffers (w_heap (f_world f)), m_defaultProgram f, m_alphaProgram f).

Lemma scene_kept f f' : kept f f' -> scene f' = scene f.
Proof. intros [[Ho _] _]. exact (f_equal (fun o => (w_tables (f_world o), buffers (w_heap (f_world o)),
  m_defaultProgram o, m_alphaProgram o)) Ho). Qed.

Lemma layer_shape_scene r f f' : scene f' = scene f -> layer_shape r f' = layer_shape r f.
Proof.
  intros H. injection H as Ht Hb _ _. unfold layer_shape, layer_buffer. rewrite Ht.
  destruct (m_colorbuffers _ !! _) as [ref|]; [|done]. cbn.
  pose proof (f_equal (.!! cb ref) Hb) as H. cbn in H. rewrite !lookup_fmap in H.
  by destruct (buffers (w_heap (f_world f')) !! cb ref), (buffers (w_heap (f_world f)) !! cb ref).
Qed.
End layers.

(** ** The parts of a frame *)

Section frame.
Context {D : Type} `{!Driver D}.
Implicit Types f : Frames D.

(** The state around the driver and the saved binding. *)
Definition surroundings (f : Frames D) : Frames unit :=
  let o := outline f in with_world (with_saved (mkSaved 0 0 0) (f_world o)) (set_platform_windows ∅ o).

Lemma in_world_run {A} (m : M (World D) A) f :
  in_world m f = ((m (f_world f)).1, with_world (m (f_world f)).2 f).
Proof. unfold in_world. by destruct (m (f_world f)). Qed.

Lemma on_driver_run {A} (m : M D A) f : on_driver m f = ((m (get_drv f)).1, set_drv (m (get_drv f)).2 f).
Proof. unfold on_driver. by destruct (m (get_drv f)). Qed.

Definition driver_after_bind (window : RendererWindow) (f : Frames D) : D :=
  (eglMakeCurrent (surface window) (surface window) (m_eglContext (w_display (f_world f)))
    (get_drv f)).2.

(** What is done when a buffer could be bound. *)
Lemma bindWindow_run gbm window f a f' :
  bindWindow_locked gbm window f = (BoundTo a, f') ->
  exists p p1 e0,
    let h := pWaylandRenderer window in
    let r := wayland_bind gbm p (driver_after_bind window f) in
    let att := attach_image (image e0) r.2 in
    platform_windows f !! h = Some p /\ r.1 = Got a p1 /\ get_ext a p1 = Some e0 /\
    f' = with_world (with_saved (current_binding (f_world f)).1 (with_drv att.2 (f_world f)))
           (put_platform h (set_ext a att.1 p1) f).
Proof.
  unfold bindWindow_locked. rewrite bind_run, in_world_run. cbn [fst snd current_binding gets].
  rewrite bind_run. cbn [gets fst snd]. rewrite bind_run, in_world_run. unfold egl_make_current. cbn [f_world with_world].
  pose proof (eq_refl (driver_after_bind window f)) as Hd. unfold driver_after_bind at 2 in Hd. cbn [get_drv frames_driver] in Hd.
  destruct (eglMakeCurrent _ _ _ _) as [ok d] eqn:Em. cbn [fst snd] in *. rewrite Hd.
  destruct ok; cbn [negb]; [|done]. rewrite bind_run. cbn [gets fst snd platform_windows with_world].
  destruct (platform_windows f !! _) as [p|] eqn:Ep; [|done].
  rewrite bind_run, on_driver_run. cbn [fst snd get_drv frames_driver f_world with_world w_drv with_drv].
  destruct (wayland_bind gbm p d) as [[a1 p1| |] d1] eqn:Eb; cbn [fst snd]; [|done..].
  destruct (get_ext a1 p1) as [e0|] eqn:Ee; [|done].
  rewrite bind_run, on_driver_run, 2!bind_run. cbn [modify fst snd].
  intros [= <- <-]. exists p, p1, e0. rewrite Eb. cbn [fst snd].
  split_and!; [done..|]. cbn. by destruct f as [[] ? ? ? ? ?].
Qed.

Lemma unbind_window_run window a f ok f' :
  unbind_window window a f = (Some ok, f') ->
  exists p p1,
    let h := pWaylandRenderer window in
    platform_windows f !! h = Some p /\ wayland_unbind a p = Some p1 /\
    f' = with_world (unbind_locked (f_world f)).2 (put_platform h p1 f).
Proof.
  unfold unbind_window. rewrite bind_run. cbn [gets fst snd].
  destruct (platform_windows f !! _) as [p|] eqn:Ep; cbn; [|done].
  destruct (wayland_unbind a p) as [p1|] eqn:Eu; [|done].
  rewrite bind_run. cbn [modify fst snd]. rewrite bind_run, in_world_run. cbn [fst snd mret M_ret].
  intros [= _ <-]. by exists p, p1.
Qed.

Context `{!DriverLaws D}.
Variable tan : spec_float -> spec_float.

#[local] Hint Extern 1 (respects still (s_gles2_ _)) => apply respects_s_gles2_, _ : respects.

Lemma still_draw_layers window rs : respects still (draw_layers (D := D) window rs).
Proof. intros f. apply kept_draw_layers. Qed.

Lemma still_swap surf : respects still (egl_swap (D := D) surf).
Proof.
  intros f. unfold egl_swap. rewrite on_driver_run. split; [done|].
  exact (swap_buffers_current surf (get_drv f)).
Qed.
#[local] Hint Resolve still_draw_layers still_swap : respects.

(** The window's viewport is set; nothing else changes but the driver and the insides of
    the color buffers. *)
Lemma draw_contents_still native rect rs window f :
  still (set_m_nativeWindows (<[native := setupViewport tan rect window]> (m_nativeWindows f)) f)
    (draw_contents tan native rect rs window f).2.
Proof.
  unfold draw_contents. rewrite bind_run. cbn [modify fst snd].
  match goal with |- still ?g (?m ?g).2 => generalize g; change (respects still m) end.
  respects_tac.
Qed.
End frame.

(** ** Examples: two color buffers, the second of them four times as large as the window *)

Definition example_tan (_ : spec_float) : spec_float := S754_finite false 4826808959081060 (-54).

Definition example_buffer (tex w h : Z) : ColorBuffer :=
  mkCB tex (tex + 1) (tex + 2) (tex + 3) w h 0 GL_RGBA
    (mkTR w h 1 (mkFB (tex + 4) (tex + 5) (tex + 6) 0 0) (mkFB (tex + 7) (tex + 8) (tex + 9) 0 0) (tex + 10)).

Definition example_frames {D} (d : D) : Frames D :=
  mkFrames
    (mkWorld d (mkDisplay [] true 1 4 1 0 2 (mkTD 1 2 3 0 1 0 4 5)) (mkSaved 0 0 0)
       (mkTables 3 ∅ ∅ {[1 := mkRef 1 1; 2 := mkRef 2 1]})
       (mkHeap ∅ ∅ {[1 := example_buffer 1000 100 50; 2 := example_buffer 2000 400 200]} 3) info_new [])
    ∅ ∅ (mkProgram 501 0 0 1 2 3 4 5 (-1)) (mkProgram 502 0 0 1 2 3 4 5 6) 10.

(** A window is opened, shown and drawn to, and the compositor releases what it gets. *)
Definition example_open {D} `{!Driver D} (d : D) : Frames D :=
  put_platform 7 (wayland_new (mkRect 0 0 100 50)) (example_frames d).
Definition example_created {D} `{!Driver D} (d : D) : Frames D :=
  (createNativeWindow (Planes 1) 7 (example_open d)).2.
