(* ===== verification/Frames.v ===== *)
(** * Frames and the compositor

    Binding a buffer, drawing and unbinding ([draw_frame] and [createNativeWindow] of
    NativeWindow.v) are steps of the window's pool (Wayland.v): the theorem is that, in
    any order of frames, windows and messages of the compositor, every window of the
    platform goes through steps of its pool with nothing left bound. *)

From stdpp Require Import functions.
From Stdlib Require Import SpecFloat.
From S2P Require Import Prelude Gl Rect Composer RenderState Wayland NativeWindow.

Section frame.
Context {D : Type} `{!Driver D} `{!DriverLaws D}.
Implicit Types f : Frames D.
Variable tan : spec_float -> spec_float.

(** What binding, drawing and unbinding do to the platform's window: one buffer of it is
    bound and committed, whatever the states of the driver are. *)
Definition frame_steps (a : Z) (p p' : WaylandWindow) : Prop :=
  commits p' = commits p ++ [a] /\
  forall H (d d' : D), rtc pool_step (mkPool p ∅ H, d) (mkPool p' ∅ ({[a]} ∪ H), d').

Lemma bound_frame gbm window f a f1 f2 ok f' :
  bindWindow_locked gbm window f = (BoundTo a, f1) ->
  platform_windows f2 = platform_windows f1 ->
  unbind_window window a f2 = (Some ok, f') ->
  let h := pWaylandRenderer window in
  exists p p', platform_windows f !! h = Some p /\
    platform_windows f' = <[h := p']> (platform_windows f) /\ frame_steps a p p'.
Proof.
  intros (p & p1 & e0 & Hp & Hb & He & ->)%bindWindow_run H2 (p2 & p3 & Hp2 & Hu & ->)%unbind_window_run.
  cbv zeta in *. rewrite H2 in Hp2. cbn in Hp2. rewrite lookup_insert_eq in Hp2. injection Hp2 as <-.
  exists p, p3. split; [done|]. split; [cbn; rewrite H2; cbn; by rewrite insert_insert_eq|].
  pose proof (unbind_commits _ _ _ Hu) as Hc. cbn in Hc. rewrite (bind_commits _ _ _ _ _ Hb) in Hc.
  split; [done|]. intros H d d'.
  set (d0 := driver_after_bind window f) in *. set (r := wayland_bind gbm p d0) in *.
  eapply rtc_l; [apply (pool_driver _ d d0)|].
  eapply rtc_l; [apply (pool_bind p ∅ H d0 gbm a p1 r.2); rewrite <- Hb; apply surjective_pairing|].
  eapply rtc_l; [apply (pool_write _ _ _ _ a); set_solver|].
  eapply rtc_l; [apply (pool_unbind _ _ _ _ a); [set_solver|exact Hu]|].
  eapply rtc_l; [apply (pool_driver _ r.2 d')|].
  replace (({[a]} ∪ ∅) ∖ {[a]} : gset Z) with (∅ : gset Z) by (apply set_eq; set_solver). apply rtc_refl.
Qed.

Lemma bindWindow_not gbm window f f' :
  bindWindow_locked gbm window f = (NotBound, f') -> platform_windows f' = platform_windows f.
Proof.
  unfold bindWindow_locked. rewrite bind_run, in_world_run. cbn [fst snd].
  rewrite bind_run. cbn [gets fst snd]. rewrite bind_run, in_world_run. cbn [fst snd].
  destruct (egl_make_current _ _ _ _).1; cbn [negb]; [|by intros [= <-]].
  rewrite bind_run. cbn [gets fst snd].
  destruct (platform_windows _ !! _) as [p|]; [|done]. rewrite bind_run.
  destruct (on_driver _ _).1 as [a p1| |]; [|done..].
  destruct (get_ext a p1); [|done]. by rewrite !bind_run.
Qed.

(** The two operations that commit a buffer, if any. *)
Definition commits_one (f f' : Frames D) : Prop :=
  platform_windows f' = platform_windows f \/
  exists a h p p', platform_windows f !! h = Some p /\
    platform_windows f' = <[h := p']> (platform_windows f) /\ frame_steps a p p'.

Lemma draw_frame_commits gbm native rect rs f r f' :
  draw_frame tan gbm native rect rs f = (Some r, f') -> r = false /\ commits_one f f'.
Proof.
  unfold draw_frame. rewrite bind_run. cbn [gets fst snd].
  destruct (m_nativeWindows f !! native) as [window|] eqn:Hw; [|by intros [= <- <-]; split; [|left]].
  rewrite bind_run. destruct (bindWindow_locked gbm window f) as [[|a|] f1] eqn:Hb; cbn [fst snd]; [|..|done].
  { intros [= <- <-]. split; [done|]. left. by eapply bindWindow_not. }
  rewrite 2!bind_run. set (f2 := (draw_contents _ _ _ _ _ f1).2).
  assert (H2 : platform_windows f2 = platform_windows f1).
  { destruct (draw_contents_still tan native rect rs window f1) as [Ho _].
    exact (f_equal platform_windows Ho). }
  destruct (unbind_window window a f2) as [[ok|] f3] eqn:Hu; cbn [fst snd]; [|done].
  intros [= <- <-]. split; [done|]. right.
  destruct (bound_frame gbm window f a f1 f2 ok f3 Hb H2 Hu) as (p & p' & H). by eauto.
Qed.

Lemma createNativeWindow_commits gbm native f r f' :
  createNativeWindow gbm native f = (Some r, f') -> commits_one f f'.
Proof.
  unfold createNativeWindow. rewrite bind_run. cbn [gets fst snd]. rewrite bind_run, on_driver_run. cbn [fst snd].
  destruct (_ =? _); [by intros [= _ <-]; left|]. set (surf := (eglCreatePbufferSurface _ _ _ _).1).
  set (f0 := set_drv _ f). rewrite bind_run.
  destruct (bindWindow_locked gbm (window_new native surf) f0) as [[|a|] f1] eqn:Hb; cbn [fst snd]; [|..|done].
  { rewrite bind_run, on_driver_run. intros [= _ <-]. left.
    change (platform_windows f1 = platform_windows f0). by eapply bindWindow_not. }
  rewrite !bind_run. set (f2 := (egl_swap surf _).2).
  assert (H2 : platform_windows f2 = platform_windows f1).
  { unfold f2. set (m := egl_swap surf). set (c := s_gles2_ _).
    assert (Hs : still f1 (m (c f1).2).2) by (transitivity (c f1).2; [by apply respects_s_gles2_, _|apply still_swap]).
    exact (f_equal platform_windows (proj1 Hs)). }
  destruct (unbind_window _ a f2) as [[ok|] f3] eqn:Hu; cbn [fst snd]; [|done].
  rewrite bind_run. intros [= _ <-]. right.
  destruct (bound_frame gbm _ f0 a f1 f2 ok f3 Hb H2 Hu) as (p & p' & Hp & Hp' & Hs).
  exists a, native, p, p'. split; [done|]. split; [|done].
  cbn. destruct (m_nativeWindows f3 !! native); exact Hp'.
Qed.
End frame.

(** ** Frames and the compositor

    [held h]: the buffers of a window that were committed and not yet released. *)

Definition committed (p p' : option WaylandWindow) : gset Z :=
  match p, p' with
  | Some p, Some p' => list_to_set (drop (length (commits p)) (commits p'))
  | _, _ => ∅
  end.

Section session.
Context {D : Type} `{!Driver D}.
Variable tan : spec_float -> spec_float.

Definition held_after (f f' : Frames D) (held : Z -> gset Z) (h : Z) : gset Z :=
  committed (platform_windows f !! h) (platform_windows f' !! h) ∪ held h.

Inductive frames_step : Frames D * (Z -> gset Z) -> Frames D * (Z -> gset Z) -> Prop :=
  | fs_open f held h frame :
      platform_windows f !! h = None ->
      frames_step (f, held) (put_platform h (wayland_new frame) f, <[h := ∅]> held)
  | fs_create f held gbm h ok f' :
      createNativeWindow gbm h f = (Some ok, f') ->
      frames_step (f, held) (f', held_after f f' held)
  | fs_draw f held gbm native rect rs ok f' :
      draw_frame tan gbm native rect rs f = (Some ok, f') ->
      frames_step (f, held) (f', held_after f f' held)
  | fs_destroy f held native :
      frames_step (f, held) ((destroyNativeWindow native f).2, held)
  | fs_release f held h p a :
      platform_windows f !! h = Some p -> a ∈ held h ->
      frames_step (f, held) (put_platform h (buffer_release a p) f, <[h := held h ∖ {[a]}]> held)
  | fs_bounds f held h p x y w ht :
      platform_windows f !! h = Some p ->
      frames_step (f, held) (put_platform h (bounds_changed x y w ht p) f, held)
  | fs_renderer f held w : frames_step (f, held) (with_world w f, held).

(** Every window has gone through steps of its pool, with nothing bound. *)
Definition windows_ok (s : Frames D * (Z -> gset Z)) : Prop :=
  forall h p, platform_windows s.1 !! h = Some p ->
    exists frame, forall d d' : D,
      rtc pool_step (pool_new frame, d) (mkPool p ∅ (s.2 h), d').

(** One window changes. *)
Lemma windows_ok_change f f' held held' h p' :
  windows_ok (f, held) ->
  platform_windows f' = <[h := p']> (platform_windows f) ->
  (forall k, k <> h -> held' k = held k) ->
  (exists frame, forall d d' : D, rtc pool_step (pool_new frame, d) (mkPool p' ∅ (held' h), d')) ->
  windows_ok (f', held').
Proof.
  intros Hok Hf Hheld Hp k q Hk. cbn [fst snd] in *. rewrite Hf in Hk.
  destruct (decide (k = h)) as [->|Hne].
  - rewrite lookup_insert_eq in Hk. by injection Hk as <-.
  - rewrite lookup_insert_ne in Hk by done. rewrite Hheld by done. by apply (Hok k q).
Qed.

Lemma windows_ok_commits f f' held :
  windows_ok (f, held) -> commits_one f f' -> windows_ok (f', held_after f f' held).
Proof.
  intros Hok [He|(a & h & p & p' & Hp & Hf & Hc & Hs)].
  - intros k q Hk. cbn [fst snd] in *. rewrite He in Hk.
    destruct (Hok k q Hk) as [frame Hr]. exists frame. cbn [snd] in Hr. unfold held_after.
    rewrite He, Hk. cbn. rewrite drop_all. replace (list_to_set [] ∪ held k : gset Z) with (held k); [exact Hr|].
    apply set_eq. set_solver.
  - apply (windows_ok_change f f' held _ h p'); [done|done| |].
    + intros k Hne. unfold held_after. rewrite Hf, lookup_insert_ne by done.
      unfold committed. destruct (platform_windows f !! k); rewrite ?drop_all; apply set_eq; set_solver.
    + destruct (Hok h p Hp) as [frame Hr]. exists frame. intros d d'. unfold held_after.
      rewrite Hf, lookup_insert_eq, Hp. cbn. rewrite Hc, drop_app_length.
      replace (list_to_set [a] : gset Z) with ({[a]} : gset Z) by (apply set_eq; set_solver).
      etrans; [apply (Hr d d)|]. apply Hs.
Qed.

Lemma destroy_windows native (f : Frames D) :
  platform_windows (destroyNativeWindow native f).2 = platform_windows f.
Proof.
  unfold destroyNativeWindow. rewrite bind_run. cbn [gets fst snd].
  destruct (m_nativeWindows f !! native) as [w|]; [|done].
  rewrite bind_run, in_world_run, bind_run. cbn [fst snd]. unfold when.
  destruct (negb _); [|done]. by rewrite on_driver_run.
Qed.

Lemma windows_ok_step `{!DriverLaws D} s s' : frames_step s s' -> windows_ok s -> windows_ok s'.
Proof.
  intros Hstep Hok. destruct Hstep as [f held h frame Hn|f held gbm h ok f' Hrun|f held gbm n rect rs ok f' Hrun
    |f held n|f held h p a Hp Ha|f held h p x y w ht Hp|f held w].
  - apply (windows_ok_change f _ held _ h (wayland_new frame)); [done|done| |].
    + intros k Hk. by rewrite fn_lookup_insert_ne.
    + exists frame. intros d d'. rewrite fn_lookup_insert. apply rtc_once, pool_driver.
  - apply windows_ok_commits; [done|]. by eapply createNativeWindow_commits.
  - apply windows_ok_commits; [done|]. by eapply draw_frame_commits.
  - intros k q Hk. cbn [fst snd] in *. rewrite destroy_windows in Hk. by apply (Hok k q).
  - apply (windows_ok_change f _ held _ h (buffer_release a p)); [done|done| |].
    + intros k Hk. by rewrite fn_lookup_insert_ne.
    + destruct (Hok h p Hp) as [frame Hr]. exists frame. intros d d'. rewrite fn_lookup_insert.
      eapply rtc_r; [apply (Hr d d')|]. by apply pool_release.
  - apply (windows_ok_change f _ held _ h (bounds_changed x y w ht p)); [done|done|done|].
    destruct (Hok h p Hp) as [frame Hr]. exists frame. intros d d'.
    eapply rtc_r; [apply (Hr d d')|]. apply pool_bounds.
  - exact Hok.
Qed.

End session.

