(* ===== verification/Drawn.v ===== *)
(** * Where a frame is drawn

    What a GL context was last asked for is traced ([Traced]), whatever the driver
    answers: it tells into which framebuffer, with which program and from which texture
    each layer of a frame is drawn ([draw_frame] of NativeWindow.v).  Scaling a texture
    (TextureResize.v) leaves another framebuffer and another program behind, which the
    theorem shows to spoil the rest of the frame. *)

From Stdlib Require Import SpecFloat.
From S2P Require Import Prelude Floating Gl Rect Composer TextureResize ColorBuffer RenderState Wayland NativeWindow.

(** ** What the renderer asks for

    [Asked] is what was last asked for, and the quads drawn so far: where to, with which
    program, from which texture, and their corners. *)

Record Quad := mkQuad {
  target : Z;
  quad_program : Z;
  source : Z;
  corners : list spec_float
}.

Record Asked := mkAsked {
  asked_fbo : Z;
  asked_program : Z;
  asked_texture : Z;
  asked_vertices : list spec_float;
  quads : list Quad
}.

Definition ask (c : GLCall) (s : Asked) : Asked :=
  match c with
  | BindFramebuffer n => mkAsked n (asked_program s) (asked_texture s) (asked_vertices s) (quads s)
  | UseProgram n => mkAsked (asked_fbo s) n (asked_texture s) (asked_vertices s) (quads s)
  | BindTexture n => mkAsked (asked_fbo s) (asked_program s) n (asked_vertices s) (quads s)
  | VertexArray _ size _ data =>
      if size =? 3 then mkAsked (asked_fbo s) (asked_program s) (asked_texture s) data (quads s) else s
  | DrawArrays mode _ =>
      if mode =? GL_TRIANGLE_STRIP
      then mkAsked (asked_fbo s) (asked_program s) (asked_texture s) (asked_vertices s)
             (quads s ++ [mkQuad (asked_fbo s) (asked_program s) (asked_texture s) (asked_vertices s)])
      else s
  | _ => s
  end.

(** Any driver, with a trace. *)
Abbreviation Traced D := (D * Asked)%type.

Section traced.
Context {D : Type} `{!Driver D}.

Definition on_fst {A} (g : D -> A * D) (d : Traced D) : A * Traced D :=
  let '(x, d') := g d.1 in (x, (d', d.2)).

#[export] Instance traced_driver : Driver (Traced D) := {|
  eglGetDisplay n d := eglGetDisplay n d.1;
  eglInitialize := on_fst eglInitialize;
  eglBindAPI api d := (eglBindAPI api d.1, d.2);
  eglMakeCurrent draw read ctx := on_fst (eglMakeCurrent draw read ctx);
  eglGetCurrentContext d := eglGetCurrentContext d.1;
  eglGetCurrentReadSurface d := eglGetCurrentReadSurface d.1;
  eglGetCurrentDrawSurface d := eglGetCurrentDrawSurface d.1;
  eglCreatePbufferSurface c w h := on_fst (eglCreatePbufferSurface c w h);
  eglDestroySurface s d := (eglDestroySurface s d.1, d.2);
  eglCreateContext c s v := on_fst (eglCreateContext c s v);
  eglDestroyContext c d := (eglDestroyContext c d.1, d.2);
  eglCreateImageKHR c t b := on_fst (eglCreateImageKHR c t b);
  eglDestroyImageKHR i := on_fst (eglDestroyImageKHR i);
  eglSwapBuffers s d := (eglSwapBuffers s d.1, d.2);
  eglGetConfigs d := eglGetConfigs d.1;
  eglGetConfigAttrib d := eglGetConfigAttrib d.1;
  eglChooseConfig d := eglChooseConfig d.1;
  eglQueryString d := eglQueryString d.1;
  gl api c d := let '(x, d') := gl api c d.1 in (x, (d', if api then ask c d.2 else d.2));
  glGetViewport d := glGetViewport d.1;
  glGetAttachedShaders d := glGetAttachedShaders d.1;
  glReadPixels d := glReadPixels d.1;
  glGetString api d := glGetString api d.1
|}.

Context `{!DriverLaws D}.

Lemma on_fst_snd {A} (g : D -> A * D) (d : Traced D) :
  on_fst g d = ((g d.1).1, ((g d.1).2, d.2)).
Proof. unfold on_fst. by destruct (g d.1). Qed.

Lemma gl_traced api c (d : Traced D) :
  gl api c d = ((gl api c d.1).1, ((gl api c d.1).2, if api then ask c d.2 else d.2)).
Proof. cbn. by destruct (gl api c d.1). Qed.

#[export] Instance traced_laws : DriverLaws (Traced D).
Proof.
  split.
  - intros draw read ctx d. cbn. rewrite on_fst_snd. exact (make_current_ok (D := D) draw read ctx d.1).
  - intros draw read ctx d. cbn. rewrite on_fst_snd. exact (make_current_fails (D := D) draw read ctx d.1).
  - intros api d d'. cbn [glGetViewport traced_driver].
    pose proof (viewport_restored (D := D) api d.1 d'.1) as H. destruct (glGetViewport d.1) as [[[x y] w] h].
    rewrite gl_traced. exact H.
  - intros api c d Hc. rewrite gl_traced. by apply (viewport_kept (D := D)).
  - intros api c d. rewrite gl_traced. exact (gl_current (D := D) api c d.1).
  - intros ctx t b d. cbn. rewrite on_fst_snd. exact (create_image_current (D := D) ctx t b d.1).
  - intros i d. cbn. rewrite on_fst_snd. exact (destroy_image_current (D := D) i d.1).
  - intros c w h d. cbn. rewrite on_fst_snd. exact (create_surface_current (D := D) c w h d.1).
  - intros c s v d. cbn. rewrite on_fst_snd. exact (create_context_current (D := D) c s v d.1).
  - intros s d. exact (destroy_surface_current (D := D) s d.1).
  - intros c d. exact (destroy_context_current (D := D) c d.1).
  - intros s d. exact (swap_buffers_current (D := D) s d.1).
  - intros d. cbn. rewrite on_fst_snd. exact (initialize_current (D := D) d.1).
  - intros api d. exact (bind_api_current (D := D) api d.1).
Qed.

#[export] Instance traced_reliable `{!Reliable D} : Reliable (Traced D).
Proof. intros draw read ctx d. cbn. rewrite on_fst_snd. exact (make_current_succeeds (D := D) draw read ctx d.1). Qed.
End traced.

(** ** The trace of a scaled texture

    A texture at least twice as large as the viewport is scaled first: afterwards the
    framebuffer is the default one and the program the resizer's. *)

Definition scaled (vport : Z * Z * Z * Z) (tr : TextureResize) : bool :=
  negb (scale_factor (TextureResize.mWidth tr) (TextureResize.mHeight tr) vport =? 1).

Section trace.
Context {W D : Type} `{!Driver D} `{!HasDriver W (Traced D)} `{!HasDriverLaws W (Traced D)}.

Definition asked (w : W) : Asked := (get_drv w).2.

Lemma gles2_asked c (w : W) : asked (s_gles2 c w).2 = ask c (asked w).
Proof. unfold asked, s_gles2. by rewrite gles_drv, gl_traced. Qed.

Lemma gles2_asked_ c (w : W) : asked (s_gles2_ c w).2 = ask c (asked w).
Proof. unfold asked. by rewrite s_gles2_drv, gl_traced. Qed.

(** Nothing is drawn for the window. *)
Definition quiet (w w' : W) : Prop :=
  quads (asked w') = quads (asked w) /\ asked_vertices (asked w') = asked_vertices (asked w).

#[export] Instance quiet_preorder : PreOrder quiet.
Proof. split; [done|]. intros w1 w2 w3 [] []. split; congruence. Qed.

Definition quiet_call (c : GLCall) : Prop :=
  forall s, quads (ask c s) = quads s /\ asked_vertices (ask c s) = asked_vertices s.

Lemma quiet_gles2 c : quiet_call c -> respects quiet (s_gles2 c).
Proof. intros Hc w. unfold quiet. rewrite gles2_asked. apply Hc. Qed.

Lemma quiet_gles2_ c : quiet_call c -> respects quiet (s_gles2_ c).
Proof. intros Hc w. unfold quiet. rewrite gles2_asked_. apply Hc. Qed.

#[local] Hint Extern 1 (respects quiet (s_gles2 _)) => by apply quiet_gles2 : respects.
#[local] Hint Extern 1 (respects quiet (s_gles2_ _)) => by apply quiet_gles2_ : respects.

Lemma quiet_createShader t src : respects quiet (createShader t src).
Proof. unfold createShader. respects_tac. Qed.
#[local] Hint Resolve quiet_createShader : respects.

Lemma quiet_setupFramebuffers tr factor : respects quiet (setupFramebuffers tr factor).
Proof. unfold setupFramebuffers, detachShaders, attachShaders. respects_tac. Qed.

Lemma resize_asked tr tex (w : W) :
  asked (TextureResize.resize tr tex w).2 =
  mkAsked 0 (TextureResize.program (mFBHeight tr)) 0 (asked_vertices (asked w)) (quads (asked w)).
Proof.
  unfold TextureResize.resize. cbv zeta. rewrite !bind_run.
  rewrite !gles2_asked_, !gles2_asked, !gles2_asked_. reflexivity.
Qed.

(** The texture that is bound in the end. *)
Lemma update_asked tr tex (w : W) :
  let r := update tr tex w in
  asked r.2 =
    if scaled (TextureResize.viewport w) tr
    then mkAsked 0 (TextureResize.program (mFBHeight tr)) 0 (asked_vertices (asked w)) (quads (asked w))
    else asked w.
Proof.
  unfold update, scaled, TextureResize.viewport. cbv zeta. rewrite bind_run. cbn [gets fst snd].
  destruct (scale_factor _ _ _ =? 1); cbn [negb]; [done|].
  rewrite 3!bind_run. set (w1 := (s_gles2_ GetError w).2).
  destruct (setupFramebuffers_same tr (scale_factor (TextureResize.mWidth tr) (TextureResize.mHeight tr)
    (glGetViewport (get_drv w))) w1) as [(_ & _ & _ & (_ & _ & Hprog) & _) _].
  destruct (quiet_setupFramebuffers tr (scale_factor (TextureResize.mWidth tr) (TextureResize.mHeight tr)
    (glGetViewport (get_drv w))) w1) as [Hq Hv].
  set (r1 := setupFramebuffers _ _ w1) in *.
  destruct (glGetViewport (get_drv w)) as [[[x y] vw] vh].
  rewrite 2!bind_run.
  assert (Hw1 : asked w1 = asked w) by (unfold w1; by rewrite gles2_asked_).
  destruct (negb _); cbn [fst snd mret M_ret];
    by rewrite gles2_asked, gles2_asked_, resize_asked, Hprog, Hq, Hv, Hw1.
Qed.
End trace.

(** ** The layers of a frame *)

(** What a layer is drawn with: it, the program, and the outline of its buffer. *)
Definition Layer : Type := Renderable * Program * ColorBuffer.

Definition resizer_program (b : ColorBuffer) : Z := TextureResize.program (mFBHeight (m_resizer b)).
Definition scaled_texture (b : ColorBuffer) : Z := TextureResize.texture (mFBHeight (m_resizer b)).
Definition layer_scaled (vp : Z * Z * Z * Z) (l : Layer) : bool := scaled vp (m_resizer l.2).

(** The corners the layer has on the screen and in its texture. *)
Definition layer_corners (l : Layer) : list spec_float :=
  concat (vertex_floats <$> tessellate (rect_of_size (i32 (m_width l.2)) (i32 (m_height l.2))) l.1.1).

(** The quad of a layer where [fbo] is bound before it. *)
Definition layer_quad (fbo : Z) (vp : Z * Z * Z * Z) (l : Layer) (q : Quad) : Prop :=
  target q = (if layer_scaled vp l then 0 else fbo) /\
  quad_program q = (if layer_scaled vp l then resizer_program l.2 else id l.1.2) /\
  (source q = m_tex l.2 \/ layer_scaled vp l = true /\ source q = scaled_texture l.2) /\
  corners q = layer_corners l.

(** The quads of a frame: what a scaled layer leaves bound is where the next one goes. *)
Fixpoint frame_quads (fbo : Z) (vp : Z * Z * Z * Z) (ls : list Layer) (qs : list Quad) : Prop :=
  match ls, qs with
  | [], [] => True
  | l :: ls, q :: qs => layer_quad fbo vp l q /\ frame_quads (target q) vp ls qs
  | _, _ => False
  end.

Lemma omap_eq {A B} (g h : A -> option B) (l : list A) : (forall x, g x = h x) -> omap g l = omap h l.
Proof. intros H. induction l as [|x l IH]; [done|]. cbn. rewrite (H x). destruct (h x); congruence. Qed.

Section quads.
Context {D : Type} `{!Driver D} `{!DriverLaws D}.
Implicit Types f : Frames (Traced D).

Definition layer_of (f : Frames (Traced D)) (r : Renderable) : option Layer :=
  (fun b => (r, layer_program r f, b)) <$> layer_shape r f.

Lemma bind_asked b f :
  let a := asked f in
  let s := scaled (vport f) (m_resizer b) in
  exists tex, (tex = m_tex b \/ s = true /\ tex = scaled_texture b) /\
    asked (bind b f).2 =
      mkAsked (if s then 0 else asked_fbo a) (if s then resizer_program b else asked_program a) tex
        (asked_vertices a) (quads a).
Proof.
  cbv zeta. unfold bind. rewrite 2!bind_run. cbn [snd mret M_ret].
  exists (update (m_resizer b) (m_tex b) f).1.1.
  destruct (update_correct (m_resizer b) (m_tex b) f) as (_ & _ & H1 & H2).
  change (TextureResize.viewport f) with (vport f) in *.
  rewrite gles2_asked_, update_asked. change (TextureResize.viewport f) with (vport f).
  unfold scaled in *. destruct (Z.eqb_spec (scale_factor (TextureResize.mWidth (m_resizer b))
    (TextureResize.mHeight (m_resizer b)) (vport f)) 1) as [E|E]; cbn [negb].
  - rewrite H1 by done. split; [by left|done].
  - destruct (H2 E) as [_ H]. split; [|done]. destruct H as [->| ->]; [by left|by right].
Qed.

Lemma kept_asked_call c f : moves_viewport c = false ->
  kept f (s_gles2_ c f).2 /\ asked (s_gles2_ c f).2 = ask c (asked f).
Proof. intros Hc. split; [by apply kept_gles2_|apply gles2_asked_]. Qed.

(** The calls after the color buffer was bound. *)
Lemma draw_primitive_run p prog prim b f :
  buffers (w_heap (f_world f)) !! p = Some b -> type prim = GL_TRIANGLE_STRIP ->
  let f' := (draw_primitive p prog prim f).2 in
  let s := scaled (vport f) (m_resizer b) in
  let a := asked f in
  exists q, quads (asked f') = quads a ++ [q] /\ asked_fbo (asked f') = target q /\
    target q = (if s then 0 else asked_fbo a) /\
    quad_program q = (if s then resizer_program b else asked_program a) /\
    (source q = m_tex b \/ s = true /\ source q = scaled_texture b) /\
    corners q = vertex_floats prim.
Proof.
  intros Hp Ht. cbv zeta. unfold draw_primitive. rewrite bind_run. cbn [gets fst snd]. rewrite Hp.
  rewrite bind_run. destruct (bind_asked b f) as (tex & Htex & Hasked).
  destruct (bind b f) as [b' f1]. cbn [fst snd] in *.
  rewrite bind_run. set (f2 := (in_world (modify (put_buffer p b')) f1).2).
  assert (Ha2 : asked f2 = asked f1) by done.
  rewrite !bind_run. eexists. rewrite !gles2_asked_, Ht, Ha2, Hasked. cbn. split; [reflexivity|]. cbn. by split_and!.
Qed.

(** A layer whose buffer is gone is not drawn. *)
Lemma draw_layer_run window r f :
  let f' := (draw_layer window r (layer_program r f) f).2 in
  match layer_of f r with
  | None => f' = f
  | Some l =>
      exists q, layer_quad (asked_fbo (asked f)) (vport f) l q /\
        quads (asked f') = quads (asked f) ++ [q] /\ asked_fbo (asked f') = target q
  end.
Proof.
  cbv zeta. unfold layer_of, layer_shape, draw_layer. set (prog := layer_program r f). rewrite bind_run. cbn [gets fst snd].
  destruct (layer_buffer r f) as [[p b]|] eqn:Hb; [|done]. cbn [fmap option_fmap option_map snd].
  assert (Hp : buffers (w_heap (f_world f)) !! p = Some b).
  { unfold layer_buffer in Hb. destruct (m_colorbuffers _ !! _) as [ref|]; [|done]. cbn in Hb.
    destruct (buffers _ !! cb ref) eqn:E; [|done]. cbn in Hb. congruence. }
  cbv zeta. rewrite !bind_run. cbn [tessellate fmap list_fmap mseq]. rewrite bind_run. cbn [mret M_ret snd].
  set (prim := mkPrimitive _ _ _ _).
  match goal with |- context[draw_primitive p prog prim ?g] => set (f1 := g) end.
  assert (H1 : kept f f1 /\ asked f1 = mkAsked (asked_fbo (asked f)) (id prog) (asked_texture (asked f))
    (asked_vertices (asked f)) (quads (asked f))).
  { unfold f1. unfold when. destruct (0 <=? alpha_uniform prog); cbn [snd mret M_ret];
      (split; [repeat (etransitivity; [|by apply kept_gles2_]); reflexivity
              |by rewrite !gles2_asked_]). }
  destruct H1 as [H1 Ha1]. destruct (kept_lookup p b f f1 H1 Hp) as (b1 & Hp1 & Hs1).
  destruct (draw_primitive_run p prog prim b1 f1 Hp1 eq_refl) as (q & Hq & Hfbo & Ht & Hpr & Hsrc & Hc).
  exists q. rewrite Ha1 in *. cbn [asked_fbo asked_program quads] in *.
  destruct H1 as [_ Hv]. rewrite Hv in *. unfold layer_quad, layer_scaled, resizer_program, scaled_texture in *.
  assert (Hcor : layer_corners (r, prog, shape b) = vertex_floats prim) by apply app_nil_r.
  cbn [fst snd]. rewrite <- Hs1. split_and!; try done. by rewrite Hs1, Hcor.
Qed.

Lemma layer_of_scene f f' r : scene f' = scene f -> layer_of f' r = layer_of f r.
Proof.
  intros H. unfold layer_of, layer_program. rewrite (layer_shape_scene r f f' H).
  by injection H as _ _ -> ->.
Qed.

Lemma draw_layers_run window rs : forall f,
  let f' := (draw_layers window rs f).2 in
  exists qs, quads (asked f') = quads (asked f) ++ qs /\
    frame_quads (asked_fbo (asked f)) (vport f) (omap (layer_of f) rs) qs.
Proof.
  unfold draw_layers. induction rs as [|r rs IH]; intros f; cbv zeta.
  { exists []. by rewrite app_nil_r. }
  rewrite fmap_cons. cbn [mseq]. rewrite 2!bind_run. cbn [gets fst snd].
  pose proof (draw_layer_run window r f) as Hl. cbv zeta in Hl.
  set (f1 := (draw_layer _ _ _ f).2) in *. specialize (IH f1). cbv zeta in IH.
  destruct IH as (qs & Hq & Hqs). cbn [omap list_omap].
  destruct (layer_of f r) as [l|] eqn:El; [|by rewrite Hl in *; eauto].
  assert (Hk1 : kept f f1) by apply kept_draw_layer. destruct Hl as (q & Hlq & Hq1 & Hfbo).
  exists (q :: qs). split; [by rewrite Hq, Hq1, <- app_assoc|]. split; [done|].
  rewrite <- Hfbo, <- (proj2 Hk1).
  rewrite (omap_eq (layer_of f) (layer_of f1)); [exact Hqs|].
  intros x. symmetry. by apply layer_of_scene, scene_kept.
Qed.
End quads.

Lemma frame_quads_spec vp ls : forall fbo qs,
  frame_quads fbo vp ls qs ->
  length qs = length ls /\
  forall i l q, ls !! i = Some l -> qs !! i = Some q ->
    layer_quad (if existsb (layer_scaled vp) (take i ls) then 0 else fbo) vp l q.
Proof.
  induction ls as [|l ls IH]; intros fbo [|q qs] H; try done.
  destruct H as [Hq H]. destruct (IH _ _ H) as [Hlen Hall]. split; [cbn; by rewrite Hlen|].
  intros [|i] l' q' Hl' Hq'; cbn in Hl', Hq'.
  { by simplify_eq. }
  specialize (Hall i l' q' Hl' Hq'). destruct Hq as [Ht _]. rewrite Ht in Hall. cbn [take existsb].
  destruct (layer_scaled vp l), (existsb _ _); exact Hall.
Qed.

(** ** Where a frame is drawn *)

Section drawn.
Context {D : Type} `{!Driver D}.

#[local] Hint Extern 1 (respects quiet (s_gles2 _)) => by apply quiet_gles2 : respects.
#[local] Hint Extern 1 (respects quiet (s_gles2_ _)) => by apply quiet_gles2_ : respects.

Lemma quiet_attach image : respects (W := Traced D) quiet (attach_image image).
Proof. unfold attach_image, texture_parameters. respects_tac. Qed.
#[local] Hint Resolve quiet_attach : respects.

Lemma quiet_create_image c t b : respects (W := Traced D) quiet (fun d => eglCreateImageKHR c t b d).
Proof. intros d. unfold quiet. cbn. by rewrite on_fst_snd. Qed.
#[local] Hint Resolve quiet_create_image : respects.

Lemma quiet_destroy_image i : respects (W := Traced D) quiet (egl_destroy_image i).
Proof. intros d. unfold quiet. cbn. by rewrite on_fst_snd. Qed.
#[local] Hint Resolve quiet_destroy_image : respects.

Lemma quiet_create_buffer gbm p : respects (W := Traced D) quiet (create_buffer gbm p).
Proof. unfold create_buffer, createFydeBuffer. respects_tac. Qed.
#[local] Hint Resolve quiet_create_buffer : respects.

Lemma quiet_drop_dirty l : respects (W := Traced D) quiet (drop_dirty l).
Proof. induction l as [|b l IH]; cbn [drop_dirty]; [respects_tac|]. unfold deleteFydeBuffer. respects_tac. Qed.
#[local] Hint Resolve quiet_drop_dirty : respects.

Lemma quiet_wayland_bind gbm p : respects (W := Traced D) quiet (wayland_bind gbm p).
Proof.
  unfold wayland_bind, DequeueBuffer. generalize 2%nat. intros n. revert p.
  induction n as [|n IH]; intros p; cbn [dequeue]; respects_tac.
Qed.

(** The framebuffer made last is the one that is bound. *)
Lemma attach_image_asked image (d : Traced D) :
  asked_fbo (asked (attach_image image d).2) = fbo (attach_image image d).1.
Proof. unfold attach_image. rewrite !bind_run. cbn [fst snd mret M_ret fbo]. by rewrite !gles2_asked_. Qed.

Context `{!DriverLaws D}.
Variable tan : spec_float -> spec_float.
Implicit Types f : Frames (Traced D).

(** A viewport of the frame's size can be set, which a driver supports up to the size of
    the largest framebuffer. *)
Definition can_set (rect : Rect) : Prop :=
  forall d : D, glGetViewport (gl true (SetViewport 0 0 (width rect) (height rect)) d).2 =
    (0, 0, width rect, height rect).

Lemma draw_contents_quads native rect rs window f :
  can_set rect ->
  let f' := (draw_contents tan native rect rs window f).2 in
  exists qs, quads (asked f') = quads (asked f) ++ qs /\
    frame_quads (asked_fbo (asked f)) (0, 0, width rect, height rect) (omap (layer_of f) rs) qs.
Proof.
  intros Hset. cbv zeta. unfold draw_contents. cbv zeta. rewrite !bind_run. cbn [modify fst snd].
  set (w' := setupViewport tan rect window).
  set (f1 := set_m_nativeWindows _ f). set (f2 := (s_gles2_ (SetViewport _ _ _ _) f1).2).
  match goal with |- context[draw_layers w' rs ?x] => set (g := x) end.
  assert (Hg : kept f2 g) by (unfold g; repeat (etransitivity; [|by apply kept_gles2_]); reflexivity).
  assert (Ha : asked g = asked f) by (unfold g, f2; by rewrite !gles2_asked_).
  assert (Hv : vport g = (0, 0, width rect, height rect)).
  { rewrite (proj2 Hg). unfold vport, f2. rewrite s_gles2_drv, gl_traced. apply Hset. }
  assert (Hs : scene g = scene f).
  { rewrite (scene_kept f2 g Hg). 
    assert (H12 : still f1 f2) by apply respects_s_gles2_, _.
    exact (f_equal (fun o => (w_tables (f_world o), buffers (w_heap (f_world o)),
      m_defaultProgram o, m_alphaProgram o)) (proj1 H12)). }
  destruct (draw_layers_run w' rs g) as (qs & Hq & Hqs). exists qs.
  unfold egl_swap. rewrite on_driver_run. split.
  - change (quads (asked (draw_layers w' rs g).2) = quads (asked f) ++ qs). by rewrite Hq, Ha.
  - rewrite <- Ha, <- Hv. rewrite (omap_eq (layer_of f) (layer_of g)); [exact Hqs|].
    intros x. symmetry. by apply layer_of_scene.
Qed.

Lemma get_set_ext a e p : is_Some (get_ext a p) -> get_ext a (set_ext a e p) = Some e.
Proof.
  unfold get_ext, set_ext. cbn [buffers_ with_buffers]. induction (buffers_ p) as [|b l IH]; intros H.
  { by destruct H. }
  cbn in *. destruct (Z.eqb_spec (address b) a) as [Ha|Ha]; cbn.
  - by rewrite (proj2 (Z.eqb_eq _ _) Ha).
  - rewrite (proj2 (Z.eqb_neq _ _) Ha) in *. by apply IH.
Qed.

Lemma unbind_ext a p p' x : wayland_unbind a p = Some p' -> get_ext x p' = get_ext x p.
Proof. unfold wayland_unbind. destruct (List.find _ _); [|done]. by intros [= <-]. Qed.

Lemma bindWindow_succeeds `{!Reliable D} gbm window f f1 :
  bindWindow_locked gbm window f <> (NotBound, f1).
Proof.
  unfold bindWindow_locked. rewrite bind_run, in_world_run. cbn [fst snd].
  rewrite bind_run. cbn [gets fst snd]. rewrite bind_run, in_world_run. cbn [fst snd].
  match goal with |- context[egl_make_current ?a ?b ?c ?w] =>
    assert ((egl_make_current a b c w).1 = true) as -> end.
  { unfold egl_make_current. 
    pose proof (make_current_succeeds (D := Traced D)) as H. unfold Reliable in H.
    match goal with |- context[eglMakeCurrent ?a ?b ?c ?d] => specialize (H a b c d) end.
    by destruct (eglMakeCurrent _ _ _ _). }
  cbn [negb]. rewrite bind_run. cbn [gets fst snd].
  destruct (platform_windows _ !! _) as [p|]; [|done]. rewrite bind_run.
  destruct (on_driver _ _).1 as [a p1| |]; [|done..].
  destruct (get_ext a p1); [|done]. by rewrite !bind_run.
Qed.

(** The state between binding and drawing. *)
Lemma bound_trace gbm window f a f1 :
  bindWindow_locked gbm window f = (BoundTo a, f1) ->
  exists p e,
    platform_windows f1 !! pWaylandRenderer window = Some p /\ get_ext a p = Some e /\
    asked_fbo (asked f1) = fbo e /\ quads (asked f1) = quads (asked f) /\ scene f1 = scene f /\
    w_saved (f_world f1) = (current_binding (f_world f)).1.
Proof.
  intros (p & p1 & e0 & Hp & Hb & He & ->)%bindWindow_run. cbv zeta in *.
  set (d0 := driver_after_bind window f) in *. set (r := wayland_bind gbm p d0) in *.
  exists (set_ext a (attach_image (image e0) r.2).1 p1), (attach_image (image e0) r.2).1.
  split_and!; [cbn; apply lookup_insert_eq|by apply get_set_ext|apply attach_image_asked| |done|done].
  destruct (quiet_attach (image e0) r.2) as [H1 _]. destruct (quiet_wayland_bind gbm p d0) as [H2 _].
  etrans; [exact H1|]. etrans; [exact H2|]. unfold d0, driver_after_bind, asked. cbn. by rewrite on_fst_snd.
Qed.

Lemma unbind_locked_run `{!Reliable D} (w : World (Traced D)) :
  let w' := (unbind_locked w).2 in
  (w_drv w').2 = (w_drv w).2 /\ w_tables w' = w_tables w /\ w_heap w' = w_heap w /\
  current (w_drv w') = (m_prevDrawSurf (w_saved w), m_prevReadSurf (w_saved w), m_prevContext (w_saved w)).
Proof.
  cbv zeta. unfold unbind_locked. rewrite 2!bind_run. cbn [gets fst snd]. unfold egl_make_current.
  pose proof (make_current_succeeds (m_prevDrawSurf (w_saved w)) (m_prevReadSurf (w_saved w))
    (m_prevContext (w_saved w)) (w_drv w)) as H1.
  pose proof (make_current_ok _ _ _ _ H1) as H2. cbn [eglMakeCurrent traced_driver] in *.
  rewrite on_fst_snd in *. cbn [fst snd] in *. rewrite H1. by split_and!.
Qed.

End drawn.

