(* ===== verification/Startup.v ===== *)
(** * Start of the renderer

    [initialize] (src/src/anbox/graphics/emugl/Renderer.cpp) sets up the contexts, the
    configurations and the programs that everything else uses, with [GLExtensions]
    (graphics/gl_extensions.h) and [ProgramFamily] (graphics/program_family.{h,cpp}).
    The members it sets are those of [Display] and [Frames].  Left out: the strings that
    are cached for others (vendor, renderer, version), the capability for renderbuffers,
    which nothing reads, and logging. *)

From Stdlib Require Import Ascii.
From S2P Require Import Prelude Gl RendererConfig TextureDraw ColorBuffer RenderState Binding NativeWindow.

(** ** Extensions *)

Module GLExtensions.
(** [strstr]: from the first occurrence on. *)
Fixpoint strstr (s ext : list ascii) : option (list ascii) :=
  if bool_decide (ext `prefix_of` s) then Some s
  else match s with [] => None | _ :: s => strstr s ext end.

(** [ext_ptr[len]] ends a name. *)
Definition ends (s : list ascii) : bool :=
  match s with [] => true | c :: _ => Ascii.eqb c " " end.

(** The loop; every round but the last goes on behind an occurrence, so with a name that
    is not empty as many rounds as there are characters are enough. *)
Fixpoint search (n : nat) (s ext : list ascii) : bool :=
  match n with
  | O => false
  | S n =>
      match strstr s ext with
      | None => false
      | Some s =>
          let s := drop (length ext) s in
          if ends s then true else search n s ext
      end
  end.

Definition support (extensions ext : string) : bool :=
  let s := String.list_ascii_of_string extensions in
  search (S (length s)) s (String.list_ascii_of_string ext).
End GLExtensions.

(** ** Programs *)

(** A shader's source is known by its address. *)
Record Source := mkSource { source_address : Z; source_text : string }.

Record ProgramFamily := mkFamily {
  vshader : gmap Z Z;
  fshader : gmap Z Z;
  program : gmap (Z * Z) Z
}.

Definition family_new : ProgramFamily := mkFamily ∅ ∅ ∅.

Section family.
Context {W D : Type} `{!Driver D} `{!HasDriver W D}.

(** [Shader::init] on a shader that has the name [id]; [None]: it throws, and the
    shader's name is [0]. *)
Definition shader_init (id type : Z) (src : Source) : M W (option Z) :=
  if negb (id =? 0) then mret (Some id)
  else
    id ← s_gles2 (CreateShader type);
    if id =? 0 then mret (Some 0)
    else
      s_gles2_ (ShaderSource id [source_text src]) ;;
      s_gles2_ (CompileShader id) ;;
      ok ← s_gles2 (GetShaderiv id GL_COMPILE_STATUS);
      if ok =? 0 then s_gles2_ (DeleteShader id) ;; mret None else mret (Some id).

(** [None]: it throws.  A program that cannot be linked is deleted as if it were a
    shader. *)
Definition add_program (vshader_src fshader_src : Source) (fam : ProgramFamily) :
    M W (option Z * ProgramFamily) :=
  let v := default 0 (vshader fam !! source_address vshader_src) in
  v ← shader_init v GL_VERTEX_SHADER vshader_src;
  let fam := mkFamily (<[source_address vshader_src := default 0 v]> (vshader fam)) (fshader fam) (program fam) in
  match v with
  | None => mret (None, fam)
  | Some v =>
      let f := default 0 (fshader fam !! source_address fshader_src) in
      f ← shader_init f GL_FRAGMENT_SHADER fshader_src;
      let fam := mkFamily (vshader fam) (<[source_address fshader_src := default 0 f]> (fshader fam)) (program fam) in
      match f with
      | None => mret (None, fam)
      | Some f =>
          let p := default 0 (program fam !! (v, f)) in
          let put p := mkFamily (vshader fam) (fshader fam) (<[(v, f) := p]> (program fam)) in
          if negb (p =? 0) then mret (Some p, put p)
          else
            p ← s_gles2 CreateProgram;
            s_gles2_ (AttachShader p v) ;;
            s_gles2_ (AttachShader p f) ;;
            s_gles2_ (LinkProgram p) ;;
            ok ← s_gles2 (GetProgramiv p GL_LINK_STATUS);
            if ok =? 0 then s_gles2_ (DeleteShader p) ;; mret (None, put 0)
            else mret (Some p, put p)
      end
  end.

(** The destructor; the order within a map is left open by the program. *)
Definition family_delete (fam : ProgramFamily) : M W unit :=
  mseq ((fun p => when (negb (p.2 =? 0)) (s_gles2_ (DeleteProgram p.2))) <$> map_to_list (program fam)) ;;
  mseq ((fun v => when (negb (v.2 =? 0)) (s_gles2_ (DeleteShader v.2))) <$> map_to_list (vshader fam)) ;;
  mseq ((fun f => when (negb (f.2 =? 0)) (s_gles2_ (DeleteShader f.2))) <$> map_to_list (fshader fam)).

(** [Renderer::Program]. *)
Definition Program_new (program_id : Z) : M W Program :=
  position ← s_gles2 (GetAttribLocation program_id "position");
  texcoord ← s_gles2 (GetAttribLocation program_id "texcoord");
  tex ← s_gles2 (GetUniformLocation program_id "tex");
  center ← s_gles2 (GetUniformLocation program_id "center");
  display_transform ← s_gles2 (GetUniformLocation program_id "display_transform");
  transform ← s_gles2 (GetUniformLocation program_id "transform");
  screen_to_gl_coords ← s_gles2 (GetUniformLocation program_id "screen_to_gl_coords");
  alpha ← s_gles2 (GetUniformLocation program_id "alpha");
  mret (mkProgram program_id tex position texcoord center display_transform transform
    screen_to_gl_coords alpha).
End family.

(** ** The renderer's shaders *)

Definition vshader_source : Source := mkSource 1 (String.concat EmptyString [
  "attribute vec3 position;";
  "attribute vec2 texcoord;";
  "uniform mat4 screen_to_gl_coords;";
  "uniform mat4 display_transform;";
  "uniform mat4 transform;";
  "uniform vec2 center;";
  "varying vec2 v_texcoord;";
  "void main() {";
  "   vec4 mid = vec4(center, 0.0, 0.0);";
  "   vec4 transformed = (transform * (vec4(position, 1.0) - mid)) + mid;";
  "   gl_Position = display_transform * screen_to_gl_coords * transformed;";
  "   v_texcoord = texcoord;";
  "}"]%string).

Definition alphaFShader : Source := mkSource 2 (String.concat EmptyString [
  "precision mediump float;";
  "uniform sampler2D tex;";
  "uniform float alpha;";
  "varying vec2 v_texcoord;";
  "void main() {";
  "   vec4 frag = texture2D(tex, v_texcoord);";
  "   gl_FragColor = alpha*frag;";
  "}"]%string).

Definition defaultFShader : Source := mkSource 3 (String.concat EmptyString [
  "precision mediump float;";
  "uniform sampler2D tex;";
  "varying vec2 v_texcoord;";
  "void main() {";
  "   gl_FragColor = texture2D(tex, v_texcoord);";
  "}"]%string).

(** ** initialize *)

Inductive Init := Initialized | Failed | Thrown.

Definition EGL_NO_DISPLAY : Z := 0.
Definition EGL_OPENGL_ES_API : Z := 0x30A0.
Definition EGL_RENDERABLE_TYPE : Z := 0x3040.
Definition EGL_OPENGL_ES_BIT : Z := 1.
Definition EGL_OPENGL_ES2_BIT : Z := 4.

Definition configAttribs : list Z :=
  [EGL_RED_SIZE; 8; EGL_GREEN_SIZE; 8; EGL_BLUE_SIZE; 8; EGL_SURFACE_TYPE; EGL_PBUFFER_BIT;
   EGL_RENDERABLE_TYPE; EGL_OPENGL_ES2_BIT; EGL_NONE].

Definition renders (bit : Z) (c : RendererConfig) : bool := negb (Z.land (getRenderableType c) bit =? 0).

(** The renderer with its programs' family. *)
Record Starting (D : Type) := mkStarting { st_frames : Frames D; m_family : ProgramFamily }.
Arguments mkStarting {D}.
Arguments st_frames {D}.
Arguments m_family {D}.

Section initialize.
Context {D : Type} `{!Driver D}.

(** Values of variables that are not initialised. *)
Variable garbage : Z.

#[export] Instance starting_driver : HasDriver (Starting D) D := {|
  get_drv s := get_drv (st_frames s);
  set_drv d s := mkStarting (set_drv d (st_frames s)) (m_family s)
|}.

#[export] Instance starting_driver_laws : HasDriverLaws (Starting D) D.
Proof. split; [done|by intros [[[]]]|done]. Qed.

Definition upd_frames (g : Frames D -> Frames D) : M (Starting D) unit :=
  modify (fun s => mkStarting (g (st_frames s)) (m_family s)).

Definition upd_display (g : Display -> Display) : M (Starting D) unit :=
  upd_frames (fun f =>
    let w := f_world f in
    with_world (mkWorld (w_drv w) (g (w_display w)) (w_saved w) (w_tables w) (w_heap w) (w_self w) (w_others w)) f).

Definition set_version (maj min : Z) (d : Display) : Display :=
  mkDisplay (m_configs d) (has_eglimage_texture_2d d) maj min (m_eglContext d) (m_pbufSurface d)
    (m_pbufContext d) (m_textureDraw d).
Definition set_eglContext (c : Z) (d : Display) : Display :=
  mkDisplay (m_configs d) (has_eglimage_texture_2d d) (eglMajor d) (eglMinor d) c (m_pbufSurface d)
    (m_pbufContext d) (m_textureDraw d).
Definition set_pbufContext (c : Z) (d : Display) : Display :=
  mkDisplay (m_configs d) (has_eglimage_texture_2d d) (eglMajor d) (eglMinor d) (m_eglContext d)
    (m_pbufSurface d) c (m_textureDraw d).
Definition set_pbufSurface (s : Z) (d : Display) : Display :=
  mkDisplay (m_configs d) (has_eglimage_texture_2d d) (eglMajor d) (eglMinor d) (m_eglContext d) s
    (m_pbufContext d) (m_textureDraw d).
Definition set_caps (b : bool) (d : Display) : Display :=
  mkDisplay (m_configs d) b (eglMajor d) (eglMinor d) (m_eglContext d) (m_pbufSurface d)
    (m_pbufContext d) (m_textureDraw d).
Definition set_configs (l : list RendererConfig) (d : Display) : Display :=
  mkDisplay l (has_eglimage_texture_2d d) (eglMajor d) (eglMinor d) (m_eglContext d) (m_pbufSurface d)
    (m_pbufContext d) (m_textureDraw d).
Definition set_textureDraw (t : TextureDraw) (d : Display) : Display :=
  mkDisplay (m_configs d) (has_eglimage_texture_2d d) (eglMajor d) (eglMinor d) (m_eglContext d)
    (m_pbufSurface d) (m_pbufContext d) t.

Definition set_eglConfig (c : Z) (f : Frames D) : Frames D :=
  mkFrames (f_world f) (m_nativeWindows f) (platform_windows f) (m_defaultProgram f) (m_alphaProgram f) c.
Definition set_programs (default_program alpha_program : option Program) (f : Frames D) : Frames D :=
  mkFrames (f_world f) (m_nativeWindows f) (platform_windows f)
    (default (m_defaultProgram f) default_program) (default (m_alphaProgram f) alpha_program) (m_eglConfig f).

(** A step of the driver, and one of the renderer. *)
Definition driver_step {A} (m : M D A) : M (Starting D) A :=
  fun s => let '(a, d) := m (get_drv s) in (a, set_drv d s).
Definition world_step {A} (m : M (World D) A) : M (Starting D) A :=
  fun s => let '(a, f) := in_world m (st_frames s) in (a, mkStarting f (m_family s)).

(** A program of the family; [None]: an exception. *)
Definition start_program (fsrc : Source) : M (Starting D) (option Program) :=
  fam ← gets m_family;
  r ← add_program vshader_source fsrc fam;
  modify (fun s => mkStarting (st_frames s) r.2) ;;
  match r.1 with
  | None => mret None
  | Some p => prog ← Program_new p; mret (Some prog)
  end.

(** With the renderer's context current. *)
Definition initialize_bound (egl_extensions : string) : M (Starting D) Init :=
  gl_extensions ← gets (fun s => glGetString true (get_drv s) GL_EXTENSIONS);
  match gl_extensions with
  | None => mret Thrown
  | Some gl_extensions =>
      let has := GLExtensions.support gl_extensions "GL_OES_EGL_image" &&
                 GLExtensions.support egl_extensions "EGL_KHR_gl_texture_2D_image" in
      upd_display (set_caps has) ;;
      if negb has then mret Failed
      else
        configs ← gets (fun s => RendererConfigList_new garbage (get_drv s));
        upd_display (set_configs configs) ;;
        if bool_decide (configs = []) then mret Failed
        else if negb (existsb (renders EGL_OPENGL_ES_BIT) configs) then mret Failed
        else if negb (existsb (renders EGL_OPENGL_ES2_BIT) configs) then mret Failed
        else
          td ← TextureDraw_new garbage;
          upd_display (set_textureDraw td) ;;
          default_program ← start_program defaultFShader;
          match default_program with
          | None => mret Thrown
          | Some _ =>
              upd_frames (set_programs default_program None) ;;
              alpha_program ← start_program alphaFShader;
              match alpha_program with
              | None => mret Thrown
              | Some _ => upd_frames (set_programs None alpha_program) ;; mret Initialized
              end
          end
  end.

(** The first part: the display and the contexts.  The result is the display's
    extensions, [None] a failure. *)
Definition initialize_contexts (nativeDisplay : Z) : M (Starting D) (option string) :=
  display ← gets (fun s => eglGetDisplay nativeDisplay (get_drv s));
  if display =? EGL_NO_DISPLAY then mret None
  else
    version ← driver_step eglInitialize;
    match version with
    | None => mret None
    | Some (maj, min) =>
        upd_display (set_version maj min) ;;
        egl_extensions ← gets (fun s => eglQueryString (get_drv s) EGL_EXTENSIONS);
        let surfaceless_supported := GLExtensions.support egl_extensions "EGL_KHR_surfaceless_context" in
        driver_step (modify (eglBindAPI EGL_OPENGL_ES_API)) ;;
        chosen ← gets (fun s => eglChooseConfig (get_drv s) configAttribs 1);
        match chosen with
        | None | Some [] => mret None
        | Some (config :: _) =>
            upd_frames (set_eglConfig config) ;;
            ctx ← driver_step (eglCreateContext config EGL_NO_CONTEXT 2);
            upd_display (set_eglContext ctx) ;;
            if ctx =? EGL_NO_CONTEXT then mret None
            else
              pctx ← driver_step (eglCreateContext config ctx 2);
              upd_display (set_pbufContext pctx) ;;
              if pctx =? EGL_NO_CONTEXT then mret None
              else
                surf ← (if negb surfaceless_supported
                        then driver_step (eglCreatePbufferSurface config 1 1)
                        else mret EGL_NO_SURFACE);
                upd_display (set_pbufSurface surf) ;;
                if negb surfaceless_supported && (surf =? EGL_NO_SURFACE) then mret None
                else mret (Some egl_extensions)
        end
    end.

(** [ScopedBind] around the rest: it is released on every way out. *)
Definition initialize (nativeDisplay : Z) : M (Starting D) Init :=
  egl_extensions ← initialize_contexts nativeDisplay;
  match egl_extensions with
  | None => mret Failed
  | Some egl_extensions =>
      ok ← world_step bind_locked;
      if negb ok then mret Failed
      else
        r ← initialize_bound egl_extensions;
        world_step unbind_locked ;;
        mret r
  end.
End initialize.

(** ** Looking for an extension *)

Section extensions.
Implicit Types s ext : list ascii.
Import GLExtensions.

Lemma strstr_some s ext s1 :
  strstr s ext = Some s1 -> exists pre, s = pre ++ s1 /\ ext `prefix_of` s1.
Proof.
  induction s as [|c s IH]; cbn; case_bool_decide as Hp; intros H.
  - injection H as <-. by exists [].
  - done.
  - injection H as <-. by exists [].
  - destruct (IH H) as (pre & -> & Hs). by exists (c :: pre).
Qed.

(** The first occurrence is found. *)
Lemma strstr_first s ext a rest :
  s = a ++ ext ++ rest ->
  exists pre s1, strstr s ext = Some s1 /\ s = pre ++ s1 /\ ext `prefix_of` s1 /\ (length pre <= length a)%nat.
Proof.
  revert s. induction a as [|c a IH]; intros s ->; cbn.
  - exists [], (ext ++ rest). destruct (ext ++ rest) eqn:E; cbn;
      (rewrite bool_decide_eq_true_2; [split_and!; try done|]); rewrite <- E; by apply prefix_app_r.
  - case_bool_decide as Hp.
    + exists [], (c :: a ++ ext ++ rest). split_and!; [done|done|done|cbn; lia].
    + destruct (IH _ eq_refl) as (pre & s1 & Hs & He & Hx & Hl). exists (c :: pre), s1.
      split_and!; [done|cbn; by rewrite He|done|cbn; lia].
Qed.

(** The name between spaces. *)
Definition named s ext : Prop :=
  exists a rest, s = a ++ ext ++ rest /\ ends rest = true /\ (a = [] \/ last a = Some " "%char).

Lemma search_complete n : forall s ext,
  (" "%char : ascii) ∉ ext -> ext <> [] -> (length s < n)%nat -> named s ext -> search n s ext = true.
Proof.
  induction n as [|n IH]; intros s ext Hsp Hne Hn (a & rest & Hs & Hend & Ha); [lia|]. cbn [search].
  destruct (strstr_first s ext a rest Hs) as (pre & s1 & Hf & Hs1 & [rest1 Hx] & Hl). rewrite Hf.
  subst s1. rewrite drop_app_length.
  destruct (ends rest1) eqn:E1; [done|]. apply IH; [done|done| |].
  { rewrite Hs1, !length_app in Hn. destruct ext; [done|]. cbn in Hn. lia. }
  rewrite Hs in Hs1.
  assert (exists x, a = pre ++ x) as [x ->].
  { exists (drop (length pre) a). rewrite <- (take_drop (length pre) a) at 1. f_equal.
    pose proof (f_equal (take (length pre)) Hs1) as H. rewrite take_app_le in H by done.
    by rewrite take_app_length in H. }
  rewrite <- app_assoc in Hs1. apply (inj (app pre)) in Hs1. rewrite !length_app in Hl.
  destruct x as [|c x _] using rev_ind.
  { cbn in Hs1. apply (inj (app ext)) in Hs1. congruence. }
  destruct Ha as [Ha|Ha]; [by destruct pre, x|].
  rewrite app_assoc, last_snoc in Ha. injection Ha as ->.
  destruct (decide (length ext <= length x)%nat) as [Hle|Hgt].
  - (* the occurrence is before the name *)
    assert (exists y, x = ext ++ y) as [y ->].
    { exists (drop (length ext) x). rewrite <- (take_drop (length ext) x) at 1. f_equal.
      pose proof (f_equal (take (length ext)) Hs1) as H.
      rewrite <- app_assoc, take_app_le in H by done. by rewrite take_app_length in H. }
    rewrite <- !app_assoc in Hs1. apply (inj (app ext)) in Hs1.
    exists (y ++ [" "%char]), rest. split_and!; [by rewrite <- Hs1, <- !app_assoc|done|].
    right. apply last_snoc.
  - (* the space before the name would be part of the occurrence *)
    destruct Hsp. pose proof (f_equal (.!! length x) Hs1) as H.
    rewrite <- app_assoc, lookup_app_r, Nat.sub_diag in H by done. cbn in H.
    rewrite lookup_app_l in H by lia. symmetry in H. by eapply list_elem_of_lookup_2.
Qed.

Lemma search_sound n : forall s ext,
  search n s ext = true -> exists a rest, s = a ++ ext ++ rest /\ ends rest = true.
Proof.
  induction n as [|n IH]; intros s ext; cbn [search]; [done|].
  destruct (strstr s ext) as [s1|] eqn:E; [|done].
  apply strstr_some in E as (pre & -> & [rest ->]). rewrite drop_app_length.
  destruct (ends rest) eqn:Ee; [intros _; by exists pre, rest|].
  intros (a & r & -> & Hr)%IH. exists (pre ++ ext ++ a), r. by rewrite <- !app_assoc.
Qed.

(** An extension that is listed is found, and what is found ends a name of the list;
    it need not be all of it. *)
Lemma support_finds (extensions ext : string) :
  let s := String.list_ascii_of_string extensions in
  let e := String.list_ascii_of_string ext in
  " "%char ∉ e -> e <> [] ->
  (named s e -> support extensions ext = true) /\
  (support extensions ext = true -> exists a rest, s = a ++ e ++ rest /\ ends rest = true).
Proof.
  cbv zeta. intros Hsp Hne. split; [|apply search_sound]. apply search_complete; [done|done|lia].
Qed.
End extensions.

Example support_ignores_start :
  GLExtensions.support "EGL_KHR_image XYZ_GL_OES_EGL_image" "GL_OES_EGL_image" = true.
Proof. by vm_compute. Qed.

(** ** Sharing of shaders *)

Section sharing.
Context {W D : Type} `{!Driver D} `{!HasDriver W D}.

(** A program that is returned is kept under its shaders, and those under their
    sources. *)
Lemma add_program_stores A B fam fam' p (w : W) :
  (add_program A B fam w).1 = (Some p, fam') ->
  exists v f, vshader fam' !! source_address A = Some v /\ fshader fam' !! source_address B = Some f /\
    program fam' !! (v, f) = Some p.
Proof.
  unfold add_program. rewrite bind_run. destruct (shader_init _ GL_VERTEX_SHADER _ _).1 as [v|]; [|done].
  rewrite bind_run. destruct (shader_init _ GL_FRAGMENT_SHADER _ _).1 as [f|]; [|done].
  cbn [default vshader fshader program from_option Datatypes.id]. destruct (negb _).
  - intros [= <- <-]. exists v, f. cbn. by rewrite !lookup_insert_eq.
  - rewrite !bind_run. destruct (_ =? 0); [by rewrite bind_run|].
    intros [= <- <-]. exists v, f. cbn. by rewrite !lookup_insert_eq.
Qed.

(** Asking for it again gives the same program and does nothing. *)
Lemma add_program_again A B fam v f p (w : W) :
  vshader fam !! source_address A = Some v -> fshader fam !! source_address B = Some f ->
  program fam !! (v, f) = Some p -> v <> 0 -> f <> 0 -> p <> 0 ->
  add_program A B fam w = ((Some p, fam), w).
Proof.
  intros Hv Hf Hp Hv0 Hf0 Hp0. destruct fam as [mv mf mp]. cbn [vshader fshader program] in *.
  unfold add_program, shader_init. cbn [vshader fshader program]. rewrite Hv. cbn [from_option Datatypes.id].
  rewrite (proj2 (Z.eqb_neq v 0)) by done. cbn [negb]. rewrite bind_run. cbn [mret M_ret fst snd from_option Datatypes.id].
  rewrite Hf. cbn [from_option Datatypes.id]. rewrite (proj2 (Z.eqb_neq f 0)) by done. cbn [negb].
  rewrite bind_run. cbn [mret M_ret fst snd from_option Datatypes.id].
  rewrite Hp. cbn [from_option Datatypes.id]. rewrite (proj2 (Z.eqb_neq p 0)) by done. cbn [negb].
  by rewrite !insert_id.
Qed.
End sharing.

(** ** What a start leaves *)

Section ready.
Context {D : Type} `{!Driver D} `{!DriverLaws D}.
Variable garbage : Z.
Implicit Types s : Starting D.

Definition st_world (s : Starting D) : World D := f_world (st_frames s).
Definition st_display (s : Starting D) : Display := w_display (st_world s).

(** What the start does not touch. *)
Definition untouched (s s' : Starting D) : Prop :=
  cur s' = cur s /\ w_saved (st_world s') = w_saved (st_world s) /\
  w_tables (st_world s') = w_tables (st_world s) /\ w_heap (st_world s') = w_heap (st_world s) /\
  m_nativeWindows (st_frames s') = m_nativeWindows (st_frames s) /\
  platform_windows (st_frames s') = platform_windows (st_frames s).

#[export] Instance untouched_preorder : PreOrder untouched.
Proof. split; [by intros s|]. intros s1 s2 s3. unfold untouched. intuition congruence. Qed.

#[export] Instance untouched_gl : GLInvariant untouched.
Proof.
  split; [apply _|..].
  - intros api c s. split; [unfold cur; rewrite gles_drv; apply gl_current|].
    unfold gles. by destruct (gl _ _ _).
  - intros t b s. unfold untouched, egl_create_image. cbv zeta.
    pose proof (create_image_current (eglGetCurrentContext (get_drv s)) t b (get_drv s)) as H.
    by destruct (eglCreateImageKHR _ _ _ _).
  - intros i s. split; [apply destroy_image_current|done].
Qed.

Lemma untouched_modify (g : Starting D -> Starting D) :
  (forall s, untouched s (g s)) -> respects untouched (modify g).
Proof. intros H s. apply H. Qed.

Lemma untouched_driver {A} (m : M D A) :
  (forall d, current (m d).2 = current d) -> respects untouched (driver_step m).
Proof. intros H s. unfold driver_step. specialize (H (get_drv s)). by destruct (m (get_drv s)). Qed.

#[local] Hint Extern 1 (respects untouched (modify _)) =>
  apply untouched_modify; intros; by split_and! : respects.
#[local] Hint Extern 1 (respects untouched (upd_display _)) =>
  apply untouched_modify; intros; by split_and! : respects.
#[local] Hint Extern 1 (respects untouched (upd_frames _)) =>
  apply untouched_modify; intros; by split_and! : respects.
#[local] Hint Extern 1 (respects untouched (driver_step eglInitialize)) =>
  apply untouched_driver, initialize_current : respects.
#[local] Hint Extern 1 (respects untouched (driver_step (modify _))) =>
  apply untouched_driver, bind_api_current : respects.
#[local] Hint Extern 1 (respects untouched (driver_step (eglCreateContext _ _ _))) =>
  apply untouched_driver, create_context_current : respects.
#[local] Hint Extern 1 (respects untouched (driver_step (eglCreatePbufferSurface _ _ _))) =>
  apply untouched_driver, create_surface_current : respects.

Lemma untouched_texture_draw : respects untouched (TextureDraw_new (W := Starting D) garbage).
Proof. unfold TextureDraw_new, createShader. respects_tac. Qed.
#[local] Hint Resolve untouched_texture_draw : respects.

Lemma untouched_program src : respects untouched (start_program (D := D) src).
Proof. unfold start_program, add_program, shader_init, Program_new. respects_tac. Qed.
#[local] Hint Resolve untouched_program : respects.

Lemma untouched_bound exts : respects untouched (initialize_bound garbage exts).
Proof. unfold initialize_bound. respects_tac. Qed.

(** The members that are set before the programs. *)
Definition core (d : Display) : list RendererConfig * bool * Z * Z * Z :=
  (m_configs d, has_eglimage_texture_2d d, m_eglContext d, m_pbufContext d, m_pbufSurface d).

Definition same_core s s' : Prop := core (st_display s') = core (st_display s).

#[export] Instance same_core_preorder : PreOrder same_core.
Proof. split; [by intros s|]. intros s1 s2 s3. unfold same_core. congruence. Qed.

#[export] Instance same_core_gl : GLInvariant same_core.
Proof.
  split; [apply _|..].
  - intros api c s. unfold gles. by destruct (gl _ _ _).
  - intros t b s. unfold egl_create_image. cbv zeta. by destruct (eglCreateImageKHR _ _ _ _).
  - done.
Qed.

#[local] Hint Extern 1 (respects same_core (modify _)) => intros ?; done : respects.
#[local] Hint Extern 1 (respects same_core (upd_display _)) => intros ?; done : respects.
#[local] Hint Extern 1 (respects same_core (upd_frames _)) => intros ?; done : respects.

Lemma core_texture_draw : respects same_core (TextureDraw_new (W := Starting D) garbage).
Proof. unfold TextureDraw_new, createShader. respects_tac. Qed.
#[local] Hint Resolve core_texture_draw : respects.

Lemma core_program src : respects same_core (start_program (D := D) src).
Proof. unfold start_program, add_program, shader_init, Program_new. respects_tac. Qed.
#[local] Hint Resolve core_program : respects.

(** The part after the configurations. *)
Definition programs : M (Starting D) Init :=
  td ← TextureDraw_new garbage;
  upd_display (set_textureDraw td) ;;
  default_program ← start_program defaultFShader;
  match default_program with
  | None => mret Thrown
  | Some _ =>
      upd_frames (set_programs default_program None) ;;
      alpha_program ← start_program alphaFShader;
      match alpha_program with
      | None => mret Thrown
      | Some _ => upd_frames (set_programs None alpha_program) ;; mret Initialized
      end
  end.

Lemma core_programs : respects same_core programs.
Proof. unfold programs. respects_tac. Qed.

(** What the rest of the renderer needs of the display. *)
Definition display_ready (d : Display) : Prop :=
  has_eglimage_texture_2d d = true /\
  (exists drv : D, m_configs d = RendererConfigList_new garbage drv) /\
  existsb (renders EGL_OPENGL_ES_BIT) (m_configs d) = true /\
  existsb (renders EGL_OPENGL_ES2_BIT) (m_configs d) = true.

Lemma initialize_bound_ready exts s :
  let r := initialize_bound garbage exts s in
  r.1 = Initialized ->
  display_ready (st_display r.2) /\
  m_eglContext (st_display r.2) = m_eglContext (st_display s) /\
  m_pbufContext (st_display r.2) = m_pbufContext (st_display s) /\
  m_pbufSurface (st_display r.2) = m_pbufSurface (st_display s).
Proof.
  cbv zeta. unfold initialize_bound. rewrite bind_run. cbn [gets fst snd].
  destruct (glGetString _ _ _) as [e|]; [|done]. rewrite bind_run. cbn [upd_display upd_frames modify fst snd].
  destruct (_ && _) eqn:Hhas; cbn [negb]; [|done]. rewrite bind_run. cbn [gets fst snd].
  set (s1 := mkStarting _ _). set (configs := RendererConfigList_new garbage (get_drv s1)).
  rewrite bind_run. cbn [upd_display upd_frames modify fst snd]. set (s2 := mkStarting _ _).
  destruct (bool_decide (configs = [])); [done|].
  destruct (existsb (renders EGL_OPENGL_ES_BIT) configs) eqn:H1; cbn [negb]; [|done].
  destruct (existsb (renders EGL_OPENGL_ES2_BIT) configs) eqn:H2; cbn [negb]; [|done].
  intros _. pose proof (core_programs s2) as Hc. unfold same_core in Hc. unfold programs in Hc.
  set (r := _ s2) in *. injection Hc as Hc1 Hc2 Hc3 Hc4 Hc5.
  unfold display_ready. rewrite Hc1, Hc2, Hc3, Hc4, Hc5. by split_and!; [|exists (get_drv s1)|..].
Qed.

Lemma untouched_contexts native : respects untouched (initialize_contexts (D := D) native).
Proof. unfold initialize_contexts. respects_tac. Qed.

Lemma driver_step_display {A} (m : M D A) s : st_display (driver_step m s).2 = st_display s.
Proof. unfold driver_step. by destruct (m (get_drv s)). Qed.

Lemma upd_display_display g s : st_display (upd_display (D := D) g s).2 = g (st_display s).
Proof. done. Qed.

Lemma contexts_exist native s :
  let r := initialize_contexts (D := D) native s in
  is_Some r.1 -> m_eglContext (st_display r.2) <> EGL_NO_CONTEXT /\ m_pbufContext (st_display r.2) <> EGL_NO_CONTEXT.
Proof.
  cbv zeta. unfold initialize_contexts. rewrite bind_run. cbn [gets fst snd].
  destruct (_ =? _); [by intros []|]. rewrite bind_run. destruct (driver_step _ _).1 as [[maj min]|]; [|by intros []].
  rewrite !bind_run. cbn [gets fst snd]. destruct (eglChooseConfig _ _ _) as [[|c cs]|]; [by intros []| |by intros []].
  rewrite !bind_run. set (ctx := (driver_step (eglCreateContext c EGL_NO_CONTEXT 2) _).1).
  destruct (Z.eqb_spec ctx EGL_NO_CONTEXT) as [|Hc]; [by intros []|].
  rewrite !bind_run. set (pctx := (driver_step (eglCreateContext c ctx 2) _).1).
  destruct (Z.eqb_spec pctx EGL_NO_CONTEXT) as [|Hp]; [by intros []|].
  rewrite !bind_run. destruct (_ && _); [by intros []|]. intros _. cbn [mret M_ret snd].
  rewrite upd_display_display. destruct (negb _); cbn [mret M_ret snd]; rewrite ?driver_step_display, !upd_display_display,
    !driver_step_display, !upd_display_display; by split.
Qed.

Lemma world_step_run {A} (m : M (World D) A) s :
  world_step m s = ((m (st_world s)).1, mkStarting (with_world (m (st_world s)).2 (st_frames s)) (m_family s)).
Proof. unfold world_step. by rewrite in_world_run. Qed.

Lemma unbind_locked_world `{!Reliable D} (w : World D) :
  let w' := (unbind_locked w).2 in
  cur w' = saved_binding w /\ w_tables w' = w_tables w /\ w_heap w' = w_heap w /\ w_display w' = w_display w.
Proof.
  cbv zeta. unfold unbind_locked. rewrite 2!bind_run. cbn [gets fst snd].
  destruct (make_current_cur (m_prevDrawSurf (w_saved w)) (m_prevReadSurf (w_saved w))
    (m_prevContext (w_saved w)) w) as (Hc & -> & _).
  rewrite bind_run. cbn [modify fst snd mret M_ret]. unfold egl_make_current in *.
  by destruct (eglMakeCurrent _ _ _ _).
Qed.

End ready.

(** A host with one configuration for both versions. *)
Definition example_host : Toy :=
  mkToy (40, 41, 42) 1 false
    [(10, [(EGL_SURFACE_TYPE, EGL_PBUFFER_BIT); (EGL_RED_SIZE, 8); (EGL_GREEN_SIZE, 8); (EGL_BLUE_SIZE, 8);
           (EGL_RENDERABLE_TYPE, 5)])] [].

