(* ===== verification/WaylandInput.v ===== *)
(** * Input and messages of the Wayland platform

    [AnboxInput] (src/src/fydeos/anbox_input.h) has the guest's three input devices and
    the slots of the fingers; its functions for fingers are those of the SDL platform
    (Touch.v) word for word.  [WaylandTouch], [WaylandPointer] and [WaylandKeyboard]
    (wayland_touch.{h,cc}, wayland_pointer.{h,cc}, wayland_keyboard.{h,cc}) are told by
    the compositor what happens and send events to the devices; [WaylandPlatform]
    (wayland_platform.{h,cc}) makes them and listens to the shell.

    The compositor's messages and the guest's connections are the inputs, in any order;
    the messages are handled by one thread.  Results are [None] where the process ends:
    a null pointer, a value that was never written, an exception, which no one catches
    on that thread, or [int3].

    The theorem follows a finger from the compositor to the bytes the guest reads. *)

From Stdlib Require Import SpecFloat.
From S2P Require Import Prelude Utils Network Floating Rect RenderControl WindowManager Input Touch.

(** ** The devices *)

Record Devices := mkDevices {
  pointer_ : Z;
  keyboard_ : Z;
  touch_ : Z;
  slots : list Z
}.

(** [devices]: before [init] the pointers are null and the slots were not written. *)
Record AnboxInput := mkAnboxInput {
  display_frame_ : Rect;
  input_manager_ : InputManager;
  devices : option Devices;
  input_last_slot : Z
}.

Definition input_new (m : InputManager) : AnboxInput := mkAnboxInput Empty m None (-1).

(** The setters that are called on a new device. *)
Definition configure (n : Z) (ss : list Setting) (m : InputManager) : option InputManager :=
  '(path, d) ← devices_ m !! n;
  i ← apply_settings ss (info_ d);
  Some (mkInputManager
    (<[n := (path, mkDevice i (next_connection_id_ d) (connections_ d))]> (devices_ m))
    (next_device_id m)).

(** A device and its settings, which are those of the SDL platform. *)
Definition add_device (dir : string) (ss : list Setting) (m : InputManager) :
    option (Z * InputManager) :=
  let '(n, m) := create_device dir m in
  m ← configure n ss m; Some (n, m).

(** [last_slot] stays as it is. *)
Definition init (dir : string) (display_frame : Rect) (a : AnboxInput) :
    option (AnboxInput * DisplayInfo) :=
  let info := set_resolution (u32 (width display_frame)) (u32 (height display_frame)) in
  '(p, m) ← add_device dir pointer_settings (input_manager_ a);
  '(k, m) ← add_device dir keyboard_settings m;
  '(t, m) ← add_device dir (touch_settings (width display_frame) (height display_frame)) m;
  Some (mkAnboxInput display_frame m
    (Some (mkDevices p k t (replicate (Z.to_nat MAX_FINGERS) (-1)))) (input_last_slot a), info).

(** [clock]: the monotonic clock when the events are sent. *)
Definition send_to (clock : Z * Z) (n : Z) (events : list Event) (a : AnboxInput) : option AnboxInput :=
  '(path, d) ← devices_ (input_manager_ a) !! n;
  let '(d, threw) := send_events clock.1 clock.2 events d in
  if threw : bool then None
  else Some (mkAnboxInput (display_frame_ a)
    (mkInputManager (<[n := (path, d)]> (devices_ (input_manager_ a))) (next_device_id (input_manager_ a)))
    (devices a) (input_last_slot a)).

Definition with_touch (t : Touch) (d : Devices) (a : AnboxInput) : AnboxInput :=
  mkAnboxInput (display_frame_ a) (input_manager_ a)
    (Some (mkDevices (pointer_ d) (keyboard_ d) (touch_ d) (touch_slots t))) (last_slot t).

(** One of the [push_finger_] functions, and its events sent if there are any. *)
Definition push_and_send (clock : Z * Z) (push : Touch -> Touch * list Event) (a : AnboxInput) :
    option AnboxInput :=
  d ← devices a;
  let '(t, events) := push (mkTouch (slots d) (input_last_slot a)) in
  let a := with_touch t d a in
  match events with
  | [] => Some a
  | _ => send_to clock (touch_ d) events a
  end.

(** ** Touch screens *)

(** A [wl_fixed_t] counts 1/256; [wl_fixed_to_double] is exact. *)
Definition wl_fixed_to_double (x : Z) : spec_float := binary_normalize 53 1024 x (-8) false.

(** [current_left_] and [current_top_], written by the first [Down]. *)
Definition WaylandTouch : Type := option (Z * Z).

Inductive TouchEvent :=
  | TouchDown (window : option Rect) (id x y : Z)
  | TouchUp (id : Z)
  | TouchMotion (id x y : Z)
  | TouchFrame
  | TouchCancel.

(** [origin + wl_fixed_to_double(x)] as an [int]. *)
Definition shifted (origin x : Z) : Z := to_int (f64_add (f64 origin) (wl_fixed_to_double x)).

(** The window of [Down] is the surface's user data. *)
Definition touch_event (clock : Z * Z) (e : TouchEvent) (touch : WaylandTouch) (a : AnboxInput) :
    option (WaylandTouch * AnboxInput) :=
  match e with
  | TouchDown window id x y =>
      r ← window;
      let xx := shifted (left r) x in
      let yy := shifted (top r) y in
      a ← push_and_send clock (push_finger_down xx yy id) a;
      Some (Some (left r, top r), a)
  | TouchUp id => a ← push_and_send clock (push_finger_up id) a; Some (touch, a)
  | TouchMotion id x y =>
      '(current_left, current_top) ← touch;
      let xx := shifted current_left x in
      let yy := shifted current_top y in
      a ← push_and_send clock (push_finger_motion xx yy id) a;
      Some (touch, a)
  | TouchFrame | TouchCancel => Some (touch, a)
  end.

(** ** Pointers *)

(** [gfx::PointF] of Chromium: two floats. *)
Class PointF (P : Type) := {
  point_zero : P;
  SetPoint : spec_float -> spec_float -> P -> P;
  point_x : P -> spec_float;
  point_y : P -> spec_float;
  point_zero_x : point_x point_zero = f32 0;
  point_zero_y : point_y point_zero = f32 0;
  SetPoint_x x y p : point_x (SetPoint x y p) = x;
  SetPoint_y x y p : point_y (SetPoint x y p) = y
}.

(** linux/input-event-codes.h and wayland-client-protocol.h. *)
Definition BTN_RIGHT : Z := 0x111.
Definition BTN_MIDDLE : Z := 0x112.
Definition BTN_SIDE : Z := 0x113.
Definition BTN_EXTRA : Z := 0x114.
Definition BTN_FORWARD : Z := 0x115.
Definition BTN_BACK : Z := 0x116.
Definition WL_POINTER_BUTTON_STATE_PRESSED : Z := 1.
Definition WL_KEYBOARD_KEY_STATE_RELEASED : Z := 0.
Definition WL_KEYBOARD_KEY_STATE_PRESSED : Z := 1.
Definition WL_SEAT_CAPABILITY_POINTER : Z := 1.
Definition WL_SEAT_CAPABILITY_KEYBOARD : Z := 2.
Definition WL_SEAT_CAPABILITY_TOUCH : Z := 4.

Inductive PointerEvent :=
  | PointerEnter (x y : Z)
  | PointerLeave
  | PointerMotion (x y : Z)
  | PointerButton (button state : Z)
  | PointerAxis.

Inductive KeyboardEvent :=
  | KeyboardKey (key state : Z)
  | KeyboardOther.

(** The surface that gained the focus: null, one without a window, that of a window. *)
Inductive SurfaceArg := NoSurface | NoWindow | WindowOf (task : Z).

Inductive ShellEvent :=
  | Activated (gained : SurfaceArg)
  | ConfigurationChanged
  | Workspace
  | Configure
  | DefaultDeviceScaleFactor (scale : Z)
  | DisplayInfo_ (width height : Z)
  | WorkspaceInfo (x y width height : Z).

Section platform.
Context {P : Type} `{!PointF P}.
(** SystemConfiguration's input_device_dir. *)
Variable dir : string.

Record WaylandPointer := mkPointer { location_ : P; current_window_location_ : P }.

Definition pointer_new : WaylandPointer := mkPointer point_zero point_zero.

Definition pointer_event (clock : Z * Z) (e : PointerEvent) (pointer : WaylandPointer) (a : AnboxInput) :
    option (WaylandPointer * AnboxInput) :=
  match e with
  | PointerEnter x y =>
      Some (mkPointer
        (SetPoint (to_f32 (wl_fixed_to_double x)) (to_f32 (wl_fixed_to_double y)) (location_ pointer))
        (current_window_location_ pointer), a)
  | PointerLeave | PointerAxis => Some (pointer, a)
  | PointerMotion x y =>
      let xx := to_int (f64_add (point_x (current_window_location_ pointer)) (wl_fixed_to_double x)) in
      let yy := to_int (f64_add (point_y (current_window_location_ pointer)) (wl_fixed_to_double y)) in
      a ← push_and_send clock (push_finger_motion xx yy 0) a;
      Some (pointer, a)
  | PointerButton button state =>
      if bool_decide (button ∈ [BTN_LEFT; BTN_MIDDLE; BTN_RIGHT; BTN_BACK; BTN_SIDE; BTN_FORWARD; BTN_EXTRA]) then
        if button =? BTN_LEFT then
          a ← push_and_send clock
            (if state =? WL_POINTER_BUTTON_STATE_PRESSED
             then push_finger_down (to_int (point_x (location_ pointer))) (to_int (point_y (location_ pointer))) 0
             else push_finger_up 0) a;
          Some (pointer, a)
        else Some (pointer, a)
      else Some (pointer, a)
  end.

(** ** Keyboards *)

(** The vector is sent, empty or not; [key] is cut to the 16 bits of a code. *)
Definition keyboard_event (clock : Z * Z) (e : KeyboardEvent) (a : AnboxInput) : option AnboxInput :=
  match e with
  | KeyboardOther => Some a
  | KeyboardKey key state =>
      let events :=
        (if state =? WL_KEYBOARD_KEY_STATE_PRESSED then [mkEvent EV_KEY (u16 key) 1] else []) ++
        (if state =? WL_KEYBOARD_KEY_STATE_RELEASED then [mkEvent EV_KEY (u16 key) 0] else []) in
      d ← devices a; send_to clock (keyboard_ d) events a
  end.

(** ** The platform *)

(** [touches], [pointers], [keyboards]: the listeners that were made; [globals_]: id and
    version of what was bound, by interface. *)
Record WaylandPlatform := mkPlatform {
  anbox_input : AnboxInput;
  resolution : DisplayInfo;
  window_rect_ : Rect;
  device_scale : option Z;
  globals_ : gmap string (Z * Z);
  touches : list WaylandTouch;
  pointers : list WaylandPointer;
  keyboards : nat
}.

Definition platform_new (m : InputManager) : WaylandPlatform :=
  mkPlatform (input_new m) (mkDisplayInfo 1280 720) Empty None ∅ [] [] 0.

Definition set_input (a : AnboxInput) (p : WaylandPlatform) : WaylandPlatform :=
  mkPlatform a (resolution p) (window_rect_ p) (device_scale p) (globals_ p) (touches p) (pointers p) (keyboards p).

(** The version that is bound, for the interfaces the platform knows. *)
Definition bound_version (interface : string) (version : Z) : option Z :=
  snd <$> List.find (fun g => String.eqb interface (fst g))
    [ ("wl_compositor", 3); ("wl_shm", 1); ("wl_shell", 1); ("wl_seat", Z.min version 4);
      ("wp_presentation", 1); ("zaura_shell", 5); ("zwp_linux_dmabuf_v1", 2);
      ("wl_subcompositor", 1); ("zwp_input_timestamps_manager_v1", 1);
      ("zwp_fullscreen_shell_v1", 1); ("wl_output", 1);
      ("zwp_linux_explicit_synchronization_v1", 1); ("wp_viewporter", 1);
      ("zcr_remote_shell_v1", 20); ("zxdg_shell_v6", 1) ]%string.

(** A global is announced: an earlier one of the same interface is replaced. *)
Definition registry_global (id : Z) (interface : string) (version : Z) (p : WaylandPlatform) : WaylandPlatform :=
  match bound_version interface version with
  | None => p
  | Some v =>
      mkPlatform (anbox_input p) (resolution p) (window_rect_ p) (device_scale p)
        (<[interface := (id, v)]> (globals_ p)) (touches p) (pointers p) (keyboards p)
  end.

Definition has_capability (bit capabilities : Z) : bool := negb (Z.land capabilities bit =? 0).

(** The listeners of an earlier message stay. *)
Definition seat_capabilities (capabilities : Z) (p : WaylandPlatform) : WaylandPlatform :=
  mkPlatform (anbox_input p) (resolution p) (window_rect_ p) (device_scale p) (globals_ p)
    (touches p ++ if has_capability WL_SEAT_CAPABILITY_TOUCH capabilities then [None] else [])
    (pointers p ++ if has_capability WL_SEAT_CAPABILITY_POINTER capabilities then [pointer_new] else [])
    (keyboards p + if has_capability WL_SEAT_CAPABILITY_KEYBOARD capabilities then 1 else 0)%nat.

(** The second part: what the window manager is asked. *)
Definition shell_event (e : ShellEvent) (p : WaylandPlatform) :
    option (WaylandPlatform * list WindowManager.Event) :=
  match e with
  | Activated NoSurface | Configure => Some (p, [])
  | Activated NoWindow | ConfigurationChanged | Workspace => None
  | Activated (WindowOf task) => Some (p, set_focused_task task)
  | DefaultDeviceScaleFactor scale =>
      Some (mkPlatform (anbox_input p) (resolution p) (window_rect_ p) (Some (Z.shiftr scale 24))
        (globals_ p) (touches p) (pointers p) (keyboards p), [])
  | DisplayInfo_ width height =>
      Some (mkPlatform (anbox_input p) (resolution p) (mkRect 0 0 width height) (device_scale p)
        (globals_ p) (touches p) (pointers p) (keyboards p), [])
  | WorkspaceInfo x y width height =>
      '(a, info) ← init dir (mkRect 0 0 width height) (anbox_input p);
      Some (mkPlatform a info (mkRect x y width height) (device_scale p)
        (globals_ p) (touches p) (pointers p) (keyboards p), [])
  end.

(** ** Messages and connections *)

(** [OnTouch k]: for the [k]th listener that was made, and so on; [GuestConnects n]: to
    the socket of device [n]. *)
Inductive Happening :=
  | Global (id : Z) (interface : string) (version : Z)
  | Capabilities (capabilities : Z)
  | Shell (e : ShellEvent)
  | OnTouch (k : nat) (e : TouchEvent)
  | OnPointer (k : nat) (e : PointerEvent)
  | OnKeyboard (k : nat) (e : KeyboardEvent)
  | GuestConnects (n : Z).

Definition guest_connects (n : Z) (a : AnboxInput) : option AnboxInput :=
  '(path, d) ← devices_ (input_manager_ a) !! n;
  Some (mkAnboxInput (display_frame_ a)
    (mkInputManager (<[n := (path, new_client d)]> (devices_ (input_manager_ a)))
      (next_device_id (input_manager_ a)))
    (devices a) (input_last_slot a)).

Definition step (clock : Z * Z) (h : Happening) (p : WaylandPlatform) :
    option (WaylandPlatform * list WindowManager.Event) :=
  match h with
  | Global id interface version => Some (registry_global id interface version p, [])
  | Capabilities capabilities => Some (seat_capabilities capabilities p, [])
  | Shell e => shell_event e p
  | OnTouch k e =>
      touch ← touches p !! k;
      '(touch, a) ← touch_event clock e touch (anbox_input p);
      Some (mkPlatform a (resolution p) (window_rect_ p) (device_scale p) (globals_ p)
        (<[k := touch]> (touches p)) (pointers p) (keyboards p), [])
  | OnPointer k e =>
      pointer ← pointers p !! k;
      '(pointer, a) ← pointer_event clock e pointer (anbox_input p);
      Some (mkPlatform a (resolution p) (window_rect_ p) (device_scale p) (globals_ p)
        (touches p) (<[k := pointer]> (pointers p)) (keyboards p), [])
  | OnKeyboard k e =>
      if (k <? keyboards p)%nat then
        a ← keyboard_event clock e (anbox_input p); Some (set_input a p, [])
      else None
  | GuestConnects n => a ← guest_connects n (anbox_input p); Some (set_input a p, [])
  end.

Fixpoint run (hs : list ((Z * Z) * Happening)) (p : WaylandPlatform) :
    option (WaylandPlatform * list WindowManager.Event) :=
  match hs with
  | [] => Some (p, [])
  | (clock, h) :: hs =>
      '(p, calls) ← step clock h p;
      '(p, calls') ← run hs p;
      Some (p, calls ++ calls')
  end.
End platform.
Arguments WaylandPointer : clear implicits.
Arguments WaylandPlatform : clear implicits.

(** ** What the guest reads *)

(** Event [l] of a device, 24 bytes; the times are not looked at. *)
Definition read_event (l : list Z) : Event :=
  mkEvent (le_value (ztake 2 (zdrop 16 l))) (le_value (ztake 2 (zdrop 18 l)))
    (i32 (le_value (ztake 4 (zdrop 20 l)))).

Fixpoint read_events (fuel : nat) (l : list Z) : list Event :=
  match fuel with
  | O => []
  | S fuel => if zlen l <? 24 then [] else read_event (ztake 24 l) :: read_events fuel (zdrop 24 l)
  end.

(** Behind the description. *)
Definition guest_reads (received : list Z) : list Event :=
  read_events (length received) (zdrop 896 received).

Definition event_typed (e : Event) : Prop :=
  in_u 16 (type e) /\ in_u 16 (code e) /\ in_s 32 (value e).

Definition stamp (p : (Z * Z) * Event) : list Z := event_bytes p.1.1 p.1.2 p.2.

Lemma zlen_event_bytes sec usec e : zlen (event_bytes sec usec e) = 24.
Proof. unfold event_bytes. by rewrite !zlen_app, !zlen_little_endian. Qed.

Lemma read_event_bytes sec usec e : event_typed e -> read_event (event_bytes sec usec e) = e.
Proof.
  intros (Ht & Hc & Hv). unfold read_event, event_bytes. set (a := little_endian 8 _).
  set (b := little_endian 8 _). set (t := little_endian 2 (type e)). set (c := little_endian 2 (code e)).
  rewrite (app_assoc a b), (zdrop_app_eq 16 (a ++ b)) by done.
  rewrite (ztake_app_eq 2 t) by done.
  rewrite (app_assoc (a ++ b) t), (zdrop_app_eq 18 ((a ++ b) ++ t)) by done.
  rewrite (ztake_app_eq 2 c) by done.
  rewrite (app_assoc ((a ++ b) ++ t) c), (zdrop_app_eq 20 (((a ++ b) ++ t) ++ c)) by done.
  rewrite <- (app_nil_r (little_endian 4 _)), (ztake_app_eq 4 (little_endian 4 _)) by done.
  unfold t, c. rewrite !le_value_little_endian; [|apply wrapu_range; lia|done|done].
  rewrite i32_u32 by done. by destruct e.
Qed.

Lemma read_events_stamped log : forall fuel, Forall (fun p => event_typed p.2) log ->
  (length log <= fuel)%nat -> read_events fuel (concat (stamp <$> log)) = snd <$> log.
Proof.
  induction log as [|[[sec usec] e] log IH]; intros fuel Hlog Hf; [by destruct fuel|].
  inversion Hlog as [|? ? He Hlog']; subst. destruct fuel as [|fuel]; [cbn in Hf; lia|].
  rewrite !fmap_cons. cbn [concat read_events].
  change (stamp (sec, usec, e)) with (event_bytes sec usec e).
  rewrite (ztake_app_eq 24), (zdrop_app_eq 24), zlen_app by (symmetry; apply zlen_event_bytes).
  rewrite zlen_event_bytes. pose proof (zlen_nonneg (concat (stamp <$> log))).
  rewrite (proj2 (Z.ltb_ge _ _)) by lia. rewrite read_event_bytes by done.
  cbn [snd]. f_equal. apply IH; [done|]. cbn in Hf. lia.
Qed.

(** What a client has is read back as the events that were sent. *)
Lemma guest_reads_stamped i log : info_typed i -> Forall (fun p => event_typed p.2) log ->
  guest_reads (info_bytes i ++ concat (stamp <$> log)) = snd <$> log.
Proof.
  intros Hi Hlog. unfold guest_reads. rewrite zdrop_app_eq by (symmetry; apply (info_bytes_typed i Hi)).
  apply read_events_stamped; [done|]. rewrite length_app.
  assert (length log <= length (concat (stamp <$> log)))%nat; [|lia].
  clear Hlog. induction log as [|[[sec usec] e] log IH]; [done|]. rewrite fmap_cons. cbn [concat length].
  rewrite length_app. change (stamp (sec, usec, e)) with (event_bytes sec usec e).
  pose proof (zlen_event_bytes sec usec e) as H. unfold zlen in H. lia.
Qed.

Lemma event_data_stamped clock events :
  event_data (Events clock.1 clock.2 events) =
    concat (stamp <$> ((fun e => ((clock.1, clock.2 / 1000), e)) <$> events)).
Proof. cbn [event_data]. by rewrite <- list_fmap_compose. Qed.

(** ** The slots and the guest *)

(** After [init] all slots are free and the new device has no events yet, while
    [last_slot] may be any. *)
Definition tracks (m : gmap Z (Z * Z)) (t : Touch) (g : Guest) : Prop :=
  agrees m t g \/
  (m = ∅ /\ touch_slots t = replicate (Z.to_nat MAX_FINGERS) (-1) /\ g = guest_new).

Lemma free_slot i f : zlookup (replicate (Z.to_nat MAX_FINGERS) (-1)) i = Some f -> f = -1.
Proof. unfold zlookup. case_decide; [|done]. intros [-> _]%lookup_replicate. done. Qed.

(** As [touch_new_agrees], for a guest that has selected the slot. *)
Lemma free_agrees k : agrees ∅ (mkTouch (replicate (Z.to_nat MAX_FINGERS) (-1)) k) (mkGuest k ∅).
Proof.
  split; cbn [touch_slots last_slot selected].
  - done.
  - by right.
  - intros i j f Hf Hi. by apply free_slot in Hi.
  - intros i. unfold contact, guest_slot. cbn. rewrite lookup_empty. cbn.
    destruct (zlookup _ i); by rewrite ?lookup_empty.
  - intros f. rewrite lookup_empty. by intros [].
  - intros i f Hi Hf. by apply free_slot in Hi.
Qed.

Lemma free_not_found f k : 0 <= f -> find_touch_slot f (mkTouch (replicate (Z.to_nat MAX_FINGERS) (-1)) k) = -1.
Proof.
  intros Hf. destruct (find_touch_slot_spec f (mkTouch (replicate (Z.to_nat MAX_FINGERS) (-1)) k))
    as [[-> _]|[_ H]]; [done|]. apply free_slot in H. lia.
Qed.

(** The first finger selects slot 0, which a new device has selected already. *)
Lemma step_free o k : op_legal o ∅ ->
  let '(t', es) := finger_op o (mkTouch (replicate (Z.to_nat MAX_FINGERS) (-1)) k) in
  (es = [] /\ t' = mkTouch (replicate (Z.to_nat MAX_FINGERS) (-1)) k /\ fingers_step o ∅ = ∅) \/
  guest_run es guest_new = guest_run es (mkGuest k ∅).
Proof.
  destruct o as [f x y|f|f x y]; cbn [finger_op op_legal]; intros Hl.
  - unfold push_finger_down, push_slot. change (find_touch_slot (-1) _) with 0. cbn [Z.eqb last_slot set_slot].
    destruct (Z.eqb_spec k 0) as [->|Hk]; cbn [app]; by right.
  - unfold push_finger_up. rewrite free_not_found by done. cbn. left. by rewrite delete_empty.
  - unfold push_finger_motion. rewrite free_not_found by done. cbn. left. by rewrite lookup_empty.
Qed.

Lemma step_tracks m t g o : tracks m t g -> op_legal o m ->
  let '(t', es) := finger_op o t in tracks (fingers_step o m) t' (guest_run es g).
Proof.
  intros [Ha|(-> & Ht & ->)] Hl.
  - pose proof (step_agrees m t g o Ha Hl) as H. destruct (finger_op o t). by left.
  - destruct t as [l k]. cbn in Ht. subst l.
    pose proof (step_free o k Hl) as Hf. pose proof (step_agrees _ _ _ o (free_agrees k) Hl) as Ha.
    destruct (finger_op o _) as [t' es]. destruct Hf as [(-> & -> & E)|E]; [right; by rewrite E|left; by rewrite E].
Qed.

Lemma tracks_len m t g : tracks m t g -> zlen (touch_slots t) = MAX_FINGERS.
Proof. intros [Ha|(_ & -> & _)]; [apply Ha|done]. Qed.

Definition op_typed (o : FingerOp) : Prop :=
  match o with Down f x y | Motion f x y => 0 <= f /\ in_s 32 x /\ in_s 32 y | Up f => 0 <= f end.

Lemma syn_typed : event_typed syn.
Proof. by split_and!. Qed.

Lemma abs_typed code v : in_u 16 code -> in_s 32 v -> event_typed (mkEvent EV_ABS code v).
Proof. intros Hc Hv. by split_and!. Qed.

Ltac typed_events :=
  repeat (apply Forall_cons; split); try apply List.Forall_nil; try apply syn_typed; apply abs_typed; try done.

Lemma push_slot_typed i t : 0 <= i < MAX_FINGERS -> Forall event_typed (push_slot i t).2.
Proof.
  intros Hi. unfold push_slot. destruct (last_slot t =? i); [constructor|]. cbn.
  apply Forall_singleton, abs_typed; [done|]. unfold in_s, MAX_FINGERS in *. cbn. lia.
Qed.

Lemma slot_range id t : zlen (touch_slots t) = MAX_FINGERS ->
  find_touch_slot id t = -1 \/ 0 <= find_touch_slot id t < MAX_FINGERS.
Proof.
  intros Hlen. destruct (find_touch_slot_spec id t) as [[-> _]|[_ H]]; [by left|right].
  apply zlookup_range in H. lia.
Qed.

Lemma finger_op_typed o t : zlen (touch_slots t) = MAX_FINGERS -> op_typed o ->
  Forall event_typed (finger_op o t).2.
Proof.
  intros Hlen Ho. assert (Hid : forall f, 0 <= f -> in_s 32 (Z.rem f MAX_TRACKING_ID + 1)).
  { intros f Hf. pose proof (Z.rem_bound_pos f MAX_TRACKING_ID). unfold MAX_TRACKING_ID in *.
    unfold in_s. cbn. lia. }
  assert (Hpush : forall i t' es, 0 <= i < MAX_FINGERS -> Forall event_typed es ->
    Forall event_typed ((push_slot i t').2 ++ es)).
  { intros i t' es Hi Hes. apply Forall_app. split; [by apply push_slot_typed|done]. }
  destruct o as [f x y|f|f x y]; cbn [finger_op op_typed] in *;
    unfold push_finger_down, push_finger_up, push_finger_motion.
  - destruct (slot_range (-1) t Hlen) as [->|Hr]; [constructor|].
    rewrite (proj2 (Z.eqb_neq _ _)) by lia. specialize (Hpush _ (set_slot (find_touch_slot (-1) t) f t)
      [mkEvent EV_ABS ABS_MT_TRACKING_ID (Z.rem f MAX_TRACKING_ID + 1);
        mkEvent EV_ABS ABS_MT_POSITION_X x; mkEvent EV_ABS ABS_MT_POSITION_Y y; syn] Hr).
    destruct (push_slot _ _) as [t' es]. apply Hpush.
    typed_events; try apply Ho. by apply Hid, Ho.
  - destruct (slot_range f t Hlen) as [->|Hr]; [constructor|].
    rewrite (proj2 (Z.eqb_neq _ _)) by lia.
    specialize (Hpush _ t [mkEvent EV_ABS ABS_MT_TRACKING_ID (-1); syn] Hr).
    destruct (push_slot _ _) as [t' es]. apply Hpush. typed_events.
  - destruct (slot_range f t Hlen) as [->|Hr]; [constructor|].
    rewrite (proj2 (Z.eqb_neq _ _)) by lia. specialize (Hpush _ t
      [mkEvent EV_ABS ABS_MT_POSITION_X x; mkEvent EV_ABS ABS_MT_POSITION_Y y; syn] Hr).
    destruct (push_slot _ _) as [t' es]. apply Hpush.
    typed_events; apply Ho.
Qed.

(** ** Positions *)

(** [x], in 1/256, from [origin] on, cut towards zero. *)
Definition position (origin x : Z) : Z := Z.quot (256 * origin + x) 256.

Definition fits (origin x : Z) : Prop := in_s 32 origin /\ in_s 32 x /\ in_s 32 (position origin x).

Lemma wl_fixed_denotes x : Z.abs x < 2 ^ 53 -> denotes 53 (wl_fixed_to_double x) x (-8).
Proof.
  intros Hx. pose proof (binary_normalize_exact 53 1024 ltac:(lia) x 0 (-8) false Hx) as H.
  rewrite Z.mul_1_r in H. apply H; done.
Qed.

(** The sum in floating point is exact. *)
Lemma shifted_position origin x : fits origin x -> shifted origin x = position origin x.
Proof.
  unfold fits, in_s. cbn. intros (Ho & Hx & Hp). unfold shifted, position in *.
  apply (to_int_denotes 53 _ _ (-8)); [|done|done].
  replace (256 * origin + x) with (origin * 2 ^ (0 - -8) + x) by (cbn; lia).
  apply (add_exact 53 1024); [done| | |done| |done|done].
  - apply f64_denotes. lia.
  - apply wl_fixed_denotes. lia.
  - cbn. lia.
Qed.

(** Added to the origin that no one sets. *)
Lemma unshifted_position x : in_s 32 x ->
  to_int (f64_add (f32 0) (wl_fixed_to_double x)) = position 0 x.
Proof.
  intros Hx. change (f32 0) with (f64 0). apply shifted_position. split; [done|]. split; [done|].
  unfold position, in_s in *. cbn in *. Z.to_euclidean_division_equations. lia.
Qed.

(** A position as a float: exact up to 65535. *)
Lemma float_position x : Z.abs x < 2 ^ 24 ->
  to_int (to_f32 (wl_fixed_to_double x)) = position 0 x.
Proof.
  intros Hx. unfold position. rewrite Z.mul_0_r, Z.add_0_l. apply (to_int_denotes 24 _ _ (-8)); [|done|].
  - apply to_f32_denotes; [|done|lia]. apply wl_fixed_denotes. lia.
  - cbn in *. Z.to_euclidean_division_equations. lia.
Qed.

(** ** What the devices are after some happenings

    After [i] calls of [init], with [g] connections of the guest so far, and with the
    fingers [m] on the touch device of the last one; [fresh]: nothing was pushed there. *)

Record touch_side (m : gmap Z (Z * Z)) (fresh : bool) (frame : Rect) (t : Touch) (dv : Device)
    (log : list ((Z * Z) * Event)) : Prop := {
  side_info : apply_settings (touch_settings (width frame) (height frame)) info_new = Some (info_ dv);
  side_typed : Forall (fun p => event_typed p.2) log;
  side_fresh : fresh = true -> log = [];
  side_received : forall k c, connections_ dv !! k = Some c ->
    received c = info_bytes (info_ dv) ++ concat (stamp <$> log);
  side_tracks : tracks m t (guest_run (snd <$> log) guest_new)
}.

Record input_is (i : Z) (m : gmap Z (Z * Z)) (fresh : bool) (g : Z) (a : AnboxInput) : Prop := {
  in_inits : 0 <= i <= 2 ^ 30;
  in_next : next_device_id (input_manager_ a) = 3 * i;
  in_device : forall n, 0 <= n < 3 * i -> exists path dv c,
    devices_ (input_manager_ a) !! n = Some (path, dv) /\ serving c dv /\ c <= g;
  in_free : forall n, 3 * i <= n -> devices_ (input_manager_ a) !! n = None;
  in_ready : 0 < i -> exists dev path dv log, devices a = Some dev /\
    pointer_ dev = 3 * i - 3 /\ keyboard_ dev = 3 * i - 2 /\ touch_ dev = 3 * i - 1 /\
    devices_ (input_manager_ a) !! touch_ dev = Some (path, dv) /\
    touch_side m fresh (display_frame_ a) (mkTouch (slots dev) (input_last_slot a)) dv log
}.

Definition put_device (n : Z) (path : string) (dv : Device) (a : AnboxInput) : AnboxInput :=
  mkAnboxInput (display_frame_ a)
    (mkInputManager (<[n := (path, dv)]> (devices_ (input_manager_ a))) (next_device_id (input_manager_ a)))
    (devices a) (input_last_slot a).

Lemma send_to_ok clock n es a path dv c :
  devices_ (input_manager_ a) !! n = Some (path, dv) -> serving c dv ->
  exists dv', send_to clock n es a = Some (put_device n path dv' a) /\ serving c dv' /\ info_ dv' = info_ dv /\
    forall k, connections_ dv' !! k = deliver (event_data (Events clock.1 clock.2 es)) <$> connections_ dv !! k.
Proof.
  intros Hn Hs. destruct (send_events_serving c dv clock.1 clock.2 es Hs) as (dv' & E & Hs' & Hi & Hc).
  exists dv'. split; [|done]. unfold send_to. rewrite Hn. cbn [mbind option_bind]. by rewrite E.
Qed.

(** A device of its own is put back; [other]: it is not the touch device. *)
Lemma put_other i m fresh g g' a n path dv c :
  input_is i m fresh g a -> 0 <= n < 3 * i -> n <> 3 * i - 1 -> serving c dv -> c <= g' -> g <= g' ->
  input_is i m fresh g' (put_device n path dv a).
Proof.
  intros [Hi Hnext Hdev Hfree Hready] Hn Hne Hs Hc Hg. split; cbn; try done.
  - intros n' Hn'. destruct (decide (n' = n)) as [->|Hx].
    + rewrite lookup_insert_eq. by exists path, dv, c.
    + rewrite lookup_insert_ne by done. destruct (Hdev n' Hn') as (path' & dv' & c' & E & Hs' & Hc').
      exists path', dv', c'. split; [done|]. split; [done|lia].
  - intros n' Hn'. rewrite lookup_insert_ne by lia. by apply Hfree.
  - intros H0. destruct (Hready H0) as (dev & path' & dv' & log & Hd & Hp & Hk & Ht & E & Hside).
    exists dev, path', dv', log. rewrite lookup_insert_ne by lia. done.
Qed.

(** The touch device and its slots are put back. *)
Lemma put_touch i m m' fresh fresh' g g' a n path dv c log t dev :
  input_is i m fresh g a -> 0 < i -> devices a = Some dev -> touch_ dev = n ->
  serving c dv -> c <= g' -> g <= g' -> touch_side m' fresh' (display_frame_ a) t dv log ->
  input_is i m' fresh' g' (put_device n path dv (with_touch t dev a)).
Proof.
  intros [Hi Hnext Hdev Hfree Hready] H0 Hd <- Hs Hc Hg Hside.
  destruct (Hready H0) as (dev' & path' & dv' & log' & Hd' & Hp & Hk & Ht & E & _).
  rewrite Hd in Hd'. injection Hd' as <-. split; cbn; try done.
  - intros n' Hn'. destruct (decide (n' = touch_ dev)) as [->|Hx].
    + rewrite lookup_insert_eq. by exists path, dv, c.
    + rewrite lookup_insert_ne by done. destruct (Hdev n' Hn') as (path2 & dv2 & c2 & E2 & Hs2 & Hc2).
      exists path2, dv2, c2. split; [done|]. split; [done|lia].
  - intros n' Hn'. rewrite lookup_insert_ne by lia. by apply Hfree.
  - intros _. exists (mkDevices (pointer_ dev) (keyboard_ dev) (touch_ dev) (touch_slots t)), path, dv, log.
    cbn. rewrite lookup_insert_eq. split_and!; try done. by destruct t.
Qed.

Lemma put_device_same n path dv a :
  devices_ (input_manager_ a) !! n = Some (path, dv) -> put_device n path dv a = a.
Proof. intros E. destruct a as [f [ds nx] de l]. unfold put_device. cbn in *. by rewrite insert_id. Qed.

(** A finger operation, up to the bytes its clients have. *)
Lemma push_and_send_ok i m fresh g a clock o :
  input_is i m fresh g a -> 0 < i -> op_legal o m -> op_typed o ->
  exists a', push_and_send clock (finger_op o) a = Some a' /\ display_frame_ a' = display_frame_ a /\
    input_is i (fingers_step o m) false g a'.
Proof.
  intros Hin H0 Hl Hty. destruct (in_ready _ _ _ _ _ Hin H0) as (dev & path & dv & log & Hd & Hp & Hk & Ht & E & Hside).
  destruct (in_device _ _ _ _ _ Hin (touch_ dev)) as (path2 & dv2 & c & E2 & Hs & Hc); [lia|].
  rewrite E in E2. injection E2 as <- <-. destruct Hside as [Hinfo Htyp _ Hrec Htr].
  set (t := mkTouch (slots dev) (input_last_slot a)) in *.
  pose proof (step_tracks _ _ _ o Htr Hl) as Htr'.
  pose proof (finger_op_typed o t (tracks_len _ _ _ Htr) Hty) as Hty'.
  unfold push_and_send. rewrite Hd. cbn [mbind option_bind]. fold t.
  destruct (finger_op o t) as [t' es]. cbn [snd] in Hty'.
  destruct es as [|e es].
  - exists (put_device (touch_ dev) path dv (with_touch t' dev a)).
    split; [by rewrite put_device_same|]. split; [done|].
    eapply put_touch; [exact Hin|exact H0|exact Hd|reflexivity|exact Hs|exact Hc|lia|].
    split; [exact Hinfo|exact Htyp|discriminate|exact Hrec|exact Htr'].
  - destruct (send_to_ok clock (touch_ dev) (e :: es) (with_touch t' dev a) path dv c E Hs)
      as (dv' & -> & Hs' & Hi' & Hc').
    eexists. split; [done|]. split; [done|].
    eapply (put_touch _ _ _ _ _ _ _ _ _ _ _ _
      (log ++ ((fun e => ((clock.1, clock.2 / 1000), e)) <$> e :: es)));
      [exact Hin|exact H0|exact Hd|reflexivity|exact Hs'|exact Hc|lia|].
    split.
    + rewrite Hi'. exact Hinfo.
    + apply Forall_app. split; [exact Htyp|]. apply Forall_fmap. exact Hty'.
    + discriminate.
    + intros k cl. rewrite Hc'. intros (cl' & Hcl & ->)%fmap_Some. cbn [deliver received].
      rewrite (Hrec _ _ Hcl), event_data_stamped, Hi', fmap_app, concat_app, app_assoc. done.
    + rewrite fmap_app, guest_run_app, <- list_fmap_compose.
      replace (snd ∘ (fun e0 => (clock.1, clock.2 / 1000, e0)) <$> e :: es) with (e :: es); [done|].
      symmetry. apply list_fmap_id.
Qed.

(** *** New devices *)

Definition put_new (n : Z) (path : string) (i : Info) (m : InputManager) : InputManager :=
  mkInputManager (<[n := (path, device_with i)]> (devices_ m)) (n + 1).

Lemma add_device_ok dir ss m :
  Forall setting_typed ss -> Forall setting_fits ss ->
  devices_ m !! next_device_id m = None -> 0 <= next_device_id m < 2 ^ 32 - 1 ->
  exists i, apply_settings ss info_new = Some i /\
    add_device dir ss m = Some (next_device_id m,
      put_new (next_device_id m) (build_device_path dir (next_device_id m)) i m).
Proof.
  intros Ht Hf Hn Hr. pose proof (apply_settings_ok ss info_new Ht info_new_typed) as H.
  destruct (apply_settings ss info_new) as [i|] eqn:E; [|done]. exists i. split; [done|].
  unfold add_device, create_device. rewrite Hn. unfold configure. cbn [devices_ next_device_id].
  rewrite lookup_insert_eq. cbn [mbind option_bind info_ device_new]. rewrite E.
  cbn [mbind option_bind connections_ next_connection_id_]. unfold put_new. do 3 f_equal.
  - apply insert_insert_eq.
  - apply wrapu_id. unfold in_u. lia.
Qed.

Ltac closed_settings :=
  repeat (apply Forall_cons; split); try apply List.Forall_nil; cbn [setting_typed setting_fits];
  try apply bytes_of_typed; done.

Lemma pointer_settings_ok : Forall setting_typed pointer_settings /\ Forall setting_fits pointer_settings.
Proof. split; closed_settings. Qed.

Lemma keyboard_settings_ok : Forall setting_typed keyboard_settings /\ Forall setting_fits keyboard_settings.
Proof. split; closed_settings. Qed.

Lemma touch_settings_fit width height : Forall setting_fits (touch_settings width height).
Proof. closed_settings. Qed.

Lemma serving_new g i : 0 <= g -> exists c, serving c (device_with i) /\ c <= g.
Proof. intros Hg. exists 0. split; [apply device_with_serving|done]. Qed.

Lemma init_ok dir frame i m fresh g a :
  input_is i m fresh g a -> i < 2 ^ 30 -> 0 <= g ->
  exists a', init dir frame a = Some (a', set_resolution (u32 (width frame)) (u32 (height frame))) /\
    display_frame_ a' = frame /\ input_is (i + 1) ∅ true g a'.
Proof.
  intros [Hi Hnext Hdev Hfree _] Hlt Hg. unfold init.
  destruct (add_device_ok dir pointer_settings (input_manager_ a)) as (i1 & _ & ->);
    [apply pointer_settings_ok|apply pointer_settings_ok|apply Hfree; lia|lia|].
  rewrite Hnext. set (m1 := put_new _ _ _ _). cbn [mbind option_bind].
  destruct (add_device_ok dir keyboard_settings m1) as (i2 & _ & ->);
    [apply keyboard_settings_ok|apply keyboard_settings_ok| |cbn; lia|].
  { cbn. rewrite lookup_insert_ne by lia. apply Hfree. lia. }
  change (next_device_id m1) with (3 * i + 1). set (m2 := put_new _ _ _ _). cbn [mbind option_bind].
  destruct (add_device_ok dir (touch_settings (width frame) (height frame)) m2) as (i3 & E3 & ->);
    [apply touch_settings_typed|apply touch_settings_fit| |cbn; lia|].
  { cbn. rewrite !lookup_insert_ne by lia. apply Hfree. lia. }
  change (next_device_id m2) with (3 * i + 1 + 1). cbn [mbind option_bind].
  set (m3 := put_new (3 * i + 1 + 1) _ _ m2).
  assert (Hnext3 : next_device_id m3 = 3 * (i + 1)) by (cbn; lia).
  assert (Hold : forall n, ~ 3 * i <= n < 3 * (i + 1) ->
    devices_ m3 !! n = devices_ (input_manager_ a) !! n)
    by (intros n Hn; cbn; by rewrite !lookup_insert_ne by lia).
  assert (Hlook : forall n, 3 * i <= n < 3 * (i + 1) -> exists path i',
    devices_ m3 !! n = Some (path, device_with i') /\ (n = 3 * i + 2 -> i' = i3)).
  { intros n Hn. unfold m3. cbn [put_new devices_].
    destruct (decide (n = 3 * i + 1 + 1)) as [->|]; [rewrite lookup_insert_eq; by eauto|].
    rewrite lookup_insert_ne by lia. subst m2. cbn [put_new devices_].
    destruct (decide (n = 3 * i + 1)) as [->|]; [rewrite lookup_insert_eq; do 2 eexists; split; [done|lia]|].
    rewrite lookup_insert_ne by lia. subst m1. cbn [put_new devices_].
    replace n with (3 * i) by lia. rewrite lookup_insert_eq. do 2 eexists. split; [done|lia]. }
  clearbody m3. clear m1 m2. eexists. split; [done|]. split; [done|].
  split; cbn [input_manager_ devices input_last_slot display_frame_].
  - lia.
  - exact Hnext3.
  - intros n Hn. destruct (decide (3 * i <= n)).
    + destruct (Hlook n) as (path & i' & E & _); [lia|]. destruct (serving_new g i' Hg) as (c & Hc).
      exists path, (device_with i'), c. split; [exact E|exact Hc].
    + rewrite Hold by lia. apply Hdev. lia.
  - intros n Hn. rewrite Hold by lia. apply Hfree. lia.
  - intros _. destruct (Hlook (3 * i + 2)) as (path & i' & E & Hi'); [lia|].
    rewrite (Hi' eq_refl) in E.
    exists (mkDevices (3 * i) (3 * i + 1) (3 * i + 1 + 1) (replicate (Z.to_nat MAX_FINGERS) (-1))), path, (device_with i3), [].
    cbn [pointer_ keyboard_ touch_ slots]. replace (3 * i + 1 + 1) with (3 * i + 2) by lia.
    split; [reflexivity|]. split_and!; [lia..|exact E|].
    split; cbn [device_with info_ connections_].
    + exact E3.
    + apply List.Forall_nil.
    + reflexivity.
    + intros k c. rewrite lookup_empty. discriminate.
    + right. split_and!; reflexivity.
Qed.

(** *** Connections and keys *)

Lemma guest_connects_ok n i m fresh g a :
  input_is i m fresh g a -> 0 <= n < 3 * i -> g < 2 ^ 31 -> (n = 3 * i - 1 -> fresh = true) ->
  exists a', guest_connects n a = Some a' /\ display_frame_ a' = display_frame_ a /\
    input_is i m fresh (g + 1) a'.
Proof.
  intros Hin Hn Hg Hfresh. destruct (in_device _ _ _ _ _ Hin n Hn) as (path & dv & c & E & Hs & Hc).
  unfold guest_connects. rewrite E. cbn [mbind option_bind].
  destruct (new_client_serving c dv Hs) as [Hs' Hcon]; [lia|].
  eexists. split; [done|]. split; [done|]. destruct (decide (n = 3 * i - 1)) as [Ht|Hne].
  - destruct (in_ready _ _ _ _ _ Hin) as (dev & path' & dv' & log & Hd & _ & _ & Hto & E' & Hside); [lia|].
    replace (touch_ dev) with n in E' by lia. rewrite E in E'. injection E' as <- <-.
    pose proof (put_touch i m m fresh fresh g (g + 1) a n path (new_client dv) (c + 1) log
      (mkTouch (slots dev) (input_last_slot a)) dev Hin) as Hput.
    unfold put_device, with_touch in Hput. cbn in Hput. destruct dev as [p k to sl]. cbn in *. subst to.
    rewrite <- Hd in Hput. apply Hput; [lia|reflexivity|symmetry; exact Ht|exact Hs'|lia|lia|].
    destruct Hside as [Hinfo Htyp Hfr Hrec Htr]. split; [exact Hinfo|exact Htyp|exact Hfr| |exact Htr].
    intros k' cl. cbn [connections_]. rewrite Hcon, lookup_insert_Some. intros [[<- <-]|[_ H]]; [|exact (Hrec _ _ H)].
    cbn [received]. by rewrite (Hfr (Hfresh Ht)), app_nil_r.
  - apply (put_other i m fresh g (g + 1) a n path (new_client dv) (c + 1)); [exact Hin|exact Hn|exact Hne|exact Hs'|lia|lia].
Qed.

Lemma key_ok clock e i m fresh g a :
  input_is i m fresh g a -> 0 < i ->
  exists a', keyboard_event clock e a = Some a' /\ display_frame_ a' = display_frame_ a /\
    input_is i m fresh g a'.
Proof.
  intros Hin H0. destruct e as [key state|]; cbn [keyboard_event]; [|by exists a].
  destruct (in_ready _ _ _ _ _ Hin H0) as (dev & _ & _ & _ & -> & _ & Hk & _). cbn [mbind option_bind].
  destruct (in_device _ _ _ _ _ Hin (keyboard_ dev)) as (path & dv & c & E & Hs & Hc); [lia|].
  destruct (send_to_ok clock (keyboard_ dev) (
      (if state =? WL_KEYBOARD_KEY_STATE_PRESSED then [mkEvent EV_KEY (u16 key) 1] else []) ++
      (if state =? WL_KEYBOARD_KEY_STATE_RELEASED then [mkEvent EV_KEY (u16 key) 0] else [])) a path dv c E Hs)
    as (dv' & -> & Hs' & _).
  eexists. split; [done|]. split; [done|]. eapply put_other; [exact Hin|lia|lia|exact Hs'|exact Hc|lia].
Qed.

(** ** What the messages mean

    The fingers on the guest's screen, where the compositor says they are: a finger is in
    the window it came down in, and the left button is finger 0 where the pointer entered
    the surface.  [origins]: the listener that was told of a finger and where the window
    is; [entered]: where each pointer entered, in 1/256; [fresh_screen]: nothing happened
    to the fingers since the last workspace info. *)

Record Desk := mkDesk {
  inits : Z;
  fingers : gmap Z (Z * Z);
  origins : gmap Z (nat * (Z * Z));
  entered : list (Z * Z);
  touch_count : nat;
  keyboard_count : nat;
  fresh_screen : bool;
  guests : Z
}.

Definition desk_new : Desk := mkDesk 0 ∅ ∅ [] 0 0 true 0.

Definition desk_op (h : Happening) (d : Desk) : option FingerOp :=
  match h with
  | OnTouch _ (TouchDown (Some r) id x y) => Some (Down id (position (left r) x) (position (top r) y))
  | OnTouch _ (TouchUp id) => Some (Up id)
  | OnTouch _ (TouchMotion id x y) =>
      '(_, (l, t)) ← origins d !! id; Some (Motion id (position l x) (position t y))
  | OnPointer _ (PointerMotion x y) => Some (Motion 0 (position 0 x) (position 0 y))
  | OnPointer k (PointerButton button state) =>
      if button =? BTN_LEFT then
        if state =? WL_POINTER_BUTTON_STATE_PRESSED then
          '(x, y) ← entered d !! k; Some (Down 0 (position 0 x) (position 0 y))
        else Some (Up 0)
      else None
  | _ => None
  end.

Definition is_workspace_info (h : Happening) : bool :=
  match h with Shell (WorkspaceInfo _ _ _ _) => true | _ => false end.

Definition desk_origins (h : Happening) (m : gmap Z (nat * (Z * Z))) : gmap Z (nat * (Z * Z)) :=
  match h with
  | OnTouch k (TouchDown (Some r) id _ _) => <[id := (k, (left r, top r))]> m
  | OnTouch _ (TouchUp id) => delete id m
  | _ => m
  end.

Definition desk_entered (h : Happening) (l : list (Z * Z)) : list (Z * Z) :=
  match h with
  | OnPointer k (PointerEnter x y) => <[k := (x, y)]> l
  | Capabilities c => l ++ if has_capability WL_SEAT_CAPABILITY_POINTER c then [(0, 0)] else []
  | _ => l
  end.

Definition capability_count (bit : Z) (h : Happening) : nat :=
  match h with Capabilities c => if has_capability bit c then 1 else 0 | _ => 0 end.

Definition desk_step (h : Happening) (d : Desk) : Desk :=
  let reset := is_workspace_info h in
  mkDesk (inits d + if reset then 1 else 0)
    (if reset then ∅ else fingers_op (desk_op h d) (fingers d))
    (desk_origins h (origins d))
    (desk_entered h (entered d))
    (touch_count d + capability_count WL_SEAT_CAPABILITY_TOUCH h)
    (keyboard_count d + capability_count WL_SEAT_CAPABILITY_KEYBOARD h)
    (reset || match desk_op h d with Some _ => false | None => fresh_screen d end)
    (guests d + match h with GuestConnects _ => 1 | _ => 0 end).

Definition desk_run (hs : list ((Z * Z) * Happening)) (d : Desk) : Desk :=
  foldl (fun d h => desk_step h.2 d) d hs.

(** What the compositor and the guest keep to: ids of fingers are not negative and a
    finger that is down does not come down; fingers of one listener that are down at once
    are in windows at one place; there is an [int] for every position, and one that a
    [float] has for the pointer; devices are there before they are used, and the guest
    has opened the touch screen before it is used.  The messages that trap do not come. *)
Definition legal_touch (k : nat) (e : TouchEvent) (d : Desk) : Prop :=
  match e with
  | TouchDown window id x y => exists r, window = Some r /\
      fits (left r) x /\ fits (top r) y /\ 0 <= id /\ fingers d !! id = None /\
      forall id' o, id' <> id -> origins d !! id' = Some (k, o) -> o = (left r, top r)
  | TouchUp id => 0 <= id
  | TouchMotion id x y => 0 <= id /\
      exists l t, origins d !! id = Some (k, (l, t)) /\ fits l x /\ fits t y
  | TouchFrame | TouchCancel => True
  end.

Definition legal_pointer (e : PointerEvent) (d : Desk) : Prop :=
  match e with
  | PointerEnter x y => Z.abs x < 2 ^ 24 /\ Z.abs y < 2 ^ 24
  | PointerMotion x y => in_s 32 x /\ in_s 32 y
  | PointerButton button state =>
      button = BTN_LEFT -> state = WL_POINTER_BUTTON_STATE_PRESSED -> fingers d !! 0 = None
  | PointerLeave | PointerAxis => True
  end.

Definition legal (h : Happening) (d : Desk) : Prop :=
  match h with
  | Global _ _ _ | Capabilities _ => True
  | Shell (Activated NoWindow) | Shell ConfigurationChanged | Shell Workspace => False
  | Shell (WorkspaceInfo _ _ _ _) => inits d < 2 ^ 30
  | Shell _ => True
  | OnTouch k e => (k < touch_count d)%nat /\ 0 < inits d /\ legal_touch k e d
  | OnPointer k e => (k < length (entered d))%nat /\ 0 < inits d /\ legal_pointer e d
  | OnKeyboard k e => (k < keyboard_count d)%nat /\ 0 < inits d
  | GuestConnects n => 0 <= n < 3 * inits d /\ guests d < 2 ^ 31 /\
      (n = 3 * inits d - 1 -> fresh_screen d = true)
  end.

Fixpoint legal_run (hs : list ((Z * Z) * Happening)) (d : Desk) : Prop :=
  match hs with
  | [] => True
  | (_, h) :: hs => legal h d /\ legal_run hs (desk_step h d)
  end.

Section platform_is.
Context {P : Type} `{!PointF P}.
Variable dir : string.

Definition pointer_is (at_ : Z * Z) (p : WaylandPointer P) : Prop :=
  to_int (point_x (location_ p)) = position 0 at_.1 /\
  to_int (point_y (location_ p)) = position 0 at_.2 /\
  in_s 32 (position 0 at_.1) /\ in_s 32 (position 0 at_.2) /\
  point_x (current_window_location_ p) = f32 0 /\ point_y (current_window_location_ p) = f32 0.

Record platform_is (d : Desk) (p : WaylandPlatform P) : Prop := {
  is_input : input_is (inits d) (fingers d) (fresh_screen d) (guests d) (anbox_input p);
  is_guests : 0 <= guests d;
  is_resolution : 0 < inits d -> resolution p =
    set_resolution (u32 (width (display_frame_ (anbox_input p)))) (u32 (height (display_frame_ (anbox_input p))));
  is_touches : length (touches p) = touch_count d;
  is_origins : forall id k o, origins d !! id = Some (k, o) -> touches p !! k = Some (Some o);
  is_pointers : Forall2 pointer_is (entered d) (pointers p);
  is_keyboards : keyboards p = keyboard_count d
}.

Lemma pointer_new_is : pointer_is (0, 0) pointer_new.
Proof.
  unfold pointer_is, pointer_new. cbn [location_ current_window_location_].
  rewrite point_zero_x, point_zero_y. by split_and!.
Qed.

Lemma platform_new_is : platform_is desk_new (platform_new (mkInputManager ∅ 0)).
Proof.
  split; cbn; try done.
  split; cbn; try done; lia.
Qed.

(** The fingers of the screen after an operation, and whether it is fresh. *)
Definition screen_is (d : Desk) (o : option FingerOp) (a : AnboxInput) : Prop :=
  input_is (inits d) (fingers_op o (fingers d)) (match o with Some _ => false | None => fresh_screen d end)
    (guests d) a.

Lemma push_ok push o d a clock :
  push = finger_op o ->
  input_is (inits d) (fingers d) (fresh_screen d) (guests d) a -> 0 < inits d ->
  op_legal o (fingers d) -> op_typed o ->
  exists a', push_and_send clock push a = Some a' /\ display_frame_ a' = display_frame_ a /\
    screen_is d (Some o) a'.
Proof. intros -> Hin H0 Hl Ht. by eapply push_and_send_ok. Qed.

Definition touch_after (e : TouchEvent) (touch : WaylandTouch) : WaylandTouch :=
  match e with TouchDown (Some r) _ _ _ => Some (left r, top r) | _ => touch end.

Lemma touch_event_ok clock k e d touch a :
  input_is (inits d) (fingers d) (fresh_screen d) (guests d) a -> 0 < inits d ->
  legal_touch k e d ->
  (forall id o, origins d !! id = Some (k, o) -> touch = Some o) ->
  exists a', touch_event clock e touch a = Some (touch_after e touch, a') /\
    display_frame_ a' = display_frame_ a /\ screen_is d (desk_op (OnTouch k e) d) a'.
Proof.
  intros Hin H0 Hl Ho. destruct e as [w id x y|id|id x y| |]; cbn [touch_event desk_op].
  - destruct Hl as (r & -> & Hx & Hy & Hid & Hnew & _).
    destruct (push_ok (push_finger_down (position (left r) x) (position (top r) y) id) (Down id (position (left r) x) (position (top r) y)) d a clock eq_refl Hin H0)
      as (a' & Ha & Hf & Hs); [by split|by destruct Hx as (_ & _ & ?), Hy as (_ & _ & ?)|].
    exists a'. cbn [mbind option_bind]. rewrite !shifted_position by done.
    rewrite Ha. done.
  - destruct (push_ok (push_finger_up id) (Up id) d a clock eq_refl Hin H0 Hl Hl) as (a' & Ha & Hf & Hs).
    exists a'. rewrite Ha. done.
  - destruct Hl as (Hid & l & t & E & Hx & Hy). rewrite (Ho _ _ E), E. cbn [mbind option_bind].
    destruct (push_ok (push_finger_motion (position l x) (position t y) id) (Motion id (position l x) (position t y)) d a clock eq_refl Hin H0)
      as (a' & Ha & Hf & Hs); [done|by destruct Hx as (_ & _ & ?), Hy as (_ & _ & ?)|].
    exists a'. rewrite !shifted_position by done. rewrite Ha. done.
  - by exists a.
  - by exists a.
Qed.

Lemma pointer_event_ok clock k e d pointer a at_ :
  input_is (inits d) (fingers d) (fresh_screen d) (guests d) a -> 0 < inits d ->
  legal_pointer e d -> entered d !! k = Some at_ -> pointer_is at_ pointer ->
  exists pointer' a', pointer_event clock e pointer a = Some (pointer', a') /\
    display_frame_ a' = display_frame_ a /\ screen_is d (desk_op (OnPointer k e) d) a' /\
    pointer_is (match e with PointerEnter x y => (x, y) | _ => at_ end) pointer'.
Proof.
  intros Hin H0 Hl Hk Hp. pose proof Hp as (Hlx & Hly & Hix & Hiy & Hcx & Hcy).
  destruct e as [x y| |x y|button state|]; cbn [pointer_event desk_op].
  - eexists _, a. split; [done|]. split; [done|]. split; [done|]. destruct Hl as [Hx Hy].
    unfold pointer_is. cbn [location_ current_window_location_ fst snd].
    rewrite SetPoint_x, SetPoint_y, !float_position by done. split_and!; try done;
      unfold position, in_s; cbn in *; Z.to_euclidean_division_equations; lia.
  - by exists pointer, a.
  - destruct Hl as [Hx Hy]. rewrite Hcx, Hcy, !unshifted_position by done.
    destruct (push_ok (push_finger_motion (position 0 x) (position 0 y) 0) (Motion 0 (position 0 x) (position 0 y)) d a clock eq_refl Hin H0)
      as (a' & Ha & Hf & Hs); [done| |].
    { split; [done|]. unfold position, in_s in *; cbn in *; Z.to_euclidean_division_equations; lia. }
    exists pointer, a'. rewrite Ha. done.
  - case_bool_decide as Hb.
    + destruct (Z.eqb_spec button BTN_LEFT) as [->|]; [|by exists pointer, a].
      destruct (Z.eqb_spec state WL_POINTER_BUTTON_STATE_PRESSED) as [->|].
      * rewrite Hk, Hlx, Hly. destruct at_ as [x y]. cbn [mbind option_bind fst snd] in *.
        destruct (push_ok (push_finger_down (position 0 x) (position 0 y) 0) (Down 0 (position 0 x) (position 0 y)) d a clock eq_refl Hin H0)
          as (a' & Ha & Hf & Hs); [by split; [|apply Hl]|done|].
        exists pointer, a'. rewrite Ha. done.
      * destruct (push_ok (push_finger_up 0) (Up 0) d a clock eq_refl Hin H0) as (a' & Ha & Hf & Hs); [done|done|].
        exists pointer, a'. rewrite Ha. done.
    + destruct (Z.eqb_spec button BTN_LEFT) as [->|]; [|by exists pointer, a].
      exfalso. apply Hb. by apply list_elem_of_here.
  - by exists pointer, a.
Qed.

Ltac desk_cbn :=
  cbn [desk_step is_workspace_info anbox_input resolution touches pointers keyboards inits fingers
    origins entered touch_count keyboard_count fresh_screen guests capability_count set_input
    seat_capabilities];
  rewrite ?Nat.add_0_r, ?Z.add_0_r.

Lemma on_touch_ok clock k e d p :
  platform_is d p -> legal (OnTouch k e) d ->
  exists p' calls, step dir clock (OnTouch k e) p = Some (p', calls) /\
    platform_is (desk_step (OnTouch k e) d) p'.
Proof.
  intros [Hin Hg Hres Ht Ho Hp Hk] (Hlt & H0 & Hl). cbn [step].
  destruct (lookup_lt_is_Some_2 (touches p) k) as [touch Htk]; [lia|]. rewrite Htk. cbn [mbind option_bind].
  destruct (touch_event_ok clock k e d touch (anbox_input p) Hin H0 Hl) as (a' & Ha & Hf & Hs).
  { intros id o E. apply Ho in E. pose proof (eq_trans (eq_sym Htk) E) as E'. by injection E'. }
  rewrite Ha. cbn [mbind option_bind]. do 2 eexists. split; [done|].
  split; desk_cbn; try done.
  - by rewrite Hf.
  - by rewrite length_insert.
  - intros id k' o E. destruct e as [[r|] id' x y|id'|id' x y| |]; cbn [desk_origins touch_after] in *;
      try (rewrite list_insert_id by done; by eapply Ho).
    + destruct Hl as (r' & [= <-] & _ & _ & _ & _ & Hsame).
      apply lookup_insert_Some in E as [[<- [= <- <-]]|[Hne E]].
      * apply (list_lookup_insert_eq (A := WaylandTouch)). lia.
      * destruct (decide (k' = k)) as [->|Hk'].
        -- rewrite (Hsame id o) by done. apply (list_lookup_insert_eq (A := WaylandTouch)). lia.
        -- rewrite list_lookup_insert_ne by done. by eapply Ho.
    + apply lookup_delete_Some in E as [_ E]. rewrite list_insert_id by done. by eapply Ho.
Qed.

Lemma on_pointer_ok clock k e d p :
  platform_is d p -> legal (OnPointer k e) d ->
  exists p' calls, step dir clock (OnPointer k e) p = Some (p', calls) /\
    platform_is (desk_step (OnPointer k e) d) p'.
Proof.
  intros [Hin Hg Hres Ht Ho Hp Hk] (Hlt & H0 & Hl). cbn [step].
  destruct (lookup_lt_is_Some_2 (entered d) k Hlt) as [at_ Hat].
  destruct (Forall2_lookup_l _ _ _ _ _ Hp Hat) as (pointer & Hpk & Hpi). rewrite Hpk. cbn [mbind option_bind].
  destruct (pointer_event_ok clock k e d pointer (anbox_input p) at_ Hin H0 Hl Hat Hpi)
    as (pointer' & a' & Ha & Hf & Hs & Hpi').
  rewrite Ha. cbn [mbind option_bind]. do 2 eexists. split; [done|].
  split; desk_cbn; try done.
  - by rewrite Hf.
  - replace (desk_entered (OnPointer k e) (entered d))
      with (<[k := match e with PointerEnter x y => (x, y) | _ => at_ end]> (entered d)).
    + by apply Forall2_insert.
    + destruct e; cbn [desk_entered]; try done; by apply list_insert_id.
Qed.

Lemma shell_ok clock e d p :
  platform_is d p -> legal (Shell e) d ->
  exists p' calls, step dir clock (Shell e) p = Some (p', calls) /\ platform_is (desk_step (Shell e) d) p'.
Proof.
  intros [Hin Hg Hres Ht Ho Hp Hk] Hl. cbn [step].
  destruct e as [[| |task]| | | |scale|w h|x y w h]; cbn [legal shell_event] in *; try done;
    try (do 2 eexists; split; [done|]; split;
      desk_cbn; done).
  destruct (init_ok dir (mkRect 0 0 w h) _ _ _ _ _ Hin Hl Hg) as (a' & -> & Hf & Hin').
  cbn [mbind option_bind]. do 2 eexists. split; [done|]. split;
    desk_cbn; try done.
  intros _. by rewrite Hf.
Qed.

Lemma step_ok clock h d p :
  platform_is d p -> legal h d ->
  exists p' calls, step dir clock h p = Some (p', calls) /\ platform_is (desk_step h d) p'.
Proof.
  intros Hpl Hl. destruct h as [id interface version|c|e|k e|k e|k e|n];
    [| |by apply shell_ok|by apply on_touch_ok|by apply on_pointer_ok| |];
    destruct Hpl as [Hin Hg Hres Ht Ho Hp Hk]; cbn [step legal] in *.
  - do 2 eexists. split; [done|]. unfold registry_global.
    destruct (bound_version interface version); split; desk_cbn; done.
  - do 2 eexists. split; [done|]. split; desk_cbn; try done.
    + rewrite length_app, Ht. by destruct (has_capability _ c).
    + intros id k o E. by apply lookup_app_l_Some, (Ho id).
    + apply Forall2_app; [done|]. destruct (has_capability _ c); [|done].
      constructor; [apply pointer_new_is|done].
    + by rewrite Hk.
  - destruct Hl as [Hlt H0]. rewrite (proj2 (Nat.ltb_lt _ _)) by lia.
    destruct (key_ok clock e _ _ _ _ _ Hin H0) as (a' & -> & Hf & Hin'). cbn [mbind option_bind].
    do 2 eexists. split; [done|]. split; desk_cbn; rewrite ?Hf; done.
  - destruct Hl as (Hn & Hg' & Hfr).
    destruct (guest_connects_ok n _ _ _ _ _ Hin Hn Hg' Hfr) as (a' & -> & Hf & Hin'). cbn [mbind option_bind].
    do 2 eexists. split; [done|]. split; desk_cbn; rewrite ?Hf; try done. lia.
Qed.

Lemma run_ok hs : forall d p, platform_is d p -> legal_run hs d ->
  exists p' calls, run dir hs p = Some (p', calls) /\ platform_is (desk_run hs d) p'.
Proof.
  induction hs as [|[clock h] hs IH]; intros d p Hp Hl; [by do 2 eexists|].
  destruct Hl as [Hh Hl]. destruct (step_ok clock h d p Hp Hh) as (p1 & calls1 & E1 & Hp1).
  destruct (IH _ _ Hp1 Hl) as (p2 & calls2 & E2 & Hp2). exists p2, (calls1 ++ calls2).
  cbn [run]. rewrite E1. cbn [mbind option_bind]. rewrite E2. done.
Qed.
End platform_is.

(** ** From the compositor to the guest *)

Lemma touch_settings_u32 w h : touch_settings (u32 w) (u32 h) = touch_settings w h.
Proof.
  unfold touch_settings. rewrite !(wrapu_id 32 (u32 _)) by (apply wrapu_range; lia). done.
Qed.

(** Where the guest sees the fingers. *)
Lemma tracks_contact m t g : tracks m t g ->
  (forall i, contact g i = (f ← zlookup (touch_slots t) i; m !! f)) /\
  (forall f, is_Some (m !! f) -> exists i, zlookup (touch_slots t) i = Some f /\
    forall j, zlookup (touch_slots t) j = Some f -> j = i).
Proof.
  intros [Ha|(-> & Ht & ->)]; split.
  - apply Ha.
  - intros f Hf. destruct (ag_finger _ _ _ Ha f Hf) as [H0 [i Hi]]. exists i. split; [done|].
    intros j Hj. eapply (ag_unique _ _ _ Ha); [|exact Hj|exact Hi]. lia.
  - intros i. rewrite Ht. destruct (zlookup _ i) as [f|] eqn:E; cbn; rewrite ?lookup_empty;
      unfold contact, guest_slot; cbn; by rewrite lookup_empty.
  - intros f. rewrite lookup_empty. by intros [].
Qed.


(** ** Examples *)

Record TwoFloats := mkTwoFloats { float_x : spec_float; float_y : spec_float }.

#[export] Instance TwoFloats_PointF : PointF TwoFloats := {|
  point_zero := mkTwoFloats (f32 0) (f32 0);
  SetPoint x y _ := mkTwoFloats x y;
  point_x := float_x;
  point_y := float_y;
  point_zero_x := eq_refl;
  point_zero_y := eq_refl;
  SetPoint_x _ _ _ := eq_refl;
  SetPoint_y _ _ _ := eq_refl
|}.

Definition at_zero (h : Happening) : (Z * Z) * Happening := ((0, 0), h).

(** The contacts in the first three slots, as the guest's client [k] of device [n] reads them. *)
Definition seen (n k : Z) (r : option (WaylandPlatform TwoFloats * list WindowManager.Event)) :
    option (list (option (Z * Z))) :=
  '(p, _) ← r;
  '(_, dv) ← devices_ (input_manager_ (anbox_input p)) !! n;
  c ← connections_ dv !! k;
  Some (contact (guest_run (guest_reads (received c)) guest_new) <$> [0; 1; 2]).

Definition window_at (x y : Z) : option Rect := Some (mkRect x y (x + 400) (y + 300)).

Definition desk_start : list Happening :=
  [ Shell (WorkspaceInfo 0 0 1920 1080); GuestConnects 2; Capabilities 7 ].

Definition from_start (hs : list Happening) : option (WaylandPlatform TwoFloats * list WindowManager.Event) :=
  run "/run/input" (at_zero <$> desk_start ++ hs) (platform_new (mkInputManager ∅ 0)).

Definition two_fingers : list Happening :=
  [ OnTouch 0 (TouchDown (window_at 100 50) 3 (256 * 7) (256 * 9 + 128));
    OnTouch 0 (TouchDown (window_at 100 50) 4 0 0);
    OnTouch 0 (TouchMotion 3 (- 256) 512);
    OnPointer 0 (PointerEnter (256 * 20) (256 * 30));
    OnPointer 0 (PointerButton BTN_LEFT 1);
    OnTouch 0 (TouchUp 4) ].

Ltac legal_position := unfold fits, in_s; apply (bool_decide_unpack _); by vm_compute.

Lemma two_fingers_legal : legal_run (at_zero <$> desk_start ++ two_fingers) desk_new.
Proof.
  unfold two_fingers, window_at. cbn -[fits position].
  split_and!; try lia; try done; try match goal with |- (_ < _)%nat => vm_compute; lia end.
  - eexists. split; [done|]. cbn -[fits].
    do 2 (split; [legal_position|]). split; [lia|]. split; [by vm_compute|].
    intros id' o _. by rewrite lookup_empty.
  - eexists. split; [done|]. cbn -[fits].
    do 2 (split; [legal_position|]). split; [lia|]. split; [by vm_compute|].
    intros id' o _. rewrite lookup_insert_Some. intros [[_ [= <-]]|[_ H]]; [done|].
    by rewrite lookup_empty in H.
  - eexists _, _. split; [vm_compute; reflexivity|]. split; legal_position.
Qed.


(** ** What goes wrong *)

(** A second message of the seat makes a second listener, and every finger takes two slots. *)
Lemma second_seat :
  seen 2 0 (from_start [ Capabilities 4;
    OnTouch 0 (TouchDown (window_at 0 0) 3 256 256); OnTouch 1 (TouchDown (window_at 0 0) 3 256 256) ]) =
  Some [Some (1, 1); Some (1, 1); None].
Proof. by vm_compute. Qed.

(** The listener keeps the place of the window touched last: a finger that moves in
    another one jumps. *)
Lemma moved_in_other_window :
  seen 2 0 (from_start [ OnTouch 0 (TouchDown (window_at 0 0) 3 256 256);
    OnTouch 0 (TouchDown (window_at 500 500) 4 256 256); OnTouch 0 (TouchMotion 3 512 512) ]) =
  Some [Some (502, 502); Some (501, 501); None].
Proof. by vm_compute. Qed.

(** The button goes down where the pointer entered the surface, not where it is, and the
    place of the window is added to neither. *)
Lemma pressed_where_entered :
  seen 2 0 (from_start [ OnPointer 0 (PointerEnter 256 256); OnPointer 0 (PointerMotion 51200 51200);
    OnPointer 0 (PointerButton BTN_LEFT 1) ]) =
  Some [Some (1, 1); None; None].
Proof. by vm_compute. Qed.

(** Finger 0 of a touch screen is the pointer's, too: the button's release takes it away. *)
Lemma button_takes_finger :
  seen 2 0 (from_start [ OnTouch 0 (TouchDown (window_at 0 0) 0 256 256); OnPointer 0 (PointerButton BTN_LEFT 0) ]) =
  Some [None; None; None].
Proof. by vm_compute. Qed.

(** A cancelled finger stays down. *)
Lemma cancel_keeps :
  seen 2 0 (from_start [ OnTouch 0 (TouchDown (window_at 0 0) 3 256 256); OnTouch 0 TouchCancel ]) =
  Some [Some (1, 1); None; None].
Proof. by vm_compute. Qed.

(** A new workspace info makes new devices: a finger stays down on the old one for ever. *)
Lemma workspace_again :
  seen 2 0 (from_start [ OnTouch 0 (TouchDown (window_at 0 0) 3 256 256);
    Shell (WorkspaceInfo 0 0 1920 1080); OnTouch 0 (TouchUp 3) ]) =
  Some [Some (1, 1); None; None].
Proof. by vm_compute. Qed.

(** Input before the workspace is known, or to a device one of whose clients has gone,
    ends the process. *)
Lemma input_too_early clock push m : push_and_send clock push (input_new m) = None.
Proof. done. Qed.

Lemma client_gone clock n path dv c j es a :
  devices_ (input_manager_ a) !! n = Some (path, device_event (Gone j) dv) -> serving c dv -> 0 <= j < c ->
  send_to clock n es a = None.
Proof.
  intros Hn Hs Hj. pose proof (send_events_gone c dv j clock.1 clock.2 es Hs Hj) as H.
  unfold send_to. rewrite Hn. cbn [mbind option_bind].
  destruct (send_events clock.1 clock.2 es (device_event (Gone j) dv)) as [d' threw]. by destruct H as [-> _].
Qed.
