(* ===== verification/Checksum.v ===== *)
(** * The checksum of the OpenGL ES connection

    [ChecksumCalculator] (src/android/opengl/shared/OpenglCodecCommon/ChecksumCalculator.{h,cpp};
    the daemon links the same file, external/android-emugl/shared/OpenglCodecCommon/).
    Version 1 puts eight bytes after a message: the number of its bytes with the bits
    reversed, and the number of messages before it.  The two ends keep a counter each
    way; [in_step] says that they agree. *)

From S2P Require Import Prelude.

(** ** The calculator *)

Record ChecksumCalculator := mkChecksum {
  m_version : Z;
  m_numRead : Z;
  m_numWrite : Z;
  m_isEncodingChecksum : bool;
  m_v1BufferTotalLength : Z
}.

Definition checksum_new : ChecksumCalculator := mkChecksum 0 0 0 false 0.

Definition kMaxVersion : Z := 1.
Definition kV1ChecksumSize : Z := 8.

Definition setVersion (version : Z) (c : ChecksumCalculator) : bool * ChecksumCalculator :=
  if kMaxVersion <? version then (false, c)
  else if m_isEncodingChecksum c then (false, c)
  else (true, mkChecksum version (m_numRead c) (m_numWrite c) (m_isEncodingChecksum c)
                (m_v1BufferTotalLength c)).

Definition checksumByteSize (c : ChecksumCalculator) : Z :=
  if m_version c =? 0 then 0 else if m_version c =? 1 then kV1ChecksumSize else 0.

(** [addBuffer] looks at the length only. *)
Definition addBuffer (packetLen : Z) (c : ChecksumCalculator) : ChecksumCalculator :=
  mkChecksum (m_version c) (m_numRead c) (m_numWrite c) true
    (if m_version c =? 1 then u32 (m_v1BufferTotalLength c + packetLen)
     else m_v1BufferTotalLength c).

Definition resetChecksum (c : ChecksumCalculator) : ChecksumCalculator :=
  mkChecksum (m_version c) (m_numRead c) (m_numWrite c) false
    (if m_version c =? 1 then 0 else m_v1BufferTotalLength c).

Definition swap_bits (mask_hi mask_lo k x : Z) : Z :=
  Z.lor (Z.shiftr (Z.land x mask_hi) k) (Z.shiftl (Z.land x mask_lo) k).

Definition reverse32 (revLen : Z) : Z :=
  let revLen := swap_bits 0xffff0000 0x0000ffff 16 revLen in
  let revLen := swap_bits 0xff00ff00 0x00ff00ff 8 revLen in
  let revLen := swap_bits 0xf0f0f0f0 0x0f0f0f0f 4 revLen in
  let revLen := swap_bits 0xcccccccc 0x33333333 2 revLen in
  swap_bits 0xaaaaaaaa 0x55555555 1 revLen.

Definition computeV1Checksum (c : ChecksumCalculator) : Z := reverse32 (m_v1BufferTotalLength c).

(** The bytes a calculator at message number [n] expects or writes. *)
Definition checksum_bytes (n : Z) (c : ChecksumCalculator) : list Z :=
  if m_version c =? 1 then little_endian 4 (computeV1Checksum c) ++ little_endian 4 n else [].

(** [None]: the room is too small. *)
Definition writeChecksum (outputChecksumLen : Z) (c : ChecksumCalculator) :
    option (list Z) * ChecksumCalculator :=
  if outputChecksumLen <? checksumByteSize c then (None, c)
  else
    let out := checksum_bytes (m_numWrite c) c in
    let c := resetChecksum c in
    (Some out, mkChecksum (m_version c) (m_numRead c) (u32 (m_numWrite c + 1))
                 (m_isEncodingChecksum c) (m_v1BufferTotalLength c)).

(** The expected bytes are memory, which the stream may not have filled. *)
Definition validate (expectedChecksum : list (option Z)) (c : ChecksumCalculator) :
    bool * ChecksumCalculator :=
  let isValid :=
    (zlen expectedChecksum =? checksumByteSize c) &&
    bool_decide (expectedChecksum = Some <$> checksum_bytes (m_numRead c) c) in
  let c := mkChecksum (m_version c) (u32 (m_numRead c + 1)) (m_numWrite c)
             (m_isEncodingChecksum c) (m_v1BufferTotalLength c) in
  (isValid, resetChecksum c).

(** ** Bits *)

Lemma swap_bits_range mask_hi mask_lo k x :
  0 <= k -> 0 <= x -> 0 <= mask_hi < 2 ^ 32 -> 0 <= mask_lo < 2 ^ 32 ->
  Z.shiftl mask_lo k < 2 ^ 32 -> in_u 32 (swap_bits mask_hi mask_lo k x).
Proof.
  intros Hk Hx Hhi Hlo Hsh. unfold swap_bits, in_u.
  assert (0 <= Z.shiftr (Z.land x mask_hi) k) as H1.
  { apply Z.shiftr_nonneg, Z.land_nonneg. lia. }
  assert (0 <= Z.shiftl (Z.land x mask_lo) k) as H2.
  { apply Z.shiftl_nonneg, Z.land_nonneg. lia. }
  split; [by apply Z.lor_nonneg|].
  assert (Hb : forall i, 32 <= i -> Z.testbit (Z.lor (Z.shiftr (Z.land x mask_hi) k)
    (Z.shiftl (Z.land x mask_lo) k)) i = false).
  { intros i Hi. rewrite Z.lor_spec, Z.shiftr_spec, Z.land_spec by lia.
    rewrite (Z.bits_above_log2 mask_hi (i + k)); [|lia|].
    2: { destruct (decide (mask_hi = 0)) as [->|]; [cbn; lia|].
         apply Z.log2_lt_pow2; [lia|]. eapply Z.lt_le_trans; [apply Hhi|].
         apply Z.pow_le_mono_r; lia. }
    rewrite Z.shiftl_land. rewrite Z.land_spec.
    rewrite (Z.bits_above_log2 (Z.shiftl mask_lo k) i); [by rewrite !andb_false_r| |].
    - apply Z.shiftl_nonneg. lia.
    - destruct (decide (Z.shiftl mask_lo k = 0)) as [->|]; [cbn; lia|].
      apply Z.log2_lt_pow2; [|].
      + pose proof (proj2 (Z.shiftl_nonneg mask_lo k)). lia.
      + eapply Z.lt_le_trans; [apply Hsh|]. apply Z.pow_le_mono_r; lia. }
  set (y := Z.lor _ _) in *. assert (0 <= y) by (by apply Z.lor_nonneg).
  assert (Hy : y = y mod 2 ^ 32).
  { apply Z.bits_inj'. intros i Hi. destruct (Z.ltb_spec i 32).
    - by rewrite Z.mod_pow2_bits_low.
    - rewrite Hb, Z.mod_pow2_bits_high; [done|lia|lia]. }
  rewrite Hy. apply Z.mod_pos_bound. lia.
Qed.

(** One round moves the bit at [j] to [i]. *)
Lemma swap_bits_spec mask_hi mask_lo k x i :
  0 <= i -> 0 <= k ->
  Z.testbit (swap_bits mask_hi mask_lo k x) i =
    Z.testbit mask_hi (i + k) && Z.testbit x (i + k) ||
    Z.testbit mask_lo (i - k) && Z.testbit x (i - k).
Proof.
  intros Hi Hk. unfold swap_bits.
  rewrite Z.lor_spec, Z.shiftr_spec, Z.shiftl_spec, !Z.land_spec by lia.
  f_equal; apply andb_comm.
Qed.

Definition positions : list Z := Z.of_nat <$> seq 0 32.

Lemma elem_of_positions i : 0 <= i < 32 -> i ∈ positions.
Proof.
  intros Hi. apply list_elem_of_fmap. exists (Z.to_nat i).
  rewrite elem_of_seq. lia.
Qed.

(** The masks of a round choose one of the two bits. *)
Definition round_ok (mask_hi mask_lo k : Z) : bool :=
  forallb (fun i =>
    let j := Z.lxor i k in
    if Z.testbit i (Z.log2 k)
    then negb (Z.testbit mask_hi (i + k)) && Z.testbit mask_lo (i - k) && (i - k =? j)
    else Z.testbit mask_hi (i + k) && negb (Z.testbit mask_lo (i - k)) && (i + k =? j)) positions.

Lemma round_moves mask_hi mask_lo k x i :
  round_ok mask_hi mask_lo k = true -> 0 <= k -> 0 <= i < 32 ->
  Z.testbit (swap_bits mask_hi mask_lo k x) i = Z.testbit x (Z.lxor i k).
Proof.
  intros Hr Hk Hi. rewrite swap_bits_spec by lia.
  unfold round_ok in Hr. rewrite forallb_forall in Hr.
  specialize (Hr i). rewrite <- list_elem_of_In in Hr.
  specialize (Hr (elem_of_positions i Hi)).
  destruct (Z.testbit i (Z.log2 k)); apply andb_prop in Hr as [Hm Hj];
    apply andb_prop in Hm as [Hm1 Hm2]; apply Z.eqb_eq in Hj; rewrite <- Hj.
  - rewrite negb_true_iff in Hm1. by rewrite Hm1, Hm2.
  - rewrite negb_true_iff in Hm2. by rewrite Hm1, Hm2, orb_false_r.
Qed.

Lemma lxor_32 i k : 0 <= i < 32 -> 0 <= k < 32 -> 0 <= Z.lxor i k < 32.
Proof.
  intros Hi Hk. split; [apply Z.lxor_nonneg; lia|].
  destruct (decide (Z.lxor i k = 0)) as [->|Hn]; [lia|].
  assert (0 <= Z.lxor i k) by (apply Z.lxor_nonneg; lia).
  change 32 with (2 ^ 5). apply Z.log2_lt_pow2; [lia|].
  pose proof (Z.log2_lxor i k ltac:(lia) ltac:(lia)) as Hl.
  assert (forall z, 0 <= z < 32 -> Z.log2 z < 5).
  { intros z Hz. destruct (decide (z = 0)) as [->|]; [cbn; lia|]. apply Z.log2_lt_pow2; cbn; lia. }
  pose proof (H0 i Hi). pose proof (H0 k Hk). lia.
Qed.

(** The bits are reversed. *)
Lemma reverse32_spec x i : 0 <= i < 32 -> Z.testbit (reverse32 x) i = Z.testbit x (31 - i).
Proof.
  intros Hi. unfold reverse32.
  repeat (rewrite round_moves; [|by vm_compute|lia|repeat apply lxor_32; lia]).
  f_equal.
  assert (Hall : forallb (fun i => Z.lxor (Z.lxor (Z.lxor (Z.lxor (Z.lxor i 1) 2) 4) 8) 16 =? 31 - i)
    positions = true) by by vm_compute.
  rewrite forallb_forall in Hall. specialize (Hall i). rewrite <- list_elem_of_In in Hall.
  by apply Z.eqb_eq, Hall, elem_of_positions.
Qed.

Lemma reverse32_inj x y : in_u 32 x -> in_u 32 y -> reverse32 x = reverse32 y -> x = y.
Proof.
  unfold in_u. intros Hx Hy Heq. rewrite <- (Z.mod_small x (2 ^ 32)), <- (Z.mod_small y (2 ^ 32)) by lia.
  apply Z.bits_inj'. intros i Hi. destruct (Z.ltb_spec i 32).
  - rewrite !Z.mod_pow2_bits_low by lia.
    pose proof (reverse32_spec x (31 - i) ltac:(lia)) as H1.
    pose proof (reverse32_spec y (31 - i) ltac:(lia)) as H2.
    replace (31 - (31 - i)) with i in H1, H2 by lia. congruence.
  - by rewrite !Z.mod_pow2_bits_high by lia.
Qed.

Lemma reverse32_range x : 0 <= x -> in_u 32 (reverse32 x).
Proof.
  intros Hx.
  assert (Hround : forall hi lo k y, 0 <= y -> 0 <= k -> (0 <=? hi) && (hi <? 2 ^ 32) = true ->
    (0 <=? lo) && (lo <? 2 ^ 32) = true -> Z.shiftl lo k <? 2 ^ 32 = true ->
    in_u 32 (swap_bits hi lo k y)).
  { intros. apply swap_bits_range; lia. }
  unfold reverse32. cbv zeta.
  repeat (apply Hround; [|lia|by vm_compute..]; try exact Hx;
    match goal with |- 0 <= ?e => enough (in_u 32 e) as [? _] by assumption end).
Qed.

(** ** Messages *)

(** A message is added in pieces. *)
Definition addBuffers (lens : list Z) (c : ChecksumCalculator) : ChecksumCalculator :=
  foldl (fun c n => addBuffer n c) c lens.

Definition total (lens : list Z) : Z := foldr Z.add 0 lens.

(** Between two messages. *)
Record idle (c : ChecksumCalculator) : Prop := {
  idle_version : m_version c = 0 \/ m_version c = 1;
  idle_length : m_v1BufferTotalLength c = 0;
  idle_encoding : m_isEncodingChecksum c = false;
  idle_read : in_u 32 (m_numRead c);
  idle_write : in_u 32 (m_numWrite c)
}.

(** [c] counts as [c'], but for the message that is being added. *)
Definition same_counts (c c' : ChecksumCalculator) : Prop :=
  m_version c = m_version c' /\ m_numRead c = m_numRead c' /\ m_numWrite c = m_numWrite c'.

Lemma addBuffers_counts lens : forall c, same_counts (addBuffers lens c) c.
Proof.
  induction lens as [|n lens IH]; intros c; [done|].
  destruct (IH (addBuffer n c)) as (Hv & Hr & Hw). split_and!; [exact Hv|exact Hr|exact Hw].
Qed.

Lemma addBuffers_total lens : forall c,
  m_version c = 1 -> in_u 32 (m_v1BufferTotalLength c) ->
  m_v1BufferTotalLength (addBuffers lens c) = u32 (m_v1BufferTotalLength c + total lens).
Proof.
  induction lens as [|n lens IH]; intros c Hv Hr; cbn.
  - by rewrite Z.add_0_r, wrapu_id.
  - change (foldl _ _ lens) with (addBuffers lens (addBuffer n c)).
    rewrite (IH (addBuffer n c)); cbn; rewrite ?Hv; cbn; [|done|by apply wrapu_range].
    by rewrite wrapu_add_l, Z.add_assoc.
Qed.

Lemma addBuffers_version0 lens : forall c,
  m_version c = 0 -> m_v1BufferTotalLength (addBuffers lens c) = m_v1BufferTotalLength c.
Proof.
  induction lens as [|n lens IH]; intros c Hv; [done|].
  change (addBuffers (n :: lens) c) with (addBuffers lens (addBuffer n c)).
  rewrite IH by done. cbn. by rewrite Hv.
Qed.

Lemma little_endian_inj n : forall x y,
  0 <= x < 256 ^ Z.of_nat n -> 0 <= y < 256 ^ Z.of_nat n -> little_endian n x = little_endian n y -> x = y.
Proof.
  intros x y Hx Hy Heq. rewrite <- (le_value_little_endian n x), <- (le_value_little_endian n y) by done.
  by rewrite Heq.
Qed.

Lemma checksum_bytes_len n c :
  m_version c = 0 \/ m_version c = 1 -> zlen (checksum_bytes n c) = checksumByteSize c.
Proof. unfold checksum_bytes, checksumByteSize. by intros [-> | ->]. Qed.

(** What one end writes for a message. *)
Definition sealed (lens : list Z) (c : ChecksumCalculator) : list Z :=
  checksum_bytes (m_numWrite c) (addBuffers lens c).

Lemma write_sealed lens c :
  idle c ->
  exists c', writeChecksum (checksumByteSize c) (addBuffers lens c) = (Some (sealed lens c), c') /\
    idle c' /\ m_version c' = m_version c /\ m_numRead c' = m_numRead c /\
    m_numWrite c' = u32 (m_numWrite c + 1).
Proof.
  intros [Hv Hl He Hr Hw]. destruct (addBuffers_counts lens c) as (Hv' & Hr' & Hw').
  unfold writeChecksum. unfold checksumByteSize at 1 2. rewrite Hv'.
  rewrite Z.ltb_irrefl. eexists. split; [unfold sealed; rewrite Hw'; reflexivity|]. cbn.
  split; [|by rewrite ?Hv', ?Hr', ?Hw']. constructor; cbn; rewrite ?Hv', ?Hr', ?Hw'; try done.
  - destruct Hv as [Hv|Hv]; rewrite Hv; cbn; [|done]. by rewrite addBuffers_version0.
  - by apply wrapu_range.
Qed.

Lemma validate_spec expected lens c :
  idle c ->
  let '(ok, c') := validate expected (addBuffers lens c) in
  ok = bool_decide (expected = Some <$> checksum_bytes (m_numRead c) (addBuffers lens c)) /\
  idle c' /\ m_version c' = m_version c /\ m_numRead c' = u32 (m_numRead c + 1) /\
  m_numWrite c' = m_numWrite c.
Proof.
  intros [Hv Hl He Hr Hw]. destruct (addBuffers_counts lens c) as (Hv' & Hr' & Hw').
  unfold validate. rewrite Hr'. split; [|split; [|by cbn; rewrite ?Hv', ?Hr', ?Hw']].
  - destruct (bool_decide_reflect (expected = Some <$> checksum_bytes (m_numRead c) (addBuffers lens c)))
      as [->|]; [|by rewrite andb_false_r].
    unfold zlen at 1. rewrite length_fmap. fold (zlen (checksum_bytes (m_numRead c) (addBuffers lens c))).
    rewrite checksum_bytes_len by (by rewrite Hv'). by rewrite Z.eqb_refl.
  - constructor; cbn; rewrite ?Hv', ?Hr', ?Hw'; try done.
    + destruct Hv as [Hv|Hv]; rewrite Hv; cbn; [|done]. by rewrite addBuffers_version0.
    + by apply wrapu_range.
Qed.

Lemma bytes_of_words_inj x y n m :
  in_u 32 x -> in_u 32 y -> in_u 32 n -> in_u 32 m ->
  little_endian 4 x ++ little_endian 4 n = little_endian 4 y ++ little_endian 4 m -> x = y /\ n = m.
Proof.
  unfold in_u. intros Hx Hy Hn Hm [H1 H2]%app_inj_1; [|by rewrite !length_little_endian].
  split; eapply (little_endian_inj 4); cbn; try done; lia.
Qed.

(** The checksum of [lens] by [w] is the one [r] expects after [lens']. *)
Lemma sealed_accepted lens lens' w r :
  idle w -> idle r -> m_version w = 1 -> m_version r = 1 ->
  sealed lens w = checksum_bytes (m_numRead r) (addBuffers lens' r) <->
  u32 (total lens) = u32 (total lens') /\ m_numWrite w = m_numRead r.
Proof.
  intros [_ Hlw _ _ Hww] [_ Hlr _ Hrr _] Hvw Hvr. unfold sealed, checksum_bytes.
  destruct (addBuffers_counts lens w) as (-> & _ & _), (addBuffers_counts lens' r) as (-> & _ & _).
  rewrite Hvw, Hvr. cbn [Z.eqb Pos.eqb].
  unfold computeV1Checksum. rewrite !addBuffers_total by (rewrite ?Hlw, ?Hlr; done).
  rewrite Hlw, Hlr, !Z.add_0_l.
  pose proof (wrapu_range 32 (total lens)) as H1. pose proof (wrapu_range 32 (total lens')) as H2.
  split.
  - intros [Heq Hn]%bytes_of_words_inj; [|destruct H1, H2; by try apply reverse32_range..].
    split; [|done]. apply reverse32_inj; [apply H1; lia|apply H2; lia|done].
  - by intros [-> ->].
Qed.

Lemma sealed_version0 lens w r lens' :
  m_version w = 0 -> m_version r = 0 ->
  sealed lens w = checksum_bytes (m_numRead r) (addBuffers lens' r).
Proof.
  intros Hw Hr. unfold sealed, checksum_bytes.
  by destruct (addBuffers_counts lens w) as (-> & _ & _), (addBuffers_counts lens' r) as (-> & _ & _);
    rewrite Hw, Hr.
Qed.

(** ** A writer and a reader *)

Definition write_message (c : ChecksumCalculator) (lens : list Z) : ChecksumCalculator :=
  (writeChecksum (checksumByteSize c) (addBuffers lens c)).2.

(** A message of lengths [lens] came with the checksum [m.2]. *)
Definition read_message (c : ChecksumCalculator) (m : list Z * list (option Z)) : ChecksumCalculator :=
  (validate m.2 (addBuffers m.1 c)).2.

Definition checksum_v1 : ChecksumCalculator := (setVersion 1 checksum_new).2.

Lemma checksum_new_idle : idle checksum_new.
Proof. constructor; cbn; unfold in_u; auto; lia. Qed.

Lemma checksum_v1_idle : idle checksum_v1.
Proof. constructor; cbn; unfold in_u; auto; lia. Qed.

Lemma u32_succ n : u32 (u32 n + 1) = u32 (n + 1).
Proof. apply wrapu_add_l. Qed.

Lemma written_count ms : forall c, idle c ->
  let c' := foldl write_message c ms in
  idle c' /\ m_version c' = m_version c /\ m_numWrite c' = u32 (m_numWrite c + zlen ms).
Proof.
  induction ms as [|lens ms IH]; intros c Hc.
  - cbn. split; [done|]. split; [done|]. unfold zlen. cbn. rewrite Z.add_0_r, wrapu_id; [done|apply Hc].
  - cbn [foldl]. destruct (write_sealed lens c Hc) as (c1 & Hw & Hc1 & Hv1 & _ & Hn1).
    assert (write_message c lens = c1) as -> by (unfold write_message; by rewrite Hw).
    destruct (IH c1 Hc1) as (? & Hv & Hn). cbv zeta.
    split; [done|]. split; [congruence|]. rewrite Hn, Hn1, wrapu_add_l, zlen_cons. f_equal. lia.
Qed.

Lemma read_count ms : forall c, idle c ->
  let c' := foldl read_message c ms in
  idle c' /\ m_version c' = m_version c /\ m_numRead c' = u32 (m_numRead c + zlen ms).
Proof.
  induction ms as [|m ms IH]; intros c Hc.
  - cbn. split; [done|]. split; [done|]. unfold zlen. cbn. rewrite Z.add_0_r, wrapu_id; [done|apply Hc].
  - cbn [foldl]. pose proof (validate_spec m.2 m.1 c Hc) as Hr. 
    destruct (validate m.2 (addBuffers m.1 c)) as [ok c1] eqn:Hval. destruct Hr as (_ & Hc1 & Hv1 & Hn1 & _).
    assert (read_message c m = c1) as -> by (unfold read_message; by rewrite Hval).
    destruct (IH c1 Hc1) as (? & Hv & Hn). cbv zeta.
    split; [done|]. split; [congruence|]. rewrite Hn, Hn1, wrapu_add_l, zlen_cons. f_equal. lia.
Qed.


