(* ===== verification/GuestStream.v ===== *)
(** * The guest's end of the OpenGL ES connection

    src/android/opengl: [IOStream] (host/include/libOpenglRender/IOStream.h), whose buffer
    collects what is to be sent, [QemuPipeStream] (system/OpenglSystemCommon/), which owns
    the buffer and the pipe, and [HostConnection] (the same folder), which opens it.

    The pipe is lists of answers to [write] and [read], used up one by one.  What can be
    read is a function [host] of all that was sent so far: the reader waits for more of
    it than there is. *)

From S2P Require Import Prelude Utils RenderThread Checksum.

(** ** The connection *)

(** [m_buf] of [IOStream] is null or [m_buf] of [QemuPipeStream], so that a flag tells
    which; the two size members are [io_size] and [q_size]. *)
Record conn := mkConn {
  m_sock : Z;
  has_buf : bool;
  io_size : Z;
  io_free : Z;
  q_size : Z;
  q_buf : option bytes;
  sent : bytes;              (* all the pipe has taken *)
  received : Z;              (* how much was read of the answer *)
  writes : list write_answer;
  reads : list write_answer;
  m_checksumHelper : ChecksumCalculator
}.

Inductive result (A : Type) :=
  | Ret (a : A) (c : conn)
  | Blocked           (* in a system call *)
  | Died.             (* abort, or an access outside the memory *)
Arguments Ret {A} a c.
Arguments Blocked {A}.
Arguments Died {A}.

Definition E (A : Type) : Type := conn -> result A.

#[export] Instance E_ret : MRet E := fun A a c => Ret a c.
#[export] Instance E_bind : MBind E := fun A B f m c =>
  match m c with Ret a c => f a c | Blocked => Blocked | Died => Died end.

Lemma E_bind_run {A B} (m : E A) (f : A -> E B) c :
  (m ≫= f) c = match m c with Ret a c => f a c | Blocked => Blocked | Died => Died end.
Proof. done. Qed.

Lemma E_ret_run {A} (a : A) c : mret (M := E) a c = Ret a c.
Proof. done. Qed.

Definition getc {A} (f : conn -> A) : E A := fun c => Ret (f c) c.
Definition setc (f : conn -> conn) : E unit := fun c => Ret tt (f c).

Definition set_io (b : bool) (size free : Z) (c : conn) : conn :=
  mkConn (m_sock c) b size free (q_size c) (q_buf c) (sent c) (received c) (writes c) (reads c)
    (m_checksumHelper c).
Definition set_memory (size : Z) (m : option bytes) (c : conn) : conn :=
  mkConn (m_sock c) (has_buf c) (io_size c) (io_free c) size m (sent c) (received c) (writes c)
    (reads c) (m_checksumHelper c).
Definition set_sent (l : bytes) (outs : list write_answer) (c : conn) : conn :=
  mkConn (m_sock c) (has_buf c) (io_size c) (io_free c) (q_size c) (q_buf c) l (received c) outs
    (reads c) (m_checksumHelper c).
Definition set_received (n : Z) (ins : list write_answer) (c : conn) : conn :=
  mkConn (m_sock c) (has_buf c) (io_size c) (io_free c) (q_size c) (q_buf c) (sent c) n (writes c)
    ins (m_checksumHelper c).
Definition set_checksum (k : ChecksumCalculator) (c : conn) : conn :=
  mkConn (m_sock c) (has_buf c) (io_size c) (io_free c) (q_size c) (q_buf c) (sent c) (received c)
    (writes c) (reads c) k.

(** ** Answers of the kernel *)

(** At least [n] calls that move something, and between them interruptions only. *)
Inductive supply : Z -> list write_answer -> Prop :=
  | supply_nil n : n <= 0 -> supply n []
  | supply_moves n a l : (forall len, 0 < len -> 0 < (a len).1 <= len) -> supply (n - 1) l -> supply n (a :: l)
  | supply_interrupted n a l :
      (forall len, 0 < len -> (a len).1 < 0 /\ (a len).2 = EINTR) -> supply n l -> supply n (a :: l).

Lemma supply_le n l : supply n l -> forall m, m <= n -> supply m l.
Proof.
  induction 1 as [n Hn|n a l Ha _ IH|n a l Ha _ IH]; intros m Hm.
  - constructor. lia.
  - apply supply_moves; [done|]. apply IH. lia.
  - by apply supply_interrupted; [|apply IH].
Qed.

Section stream.
(** Everything the host answers once it has been sent so much. *)
Variable host : bytes -> list Z.
Variable malloc_ok : Z -> bool.

(** ** QemuPipeStream *)

Definition QemuPipeStream_new (sock bufSize : Z) (outs ins : list write_answer) : conn :=
  mkConn sock false bufSize 0 bufSize None [] 0 outs ins checksum_new.

(** [m_sock >= 0], the method [valid]. *)
Definition is_open (c : conn) : bool := 0 <=? m_sock c.

(** Whether the result is a pointer. *)
Definition allocBuffer (minSize : Z) : E bool := fun c =>
  let allocSize := if q_size c <? minSize then minSize else q_size c in
  let c :=
    match q_buf c with
    | None =>
        set_memory (q_size c)
          (if malloc_ok allocSize then Some (replicate (Z.to_nat allocSize) None) else None) c
    | Some m =>
        if q_size c <? allocSize then
          if malloc_ok allocSize then set_memory allocSize (Some (resized allocSize m)) c
          else set_memory 0 None c
        else c
    end in
  Ret (bool_decide (is_Some (q_buf c))) c.

Inductive loop_end := Finished (retval : Z) | Waiting | Aborting.

(** The loop of [writeFully]: [rest] is what is left to write. *)
Fixpoint write_loop (outs : list write_answer) (rest sent : bytes) :
    loop_end * bytes * list write_answer :=
  if zlen rest <=? 0 then (Finished 0, sent, outs)
  else
    match outs with
    | [] => (Waiting, sent, outs)
    | write :: outs =>
        let '(stat, errno) := write (zlen rest) in
        if 0 <? stat then write_loop outs (zdrop stat rest) (sent ++ ztake stat rest)
        else if stat =? 0 then (Finished (-1), sent, outs)
        else if errno =? EINTR then write_loop outs rest sent
        else (Aborting, sent, outs)
    end.

(** [None] is the null pointer. *)
Definition writeFully (buf : option bytes) (len : Z) : E Z := fun c =>
  if negb (is_open c) then Ret (-1) c
  else
    match buf with
    | None => if 0 <? len then Died else Ret 0 c
    | Some l =>
        if zlen l <? len then Died
        else
          match write_loop (writes c) (ztake len l) (sent c) with
          | (Finished r, l, outs) => Ret r (set_sent l outs c)
          | (Waiting, _, _) => Blocked
          | (Aborting, _, _) => Died
          end
    end.

Definition commitBuffer (size : Z) : E Z := fun c => writeFully (q_buf c) size c.

(** The loop of [readFully]; [there] is what the host has answered and was not read.  The
    result is what was read. *)
Fixpoint read_loop (ins : list write_answer) (res : Z) (there : list Z) :
    loop_end * list Z * list write_answer :=
  if res <=? 0 then (Finished 0, [], ins)
  else
    match ins with
    | [] => (Waiting, [], ins)
    | read :: ins =>
        let '(stat, errno) := read (Z.min res (zlen there)) in
        if stat =? 0 then (Finished (-1), [], ins)
        else if stat <? 0 then
          if errno =? EINTR then read_loop ins res there else (Aborting, [], ins)
        else if zlen there <? stat then (Waiting, [], ins)
        else
          let '(e, got, ins) := read_loop ins (res - stat) (zdrop stat there) in
          (e, ztake stat there ++ got, ins)
    end.

(** What the buffer of [len] bytes holds then. *)
Definition filled (len : Z) (got : list Z) : bytes :=
  (Some <$> got) ++ replicate (Z.to_nat (len - zlen got)) None.

(** The buffer is never null where the callers ask for something. *)
Definition readFully (len : Z) : E bytes := fun c =>
  if negb (is_open c) then Ret (filled len []) c
  else
    match read_loop (reads c) len (zdrop (received c) (host (sent c))) with
    | (Finished _, got, ins) => Ret (filled len got) (set_received (received c + zlen got) ins c)
    | (Waiting, _, _) => Blocked
    | (Aborting, _, _) => Died
    end.

(** ** IOStream *)

Definition flush : E Z := fun c =>
  if negb (has_buf c) || (io_free c =? io_size c) then Ret 0 c
  else
    match commitBuffer (io_size c - io_free c) c with
    | Ret stat c => Ret stat (set_io false (io_size c) 0 c)
    | Blocked => Blocked
    | Died => Died
    end.

(** The pointer, as an offset in the buffer; [None] is the null pointer. *)
Definition alloc (len : Z) : E (option Z) :=
  full ← getc (fun c => has_buf c && (io_free c <? len));
  stat ← (if full : bool then flush else mret 0);
  if stat <? 0 then mret None
  else
    size ← getc io_size;
    none ← getc (fun c => negb (has_buf c) || (io_size c <? len));
    let allocLen := i32 (if size <? len then len else size) in
    ok ← (if none : bool then
            there ← allocBuffer (u64 allocLen);
            setc (fun c => set_io there (io_size c) (io_free c) c) ;;
            (if there : bool then setc (set_io true (u64 allocLen) (u64 allocLen)) else mret tt) ;;
            mret there
          else mret true);
    if (ok : bool) then
      ptr ← getc (fun c => io_size c - io_free c);
      setc (fun c => set_io true (io_size c) (u64 (io_free c - len)) c) ;;
      mret (Some ptr)
    else mret None.

Definition readback (len : Z) : E bytes := flush ;; readFully len.

(** Bytes copied to the buffer, at the offset [at_]. *)
Definition store (at_ : Z) (l : bytes) : E unit := fun c =>
  match q_buf c with
  | Some m => if at_ + zlen l <=? zlen m then Ret tt (set_memory (q_size c) (Some (write_at at_ l m)) c) else Died
  | None => Died
  end.

(** ** HostConnection *)

Definition STREAM_BUFFER_SIZE : Z := 4 * 1024 * 1024.

(** [HostConnection::get] where the thread has none yet; [sock] is what [qemu_pipe_open]
    answers, [None] the failure to connect.  The client's flags go out at once. *)
Definition HostConnection_get (bufSize sock : Z) (outs ins : list write_answer) : option (result unit) :=
  let con := QemuPipeStream_new sock bufSize outs ins in
  if negb (is_open con) then None
  else
    Some ((there ← allocBuffer 4;
           if (there : bool) then store 0 (Some <$> little_endian 4 0) ;; commitBuffer 4 ;; mret tt
           else fun _ => Died) con).

(** ** The system calls *)

Lemma write_loop_ok outs : forall rest n sent,
  supply (zlen rest + n) outs -> 0 <= n ->
  exists outs', write_loop outs rest sent = (Finished 0, sent ++ rest, outs') /\ supply n outs'.
Proof.
  induction outs as [|a outs IH]; intros rest n sent Hs Hn; cbn [write_loop];
    destruct (Z.leb_spec (zlen rest) 0) as [Hz|Hz].
  1, 3: rewrite (zlen_nil_inv rest), app_nil_r by done; eexists; split; [done|];
    pose proof (zlen_nonneg rest); eapply supply_le; [exact Hs|lia].
  - inversion Hs. lia.
  - inversion Hs as [|? ? ? Ha Hs'|? ? ? Ha Hs']; subst; specialize (Ha (zlen rest) Hz);
      destruct (a (zlen rest)) as [stat errno]; cbn in Ha.
    + replace (0 <? stat) with true by lia.
      destruct (IH (zdrop stat rest) n (sent ++ ztake stat rest)) as (outs' & -> & ?).
      * eapply supply_le; [exact Hs'|]. rewrite zlen_zdrop; lia.
      * done.
      * exists outs'. by rewrite <- app_assoc, ztake_zdrop.
    + destruct Ha as [Hneg ->]. replace (0 <? stat) with false by lia.
      replace (stat =? 0) with false by lia. rewrite Z.eqb_refl. by apply IH.
Qed.

Lemma read_loop_fills ins : forall l more n,
  supply (zlen l + n) ins -> 0 <= n ->
  exists ins', read_loop ins (zlen l) (l ++ more) = (Finished 0, l, ins') /\ supply n ins'.
Proof.
  induction ins as [|a ins IH]; intros l more n Hs Hn; cbn [read_loop];
    destruct (Z.leb_spec (zlen l) 0) as [Hz|Hz].
  1, 3: rewrite (zlen_nil_inv l) by done; eexists; split; [done|];
    pose proof (zlen_nonneg l); eapply supply_le; [exact Hs|lia].
  - inversion Hs. lia.
  - assert (Hmin : Z.min (zlen l) (zlen (l ++ more)) = zlen l).
    { rewrite zlen_app. pose proof (zlen_nonneg more). lia. }
    rewrite Hmin. inversion Hs as [|? ? ? Ha Hs'|? ? ? Ha Hs']; subst; specialize (Ha (zlen l) Hz);
      destruct (a (zlen l)) as [stat errno]; cbn in Ha.
    + replace (stat =? 0) with false by lia. replace (stat <? 0) with false by lia.
      rewrite zlen_app. pose proof (zlen_nonneg more).
      replace (zlen l + zlen more <? stat) with false by lia.
      assert (Hlen : zlen l - stat = zlen (zdrop stat l)) by (rewrite zlen_zdrop; lia).
      assert (Hdrop : zdrop stat (l ++ more) = zdrop stat l ++ more).
      { unfold zdrop. rewrite drop_app_le; [done|unfold zlen in *; lia]. }
      rewrite Hlen, Hdrop. destruct (IH (zdrop stat l) more n) as (ins' & -> & ?).
      * eapply supply_le; [exact Hs'|]. lia.
      * done.
      * exists ins'. rewrite ztake_app_le by lia. by rewrite ztake_zdrop.
    + destruct Ha as [Hneg ->]. replace (stat =? 0) with false by lia.
      replace (stat <? 0) with true by lia. rewrite Z.eqb_refl. by apply IH.
Qed.

(** ** The invariant *)

(** What was allocated and not sent yet. *)
Definition pending (c : conn) : bytes :=
  match q_buf c with
  | Some m => if has_buf c then ztake (io_size c - io_free c) m else []
  | None => []
  end.

(** All that the pipe has and will get. *)
Definition wire (c : conn) : bytes := sent c ++ pending c.

(** [wb] more bytes can be written and [rb] read. *)
Record conn_ok (wb rb : Z) (c : conn) : Prop := {
  ok_sock : 0 <= m_sock c;
  ok_size : 0 < io_size c < 2 ^ 31;
  ok_qsize : 0 <= q_size c < 2 ^ 31;
  ok_memory : match q_buf c with Some m => q_size c <= zlen m | None => True end;
  ok_buf : has_buf c = true ->
    exists m, q_buf c = Some m /\ io_size c <= zlen m /\ 0 <= io_free c <= io_size c;
  ok_wb : 0 <= wb;
  ok_rb : 0 <= rb;
  ok_writes : supply (zlen (pending c) + wb) (writes c);
  ok_reads : supply rb (reads c)
}.

Lemma pending_buf m c :
  q_buf c = Some m -> has_buf c = true -> io_size c <= zlen m -> 0 <= io_free c <= io_size c ->
  zlen (pending c) = io_size c - io_free c.
Proof. intros Hm Hb Hl Hf. unfold pending. rewrite Hm, Hb. apply zlen_ztake. lia. Qed.

(** [c'] differs from [c] in what is on the way only. *)
Definition same_rest (c c' : conn) : Prop :=
  received c' = received c /\ m_checksumHelper c' = m_checksumHelper c.

Lemma writeFully_ok wb rb l c :
  conn_ok (zlen l + wb) rb c -> 0 <= wb -> pending c = [] ->
  exists c', writeFully (Some l) (zlen l) c = Ret 0 c' /\ conn_ok wb rb c' /\
    sent c' = sent c ++ l /\ pending c' = [] /\ same_rest c c' /\ has_buf c' = has_buf c.
Proof.
  intros [] Hwb Hp. unfold writeFully, is_open. replace (0 <=? m_sock c) with true by lia.
  cbn [negb]. rewrite Z.ltb_irrefl, (ztake_all (zlen l)) by lia.
  destruct (write_loop_ok (writes c) l wb (sent c)) as (outs' & Hw & Ho); [|done|].
  { eapply supply_le; [exact ok_writes0|]. rewrite Hp. unfold zlen. cbn. lia. }
  rewrite Hw. eexists. split; [reflexivity|].
  assert (Hp' : pending (set_sent (sent c ++ l) outs' c) = []) by exact Hp.
  split; [|split_and!; try done]. constructor; try done. by rewrite Hp'.
Qed.

Lemma flush_ok wb rb c :
  conn_ok wb rb c ->
  exists c', flush c = Ret 0 c' /\ conn_ok wb rb c' /\ sent c' = wire c /\ pending c' = [] /\
    same_rest c c' /\ (has_buf c' = true -> io_free c' = io_size c').
Proof.
  intros Hc. pose proof Hc as []. unfold flush.
  destruct (has_buf c) eqn:Hb; cbn [negb orb].
  2: { assert (Hp : pending c = []) by (unfold pending; rewrite Hb; by destruct (q_buf c)).
       exists c. unfold wire. rewrite Hp, app_nil_r. split_and!; try done. by rewrite Hb. }
  destruct (ok_buf0 eq_refl) as (m & Hm & Hl & Hf).
  pose proof (pending_buf m c Hm Hb Hl Hf) as Hlen.
  destruct (Z.eqb_spec (io_free c) (io_size c)) as [He|Hne].
  { assert (Hp : pending c = []) by (apply zlen_nil_inv; lia).
    exists c. unfold wire. rewrite Hp, app_nil_r. split_and!; done. }
  unfold commitBuffer. rewrite Hm. unfold writeFully, is_open.
  replace (0 <=? m_sock c) with true by lia. cbn [negb].
  replace (zlen m <? io_size c - io_free c) with false by lia.
  assert (Hpend : ztake (io_size c - io_free c) m = pending c) by (unfold pending; by rewrite Hm, Hb).
  rewrite Hpend.
  destruct (write_loop_ok (writes c) (pending c) wb (sent c)) as (outs' & -> & Ho); [done|done|].
  eexists. split; [reflexivity|].
  set (c' := set_io _ _ _ _). assert (Hp' : pending c' = []) by (unfold pending; cbn; by rewrite Hm).
  split_and!; try done. constructor; try done. by rewrite Hp'.
Qed.

Lemma readFully_ok wb rb l more c :
  conn_ok wb (zlen l + rb) c -> 0 <= rb ->
  zdrop (received c) (host (sent c)) = l ++ more ->
  exists c', readFully (zlen l) c = Ret (Some <$> l) c' /\ conn_ok wb rb c' /\
    sent c' = sent c /\ pending c' = pending c /\ received c' = received c + zlen l /\
    m_checksumHelper c' = m_checksumHelper c.
Proof.
  intros [] Hrb Hh. unfold readFully, is_open. replace (0 <=? m_sock c) with true by lia.
  cbn [negb]. rewrite Hh.
  destruct (read_loop_fills (reads c) l more rb) as (ins' & -> & Hi); [done|done|].
  eexists. split.
  { f_equal. unfold filled. rewrite Z.sub_diag. cbn. by rewrite app_nil_r. }
  split_and!; try done.
Qed.

Lemma readback_ok wb rb l more c :
  conn_ok wb (zlen l + rb) c -> 0 <= rb ->
  zdrop (received c) (host (wire c)) = l ++ more ->
  exists c', readback (zlen l) c = Ret (Some <$> l) c' /\ conn_ok wb rb c' /\
    sent c' = wire c /\ pending c' = [] /\ received c' = received c + zlen l /\
    m_checksumHelper c' = m_checksumHelper c.
Proof.
  intros Hc Hrb Hh. destruct (flush_ok _ _ c Hc) as (c1 & Hf & Hc1 & Hs1 & Hp1 & [Hr1 Hk1] & _).
  destruct (readFully_ok wb rb l more c1) as (c2 & Hread & Hc2 & Hs2 & Hp2 & Hr2 & Hk2);
    [done|done|by rewrite Hr1, Hs1|].
  exists c2. unfold readback. rewrite E_bind_run, Hf, Hread. split_and!; try done; congruence.
Qed.

(** ** The buffer *)

Hypothesis malloc_works : forall n, 0 <= n < 2 ^ 31 -> malloc_ok n = true.

Lemma zlen_resized n m : 0 <= n -> zlen m <= n -> zlen (resized n m) = n.
Proof.
  intros Hn Hm. unfold resized. rewrite zlen_app, ztake_all, zlen_replicate by lia. lia.
Qed.

Lemma allocBuffer_ok minimum c :
  0 <= minimum < 2 ^ 31 -> 0 <= q_size c < 2 ^ 31 ->
  match q_buf c with Some m => q_size c <= zlen m | None => True end ->
  exists c' m, allocBuffer minimum c = Ret true c' /\ q_buf c' = Some m /\
    minimum <= zlen m /\ q_size c' <= zlen m /\ 0 <= q_size c' < 2 ^ 31 /\
    c' = set_memory (q_size c') (Some m) c.
Proof.
  intros Hmin Hq Hm. unfold allocBuffer.
  set (size := if q_size c <? minimum then minimum else q_size c).
  assert (Hsize : minimum <= size /\ q_size c <= size < 2 ^ 31) by (unfold size; destruct (Z.ltb_spec (q_size c) minimum); lia).
  rewrite (malloc_works size) by lia.
  destruct (q_buf c) as [m|] eqn:Hb.
  - destruct (Z.ltb_spec (q_size c) size) as [Hlt|Hge].
    + eexists _, _. split; [reflexivity|]. split; [reflexivity|]. cbn.
      assert (size <= zlen (resized size m)).
      { unfold resized. rewrite zlen_app. destruct (Z.le_gt_cases size (zlen m)).
        - rewrite zlen_ztake by lia. match goal with |- _ <= _ + ?x => assert (0 <= x) by apply zlen_nonneg end. lia.
        - rewrite ztake_all, zlen_replicate by lia. lia. }
      split_and!; lia || done.
    + eexists _, m. rewrite Hb. split; [reflexivity|]. split_and!; try done; try lia. by destruct c; cbn in *; subst.
  - eexists _, _. split; [reflexivity|]. split; [reflexivity|]. cbn.
    rewrite zlen_replicate by lia. split_and!; lia || done.
Qed.

(** Room for [len] bytes, whose contents are as they happen to be. *)
Lemma alloc_gives wb rb len c :
  conn_ok (len + wb) rb c -> 0 <= len < 2 ^ 31 -> 0 <= wb ->
  exists ptr c' p g, alloc len c = Ret (Some ptr) c' /\ conn_ok wb rb c' /\
    pending c' = p ++ g /\ zlen p = ptr /\ zlen g = len /\ has_buf c' = true /\
    wire c' = wire c ++ g /\ same_rest c c'.
Proof.
  intros Hc Hlen Hwb. unfold alloc.
  (* what is free after the flush *)
  assert (exists c1, (if has_buf c && (io_free c <? len) then flush else mret 0) c = Ret 0 c1 /\
    conn_ok (len + wb) rb c1 /\ wire c1 = wire c /\ same_rest c c1 /\
    (has_buf c1 = true -> io_free c1 = io_size c1 \/ len <= io_free c1)) as (c1 & H1 & Hc1 & Hw1 & Hr1 & Hf1).
  { destruct (has_buf c && (io_free c <? len)) eqn:Hfull.
    - destruct (flush_ok _ _ c Hc) as (c1 & Hf & Hc1 & Hs1 & Hp1 & Hr1 & He1).
      exists c1. split_and!; try done; [unfold wire at 1; by rewrite Hp1, app_nil_r|apply Hr1..|].
      intros Hb. left. by apply He1.
    - exists c. split_and!; try done. intros Hb. rewrite Hb in Hfull. cbn in Hfull. lia. }
  rewrite E_bind_run. unfold getc at 1. rewrite E_bind_run, H1. cbn [Z.ltb Z.compare].
  rewrite E_bind_run. unfold getc at 1. rewrite E_bind_run. unfold getc at 1. cbv zeta.
  clear H1. pose proof Hc1 as [].
  assert (Hi32 : i32 (if io_size c1 <? len then len else io_size c1) =
    Z.max len (io_size c1)).
  { destruct (Z.ltb_spec (io_size c1) len); (rewrite wraps_id; [|lia|unfold in_s]); lia. }
  rewrite Hi32. rewrite (wrapu_id 64) by (unfold in_u; lia). rewrite E_bind_run.
  assert (exists c2 m, (if negb (has_buf c1) || (io_size c1 <? len)
    then there ← allocBuffer (Z.max len (io_size c1));
         setc (fun c => set_io there (io_size c) (io_free c) c) ;;
         (if there : bool then setc (set_io true (Z.max len (io_size c1)) (Z.max len (io_size c1))) else mret tt) ;;
         mret there
    else mret true) c1 = Ret true c2 /\ q_buf c2 = Some m /\ has_buf c2 = true /\
      len <= io_free c2 <= io_size c2 /\ io_size c2 <= zlen m /\ 0 < io_size c2 < 2 ^ 31 /\
      pending c2 = pending c1 /\ sent c2 = sent c1 /\ q_size c2 <= zlen m /\ 0 <= q_size c2 < 2 ^ 31 /\
      m_sock c2 = m_sock c1 /\ writes c2 = writes c1 /\ reads c2 = reads c1 /\ same_rest c1 c2)
    as (c2 & m & -> & Hm & Hb & Hfree & Hle & Hsize & Hp2 & Hs2 & Hq2 & Hq2' & Hk2 & Hwr2 & Hrd2 & Hr2).
  { destruct (negb (has_buf c1) || (io_size c1 <? len)) eqn:Hnone.
    - destruct (allocBuffer_ok (Z.max len (io_size c1)) c1) as (c2 & m & Ha & Hm & Hlm & Hql & Hqr & He);
        [lia|done|done|].
      rewrite E_bind_run, Ha. eexists _, m. split; [reflexivity|]. cbn.
      rewrite He. cbn. split_and!; try done; try lia.
      assert (Hp1 : pending c1 = []).
      { destruct (has_buf c1) eqn:Hb1; [|unfold pending; rewrite Hb1; by destruct (q_buf c1)].
        destruct (ok_buf0 eq_refl) as (m1 & Hm1 & Hl1 & Hf1'). cbn in Hnone.
        apply zlen_nil_inv. rewrite (pending_buf m1) by done. specialize (Hf1 eq_refl). lia. }
      rewrite Hp1. unfold pending. cbn. rewrite Z.sub_diag. by apply ztake_nonpos.
    - apply orb_false_elim in Hnone as [Hb%negb_false_iff Hlt%Z.ltb_ge].
      destruct (ok_buf0 Hb) as (m & Hm & Hl & Hf). specialize (Hf1 Hb). rewrite Hm in ok_memory0.
      exists c1, m. split_and!; done || lia. }
  cbn [andb]. set (c3 := set_io true (io_size c2) (u64 (io_free c2 - len)) c2).
  assert (Hfree3 : u64 (io_free c2 - len) = io_free c2 - len) by (apply wrapu_id; unfold in_u; lia).
  assert (Hp3 : pending c3 = pending c2 ++ ztake len (zdrop (io_size c2 - io_free c2) m)).
  { unfold pending, c3. cbn. rewrite Hm, Hb, Hfree3, <- ztake_add by lia. f_equal. lia. }
  assert (Hg : zlen (ztake len (zdrop (io_size c2 - io_free c2) m)) = len).
  { rewrite zlen_ztake; [done|]. rewrite zlen_zdrop; lia. }
  exists (io_size c2 - io_free c2), c3, (pending c2), (ztake len (zdrop (io_size c2 - io_free c2) m)).
  split; [reflexivity|]. split.
  { constructor; cbn; rewrite ?Hfree3, ?Hm, ?Hwr2, ?Hrd2; try done; try lia.
    - intros _. exists m. split_and!; done || lia.
    - eapply supply_le; [exact ok_writes0|]. rewrite Hp3, Hp2, zlen_app, Hg. lia. }
  split; [done|]. split; [rewrite (pending_buf m); done || lia|]. split; [done|]. split; [done|]. split.
  - unfold wire. rewrite Hp3, Hp2. change (sent c3) with (sent c2). rewrite Hs2, app_assoc.
    f_equal. exact Hw1.
  - destruct Hr1, Hr2. unfold same_rest. cbn. split; congruence.
Qed.

(** Bytes stored where [b] was. *)
Lemma store_puts wb rb p b g l c :
  conn_ok wb rb c -> pending c = p ++ b ++ g -> zlen b = zlen l -> has_buf c = true ->
  exists c', store (zlen p) l c = Ret tt c' /\ conn_ok wb rb c' /\ pending c' = p ++ l ++ g /\
    sent c' = sent c /\ has_buf c' = true /\ same_rest c c'.
Proof.
  intros [] Hp Hlen Hb. destruct (ok_buf0 Hb) as (m & Hm & Hl & Hf).
  pose proof (pending_buf m c Hm Hb Hl Hf) as Hn. rewrite Hp, !zlen_app in Hn.
  pose proof (zlen_nonneg g). pose proof (zlen_nonneg p). pose proof (zlen_nonneg l).
  unfold store. rewrite Hm. replace (zlen p + zlen l <=? zlen m) with true by lia.
  set (c' := set_memory (q_size c) (Some (write_at (zlen p) l m)) c).
  assert (Hwl : zlen (write_at (zlen p) l m) = zlen m) by (apply write_at_len; lia).
  assert (Hp' : pending c' = p ++ l ++ g).
  { unfold pending, c'. cbn. rewrite Hb.
    assert (Hm' : m = (p ++ b ++ g) ++ zdrop (io_size c - io_free c) m).
    { rewrite <- Hp. unfold pending. by rewrite Hm, Hb, ztake_zdrop. }
    set (t := zdrop (io_size c - io_free c) m) in *.
    assert (Hw : write_at (zlen p) l m = (p ++ l ++ g) ++ t).
    { unfold write_at. rewrite Hm' at 1 2. rewrite <- !app_assoc, ztake_app_exact. f_equal. f_equal.
      rewrite (app_assoc p b). apply zdrop_app_eq. rewrite zlen_app. lia. }
    rewrite Hw. apply ztake_app_eq. rewrite !zlen_app. lia. }
  exists c'. split; [done|]. split_and!; try done. constructor; try done.
  - cbn. rewrite Hm in ok_memory0. lia.
  - intros _. eexists. split; [done|]. cbn. lia.
  - rewrite Hp', !zlen_app. rewrite Hp, !zlen_app in ok_writes0. by rewrite <- Hlen.
Qed.
End stream.
