(* ===== verification/RenderControlEnc.v ===== *)
(** * The guest's encoder of the render control

    src/android/opengl/system/renderControl_enc/renderControl_enc.cpp, one definition per
    function.  All of them put together a packet in the stream's buffer: the number of the
    function, the number of bytes of the packet, the arguments, and the checksum, if there
    is one.  A buffer that the host fills is an argument too, by its length, and the size of
    the packet counts its bytes although none are sent for it: a packet ends with as many
    bytes as happen to be in the buffer.  Then the answer is read: the buffers, the result,
    the checksum.  A function returns what it read, the result last.

    [glUtilsPixelBitSize] is in shared/OpenglCodecCommon/glUtils.cpp. *)

From S2P Require Import Prelude Utils RenderThread Checksum GuestStream Gl.

(** ** The size of a pixel *)

Definition GL_BYTE : Z := 0x1400.
Definition GL_SHORT : Z := 0x1402.
Definition GL_UNSIGNED_SHORT : Z := 0x1403.
Definition GL_INT : Z := 0x1404.
Definition GL_UNSIGNED_INT : Z := 0x1405.
Definition GL_FIXED : Z := 0x140C.
Definition GL_UNSIGNED_SHORT_4_4_4_4 : Z := 0x8033.
Definition GL_UNSIGNED_SHORT_5_5_5_1 : Z := 0x8034.
Definition GL_UNSIGNED_SHORT_5_6_5 : Z := 0x8363.
Definition GL_UNSIGNED_INT_24_8_OES : Z := 0x84FA.
Definition GL_ALPHA : Z := 0x1906.
Definition GL_LUMINANCE : Z := 0x1909.
Definition GL_LUMINANCE_ALPHA : Z := 0x190A.
Definition GL_DEPTH_COMPONENT : Z := 0x1902.
Definition GL_DEPTH_STENCIL_OES : Z := 0x84F9.
Definition GL_BGRA_EXT : Z := 0x80E1.

Definition is_one_of (x : Z) (l : list Z) : bool := existsb (Z.eqb x) l.

(** The parameters are [GLenum]s. *)
Definition glUtilsPixelBitSize (p_format p_type : Z) : Z :=
  let format := u32 p_format in
  let type := u32 p_type in
  let componentsize := if is_one_of type [GL_BYTE; GL_UNSIGNED_BYTE] then 8 else 0 in
  let pixelsize :=
    if is_one_of type [GL_SHORT; GL_UNSIGNED_SHORT; GL_UNSIGNED_SHORT_5_6_5; GL_UNSIGNED_SHORT_4_4_4_4;
         GL_UNSIGNED_SHORT_5_5_5_1; GL_RGB565_OES; GL_RGB5_A1_OES; GL_RGBA4_OES] then 16
    else if is_one_of type [GL_INT; GL_UNSIGNED_INT; GL_FLOAT; GL_FIXED; GL_UNSIGNED_INT_24_8_OES] then 32
    else 0 in
  if pixelsize =? 0 then
    let components :=
      if is_one_of format [GL_ALPHA; GL_LUMINANCE; GL_DEPTH_COMPONENT; GL_DEPTH_STENCIL_OES] then 1
      else if is_one_of format [GL_LUMINANCE_ALPHA] then 2
      else if is_one_of format [GL_RGB] then 3
      else if is_one_of format [GL_RGBA; GL_BGRA_EXT] then 4
      else 0 in
    components * componentsize
  else pixelsize.

(** [__size_pixels], of a signed product that wraps around. *)
Definition size_pixels (width height format type : Z) : Z :=
  u32 (i32 (Z.shiftr (i32 (glUtilsPixelBitSize format type * width)) 3 * height)).

(** ** Numbers of the functions *)

Definition OP_rcGetRendererVersion : Z := 10000.
Definition OP_rcGetEGLVersion : Z := 10001.
Definition OP_rcQueryEGLString : Z := 10002.
Definition OP_rcGetGLString : Z := 10003.
Definition OP_rcGetNumConfigs : Z := 10004.
Definition OP_rcGetConfigs : Z := 10005.
Definition OP_rcChooseConfig : Z := 10006.
Definition OP_rcGetFBParam : Z := 10007.
Definition OP_rcCreateContext : Z := 10008.
Definition OP_rcDestroyContext : Z := 10009.
Definition OP_rcCreateWindowSurface : Z := 10010.
Definition OP_rcDestroyWindowSurface : Z := 10011.
Definition OP_rcCreateColorBuffer : Z := 10012.
Definition OP_rcOpenColorBuffer : Z := 10013.
Definition OP_rcCloseColorBuffer : Z := 10014.
Definition OP_rcSetWindowColorBuffer : Z := 10015.
Definition OP_rcFlushWindowColorBuffer : Z := 10016.
Definition OP_rcMakeCurrent : Z := 10017.
Definition OP_rcFBPost : Z := 10018.
Definition OP_rcFBSetSwapInterval : Z := 10019.
Definition OP_rcBindTexture : Z := 10020.
Definition OP_rcBindRenderbuffer : Z := 10021.
Definition OP_rcColorBufferCacheFlush : Z := 10022.
Definition OP_rcReadColorBuffer : Z := 10023.
Definition OP_rcUpdateColorBuffer : Z := 10024.
Definition OP_rcOpenColorBuffer2 : Z := 10025.
Definition OP_rcCreateClientImage : Z := 10026.
Definition OP_rcDestroyClientImage : Z := 10027.
Definition OP_rcSelectChecksumCalculator : Z := 10028.
Definition OP_rcGetNumDisplays : Z := 10029.
Definition OP_rcGetDisplayWidth : Z := 10030.
Definition OP_rcGetDisplayHeight : Z := 10031.
Definition OP_rcGetDisplayDpiX : Z := 10032.
Definition OP_rcGetDisplayDpiY : Z := 10033.
Definition OP_rcGetDisplayVsyncPeriod : Z := 10034.
Definition OP_rcPostLayer : Z := 10035.
Definition OP_rcPostAllLayersDone : Z := 10036.

(** ** Packets *)

Section encoder.
Variable host : bytes -> list Z.
Variable malloc_ok : Z -> bool.

(** What is copied to the packet: four bytes of an integer, or [n] bytes from memory. *)
Inductive field := Word (z : Z) | Mem (l : bytes) (n : Z).

Definition died {A} : E A := fun _ => Died.

(** The new [ptr]. *)
Fixpoint put (ptr : Z) (fs : list field) : E Z :=
  match fs with
  | [] => mret ptr
  | Word z :: fs => store ptr (Some <$> little_endian 4 z) ;; put (ptr + 4) fs
  | Mem l n :: fs => if zlen l <? n then died else store ptr (ztake n l) ;; put (ptr + n) fs
  end.

(** [if (useChecksum) ...] *)
Definition with_checksum {A} (otherwise : A) (f : ChecksumCalculator -> E A) : E A :=
  k ← getc m_checksumHelper;
  if 0 <? m_version k then f k else mret otherwise.

Definition add (len : Z) : E unit :=
  with_checksum tt (fun k => setc (set_checksum (addBuffer len k))).

(** The checksum, written at [ptr]. *)
Definition seal (ptr : Z) : E unit :=
  with_checksum tt (fun k =>
    let '(out, k) := writeChecksum (checksumByteSize k) k in
    setc (set_checksum k) ;;
    match out with Some out => store ptr (Some <$> out) | None => mret tt end).

(** What every function but one begins with. *)
Definition packet (op sizeWithoutChecksum : Z) (fs : list field) : E unit :=
  checksumSize ← getc (fun c => checksumByteSize (m_checksumHelper c));
  let totalSize := u64 (sizeWithoutChecksum + checksumSize) in
  buf ← alloc malloc_ok totalSize;
  match buf with
  | None => died
  | Some buf =>
      ptr ← put buf (Word op :: Word totalSize :: fs);
      add (ptr - buf) ;; seal ptr
  end.

(** [len] bytes of the answer. *)
Definition reply (len : Z) : E bytes :=
  l ← readback host len; add len ;; mret l.

Definition check_reply : E unit :=
  with_checksum tt (fun k =>
    l ← readback host (checksumByteSize k);
    k ← getc m_checksumHelper;
    let '(ok, k) := validate l k in
    setc (set_checksum k) ;;
    (if ok : bool then mret tt else died)).

(** ** The functions *)

Definition rcGetRendererVersion_enc : E (list bytes) :=
  packet OP_rcGetRendererVersion (8) [] ;;
  retval ← reply 4; check_reply ;; mret [retval].

Definition rcGetEGLVersion_enc : E (list bytes) :=
  let size_major := 4 in
  let size_minor := 4 in
  packet OP_rcGetEGLVersion (u32 (8 + size_major + size_minor + 2 * 4)) [Word size_major; Word size_minor] ;;
  major ← reply size_major; minor ← reply size_minor;
  retval ← reply 4; check_reply ;; mret [major; minor; retval].

Definition rcQueryEGLString_enc (name bufferSize : Z) : E (list bytes) :=
  let size_buffer := u32 bufferSize in
  packet OP_rcQueryEGLString (u32 (8 + 4 + size_buffer + 4 + 1 * 4))
    [Word name; Word size_buffer; Word bufferSize] ;;
  buffer ← reply size_buffer;
  retval ← reply 4; check_reply ;; mret [buffer; retval].

Definition rcGetGLString_enc (name bufferSize : Z) : E (list bytes) :=
  let size_buffer := u32 bufferSize in
  packet OP_rcGetGLString (u32 (8 + 4 + size_buffer + 4 + 1 * 4))
    [Word name; Word size_buffer; Word bufferSize] ;;
  buffer ← reply size_buffer;
  retval ← reply 4; check_reply ;; mret [buffer; retval].

Definition rcGetNumConfigs_enc : E (list bytes) :=
  let size_numAttribs := 4 in
  packet OP_rcGetNumConfigs (u32 (8 + size_numAttribs + 1 * 4)) [Word size_numAttribs] ;;
  numAttribs ← reply size_numAttribs;
  retval ← reply 4; check_reply ;; mret [numAttribs; retval].

Definition rcGetConfigs_enc (bufSize : Z) : E (list bytes) :=
  let size_buffer := u32 bufSize in
  packet OP_rcGetConfigs (u32 (8 + 4 + size_buffer + 1 * 4)) [Word bufSize; Word size_buffer] ;;
  buffer ← reply size_buffer;
  retval ← reply 4; check_reply ;; mret [buffer; retval].

(** [attribs] is the memory there, [configs] whether it is not null. *)
Definition rcChooseConfig_enc (attribs : bytes) (attribs_size : Z) (configs : bool) (configs_size : Z) :
    E (list bytes) :=
  let size_attribs := u32 attribs_size in
  let size_configs := if configs then u32 (configs_size * 4) else 0 in
  packet OP_rcChooseConfig (u32 (8 + size_attribs + 4 + size_configs + 4 + 2 * 4))
    [Word size_attribs; Mem attribs size_attribs; Word attribs_size; Word size_configs;
     Word configs_size] ;;
  buffers ← (if configs then l ← reply size_configs; mret [l] else mret []);
  retval ← reply 4; check_reply ;; mret (buffers ++ [retval]).

Definition rcGetFBParam_enc (param : Z) : E (list bytes) :=
  packet OP_rcGetFBParam (8 + 4) [Word param] ;;
  retval ← reply 4; check_reply ;; mret [retval].

Definition rcCreateContext_enc (config share glVersion : Z) : E (list bytes) :=
  packet OP_rcCreateContext (8 + 4 + 4 + 4) [Word config; Word share; Word glVersion] ;;
  retval ← reply 4; check_reply ;; mret [retval].

Definition rcDestroyContext_enc (context : Z) : E (list bytes) :=
  packet OP_rcDestroyContext (8 + 4) [Word context] ;; mret [].

Definition rcCreateWindowSurface_enc (config width height : Z) : E (list bytes) :=
  packet OP_rcCreateWindowSurface (8 + 4 + 4 + 4) [Word config; Word width; Word height] ;;
  retval ← reply 4; check_reply ;; mret [retval].

Definition rcDestroyWindowSurface_enc (windowSurface : Z) : E (list bytes) :=
  packet OP_rcDestroyWindowSurface (8 + 4) [Word windowSurface] ;; mret [].

Definition rcCreateColorBuffer_enc (width height internalFormat : Z) : E (list bytes) :=
  packet OP_rcCreateColorBuffer (8 + 4 + 4 + 4) [Word width; Word height; Word internalFormat] ;;
  retval ← reply 4; check_reply ;; mret [retval].

Definition rcOpenColorBuffer_enc (colorbuffer : Z) : E (list bytes) :=
  packet OP_rcOpenColorBuffer (8 + 4) [Word colorbuffer] ;; mret [].

Definition rcCloseColorBuffer_enc (colorbuffer : Z) : E (list bytes) :=
  packet OP_rcCloseColorBuffer (8 + 4) [Word colorbuffer] ;;
  flush ;; mret [].

Definition rcSetWindowColorBuffer_enc (windowSurface colorBuffer : Z) : E (list bytes) :=
  packet OP_rcSetWindowColorBuffer (8 + 4 + 4) [Word windowSurface; Word colorBuffer] ;; mret [].

Definition rcFlushWindowColorBuffer_enc (windowSurface : Z) : E (list bytes) :=
  packet OP_rcFlushWindowColorBuffer (8 + 4) [Word windowSurface] ;;
  retval ← reply 4; check_reply ;; mret [retval].

Definition rcMakeCurrent_enc (context drawSurf readSurf : Z) : E (list bytes) :=
  packet OP_rcMakeCurrent (8 + 4 + 4 + 4) [Word context; Word drawSurf; Word readSurf] ;;
  retval ← reply 4; check_reply ;; mret [retval].

Definition rcFBPost_enc (colorBuffer : Z) : E (list bytes) :=
  packet OP_rcFBPost (8 + 4) [Word colorBuffer] ;; mret [].

Definition rcFBSetSwapInterval_enc (interval : Z) : E (list bytes) :=
  packet OP_rcFBSetSwapInterval (8 + 4) [Word interval] ;; mret [].

Definition rcBindTexture_enc (colorBuffer : Z) : E (list bytes) :=
  packet OP_rcBindTexture (8 + 4) [Word colorBuffer] ;; mret [].

Definition rcBindRenderbuffer_enc (colorBuffer : Z) : E (list bytes) :=
  packet OP_rcBindRenderbuffer (8 + 4) [Word colorBuffer] ;; mret [].

Definition rcColorBufferCacheFlush_enc (colorbuffer postCount forRead : Z) : E (list bytes) :=
  packet OP_rcColorBufferCacheFlush (8 + 4 + 4 + 4) [Word colorbuffer; Word postCount; Word forRead] ;;
  retval ← reply 4; check_reply ;; mret [retval].

Definition rcReadColorBuffer_enc (colorbuffer x y width height format type : Z) : E (list bytes) :=
  let size := size_pixels width height format type in
  packet OP_rcReadColorBuffer (u32 (8 + 4 + 4 + 4 + 4 + 4 + 4 + 4 + size + 1 * 4))
    [Word colorbuffer; Word x; Word y; Word width; Word height; Word format; Word type; Word size] ;;
  pixels ← reply size; check_reply ;; mret [pixels].

(** The pixels do not go through the buffer. *)
Definition rcUpdateColorBuffer_enc (colorbuffer x y width height format type : Z)
    (pixels : option bytes) : E (list bytes) :=
  let size := size_pixels width height format type in
  checksumSize ← getc (fun c => checksumByteSize (m_checksumHelper c));
  let totalSize := u64 (u32 (8 + 4 + 4 + 4 + 4 + 4 + 4 + 4 + size + 1 * 4) + checksumSize) in
  buf ← alloc malloc_ok (8 + 4 + 4 + 4 + 4 + 4 + 4 + 4);
  match buf with
  | None => died
  | Some buf =>
      ptr ← put buf [Word OP_rcUpdateColorBuffer; Word totalSize; Word colorbuffer; Word x; Word y;
                     Word width; Word height; Word format; Word type];
      add (ptr - buf) ;;
      flush ;;
      writeFully (Some (Some <$> little_endian 4 size)) 4 ;; add 4 ;;
      writeFully pixels size ;; add size ;;
      buf ← alloc malloc_ok checksumSize;
      match buf with
      | None => with_checksum tt (fun _ => died)
      | Some buf => seal buf
      end ;;
      retval ← reply 4; check_reply ;; mret [retval]
  end.

Definition rcOpenColorBuffer2_enc (colorbuffer : Z) : E (list bytes) :=
  packet OP_rcOpenColorBuffer2 (8 + 4) [Word colorbuffer] ;;
  retval ← reply 4; check_reply ;; mret [retval].

Definition rcCreateClientImage_enc (context target buffer : Z) : E (list bytes) :=
  packet OP_rcCreateClientImage (8 + 4 + 4 + 4) [Word context; Word target; Word buffer] ;;
  retval ← reply 4; check_reply ;; mret [retval].

Definition rcDestroyClientImage_enc (image : Z) : E (list bytes) :=
  packet OP_rcDestroyClientImage (8 + 4) [Word image] ;;
  retval ← reply 4; check_reply ;; mret [retval].

Definition rcSelectChecksumCalculator_enc (newProtocol reserved : Z) : E (list bytes) :=
  packet OP_rcSelectChecksumCalculator (8 + 4 + 4) [Word newProtocol; Word reserved] ;; mret [].

Definition rcGetNumDisplays_enc : E (list bytes) :=
  packet OP_rcGetNumDisplays (8) [] ;;
  retval ← reply 4; check_reply ;; mret [retval].

Definition rcGetDisplayWidth_enc (displayId : Z) : E (list bytes) :=
  packet OP_rcGetDisplayWidth (8 + 4) [Word displayId] ;;
  retval ← reply 4; check_reply ;; mret [retval].

Definition rcGetDisplayHeight_enc (displayId : Z) : E (list bytes) :=
  packet OP_rcGetDisplayHeight (8 + 4) [Word displayId] ;;
  retval ← reply 4; check_reply ;; mret [retval].

Definition rcGetDisplayDpiX_enc (displayId : Z) : E (list bytes) :=
  packet OP_rcGetDisplayDpiX (8 + 4) [Word displayId] ;;
  retval ← reply 4; check_reply ;; mret [retval].

Definition rcGetDisplayDpiY_enc (displayId : Z) : E (list bytes) :=
  packet OP_rcGetDisplayDpiY (8 + 4) [Word displayId] ;;
  retval ← reply 4; check_reply ;; mret [retval].

Definition rcGetDisplayVsyncPeriod_enc (displayId : Z) : E (list bytes) :=
  packet OP_rcGetDisplayVsyncPeriod (8 + 4) [Word displayId] ;;
  retval ← reply 4; check_reply ;; mret [retval].

(** [name] is the text's bytes without the zero at its end; a float is its four bytes. *)
Definition rcPostLayer_enc (name : list Z) (colorBuffer alpha sourceCropLeft sourceCropTop sourceCropRight
    sourceCropBottom displayFrameLeft displayFrameTop displayFrameRight displayFrameBottom : Z) :
    E (list bytes) :=
  let size_name := u32 (zlen name + 1) in
  packet OP_rcPostLayer (u32 (8 + size_name + 4 + 4 + 4 + 4 + 4 + 4 + 4 + 4 + 4 + 4 + 1 * 4))
    [Word size_name; Mem (Some <$> name ++ [0]) size_name; Word colorBuffer; Word alpha;
     Word sourceCropLeft; Word sourceCropTop; Word sourceCropRight; Word sourceCropBottom;
     Word displayFrameLeft; Word displayFrameTop; Word displayFrameRight; Word displayFrameBottom] ;;
  mret [].

Definition rcPostAllLayersDone_enc : E (list bytes) :=
  packet OP_rcPostAllLayersDone (8) [] ;; mret [].

(** ** What is put in a packet *)

Definition field_bytes (f : field) : bytes :=
  match f with Word z => Some <$> little_endian 4 z | Mem l n => ztake n l end.

Definition payload (fs : list field) : bytes := concat (field_bytes <$> fs).

(** The memory is there. *)
Definition field_ok (f : field) : Prop :=
  match f with Word _ => True | Mem l n => 0 <= n <= zlen l end.

Definition field_size (f : field) : Z := match f with Word _ => 4 | Mem _ n => n end.

Lemma zlen_field f : field_ok f -> zlen (field_bytes f) = field_size f.
Proof.
  destruct f as [z|l n]; cbn; [done|apply zlen_ztake].
Qed.

Lemma zlen_payload_cons f fs : zlen (payload (f :: fs)) = zlen (field_bytes f) + zlen (payload fs).
Proof. unfold payload. cbn. apply zlen_app. Qed.

Lemma put_ok fs : forall wb rb p b g c,
  Forall field_ok fs ->
  conn_ok wb rb c -> pending c = p ++ b ++ g -> zlen b = zlen (payload fs) -> has_buf c = true ->
  exists c', put (zlen p) fs c = Ret (zlen p + zlen (payload fs)) c' /\ conn_ok wb rb c' /\
    pending c' = p ++ payload fs ++ g /\ sent c' = sent c /\ has_buf c' = true /\ same_rest c c'.
Proof.
  induction fs as [|f fs IH]; intros wb rb p b g c Hfs Hc Hp Hlen Hb.
  - exists c. cbn in *. rewrite (zlen_nil_inv b) in Hp by (rewrite Hlen; done).
    split; [by rewrite Z.add_0_r|]. by split_and!.
  - inversion Hfs as [|? ? Hf Hfs']; subst. rewrite zlen_payload_cons in Hlen.
    pose proof (zlen_nonneg (field_bytes f)). pose proof (zlen_nonneg (payload fs)).
    assert (Hsplit : b = ztake (zlen (field_bytes f)) b ++ zdrop (zlen (field_bytes f)) b) by (by rewrite ztake_zdrop).
    destruct (store_puts wb rb p (ztake (zlen (field_bytes f)) b) (zdrop (zlen (field_bytes f)) b ++ g)
      (field_bytes f) c Hc) as (c1 & Hs1 & Hc1 & Hp1 & Hse1 & Hb1 & Hr1); [|apply zlen_ztake; lia|done|].
    { rewrite Hp, Hsplit at 1. by rewrite <- app_assoc. }
    destruct (IH wb rb (p ++ field_bytes f) (zdrop (zlen (field_bytes f)) b) g c1)
      as (c2 & Hs2 & Hc2 & Hp2 & Hse2 & Hb2 & Hr2); [done|done| | |done|].
    { rewrite Hp1. by rewrite <- app_assoc. }
    { rewrite zlen_zdrop; lia. }
    exists c2. split.
    { rewrite zlen_app in Hs2. rewrite zlen_payload_cons, Z.add_assoc.
      destruct f as [z|l n]; cbn [put]; cbn [field_bytes] in *.
      - assert (zlen (Some <$> little_endian 4 z) = 4) as H4 by
          (unfold zlen; by rewrite length_fmap, length_little_endian).
        rewrite H4 in *. by rewrite E_bind_run, Hs1.
      - cbn in Hf. rewrite (zlen_ztake n l) in * by lia. replace (zlen l <? n) with false by lia.
        by rewrite E_bind_run, Hs1. }
    split; [done|]. split; [rewrite Hp2; unfold payload; cbn; by rewrite <- !app_assoc|].
    split; [congruence|]. split; [done|]. destruct Hr1, Hr2. split; congruence.
Qed.

(** ** The checksum of a message *)

Definition after_write (lens : list Z) (k : ChecksumCalculator) : ChecksumCalculator :=
  if 0 <? m_version k then write_message k lens else k.

Lemma byte_size_counts k k' : same_counts k k' -> checksumByteSize k = checksumByteSize k'.
Proof. intros (Hv & _). unfold checksumByteSize. by rewrite Hv. Qed.

Lemma sealed_len lens k : idle k -> zlen (sealed lens k) = checksumByteSize k.
Proof.
  intros Hk. pose proof (addBuffers_counts lens k) as Hc. unfold sealed.
  rewrite checksum_bytes_len; [by apply byte_size_counts|].
  destruct Hc as (-> & _). apply Hk.
Qed.

Lemma after_write_idle lens k : idle k -> idle (after_write lens k).
Proof.
  intros Hk. unfold after_write, write_message. case_match; [|done].
  by destruct (write_sealed lens k Hk) as (k' & -> & ? & _).
Qed.

Lemma after_write_version lens k : idle k -> m_version (after_write lens k) = m_version k.
Proof.
  intros Hk. unfold after_write, write_message. case_match; [|done].
  by destruct (write_sealed lens k Hk) as (k' & -> & _ & ? & _).
Qed.

(** The additions of a message, as [add] makes them one by one. *)
Definition adding (lens : list Z) (k : ChecksumCalculator) : ChecksumCalculator :=
  if 0 <? m_version k then addBuffers lens k else k.

Lemma adding_version lens k : m_version (adding lens k) = m_version k.
Proof. unfold adding. case_match; [|done]. apply addBuffers_counts. Qed.

Lemma adding_snoc lens n k : adding (lens ++ [n]) k =
  if 0 <? m_version (adding lens k) then addBuffer n (adding lens k) else adding lens k.
Proof.
  rewrite adding_version. unfold adding. case_match; [|done].
  unfold addBuffers. by rewrite foldl_app.
Qed.

Lemma add_run lens n k c :
  m_checksumHelper c = adding lens k ->
  exists c', add n c = Ret tt c' /\ c' = set_checksum (adding (lens ++ [n]) k) c.
Proof.
  intros Hk. unfold add, with_checksum. rewrite E_bind_run. unfold getc. rewrite Hk, adding_snoc.
  destruct (0 <? m_version (adding lens k)); [by eexists|]. eexists. split; [reflexivity|].
  rewrite <- Hk. by destruct c.
Qed.

Lemma conn_ok_checksum wb rb k c : conn_ok wb rb c -> conn_ok wb rb (set_checksum k c).
Proof. by intros []. Qed.

Lemma seal_ok wb rb p b g lens k c :
  idle k -> m_checksumHelper c = adding lens k ->
  conn_ok wb rb c -> pending c = p ++ b ++ g -> zlen b = checksumByteSize k -> has_buf c = true ->
  exists c', seal (zlen p) c = Ret tt c' /\ conn_ok wb rb c' /\
    pending c' = p ++ (Some <$> sealed lens k) ++ g /\ sent c' = sent c /\
    received c' = received c /\ m_checksumHelper c' = after_write lens k.
Proof.
  intros Hk Hkc Hc Hp Hlen Hb. unfold seal, with_checksum. rewrite E_bind_run. unfold getc.
  rewrite Hkc, adding_version. pose proof (sealed_len lens k Hk) as Hsl.
  unfold after_write, adding in *. destruct (0 <? m_version k) eqn:Hv.
  - rewrite (byte_size_counts _ _ (addBuffers_counts lens k)).
    unfold write_message. destruct (write_sealed lens k Hk) as (k' & Hw & Hk' & _). rewrite Hw.
    rewrite E_bind_run. unfold setc.
    destruct (store_puts wb rb p b g (Some <$> sealed lens k) (set_checksum k' c))
      as (c1 & Hs1 & Hc1 & Hp1 & Hse1 & Hb1 & Hr1 & Hkk1);
      [by apply conn_ok_checksum|done|unfold zlen at 2; rewrite length_fmap; fold (zlen (sealed lens k)); lia|done|].
    exists c1. rewrite Hs1. by split_and!.
  - assert (Hz : checksumByteSize k = 0).
    { destruct Hk as [[H0|H1] _ _ _ _]; [by unfold checksumByteSize; rewrite H0|by rewrite H1 in Hv]. }
    exists c. split; [done|]. rewrite Hz in *.
    rewrite (zlen_nil_inv (sealed lens k)), Hp by lia. rewrite (zlen_nil_inv b) by lia.
    by split_and!.
Qed.

(** ** A packet *)

Definition header (op totalSize : Z) : list field := [Word op; Word totalSize].

(** All of it but the garbage at its end. *)
Definition packet_front (k : ChecksumCalculator) (op totalSize : Z) (fs : list field) : bytes :=
  payload (header op totalSize ++ fs) ++ (Some <$> sealed [8 + zlen (payload fs)] k).

Lemma payload_app fs fs' : payload (fs ++ fs') = payload fs ++ payload fs'.
Proof. unfold payload. by rewrite fmap_app, concat_app. Qed.

Lemma zlen_le4 z : zlen (Some <$> little_endian 4 z) = 4.
Proof. unfold zlen. by rewrite length_fmap, length_little_endian. Qed.

Lemma zlen_header op n : zlen (payload (header op n)) = 8.
Proof. unfold header. rewrite !zlen_payload_cons. cbn [field_bytes]. rewrite !zlen_le4. done. Qed.

Lemma zlen_front k op n fs :
  idle k -> zlen (packet_front k op n fs) = 8 + zlen (payload fs) + checksumByteSize k.
Proof.
  intros Hk. unfold packet_front. rewrite payload_app, !zlen_app, zlen_header.
  rewrite <- (sealed_len [8 + zlen (payload fs)] k Hk). unfold zlen at 2. by rewrite length_fmap.
Qed.

Hypothesis malloc_works : forall n, 0 <= n < 2 ^ 31 -> malloc_ok n = true.

Lemma packet_ok wb rb op size fs k c :
  idle k -> m_checksumHelper c = k -> Forall field_ok fs ->
  let total := size + checksumByteSize k in
  8 + zlen (payload fs) <= size -> 0 <= total < 2 ^ 31 -> 0 <= wb ->
  conn_ok (total + wb) rb c ->
  exists c' g, packet op size fs c = Ret tt c' /\ conn_ok wb rb c' /\
    wire c' = wire c ++ packet_front k op total fs ++ g /\
    zlen (packet_front k op total fs ++ g) = total /\
    received c' = received c /\ m_checksumHelper c' = after_write [8 + zlen (payload fs)] k.
Proof.
  intros Hk Hkc Hfs total Hsize Htotal Hwb Hc. unfold packet.
  rewrite E_bind_run. unfold getc at 1. rewrite Hkc. cbv zeta. fold total.
  rewrite (wrapu_id 64) by (unfold in_u; lia).
  destruct (alloc_gives malloc_ok malloc_works wb rb total c)
    as (ptr & c1 & p & g & Ha & Hc1 & Hp1 & Hptr & Hg & Hb1 & Hw1 & Hr1 & Hk1); [done|done|done|].
  rewrite E_bind_run, Ha. subst ptr.
  assert (Hbase : sent c1 ++ p = wire c).
  { unfold wire at 1 in Hw1. rewrite Hp1, app_assoc in Hw1. by apply app_inv_tail in Hw1. }
  pose proof (sealed_len [8 + zlen (payload fs)] k Hk) as Hsl.
  set (all := Word op :: Word total :: fs).
  assert (Hall : zlen (payload all) = 8 + zlen (payload fs)).
  { unfold all. rewrite !zlen_payload_cons. cbn [field_bytes]. rewrite !zlen_le4. lia. }
  assert (Hcs : 0 <= checksumByteSize k) by (rewrite <- Hsl; apply zlen_nonneg).
  assert (exists b b2 g2, g = b ++ b2 ++ g2 /\ zlen b = zlen (payload all) /\ zlen b2 = checksumByteSize k)
    as (b & b2 & g2 & -> & Hlb & Hlb2).
  { exists (ztake (zlen (payload all)) g),
      (ztake (checksumByteSize k) (zdrop (zlen (payload all)) g)),
      (zdrop (checksumByteSize k) (zdrop (zlen (payload all)) g)).
    pose proof (zlen_nonneg (payload all)).
    rewrite !ztake_zdrop, zlen_ztake, zlen_ztake; [done|rewrite zlen_zdrop|]; lia. }
  destruct (put_ok all wb rb p b (b2 ++ g2) c1)
    as (c2 & Hput & Hc2 & Hp2 & Hs2 & Hb2 & Hr2 & Hk2); try done.
  { repeat (constructor; [done|]). done. }
  rewrite E_bind_run, Hput, E_bind_run.
  destruct (add_run [] (zlen p + zlen (payload all) - zlen p) k c2) as (c3 & Hadd & Hc3).
  { rewrite Hk2, Hk1, Hkc. unfold adding. by case_match. }
  rewrite Hadd. replace (zlen p + zlen (payload all) - zlen p) with (8 + zlen (payload fs)) in * by lia.
  rewrite <- zlen_app.
  destruct (seal_ok wb rb (p ++ payload all) b2 g2 [8 + zlen (payload fs)] k c3)
    as (c4 & Hseal & Hc4 & Hp4 & Hs4 & Hr4 & Hk4).
  { done. } { by subst c3. } { subst c3. by apply conn_ok_checksum. }
  { subst c3. change (pending (set_checksum _ c2)) with (pending c2). rewrite Hp2. by rewrite <- app_assoc. }
  { done. } { by subst c3. }
  exists c4, g2. rewrite Hseal. split; [done|]. split; [done|]. split.
  - unfold wire at 1. rewrite Hp4, Hs4. subst c3. change (sent (set_checksum _ c2)) with (sent c2).
    rewrite Hs2. unfold packet_front. change (header op total ++ fs) with all.
    rewrite <- Hbase. by rewrite <- !app_assoc.
  - split; [|split; [|done]].
    + rewrite zlen_app, zlen_front by done. rewrite !zlen_app in Hg. lia.
    + rewrite Hr4. subst c3. cbn. congruence.
Qed.

(** ** The answer *)

Definition after_read (lens : list Z) (expected : bytes) (k : ChecksumCalculator) : ChecksumCalculator :=
  if 0 <? m_version k then read_message k (lens, expected) else k.

Lemma zdrop_add {A} a b (l : list A) : 0 <= a -> 0 <= b -> zdrop (a + b) l = zdrop b (zdrop a l).
Proof. intros Ha Hb. unfold zdrop. by rewrite drop_drop, Z2Nat.inj_add by lia. Qed.

Fixpoint replies (ns : list Z) : E (list bytes) :=
  match ns with
  | [] => mret []
  | n :: ns => l ← reply n; ls ← replies ns; mret (l :: ls)
  end.

(** What a function that reads [ns] ends with. *)
Definition finish (ns : list Z) : E (list bytes) :=
  match ns with [] => mret [] | _ => ls ← replies ns; check_reply ;; mret ls end.

Definition lengths (ls : list (list Z)) : list Z := zlen <$> ls.

(** The bytes as memory holds them. *)
Definition cells (ls : list (list Z)) : list bytes := List.map (List.map (@Some Z)) ls.

Lemma total_lengths ls : total (lengths ls) = zlen (concat ls).
Proof.
  induction ls as [|l ls IH]; [done|]. cbn [concat]. rewrite zlen_app, <- IH. done.
Qed.

Lemma replies_ok ls : forall wb rb k lens more c,
  m_checksumHelper c = adding lens k ->
  conn_ok wb (zlen (concat ls) + rb) c -> 0 <= rb -> pending c = [] ->
  zdrop (received c) (host (wire c)) = concat ls ++ more -> 0 <= received c ->
  exists c', replies (lengths ls) c = Ret (cells ls) c' /\ conn_ok wb rb c' /\
    wire c' = wire c /\ pending c' = [] /\ received c' = received c + zlen (concat ls) /\
    m_checksumHelper c' = adding (lens ++ lengths ls) k.
Proof.
  induction ls as [|l ls IH]; intros wb rb k lens more c Hk Hc Hrb Hp Hh Hrec.
  - exists c. cbn in *. rewrite app_nil_r. split_and!; try done. unfold zlen. cbn. lia.
  - cbn [lengths fmap list_fmap replies concat] in *. rewrite zlen_app in Hc. rewrite <- app_assoc in Hh.
    pose proof (zlen_nonneg (concat ls)). pose proof (zlen_nonneg l).
    destruct (readback_ok host wb (zlen (concat ls) + rb) l (concat ls ++ more) c)
      as (c1 & Hr & Hc1 & Hs1 & Hp1 & Hrec1 & Hk1); [by rewrite Z.add_assoc|lia|done|].
    assert (Hw1 : wire c1 = wire c) by (unfold wire at 1; by rewrite Hs1, Hp1, app_nil_r).
    destruct (add_run lens (zlen l) k c1) as (c2 & Ha & Hc2); [congruence|].
    destruct (IH wb rb k (lens ++ [zlen l]) more c2) as (c3 & Hrs & Hc3 & Hw3 & Hp3 & Hrec3 & Hk3).
    { by subst c2. } { subst c2. by apply conn_ok_checksum. } { done. } { by subst c2. }
    { subst c2. change (received (set_checksum _ c1)) with (received c1).
      change (wire (set_checksum _ c1)) with (wire c1). rewrite Hw1, Hrec1.
      by rewrite zdrop_add, Hh, zdrop_app_exact by lia. }
    { subst c2. cbn. lia. }
    exists c3. split.
    { unfold reply. rewrite !E_bind_run, Hr, E_bind_run, Ha. cbn [mret E_ret].
      change (zlen <$> ls) with (lengths ls). by rewrite E_bind_run, Hrs. }
    subst c2. split; [done|]. split; [by rewrite Hw3|]. split; [done|].
    split; [rewrite Hrec3; cbn; rewrite Hrec1, zlen_app; lia|]. rewrite Hk3, <- app_assoc. done.
Qed.

(** The two ends agree. *)
Record in_step (k hk : ChecksumCalculator) : Prop := {
  step_guest : idle k;
  step_host : idle hk;
  step_version : m_version k = m_version hk;
  step_to_host : m_numWrite k = m_numRead hk;
  step_to_guest : m_numRead k = m_numWrite hk
}.

(** A checksum written by one end after [lens] is accepted by the other after [lens'], if
    that many bytes. *)
Lemma accepted lens lens' w r :
  idle w -> idle r -> m_version w = m_version r -> m_numWrite w = m_numRead r ->
  total lens = total lens' ->
  sealed lens w = checksum_bytes (m_numRead r) (addBuffers lens' r).
Proof.
  intros Hw Hr Hv Hn Ht. destruct (idle_version _ Hw) as [H0|H1].
  - apply sealed_version0; congruence.
  - apply sealed_accepted; [done..|congruence|]. by rewrite Ht.
Qed.

Lemma finish_ok wb rb ls k hk more c :
  ls <> [] -> m_checksumHelper c = k ->
  idle k -> idle hk -> m_version k = m_version hk -> m_numWrite hk = m_numRead k ->
  conn_ok wb (zlen (concat ls) + (checksumByteSize k + rb)) c -> 0 <= rb ->
  zdrop (received c) (host (wire c)) = concat ls ++ sealed [zlen (concat ls)] hk ++ more ->
  0 <= received c ->
  exists c', finish (lengths ls) c = Ret (cells ls) c' /\ conn_ok wb rb c' /\
    wire c' = wire c /\ received c' = received c + zlen (concat ls) + checksumByteSize k /\
    m_checksumHelper c' = after_read (lengths ls) (Some <$> sealed [zlen (concat ls)] hk) k.
Proof.
  intros Hne Hkc Hk Hhk Hv Hn Hc Hrb Hh Hrec.
  assert (Hsize : checksumByteSize k = checksumByteSize hk) by (unfold checksumByteSize; by rewrite Hv).
  pose proof (sealed_len [zlen (concat ls)] hk Hhk) as Hsl.
  pose proof (zlen_nonneg (sealed [zlen (concat ls)] hk)).
  assert (Hfl : exists c0, replies (lengths ls) c = replies (lengths ls) c0 /\
    conn_ok wb (zlen (concat ls) + (checksumByteSize k + rb)) c0 /\ pending c0 = [] /\
    wire c0 = wire c /\ received c0 = received c /\ m_checksumHelper c0 = k).
  { destruct (flush_ok _ _ c Hc) as (c0 & Hf & Hc0 & Hs0 & Hp0 & [Hr0 Hk0] & He0).
    exists c0. split_and!; try done; [|unfold wire at 1; by rewrite Hs0, Hp0, app_nil_r|congruence].
    destruct ls as [|l ls]; [done|]. cbn [lengths fmap list_fmap replies].
    unfold reply. rewrite !E_bind_run. unfold readback. rewrite !E_bind_run, Hf.
    assert (flush c0 = Ret 0 c0) as ->; [|done]. unfold flush.
    destruct (has_buf c0); cbn [negb orb]; [|done]. by rewrite He0, Z.eqb_refl. }
  destruct Hfl as (c0 & Hrepl & Hc0 & Hp0 & Hw0 & Hr0 & Hk0).
  destruct (replies_ok ls wb (checksumByteSize k + rb) k [] (sealed [zlen (concat ls)] hk ++ more) c0)
    as (c1 & Hrs & Hc1 & Hw1 & Hp1 & Hrec1 & Hk1); try done.
  { rewrite Hk0. unfold adding. by case_match. }
  { lia. } { by rewrite Hr0, Hw0. } { lia. }
  unfold finish. destruct (lengths ls) as [|n ns] eqn:Hlens; [by destruct ls|]. rewrite <- Hlens in *.
  rewrite E_bind_run, Hrepl, Hrs, E_bind_run. unfold check_reply, with_checksum.
  rewrite E_bind_run. unfold getc at 1. rewrite Hk1, adding_version. cbn [app].
  unfold after_read. destruct (0 <? m_version k) eqn:Hvk.
  - destruct (readback_ok host wb rb (sealed [zlen (concat ls)] hk) more c1)
      as (c2 & Hr & Hc2 & Hs2 & Hp2 & Hrec2 & Hk2).
    { by rewrite Hsl, <- Hsize. } { done. }
    { pose proof (zlen_nonneg (concat ls)).
      by rewrite Hw1, Hw0, Hrec1, Hr0, zdrop_add, Hh, zdrop_app_exact by lia. }
    assert (Hal : adding (lengths ls) k = addBuffers (lengths ls) k) by (unfold adding; by rewrite Hvk).
    rewrite Hal, (byte_size_counts _ _ (addBuffers_counts (lengths ls) k)), Hsize, <- Hsl.
    rewrite E_bind_run, Hr, E_bind_run. unfold getc at 1. rewrite Hk2, Hk1. cbn [app]. rewrite Hal.
    unfold read_message. cbn [fst snd].
    pose proof (validate_spec (Some <$> sealed [zlen (concat ls)] hk) (lengths ls) k Hk) as Hval.
    destruct (validate _ _) as [ok k2]. destruct Hval as (-> & _).
    rewrite bool_decide_eq_true_2.
    2: { f_equal. apply accepted; try done. rewrite total_lengths. cbn. lia. }
    eexists. split; [reflexivity|]. unfold setc. split; [by apply conn_ok_checksum|].
    assert (Hw2 : wire c2 = wire c) by (unfold wire at 1; rewrite Hs2, Hp2, app_nil_r; congruence).
    split; [exact Hw2|]. cbn. split; [lia|done].
  - assert (Hz : checksumByteSize k = 0).
    { destruct Hk as [[H0|H1] _ _ _ _]; [by unfold checksumByteSize; rewrite H0|by rewrite H1 in Hvk]. }
    exists c1. split; [done|]. rewrite Hz in *. split; [done|].
    split; [congruence|]. split; [lia|]. rewrite Hk1. cbn [app]. unfold adding. by rewrite Hvk.
Qed.
End encoder.
