(* ===== verification/Decoder.v ===== *)
(** * The decoder the daemon runs

    The decoders are generated while the daemon is built, by emugen; what they do is what
    [ApiGen::genDecoderImpl] (src/external/android-emugl/host/tools/emugen/ApiGen.cpp)
    prints for each entry point.  [decode] is the function it prints, for any table of
    entry points; [rc_table] is the one of the render control, of
    host/libs/renderControl_dec/renderControl.in with the attributes beside it.

    The buffer is the bytes from a packet's beginning to the end of what was received.
    Out of it the code reads what happens to be there: the server is [Faulty] then. *)

From S2P Require Import Prelude Utils RenderThread Checksum GuestStream RenderControlEnc.

(** ** Entry points *)

Inductive var := Scalar | PointerIn | PointerOut.

Record EntryPoint := mkEntry { vars : list var; has_retval : bool }.

(** What the function is called with. *)
Inductive arg := Val (z : Z) | InPtr (l : bytes) | OutPtr (size : Z).

Inductive server_status := Serving | Faulty | Crashed | Hanging.

#[export] Instance server_status_eq_dec : EqDecision server_status.
Proof. solve_decision. Defined.

(** [out] is all that was answered. *)
Record Server (H : Type) := mkServer {
  api_state : H;
  calc : ChecksumCalculator;
  out : list Z;
  status : server_status
}.
Arguments mkServer {H}.
Arguments api_state {H}.
Arguments calc {H}.
Arguments out {H}.
Arguments status {H}.

Fixpoint all_some (l : bytes) : option (list Z) :=
  match l with
  | [] => Some []
  | Some b :: l => cons b <$> all_some l
  | None :: _ => None
  end.

(** [Unpack] of a 32-bit integer at [ptr + off]. *)
Definition word_at (off : Z) (l : bytes) : option Z :=
  let w := ztake 4 (zdrop off l) in
  if zlen w =? 4 then le_value <$> all_some w else None.

(** The arguments, and [varoffset] after the last of them. *)
Fixpoint unpack (vs : list var) (off : Z) (l : bytes) : option (list arg * Z) :=
  match vs with
  | [] => Some ([], off)
  | v :: vs =>
      n ← word_at off l;
      match v with
      | Scalar => r ← unpack vs (off + 4) l; Some (Val n :: r.1, r.2)
      | PointerIn =>
          let data := ztake n (zdrop (off + 4) l) in
          if zlen data <? n then None
          else r ← unpack vs (off + 4 + n) l; Some (InPtr data :: r.1, r.2)
      | PointerOut => r ← unpack vs (off + 4) l; Some (OutPtr n :: r.1, r.2)
      end
  end.

Section decoder.
Context {H : Type}.
Variable table : Z -> option EntryPoint.

(** The functions: what a call leaves in its buffers and returns, one after the other. *)
Variable exec : Z -> list arg -> H * ChecksumCalculator -> list (list Z) * (H * ChecksumCalculator).

Definition with_status (st : server_status) (s : Server H) : Server H :=
  mkServer (api_state s) (calc s) (out s) st.

(** [totalTmpBuffExist]. *)
Definition has_reply (e : EntryPoint) : bool :=
  has_retval e || existsb (fun v => match v with PointerOut => true | _ => false end) (vars e).

(** One turn of the [while] loop: how far [pos] moves; zero where the loop ends. *)
Definition decode_step (l : bytes) (s : Server H) : Z * Server H :=
  if negb (bool_decide (status s = Serving)) then (0, s)
  else if zlen l <? 8 then (0, s)
  else
    match word_at 0 l, word_at 4 l with
    | Some opcode, Some packetLen =>
        if zlen l <? packetLen then (0, s)
        else
          let useChecksum := 0 <? m_version (calc s) in
          let checksumSize := checksumByteSize (calc s) in
          match table opcode with
          | None => (0, s)
          | Some e =>
              match unpack (vars e) 8 l with
              | None => (0, with_status Faulty s)
              | Some (args, varoffset) =>
                  let '(ok, k) :=
                    if useChecksum
                    then validate (ztake checksumSize (zdrop varoffset l)) (addBuffer varoffset (calc s))
                    else (true, calc s) in
                  if negb ok then (0, with_status Crashed s)
                  else
                    let '(outs, (h, k)) := exec opcode args (api_state s, k) in
                    let tmpBuf := concat outs in
                    let '(sum, k) :=
                      if has_reply e && useChecksum
                      then writeChecksum checksumSize (addBuffer (zlen tmpBuf) k)
                      else (Some [], k) in
                    (packetLen,
                     mkServer h k
                       (if has_reply e then out s ++ tmpBuf ++ default [] sum else out s)
                       (if packetLen =? 0 then Hanging else Serving))
              end
          end
    | _, _ => (0, with_status Faulty s)
    end.

Fixpoint decode_steps (n : nat) (l : bytes) (s : Server H) : Z * Server H :=
  match n with
  | O => (0, s)
  | S n =>
      let '(k, s) := decode_step l s in
      if k <=? 0 then (0, s)
      else let '(k', s) := decode_steps n (zdrop k l) s in (k + k', s)
  end.

(** A turn that goes on takes a byte at least. *)
Definition decode (l : bytes) (s : Server H) : Z * Server H := decode_steps (S (length l)) l s.

(** ** What it reads is what was packed *)

Definition arg_var (a : arg) : var :=
  match a with Val _ => Scalar | InPtr _ => PointerIn | OutPtr _ => PointerOut end.

Definition arg_bytes (a : arg) : bytes :=
  match a with
  | Val z => Some <$> little_endian 4 z
  | InPtr l => (Some <$> little_endian 4 (zlen l)) ++ l
  | OutPtr n => Some <$> little_endian 4 n
  end.

Definition args_bytes (args : list arg) : bytes := concat (arg_bytes <$> args).

Definition arg_ok (a : arg) : Prop :=
  match a with Val z => in_u 32 z | InPtr l => in_u 32 (zlen l) | OutPtr n => in_u 32 n end.

Lemma all_some_fmap (l : list Z) : all_some (Some <$> l) = Some l.
Proof. induction l as [|b l IH]; [done|]. cbn. by rewrite IH. Qed.

Lemma word_at_front off p z l :
  zlen p = off -> in_u 32 z -> word_at off (p ++ (Some <$> little_endian 4 z) ++ l) = Some z.
Proof.
  intros Hp Hz. unfold word_at. rewrite zdrop_app_eq by done.
  rewrite ztake_app_eq by (by rewrite zlen_le4). rewrite zlen_le4. cbn [Z.eqb Pos.eqb].
  rewrite all_some_fmap. cbn. f_equal. apply (le_value_little_endian 4). exact Hz.
Qed.

Lemma unpack_ok args : forall off p post,
  Forall arg_ok args -> zlen p = off ->
  unpack (arg_var <$> args) off (p ++ args_bytes args ++ post) =
    Some (args, off + zlen (args_bytes args)).
Proof.
  induction args as [|a args IH]; intros off p post Hargs Hp.
  - cbn. do 2 f_equal. unfold zlen. cbn. lia.
  - inversion Hargs as [|? ? Ha Hargs']; subst.
    assert (Hcons : args_bytes (a :: args) = arg_bytes a ++ args_bytes args) by done.
    rewrite Hcons, <- app_assoc, zlen_app. cbn [fmap list_fmap unpack].
    destruct a as [z|l|n]; cbn [arg_var arg_bytes arg_ok] in *.
    + rewrite word_at_front by done. cbn [mbind option_bind].
      rewrite (app_assoc p), (IH (zlen p + 4)); [|done|by rewrite zlen_app, zlen_le4].
      cbn [mbind option_bind fst snd]. rewrite zlen_le4. do 2 f_equal. lia.
    + rewrite <- app_assoc, word_at_front by done. cbn [mbind option_bind].
      assert (Hd : ztake (zlen l) (zdrop (zlen p + 4)
        (p ++ (Some <$> little_endian 4 (zlen l)) ++ l ++ args_bytes args ++ post)) = l).
      { rewrite (app_assoc p), zdrop_app_eq by (by rewrite zlen_app, zlen_le4). by apply ztake_app_exact. }
      rewrite Hd, Z.ltb_irrefl.
      rewrite (app_assoc p), (app_assoc _ l), (IH (zlen p + 4 + zlen l));
        [|done|by rewrite !zlen_app, zlen_le4].
      cbn [mbind option_bind fst snd]. rewrite zlen_app, zlen_le4. do 2 f_equal. lia.
    + rewrite word_at_front by done. cbn [mbind option_bind].
      rewrite (app_assoc p), (IH (zlen p + 4)); [|done|by rewrite zlen_app, zlen_le4].
      cbn [mbind option_bind fst snd]. rewrite zlen_le4. do 2 f_equal. lia.
Qed.

(** ** A packet is served *)

Record call := mkCall { op : Z; args : list arg }.

(** A checksum was written, or read: a message more. *)
Definition count_write (k : ChecksumCalculator) : ChecksumCalculator :=
  if 0 <? m_version k then
    mkChecksum (m_version k) (m_numRead k) (u32 (m_numWrite k + 1)) false 0
  else k.

Definition count_read (k : ChecksumCalculator) : ChecksumCalculator :=
  if 0 <? m_version k then
    mkChecksum (m_version k) (u32 (m_numRead k + 1)) (m_numWrite k) false 0
  else k.

Lemma version_positive k : idle k -> (0 <? m_version k) = (m_version k =? 1).
Proof. intros [[-> | ->] _ _ _ _]; done. Qed.

Lemma after_write_count lens k : idle k -> after_write lens k = count_write k.
Proof.
  intros Hk. unfold after_write, count_write. rewrite version_positive by done.
  destruct (Z.eqb_spec (m_version k) 1) as [Hv|]; [|done].
  unfold write_message. destruct (write_sealed lens k Hk) as (k' & -> & [_ Hl He _ _] & Hv' & Hr & Hw).
  cbn [snd]. destruct k'; cbn in *. by subst.
Qed.

Lemma after_read_count lens l k : idle k -> after_read lens l k = count_read k.
Proof.
  intros Hk. unfold after_read, count_read. rewrite version_positive by done.
  destruct (Z.eqb_spec (m_version k) 1) as [Hv|]; [|done]. unfold read_message. cbn [fst snd].
  pose proof (validate_spec l lens k Hk) as H'. destruct (validate l (addBuffers lens k)) as [ok k'].
  destruct H' as (_ & [_ Hl He _ _] & Hv' & Hr & Hw). cbn [snd]. destruct k'; cbn in *. by subst.
Qed.

Lemma count_write_idle k : idle k -> idle (count_write k).
Proof. intros Hk. rewrite <- (after_write_count []) by done. by apply after_write_idle. Qed.

Lemma count_read_idle k : idle k -> idle (count_read k).
Proof.
  intros Hk. unfold count_read. case_match; [|done]. destruct Hk. constructor; cbn; try done.
  by apply wrapu_range.
Qed.

Definition guest_after (reply : bool) (k : ChecksumCalculator) : ChecksumCalculator :=
  let k := count_write k in if reply then count_read k else k.

Definition host_after (reply : bool) (k : ChecksumCalculator) : ChecksumCalculator :=
  let k := count_read k in if reply then count_write k else k.

Lemma in_step_after reply k hk : in_step k hk -> in_step (guest_after reply k) (host_after reply hk).
Proof.
  intros [Hk Hhk Hv Hw Hr]. unfold guest_after, host_after.
  pose proof (count_write_idle k Hk) as Hk1. pose proof (count_read_idle hk Hhk) as Hhk1.
  constructor.
  - destruct reply; [by apply count_read_idle|done].
  - destruct reply; [by apply count_write_idle|done].
  - destruct reply; unfold count_write, count_read; rewrite !Hv; destruct (0 <? m_version hk) eqn:Hb;
      cbn; rewrite ?Hv, ?Hb; done.
  - destruct reply; unfold count_write, count_read; rewrite !Hv; destruct (0 <? m_version hk) eqn:Hb;
      cbn; rewrite ?Hv, ?Hb; cbn; congruence.
  - destruct reply; unfold count_write, count_read; rewrite !Hv; destruct (0 <? m_version hk) eqn:Hb;
      cbn; rewrite ?Hv, ?Hb; cbn; congruence.
Qed.

(** The packet of a call, up to the garbage at its end. *)
Definition call_front (k : ChecksumCalculator) (opcode total : Z) (l : bytes) : bytes :=
  (Some <$> little_endian 4 opcode) ++ (Some <$> little_endian 4 total) ++ l ++
  (Some <$> sealed [8 + zlen l] k).

Definition is_packet (k : ChecksumCalculator) (c : call) (pkt : bytes) : Prop :=
  zlen pkt < 2 ^ 31 /\ exists g, pkt = call_front k (op c) (zlen pkt) (args_bytes (args c)) ++ g.

(** The functions have the arguments of the table, and leave the calculator alone. *)
Definition callable (c : call) : Prop :=
  in_u 32 (op c) /\ Forall arg_ok (args c) /\
  (exists e, table (op c) = Some e /\ vars e = arg_var <$> args c) /\
  forall h k, (exec (op c) (args c) (h, k)).2.2 = k.

Definition answers (c : call) : bool :=
  match table (op c) with Some e => has_reply e | None => false end.

(** What a call leaves and returns. *)
Definition results (c : call) (s : Server H) : list (list Z) :=
  (exec (op c) (args c) (api_state s, count_read (calc s))).1.

(** The answer on the wire. *)
Definition answer (c : call) (s : Server H) : list Z :=
  if answers c then
    concat (results c s) ++ sealed [zlen (concat (results c s))] (count_read (calc s))
  else [].

Definition serve (c : call) (s : Server H) : Server H :=
  mkServer (exec (op c) (args c) (api_state s, count_read (calc s))).2.1
    (host_after (answers c) (calc s)) (out s ++ answer c s) Serving.

Lemma word_at_packet k c pkt rest :
  is_packet k c pkt -> callable c ->
  word_at 0 (pkt ++ rest) = Some (op c) /\ word_at 4 (pkt ++ rest) = Some (zlen pkt) /\
  8 <= zlen pkt <= zlen (pkt ++ rest).
Proof.
  intros [Hlt (g & Hp)] [Hop _]. pose proof (zlen_nonneg pkt). pose proof (zlen_nonneg rest).
  rewrite zlen_app. unfold call_front in Hp.
  assert (H8 : 8 <= zlen pkt).
  { rewrite Hp, !zlen_app, !zlen_le4. pose proof (zlen_nonneg (args_bytes (args c))).
    pose proof (zlen_nonneg (Some <$> sealed [8 + zlen (args_bytes (args c))] k)).
    pose proof (zlen_nonneg g). lia. }
  split; [|split; [|lia]]; rewrite Hp at 1; rewrite <- !app_assoc.
  - apply (word_at_front 0 []); done.
  - apply (word_at_front 4); [apply zlen_le4|unfold in_u; lia].
Qed.

Lemma decode_step_packet k c pkt rest s :
  in_step k (calc s) -> is_packet k c pkt -> callable c -> status s = Serving ->
  decode_step (pkt ++ rest) s = (zlen pkt, serve c s).
Proof.
  intros Hstep Hpkt Hc Hst. destruct (word_at_packet k c pkt rest Hpkt Hc) as (Hw0 & Hw4 & Hlen).
  destruct Hpkt as [Hlt (g & Hp)]. destruct Hc as (Hop & Hargs & (e & He & Hvars) & Hkeep).
  destruct Hstep as [Hk Hhk Hv Hnw Hnr]. unfold decode_step. rewrite Hst, bool_decide_eq_true_2 by done.
  cbn [negb]. replace (zlen (pkt ++ rest) <? 8) with false by lia. rewrite Hw0, Hw4.
  replace (zlen (pkt ++ rest) <? zlen pkt) with false by lia. rewrite He, Hvars.
  set (ab := args_bytes (args c)) in *.
  assert (Hshape : pkt ++ rest = ((Some <$> little_endian 4 (op c)) ++ (Some <$> little_endian 4 (zlen pkt))) ++
    ab ++ (Some <$> sealed [8 + zlen ab] k) ++ g ++ rest).
  { rewrite Hp at 1. unfold call_front. by rewrite <- !app_assoc. }
  rewrite Hshape, unpack_ok by (done || (rewrite zlen_app, !zlen_le4; done)). cbn [fst snd].
  fold ab. assert (Hchk : ztake (checksumByteSize (calc s)) (zdrop (8 + zlen ab)
    (((Some <$> little_endian 4 (op c)) ++ (Some <$> little_endian 4 (zlen pkt))) ++
     ab ++ (Some <$> sealed [8 + zlen ab] k) ++ g ++ rest)) = Some <$> sealed [8 + zlen ab] k).
  { rewrite (app_assoc _ ab), zdrop_app_eq by (by rewrite !zlen_app, !zlen_le4).
    apply ztake_app_eq. unfold zlen at 1. rewrite length_fmap.
    change (Z.of_nat (length (sealed [8 + zlen ab] k))) with (zlen (sealed [8 + zlen ab] k)).
    rewrite sealed_len by done. unfold checksumByteSize. by rewrite Hv. }
  rewrite Hchk.
  assert (Hval : (if 0 <? m_version (calc s)
      then validate (Some <$> sealed [8 + zlen ab] k) (addBuffer (8 + zlen ab) (calc s))
      else (true, calc s)) = (true, count_read (calc s))).
  { rewrite <- (after_read_count [8 + zlen ab] (Some <$> sealed [8 + zlen ab] k)) by done.
    unfold after_read. destruct (0 <? m_version (calc s)); [|done].
    unfold read_message. cbn [fst snd].
    pose proof (validate_spec (Some <$> sealed [8 + zlen ab] k) [8 + zlen ab] (calc s) Hhk) as H'.
    change (addBuffers [8 + zlen ab] (calc s)) with (addBuffer (8 + zlen ab) (calc s)) in *.
    destruct (validate _ _) as [ok k']. destruct H' as (-> & _). f_equal.
    apply bool_decide_eq_true_2. f_equal. by apply (accepted [8 + zlen ab] [8 + zlen ab]). }
  rewrite Hval. cbn [negb]. unfold serve, answer, results, answers. rewrite He.
  specialize (Hkeep (api_state s) (count_read (calc s))).
  destruct (exec (op c) (args c) (api_state s, count_read (calc s))) as [outs [h k']].
  cbn [fst snd] in *. subst k'.
  pose proof (count_read_idle _ Hhk) as Hr. set (hk := count_read (calc s)) in *.
  assert (Hv' : m_version hk = m_version (calc s)) by (unfold hk, count_read; by case_match).
  assert (Hsum : (if has_reply e && (0 <? m_version (calc s))
      then writeChecksum (checksumByteSize (calc s)) (addBuffer (zlen (concat outs)) hk)
      else (Some [], hk)) =
    (if has_reply e then (Some (sealed [zlen (concat outs)] hk), count_write hk) else (Some [], hk))).
  { destruct (has_reply e); [|done]. cbn [andb]. rewrite <- Hv'.
    rewrite <- (after_write_count [zlen (concat outs)]) by done. unfold after_write, write_message.
    replace (checksumByteSize (calc s)) with (checksumByteSize hk) by (unfold checksumByteSize; by rewrite Hv').
    destruct (0 <? m_version hk) eqn:Hpos.
    - change (addBuffer (zlen (concat outs)) hk) with (addBuffers [zlen (concat outs)] hk).
      by destruct (write_sealed [zlen (concat outs)] hk Hr) as (k2 & -> & _).
    - rewrite (zlen_nil_inv (sealed [zlen (concat outs)] hk)); [done|].
      rewrite sealed_len by done. rewrite version_positive in Hpos by done.
      destruct (idle_version _ Hr) as [H0|H1]; [by unfold checksumByteSize; rewrite H0|by rewrite H1 in Hpos]. }
  rewrite Hsum. replace (zlen pkt =? 0) with false by lia.
  unfold host_after. fold hk. destruct (has_reply e); [done|by rewrite app_nil_r].
Qed.

(** ** Packets in a row *)

Inductive sends : ChecksumCalculator -> list call -> list bytes -> Prop :=
  | sends_nil k : sends k [] []
  | sends_cons k c pkt cs pkts :
      is_packet k c pkt -> callable c -> sends (guest_after (answers c) k) cs pkts ->
      sends k (c :: cs) (pkt :: pkts).

Definition serve_all (cs : list call) (s : Server H) : Server H := foldl (fun s c => serve c s) s cs.

(** The beginning of a packet whose end has not come. *)
Definition incomplete (l : bytes) : Prop :=
  zlen l < 8 \/ exists o n, word_at 0 l = Some o /\ word_at 4 l = Some n /\ zlen l < n.

Lemma decode_step_incomplete l s : incomplete l -> decode_step l s = (0, s).
Proof.
  intros Hl. unfold decode_step. case_match; [done|].
  destruct Hl as [Hl|(o & n & -> & -> & Hl)]; case_match; [done|lia|done|].
  by replace (zlen l <? n) with true by lia.
Qed.

Lemma serve_status c s : status (serve c s) = Serving.
Proof. done. Qed.

Lemma in_step_serve k c s : in_step k (calc s) -> in_step (guest_after (answers c) k) (calc (serve c s)).
Proof. apply in_step_after. Qed.

Lemma packet_len k c pkt : is_packet k c pkt -> callable c -> 8 <= zlen pkt.
Proof. intros Hp Hc. destruct (word_at_packet k c pkt [] Hp Hc) as (_ & _ & ?). lia. Qed.

Lemma decode_steps_packets k cs pkts : sends k cs pkts -> forall n rest s,
  in_step k (calc s) -> status s = Serving -> incomplete rest -> (length pkts < n)%nat ->
  decode_steps n (concat pkts ++ rest) s = (zlen (concat pkts), serve_all cs s).
Proof.
  induction 1 as [k|k c pkt cs pkts Hpkt Hc _ IH]; intros n rest s Hk Hst Hr Hn.
  - destruct n as [|n]; [cbn in Hn; lia|]. cbn [decode_steps concat app].
    rewrite decode_step_incomplete by done. done.
  - destruct n as [|n]; [cbn in Hn; lia|]. cbn [decode_steps concat]. rewrite <- app_assoc.
    rewrite (decode_step_packet k c) by done.
    pose proof (packet_len k c pkt Hpkt Hc). replace (zlen pkt <=? 0) with false by lia.
    rewrite zdrop_app_exact, IH; [by rewrite zlen_app|by apply in_step_serve|done|done|cbn in Hn; lia].
Qed.

Lemma sends_length k cs pkts : sends k cs pkts -> Z.of_nat (length pkts) <= zlen (concat pkts).
Proof.
  induction 1 as [|k c pkt cs pkts Hpkt Hc _ IH]; [done|]. cbn [concat length].
  rewrite zlen_app. pose proof (packet_len k c pkt Hpkt Hc). lia.
Qed.

Lemma decode_packets k cs pkts rest s :
  sends k cs pkts -> in_step k (calc s) -> status s = Serving -> incomplete rest ->
  decode (concat pkts ++ rest) s = (zlen (concat pkts), serve_all cs s).
Proof.
  intros Hs Hk Hst Hr. unfold decode. apply (decode_steps_packets k); try done.
  pose proof (sends_length k cs pkts Hs) as Hl. unfold zlen in Hl. rewrite length_app. lia.
Qed.

Lemma word_at_app off l k : 0 <= off -> off + 4 <= zlen l -> word_at off (l ++ k) = word_at off l.
Proof.
  intros Ho Hl. unfold word_at. assert (Hd : zdrop off (l ++ k) = zdrop off l ++ k).
  { unfold zdrop, zlen in *. rewrite drop_app_le; [done|lia]. }
  rewrite Hd, ztake_app_le; [done|]. rewrite zlen_zdrop; lia.
Qed.

(** A beginning of packets is some of them and the beginning of another. *)
Lemma packets_cut k cs pkts : sends k cs pkts -> forall l more,
  l ++ more = concat pkts ->
  exists cs1 cs2 pkts1 pkts2 rest k2, cs = cs1 ++ cs2 /\ pkts = pkts1 ++ pkts2 /\
    l = concat pkts1 ++ rest /\ rest ++ more = concat pkts2 /\ incomplete rest /\
    sends k cs1 pkts1 /\ sends k2 cs2 pkts2 /\
    (forall s, in_step k (calc s) -> in_step k2 (calc (serve_all cs1 s))).
Proof.
  induction 1 as [k|k c pkt cs pkts Hpkt Hc Hs IH]; intros l more Hl.
  - apply app_eq_nil in Hl as [-> ->]. exists [], [], [], [], [], k.
    split_and!; try done; [left; unfold zlen; cbn; lia|constructor..].
  - cbn in Hl. destruct (Z.le_gt_cases (zlen pkt) (zlen l)) as [Hle|Hgt].
    + apply app_eq_ge in Hl as (l' & -> & Hl); [|done].
      destruct (IH l' more) as (cs1 & cs2 & p1 & p2 & rest & k2 & -> & -> & -> & Hm & Hi & Hs1 & Hs2 & Hk);
        [done|].
      exists (c :: cs1), cs2, (pkt :: p1), p2, rest, k2. split_and!; try done.
      * cbn. by rewrite app_assoc.
      * by constructor.
      * intros s Hst. apply (Hk (serve c s)). by apply in_step_serve.
    + exists [], (c :: cs), [], (pkt :: pkts), l, k. split_and!; try done; [|constructor|by constructor].
      apply app_eq_lt in Hl as (l' & Hl & _); [|done].
      destruct (Z.lt_ge_cases (zlen l) 8) as [|H8]; [by left|]. right.
      destruct (word_at_packet k c pkt [] Hpkt Hc) as (H0 & H4 & _). rewrite app_nil_r in *.
      exists (op c), (zlen pkt). rewrite Hl, word_at_app in H0, H4 by lia.
      split; [done|]. split; [by rewrite H4, <- Hl|lia].
Qed.

(** ** The render thread *)

(** The three decoders on the thread's world, its stream and the server; the decoders of
    OpenGL ES leave the render control's calls to the last. *)
Variables glDec gl2Dec : bytes -> list bytes * Server H -> Z * (list bytes * Server H).

Definition passes_on (dec : bytes -> list bytes * Server H -> Z * (list bytes * Server H)) : Prop :=
  forall l w, zlen l < 8 \/ (exists o, word_at 0 l = Some o /\ is_Some (table o)) -> dec l w = (0, w).

Hypothesis gl_passes : passes_on glDec.
Hypothesis gl2_passes : passes_on gl2Dec.
Variable realloc_ok : Z -> bool.
Hypothesis realloc_works : forall n, realloc_ok n = true.

Definition rcDec (l : bytes) (w : list bytes * Server H) : Z * (list bytes * Server H) :=
  let '(n, s) := decode l w.2 in (n, (w.1, s)).

Definition stream_read (len : Z) (w : list bytes * Server H) : option bytes * (list bytes * Server H) :=
  let '(r, chunks) := chunk_read len w.1 in (r, (chunks, w.2)).

Lemma first_word k cs pkts rest :
  sends k cs pkts -> pkts <> [] ->
  exists o, word_at 0 (concat pkts ++ rest) = Some o /\ is_Some (table o).
Proof.
  destruct 1 as [|k c pkt cs pkts Hpkt Hc _]; [done|]. intros _. exists (op c). cbn.
  rewrite <- app_assoc. split; [by apply (word_at_packet k c)|].
  destruct Hc as (_ & _ & (e & -> & _) & _). by eexists.
Qed.

(** [rest] begins a packet of the table. *)
Definition begins (rest : bytes) : Prop :=
  zlen rest < 8 \/ exists o, word_at 0 rest = Some o /\ is_Some (table o).

Lemma begins_prefix k cs pkts l more :
  sends k cs pkts -> l ++ more = concat pkts -> begins l.
Proof.
  intros Hs Hl. destruct (Z.lt_ge_cases (zlen l) 8) as [|H8]; [by left|right].
  destruct (decide (pkts = [])) as [->|Hne].
  - apply app_eq_nil in Hl as [-> _]. unfold zlen in H8. cbn in H8. lia.
  - destruct (first_word k cs pkts [] Hs Hne) as (o & Hw & Ho). exists o.
    rewrite app_nil_r, <- Hl, word_at_app in Hw by lia. done.
Qed.

Lemma decode_with_idle dec p b w used :
  passes_on dec -> begins (valid b) -> decode_with dec p b w used = (p, b, w, used).
Proof. intros Hd Hb. unfold decode_with. by rewrite (Hd (valid b) w Hb). Qed.

(** A run of the loop over the decoders serves the packets that are there. *)
Lemma decode_loop_packets k cs pkts rest n b chunks s used :
  sends k cs pkts -> in_step k (calc s) -> status s = Serving -> incomplete rest -> begins rest ->
  rb_wf b -> valid b = concat pkts ++ rest -> 0 < m_validData b < Z.of_nat n ->
  exists b', decode_loop glDec gl2Dec rcDec n b (chunks, s) used =
      Some (b', (chunks, serve_all cs s), used ++ concat pkts) /\
    rb_wf b' /\ valid b' = rest /\ m_size b' = m_size b.
Proof.
  intros Hs Hk Hst Hr Hbr Hb Hv Hn.
  assert (Hbv : begins (valid b)).
  { rewrite Hv. destruct (decide (pkts = [])) as [->|Hne]; [done|].
    right. by apply (first_word k cs). }
  assert (Hidle : forall n b, rb_wf b -> valid b = rest -> (0 < n)%nat ->
    forall s used, decode_loop glDec gl2Dec rcDec n b (chunks, s) used = Some (b, (chunks, s), used)).
  { intros n' b' Hb' Hv' Hn' s' used'. destruct n' as [|n']; [lia|]. cbn [decode_loop]. unfold decode_pass.
    rewrite !decode_with_idle by (done || by rewrite Hv'). unfold decode_with, rcDec. cbn [fst snd].
    assert (Hd : decode (valid b') s' = (0, s')).
    { unfold decode. cbn [decode_steps]. rewrite Hv', decode_step_incomplete by done. done. }
    by rewrite Hd. }
  destruct n as [|n]; [lia|]. cbn [decode_loop]. unfold decode_pass.
  rewrite !decode_with_idle by done. unfold decode_with, rcDec. cbn [fst snd].
  assert (Hdec : decode (valid b) s = (zlen (concat pkts), serve_all cs s)).
  { rewrite Hv. by apply (decode_packets k). }
  rewrite Hdec. destruct (Z.ltb_spec 0 (zlen (concat pkts))) as [Hpos|Hneg].
  - assert (Hlen : zlen (valid b) = m_validData b) by (by apply zlen_valid).
    assert (Hle : 0 <= zlen (concat pkts) <= m_validData b).
    { rewrite <- Hlen, Hv, zlen_app. pose proof (zlen_nonneg rest). lia. }
    destruct (consume_ok (zlen (concat pkts)) b Hb Hle) as [Hb' Hv'].
    assert (Hv2 : valid (consume (zlen (concat pkts)) b) = rest).
    { rewrite Hv, ztake_app_exact in Hv'. by apply app_inv_head in Hv'. }
    rewrite Hidle; [|done|done|lia].
    eexists. split; [rewrite Hv, ztake_app_exact; reflexivity|]. by split_and!.
  - assert (pkts = []) as ->.
    { destruct Hs as [|k c pkt cs pkts Hpkt Hc _]; [done|]. cbn in Hneg. rewrite zlen_app in Hneg.
      pose proof (packet_len k c pkt Hpkt Hc). pose proof (zlen_nonneg (concat pkts)). lia. }
    inversion Hs; subst. exists b. cbn. rewrite app_nil_r. by split_and!.
Qed.

Lemma stream_read_law : stream_law stream_read.
Proof.
  intros len w Hlen. unfold stream_read. pose proof (chunk_read_law len w.1 Hlen) as Hl.
  by destruct (chunk_read len w.1) as [[l|] chunks].
Qed.

(** A read of a stream that is not at its end. *)
Lemma getData_chunk b c chunks s :
  rb_wf b -> m_size b < 2 ^ 61 -> 0 < zlen c < 2 ^ 31 ->
  exists b' l chunks', getData stream_read realloc_ok b (c :: chunks, s) = (zlen l, b', (chunks', s)) /\
    rb_wf b' /\ valid b' = valid b ++ l /\ c ++ concat chunks = l ++ concat chunks' /\
    0 < zlen l < 2 ^ 31 /\ (chunks' = chunks \/ exists c', chunks' = c' :: chunks /\ 0 < zlen c' < 2 ^ 31).
Proof.
  intros Hb Hsize Hc.
  pose proof (getData_ok stream_read realloc_ok b (c :: chunks, s) stream_read_law Hb Hsize) as Hok.
  set (size := if m_size b - m_validData b =? 0 then grown_size (m_size b) else m_size b).
  set (len := size - m_validData b).
  assert (Hget : exists b', getData stream_read realloc_ok b (c :: chunks, s) =
    (i32 (zlen (ztake len c)), b', (if zlen c <=? len then chunks else zdrop len c :: chunks, s)) /\
    m_size b' = size).
  { unfold getData. rewrite realloc_works, andb_false_r. cbn [negb stream_read chunk_read fst snd].
    eexists. split; reflexivity. }
  destruct Hget as (b' & Hget & Hsize'). rewrite Hget in Hok. destruct Hok as (Hb' & _ & Hv).
  rewrite Hsize' in Hv. fold len in Hv.
  assert (Hlen : 0 < len).
  { destruct Hb. unfold len, size. destruct (Z.eqb_spec (m_size b - m_validData b) 0); [|lia].
    rewrite grown_size_ok by lia. lia. }
  assert (Hl : zlen (ztake len c) = Z.min len (zlen c)).
  { unfold zlen, ztake. rewrite length_take. lia. }
  rewrite wraps_id in Hget, Hv by (unfold in_s; lia).
  exists b', (ztake len c), (if zlen c <=? len then chunks else zdrop len c :: chunks).
  split; [done|]. split; [done|]. split; [|split; [|split]].
  - destruct Hv as [[Hv _]|(l & Hr & _ & ->)]; [lia|]. cbn in Hr. congruence.
  - destruct (Z.leb_spec (zlen c) len); cbn [concat].
    + by rewrite (ztake_all len c).
    + by rewrite app_assoc, ztake_zdrop.
  - lia.
  - destruct (Z.leb_spec (zlen c) len); [by left|right]. eexists. split; [done|].
    rewrite zlen_zdrop; lia.
Qed.

Variable bufsize : Z.
Hypothesis bufsize_range : 0 < bufsize < 2 ^ 60.

Definition a_chunk (c : bytes) : Prop := 0 < zlen c < 2 ^ 31.

(** The thread serves what arrives, in whatever pieces. *)
Lemma thread_serves n : forall b chunks s received used k cs pkts,
  sends k cs pkts -> in_step k (calc s) -> status s = Serving ->
  loop_inv bufsize b received used -> incomplete (valid b) ->
  valid b ++ concat chunks = concat pkts -> Forall a_chunk chunks ->
  zlen received + zlen (concat chunks) < 2 ^ 59 -> zlen (concat chunks) < Z.of_nat n ->
  exists b' received' used',
    thread_loop stream_read realloc_ok glDec gl2Dec rcDec n b (chunks, s) received used =
      (Left, b', ([], serve_all cs s), received', used') /\ valid b' = [].
Proof.
  induction n as [|n IH]; intros b chunks s received used k cs pkts Hs Hk Hst Hinv Hinc Hall Hch Htot Hn.
  { pose proof (zlen_nonneg (concat chunks)). lia. }
  cbn [thread_loop]. pose proof Hinv as (Hb & Hused & Hsize).
  pose proof (zlen_nonneg (concat chunks)). pose proof (zlen_nonneg received).
  destruct chunks as [|c chunks].
  - assert (pkts = [] /\ cs = []) as [-> ->].
    { destruct Hs as [|k c pkt cs pkts Hpkt Hc Hs]; [done|exfalso].
      rewrite app_nil_r in Hall. cbn in Hall.
      assert (Hstep : decode_step (valid b) s = (zlen pkt, serve c s)).
      { rewrite Hall. by apply (decode_step_packet k). }
      rewrite decode_step_incomplete in Hstep by done. pose proof (packet_len k c pkt Hpkt Hc).
      injection Hstep as Hz _. lia. }
    pose proof (getData_ok stream_read realloc_ok b ([], s) stream_read_law Hb ltac:(lia)) as Hok.
    unfold getData in *. rewrite realloc_works, andb_false_r in *. cbn [negb stream_read chunk_read fst snd] in *.
    destruct Hok as (_ & _ & [[_ Hv]|(l & Hr & _)]); [|done].
    eexists _, _, _. split; [reflexivity|]. rewrite Hv. rewrite app_nil_r in Hall. by rewrite Hall.
  - inversion Hch as [|? ? Hc Hch']; subst.
    destruct (getData_chunk b c chunks s Hb ltac:(lia) Hc)
      as (b1 & l & chunks1 & Hget & Hb1 & Hv1 & Hl & Hll & Hc1).
    pose proof (loop_step stream_read realloc_ok stream_read_law bufsize bufsize_range b
      (c :: chunks, s) (used ++ valid b) used Hinv ltac:(lia)) as Hstep.
    rewrite Hget in Hstep |- *. cbv zeta in Hstep.
    assert (Hnew : zdrop (m_validData b) (valid b1) = l).
    { rewrite Hv1. apply zdrop_app_eq. by rewrite zlen_valid. }
    rewrite Hnew in *. cbn [concat] in *. rewrite Hl, !zlen_app in Htot. rewrite Hl, zlen_app in Hn.
    pose proof (zlen_nonneg (concat chunks1)).
    specialize (Hstep ltac:(rewrite !zlen_app; lia)).
    replace (zlen l <=? 0) with false by lia.
    assert (Hall1 : valid b1 ++ concat chunks1 = concat pkts).
    { by rewrite Hv1, <- app_assoc, <- Hl. }
    destruct (packets_cut k cs pkts Hs (valid b1) (concat chunks1) Hall1)
      as (cs1 & cs2 & pk1 & pk2 & rest & k2 & -> & -> & Hv & Hm & Hi & Hs1 & Hs2 & Hk2).
    assert (Hpos : 0 < m_validData b1).
    { rewrite <- zlen_valid, Hv1, zlen_app by done. pose proof (zlen_nonneg (valid b)). lia. }
    destruct (decode_loop_packets k cs1 pk1 rest (S (Z.to_nat (m_validData b1))) b1 chunks1 s used)
      as (b2 & -> & Hb2 & Hv2 & Hs3); try done.
    { by apply (begins_prefix k2 cs2 pk2 rest (concat chunks1)). }
    { lia. }
    assert (Hst1 : status (serve_all cs1 s) = Serving).
    { clear -Hst. revert s Hst. induction cs1 as [|c cs1 IH]; intros s Hst; [done|]. by apply IH. }
    destruct (IH b2 chunks1 (serve_all cs1 s) ((used ++ valid b) ++ l) (used ++ concat pk1) k2 cs2 pk2)
      as (b3 & rec3 & used3 & -> & Hv3); try done.
    + by apply Hk2.
    + destruct Hstep as (_ & Hu & Hsz). split; [done|]. split; [|by rewrite Hs3].
      rewrite Hv2, <- app_assoc, <- Hv, Hv1. by rewrite app_assoc.
    + by rewrite Hv2.
    + by rewrite Hv2.
    + destruct Hc1 as [-> |(c' & -> & Hc')]; [done|by constructor].
    + rewrite !zlen_app. lia.
    + lia.
    + exists b3, rec3, used3. split; [|done]. unfold serve_all. by rewrite foldl_app.
Qed.
End decoder.

(** ** The render control *)

Definition scalars (n : nat) : list var := replicate n Scalar.

(** In the order of the file, from number 10000 on. *)
Definition rc_entries : list EntryPoint := [
  mkEntry [] true;                                                    (* rcGetRendererVersion *)
  mkEntry [PointerOut; PointerOut] true;                              (* rcGetEGLVersion *)
  mkEntry [Scalar; PointerOut; Scalar] true;                          (* rcQueryEGLString *)
  mkEntry [Scalar; PointerOut; Scalar] true;                          (* rcGetGLString *)
  mkEntry [PointerOut] true;                                          (* rcGetNumConfigs *)
  mkEntry [Scalar; PointerOut] true;                                  (* rcGetConfigs *)
  mkEntry [PointerIn; Scalar; PointerOut; Scalar] true;               (* rcChooseConfig *)
  mkEntry (scalars 1) true;                                           (* rcGetFBParam *)
  mkEntry (scalars 3) true;                                           (* rcCreateContext *)
  mkEntry (scalars 1) false;                                          (* rcDestroyContext *)
  mkEntry (scalars 3) true;                                           (* rcCreateWindowSurface *)
  mkEntry (scalars 1) false;                                          (* rcDestroyWindowSurface *)
  mkEntry (scalars 3) true;                                           (* rcCreateColorBuffer *)
  mkEntry (scalars 1) false;                                          (* rcOpenColorBuffer *)
  mkEntry (scalars 1) false;                                          (* rcCloseColorBuffer *)
  mkEntry (scalars 2) false;                                          (* rcSetWindowColorBuffer *)
  mkEntry (scalars 1) true;                                           (* rcFlushWindowColorBuffer *)
  mkEntry (scalars 3) true;                                           (* rcMakeCurrent *)
  mkEntry (scalars 1) false;                                          (* rcFBPost *)
  mkEntry (scalars 1) false;                                          (* rcFBSetSwapInterval *)
  mkEntry (scalars 1) false;                                          (* rcBindTexture *)
  mkEntry (scalars 1) false;                                          (* rcBindRenderbuffer *)
  mkEntry (scalars 3) true;                                           (* rcColorBufferCacheFlush *)
  mkEntry (scalars 7 ++ [PointerOut]) false;                          (* rcReadColorBuffer *)
  mkEntry (scalars 7 ++ [PointerIn]) true;                            (* rcUpdateColorBuffer *)
  mkEntry (scalars 1) true;                                           (* rcOpenColorBuffer2 *)
  mkEntry (scalars 3) true;                                           (* rcCreateClientImage *)
  mkEntry (scalars 1) true;                                           (* rcDestroyClientImage *)
  mkEntry (scalars 2) false;                                          (* rcSelectChecksumCalculator *)
  mkEntry [] true;                                                    (* rcGetNumDisplays *)
  mkEntry (scalars 1) true;                                           (* rcGetDisplayWidth *)
  mkEntry (scalars 1) true;                                           (* rcGetDisplayHeight *)
  mkEntry (scalars 1) true;                                           (* rcGetDisplayDpiX *)
  mkEntry (scalars 1) true;                                           (* rcGetDisplayDpiY *)
  mkEntry (scalars 1) true;                                           (* rcGetDisplayVsyncPeriod *)
  mkEntry (PointerIn :: scalars 10) false;                            (* rcPostLayer *)
  mkEntry [] false                                                    (* rcPostAllLayersDone *)
].

Definition base_opcode : Z := 10000.

Definition rc_table (opcode : Z) : option EntryPoint := zlookup rc_entries (opcode - base_opcode).
