(* ===== verification/Remote.v ===== *)
(** * A call from the guest is a call on the host

    The render control's functions are called in the guest through [renderControl_enc]
    (RenderControlEnc.v, on the stream of GuestStream.v) and run on the host by the
    decoder (Decoder.v) in the render thread (RenderThread.v).  A guest's program is a
    [client], a tree of calls each of which may depend on what the calls before it
    returned; [run_direct] runs it on the functions themselves, [run_remote] through the
    connection.  [calls_get_through]: it is the same. *)

From S2P Require Import Prelude Utils RenderThread Checksum GuestStream RenderControlEnc Decoder.

(** ** The calls *)

(** [rcSelectChecksumCalculator] is not among them: nothing calls it, since
    [setChecksumHelper] is not called. *)
Inductive rc_call :=
  | GetRendererVersion
  | GetEGLVersion
  | QueryEGLString (name bufferSize : Z)
  | GetGLString (name bufferSize : Z)
  | GetNumConfigs
  | GetConfigs (bufSize : Z)
  | ChooseConfig (attribs : bytes) (attribs_size : Z) (configs : bool) (configs_size : Z)
  | GetFBParam (param : Z)
  | CreateContext (config share glVersion : Z)
  | DestroyContext (context : Z)
  | CreateWindowSurface (config width height : Z)
  | DestroyWindowSurface (windowSurface : Z)
  | CreateColorBuffer (width height internalFormat : Z)
  | OpenColorBuffer (colorbuffer : Z)
  | CloseColorBuffer (colorbuffer : Z)
  | SetWindowColorBuffer (windowSurface colorBuffer : Z)
  | FlushWindowColorBuffer (windowSurface : Z)
  | MakeCurrent (context drawSurf readSurf : Z)
  | FBPost (colorBuffer : Z)
  | FBSetSwapInterval (interval : Z)
  | BindTexture (colorBuffer : Z)
  | BindRenderbuffer (colorBuffer : Z)
  | ColorBufferCacheFlush (colorbuffer postCount forRead : Z)
  | ReadColorBuffer (colorbuffer x y width height format type : Z)
  | UpdateColorBuffer (colorbuffer x y width height format type : Z) (pixels : option bytes)
  | OpenColorBuffer2 (colorbuffer : Z)
  | CreateClientImage (context target buffer : Z)
  | DestroyClientImage (image : Z)
  | GetNumDisplays
  | GetDisplayWidth (displayId : Z)
  | GetDisplayHeight (displayId : Z)
  | GetDisplayDpiX (displayId : Z)
  | GetDisplayDpiY (displayId : Z)
  | GetDisplayVsyncPeriod (displayId : Z)
  | PostLayer (name : list Z) (colorBuffer alpha : Z)
      (sourceCropLeft sourceCropTop sourceCropRight sourceCropBottom
       displayFrameLeft displayFrameTop displayFrameRight displayFrameBottom : Z)
  | PostAllLayersDone.

Section remote.
Variable host : bytes -> list Z.
Variable malloc_ok : Z -> bool.

(** The functions of the encoder's context. *)
Definition encode (c : rc_call) : E (list bytes) :=
  match c with
  | GetRendererVersion => rcGetRendererVersion_enc host malloc_ok
  | GetEGLVersion => rcGetEGLVersion_enc host malloc_ok
  | QueryEGLString name bufferSize => rcQueryEGLString_enc host malloc_ok name bufferSize
  | GetGLString name bufferSize => rcGetGLString_enc host malloc_ok name bufferSize
  | GetNumConfigs => rcGetNumConfigs_enc host malloc_ok
  | GetConfigs bufSize => rcGetConfigs_enc host malloc_ok bufSize
  | ChooseConfig attribs attribs_size configs configs_size => rcChooseConfig_enc host malloc_ok attribs attribs_size configs configs_size
  | GetFBParam param => rcGetFBParam_enc host malloc_ok param
  | CreateContext config share glVersion => rcCreateContext_enc host malloc_ok config share glVersion
  | DestroyContext context => rcDestroyContext_enc malloc_ok context
  | CreateWindowSurface config width height => rcCreateWindowSurface_enc host malloc_ok config width height
  | DestroyWindowSurface windowSurface => rcDestroyWindowSurface_enc malloc_ok windowSurface
  | CreateColorBuffer width height internalFormat => rcCreateColorBuffer_enc host malloc_ok width height internalFormat
  | OpenColorBuffer colorbuffer => rcOpenColorBuffer_enc malloc_ok colorbuffer
  | CloseColorBuffer colorbuffer => rcCloseColorBuffer_enc malloc_ok colorbuffer
  | SetWindowColorBuffer windowSurface colorBuffer => rcSetWindowColorBuffer_enc malloc_ok windowSurface colorBuffer
  | FlushWindowColorBuffer windowSurface => rcFlushWindowColorBuffer_enc host malloc_ok windowSurface
  | MakeCurrent context drawSurf readSurf => rcMakeCurrent_enc host malloc_ok context drawSurf readSurf
  | FBPost colorBuffer => rcFBPost_enc malloc_ok colorBuffer
  | FBSetSwapInterval interval => rcFBSetSwapInterval_enc malloc_ok interval
  | BindTexture colorBuffer => rcBindTexture_enc malloc_ok colorBuffer
  | BindRenderbuffer colorBuffer => rcBindRenderbuffer_enc malloc_ok colorBuffer
  | ColorBufferCacheFlush colorbuffer postCount forRead => rcColorBufferCacheFlush_enc host malloc_ok colorbuffer postCount forRead
  | ReadColorBuffer colorbuffer x y width height format type => rcReadColorBuffer_enc host malloc_ok colorbuffer x y width height format type
  | UpdateColorBuffer colorbuffer x y width height format type pixels => rcUpdateColorBuffer_enc host malloc_ok colorbuffer x y width height format type pixels
  | OpenColorBuffer2 colorbuffer => rcOpenColorBuffer2_enc host malloc_ok colorbuffer
  | CreateClientImage context target buffer => rcCreateClientImage_enc host malloc_ok context target buffer
  | DestroyClientImage image => rcDestroyClientImage_enc host malloc_ok image
  | GetNumDisplays => rcGetNumDisplays_enc host malloc_ok
  | GetDisplayWidth displayId => rcGetDisplayWidth_enc host malloc_ok displayId
  | GetDisplayHeight displayId => rcGetDisplayHeight_enc host malloc_ok displayId
  | GetDisplayDpiX displayId => rcGetDisplayDpiX_enc host malloc_ok displayId
  | GetDisplayDpiY displayId => rcGetDisplayDpiY_enc host malloc_ok displayId
  | GetDisplayVsyncPeriod displayId => rcGetDisplayVsyncPeriod_enc host malloc_ok displayId
  | PostLayer name colorBuffer alpha sourceCropLeft sourceCropTop sourceCropRight sourceCropBottom displayFrameLeft displayFrameTop displayFrameRight displayFrameBottom => rcPostLayer_enc malloc_ok name colorBuffer alpha sourceCropLeft sourceCropTop sourceCropRight sourceCropBottom displayFrameLeft displayFrameTop displayFrameRight displayFrameBottom
  | PostAllLayersDone => rcPostAllLayersDone_enc malloc_ok
  end.

(** The packet: the number, the size without the checksum, what is put in it, and what
    is read of the answer.  [UpdateColorBuffer] puts the same together in pieces. *)
Definition packed (c : rc_call) : Z * Z * list field * list Z :=
  match c with
  | GetRendererVersion =>
      (OP_rcGetRendererVersion, 8, [], [4])
  | GetEGLVersion =>
      (OP_rcGetEGLVersion, u32 (8 + 4 + 4 + 2 * 4), [Word 4; Word 4], [4; 4; 4])
  | QueryEGLString name bufferSize =>
      (OP_rcQueryEGLString, u32 (8 + 4 + u32 bufferSize + 4 + 1 * 4),
       [Word name; Word (u32 bufferSize); Word bufferSize], [u32 bufferSize; 4])
  | GetGLString name bufferSize =>
      (OP_rcGetGLString, u32 (8 + 4 + u32 bufferSize + 4 + 1 * 4),
       [Word name; Word (u32 bufferSize); Word bufferSize], [u32 bufferSize; 4])
  | GetNumConfigs =>
      (OP_rcGetNumConfigs, u32 (8 + 4 + 1 * 4), [Word 4], [4; 4])
  | GetConfigs bufSize =>
      (OP_rcGetConfigs, u32 (8 + 4 + u32 bufSize + 1 * 4), [Word bufSize; Word (u32 bufSize)],
       [u32 bufSize; 4])
  | ChooseConfig attribs attribs_size configs configs_size =>
      let n := u32 attribs_size in
      let m := if configs then u32 (configs_size * 4) else 0 in
      (OP_rcChooseConfig, u32 (8 + n + 4 + m + 4 + 2 * 4),
       [Word n; Mem attribs n; Word attribs_size; Word m; Word configs_size],
       if configs then [m; 4] else [4])
  | GetFBParam param =>
      (OP_rcGetFBParam, 8 + 4, [Word param], [4])
  | CreateContext config share glVersion =>
      (OP_rcCreateContext, 8 + 4 + 4 + 4, [Word config; Word share; Word glVersion], [4])
  | DestroyContext context =>
      (OP_rcDestroyContext, 8 + 4, [Word context], [])
  | CreateWindowSurface config width height =>
      (OP_rcCreateWindowSurface, 8 + 4 + 4 + 4, [Word config; Word width; Word height], [4])
  | DestroyWindowSurface windowSurface =>
      (OP_rcDestroyWindowSurface, 8 + 4, [Word windowSurface], [])
  | CreateColorBuffer width height internalFormat =>
      (OP_rcCreateColorBuffer, 8 + 4 + 4 + 4, [Word width; Word height; Word internalFormat], [4])
  | OpenColorBuffer colorbuffer =>
      (OP_rcOpenColorBuffer, 8 + 4, [Word colorbuffer], [])
  | CloseColorBuffer colorbuffer =>
      (OP_rcCloseColorBuffer, 8 + 4, [Word colorbuffer], [])
  | SetWindowColorBuffer windowSurface colorBuffer =>
      (OP_rcSetWindowColorBuffer, 8 + 4 + 4, [Word windowSurface; Word colorBuffer], [])
  | FlushWindowColorBuffer windowSurface =>
      (OP_rcFlushWindowColorBuffer, 8 + 4, [Word windowSurface], [4])
  | MakeCurrent context drawSurf readSurf =>
      (OP_rcMakeCurrent, 8 + 4 + 4 + 4, [Word context; Word drawSurf; Word readSurf], [4])
  | FBPost colorBuffer =>
      (OP_rcFBPost, 8 + 4, [Word colorBuffer], [])
  | FBSetSwapInterval interval =>
      (OP_rcFBSetSwapInterval, 8 + 4, [Word interval], [])
  | BindTexture colorBuffer =>
      (OP_rcBindTexture, 8 + 4, [Word colorBuffer], [])
  | BindRenderbuffer colorBuffer =>
      (OP_rcBindRenderbuffer, 8 + 4, [Word colorBuffer], [])
  | ColorBufferCacheFlush colorbuffer postCount forRead =>
      (OP_rcColorBufferCacheFlush, 8 + 4 + 4 + 4, [Word colorbuffer; Word postCount; Word forRead], [4])
  | ReadColorBuffer colorbuffer x y width height format type =>
      let n := size_pixels width height format type in
      (OP_rcReadColorBuffer, u32 (8 + 4 + 4 + 4 + 4 + 4 + 4 + 4 + n + 1 * 4),
       [Word colorbuffer; Word x; Word y; Word width; Word height; Word format; Word type; Word n],
       [n])
  | UpdateColorBuffer colorbuffer x y width height format type pixels =>
      let n := size_pixels width height format type in
      (OP_rcUpdateColorBuffer, u32 (8 + 4 + 4 + 4 + 4 + 4 + 4 + 4 + n + 1 * 4),
       [Word colorbuffer; Word x; Word y; Word width; Word height; Word format; Word type; Word n; Mem (default [] pixels) n],
       [4])
  | OpenColorBuffer2 colorbuffer =>
      (OP_rcOpenColorBuffer2, 8 + 4, [Word colorbuffer], [4])
  | CreateClientImage context target buffer =>
      (OP_rcCreateClientImage, 8 + 4 + 4 + 4, [Word context; Word target; Word buffer], [4])
  | DestroyClientImage image =>
      (OP_rcDestroyClientImage, 8 + 4, [Word image], [4])
  | GetNumDisplays =>
      (OP_rcGetNumDisplays, 8, [], [4])
  | GetDisplayWidth displayId =>
      (OP_rcGetDisplayWidth, 8 + 4, [Word displayId], [4])
  | GetDisplayHeight displayId =>
      (OP_rcGetDisplayHeight, 8 + 4, [Word displayId], [4])
  | GetDisplayDpiX displayId =>
      (OP_rcGetDisplayDpiX, 8 + 4, [Word displayId], [4])
  | GetDisplayDpiY displayId =>
      (OP_rcGetDisplayDpiY, 8 + 4, [Word displayId], [4])
  | GetDisplayVsyncPeriod displayId =>
      (OP_rcGetDisplayVsyncPeriod, 8 + 4, [Word displayId], [4])
  | PostLayer name colorBuffer alpha sourceCropLeft sourceCropTop sourceCropRight sourceCropBottom displayFrameLeft displayFrameTop displayFrameRight displayFrameBottom =>
      let n := u32 (zlen name + 1) in
      (OP_rcPostLayer, u32 (8 + n + 4 + 4 + 4 + 4 + 4 + 4 + 4 + 4 + 4 + 4 + 1 * 4),
       [Word n; Mem (Some <$> name ++ [0]) n; Word colorBuffer; Word alpha;
        Word sourceCropLeft; Word sourceCropTop; Word sourceCropRight; Word sourceCropBottom;
        Word displayFrameLeft; Word displayFrameTop; Word displayFrameRight; Word displayFrameBottom], [])
  | PostAllLayersDone =>
      (OP_rcPostAllLayersDone, 8, [], [])
  end.

(** What the function on the host is called with. *)
Definition remote (c : rc_call) : call :=
  match c with
  | GetRendererVersion =>
      mkCall OP_rcGetRendererVersion []
  | GetEGLVersion =>
      mkCall OP_rcGetEGLVersion [OutPtr 4; OutPtr 4]
  | QueryEGLString name bufferSize =>
      mkCall OP_rcQueryEGLString [Val (u32 name); OutPtr (u32 bufferSize); Val (u32 bufferSize)]
  | GetGLString name bufferSize =>
      mkCall OP_rcGetGLString [Val (u32 name); OutPtr (u32 bufferSize); Val (u32 bufferSize)]
  | GetNumConfigs =>
      mkCall OP_rcGetNumConfigs [OutPtr 4]
  | GetConfigs bufSize =>
      mkCall OP_rcGetConfigs [Val (u32 bufSize); OutPtr (u32 bufSize)]
  | ChooseConfig attribs attribs_size configs configs_size =>
      mkCall OP_rcChooseConfig [InPtr (ztake (u32 attribs_size) attribs); Val (u32 attribs_size); OutPtr (if configs then u32 (configs_size * 4) else 0);
         Val (u32 configs_size)]
  | GetFBParam param =>
      mkCall OP_rcGetFBParam [Val (u32 param)]
  | CreateContext config share glVersion =>
      mkCall OP_rcCreateContext [Val (u32 config); Val (u32 share); Val (u32 glVersion)]
  | DestroyContext context =>
      mkCall OP_rcDestroyContext [Val (u32 context)]
  | CreateWindowSurface config width height =>
      mkCall OP_rcCreateWindowSurface [Val (u32 config); Val (u32 width); Val (u32 height)]
  | DestroyWindowSurface windowSurface =>
      mkCall OP_rcDestroyWindowSurface [Val (u32 windowSurface)]
  | CreateColorBuffer width height internalFormat =>
      mkCall OP_rcCreateColorBuffer [Val (u32 width); Val (u32 height); Val (u32 internalFormat)]
  | OpenColorBuffer colorbuffer =>
      mkCall OP_rcOpenColorBuffer [Val (u32 colorbuffer)]
  | CloseColorBuffer colorbuffer =>
      mkCall OP_rcCloseColorBuffer [Val (u32 colorbuffer)]
  | SetWindowColorBuffer windowSurface colorBuffer =>
      mkCall OP_rcSetWindowColorBuffer [Val (u32 windowSurface); Val (u32 colorBuffer)]
  | FlushWindowColorBuffer windowSurface =>
      mkCall OP_rcFlushWindowColorBuffer [Val (u32 windowSurface)]
  | MakeCurrent context drawSurf readSurf =>
      mkCall OP_rcMakeCurrent [Val (u32 context); Val (u32 drawSurf); Val (u32 readSurf)]
  | FBPost colorBuffer =>
      mkCall OP_rcFBPost [Val (u32 colorBuffer)]
  | FBSetSwapInterval interval =>
      mkCall OP_rcFBSetSwapInterval [Val (u32 interval)]
  | BindTexture colorBuffer =>
      mkCall OP_rcBindTexture [Val (u32 colorBuffer)]
  | BindRenderbuffer colorBuffer =>
      mkCall OP_rcBindRenderbuffer [Val (u32 colorBuffer)]
  | ColorBufferCacheFlush colorbuffer postCount forRead =>
      mkCall OP_rcColorBufferCacheFlush [Val (u32 colorbuffer); Val (u32 postCount); Val (u32 forRead)]
  | ReadColorBuffer colorbuffer x y width height format type =>
      mkCall OP_rcReadColorBuffer [Val (u32 colorbuffer); Val (u32 x); Val (u32 y); Val (u32 width); Val (u32 height);
         Val (u32 format); Val (u32 type); OutPtr (size_pixels width height format type)]
  | UpdateColorBuffer colorbuffer x y width height format type pixels =>
      mkCall OP_rcUpdateColorBuffer [Val (u32 colorbuffer); Val (u32 x); Val (u32 y); Val (u32 width); Val (u32 height);
         Val (u32 format); Val (u32 type); InPtr (ztake (size_pixels width height format type) (default [] pixels))]
  | OpenColorBuffer2 colorbuffer =>
      mkCall OP_rcOpenColorBuffer2 [Val (u32 colorbuffer)]
  | CreateClientImage context target buffer =>
      mkCall OP_rcCreateClientImage [Val (u32 context); Val (u32 target); Val (u32 buffer)]
  | DestroyClientImage image =>
      mkCall OP_rcDestroyClientImage [Val (u32 image)]
  | GetNumDisplays =>
      mkCall OP_rcGetNumDisplays []
  | GetDisplayWidth displayId =>
      mkCall OP_rcGetDisplayWidth [Val (u32 displayId)]
  | GetDisplayHeight displayId =>
      mkCall OP_rcGetDisplayHeight [Val (u32 displayId)]
  | GetDisplayDpiX displayId =>
      mkCall OP_rcGetDisplayDpiX [Val (u32 displayId)]
  | GetDisplayDpiY displayId =>
      mkCall OP_rcGetDisplayDpiY [Val (u32 displayId)]
  | GetDisplayVsyncPeriod displayId =>
      mkCall OP_rcGetDisplayVsyncPeriod [Val (u32 displayId)]
  | PostLayer name colorBuffer alpha sourceCropLeft sourceCropTop sourceCropRight sourceCropBottom displayFrameLeft displayFrameTop displayFrameRight displayFrameBottom =>
      mkCall OP_rcPostLayer [InPtr (Some <$> name ++ [0]); Val (u32 colorBuffer); Val (u32 alpha); Val (u32 sourceCropLeft); Val (u32 sourceCropTop); Val (u32 sourceCropRight);
         Val (u32 sourceCropBottom); Val (u32 displayFrameLeft); Val (u32 displayFrameTop); Val (u32 displayFrameRight); Val (u32 displayFrameBottom)]
  | PostAllLayersDone =>
      mkCall OP_rcPostAllLayersDone []
  end.

(** ** What is asked of the arguments *)

(** The memory is there, and a packet is less than a gigabyte. *)
Definition fits (c : rc_call) : Prop :=
  match c with
  | QueryEGLString _ n | GetGLString _ n | GetConfigs n => 0 <= n < 2 ^ 30
  | ChooseConfig attribs n _ m => 0 <= n <= zlen attribs /\ n < 2 ^ 29 /\ 0 <= m < 2 ^ 27
  | ReadColorBuffer _ _ _ w h f t => size_pixels w h f t < 2 ^ 30
  | UpdateColorBuffer _ _ _ w h f t pixels =>
      size_pixels w h f t < 2 ^ 30 /\
      match pixels with Some l => size_pixels w h f t <= zlen l | None => size_pixels w h f t = 0 end
  | PostLayer name _ _ _ _ _ _ _ _ _ _ => zlen name < 2 ^ 30
  | _ => True
  end.

Lemma le4_wrap z : little_endian 4 (u32 z) = little_endian 4 z.
Proof.
  pose proof (wrapu_range 32 z ltac:(lia)) as Hr.
  assert (Hmod : forall n x y, x mod 256 ^ Z.of_nat n = y mod 256 ^ Z.of_nat n ->
    little_endian n x = little_endian n y).
  { induction n as [|n IH]; intros x y Hxy; [done|]. cbn [little_endian].
    rewrite Nat2Z.inj_succ, Z.pow_succ_r in Hxy by lia.
    rewrite !Z.rem_mul_r in Hxy by lia.
    assert (0 <= x mod 256 < 256) by (apply Z.mod_pos_bound; lia).
    assert (0 <= y mod 256 < 256) by (apply Z.mod_pos_bound; lia).
    f_equal; [lia|apply IH; lia]. }
  apply Hmod. change (256 ^ Z.of_nat 4) with (2 ^ 32).
  change (u32 z mod 2 ^ 32) with (wrapu 32 (u32 z)). change (z mod 2 ^ 32) with (wrapu 32 z).
  by apply wrapu_id.
Qed.

Lemma size_pixels_range w h f t : in_u 32 (size_pixels w h f t).
Proof. apply wrapu_range. lia. Qed.

Record packed_ok (c : rc_call) : Prop := {
  po_op : (packed c).1.1.1 = op (remote c);
  po_fields : Forall field_ok (packed c).1.2;
  po_payload : payload (packed c).1.2 = args_bytes (args (remote c));
  po_fits : 8 + zlen (payload (packed c).1.2) <= (packed c).1.1.2;
  po_size : (packed c).1.1.2 < 2 ^ 31 - 16;
  po_args : Forall arg_ok (args (remote c));
  po_opcode : in_u 32 (op (remote c));
  po_entry : exists e, rc_table (op (remote c)) = Some e /\ vars e = arg_var <$> args (remote c) /\
    has_reply e = bool_decide ((packed c).2 <> [])
}.

Lemma payload_word z fs : payload (Word z :: fs) = (Some <$> little_endian 4 z) ++ payload fs.
Proof. done. Qed.
Lemma payload_mem l n fs : payload (Mem l n :: fs) = ztake n l ++ payload fs.
Proof. done. Qed.
Lemma args_val z l : args_bytes (Val (u32 z) :: l) = (Some <$> little_endian 4 z) ++ args_bytes l.
Proof. unfold args_bytes. cbn [fmap list_fmap concat arg_bytes]. by rewrite le4_wrap. Qed.
Lemma args_in m l : args_bytes (InPtr m :: l) = (Some <$> little_endian 4 (zlen m)) ++ m ++ args_bytes l.
Proof. unfold args_bytes. cbn [fmap list_fmap concat arg_bytes]. by rewrite <- app_assoc. Qed.
Lemma args_out n l : args_bytes (OutPtr n :: l) = (Some <$> little_endian 4 n) ++ args_bytes l.
Proof. done. Qed.
Lemma u32_small n : 0 <= n < 2 ^ 32 -> u32 n = n.
Proof. apply wrapu_id. Qed.

Lemma zlen_payload fs : Forall field_ok fs -> zlen (payload fs) = total (field_size <$> fs).
Proof.
  induction 1 as [|f fs Hf _ IH]; [done|]. rewrite zlen_payload_cons, IH, zlen_field by done. done.
Qed.

(** The goals of [packed_ok] for arguments one knows the number of. *)
Ltac fields_ok := repeat (constructor; [cbn [field_ok]; first [exact I|lia]|]); constructor.
Ltac same_bytes :=
  repeat first [rewrite payload_word|rewrite payload_mem|rewrite args_val|rewrite args_out|rewrite args_in];
  reflexivity.
Ltac args_range :=
  repeat (constructor; [cbn [arg_ok]; first [apply wrapu_range; lia|unfold in_u; lia]|]); constructor.
Ltac packed_tac tac :=
  constructor; cbn [packed remote fst snd op args]; tac;
    [done|fields_ok|same_bytes|rewrite zlen_payload; [cbn; lia|fields_ok]|lia|args_range
    |by split; vm_compute|eexists; split; [reflexivity|split; reflexivity]].

Lemma packed_plain c :
  match c with
  | GetEGLVersion | QueryEGLString _ _ | GetGLString _ _ | GetNumConfigs | GetConfigs _
  | ChooseConfig _ _ _ _ | ReadColorBuffer _ _ _ _ _ _ _ | UpdateColorBuffer _ _ _ _ _ _ _ _
  | PostLayer _ _ _ _ _ _ _ _ _ _ _ => False
  | _ => True
  end -> packed_ok c.
Proof. destruct c; intros Hc; try done; packed_tac idtac. Qed.

Lemma packed_numbers : packed_ok GetEGLVersion /\ packed_ok GetNumConfigs.
Proof.
  assert (u32 (8 + 4 + 4 + 2 * 4) = 24) as H1 by (apply u32_small; lia).
  assert (u32 (8 + 4 + 1 * 4) = 16) as H2 by (apply u32_small; lia).
  split; packed_tac ltac:(rewrite ?H1, ?H2).
Qed.

Lemma packed_string name n : 0 <= n < 2 ^ 30 ->
  packed_ok (QueryEGLString name n) /\ packed_ok (GetGLString name n).
Proof.
  intros Hn. assert (u32 n = n) as Hu by (apply u32_small; lia).
  assert (u32 (8 + 4 + u32 n + 4 + 1 * 4) = 20 + n) as H1 by (rewrite Hu, u32_small; lia).
  split; packed_tac ltac:(rewrite ?H1).
Qed.

Lemma packed_configs n : 0 <= n < 2 ^ 30 -> packed_ok (GetConfigs n).
Proof.
  intros Hn. assert (u32 (8 + 4 + u32 n + 1 * 4) = 16 + n) as H1 by (rewrite (u32_small n) by lia; rewrite u32_small; lia).
  packed_tac ltac:(rewrite ?H1).
Qed.

Lemma packed_choose attribs n b m :
  0 <= n <= zlen attribs -> n < 2 ^ 29 -> 0 <= m < 2 ^ 27 -> packed_ok (ChooseConfig attribs n b m).
Proof.
  assert (He : rc_table OP_rcChooseConfig = Some (mkEntry [PointerIn; Scalar; PointerOut; Scalar] true))
    by reflexivity.
  intros Hn Hn' Hm. assert (u32 n = n) as Hu by (apply u32_small; lia).
  set (k := if b then u32 (m * 4) else 0).
  assert (0 <= k < 2 ^ 29) by (unfold k; destruct b; [rewrite u32_small|]; lia).
  assert (u32 (8 + u32 n + 4 + k + 4 + 2 * 4) = 24 + n + k) as H1 by (rewrite Hu, u32_small; lia).
  assert (zlen (ztake n attribs) = n) as Hl by (apply zlen_ztake; lia).
  constructor; cbn [packed remote fst snd op args]; fold k; rewrite ?H1;
    [done|fields_ok| |rewrite zlen_payload; [cbn; lia|fields_ok]|lia| |by split; vm_compute|].
  - repeat first [rewrite payload_word|rewrite payload_mem|rewrite args_val|rewrite args_out|rewrite args_in].
    by rewrite Hu, Hl.
  - rewrite Hu. constructor; [cbn; unfold in_u; lia|args_range].
  - eexists. split; [exact He|]. by destruct b.
Qed.

Lemma packed_read cb x y w h f t : size_pixels w h f t < 2 ^ 30 -> packed_ok (ReadColorBuffer cb x y w h f t).
Proof.
  intros Hn. pose proof (size_pixels_range w h f t) as Hr. unfold in_u in Hr.
  set (n := size_pixels w h f t) in *.
  assert (u32 (8 + 4 + 4 + 4 + 4 + 4 + 4 + 4 + n + 1 * 4) = 40 + n) as H1 by (rewrite u32_small; lia).
  packed_tac ltac:(fold n; rewrite ?H1).
Qed.

Lemma packed_update cb x y w h f t pixels :
  fits (UpdateColorBuffer cb x y w h f t pixels) -> packed_ok (UpdateColorBuffer cb x y w h f t pixels).
Proof.
  intros [Hn Hp]. pose proof (size_pixels_range w h f t) as Hr. unfold in_u in Hr.
  set (n := size_pixels w h f t) in *.
  assert (u32 (8 + 4 + 4 + 4 + 4 + 4 + 4 + 4 + n + 1 * 4) = 40 + n) as H1 by (rewrite u32_small; lia).
  assert (Hle : n <= zlen (default [] pixels)) by (destruct pixels; cbn; [done|unfold zlen; cbn; lia]).
  assert (zlen (ztake n (default [] pixels)) = n) as Hl by (apply zlen_ztake; lia).
  constructor; cbn [packed remote fst snd op args]; fold n; rewrite ?H1;
    [done|fields_ok| |rewrite zlen_payload; [cbn; lia|fields_ok]|lia|
    |by split; vm_compute|eexists; split; [reflexivity|split; reflexivity]].
  - repeat first [rewrite payload_word|rewrite payload_mem|rewrite args_val|rewrite args_out|rewrite args_in].
    by rewrite Hl.
  - do 7 (constructor; [apply wrapu_range; lia|]). constructor; [|constructor]. cbn. unfold in_u. lia.
Qed.

Lemma packed_post name cb alpha l t r b l' t' r' b' :
  zlen name < 2 ^ 30 -> packed_ok (PostLayer name cb alpha l t r b l' t' r' b').
Proof.
  intros Hn. pose proof (zlen_nonneg name).
  assert (zlen (Some <$> name ++ [0]) = zlen name + 1) as Hl.
  { unfold zlen. rewrite length_fmap, length_app. cbn. lia. }
  assert (u32 (zlen name + 1) = zlen name + 1) as Hu by (apply u32_small; lia).
  assert (u32 (8 + (zlen name + 1) + 4 + 4 + 4 + 4 + 4 + 4 + 4 + 4 + 4 + 4 + 1 * 4) = 53 + zlen name) as H1
    by (rewrite u32_small; lia).
  constructor; cbn [packed remote fst snd op args]; rewrite ?Hu, ?H1;
    [done|fields_ok| |rewrite zlen_payload; [cbn [total field_size fmap list_fmap foldr]; lia|fields_ok]|lia|
    |by split; vm_compute|eexists; split; [reflexivity|split; reflexivity]].
  - repeat first [rewrite payload_word|rewrite payload_mem|rewrite args_val|rewrite args_out|rewrite args_in].
    by rewrite Hl, ztake_all by lia.
  - constructor; [cbn [arg_ok]; unfold in_u; lia|args_range].
Qed.

Lemma packed_is_ok c : fits c -> packed_ok c.
Proof.
  intros Hc. destruct c; try (by apply packed_plain); cbn [fits] in Hc.
  - apply packed_numbers.
  - by apply packed_string.
  - by apply packed_string.
  - apply packed_numbers.
  - by apply packed_configs.
  - apply packed_choose; lia.
  - by apply packed_read.
  - by apply packed_update.
  - by apply packed_post.
Qed.

(** ** Every function sends its packet *)

Ltac step_run :=
  match goal with
  | |- Ret _ _ = _ => reflexivity
  | |- Blocked = _ => reflexivity
  | |- Died = _ => reflexivity
  | |- context [match ?m ?c with Ret _ _ => _ | Blocked => _ | Died => _ end] => destruct (m c)
  end.

Ltac same_run := repeat (repeat rewrite ?E_bind_run, ?E_ret_run; step_run).

Definition in_one_packet (c : rc_call) : Prop :=
  match c with CloseColorBuffer _ | UpdateColorBuffer _ _ _ _ _ _ _ _ => False | _ => True end.

Lemma encode_packed c st :
  in_one_packet c ->
  encode c st = (packet malloc_ok (packed c).1.1.1 (packed c).1.1.2 (packed c).1.2 ;;
                 finish host (packed c).2) st.
Proof.
  intros Hc. destruct c; try done; cbn [encode packed fst snd finish replies];
    cbv beta zeta delta [
    rcGetRendererVersion_enc rcGetEGLVersion_enc rcQueryEGLString_enc rcGetGLString_enc
      rcGetNumConfigs_enc rcGetConfigs_enc rcChooseConfig_enc rcGetFBParam_enc rcCreateContext_enc
      rcDestroyContext_enc rcCreateWindowSurface_enc rcDestroyWindowSurface_enc
      rcCreateColorBuffer_enc rcOpenColorBuffer_enc rcCloseColorBuffer_enc
      rcSetWindowColorBuffer_enc rcFlushWindowColorBuffer_enc rcMakeCurrent_enc rcFBPost_enc
      rcFBSetSwapInterval_enc rcBindTexture_enc rcBindRenderbuffer_enc rcColorBufferCacheFlush_enc
      rcReadColorBuffer_enc rcUpdateColorBuffer_enc rcOpenColorBuffer2_enc rcCreateClientImage_enc
      rcDestroyClientImage_enc rcGetNumDisplays_enc rcGetDisplayWidth_enc rcGetDisplayHeight_enc
      rcGetDisplayDpiX_enc rcGetDisplayDpiY_enc rcGetDisplayVsyncPeriod_enc rcPostLayer_enc
      rcPostAllLayersDone_enc];
    try destruct configs; cbn [finish replies app]; same_run.
Qed.

(** The packet of [rcUpdateColorBuffer], the pixels past the buffer. *)
Definition update_packet (size : Z) (fs : list field) (pixels : option bytes) : E unit :=
  checksumSize ← getc (fun c => checksumByteSize (m_checksumHelper c));
  let totalSize := u64 (u32 (8 + 4 + 4 + 4 + 4 + 4 + 4 + 4 + size + 1 * 4) + checksumSize) in
  buf ← alloc malloc_ok (8 + 4 + 4 + 4 + 4 + 4 + 4 + 4);
  match buf with
  | None => died
  | Some buf =>
      ptr ← put buf (Word OP_rcUpdateColorBuffer :: Word totalSize :: fs);
      add (ptr - buf) ;;
      flush ;;
      writeFully (Some (Some <$> little_endian 4 size)) 4 ;; add 4 ;;
      writeFully pixels size ;; add size ;;
      buf ← alloc malloc_ok checksumSize;
      match buf with
      | None => with_checksum tt (fun _ => died)
      | Some buf => seal buf
      end
  end.

Lemma encode_update cb x y w h f t pixels st :
  encode (UpdateColorBuffer cb x y w h f t pixels) st =
    (update_packet (size_pixels w h f t)
       [Word cb; Word x; Word y; Word w; Word h; Word f; Word t] pixels ;; finish host [4]) st.
Proof.
  cbn [encode finish replies]. cbv beta zeta delta [rcUpdateColorBuffer_enc update_packet].
  repeat rewrite ?E_bind_run, ?E_ret_run. step_run; [|reflexivity..].
  repeat rewrite ?E_bind_run, ?E_ret_run. step_run; [|reflexivity..].
  match goal with b : option Z |- _ => destruct b end; [|reflexivity]. same_run.
Qed.

Lemma sealed_total lens lens' k : idle k -> total lens = total lens' -> sealed lens k = sealed lens' k.
Proof.
  intros Hk Ht. destruct (addBuffers_counts lens k) as (Hv & _), (addBuffers_counts lens' k) as (Hv' & _).
  unfold sealed, checksum_bytes. rewrite Hv, Hv'. destruct (Z.eqb_spec (m_version k) 1) as [H1|]; [|done].
  unfold computeV1Checksum. rewrite !addBuffers_total by (try done; rewrite (idle_length k Hk); done).
  by rewrite Ht.
Qed.

Lemma writeFully_front wb rb l n c :
  0 <= n <= zlen l -> conn_ok (n + wb) rb c -> 0 <= wb -> pending c = [] ->
  exists c', writeFully (Some l) n c = Ret 0 c' /\ conn_ok wb rb c' /\
    sent c' = sent c ++ ztake n l /\ pending c' = [] /\ same_rest c c'.
Proof.
  intros Hn Hc Hwb Hp. pose proof (zlen_ztake n l Hn) as Hl.
  destruct (writeFully_ok wb rb (ztake n l) c) as (c' & Hw & Hc' & Hs & Hp' & Hr & _);
    [by rewrite Hl|done|done|].
  exists c'. split; [|done]. rewrite <- Hw, Hl. unfold writeFully.
  rewrite Hl, Z.ltb_irrefl, (ztake_all n (ztake n l)) by lia. by replace (zlen l <? n) with false by lia.
Qed.

(** The pixels, or nothing at all. *)
Lemma write_pixels wb rb pixels n c :
  match pixels with Some l => 0 <= n <= zlen l | None => n = 0 end ->
  conn_ok (n + wb) rb c -> 0 <= wb -> pending c = [] ->
  exists c', writeFully pixels n c = Ret 0 c' /\ conn_ok wb rb c' /\
    sent c' = sent c ++ ztake n (default [] pixels) /\ pending c' = [] /\ same_rest c c'.
Proof.
  destruct pixels as [l|]; intros Hn Hc Hwb Hp; [by apply writeFully_front|]. subst n. exists c.
  unfold writeFully, is_open. pose proof (ok_sock _ _ _ Hc). replace (0 <=? m_sock c) with true by lia.
  cbn [negb Z.ltb Z.compare default]. by rewrite app_nil_r.
Qed.

Hypothesis malloc_works : forall n, 0 <= n < 2 ^ 31 -> malloc_ok n = true.

Lemma byte_size_range k : 0 <= checksumByteSize k <= 8.
Proof. unfold checksumByteSize, kV1ChecksumSize. repeat case_match; lia. Qed.

Lemma update_sent wb rb size fs pixels k c :
  idle k -> m_checksumHelper c = k -> Forall field_ok fs -> zlen (payload fs) = 28 ->
  match pixels with Some l => 0 <= size <= zlen l | None => size = 0 end -> size < 2 ^ 30 ->
  let total := 40 + size + checksumByteSize k in
  0 <= wb -> conn_ok (total + wb) rb c ->
  exists c', update_packet size fs pixels c = Ret tt c' /\ conn_ok wb rb c' /\
    wire c' = wire c ++ packet_front k OP_rcUpdateColorBuffer total
                          (fs ++ [Word size; Mem (default [] pixels) size]) /\
    received c' = received c /\ m_checksumHelper c' = after_write [40 + size] k.
Proof.
  intros Hk Hkc Hfs Hfl Hpix Hsize total Hwb Hc.
  assert (H0 : 0 <= size) by (destruct pixels; lia). pose proof (byte_size_range k) as Hcs.
  assert (Htotal : u64 (u32 (8 + 4 + 4 + 4 + 4 + 4 + 4 + 4 + size + 1 * 4) + checksumByteSize k) = total).
  { rewrite u32_small by lia. rewrite (wrapu_id 64) by (unfold in_u; lia). unfold total. lia. }
  unfold update_packet. rewrite E_bind_run. unfold getc at 1. rewrite Hkc, Htotal. cbv zeta.
  change (8 + 4 + 4 + 4 + 4 + 4 + 4 + 4) with 36.
  destruct (alloc_gives malloc_ok malloc_works (4 + (size + (checksumByteSize k + wb))) rb 36 c)
    as (ptr & c1 & p & g & Ha & Hc1 & Hp1 & Hptr & Hg & Hb1 & Hw1 & Hr1 & Hk1);
    [by replace (36 + (4 + (size + (checksumByteSize k + wb)))) with (total + wb) by (unfold total; lia)|lia..|].
  rewrite E_bind_run, Ha. subst ptr.
  set (head := Word OP_rcUpdateColorBuffer :: Word total :: fs).
  assert (Hhead : zlen (payload head) = 36).
  { unfold head. rewrite !zlen_payload_cons. cbn [field_bytes]. rewrite !zlen_le4. lia. }
  destruct (put_ok head (4 + (size + (checksumByteSize k + wb))) rb p g [] c1)
    as (c2 & Hput & Hc2 & Hp2 & Hs2 & _ & Hr2 & Hk2); [by do 2 (constructor; [done|])|done|by rewrite app_nil_r|lia|done|].
  rewrite E_bind_run, Hput, E_bind_run. rewrite app_nil_r in Hp2.
  replace (zlen p + zlen (payload head) - zlen p) with 36 by lia.
  destruct (add_run [] 36 k c2) as (c3 & -> & Hc3); [rewrite Hk2, Hk1, Hkc; unfold adding; by destruct (0 <? m_version k)|].
  assert (Hc3' : conn_ok (4 + (size + (checksumByteSize k + wb))) rb c3) by (subst c3; by apply conn_ok_checksum).
  destruct (flush_ok _ _ c3 Hc3') as (c4 & Hf & Hc4 & Hs4 & Hp4 & [Hr4 Hk4] & _).
  rewrite !E_bind_run, Hf.
  destruct (writeFully_front (size + (checksumByteSize k + wb)) rb (Some <$> little_endian 4 size) 4 c4)
    as (c5 & Hw5 & Hc5 & Hs5 & Hp5 & Hr5 & Hk5); [rewrite zlen_le4; lia|done|lia|done|].
  rewrite ztake_all in Hs5 by (by rewrite zlen_le4). rewrite E_bind_run, Hw5, E_bind_run.
  destruct (add_run [36] 4 k c5) as (c6 & -> & Hc6); [rewrite Hk5, Hk4; by subst c3|].
  destruct (write_pixels (checksumByteSize k + wb) rb pixels size c6)
    as (c7 & Hw7 & Hc7 & Hs7 & Hp7 & Hr7 & Hk7); [done|by subst c6; apply conn_ok_checksum|lia|by subst c6|].
  rewrite E_bind_run, Hw7, E_bind_run.
  destruct (add_run [36; 4] size k c7) as (c8 & -> & Hc8); [rewrite Hk7; by subst c6|].
  assert (Hc8' : conn_ok (checksumByteSize k + wb) rb c8) by (subst c8; by apply conn_ok_checksum).
  destruct (alloc_gives malloc_ok malloc_works wb rb (checksumByteSize k) c8)
    as (ptr & c9 & p9 & g9 & Ha9 & Hc9 & Hp9 & Hptr9 & Hg9 & Hb9 & Hw9 & Hr9 & Hk9); [done|lia|done|].
  rewrite E_bind_run, Ha9. subst ptr. cbn [app] in Hc8.
  destruct (seal_ok wb rb p9 g9 [] [36; 4; size] k c9) as (c10 & Hseal & Hc10 & Hp10 & Hs10 & Hr10 & Hk10);
    [done|rewrite Hk9; by subst c8|done|by rewrite app_nil_r|done|done|].
  exists c10. rewrite Hseal. split; [done|]. split; [done|]. split; [|split].
  - assert (Hbase : sent c1 ++ p = wire c).
    { unfold wire at 1 in Hw1. rewrite Hp1, app_assoc in Hw1. by apply app_inv_tail in Hw1. }
    assert (Hp9' : sent c9 ++ p9 = sent c8).
    { unfold wire in Hw9. rewrite Hp9 in Hw9. subst c8.
      change (pending (set_checksum _ c7)) with (pending c7) in Hw9. rewrite Hp7, app_nil_r, app_assoc in Hw9.
      by apply app_inv_tail in Hw9. }
    unfold wire at 1. rewrite Hp10, Hs10, app_nil_r, app_assoc, Hp9'. subst c8.
    change (sent (set_checksum _ c7)) with (sent c7). rewrite Hs7. subst c6.
    change (sent (set_checksum _ c5)) with (sent c5). rewrite Hs5, Hs4. subst c3.
    unfold wire at 1. change (sent (set_checksum _ c2)) with (sent c2).
    change (pending (set_checksum _ c2)) with (pending c2). rewrite Hp2, Hs2.
    rewrite (app_assoc (sent c1)), Hbase. unfold packet_front, header.
    rewrite <- !app_assoc. f_equal. rewrite (sealed_total [36; 4; size] [8 + zlen (payload (fs ++ [Word size; Mem (default [] pixels) size]))]).
    + change ([Word OP_rcUpdateColorBuffer; Word total] ++ fs ++ [Word size; Mem (default [] pixels) size])
        with (head ++ [Word size; Mem (default [] pixels) size]).
      rewrite (payload_app head), <- app_assoc. f_equal. rewrite (payload_word size), payload_mem.
      unfold payload. cbn [fmap list_fmap concat]. by rewrite app_nil_r, <- app_assoc.
    + done.
    + rewrite payload_app, payload_word, payload_mem, !zlen_app, Hfl, zlen_le4, zlen_ztake.
      * unfold payload, zlen. cbn. lia.
      * destruct pixels; cbn; [done|unfold zlen; cbn; lia].
  - rewrite Hr10, Hr9. subst c8. cbn. rewrite Hr7. subst c6. cbn. rewrite Hr5, Hr4. subst c3. cbn. by rewrite Hr2, Hr1.
  - rewrite Hk10, !after_write_count by done. done.
Qed.

(** ** A call comes back *)

Context {H : Type}.
Variable exec : Z -> list arg -> H * ChecksumCalculator -> list (list Z) * (H * ChecksumCalculator).

Fixpoint out_sizes (l : list arg) : list Z :=
  match l with [] => [] | OutPtr n :: l => n :: out_sizes l | _ :: l => out_sizes l end.

(** What the functions leave fits the buffers, and one of them only touches the checksum. *)
Hypothesis exec_sizes : forall opcode l w e,
  rc_table opcode = Some e -> vars e = arg_var <$> l -> Forall arg_ok l ->
  lengths (exec opcode l w).1 = out_sizes l ++ (if has_retval e then [4] else []).
Hypothesis exec_keeps : forall opcode l h k,
  opcode <> OP_rcSelectChecksumCalculator -> (exec opcode l (h, k)).2.2 = k.

(** A null pointer gets nothing. *)
Definition seen (c : rc_call) (ls : list (list Z)) : list (list Z) :=
  match c with ChooseConfig _ _ false _ => tl ls | _ => ls end.

Lemma seen_ok c s :
  fits c -> let ls := results exec (remote c) s in
  lengths (seen c ls) = (packed c).2 /\ concat (seen c ls) = concat ls.
Proof.
  intros Hc. destruct (packed_is_ok c Hc) as [_ _ _ _ _ Ha _ (e & He & Hv & _)].
  unfold results. pose proof (exec_sizes _ _ (api_state s, count_read (calc s)) e He Hv Ha) as Hs.
  destruct c; cbn [remote op args] in *; vm_compute in He; injection He as <-;
    cbn [packed snd seen has_retval out_sizes app] in *; try (split; [exact Hs|reflexivity]).
  set (ls := (exec _ _ _).1) in *. destruct configs; [split; [exact Hs|reflexivity]|].
  destruct ls as [|l ls]; [done|]. cbn in Hs. injection Hs as Hl Hs. split; [exact Hs|].
  cbn. by rewrite (zlen_nil_inv l) by lia.
Qed.

Lemma remote_callable c : fits c -> callable rc_table exec (remote c).
Proof.
  intros Hc. destruct (packed_is_ok c Hc) as [_ _ _ _ _ Ha Ho (e & He & Hv & _)].
  split; [done|]. split; [done|]. split; [by exists e|]. intros h k. apply exec_keeps.
  destruct c; by vm_compute.
Qed.

Lemma remote_answers c : fits c -> answers rc_table (remote c) = bool_decide ((packed c).2 <> []).
Proof.
  intros Hc. destruct (packed_is_ok c Hc) as [_ _ _ _ _ _ _ (e & He & _ & Hr)].
  unfold answers. by rewrite He.
Qed.

Lemma front_call k o t fs : packet_front k o t fs = call_front k o t (payload fs).
Proof. unfold packet_front, call_front. by rewrite payload_app, <- !app_assoc. Qed.

Definition packet_size (k : ChecksumCalculator) (c : rc_call) : Z := (packed c).1.1.2 + checksumByteSize k.

(** What goes before the answer. *)
Definition send (c : rc_call) : E unit :=
  match c with
  | UpdateColorBuffer cb x y w h f t pixels =>
      update_packet (size_pixels w h f t)
        [Word cb; Word x; Word y; Word w; Word h; Word f; Word t] pixels
  | CloseColorBuffer _ =>
      packet malloc_ok (packed c).1.1.1 (packed c).1.1.2 (packed c).1.2 ;; flush ;; mret tt
  | _ => packet malloc_ok (packed c).1.1.1 (packed c).1.1.2 (packed c).1.2
  end.

Lemma encode_send c st : encode c st = (send c ;; finish host (packed c).2) st.
Proof.
  destruct c; try (by apply encode_packed); [|apply encode_update].
  cbn [encode send packed fst snd finish]. unfold rcCloseColorBuffer_enc. same_run.
Qed.

Lemma send_ok wb rb c k st :
  fits c -> idle k -> m_checksumHelper st = k -> 0 <= wb ->
  conn_ok (packet_size k c + wb) rb st ->
  exists st' pkt, send c st = Ret tt st' /\ conn_ok wb rb st' /\ is_packet k (remote c) pkt /\
    zlen pkt = packet_size k c /\ wire st' = wire st ++ pkt /\ received st' = received st /\
    m_checksumHelper st' = count_write k.
Proof.
  intros Hc Hk Hkst Hwb Hok. pose proof (byte_size_range k) as Hcs.
  destruct (packed_is_ok c Hc) as [Hop Hf Hp Hle Hlt Ha Ho _].
  pose proof (zlen_nonneg (payload (packed c).1.2)) as Hpos. unfold packet_size in *.
  assert (Hgen : exists st' pkt,
    packet malloc_ok (packed c).1.1.1 (packed c).1.1.2 (packed c).1.2 st = Ret tt st' /\ conn_ok wb rb st' /\
    is_packet k (remote c) pkt /\ zlen pkt = (packed c).1.1.2 + checksumByteSize k /\
    wire st' = wire st ++ pkt /\ received st' = received st /\ m_checksumHelper st' = count_write k).
  { destruct (packet_ok malloc_ok malloc_works wb rb (packed c).1.1.1 (packed c).1.1.2 (packed c).1.2 k st)
      as (st' & g & Hrun & Hok' & Hw & Hlen & Hr & Hk'); [done|done|done|done|lia|done|done|].
    exists st', (packet_front k (packed c).1.1.1 ((packed c).1.1.2 + checksumByteSize k) (packed c).1.2 ++ g).
    split; [done|]. split; [done|]. split; [|split; [done|split; [done|split; [done|]]]].
    - split; [lia|]. exists g. rewrite Hlen, front_call, Hop, Hp. done.
    - rewrite Hk'. by apply after_write_count. }
  destruct c; try exact Hgen.
  - destruct Hgen as (st' & pkt & Hrun & Hok' & Hpk & Hlen & Hw & Hr & Hk').
    destruct (flush_ok _ _ st' Hok') as (st2 & Hfl & Hok2 & Hs2 & Hp2 & [Hr2 Hk2] & _).
    exists st2, pkt. cbn [send]. rewrite E_bind_run, Hrun, E_bind_run, Hfl, E_ret_run.
    split_and!; try done; [|congruence..]. rewrite <- Hw. unfold wire at 1. by rewrite Hs2, Hp2, app_nil_r.
  - cbn [fits] in Hc. destruct Hc as [Hn Hpix]. pose proof (size_pixels_range width height format type) as Hr0.
    set (n := size_pixels width height format type) in *. unfold in_u in Hr0.
    assert (Hsz : (packed (UpdateColorBuffer colorbuffer x y width height format type pixels)).1.1.2 = 40 + n).
    { cbn [packed fst snd]. fold n. rewrite u32_small; lia. }
    rewrite Hsz in *.
    set (fs := [Word colorbuffer; Word x; Word y; Word width; Word height; Word format; Word type]).
    assert (Hfs : (packed (UpdateColorBuffer colorbuffer x y width height format type pixels)).1.2 =
      fs ++ [Word n; Mem (default [] pixels) n]) by done.
    destruct (update_sent wb rb n fs pixels k st) as (st' & Hrun & Hok' & Hw & Hr & Hk'); try done.
    { repeat (constructor; [done|]). constructor. }
    { destruct pixels; [lia|done]. }
    assert (Hlen : zlen (packet_front k OP_rcUpdateColorBuffer (40 + n + checksumByteSize k)
      (fs ++ [Word n; Mem (default [] pixels) n])) = 40 + n + checksumByteSize k).
    { rewrite zlen_front by done. rewrite <- Hfs, zlen_payload by done.
      cbn [packed fst snd fmap list_fmap field_size total foldr]. fold n. lia. }
    exists st', (packet_front k OP_rcUpdateColorBuffer (40 + n + checksumByteSize k)
      (fs ++ [Word n; Mem (default [] pixels) n])).
    split; [exact Hrun|]. split; [done|]. split; [|split; [done|split; [done|split; [done|]]]].
    + split; [lia|]. exists []. rewrite app_nil_r, Hlen, front_call. rewrite <- Hfs, Hp. done.
    + rewrite Hk'. by apply after_write_count.
Qed.

Definition answer_of (c : rc_call) (s : Server H) : list Z := answer rc_table exec (remote c) s.
Definition served (c : rc_call) (s : Server H) : Server H := serve rc_table exec (remote c) s.

Lemma encode_ok wb rb c k s st :
  fits c -> in_step k (calc s) -> m_checksumHelper st = k -> 0 <= wb -> 0 <= rb ->
  conn_ok (packet_size k c + wb) (zlen (answer_of c s) + rb) st -> received st = zlen (out s) ->
  (forall pkt, is_packet k (remote c) pkt -> zlen pkt = packet_size k c ->
     host (wire st ++ pkt) = out (served c s)) ->
  exists st' pkt, encode c st = Ret (cells (seen c (results exec (remote c) s))) st' /\
    is_packet k (remote c) pkt /\ zlen pkt = packet_size k c /\ wire st' = wire st ++ pkt /\
    conn_ok wb rb st' /\ received st' = zlen (out (served c s)) /\
    m_checksumHelper st' = guest_after (answers rc_table (remote c)) k.
Proof.
  intros Hc Hstep Hkst Hwb Hrb Hok Hrec Hhost. pose proof Hstep as [Hk Hhk Hv Hnw Hnr].
  destruct (send_ok wb (zlen (answer_of c s) + rb) c k st Hc Hk Hkst Hwb Hok)
    as (st1 & pkt & Hsend & Hok1 & Hpkt & Hlen & Hw & Hr1 & Hk1).
  destruct (seen_ok c s Hc) as [Hns Hconc]. pose proof (remote_answers c Hc) as Hans.
  specialize (Hhost pkt Hpkt Hlen). rewrite <- Hw in Hhost.
  set (ls := seen c (results exec (remote c) s)) in *.
  assert (Hout : zlen (out (served c s)) = zlen (out s) + zlen (answer_of c s)).
  { unfold served, serve. cbn [out]. apply zlen_app. }
  rewrite encode_send, E_bind_run, Hsend, <- Hns.
  unfold guest_after. rewrite Hans.
  destruct (bool_decide_reflect ((packed c).2 <> [])) as [Hne|He].
  - assert (Hls : ls <> []) by (intros Hnil; rewrite Hnil in Hns; by rewrite <- Hns in Hne).
    assert (Hanswer : answer_of c s = concat ls ++ sealed [zlen (concat ls)] (count_read (calc s))).
    { unfold answer_of, answer. rewrite Hans. by rewrite Hconc. }
    pose proof (count_write_idle k Hk) as Hkw. pose proof (count_read_idle _ Hhk) as Hhr.
    assert (Hvw : m_version (count_write k) = m_version (count_read (calc s))).
    { unfold count_write, count_read. rewrite Hv. case_match; cbn; congruence. }
    assert (Hsl : zlen (sealed [zlen (concat ls)] (count_read (calc s))) = checksumByteSize (count_write k)).
    { rewrite sealed_len by done. unfold checksumByteSize. by rewrite Hvw. }
    destruct (finish_ok host wb rb ls (count_write k) (count_read (calc s)) [] st1)
      as (st2 & Hf & Hok2 & Hw2 & Hr2 & Hk2); try done.
    + unfold count_write, count_read. rewrite Hv. case_match; cbn; congruence.
    + rewrite Hanswer, zlen_app, Hsl in Hok1. by rewrite Z.add_assoc.
    + rewrite Hhost, Hr1, Hrec. unfold served, serve. cbn [out]. rewrite zdrop_app_exact.
      change (answer rc_table exec (remote c) s) with (answer_of c s). by rewrite Hanswer, app_nil_r.
    + rewrite Hr1, Hrec. apply zlen_nonneg.
    + exists st2, pkt. split; [exact Hf|]. split; [done|]. split; [done|]. split; [by rewrite Hw2|].
      split; [done|]. split; [|by rewrite Hk2, after_read_count].
      rewrite Hr2, Hr1, Hrec, Hout, Hanswer, zlen_app, Hsl. lia.
  - assert (Hnil : (packed c).2 = []) by (destruct (packed c).2; [done|exfalso; by apply He]).
    rewrite Hnil in Hns. assert (Hls : ls = []) by (destruct ls; [done|by cbn in Hns]).
    assert (Hanswer : answer_of c s = []).
    { unfold answer_of, answer. by rewrite Hans. }
    rewrite Hls. exists st1, pkt. split; [done|]. split; [done|]. split; [done|]. split; [done|].
    rewrite Hanswer in *. split; [done|]. split; [|done].
    rewrite Hr1, Hrec, Hout. unfold zlen. cbn. lia.
Qed.

(** ** Programs *)

(** [Flush]: [HostConnection::flush], whose result nothing looks at. *)
Inductive client (R : Type) :=
  | Done (r : R)
  | Flush (k : client R)
  | Call (c : rc_call) (k : list bytes -> client R).
Arguments Done {R}.
Arguments Flush {R}.
Arguments Call {R}.

Fixpoint run_remote {R} (p : client R) : E R :=
  match p with
  | Done r => mret r
  | Flush k => flush ;; run_remote k
  | Call c k => ls ← encode c; run_remote (k ls)
  end.

(** The functions called directly; the server is where the decoder would have it. *)
Fixpoint run_direct {R} (p : client R) (s : Server H) : R * Server H :=
  match p with
  | Done r => (r, s)
  | Flush k => run_direct k s
  | Call c k => run_direct (k (cells (seen c (results exec (remote c) s)))) (served c s)
  end.

(** On any host that takes a call as it is. *)
Fixpoint run_with {S R} (host : rc_call -> S -> list bytes * S) (p : client R) (s : S) : R * S :=
  match p with
  | Done r => (r, s)
  | Flush k => run_with host k s
  | Call c k => run_with host (k (host c s).1) (host c s).2
  end.

(** The calls that fit, and the bytes they take both ways. *)
Fixpoint all_fit {R} (p : client R) (s : Server H) : Prop :=
  match p with
  | Done _ => True
  | Flush k => all_fit k s
  | Call c k => fits c /\ all_fit (k (cells (seen c (results exec (remote c) s)))) (served c s)
  end.

Fixpoint traffic {R} (p : client R) (s : Server H) : Z * Z :=
  match p with
  | Done _ => (0, 0)
  | Flush k => traffic k s
  | Call c k =>
      let '(w, r) := traffic (k (cells (seen c (results exec (remote c) s)))) (served c s) in
      (packet_size (calc s) c + w, zlen (answer_of c s) + r)
  end.

Lemma packet_size_pos k c : fits c -> 8 <= packet_size k c.
Proof.
  intros Hc. destruct (packed_is_ok c Hc) as [_ _ _ Hle _ _ _ _]. pose proof (byte_size_range k).
  pose proof (zlen_nonneg (payload (packed c).1.2)). unfold packet_size. lia.
Qed.

Lemma traffic_nonneg {R} (p : client R) : forall s, all_fit p s -> 0 <= (traffic p s).1 /\ 0 <= (traffic p s).2.
Proof.
  induction p as [r|k IH|c k IH]; intros s Hp; [done|by apply IH|]. destruct Hp as [Hc Hp]. cbn.
  specialize (IH _ _ Hp). destruct (traffic _ _) as [w r]. cbn in *.
  pose proof (packet_size_pos (calc s) c Hc). pose proof (zlen_nonneg (answer_of c s)). lia.
Qed.

(** What the host has answered when it has got these packets. *)
Definition contract (w0 : bytes) (limit : Z) (k : ChecksumCalculator) (s : Server H) : Prop :=
  forall cs pkts, sends rc_table exec k cs pkts -> zlen (concat pkts) <= limit ->
    host (w0 ++ concat pkts) = out (serve_all rc_table exec cs s).

Lemma packet_size_step k (s : Server H) c : in_step k (calc s) -> packet_size (calc s) c = packet_size k c.
Proof. intros [_ _ Hv _ _]. unfold packet_size, checksumByteSize. by rewrite Hv. Qed.

Lemma run_remote_ok {R} (p : client R) : forall wb rb k s st,
  all_fit p s -> in_step k (calc s) -> status s = Serving -> m_checksumHelper st = k ->
  0 <= wb -> 0 <= rb -> conn_ok ((traffic p s).1 + wb) ((traffic p s).2 + rb) st ->
  received st = zlen (out s) -> contract (wire st) (traffic p s).1 k s ->
  exists st' cs pkts, run_remote p st = Ret (run_direct p s).1 st' /\ conn_ok wb rb st' /\
    sends rc_table exec k cs pkts /\ wire st' = wire st ++ concat pkts /\
    zlen (concat pkts) = (traffic p s).1 /\ (run_direct p s).2 = serve_all rc_table exec cs s.
Proof.
  induction p as [r|p IH|c f IH]; intros wb rb k s st Hp Hstep Hst Hk Hwb Hrb Hok Hrec Hcon.
  - exists st, [], []. cbn. rewrite app_nil_r. split_and!; try done. apply sends_nil.
  - destruct (flush_ok _ _ st Hok) as (st1 & Hf & Hok1 & Hs1 & Hp1 & [Hr1 Hk1] & _).
    assert (Hw1 : wire st1 = wire st) by (unfold wire at 1; by rewrite Hs1, Hp1, app_nil_r).
    cbn [run_remote run_direct traffic] in *. rewrite E_bind_run, Hf, <- Hw1. rewrite <- Hw1 in Hcon.
    apply (IH wb rb k s st1); try done; congruence.
  - destruct Hp as [Hc Hp]. cbn [run_remote run_direct traffic] in *.
    pose proof (traffic_nonneg _ _ Hp) as [Hw Hr].
    pose proof (packet_size_step k s c Hstep) as Hps.
    destruct (traffic _ _) as [w r] eqn:Htr. cbn [fst snd] in *.
    pose proof (remote_callable c Hc) as Hcall.
    destruct (encode_ok (w + wb) (r + rb) c k s st) as (st1 & pkt & Henc & Hpkt & Hlen & Hwire & Hok1 & Hrec1 & Hk1);
      try done; try lia.
    { rewrite Hps in Hok. by rewrite !Z.add_assoc. }
    { intros pkt Hpkt Hlen. rewrite <- (app_nil_r pkt). change (pkt ++ []) with (concat [pkt]).
      rewrite (Hcon [remote c] [pkt]); [done|apply sends_cons; [done|done|apply sends_nil]|].
      cbn. rewrite app_nil_r. lia. }
    rewrite E_bind_run, Henc.
    destruct (IH (cells (seen c (results exec (remote c) s))) wb rb
      (guest_after (answers rc_table (remote c)) k) (served c s) st1) 
      as (st2 & cs & pkts & Hrun & Hok2 & Hs2 & Hw2 & Hl2 & Hd2); try done.
    + by apply in_step_serve.
    + by rewrite Htr.
    + rewrite Htr. cbn [fst]. intros cs pkts Hs Hl. rewrite Hwire, <- app_assoc.
      change (pkt ++ concat pkts) with (concat (pkt :: pkts)).
      rewrite (Hcon (remote c :: cs) (pkt :: pkts)); [done|by apply sends_cons|].
      cbn. rewrite zlen_app. lia.
    + exists st2, (remote c :: cs), (pkt :: pkts). split; [done|]. split; [done|].
      split; [by apply sends_cons|]. split; [by rewrite Hw2, Hwire, <- app_assoc|].
      split; [|done]. cbn. rewrite zlen_app. rewrite Htr in Hl2. cbn in Hl2. lia.
Qed.
End remote.
Arguments Done {R}.
Arguments Flush {R}.
Arguments Call {R}.

(** ** The connection *)

Lemma connect_ok malloc_ok bufSize sock outs ins wb rb :
  (forall n, 0 <= n < 2 ^ 31 -> malloc_ok n = true) ->
  0 < bufSize < 2 ^ 31 -> 0 <= sock -> 0 <= wb -> 0 <= rb -> supply (4 + wb) outs -> supply rb ins ->
  exists c, HostConnection_get malloc_ok bufSize sock outs ins = Some (Ret tt c) /\ conn_ok wb rb c /\
    wire c = Some <$> [0; 0; 0; 0] /\ received c = 0 /\ m_checksumHelper c = checksum_new.
Proof.
  intros Hmalloc Hsize Hsock Hwb Hrb Ho Hi. unfold HostConnection_get.
  set (con := QemuPipeStream_new sock bufSize outs ins).
  unfold is_open. replace (0 <=? m_sock con) with true by (cbn; lia). cbn [negb].
  destruct (allocBuffer_ok malloc_ok Hmalloc 4 con) as (c1 & m & Ha & Hm & H4 & Hq & Hq' & He);
    [lia|cbn; lia|done|].
  rewrite E_bind_run, Ha, E_bind_run. unfold store. rewrite Hm, zlen_le4.
  replace (0 + 4 <=? zlen m) with true by lia.
  set (m' := write_at 0 (Some <$> little_endian 4 0) m).
  assert (Hl' : zlen m' = zlen m) by (apply write_at_len; rewrite ?zlen_le4; lia).
  assert (Hf' : ztake 4 m' = Some <$> [0; 0; 0; 0]).
  { unfold m'. pose proof (write_at_prefix 0 (Some <$> little_endian 4 0) m) as Hw.
    rewrite zlen_le4 in Hw. apply Hw. lia. }
  set (c2 := set_memory (q_size c1) (Some m') c1).
  rewrite E_bind_run. unfold commitBuffer. change (q_buf c2) with (Some m').
  assert (Hc2 : conn_ok (4 + wb) rb c2).
  { subst c2. rewrite He. constructor; cbn; try done; try lia. }
  destruct (writeFully_front wb rb m' 4 c2) as (c3 & Hw3 & Hc3 & Hs3 & Hp3 & Hr3 & Hk3);
    [lia|done|lia|by (subst c2; rewrite He)|].
  rewrite Hw3. exists c3. rewrite E_ret_run. split; [done|]. split; [done|]. split.
  - unfold wire. rewrite Hp3, app_nil_r, Hs3, Hf'. subst c2. by rewrite He.
  - rewrite Hr3, Hk3. subst c2. by rewrite He.
Qed.

Section whole.
Context {H : Type}.
Variable exec : Z -> list arg -> H * ChecksumCalculator -> list (list Z) * (H * ChecksumCalculator).
Hypothesis exec_sizes : forall opcode l w e,
  rc_table opcode = Some e -> vars e = arg_var <$> l -> Forall arg_ok l ->
  lengths (exec opcode l w).1 = out_sizes l ++ (if has_retval e then [4] else []).
Hypothesis exec_keeps : forall opcode l h k,
  opcode <> OP_rcSelectChecksumCalculator -> (exec opcode l (h, k)).2.2 = k.

(** The decoders of OpenGL ES, which leave a render control's call alone. *)
Variables glDec gl2Dec : bytes -> list bytes * Server H -> Z * (list bytes * Server H).
Hypothesis gl_passes : passes_on rc_table glDec.
Hypothesis gl2_passes : passes_on rc_table gl2Dec.

Variables malloc_ok realloc_ok : Z -> bool.
Hypothesis malloc_works : forall n, 0 <= n < 2 ^ 31 -> malloc_ok n = true.
Hypothesis realloc_works : forall n, realloc_ok n = true.

(** The pieces in which the bytes reach the render thread. *)
Variable cuts : bytes -> list bytes.
Hypothesis cuts_all : forall l, concat (cuts l) = l.
Hypothesis cuts_sizes : forall l, Forall a_chunk (cuts l).

Variable bufsize : Z.
Hypothesis bufsize_range : 0 < bufsize < 2 ^ 60.

Definition server_new (h : H) : Server H := mkServer h checksum_new [] Serving.

(** [OpenGlesMessageProcessor] takes the client's flags off the stream and starts the
    render thread on the rest. *)
Definition host_thread (h : H) (l : bytes) : Server H :=
  let stream := zdrop 4 l in
  let '(_, _, w, _, _) :=
    thread_loop stream_read realloc_ok glDec gl2Dec (rcDec rc_table exec) (S (length stream))
      (ReadBuffer_new bufsize) (cuts stream, server_new h) [] [] in
  w.2.

Lemma host_thread_serves h cs pkts flags :
  sends rc_table exec checksum_new cs pkts -> zlen flags = 4 -> zlen (concat pkts) < 2 ^ 59 ->
  host_thread h (flags ++ concat pkts) = serve_all rc_table exec cs (server_new h).
Proof.
  intros Hs Hf Hl. unfold host_thread. rewrite zdrop_app_eq by done.
  destruct (thread_serves rc_table exec glDec gl2Dec gl_passes gl2_passes realloc_ok realloc_works bufsize
    bufsize_range (S (length (concat pkts))) (ReadBuffer_new bufsize) (cuts (concat pkts)) (server_new h)
    [] [] checksum_new cs pkts) as (b' & rec' & used' & Hrun & _); try done.
  - by constructor; try apply checksum_new_idle.
  - split; [|split; [done|apply Z.le_max_l]].
    constructor; cbn [m_buf m_size m_readPtr m_validData ReadBuffer_new];
      [apply zlen_replicate|..]; lia.
  - left. done.
  - apply cuts_all.
  - by rewrite cuts_all.
  - rewrite cuts_all. unfold zlen. lia.
  - by rewrite Hrun.
Qed.

Definition host_answers (h : H) (l : bytes) : list Z := out (host_thread h l).

(** What a guest's program gets from the functions is what they return, whatever they do:
    each call becomes a packet, the packets go out when the buffer is full or an answer is
    waited for, in writes of any lengths and with interruptions; the render thread gets the
    bytes cut in any way, decodes the calls and answers. *)
Lemma calls_get_through {R} (p : client R) h bufSize sock outs ins :
  let s := server_new h in
  all_fit exec p s -> (traffic exec p s).1 < 2 ^ 59 ->
  0 < bufSize < 2 ^ 31 -> 0 <= sock ->
  supply (4 + (traffic exec p s).1) outs -> supply (traffic exec p s).2 ins ->
  exists c c', HostConnection_get malloc_ok bufSize sock outs ins = Some (Ret tt c) /\
    run_remote (host_answers h) malloc_ok p c = Ret (run_direct exec p s).1 c' /\
    host_thread h (wire c') = (run_direct exec p s).2.
Proof.
  intros s Hfit Hlt Hbuf Hsock Ho Hi.
  pose proof (traffic_nonneg exec p s Hfit) as [Hw Hr].
  destruct (connect_ok malloc_ok bufSize sock outs ins ((traffic exec p s).1 + 0) ((traffic exec p s).2 + 0))
    as (c & Hget & Hok & Hwire & Hrec & Hk); try done; try lia; [by rewrite Z.add_0_r..|].
  assert (Hstep : in_step checksum_new (calc s)) by (by constructor; try apply checksum_new_idle).
  assert (Hflags : zlen (Some <$> [0; 0; 0; 0]) = 4) by done.
  destruct (run_remote_ok (host_answers h) malloc_ok malloc_works exec exec_sizes exec_keeps p 0 0
    checksum_new s c) as (c' & cs & pkts & Hrun & _ & Hs & Hw' & Hl & Hd); try done.
  - intros cs pkts Hs Hl. unfold host_answers. rewrite Hwire. f_equal. apply host_thread_serves; done || lia.
  - exists c, c'. split; [done|]. split; [done|]. rewrite Hw', Hwire, Hd.
    apply host_thread_serves; done || lia.
Qed.
End whole.

Definition one_by_one : write_answer := fun _ => (1, 0).

Lemma one_by_one_supply n : supply (Z.of_nat n) (replicate n one_by_one).
Proof.
  induction n as [|n IH]; [by apply supply_nil|]. apply supply_moves; [intros len Hl; cbn; lia|].
  by replace (Z.of_nat (S n) - 1) with (Z.of_nat n) by lia.
Qed.
