(* ===== verification/GuestCode.v ===== *)
(** * Code of the guest that calls the host

    The modules of the guest are computations over a state of their own that may call the
    host by the functions of the render control ([rc_call]): trees of calls ([client]), so
    that Remote.v carries what is shown of them over the pipe.  A computation comes to a
    value and a new state, faults or hangs; [wp] is its weakest precondition on a host that
    is any function of calls and a state, [wps] where the host can serve every call. *)

From S2P Require Import Prelude Utils Gl RenderThread Checksum GuestStream RenderControlEnc Decoder Remote.

(** ** Computations *)

Inductive done (St A : Type) :=
  | Value (a : A) (g : St)
  | Fault            (* an access outside the memory, or an abort *)
  | Hang.            (* a loop that does not end *)
Arguments Value {St A}.
Arguments Fault {St A}.
Arguments Hang {St A}.

Definition Code (St A : Type) : Type := St -> client (done St A).

Fixpoint client_bind {A B} (f : A -> client B) (p : client A) : client B :=
  match p with
  | Done a => f a
  | Flush k => Flush (client_bind f k)
  | Call c k => Call c (fun ls => client_bind f (k ls))
  end.

#[export] Instance Code_ret {St} : MRet (Code St) := fun A a g => Done (Value a g).
#[export] Instance Code_bind {St} : MBind (Code St) := fun A B f m g =>
  client_bind (fun d => match d with
                        | Value a g => f a g
                        | Fault => Done Fault
                        | Hang => Done Hang
                        end) (m g).

Section code.
Context {St : Type}.

Definition getg {A} (f : St -> A) : Code St A := fun g => Done (Value (f g) g).
Definition setg (f : St -> St) : Code St unit := fun g => Done (Value tt (f g)).
Definition fault {A} : Code St A := fun g => Done Fault.
Definition hang {A} : Code St A := fun g => Done Hang.
Definition rc (c : rc_call) : Code St (list bytes) := fun g => Call c (fun ls => Done (Value ls g)).

(** [hostCon->flush()]. *)
Definition flush_host : Code St unit := fun g => Flush (Done (Value tt g)).

(** What a call returns, as an unsigned number. *)
Definition rc_int (c : rc_call) : Code St Z :=
  ls ← rc c;
  match all_some (concat ls) with Some l => mret (le_value l) | None => fault end.
End code.

(** ** Programs on any host *)

Lemma run_with_bind {S A B} (host : rc_call -> S -> list bytes * S) (f : A -> client B) p : forall s,
  run_with host (client_bind f p) s =
    run_with host (f (run_with host p s).1) (run_with host p s).2.
Proof. induction p as [a|p IH|c k IH]; intros s; cbn; [done|apply IH..]. Qed.

Definition word (z : Z) : bytes := Some <$> little_endian 4 z.

(** ** Computations that come to a value *)

Section wp.
Context {S St : Type} (host : rc_call -> S -> list bytes * S).

Definition wp {A} (m : Code St A) (Q : A -> St -> S -> Prop) (g : St) (s : S) : Prop :=
  match run_with host (m g) s with (Value a g, s) => Q a g s | _ => False end.

Lemma wp_ret {A} (a : A) Q g s : Q a g s -> wp (mret a) Q g s.
Proof. done. Qed.

Lemma wp_bind {A B} (m : Code St A) (f : A -> Code St B) Q g s :
  wp m (fun a => wp (f a) Q) g s -> wp (m ≫= f) Q g s.
Proof.
  unfold wp, mbind, Code_bind. rewrite run_with_bind.
  by destruct (run_with host (m g) s) as [[a g'| |] s'].
Qed.

Lemma wp_getg {A} (f : St -> A) (Q : A -> St -> S -> Prop) g s : Q (f g) g s -> wp (getg f) Q g s.
Proof. done. Qed.
Lemma wp_flush (Q : unit -> St -> S -> Prop) g s : Q tt g s -> wp flush_host Q g s.
Proof. done. Qed.
Lemma wp_setg f (Q : unit -> St -> S -> Prop) g s : Q tt (f g) s -> wp (setg f) Q g s.
Proof. done. Qed.

Lemma wp_rc c (Q : list bytes -> St -> S -> Prop) g s : Q (host c s).1 g (host c s).2 -> wp (rc c) Q g s.
Proof. done. Qed.

Lemma wp_mono {A} (m : Code St A) (Q Q' : A -> St -> S -> Prop) g s :
  wp m Q g s -> (forall a g s, Q a g s -> Q' a g s) -> wp m Q' g s.
Proof. unfold wp. destruct (run_with host (m g) s) as [[a g'| |] s']; auto. Qed.

Lemma wp_rc_int c z (Q : Z -> St -> S -> Prop) g s :
  in_u 32 z -> (host c s).1 = [word z] -> Q z g (host c s).2 -> wp (rc_int c) Q g s.
Proof.
  intros Hz Hh HQ. unfold rc_int. apply wp_bind, wp_rc. rewrite Hh. cbn [concat]. rewrite app_nil_r.
  unfold word. rewrite all_some_fmap. apply wp_ret. by rewrite (le_value_little_endian 4).
Qed.
End wp.

(** ** A host that can serve the calls it gets *)

Section served.
Context {S St : Type} (host : rc_call -> S -> list bytes * S) (serves : rc_call -> S -> Prop).

Fixpoint all_served {R} (p : client R) (s : S) : Prop :=
  match p with
  | Done _ => True
  | Flush k => all_served k s
  | Call c k => serves c s /\ all_served (k (host c s).1) (host c s).2
  end.

Lemma all_served_bind {A B} (f : A -> client B) p : forall s,
  all_served (client_bind f p) s <->
    all_served p s /\ all_served (f (run_with host p s).1) (run_with host p s).2.
Proof.
  induction p as [a|p IH|c k IH]; intros s; cbn; [tauto|apply IH|]. rewrite IH. tauto.
Qed.

Definition wps {A} (m : Code St A) (Q : A -> St -> S -> Prop) (g : St) (s : S) : Prop :=
  all_served (m g) s -> wp host m Q g s.

Lemma wps_ret {A} (a : A) Q g s : Q a g s -> wps (mret a) Q g s.
Proof. by intros HQ _. Qed.

Lemma wps_bind {A B} (m : Code St A) (f : A -> Code St B) Q g s :
  wps m (fun a => wps (f a) Q) g s -> wps (m ≫= f) Q g s.
Proof.
  unfold wps, mbind, Code_bind. rewrite all_served_bind. intros Hm [H1 H2]. specialize (Hm H1).
  revert H2 Hm. unfold wp. rewrite run_with_bind.
  destruct (run_with host (m g) s) as [[a g'| |] s']; cbn; intros H2 Hm; [by apply Hm|done..].
Qed.

Lemma wps_getg {A} (f : St -> A) (Q : A -> St -> S -> Prop) g s : Q (f g) g s -> wps (getg f) Q g s.
Proof. by intros HQ _. Qed.
Lemma wps_setg f (Q : unit -> St -> S -> Prop) g s : Q tt (f g) s -> wps (setg f) Q g s.
Proof. by intros HQ _. Qed.
Lemma wps_flush (Q : unit -> St -> S -> Prop) g s : Q tt g s -> wps flush_host Q g s.
Proof. by intros HQ _. Qed.

Lemma wps_rc c (Q : list bytes -> St -> S -> Prop) g s :
  (serves c s -> Q (host c s).1 g (host c s).2) -> wps (rc c) Q g s.
Proof. intros HQ [Hc _]. by apply HQ. Qed.

Lemma wps_mono {A} (m : Code St A) (Q Q' : A -> St -> S -> Prop) g s :
  wps m Q g s -> (forall a g s, Q a g s -> Q' a g s) -> wps m Q' g s.
Proof. intros Hm HQ Hs. eapply wp_mono; [by apply Hm|done]. Qed.
End served.
