(* ===== verification/Gralloc.v ===== *)
(** * Graphics memory of the guest

    [src/android/opengl/system/gralloc/gralloc.cpp], the guest's allocator, with the
    handle of OpenglSystemCommon/gralloc_cb.h.  A buffer has a color buffer of the host,
    shared memory of the guest ([ashmem]) when the processor or the camera uses it, or
    both.  Processes hold handles to it: copies of the same integers that share the two.

    An operation is a computation over the processes' handles, descriptors and mappings
    that calls the host by the functions of the render control ([rc_call]), so that
    Remote.v carries what is shown here over the pipe.  Android's constants
    ([gralloc.h], [graphics.h]) are the fields of a class, the kernel's choices those of
    another; a system call may fail, with the next of the given error numbers. *)

From S2P Require Import Prelude Utils Gl RenderThread Checksum GuestStream RenderControlEnc Decoder Remote GuestCode.

(** ** Handles *)

(** [native_handle] and [cb_handle_t]. *)
Record cb_handle := mkCb {
  version : Z;
  numFds : Z;
  numInts : Z;
  fd : Z;
  magic : Z;
  usage : Z;
  width : Z;
  height : Z;
  frameworkFormat : Z;
  format : Z;
  glFormat : Z;
  glType : Z;
  ashmemSize : Z;
  ashmemBase : Z;
  ashmemBasePid : Z;
  mappedPid : Z;
  lockedLeft : Z;
  lockedTop : Z;
  lockedWidth : Z;
  lockedHeight : Z;
  hostHandle : Z
}.

Definition BUFFER_HANDLE_MAGIC : Z := i32 0xabfabfab.
Definition sizeof_native_handle : Z := 12.
Definition sizeof_cb_handle : Z := 96.

Definition CB_HANDLE_NUM_INTS (nfds : Z) : Z := (sizeof_cb_handle - nfds * 4) / 4.

Definition cb_handle_new (p_fd p_ashmemSize p_usage p_width p_height p_frameworkFormat p_format
    p_glFormat p_glType : Z) : cb_handle :=
  mkCb sizeof_native_handle 0 (CB_HANDLE_NUM_INTS 0) p_fd BUFFER_HANDLE_MAGIC p_usage p_width p_height
    p_frameworkFormat p_format p_glFormat p_glType p_ashmemSize 0 0 0 0 0 0 0 0.

Definition setFd (p_fd : Z) (cb : cb_handle) : cb_handle :=
  let n := if 0 <=? p_fd then 1 else 0 in
  mkCb (version cb) n (CB_HANDLE_NUM_INTS n) p_fd (magic cb) (usage cb) (width cb) (height cb)
    (frameworkFormat cb) (format cb) (glFormat cb) (glType cb) (ashmemSize cb) (ashmemBase cb)
    (ashmemBasePid cb) (mappedPid cb) (lockedLeft cb) (lockedTop cb) (lockedWidth cb) (lockedHeight cb)
    (hostHandle cb).

Definition set_mapping (base basePid mapped : Z) (cb : cb_handle) : cb_handle :=
  mkCb (version cb) (numFds cb) (numInts cb) (fd cb) (magic cb) (usage cb) (width cb) (height cb)
    (frameworkFormat cb) (format cb) (glFormat cb) (glType cb) (ashmemSize cb) base basePid mapped
    (lockedLeft cb) (lockedTop cb) (lockedWidth cb) (lockedHeight cb) (hostHandle cb).

Definition set_locked (l t w h : Z) (cb : cb_handle) : cb_handle :=
  mkCb (version cb) (numFds cb) (numInts cb) (fd cb) (magic cb) (usage cb) (width cb) (height cb)
    (frameworkFormat cb) (format cb) (glFormat cb) (glType cb) (ashmemSize cb) (ashmemBase cb)
    (ashmemBasePid cb) (mappedPid cb) l t w h (hostHandle cb).

Definition set_hostHandle (b : Z) (cb : cb_handle) : cb_handle :=
  mkCb (version cb) (numFds cb) (numInts cb) (fd cb) (magic cb) (usage cb) (width cb) (height cb)
    (frameworkFormat cb) (format cb) (glFormat cb) (glType cb) (ashmemSize cb) (ashmemBase cb)
    (ashmemBasePid cb) (mappedPid cb) (lockedLeft cb) (lockedTop cb) (lockedWidth cb) (lockedHeight cb) b.

(** ** The guest *)

(** Android's constants. *)
Class Android := {
  GRALLOC_USAGE_SW_READ_MASK : Z;
  GRALLOC_USAGE_SW_WRITE_MASK : Z;
  GRALLOC_USAGE_HW_TEXTURE : Z;
  GRALLOC_USAGE_HW_RENDER : Z;
  GRALLOC_USAGE_HW_2D : Z;
  GRALLOC_USAGE_HW_COMPOSER : Z;
  GRALLOC_USAGE_HW_FB : Z;
  GRALLOC_USAGE_HW_VIDEO_ENCODER : Z;
  GRALLOC_USAGE_HW_CAMERA_WRITE : Z;
  GRALLOC_USAGE_HW_CAMERA_READ : Z;
  GRALLOC_USAGE_HW_CAMERA_ZSL : Z;
  GRALLOC_USAGE_HW_CAMERA_MASK : Z;
  HAL_PIXEL_FORMAT_RGBA_8888 : Z;
  HAL_PIXEL_FORMAT_RGBX_8888 : Z;
  HAL_PIXEL_FORMAT_RGB_888 : Z;
  HAL_PIXEL_FORMAT_RGB_565 : Z;
  HAL_PIXEL_FORMAT_BGRA_8888 : Z;
  HAL_PIXEL_FORMAT_RAW16 : Z;
  HAL_PIXEL_FORMAT_Y16 : Z;
  HAL_PIXEL_FORMAT_BLOB : Z;
  HAL_PIXEL_FORMAT_YCrCb_420_SP : Z;
  HAL_PIXEL_FORMAT_YV12 : Z;
  HAL_PIXEL_FORMAT_IMPLEMENTATION_DEFINED : Z;
  HAL_PIXEL_FORMAT_YCbCr_420_888 : Z;
  GRALLOC_HARDWARE_GPU0 : string;
  GRALLOC_HARDWARE_FB0 : string
}.

(** A new descriptor and a new address, for those in use. *)
Class Kernel := {
  new_fd : gset Z -> Z;
  new_address : gset Z -> Z;
  new_fd_fresh : forall X, new_fd X ∉ X /\ 0 <= new_fd X;
  new_address_fresh : forall X, new_address X ∉ X /\ 0 < new_address X
}.

(** All processes: what is at an address or a descriptor of one. *)
Record Guest := mkGuest {
  cbs : gmap (Z * Z) cb_handle;
  devices : gmap (Z * Z) (list Z);   (* the list of allocated buffers *)
  fds : gmap (Z * Z) Z;              (* shared memory by its number *)
  maps : gmap (Z * Z) (Z * Z);       (* the shared memory, and how much of it *)
  regions : gmap Z (list Z);
  errnos : list Z                    (* of the system calls to come; 0 where one works *)
}.

Definition with_cbs (m : gmap (Z * Z) cb_handle) (g : Guest) : Guest :=
  mkGuest m (devices g) (fds g) (maps g) (regions g) (errnos g).
Definition with_devices (m : gmap (Z * Z) (list Z)) (g : Guest) : Guest :=
  mkGuest (cbs g) m (fds g) (maps g) (regions g) (errnos g).
Definition with_fds (m : gmap (Z * Z) Z) (g : Guest) : Guest :=
  mkGuest (cbs g) (devices g) m (maps g) (regions g) (errnos g).
Definition with_maps (m : gmap (Z * Z) (Z * Z)) (g : Guest) : Guest :=
  mkGuest (cbs g) (devices g) (fds g) m (regions g) (errnos g).
Definition with_regions (m : gmap Z (list Z)) (g : Guest) : Guest :=
  mkGuest (cbs g) (devices g) (fds g) (maps g) m (errnos g).
Definition with_errnos (l : list Z) (g : Guest) : Guest :=
  mkGuest (cbs g) (devices g) (fds g) (maps g) (regions g) l.

(** ** Computations *)

(** Of the guest's processes. *)
Abbreviation G := (Code Guest).

(** The addresses or descriptors a process uses. *)
Definition used {A} (pid : Z) (m : gmap (Z * Z) A) : gset Z :=
  set_map snd (filter (fun x => x.1 = pid) (dom m)).

(** The bytes [l] written at [off]. *)
Definition overwrite (off : Z) (l m : list Z) : list Z := ztake off m ++ l ++ zdrop (off + zlen l) m.

Section gralloc.
Context `{Android, Kernel}.

(** The calling process, and whether [HostConnection::get] gives its thread a connection. *)
Variable getpid : Z.
Variable hostCon : bool.

(** ** The kernel and the heap *)

Definition syscall : G Z := fun g =>
  match errnos g with
  | [] => Done (Value 0 g)
  | e :: l => Done (Value e (with_errnos l g))
  end.

Definition addresses (g : Guest) : gset Z :=
  used getpid (cbs g) ∪ used getpid (devices g) ∪ used getpid (maps g).

(** [ashmem_create_region]: the descriptor, or a negative number for the error. *)
Definition ashmem_create_region (size : Z) : G Z :=
  e ← syscall;
  if 0 <? e then mret (- e)
  else
    r ← getg (fun g => new_address (dom (regions g)));
    d ← getg (fun g => new_fd (used getpid (fds g)));
    setg (fun g => with_regions (<[r := replicate (Z.to_nat size) 0]> (regions g)) g) ;;
    setg (fun g => with_fds (<[(getpid, d) := r]> (fds g)) g) ;;
    mret d.

Definition EBADF : Z := 9.
Definition EINVAL : Z := 22.

(** The address, or a negative number for the error; no more can be mapped than there is. *)
Definition mmap (size d : Z) : G Z :=
  e ← syscall;
  if 0 <? e then mret (- e)
  else
    r ← getg (fun g => fds g !! (getpid, d));
    match r with
    | None => mret (- EBADF)
    | Some r =>
        m ← getg (fun g => default [] (regions g !! r));
        a ← getg (fun g => new_address (addresses g));
        if zlen m <? size then mret (- EINVAL)
        else
          setg (fun g => with_maps (<[(getpid, a) := (r, size)]> (maps g)) g) ;;
          mret a
    end.

Definition munmap (a : Z) : G Z :=
  e ← syscall;
  if 0 <? e then mret (- e)
  else setg (fun g => with_maps (delete (getpid, a) (maps g)) g) ;; mret 0.

Definition close (d : Z) : G unit := setg (fun g => with_fds (delete (getpid, d) (fds g)) g).

(** Memory at an offset in a mapping. *)
Definition load (a off n : Z) : G (list Z) := fun g =>
  if n <=? 0 then Done (Value [] g)
  else
    match maps g !! (getpid, a) with
    | Some (r, size) =>
        let m := default [] (regions g !! r) in
        if (0 <=? off) && (off + n <=? Z.min size (zlen m)) then Done (Value (ztake n (zdrop off m)) g)
        else Done Fault
    | None => Done Fault
    end.

Definition store_at (a off : Z) (l : list Z) : G unit := fun g =>
  if zlen l <=? 0 then Done (Value tt g)
  else
    match maps g !! (getpid, a) with
    | Some (r, size) =>
        let m := default [] (regions g !! r) in
        if (0 <=? off) && (off + zlen l <=? Z.min size (zlen m)) then
          Done (Value tt (with_regions (<[r := overwrite off l m]> (regions g)) g))
        else Done Fault
    | None => Done Fault
    end.

(** The object behind a handle; freed memory may hold anything. *)
Definition get_cb (p : Z) : G cb_handle :=
  cb ← getg (fun g => cbs g !! (getpid, p));
  match cb with Some cb => mret cb | None => fault end.

Definition put_cb (p : Z) (cb : cb_handle) : G unit :=
  setg (fun g => with_cbs (<[(getpid, p) := cb]> (cbs g)) g).

Definition del_cb (p : Z) : G unit := setg (fun g => with_cbs (delete (getpid, p) (cbs g)) g).

Definition new_cb (cb : cb_handle) : G Z :=
  p ← getg (fun g => new_address (addresses g)); put_cb p cb ;; mret p.

(** [cb_handle_t::validate]. *)
Definition valid_cb (cb : cb_handle) : bool :=
  (version cb =? sizeof_native_handle) && (magic cb =? BUFFER_HANDLE_MAGIC) &&
  (numInts cb =? CB_HANDLE_NUM_INTS (numFds cb)).

Definition validate_handle (p : Z) : G bool :=
  if p =? 0 then mret false else cb ← get_cb p; mret (valid_cb cb).

Definition has (u mask : Z) : bool := negb (Z.land u mask =? 0).

Definition canBePosted (cb : cb_handle) : bool := has (usage cb) GRALLOC_USAGE_HW_FB.

Definition EACCES : Z := 13.
Definition EBUSY : Z := 16.
Definition ENOMEM : Z := 12.

(** Zero, or a negative number; the object is changed where it works. *)
Definition map_buffer (p : Z) : G Z :=
  cb ← get_cb p;
  if (fd cb <? 0) || (ashmemSize cb <=? 0) then mret (- EINVAL)
  else
    addr ← mmap (ashmemSize cb) (fd cb);
    if addr <? 0 then mret addr
    else put_cb p (set_mapping addr getpid (mappedPid cb) cb) ;; mret 0.

(** ** Allocation *)

(** The format of the pixels, where the framework leaves the choice. *)
Definition concrete_format (usage format : Z) : option Z :=
  if format =? HAL_PIXEL_FORMAT_IMPLEMENTATION_DEFINED then
    let format :=
      if has usage GRALLOC_USAGE_HW_CAMERA_WRITE then
        if has usage GRALLOC_USAGE_HW_TEXTURE then HAL_PIXEL_FORMAT_RGBA_8888
        else if has usage GRALLOC_USAGE_HW_VIDEO_ENCODER then HAL_PIXEL_FORMAT_YCrCb_420_SP
        else if Z.land usage GRALLOC_USAGE_HW_CAMERA_MASK =? GRALLOC_USAGE_HW_CAMERA_ZSL
        then HAL_PIXEL_FORMAT_RGB_888
        else format
      else format in
    if format =? HAL_PIXEL_FORMAT_IMPLEMENTATION_DEFINED then None else Some format
  else if format =? HAL_PIXEL_FORMAT_YCbCr_420_888 then
    Some (if has usage GRALLOC_USAGE_HW_CAMERA_WRITE then HAL_PIXEL_FORMAT_YCrCb_420_SP else format)
  else Some format.

Record Layout := mkLayout {
  bpp : Z;
  align : Z;
  yuv_format : bool;
  l_glFormat : Z;
  l_glType : Z
}.

(** The [switch (format)]; [None] for [-EINVAL]. *)
Definition format_layout (usage format : Z) : option Layout :=
  let sw_write := has usage GRALLOC_USAGE_SW_WRITE_MASK in
  let sw_read := has usage GRALLOC_USAGE_SW_READ_MASK in
  let hw_cam_write := has usage GRALLOC_USAGE_HW_CAMERA_WRITE in
  let hw_cam_read := has usage GRALLOC_USAGE_HW_CAMERA_READ in
  if is_one_of format [HAL_PIXEL_FORMAT_RGBA_8888; HAL_PIXEL_FORMAT_RGBX_8888; HAL_PIXEL_FORMAT_BGRA_8888]
  then Some (mkLayout 4 1 false GL_RGBA GL_UNSIGNED_BYTE)
  else if format =? HAL_PIXEL_FORMAT_RGB_888 then Some (mkLayout 3 1 false GL_RGB GL_UNSIGNED_BYTE)
  else if format =? HAL_PIXEL_FORMAT_RGB_565 then Some (mkLayout 2 1 false GL_RGB GL_UNSIGNED_SHORT_5_6_5)
  else if is_one_of format [HAL_PIXEL_FORMAT_RAW16; HAL_PIXEL_FORMAT_Y16] then
    if negb ((sw_read || hw_cam_read) && (sw_write || hw_cam_write)) then None
    else Some (mkLayout 2 (16 * 2) false GL_LUMINANCE GL_UNSIGNED_SHORT)
  else if format =? HAL_PIXEL_FORMAT_BLOB then
    if negb (sw_read && hw_cam_write) then None
    else Some (mkLayout 1 1 false GL_LUMINANCE GL_UNSIGNED_BYTE)
  else if format =? HAL_PIXEL_FORMAT_YCrCb_420_SP then Some (mkLayout 1 1 true 0 0)
  else if format =? HAL_PIXEL_FORMAT_YV12 then Some (mkLayout 1 16 true 0 0)
  else None.

Definition PAGE_SIZE : Z := 4096.

(** [x] up to a multiple of [align], of an [int]. *)
Definition aligned (x align : Z) : Z := Z.land (i32 (x + (align - 1))) (Z.lnot (align - 1)).

(** The size of the shared memory before it is rounded to pages, and the stride. *)
Definition image_size (y : Layout) (w h usage : Z) : Z * Z :=
  let ashmem_size := if has usage GRALLOC_USAGE_HW_FB then 4 else 0 in
  if has usage GRALLOC_USAGE_SW_READ_MASK || has usage GRALLOC_USAGE_SW_WRITE_MASK ||
     has usage GRALLOC_USAGE_HW_CAMERA_WRITE || has usage GRALLOC_USAGE_HW_VIDEO_ENCODER then
    if yuv_format y then
      let yStride := u64 (aligned (i32 (w * bpp y)) (align y)) in
      let uvStride := Z.land (u64 (yStride / 2 + (align y - 1))) (u64 (Z.lnot (align y - 1))) in
      let uvHeight := u64 (Z.quot h 2) in
      (i32 (u64 (ashmem_size + (yStride * u64 h + 2 * (uvHeight * uvStride)))), i32 (yStride / bpp y))
    else
      let bpr := u64 (aligned (i32 (w * bpp y)) (align y)) in
      (i32 (u64 (ashmem_size + bpr * u64 h)), i32 (bpr / bpp y))
  else (ashmem_size, w).

Definition wants_host_buffer (u : Z) : bool :=
  has u (Z.lor (Z.lor (Z.lor (Z.lor (Z.lor GRALLOC_USAGE_HW_TEXTURE GRALLOC_USAGE_HW_RENDER)
    GRALLOC_USAGE_HW_2D) GRALLOC_USAGE_HW_COMPOSER) GRALLOC_USAGE_HW_FB) GRALLOC_USAGE_SW_READ_MASK).

(** The error number, and the handle with the stride; [outs]: neither pointer is null. *)
Definition gralloc_alloc (grdev : Z) (outs : bool) (w h fmt u : Z) : G (Z * option (Z * Z)) :=
  if (grdev =? 0) || negb outs then mret (- EINVAL, None)
  else
    match concrete_format u fmt with
    | None => mret (- EINVAL, None)
    | Some format =>
        match format_layout u format with
        | None => mret (- EINVAL, None)
        | Some y =>
            let '(size, stride) := image_size y w h u in
            let ashmem_size := if 0 <? size then aligned size PAGE_SIZE else size in
            d ← (if 0 <? size then ashmem_create_region (u64 ashmem_size) else mret (-1));
            if (0 <? size) && (d <? 0) then mret (d, None)
            else
              cb ← new_cb (cb_handle_new d ashmem_size u w h fmt format (l_glFormat y) (l_glType y));
              err ← (if 0 <? ashmem_size then
                       err ← map_buffer cb;
                       if negb (err =? 0) then close d ;; del_cb cb ;; mret err
                       else c ← get_cb cb; put_cb cb (setFd d c) ;; mret 0
                     else mret 0);
              if negb (err =? 0) then mret (err, None)
              else
                err ← (if wants_host_buffer u then
                         c ← get_cb cb;
                         b ← (if hostCon then rc_int (CreateColorBuffer w h (l_glFormat y))
                              else mret (hostHandle c));
                         put_cb cb (set_hostHandle b c) ;;
                         if b =? 0 then close d ;; del_cb cb ;; mret (- EIO) else mret 0
                       else mret 0);
                if negb (err =? 0) then mret (err, None)
                else
                  list ← getg (fun g => devices g !! (getpid, grdev));
                  match list with
                  | None => fault
                  | Some l =>
                      setg (fun g => with_devices (<[(getpid, grdev) := cb :: l]> (devices g)) g) ;;
                      mret (0, Some (cb, if fmt =? HAL_PIXEL_FORMAT_YCbCr_420_888 then 0 else stride))
                  end
        end
    end.

(** The first occurrence goes. *)
Fixpoint unlink (p : Z) (l : list Z) : list Z :=
  match l with
  | [] => []
  | q :: l => if q =? p then l else q :: unlink p l
  end.

Definition gralloc_free (grdev p : Z) : G Z :=
  ok ← validate_handle p;
  if negb ok then mret (- EINVAL)
  else
    cb ← get_cb p;
    err ← (if negb (hostHandle cb =? 0) then
             if negb hostCon then mret (- EIO) else rc (CloseColorBuffer (hostHandle cb)) ;; mret 0
           else mret 0);
    if negb (err =? 0) then mret err
    else
      (if 0 <? fd cb then
         (if (0 <? ashmemSize cb) && negb (ashmemBase cb =? 0)
          then munmap (ashmemBase cb) ;; mret tt else mret tt) ;;
         close (fd cb)
       else mret tt) ;;
      list ← getg (fun g => devices g !! (getpid, grdev));
      match list with
      | None => fault
      | Some l =>
          setg (fun g => with_devices (<[(getpid, grdev) := unlink p l]> (devices g)) g) ;;
          del_cb p ;; mret 0
      end.

(** The loop of [gralloc_device_close]: a turn that frees nothing is repeated for ever. *)
Fixpoint free_all (n : nat) (grdev : Z) : G unit :=
  list ← getg (fun g => devices g !! (getpid, grdev));
  match list with
  | None => fault
  | Some [] => mret tt
  | Some (p :: _) =>
      match n with
      | O => hang
      | S n => gralloc_free grdev p ;; free_all n grdev
      end
  end.

Definition gralloc_device_close (grdev : Z) : G Z :=
  if grdev =? 0 then mret 0
  else
    list ← getg (fun g => devices g !! (getpid, grdev));
    free_all (length (default [] list)) grdev ;;
    setg (fun g => with_devices (delete (getpid, grdev) (devices g)) g) ;;
    mret 0.

(** ** The frame buffer *)

(** [intptr_t] of a 64-bit process. *)
Definition sizeof_intptr : Z := 8.

Definition int_at (a off n : Z) : G Z :=
  l ← load a off n; mret (le_value l).

Definition fb_post (fbdev buffer : Z) : G Z :=
  ok ← (if fbdev =? 0 then mret false else validate_handle buffer);
  if negb ok then mret (- EINVAL)
  else
    cb ← get_cb buffer;
    if negb (canBePosted cb) then mret (- EINVAL)
    else if negb hostCon then mret (- EIO)
    else if ashmemBase cb =? 0 then mret (- EINVAL)
    else
      n ← int_at (ashmemBase cb) 0 sizeof_intptr;
      store_at (ashmemBase cb) 0 (little_endian 8 (n + 1)) ;;
      rc (FBPost (hostHandle cb)) ;;
      flush_host ;;
      mret 0.

Definition fb_setSwapInterval (fbdev interval : Z) : G Z :=
  if fbdev =? 0 then mret (- EINVAL)
  else if negb hostCon then mret (- EIO)
  else rc (FBSetSwapInterval interval) ;; flush_host ;; mret 0.

(** It is not in the table of the device's functions. *)
Definition fb_setUpdateRect (fbdev l t w h : Z) : G Z :=
  if fbdev =? 0 then mret (- EINVAL) else if negb hostCon then mret (- EIO) else mret 0.

Definition fb_compositionComplete (fbdev : Z) : G Z := mret 0.

(** ** The module *)

(** The module that is used instead without a host that renders. *)
Record Fallback := mkFallback {
  f_registerBuffer : Z -> G Z;
  f_unregisterBuffer : Z -> G Z;
  f_lock : Z -> Z -> Z -> Z -> Z -> Z -> G (Z * option (Z * Z));
  f_unlock : Z -> G Z;
  f_open : string -> G (Z * Z)
}.

(** [ro.kernel.qemu.gles] as a number, and the module if it can be loaded. *)
Definition fallback_init (gles : Z) (module : option Fallback) : option Fallback :=
  if gles =? 1 then None else module.

Variable sFallback : option Fallback.

Definition gralloc_register_buffer (p : Z) : G Z :=
  match sFallback with
  | Some f => f_registerBuffer f p
  | None =>
      ok ← validate_handle p;
      if negb ok then mret (- EINVAL)
      else
        cb ← get_cb p;
        if negb (hostHandle cb =? 0) && negb hostCon then mret (- EIO)
        else
          (if negb (hostHandle cb =? 0) then rc (OpenColorBuffer2 (hostHandle cb)) ;; mret tt
           else mret tt) ;;
          if (0 <? ashmemSize cb) && negb (mappedPid cb =? getpid) then
            err ← map_buffer p;
            if negb (err =? 0) then mret (- err)
            else
              cb ← get_cb p;
              put_cb p (set_mapping (ashmemBase cb) (ashmemBasePid cb) getpid cb) ;;
              mret 0
          else mret 0
  end.

Definition gralloc_unregister_buffer (p : Z) : G Z :=
  match sFallback with
  | Some f => f_unregisterBuffer f p
  | None =>
      ok ← validate_handle p;
      if negb ok then mret (- EINVAL)
      else
        cb ← get_cb p;
        if negb (hostHandle cb =? 0) && negb hostCon then mret (- EIO)
        else
          (if negb (hostHandle cb =? 0) then rc (CloseColorBuffer (hostHandle cb)) ;; mret tt
           else mret tt) ;;
          if (0 <? ashmemSize cb) && (mappedPid cb =? getpid) then
            err ← munmap (ashmemBase cb);
            if negb (err =? 0) then mret (- EINVAL)
            else put_cb p (set_mapping 0 (ashmemBasePid cb) 0 cb) ;; mret 0
          else mret 0
  end.

(** What a lock is refused for: access by the hardware, or by the processor where the
    buffer was not allocated for it. *)
Definition usage_mismatch (u allocated : Z) : bool :=
  let sw_read := has u GRALLOC_USAGE_SW_READ_MASK in
  let sw_write := has u GRALLOC_USAGE_SW_WRITE_MASK in
  has u GRALLOC_USAGE_HW_TEXTURE || has u GRALLOC_USAGE_HW_RENDER ||
  (negb sw_read && negb sw_write && negb (has u GRALLOC_USAGE_HW_CAMERA_WRITE) &&
   negb (has u GRALLOC_USAGE_HW_CAMERA_READ) && negb (has u GRALLOC_USAGE_HW_VIDEO_ENCODER)) ||
  (sw_read && negb (has allocated GRALLOC_USAGE_SW_READ_MASK)) ||
  (sw_write && negb (has allocated GRALLOC_USAGE_SW_WRITE_MASK)).

(** The error number, and [*vaddr] as a mapping and an offset. *)
Definition gralloc_lock (p u l t w h : Z) : G (Z * option (Z * Z)) :=
  match sFallback with
  | Some f => f_lock f p u l t w h
  | None =>
      ok ← validate_handle p;
      if negb ok then mret (- EINVAL, None)
      else
        cb ← get_cb p;
        if frameworkFormat cb =? HAL_PIXEL_FORMAT_YCbCr_420_888 then mret (- EINVAL, None)
        else if usage_mismatch u (usage cb) then mret (- EINVAL, None)
        else if negb (ashmemBasePid cb =? getpid) || (ashmemBase cb =? 0) then mret (- EACCES, None)
        else
          (* an access that needs the address is asked for *)
          let sw_read := has u GRALLOC_USAGE_SW_READ_MASK in
          let sw_write := has u GRALLOC_USAGE_SW_WRITE_MASK in
          let hw_cam_write := has u GRALLOC_USAGE_HW_CAMERA_WRITE in
          postCount ← (if canBePosted cb then int_at (ashmemBase cb) 0 sizeof_intptr else mret 0);
          let off := if canBePosted cb then sizeof_intptr else 0 in
          err ← (if negb (hostHandle cb =? 0) then
                   if negb hostCon then mret (- EIO)
                   else
                     hostSyncStatus ← rc_int (ColorBufferCacheFlush (hostHandle cb) postCount
                                                (if sw_read then 1 else 0));
                     if i32 hostSyncStatus <? 0 then mret (- EBUSY)
                     else if sw_read then
                       pixels ← rc (ReadColorBuffer (hostHandle cb) 0 0 (width cb) (height cb)
                                      (glFormat cb) (glType cb));
                       match all_some (concat pixels) with
                       | Some l => store_at (ashmemBase cb) off l ;; mret 0
                       | None => fault
                       end
                     else mret 0
                 else mret 0);
          if negb (err =? 0) then mret (err, None)
          else
            (if sw_write || hw_cam_write then put_cb p (set_locked l t w h cb) else mret tt) ;;
            mret (0, Some (ashmemBase cb, off))
  end.

(** The loop over the rows: [y] of them are left. *)
Fixpoint copy_rows (y : nat) (base src dst_line_len src_line_len : Z) : G (list Z) :=
  match y with
  | O => mret []
  | S y =>
      row ← load base src dst_line_len;
      rest ← copy_rows y base (src + src_line_len) dst_line_len src_line_len;
      mret (row ++ rest)
  end.

(** A null pointer where the buffer has no memory here. *)
Definition load_pixels (base off n : Z) : G (option bytes) :=
  if (base =? 0) && (off =? 0) then mret None else l ← load base off n; mret (Some (Some <$> l)).

Definition gralloc_unlock (p : Z) : G Z :=
  match sFallback with
  | Some f => f_unlock f p
  | None =>
      ok ← validate_handle p;
      if negb ok then mret (- EINVAL)
      else
        cb ← get_cb p;
        err ← (if negb (hostHandle cb =? 0) then
                 if negb hostCon then mret (- EIO)
                 else
                   let off := if canBePosted cb then 4 else 0 in
                   if (lockedWidth cb <? width cb) || (lockedHeight cb <? height cb) then
                     let bpp := Z.shiftr (glUtilsPixelBitSize (glFormat cb) (glType cb)) 3 in
                     if i32 (i32 (lockedWidth cb * lockedHeight cb) * bpp) <? 0 then fault
                     else
                       let dst_line_len := i32 (lockedWidth cb * bpp) in
                       let src_line_len := i32 (width cb * bpp) in
                       let src := off + i32 (lockedTop cb * src_line_len) + i32 (lockedLeft cb * bpp) in
                       tmpBuf ← copy_rows (Z.to_nat (lockedHeight cb)) (ashmemBase cb) src dst_line_len
                                  src_line_len;
                       rc (UpdateColorBuffer (hostHandle cb) (lockedLeft cb) (lockedTop cb)
                             (lockedWidth cb) (lockedHeight cb) (glFormat cb) (glType cb) (Some (Some <$> tmpBuf))) ;;
                       mret 0
                   else
                     pixels ← load_pixels (ashmemBase cb) off
                                (size_pixels (width cb) (height cb) (glFormat cb) (glType cb));
                     rc (UpdateColorBuffer (hostHandle cb) 0 0 (width cb) (height cb) (glFormat cb)
                           (glType cb) pixels) ;;
                     mret 0
               else mret 0);
        if negb (err =? 0) then mret err
        else put_cb p (set_locked (lockedLeft cb) (lockedTop cb) 0 0 cb) ;; mret 0
  end.

(** [android_ycbcr]: the planes as offsets in the mapping. *)
Record android_ycbcr := mkYcbcr {
  y_base : Z;
  y : Z;
  cb_ : Z;
  cr : Z;
  ystride : Z;
  cstride : Z;
  chroma_step : Z
}.

(** [out]: the structure is not null. *)
Definition gralloc_lock_ycbcr (p u l t w h : Z) (out : bool) : G (Z * option android_ycbcr) :=
  match sFallback with
  | Some _ => mret (- EINVAL, None)
  | None =>
      ok ← (if negb out then mret false else validate_handle p);
      if negb ok then mret (- EINVAL, None)
      else
        cb ← get_cb p;
        let sw_read := has u GRALLOC_USAGE_SW_READ_MASK in
        let hw_cam_write := has u GRALLOC_USAGE_HW_CAMERA_WRITE in
        if negb (frameworkFormat cb =? HAL_PIXEL_FORMAT_YCbCr_420_888) then mret (- EINVAL, None)
        else if (negb hw_cam_write && negb sw_read) ||
                (sw_read && negb (has (usage cb) GRALLOC_USAGE_SW_READ_MASK)) then mret (- EINVAL, None)
        else if negb (ashmemBasePid cb =? getpid) || (ashmemBase cb =? 0) then mret (- EACCES, None)
        else
          let off := if canBePosted cb then 4 else 0 in
          if negb (format cb =? HAL_PIXEL_FORMAT_YCrCb_420_SP) then mret (- EINVAL, None)
          else
            let yStride := u64 (width cb) in
            let vOffset := u64 (yStride * u64 (height cb)) in
            put_cb p (set_locked l t w h cb) ;;
            mret (0, Some (mkYcbcr (ashmemBase cb) off (off + u64 (vOffset + 1)) (off + vOffset)
                             yStride yStride 2))
  end.

(** What [fb_device_t] tells of the display. *)
Record fb_device := mkFb {
  fb_width : Z;
  fb_height : Z;
  xdpi : Z;
  ydpi : Z;
  fps : Z;
  minSwapInterval : Z;
  maxSwapInterval : Z
}.

Definition FB_WIDTH : Z := 1.
Definition FB_HEIGHT : Z := 2.
Definition FB_XDPI : Z := 3.
Definition FB_YDPI : Z := 4.
Definition FB_FPS : Z := 5.
Definition FB_MIN_SWAP_INTERVAL : Z := 6.
Definition FB_MAX_SWAP_INTERVAL : Z := 7.

(** A device of either kind, with the pointer to it. *)
Inductive opened := Nothing | Gpu0 (dev : Z) | Fb0 (dev : Z) (d : fb_device) | Other (dev : Z).

Definition malloc_device : G (option Z) :=
  e ← syscall;
  if 0 <? e then mret None else a ← getg (fun g => new_address (addresses g)); mret (Some a).

Definition gralloc_device_open (name : string) : G (Z * opened) :=
  match sFallback with
  | Some f => r ← f_open f name; mret (r.1, Other r.2)
  | None =>
      if bool_decide (name = GRALLOC_HARDWARE_GPU0) then
        if negb hostCon then mret (- EIO, Nothing)
        else
          dev ← malloc_device;
          match dev with
          | None => mret (- ENOMEM, Nothing)
          | Some a =>
              setg (fun g => with_devices (<[(getpid, a) := []]> (devices g)) g) ;;
              mret (0, Gpu0 a)
          end
      else if bool_decide (name = GRALLOC_HARDWARE_FB0) then
        if negb hostCon then mret (- EIO, Nothing)
        else
          width ← rc_int (GetFBParam FB_WIDTH);
          height ← rc_int (GetFBParam FB_HEIGHT);
          xdpi ← rc_int (GetFBParam FB_XDPI);
          ydpi ← rc_int (GetFBParam FB_YDPI);
          fps ← rc_int (GetFBParam FB_FPS);
          min_si ← rc_int (GetFBParam FB_MIN_SWAP_INTERVAL);
          max_si ← rc_int (GetFBParam FB_MAX_SWAP_INTERVAL);
          dev ← malloc_device;
          match dev with
          | None => mret (- ENOMEM, Nothing)
          | Some a => mret (0, Fb0 a (mkFb width height (i32 xdpi) (i32 ydpi) (i32 fps) (i32 min_si) (i32 max_si)))
          end
      else mret (- EINVAL, Nothing)
  end.
End gralloc.
