(* ===== verification/GrallocState.v ===== *)
(** * The state of graphics memory

    What the proofs about Gralloc.v share: the host as an interface, [RenderHost], that
    counts the references to a color buffer; the weakest preconditions of system calls and
    of memory; what is true of all handles and mappings,
    [guest_ok], and how it stays true when a handle changes, comes or goes. *)

From S2P Require Import Prelude Utils Gl RenderThread Checksum GuestStream RenderControlEnc Decoder Remote GuestCode Gralloc.

(** ** The host *)

(** What the host promises: it counts, as long as it is [host_ready] to make a buffer or
    take a reference; reading and drawing changes no count. *)
Class RenderHost {S} (host : rc_call -> S -> list bytes * S) := {
  host_refs : S -> Z -> Z;
  host_ready : S -> Prop;
  host_creates : forall w h f s, host_ready s -> exists b,
    in_u 32 b /\ (host (CreateColorBuffer w h f) s).1 = [word b] /\ (b <> 0 -> host_refs s b = 0) /\
    forall b', host_refs (host (CreateColorBuffer w h f) s).2 b' =
      host_refs s b' + (if bool_decide (b <> 0 /\ b' = b) then 1 else 0);
  host_opens : forall b s b', host_ready s -> 0 < host_refs s b ->
    host_refs (host (OpenColorBuffer2 b) s).2 b' = host_refs s b' + (if b' =? b then 1 else 0);
  host_closes : forall b s b', 0 < host_refs s b ->
    host_refs (host (CloseColorBuffer b) s).2 b' = host_refs s b' - (if b' =? b then 1 else 0);
  host_flushes : forall b n r s, exists z, in_u 32 z /\
    (host (ColorBufferCacheFlush b n r) s).1 = [word z] /\
    forall b', host_refs (host (ColorBufferCacheFlush b n r) s).2 b' = host_refs s b';
  host_reads : forall b x y w h f t s, exists l,
    (host (ReadColorBuffer b x y w h f t) s).1 = [Some <$> l] /\ zlen l = size_pixels w h f t /\
    forall b', host_refs (host (ReadColorBuffer b x y w h f t) s).2 b' = host_refs s b';
  host_updates : forall b x y w h f t l s b',
    host_refs (host (UpdateColorBuffer b x y w h f t l) s).2 b' = host_refs s b';
  host_posts : forall b s b', host_refs (host (FBPost b) s).2 b' = host_refs s b';
  host_params : forall n s, exists z, in_u 32 z /\ (host (GetFBParam n) s).1 = [word z] /\
    forall b', host_refs (host (GetFBParam n) s).2 b' = host_refs s b'
}.

(** ** The kernel, the heap and the memory *)

Section memory.
Context {S : Type} (host : rc_call -> S -> list bytes * S) `{HK : Kernel} (pid : Z).
Implicit Types (g : Guest) (s : S).

Lemma wp_syscall Q g s : (forall e l, Q e (with_errnos l g) s) -> wp host syscall Q g s.
Proof.
  intros HQ. unfold wp, syscall. destruct g as [C D F M R [|e l]]; cbn.
  - apply (HQ 0 []).
  - apply (HQ e l).
Qed.
Lemma wp_create size (Q : Z -> Guest -> S -> Prop) g s :
  (forall e l, 0 < e -> Q (- e) (with_errnos l g) s) ->
  (forall d r l, 0 <= d -> r ∉ dom (regions g) ->
     Q d (with_fds (<[(pid, d) := r]> (fds g))
           (with_regions (<[r := replicate (Z.to_nat size) 0]> (regions g)) (with_errnos l g))) s) ->
  wp host (ashmem_create_region pid size) Q g s.
Proof.
  intros Hbad Hgood. apply wp_bind, wp_syscall. intros e l. destruct (Z.ltb_spec 0 e); [by apply Hbad|].
  apply wp_bind, wp_getg, wp_bind, wp_getg, wp_bind, wp_setg, wp_bind, wp_setg, wp_ret. cbn.
  apply Hgood; [|apply new_address_fresh]. by destruct (new_fd_fresh (used pid (fds g))).
Qed.

Lemma wp_mmap size d (Q : Z -> Guest -> S -> Prop) g s :
  0 < size ->
  (forall z l, z < 0 -> Q z (with_errnos l g) s) ->
  (forall a r m l, regions g !! r = Some m -> size <= zlen m -> a ∉ addresses pid g -> 0 < a ->
     Q a (with_maps (<[(pid, a) := (r, size)]> (maps g)) (with_errnos l g)) s) ->
  wp host (mmap pid size d) Q g s.
Proof.
  intros Hsize Hbad Hgood. apply wp_bind, wp_syscall. intros e l.
  destruct (Z.ltb_spec 0 e); [by apply Hbad; lia|].
  apply wp_bind, wp_getg. cbn [fds with_errnos]. destruct (fds g !! (pid, d)) as [r|]; [|by apply Hbad].
  apply wp_bind, wp_getg, wp_bind, wp_getg. cbn [regions with_errnos].
  set (m := default [] (regions g !! r)). destruct (Z.ltb_spec (zlen m) size); [by apply wp_ret, Hbad|].
  apply wp_bind, wp_setg, wp_ret. destruct (new_address_fresh (addresses pid g)).
  subst m. destruct (regions g !! r) as [m|] eqn:Hr; cbn in *; [by eapply Hgood|unfold zlen in *; cbn in *; lia].
Qed.

Lemma wp_munmap a (Q : Z -> Guest -> S -> Prop) g s :
  (forall z l, z < 0 -> Q z (with_errnos l g) s) ->
  (forall l, Q 0 (with_maps (delete (pid, a) (maps g)) (with_errnos l g)) s) ->
  wp host (munmap pid a) Q g s.
Proof.
  intros Hbad Hgood. apply wp_bind, wp_syscall. intros e l.
  destruct (Z.ltb_spec 0 e); [by apply Hbad; lia|]. apply wp_bind, wp_setg, wp_ret, Hgood.
Qed.

(** [size] bytes of memory are mapped at [a]. *)
Definition backed (M : gmap (Z * Z) (Z * Z)) (R : gmap Z (list Z)) (a size : Z) : Prop :=
  exists r m, M !! (pid, a) = Some (r, size) /\ R !! r = Some m /\ size <= zlen m.

(** What is there. *)
Definition mapped_bytes (g : Guest) (a : Z) : list Z :=
  match maps g !! (pid, a) with Some (r, _) => default [] (regions g !! r) | None => [] end.

Lemma wp_load a off n size (Q : list Z -> Guest -> S -> Prop) g s :
  (0 < n -> backed (maps g) (regions g) a size /\ 0 <= off /\ off + n <= size) ->
  Q (ztake n (zdrop off (mapped_bytes g a))) g s -> wp host (load pid a off n) Q g s.
Proof.
  intros Hm HQ. unfold wp, load. destruct (Z.leb_spec n 0) as [Hn|Hn].
  - cbn. by rewrite ztake_nonpos in HQ.
  - destruct (Hm Hn) as [(r & m & HM & HR & Hs) Ho]. unfold mapped_bytes in HQ. rewrite HM, HR in *.
    change (default [] (Some m)) with m in *.
    replace ((0 <=? off) && (off + n <=? Z.min size (zlen m))) with true by lia. done.
Qed.

(** Memory after a write: nothing else has changed. *)
Definition rewritten (R R' : gmap Z (list Z)) : Prop :=
  forall r m, R !! r = Some m -> exists m', R' !! r = Some m' /\ zlen m' = zlen m.

Lemma rewritten_refl R : rewritten R R.
Proof. intros r m Hr. by exists m. Qed.

Lemma overwrite_len off (l m : list Z) :
  0 <= off -> off + zlen l <= zlen m -> zlen (overwrite off l m) = zlen m.
Proof.
  intros Ho Hl. pose proof (zlen_nonneg l). unfold overwrite. rewrite !zlen_app, zlen_ztake, zlen_zdrop; lia.
Qed.

Lemma wp_store a off l size (Q : unit -> Guest -> S -> Prop) g s :
  (0 < zlen l -> backed (maps g) (regions g) a size /\ 0 <= off /\ off + zlen l <= size) ->
  (forall R, rewritten (regions g) R -> Q tt (with_regions R g) s) ->
  wp host (store_at pid a off l) Q g s.
Proof.
  intros Hm HQ. unfold wp, store_at. destruct (Z.leb_spec (zlen l) 0) as [Hn|Hn].
  - cbn. specialize (HQ (regions g) (rewritten_refl _)). by destruct g.
  - destruct (Hm Hn) as [(r & m & HM & HR & Hs) Ho]. rewrite HM, HR.
    change (default [] (Some m)) with m.
    replace ((0 <=? off) && (off + zlen l <=? Z.min size (zlen m))) with true by lia. cbn. apply HQ.
    intros r' m' Hr'. destruct (decide (r' = r)) as [->|Hne].
    + assert (m' = m) as -> by congruence. eexists. rewrite lookup_insert_eq. split; [done|].
      apply overwrite_len; lia.
    + exists m'. by rewrite lookup_insert_ne.
Qed.

Lemma wp_get_cb p cb (Q : cb_handle -> Guest -> S -> Prop) g s :
  cbs g !! (pid, p) = Some cb -> Q cb g s -> wp host (get_cb pid p) Q g s.
Proof. intros Hp HQ. apply wp_bind, wp_getg. rewrite Hp. by apply wp_ret. Qed.

Lemma wp_validate p cb (Q : bool -> Guest -> S -> Prop) g s :
  cbs g !! (pid, p) = Some cb -> p <> 0 -> valid_cb cb = true -> Q true g s ->
  wp host (validate_handle pid p) Q g s.
Proof.
  intros Hp H0 Hv HQ. unfold validate_handle. replace (p =? 0) with false by lia.
  apply wp_bind. eapply wp_get_cb; [done|]. apply wp_ret. by rewrite Hv.
Qed.

Lemma used_in {A} (m : gmap (Z * Z) A) a x : m !! (pid, a) = Some x -> a ∈ used pid m.
Proof.
  intros Hm. unfold used. apply elem_of_map. exists (pid, a). split; [done|].
  apply elem_of_filter. split; [done|]. by eapply elem_of_dom_2.
Qed.

Lemma unused {A} (m : gmap (Z * Z) A) a X : a ∉ X -> used pid m ⊆ X -> m !! (pid, a) = None.
Proof.
  intros Ha HX. destruct (m !! (pid, a)) eqn:Hm; [|done]. exfalso. apply Ha, HX. by eapply used_in.
Qed.

Lemma used_insert {A} (m : gmap (Z * Z) A) i x : used pid m ⊆ used pid (<[i := x]> m).
Proof.
  intros a. unfold used. rewrite !elem_of_map. intros (k & -> & Hk). exists k. split; [done|].
  apply elem_of_filter in Hk as [Hpid Hk]. apply elem_of_filter. split; [done|].
  apply elem_of_dom. apply elem_of_dom in Hk. by apply lookup_insert_is_Some'; right.
Qed.

Lemma addresses_free a g : a ∉ addresses pid g ->
  cbs g !! (pid, a) = None /\ devices g !! (pid, a) = None /\ maps g !! (pid, a) = None.
Proof. intros Ha. unfold addresses in Ha. split_and!; eapply unused; (done || set_solver). Qed.
End memory.

(** ** The state of the guest *)

(** A reference to a color buffer of the host: the handle that stands for it, and the
    color buffer.  The handle [0] stands for a reference nobody gives back. *)
Definition token : Type := Z * Z * Z.

Definition count (b : Z) (T : list token) : Z := zlen (filter (fun x => x.2 = b) T).

(** The first of them goes. *)
Fixpoint give_back (x : token) (T : list token) : list token :=
  match T with
  | [] => []
  | y :: T => if bool_decide (y = x) then T else y :: give_back x T
  end.

Section state.
Context `{HA : Android}.

Definition mapped (cb : cb_handle) : Prop := ashmemBase cb <> 0.

(** It was allocated or registered here. *)
Definition trusted (T : list token) (pid p : Z) (cb : cb_handle) : Prop :=
  (exists b, (pid, p, b) ∈ T) \/ mappedPid cb = pid.

Definition bytes_per_pixel (cb : cb_handle) : Z := Z.shiftr (glUtilsPixelBitSize (glFormat cb) (glType cb)) 3.

(** The image and the counter before it have room. *)
Definition roomy (cb : cb_handle) : Prop :=
  (if canBePosted cb then 8 else 0) + bytes_per_pixel cb * width cb * height cb <= ashmemSize cb /\
  8 * bytes_per_pixel cb * width cb < 2 ^ 31 /\ 0 < ashmemSize cb < 2 ^ 31.

Definition in_image (l t w h : Z) (cb : cb_handle) : Prop :=
  0 <= l /\ 0 <= t /\ 0 <= w /\ 0 <= h /\ l + w <= width cb /\ t + h <= height cb.

Definition region_of (cb : cb_handle) : Prop :=
  in_image (lockedLeft cb) (lockedTop cb) (lockedWidth cb) (lockedHeight cb) cb.

Definition locked (cb : cb_handle) : Prop := 0 < lockedWidth cb /\ 0 < lockedHeight cb.

Record cb_ok (M : gmap (Z * Z) (Z * Z)) (R : gmap Z (list Z)) (T : list token) (pid p : Z)
    (cb : cb_handle) : Prop := {
  ok_valid : valid_cb cb = true;
  ok_region : region_of cb;
  ok_room : locked cb -> roomy cb /\ (trusted T pid p cb -> mapped cb);
  ok_none : ashmemSize cb <= 0 -> ashmemBase cb = 0;
  ok_backed : trusted T pid p cb -> mapped cb ->
    ashmemBasePid cb = pid /\ backed pid M R (ashmemBase cb) (ashmemSize cb)
}.

(** The handles are in order, the lists of the devices name objects, and trusted handles
    share no mapping. *)
Record guest_ok (g : Guest) (T : list token) : Prop := {
  gk_cb : forall pid p cb, cbs g !! (pid, p) = Some cb -> p <> 0 /\ cb_ok (maps g) (regions g) T pid p cb;
  gk_token : forall pid p b, (pid, p, b) ∈ T -> p <> 0 ->
    exists cb, cbs g !! (pid, p) = Some cb /\ hostHandle cb = b;
  gk_apart : forall pid p p' cb cb', cbs g !! (pid, p) = Some cb -> cbs g !! (pid, p') = Some cb' -> p <> p' ->
    trusted T pid p cb -> trusted T pid p' cb' -> mapped cb -> mapped cb' ->
    ashmemBase cb <> ashmemBase cb';
  gk_list : forall pid d l, devices g !! (pid, d) = Some l ->
    NoDup l /\ forall p, p ∈ l -> is_Some (cbs g !! (pid, p));
  gk_lists : forall pid d d' l l' p, devices g !! (pid, d) = Some l -> devices g !! (pid, d') = Some l' ->
    p ∈ l -> p ∈ l' -> d = d'
}.

Definition refs_ok {S} {host : rc_call -> S -> list bytes * S} `{!RenderHost host} (s : S) (T : list token) : Prop :=
  forall b, b <> 0 -> host_refs s b = count b T.

(** *** Counting *)

Lemma count_cons b x T : count b (x :: T) = (if x.2 =? b then 1 else 0) + count b T.
Proof.
  unfold count. rewrite filter_cons. destruct (Z.eqb_spec x.2 b) as [Hb|Hb].
  - rewrite decide_True by done. apply zlen_cons.
  - by rewrite decide_False.
Qed.

Lemma count_nonneg b T : 0 <= count b T.
Proof. apply zlen_nonneg. Qed.

Lemma count_in pid p b T : (pid, p, b) ∈ T -> 0 < count b T.
Proof.
  induction T as [|x T IH]; intros Hin; [by apply elem_of_nil in Hin|]. rewrite count_cons.
  pose proof (count_nonneg b T). apply elem_of_cons in Hin as [<-|Hin]; cbn.
  - rewrite Z.eqb_refl. lia.
  - specialize (IH Hin). case_match; lia.
Qed.

Lemma count_drop x b T : x ∈ T -> count b (give_back x T) = count b T - (if b =? x.2 then 1 else 0).
Proof.
  induction T as [|y T IH]; intros Hin; [by apply elem_of_nil in Hin|]. cbn [give_back].
  rewrite count_cons. case_bool_decide as Hy.
  - subst y. rewrite (Z.eqb_sym b). case_match; lia.
  - apply elem_of_cons in Hin as [<-|Hin]; [done|]. rewrite count_cons, IH by done. lia.
Qed.

Lemma drop_in x y T : y ∈ give_back x T -> y ∈ T.
Proof.
  induction T as [|z T IH]; cbn [give_back]; [done|]. case_bool_decide; set_solver.
Qed.

Lemma drop_ne x y T : y <> x -> y ∈ T -> y ∈ give_back x T.
Proof.
  intros Hne. induction T as [|z T IH]; cbn [give_back]; [done|]. case_bool_decide; set_solver.
Qed.

(** *** Trust *)

Lemma trusted_le T T' pid p cb :
  (forall b, (pid, p, b) ∈ T' -> (pid, p, b) ∈ T) -> trusted T' pid p cb -> trusted T pid p cb.
Proof. intros Hle [[b Hb]|Hm]; [left; exists b; auto|by right]. Qed.

Lemma cb_ok_keep M R T M' R' T' pid p cb :
  cb_ok M R T pid p cb -> rewritten R R' ->
  (forall b, (pid, p, b) ∈ T' -> (pid, p, b) ∈ T) ->
  (trusted T pid p cb -> mapped cb -> M' !! (pid, ashmemBase cb) = M !! (pid, ashmemBase cb)) ->
  cb_ok M' R' T' pid p cb.
Proof.
  intros [Hv Hr Hl Hn Hb] HR HT HM. constructor; try done.
  - intros Hlk. destruct (Hl Hlk) as [Hroom Hmap]. split; [done|]. intros Ht. apply Hmap. by eapply trusted_le.
  - intros Ht Hm. assert (trusted T pid p cb) as Ht' by (by eapply trusted_le).
    destruct (Hb Ht' Hm) as (Hpid & r & m & H1 & H2 & H3). split; [done|]. destruct (HR r m H2) as (m' & H2' & Hlen).
    exists r, m'. rewrite HM by done. split; [done|]. split; [done|lia].
Qed.

(** One handle changes or is new: the rest stay as they are. *)
Lemma guest_ok_update g T M' R' T' pid p cb' C' F' L :
  guest_ok g T -> p <> 0 -> rewritten (regions g) R' ->
  (forall pid' p' b, (pid', p') <> (pid, p) -> p' <> 0 -> (pid', p', b) ∈ T' -> (pid', p', b) ∈ T) ->
  (forall b, (pid, p, b) ∈ T' -> hostHandle cb' = b) ->
  (forall pid' p' cb'', (pid', p') <> (pid, p) -> cbs g !! (pid', p') = Some cb'' ->
     trusted T pid' p' cb'' -> mapped cb'' ->
     M' !! (pid', ashmemBase cb'') = maps g !! (pid', ashmemBase cb'') /\
     (pid' = pid -> trusted T' pid p cb' -> mapped cb' -> ashmemBase cb'' <> ashmemBase cb')) ->
  cb_ok M' R' T' pid p cb' ->
  C' = <[(pid, p) := cb']> (cbs g) ->
  guest_ok (mkGuest C' (devices g) F' M' R' L) T'.
Proof.
  intros Hg H0 HR HT Hself Hoth Hok ->.
  assert (HT' : forall pid' p' cb'' , (pid', p') <> (pid, p) -> cbs g !! (pid', p') = Some cb'' ->
    trusted T' pid' p' cb'' -> trusted T pid' p' cb'').
  { intros pid' p' cb'' Hne Hc. apply trusted_le. intros b Hb.
    destruct (gk_cb g T Hg _ _ _ Hc) as [Hp' _]. by apply HT. }
  constructor; cbn.
  - intros pid' p' c Hc. destruct (decide ((pid', p') = (pid, p))) as [[= -> ->]|Hne].
    + rewrite lookup_insert_eq in Hc. by injection Hc as <-.
    + rewrite lookup_insert_ne in Hc by done. destruct (gk_cb g T Hg _ _ _ Hc) as [Hp' Hc'].
      split; [done|]. eapply cb_ok_keep; [done|done| |].
      * intros b. by apply HT.
      * intros Ht Hm. by destruct (Hoth _ _ _ Hne Hc Ht Hm).
  - intros pid' p' b Hb Hp'. destruct (decide ((pid', p') = (pid, p))) as [[= -> ->]|Hne].
    + exists cb'. rewrite lookup_insert_eq. auto.
    + rewrite lookup_insert_ne by done. apply (gk_token g T Hg); [by apply HT|done].
  - intros pid' p1 p2 c1 c2 H1 H2 Hne Ht1 Ht2 Hm1 Hm2.
    destruct (decide ((pid', p1) = (pid, p))) as [He1|Hne1]; [injection He1 as -> ->|].
    + rewrite lookup_insert_eq in H1. injection H1 as <-. rewrite lookup_insert_ne in H2 by congruence.
      apply not_eq_sym. destruct (Hoth pid p2 c2) as [_ Hd]; try done; [congruence| |by apply Hd].
      eapply HT'; [congruence|done..].
    + rewrite lookup_insert_ne in H1 by done.
      destruct (decide ((pid', p2) = (pid, p))) as [He2|Hne2]; [injection He2 as -> ->|].
      * rewrite lookup_insert_eq in H2. injection H2 as <-.
        destruct (Hoth pid p1 c1) as [_ Hd]; try done; [by eapply HT'|by apply Hd].
      * rewrite lookup_insert_ne in H2 by done.
        eapply (gk_apart g T Hg pid' p1 p2); try done; by eapply HT'.
  - intros pid' d l Hd. destruct (gk_list g T Hg _ _ _ Hd) as [Hnd Hin]. split; [done|].
    intros p' Hp'. destruct (decide ((pid', p') = (pid, p))) as [->|Hne];
      [rewrite lookup_insert_eq; by eexists|rewrite lookup_insert_ne by done; by apply Hin].
  - apply (gk_lists g T Hg).
Qed.

(** One handle goes, with its references. *)
Lemma guest_ok_delete g T M' T' pid p D' F' L :
  guest_ok g T -> (forall b, (pid, p, b) ∉ T') ->
  (forall pid' p' b, (pid', p', b) ∈ T' -> (pid', p', b) ∈ T) ->
  (forall pid' p' cb'', (pid', p') <> (pid, p) -> cbs g !! (pid', p') = Some cb'' ->
     trusted T pid' p' cb'' -> mapped cb'' ->
     M' !! (pid', ashmemBase cb'') = maps g !! (pid', ashmemBase cb'')) ->
  (forall pid' d l', D' !! (pid', d) = Some l' -> exists l, devices g !! (pid', d) = Some l /\ NoDup l' /\
     forall q, q ∈ l' -> q ∈ l /\ (pid', q) <> (pid, p)) ->
  guest_ok (mkGuest (delete (pid, p) (cbs g)) D' F' M' (regions g) L) T'.
Proof.
  intros Hg Hnone HT HM HD.
  assert (Hin : forall pid' p' c, delete (pid, p) (cbs g) !! (pid', p') = Some c ->
    (pid', p') <> (pid, p) /\ cbs g !! (pid', p') = Some c).
  { intros pid' p' c Hc. apply lookup_delete_Some in Hc as [Hne Hc]. split; [congruence|done]. }
  assert (HT' : forall pid' p' c, trusted T' pid' p' c -> trusted T pid' p' c).
  { intros pid' p' c. apply trusted_le. intros b. apply HT. }
  constructor; cbn.
  - intros pid' p' c Hc. apply Hin in Hc as [Hne Hc]. destruct (gk_cb g T Hg _ _ _ Hc) as [Hp' Hc'].
    split; [done|]. eapply cb_ok_keep; [done|apply rewritten_refl|auto|].
    intros Ht Hm. by eapply HM.
  - intros pid' p' b Hb Hp'. destruct (decide ((pid', p') = (pid, p))) as [[= -> ->]|Hne]; [by destruct (Hnone b)|].
    rewrite lookup_delete_ne by congruence. apply (gk_token g T Hg); auto.
  - intros pid' p1 p2 c1 c2 H1 H2 Hne Ht1 Ht2. apply Hin in H1 as [_ H1], H2 as [_ H2].
    apply (gk_apart g T Hg pid' p1 p2); auto.
  - intros pid' d l' Hd. destruct (HD _ _ _ Hd) as (l & Hl & Hnd & Hq). split; [done|].
    intros q Hq'. destruct (Hq q Hq') as [Hql Hne]. rewrite lookup_delete_ne by congruence.
    by apply (gk_list g T Hg _ _ _ Hl).
  - intros pid' d d' l l' q Hd Hd' Hq Hq'. destruct (HD _ _ _ Hd) as (k & Hk & _ & H1).
    destruct (HD _ _ _ Hd') as (k' & Hk' & _ & H2). destruct (H1 q Hq), (H2 q Hq').
    by eapply (gk_lists g T Hg).
Qed.

(** The lists of the devices change, and no handle does. *)
Lemma guest_ok_devices C D F M R L T D' F' L' :
  guest_ok (mkGuest C D F M R L) T ->
  (forall pid d l, D' !! (pid, d) = Some l -> NoDup l /\ forall p, p ∈ l -> is_Some (C !! (pid, p))) ->
  (forall pid d d' l l' p, D' !! (pid, d) = Some l -> D' !! (pid, d') = Some l' -> p ∈ l -> p ∈ l' -> d = d') ->
  guest_ok (mkGuest C D' F' M R L') T.
Proof. intros [H1 H2 H3 H4 H5] Hl Hd. constructor; cbn in *; assumption. Qed.
End state.
