(* ===== verification/GrallocHistory.v ===== *)
(** * Histories of graphics memory

    Any number of processes allocate, pass on, register, lock, draw into and free buffers
    (Gralloc.v).  [gralloc_history]: whatever the order, and whatever system calls fail,
    a framework that keeps to its contract makes no process touch memory it does not have,
    and the host's counts are the references that are held. *)

From S2P Require Import Prelude Utils Gl RenderThread Checksum GuestStream RenderControlEnc Decoder Remote GuestCode Gralloc GrallocState.

(** ** What the operations do *)

Section operations.
Context {S : Type} {host : rc_call -> S -> list bytes * S} `{!RenderHost host} `{HA : Android, HK : Kernel}.
Implicit Types (g : Guest) (s : S) (T : list token).

Definition ok T g s : Prop := guest_ok g T /\ refs_ok s T.

Lemma refs_same s s' T : (forall b, host_refs s' b = host_refs s b) -> refs_ok s T -> refs_ok s' T.
Proof. intros Hs Hr b Hb. rewrite Hs. by apply Hr. Qed.

(** A reference more, or less, where there is a color buffer. *)
Lemma wp_open_buffer h x T (Q : unit -> Guest -> S -> Prop) g s :
  refs_ok s T -> host_ready s -> (h <> 0 -> 0 < count h T) -> x.2 = h ->
  (forall s', refs_ok s' (x :: T) -> Q tt g s') ->
  wp host (if negb (h =? 0) then rc (OpenColorBuffer2 h) ;; mret tt else mret tt) Q g s.
Proof.
  intros Hr Hrdy Hc Hx HQ. destruct (Z.eqb_spec h 0) as [H0|H0]; cbn [negb].
  - apply wp_ret, HQ. intros b Hb. rewrite count_cons, Hx, H0. replace (0 =? b) with false by lia. by apply Hr.
  - apply wp_bind, wp_rc, wp_ret, HQ. intros b Hb.
    rewrite host_opens by (rewrite ?Hr; auto). rewrite count_cons, Hx, Hr, (Z.eqb_sym b) by done. lia.
Qed.

Lemma refs_closed h x T s :
  refs_ok s T -> x ∈ T -> x.2 = h -> h <> 0 ->
  refs_ok (host (CloseColorBuffer h) s).2 (give_back x T).
Proof.
  intros Hr Hx Hh H0 b Hb. destruct x as [[pid p] b']. cbn in Hh. subst b'.
  rewrite host_closes by (rewrite Hr by done; by eapply count_in).
  by rewrite count_drop, Hr by done.
Qed.

Lemma refs_none x T s : refs_ok s T -> x ∈ T -> x.2 = 0 -> refs_ok s (give_back x T).
Proof. intros Hr Hx H0 b Hb. rewrite count_drop, H0, Hr by done. replace (b =? 0) with false by lia. lia. Qed.

Lemma wp_map_buffer pid p cb (Q : Z -> Guest -> S -> Prop) g s :
  cbs g !! (pid, p) = Some cb ->
  (forall z l, z < 0 -> Q z (with_errnos l g) s) ->
  (forall a r m l, 0 < ashmemSize cb -> regions g !! r = Some m -> ashmemSize cb <= zlen m ->
     a ∉ addresses pid g -> 0 < a ->
     Q 0 (with_cbs (<[(pid, p) := set_mapping a pid (mappedPid cb) cb]> (cbs g))
           (with_maps (<[(pid, a) := (r, ashmemSize cb)]> (maps g)) (with_errnos l g))) s) ->
  wp host (map_buffer pid p) Q g s.
Proof.
  intros Hp Hbad Hgood. apply wp_bind. eapply wp_get_cb; [done|].
  destruct (Z.leb_spec (ashmemSize cb) 0) as [Hz|Hz]; [|destruct (Z.ltb_spec (fd cb) 0)]; cbn [orb].
  - rewrite orb_true_r. apply wp_ret. destruct g. by apply (Hbad (- EINVAL)).
  - apply wp_ret. destruct g. by apply (Hbad (- EINVAL)).
  - apply wp_bind, wp_mmap; [done| |].
    + intros z l Hzl. replace (z <? 0) with true by lia. by apply wp_ret, Hbad.
    + intros a r m l Hr Hm Ha Ha0. replace (a <? 0) with false by lia.
      apply wp_bind, wp_setg, wp_ret. by eapply Hgood.
Qed.

Lemma backed_new pid a r m size M R :
  R !! r = Some m -> size <= zlen m -> backed pid (<[(pid, a) := (r, size)]> M) R a size.
Proof. intros Hr Hm. exists r, m. by rewrite lookup_insert_eq. Qed.

(** The addresses of the others. *)
Lemma others_mapped g T pid a pid' p' cb :
  guest_ok g T -> a ∉ addresses pid g -> cbs g !! (pid', p') = Some cb ->
  trusted T pid' p' cb -> mapped cb -> (pid', ashmemBase cb) <> (pid, a).
Proof.
  intros Hg Ha Hc Ht Hm [= -> He]. destruct (gk_cb g T Hg _ _ _ Hc) as [_ Hok].
  destruct (ok_backed _ _ _ _ _ _ Hok Ht Hm) as (_ & r & m & Hmap & _).
  destruct (addresses_free pid a g Ha) as (_ & _ & Hn). congruence.
Qed.

Lemma trusted_token T pid p cb b : (pid, p, b) ∈ T -> trusted T pid p cb.
Proof. left. by exists b. Qed.

Lemma guest_ok_errnos l g T : guest_ok g T -> guest_ok (with_errnos l g) T.
Proof. intros [H1 H2 H3 H4 H5]. by constructor. Qed.

(** A leaked reference. *)
Lemma guest_ok_leak g T pid b : guest_ok g T -> guest_ok g ((pid, 0, b) :: T).
Proof.
  intros Hg. assert (Ht : forall pid' p' cb, p' <> 0 -> trusted ((pid, 0, b) :: T) pid' p' cb -> trusted T pid' p' cb).
  { intros pid' p' cb Hp'. apply trusted_le. intros b'. set_solver. }
  constructor; [..|apply (gk_list g T Hg)|apply (gk_lists g T Hg)].
  - intros pid' p' cb Hc. destruct (gk_cb g T Hg _ _ _ Hc) as [Hp' Hc']. split; [done|].
    eapply cb_ok_keep; [done|apply rewritten_refl| |done]. intros b'. set_solver.
  - intros pid' p' b' Hin Hp'. apply (gk_token g T Hg); [set_solver|done].
  - intros pid' p1 p2 c1 c2 H1 H2 Hne Ht1 Ht2. destruct (gk_cb g T Hg _ _ _ H1), (gk_cb g T Hg _ _ _ H2).
    apply (gk_apart g T Hg pid' p1 p2); auto.
Qed.

(** A reference of a handle that has its mapping, or has none to have. *)
Lemma guest_ok_token g T pid p cb :
  guest_ok g T -> cbs g !! (pid, p) = Some cb -> trusted T pid p cb \/ ashmemSize cb <= 0 ->
  guest_ok g ((pid, p, hostHandle cb) :: T).
Proof.
  intros Hg Hp Hor. destruct (gk_cb g T Hg _ _ _ Hp) as [p0 [Hv Hreg Hroom Hnone Hb]].
  assert (Ht' : mapped cb -> trusted T pid p cb) by (intros Hm; destruct Hor; [done|by destruct Hm; auto]).
  replace g with (mkGuest (cbs g) (devices g) (fds g) (maps g) (regions g) (errnos g)) by (by destruct g).
  apply (guest_ok_update g T) with (pid := pid) (p := p) (cb' := cb); try done.
  - apply rewritten_refl.
  - intros pid' p' b Hne _. set_solver.
  - intros b Hin. apply elem_of_cons in Hin as [[= ->]|Hin]; [done|].
    destruct (gk_token g T Hg _ _ _ Hin p0) as (c & Hc' & <-). congruence.
  - intros pid' p' c Hne Hc' Ht Hmp. split; [done|]. intros -> _ Hmp'.
    apply (gk_apart g T Hg pid p' p); auto. congruence.
  - constructor; try done.
    + intros Hl. destruct (Hroom Hl) as [Hroomy Hx]. split; [done|]. intros _.
      destruct Hor as [Ht|Hs]; [auto|destruct Hroomy; lia].
    + intros _ Hx. apply Hb; auto.
  - by rewrite insert_id.
Qed.

Lemma register_ok pid hc p cb g s T :
  ok T g s -> host_ready s -> cbs g !! (pid, p) = Some cb -> (hostHandle cb <> 0 -> 0 < count (hostHandle cb) T) ->
  wp host (gralloc_register_buffer pid hc None p)
    (fun r => ok (if r =? 0 then (pid, p, hostHandle cb) :: T
                  else if 0 <? r then (pid, 0, hostHandle cb) :: T else T)) g s.
Proof.
  intros [Hg Hr] Hrdy Hp Hc. destruct (gk_cb g T Hg _ _ _ Hp) as [p0 [Hv Hreg Hroom Hnone Hb]].
  apply wp_bind. eapply wp_validate; [done..|]. cbn [negb]. apply wp_bind. eapply wp_get_cb; [done|].
  destruct (negb (hostHandle cb =? 0) && negb hc); [by apply wp_ret|].
  apply wp_bind, (wp_open_buffer _ (pid, p, hostHandle cb) T); [done..|]. intros s' Hr'.
  destruct (Z.ltb_spec 0 (ashmemSize cb)) as [Hs|Hs]; destruct (Z.eqb_spec (mappedPid cb) pid) as [Hm|Hm];
    cbn [andb negb];
    try (apply wp_ret; split; [eapply guest_ok_token; [done..|]; (by left; right) || by right|done]).
  apply wp_bind. eapply wp_map_buffer; [done| |].
  - intros z l Hz. replace (z =? 0) with false by lia. apply wp_ret.
    replace (- z =? 0) with false by lia. replace (0 <? - z) with true by lia.
    split; [by apply guest_ok_leak, guest_ok_errnos|]. intros b Hb'. specialize (Hr' b Hb').
    by rewrite count_cons in *.
  - intros a r m l _ Hrm Hlen Ha Ha0. cbn [negb Z.eqb]. apply wp_bind. eapply wp_get_cb; [apply lookup_insert_eq|].
    apply wp_bind, wp_setg, wp_ret. cbn [Z.eqb]. split; [|done].
    apply (guest_ok_update g T) with (pid := pid) (p := p) (cb' := set_mapping a pid pid cb); try done.
    + apply rewritten_refl.
    + intros pid' p' b Hne _. set_solver.
    + intros b Hin. apply elem_of_cons in Hin as [[= ->]|Hin]; [done|].
      destruct (gk_token g T Hg _ _ _ Hin p0) as (c & Hc' & <-). by replace c with cb by congruence.
    + intros pid' p' c Hne Hc' Ht Hmp.
      pose proof (others_mapped g T pid a pid' p' c Hg Ha Hc' Ht Hmp) as Hne'.
      split; [by apply lookup_insert_ne|]. intros -> _ _. cbn. congruence.
    + constructor; cbn; try done.
      * intros Hl. destruct (Hroom Hl) as [? Hx]. split; [done|]. intros _. unfold mapped. cbn. lia.
      * lia.
      * intros _ _. split; [done|]. by eapply backed_new.
    + cbn. by rewrite insert_insert_eq.
Qed.

(** A handle of this process with a reference: its references and its color buffer. *)
Lemma token_handle g T pid p b cb :
  guest_ok g T -> (pid, p, b) ∈ T -> cbs g !! (pid, p) = Some cb -> b = hostHandle cb.
Proof.
  intros Hg Hin Hp. destruct (gk_cb g T Hg _ _ _ Hp) as [p0 _].
  destruct (gk_token g T Hg _ _ _ Hin p0) as (c & Hc & <-). congruence.
Qed.

Lemma drop_others pid p b T pid' p' b' : (pid', p', b') ∈ give_back (pid, p, b) T -> (pid', p', b') ∈ T.
Proof. apply drop_in. Qed.

(** References go; the handles stay. *)
Lemma guest_ok_drop x g T : guest_ok g T -> guest_ok g (give_back x T).
Proof.
  intros Hg. assert (Hle : forall pid p cb, trusted (give_back x T) pid p cb -> trusted T pid p cb).
  { intros pid p cb. apply trusted_le. intros b. apply drop_in. }
  constructor; [..|apply (gk_list g T Hg)|apply (gk_lists g T Hg)].
  - intros pid p cb Hc. destruct (gk_cb g T Hg _ _ _ Hc) as [Hp Hc']. split; [done|].
    eapply cb_ok_keep; [done|apply rewritten_refl| |done]. intros b. apply drop_in.
  - intros pid p b Hin. apply (gk_token g T Hg). by eapply drop_in.
  - intros pid p1 p2 c1 c2 H1 H2 Hne Ht1 Ht2. apply (gk_apart g T Hg pid p1 p2); auto.
Qed.

Lemma unregister_ok pid hc p cb g s T :
  ok T g s -> cbs g !! (pid, p) = Some cb -> (pid, p, hostHandle cb) ∈ T -> ~ locked cb ->
  wp host (gralloc_unregister_buffer pid hc None p)
    (fun r => ok (if r =? - EIO then T else give_back (pid, p, hostHandle cb) T)) g s.
Proof.
  intros [Hg Hr] Hp Hin Hl. destruct (gk_cb g T Hg _ _ _ Hp) as [p0 Hok].
  pose proof Hok as [Hv Hreg Hroom Hnone Hb].
  apply wp_bind. eapply wp_validate; [done..|]. cbn [negb]. apply wp_bind. eapply wp_get_cb; [done|].
  destruct (Z.eqb_spec (hostHandle cb) 0) as [Hz|Hz]; destruct hc; cbn [andb negb]; try (by apply wp_ret);
    apply wp_bind; [apply wp_ret|apply wp_ret|apply wp_bind, wp_rc, wp_ret].
  all: match goal with |- wp _ _ _ _ ?s' => assert (Hr' : refs_ok s' (give_back (pid, p, hostHandle cb) T)) end;
    [first [by apply refs_none|by apply refs_closed]|].
  all: pose proof (guest_ok_drop (pid, p, hostHandle cb) g T Hg) as Hg'.
  all: destruct (Z.ltb_spec 0 (ashmemSize cb)) as [Hs|Hs]; destruct (Z.eqb_spec (mappedPid cb) pid) as [Hm|Hm];
    cbn [andb]; try (by apply wp_ret); apply wp_bind, wp_munmap.
  all: try (intros z l Hzl; replace (z =? 0) with false by lia; apply wp_ret; split; [by apply guest_ok_errnos|done]).
  all: intros l; cbn [negb Z.eqb]; apply wp_bind, wp_setg, wp_ret; (split; [|done]);
    apply (guest_ok_update g T) with (pid := pid) (p := p) (cb' := set_mapping 0 (ashmemBasePid cb) 0 cb); try done.
  all: try apply rewritten_refl.
  all: try (intros pid' p' b _ _; apply drop_in).
  all: try (intros b Hb'; apply drop_in in Hb'; symmetry; by eapply (token_handle g T pid p b cb)).
  all: try (intros pid' p' c Hne Hc' Ht Hmp; split; [|by intros _ _ []]; apply lookup_delete_ne; intros [= <- He];
    destruct (decide (mapped cb)) as [Hmc|Hmc];
      [by eapply (gk_apart g T Hg pid p p'); eauto using trusted_token; congruence
      |unfold mapped in *; lia]).
  all: constructor; cbn; try done; unfold mapped; cbn; lia.
Qed.

Lemma unlink_spec p l : NoDup l -> NoDup (unlink p l) /\ forall q, q ∈ unlink p l <-> q ∈ l /\ q <> p.
Proof.
  induction 1 as [|q l Hq Hnd [IH1 IH2]]; cbn [unlink]; [split; [constructor|set_solver]|].
  destruct (Z.eqb_spec q p) as [->|Hne].
  - split; [done|]. intros q. split; [intros Hin|intros [Hin Hqp]; set_solver].
    split; [by right|]. by intros ->.
  - split; [constructor; [|done]; rewrite IH2; set_solver|]. intros q'. rewrite !elem_of_cons, IH2. naive_solver.
Qed.

(** The end of a handle's memory, done or not. *)
Lemma wp_release pid cb (Q : unit -> Guest -> S -> Prop) g s :
  (forall F M L, M = maps g \/ (M = delete (pid, ashmemBase cb) (maps g) /\ mapped cb) ->
     Q tt (mkGuest (cbs g) (devices g) F M (regions g) L) s) ->
  wp host (if 0 <? fd cb then
             (if (0 <? ashmemSize cb) && negb (ashmemBase cb =? 0)
              then munmap pid (ashmemBase cb) ;; mret tt else mret tt) ;; close pid (fd cb)
           else mret tt) Q g s.
Proof.
  intros HQ. destruct (0 <? fd cb); [|apply wp_ret; destruct g; apply HQ; by left].
  apply wp_bind. destruct (Z.eqb_spec (ashmemBase cb) 0) as [Hb|Hb]; [|destruct (Z.ltb_spec 0 (ashmemSize cb))];
    rewrite ?andb_false_r; cbn [andb negb]; [apply wp_ret, wp_setg, HQ; by left| |apply wp_ret, wp_setg, HQ; by left].
  apply wp_bind, wp_munmap; [intros z l _|intros l]; apply wp_ret, wp_setg, HQ; [by left|by right].
Qed.

Lemma filter_drop (P : token -> Prop) `{forall x, Decision (P x)} x T :
  filter P (give_back x T) = if decide (P x) then give_back x (filter P T) else filter P T.
Proof.
  induction T as [|y T IH]; [by destruct (decide _)|]. cbn [give_back]. rewrite filter_cons.
  case_bool_decide as Hy; [subst y; destruct (decide (P x)) as [|]; [|done]; cbn [give_back]; by rewrite bool_decide_true|].
  rewrite filter_cons, IH. destruct (decide (P y)), (decide (P x)); try done. cbn [give_back]. by rewrite bool_decide_false.
Qed.

Definition stands (pid p : Z) (x : token) : Prop := x.1 = (pid, p).

#[local] Instance stands_dec pid p x : Decision (stands pid p x).
Proof. unfold stands. apply _. Defined.

(** The handle stands for one reference. *)
Definition sole (T : list token) (pid p b : Z) : Prop := filter (stands pid p) T = [(pid, p, b)].

Lemma sole_in T pid p b : sole T pid p b -> (pid, p, b) ∈ T.
Proof.
  intros Hs. assert (Hf : (pid, p, b) ∈ [(pid, p, b)]) by set_solver.
  unfold sole in Hs. rewrite <- Hs in Hf. by apply list_elem_of_filter in Hf as [_ Hf].
Qed.

Lemma sole_last T pid p b b' : sole T pid p b -> (pid, p, b') ∉ give_back (pid, p, b) T.
Proof.
  intros Hs Hin. assert (Hf : (pid, p, b') ∈ filter (stands pid p) (give_back (pid, p, b) T))
    by (by apply list_elem_of_filter).
  rewrite filter_drop, decide_True, Hs in Hf by done.
  cbn [give_back] in Hf.
  rewrite bool_decide_true in Hf by done. by apply elem_of_nil in Hf.
Qed.

Lemma sole_drop T pid p q b b' : q <> p -> sole T pid q b -> sole (give_back (pid, p, b') T) pid q b.
Proof. intros Hne Hs. unfold sole. rewrite filter_drop, decide_False; [done|unfold stands; cbn; congruence]. Qed.

Lemma free_ok pid hc dev p cb l g s T :
  ok T g s -> cbs g !! (pid, p) = Some cb -> devices g !! (pid, dev) = Some l -> p ∈ l ->
  sole T pid p (hostHandle cb) ->
  wp host (gralloc_free pid hc dev p)
    (fun r g' s' => ok (if r =? 0 then give_back (pid, p, hostHandle cb) T else T) g' s' /\
       (hc = true -> r = 0 /\ cbs g' = delete (pid, p) (cbs g) /\
                     devices g' = <[(pid, dev) := unlink p l]> (devices g))) g s.
Proof.
  intros [Hg Hr] Hp Hd Hpl Hs1. pose proof (sole_in _ _ _ _ Hs1) as Hin.
  assert (Hsole : forall b', (pid, p, b') ∉ give_back (pid, p, hostHandle cb) T) by (intros b'; by apply sole_last).
  destruct (gk_cb g T Hg _ _ _ Hp) as [p0 [Hv _ _ _ _]].
  destruct (gk_list g T Hg _ _ _ Hd) as [Hnd Hl]. destruct (unlink_spec p l Hnd) as [Hnd' Hul].
  apply wp_bind. eapply wp_validate; [done..|]. cbn [negb]. apply wp_bind. eapply wp_get_cb; [done|].
  assert (Hend : forall s', refs_ok s' (give_back (pid, p, hostHandle cb) T) ->
    wp host ((if 0 <? fd cb then
             (if (0 <? ashmemSize cb) && negb (ashmemBase cb =? 0)
              then munmap pid (ashmemBase cb) ;; mret tt else mret tt) ;; close pid (fd cb)
           else mret tt) ;;
      list ← getg (fun g => devices g !! (pid, dev));
      match list with
      | None => fault
      | Some l =>
          setg (fun g => with_devices (<[(pid, dev) := unlink p l]> (devices g)) g) ;;
          del_cb pid p ;; mret 0
      end)
    (fun r g' s' => ok (if r =? 0 then give_back (pid, p, hostHandle cb) T else T) g' s' /\
       (hc = true -> r = 0 /\ cbs g' = delete (pid, p) (cbs g) /\
                     devices g' = <[(pid, dev) := unlink p l]> (devices g))) g s').
  { intros s' Hr'. apply wp_bind, wp_release. intros F M L HM. apply wp_bind, wp_getg. cbn [devices]. rewrite Hd.
    apply wp_bind, wp_setg, wp_bind, wp_setg, wp_ret. split; [|done]. split; [|done]. cbn.
    apply (guest_ok_delete g T); try done.
    - intros pid' p' b. apply drop_in.
    - intros pid' p' c Hne Hc Ht Hm. destruct HM as [->|[-> Hmc]]; [done|]. apply lookup_delete_ne.
      intros [= <- He]. eapply (gk_apart g T Hg pid p p'); eauto using trusted_token. congruence.
    - intros pid' d l' Hl'. cbn in Hl'. destruct (decide ((pid', d) = (pid, dev))) as [[= -> ->]|Hne].
      + rewrite lookup_insert_eq in Hl'. injection Hl' as <-. exists l. split; [done|]. split; [done|].
        intros q Hq. apply Hul in Hq as [Hq Hqp]. split; [done|congruence].
      + rewrite lookup_insert_ne in Hl' by done. exists l'. split; [done|].
        split; [by apply (gk_list g T Hg _ _ _ Hl')|]. intros q Hq. split; [done|]. intros [= -> ->].
        assert (d = dev) by (by eapply (gk_lists g T Hg)). congruence. }
  destruct (Z.eqb_spec (hostHandle cb) 0) as [Hz|Hz]; cbn [negb].
  - apply wp_bind, wp_ret. cbn [Z.eqb negb]. apply Hend. by apply refs_none.
  - destruct hc; cbn [negb].
    + apply wp_bind, wp_bind, wp_rc, wp_ret. cbn [Z.eqb negb]. apply Hend. by apply refs_closed.
    + apply wp_bind, wp_ret. by apply wp_ret.
Qed.

(** The tokens of a list of handles. *)
Definition tokens (pid : Z) (l : list Z) g : list token :=
  (fun p => (pid, p, default 0 (hostHandle <$> cbs g !! (pid, p)))) <$> l.

Definition drop_all (l T : list token) : list token := foldl (fun T x => give_back x T) T l.

Lemma free_all_ok pid dev n : forall l g s T,
  (length l <= n)%nat -> ok T g s -> devices g !! (pid, dev) = Some l ->
  (forall p, p ∈ l -> exists cb, cbs g !! (pid, p) = Some cb /\ sole T pid p (hostHandle cb)) ->
  wp host (free_all pid true n dev)
    (fun _ g' s' => ok (drop_all (tokens pid l g) T) g' s' /\ devices g' !! (pid, dev) = Some []) g s.
Proof.
  induction n as [|n IH]; intros [|p l] g s T Hn Hok Hd Hl; cbn [length] in Hn; try lia;
    cbn [free_all]; apply wp_bind, wp_getg; rewrite Hd; [by apply wp_ret..|].
  destruct (Hl p) as (cb & Hp & Hs); [set_solver|]. apply wp_bind. eapply wp_mono.
  { apply (free_ok pid true dev p cb (p :: l) g s T); try done. set_solver. }
  intros r g' s' [Hok' Hrest]. destruct (Hrest eq_refl) as (-> & Hc & Hdev). cbn [Z.eqb unlink] in *.
  rewrite Z.eqb_refl in Hdev. destruct (gk_list g T (proj1 Hok) _ _ _ Hd) as [Hnd _].
  apply NoDup_cons in Hnd as [Hpl _].
  assert (Hsame : forall q, q ∈ l -> cbs g' !! (pid, q) = cbs g !! (pid, q)).
  { intros q Hq. rewrite Hc. apply lookup_delete_ne. intros [= ->]. done. }
  assert (Htok : tokens pid l g' = tokens pid l g).
  { apply list_fmap_ext. intros i q Hq. rewrite Hsame; [done|]. by eapply list_elem_of_lookup_2. }
  eapply wp_mono.
  { apply (IH l); [lia|done|by rewrite Hdev, lookup_insert_eq|]. intros q Hq.
    destruct (Hl q) as (c & Hcq & Hsq); [set_solver|]. exists c. rewrite Hsame by done.
    split; [done|]. apply sole_drop; [|done]. by intros ->. }
  intros _ g2 s2 [Hok2 Hd2]. split; [|done]. rewrite Htok in Hok2. cbn. by rewrite Hp.
Qed.

(** *** Drawing *)

Lemma pixel_bits f t : exists k, 0 <= k <= 4 /\ glUtilsPixelBitSize f t = 8 * k.
Proof.
  unfold glUtilsPixelBitSize. repeat case_match; try lia;
    first [by exists 0|by exists 1|by exists 2|by exists 3|by exists 4].
Qed.

Lemma bytes_per_pixel_spec cb :
  0 <= bytes_per_pixel cb <= 4 /\ glUtilsPixelBitSize (glFormat cb) (glType cb) = 8 * bytes_per_pixel cb.
Proof.
  unfold bytes_per_pixel. destruct (pixel_bits (glFormat cb) (glType cb)) as (k & Hk & ->).
  rewrite Z.shiftr_div_pow2 by lia. replace (8 * k) with (k * 2 ^ 3) by lia. rewrite Z.div_mul by lia. lia.
Qed.

Lemma size_pixels_exact cb : roomy cb -> 0 <= width cb -> 0 <= height cb ->
  size_pixels (width cb) (height cb) (glFormat cb) (glType cb) = bytes_per_pixel cb * width cb * height cb.
Proof.
  intros (Hroom & Hw & Hs) H0 H1. destruct (bytes_per_pixel_spec cb) as [Hk Hbits].
  unfold size_pixels. rewrite Hbits. set (k := bytes_per_pixel cb) in *.
  assert (0 <= k * width cb) by nia. assert (0 <= k * width cb * height cb) by nia.
  assert (k * width cb * height cb < 2 ^ 31) by (destruct (canBePosted cb); lia).
  rewrite (wraps_id 32 (8 * k * width cb)) by (unfold in_s; lia).
  rewrite Z.shiftr_div_pow2 by lia. replace (8 * k * width cb) with (k * width cb * 2 ^ 3) by lia.
  rewrite Z.div_mul by lia. rewrite wraps_id by (unfold in_s; lia). apply wrapu_id. unfold in_u. lia.
Qed.

(** The rows of a rectangle of an image. *)
Fixpoint rows (y : nat) (m : list Z) (src dst_line_len src_line_len : Z) : list Z :=
  match y with
  | O => []
  | Datatypes.S y => ztake dst_line_len (zdrop src m) ++ rows y m (src + src_line_len) dst_line_len src_line_len
  end.

Lemma wp_copy_rows pid base dl sl size (y : nat) : forall src (Q : list Z -> Guest -> S -> Prop) g s,
  (0 < dl -> (0 < y)%nat -> backed pid (maps g) (regions g) base size /\ 0 <= sl /\ 0 <= src /\
     src + (Z.of_nat y - 1) * sl + dl <= size) ->
  Q (rows y (mapped_bytes pid g base) src dl sl) g s -> wp host (copy_rows pid y base src dl sl) Q g s.
Proof.
  induction y as [|y IH]; intros src Q g s Hb HQ; cbn [copy_rows rows] in *; [by apply wp_ret|].
  apply wp_bind, (wp_load _ _ _ _ _ size).
  { intros Hd. destruct (Hb Hd) as (? & ? & ? & ?); [lia|]. split_and!; [done|done|nia]. }
  apply wp_bind, IH; [|by apply wp_ret]. intros Hd Hy. destruct (Hb Hd) as (? & ? & ? & ?); [lia|].
  split_and!; [done|done|lia|]. rewrite Nat2Z.inj_succ in *. nia.
Qed.

(** The locked region of a handle is another. *)
Lemma guest_ok_locked g T R' L pid p cb l t w h :
  guest_ok g T -> cbs g !! (pid, p) = Some cb -> rewritten (regions g) R' ->
  in_image l t w h cb -> (0 < w -> 0 < h -> roomy cb /\ (trusted T pid p cb -> mapped cb)) ->
  guest_ok (mkGuest (<[(pid, p) := set_locked l t w h cb]> (cbs g)) (devices g) (fds g) (maps g) R' L) T.
Proof.
  intros Hg Hp HR Him Hroom'. destruct (gk_cb g T Hg _ _ _ Hp) as [p0 Hok].
  assert (Hself : trusted T pid p (set_locked l t w h cb) -> trusted T pid p cb) by done.
  eapply (guest_ok_update g T); try done.
  - intros b Hin. symmetry. by eapply (token_handle g T pid p b cb).
  - intros pid' p' c Hne Hc Ht Hm. split; [done|]. intros -> Ht' Hm'.
    apply (gk_apart g T Hg pid p' p c cb); try done; first [by apply Hself|congruence].
  - destruct Hok as [Hv Hreg Hroom Hnone Hb]. constructor; try done.
    + intros [Hw Hh]. destruct (Hroom' Hw Hh). by split.
    + intros Ht Hm. destruct (Hb (Hself Ht) Hm) as (Hpid & r & m & H1 & H2 & H3).
      destruct (HR r m H2) as (m' & H2' & Hlen). split; [done|]. exists r, m'. cbn. split; [done|]. split; [done|lia].
Qed.

Lemma guest_ok_rewritten g T R' : guest_ok g T -> rewritten (regions g) R' -> guest_ok (with_regions R' g) T.
Proof.
  intros Hg HR. constructor; cbn; try apply Hg. intros pid p cb Hp.
  destruct (gk_cb g T Hg _ _ _ Hp) as [p0 Hok]. split; [done|]. by eapply cb_ok_keep.
Qed.

Lemma with_regions_id g : with_regions (regions g) g = g.
Proof. by destruct g. Qed.

Lemma lock_ok pid hc p u l t w h cb b g s T :
  ok T g s -> cbs g !! (pid, p) = Some cb -> (pid, p, b) ∈ T -> in_image l t w h cb -> roomy cb ->
  wp host (gralloc_lock pid hc None p u l t w h) (fun _ => ok T) g s.
Proof.
  intros [Hg Hr] Hp Hin Him Hroomy. destruct (gk_cb g T Hg _ _ _ Hp) as [p0 Hok].
  pose proof Hok as [Hv Hreg _ _ Hb]. unfold region_of, in_image in *.
  assert (Hk : 0 <= bytes_per_pixel cb * width cb * height cb)
    by (destruct (bytes_per_pixel_spec cb); repeat apply Z.mul_nonneg_nonneg; lia).
  apply wp_bind. eapply wp_validate; [done..|]. cbn [negb]. apply wp_bind. eapply wp_get_cb; [done|].
  destruct (frameworkFormat cb =? _); [by apply wp_ret|]. destruct (usage_mismatch u (usage cb)); [by apply wp_ret|].
  destruct (Z.eqb_spec (ashmemBasePid cb) pid) as [Hpid|]; [|by apply wp_ret].
  destruct (Z.eqb_spec (ashmemBase cb) 0) as [|Hbase]; [by apply wp_ret|]. cbn [negb orb].
  assert (Hback : backed pid (maps g) (regions g) (ashmemBase cb) (ashmemSize cb))
    by (by apply Hb; [eapply trusted_token|]).
  destruct Hroomy as (Hroom & Hroomy'). apply wp_bind.
  assert (Hpost : forall Q, (forall n, Q n g s) ->
    wp host (if canBePosted cb then int_at pid (ashmemBase cb) 0 sizeof_intptr else mret 0) Q g s).
  { intros Q HQ. destruct (canBePosted cb); [|by apply wp_ret]. apply wp_bind.
    eapply wp_load; [intros _; split; [done|unfold sizeof_intptr; lia]|by apply wp_ret]. }
  apply Hpost. intros n.
  assert (Hend : forall R s', rewritten (regions g) R -> refs_ok s' T ->
    wp host ((if has u GRALLOC_USAGE_SW_WRITE_MASK || has u GRALLOC_USAGE_HW_CAMERA_WRITE
             then put_cb pid p (set_locked l t w h cb) else mret tt) ;;
       mret (0, Some (ashmemBase cb, if canBePosted cb then sizeof_intptr else 0)))
      (fun _ => ok T) (with_regions R g) s').
  { intros R s' HR Hr'. apply wp_bind. destruct (has u GRALLOC_USAGE_SW_WRITE_MASK || _).
    - apply wp_setg, wp_ret. split; [|done]. by apply (guest_ok_locked g T R).
    - apply wp_ret, wp_ret. split; [by apply guest_ok_rewritten|done]. }
  assert (Hend' := fun s' => Hend (regions g) s' (rewritten_refl _)). rewrite with_regions_id in Hend'.
  apply wp_bind. destruct (Z.eqb_spec (hostHandle cb) 0) as [Hz|Hz]; cbn [negb]; [by apply wp_ret, Hend'|].
  destruct hc; cbn [negb]; [|by apply wp_ret, wp_ret].
  destruct (host_flushes (hostHandle cb) n (if has u GRALLOC_USAGE_SW_READ_MASK then 1 else 0) s) as (z & Hzr & Hans & Hsame).
  apply wp_bind. eapply wp_rc_int; [done|done|]. apply (refs_same _ _ T Hsame) in Hr. set (s1 := (host _ s).2) in *.
  destruct (i32 z <? 0); [by apply wp_ret, wp_ret|]. destruct (has u GRALLOC_USAGE_SW_READ_MASK); [|by apply wp_ret, Hend'].
  destruct (host_reads (hostHandle cb) 0 0 (width cb) (height cb) (glFormat cb) (glType cb) s1) as (px & Hpx & Hlen & Hsame').
  apply wp_bind, wp_rc. apply (refs_same _ _ T Hsame') in Hr. set (s2 := (host _ s1).2) in *.
  rewrite Hpx. cbn [concat]. rewrite app_nil_r, all_some_fmap. rewrite size_pixels_exact in Hlen by (done || lia).
  apply wp_bind. eapply wp_store; [intros _; split; [done|rewrite Hlen; unfold sizeof_intptr; destruct (canBePosted cb); lia]|].
  intros R HR. apply wp_ret. by apply Hend.
Qed.

(** The numbers of the copy of a locked region: nothing wraps around, nothing is outside. *)
Record copy_ok (cb : cb_handle) : Prop := {
  cp_size : 0 <= i32 (i32 (lockedWidth cb * lockedHeight cb) * bytes_per_pixel cb);
  cp_dst : i32 (lockedWidth cb * bytes_per_pixel cb) = lockedWidth cb * bytes_per_pixel cb;
  cp_src : i32 (width cb * bytes_per_pixel cb) = width cb * bytes_per_pixel cb;
  cp_top : i32 (lockedTop cb * (width cb * bytes_per_pixel cb)) = lockedTop cb * (width cb * bytes_per_pixel cb);
  cp_left : i32 (lockedLeft cb * bytes_per_pixel cb) = lockedLeft cb * bytes_per_pixel cb;
  cp_end : lockedTop cb * (width cb * bytes_per_pixel cb) + lockedLeft cb * bytes_per_pixel cb +
    (lockedHeight cb - 1) * (width cb * bytes_per_pixel cb) + lockedWidth cb * bytes_per_pixel cb <=
    bytes_per_pixel cb * width cb * height cb
}.

Lemma region_copy_ok cb : region_of cb -> locked cb -> roomy cb -> copy_ok cb.
Proof.
  intros (Hl & Ht & Hw & Hh & Hlw & Hth) [Hw' Hh'] (Hroom & H8 & Hs).
  destruct (bytes_per_pixel_spec cb) as [Hk _]. set (k := bytes_per_pixel cb) in *.
  assert (Hall : k * width cb * height cb < 2 ^ 31) by (destruct (canBePosted cb); lia).
  assert (Hend : (lockedTop cb + lockedHeight cb) * (width cb * k) <= height cb * (width cb * k))
    by (apply Z.mul_le_mono_nonneg_r; nia).
  assert (Hline : (lockedLeft cb + lockedWidth cb) * k <= width cb * k) by nia.
  assert (Htop : 0 <= lockedTop cb * (width cb * k)) by nia.
  assert (Hrows : 0 <= lockedHeight cb * (width cb * k)) by nia.
  assert (0 <= lockedLeft cb * k) by nia. assert (0 <= lockedWidth cb * k) by nia.
  constructor; try (apply wraps_id; [lia|unfold in_s; fold k; lia]); fold k.
  - destruct (decide (k = 0)) as [->|Hk0]; [by rewrite Z.mul_0_r|].
    assert (Hsq : lockedWidth cb * lockedHeight cb * k <= height cb * (width cb * k)) by nia.
    assert (lockedWidth cb * lockedHeight cb <= lockedWidth cb * lockedHeight cb * k) by nia.
    rewrite (wraps_id 32 (lockedWidth cb * _)) by (unfold in_s; nia). rewrite wraps_id by (unfold in_s; nia). nia.
  - nia.
Qed.

Lemma size_pixels_empty w h f t : w = 0 \/ h = 0 -> size_pixels w h f t = 0.
Proof. unfold size_pixels. intros [-> | ->]; [by rewrite Z.mul_0_r|by rewrite Z.mul_0_r]. Qed.

Lemma unlock_ok pid hc p cb b g s T :
  ok T g s -> cbs g !! (pid, p) = Some cb -> (pid, p, b) ∈ T ->
  wp host (gralloc_unlock pid hc None p) (fun _ => ok T) g s.
Proof.
  intros [Hg Hr] Hp Hin. destruct (gk_cb g T Hg _ _ _ Hp) as [p0 Hok].
  pose proof Hok as [Hv Hreg Hroom _ Hb]. pose proof Hreg as (Hl & Ht & Hw & Hh & Hlw & Hth).
  pose proof (trusted_token T pid p cb b Hin) as Htr.
  apply wp_bind. eapply wp_validate; [done..|]. cbn [negb]. apply wp_bind. eapply wp_get_cb; [done|].
  assert (Hend : forall s', refs_ok s' T ->
    wp host (put_cb pid p (set_locked (lockedLeft cb) (lockedTop cb) 0 0 cb) ;; mret 0) (fun _ => ok T) g s').
  { intros s' Hr'. apply wp_bind, wp_setg, wp_ret. split; [|done].
    apply (guest_ok_locked g T (regions g)); try done; [apply rewritten_refl|unfold in_image; lia]. }
  apply wp_bind. destruct (Z.eqb_spec (hostHandle cb) 0) as [Hz|Hz]; cbn [negb]; [by apply wp_ret, Hend|].
  destruct hc; cbn [negb]; [|by apply wp_ret, wp_ret].
  assert (Hback : locked cb -> roomy cb /\ backed pid (maps g) (regions g) (ashmemBase cb) (ashmemSize cb)).
  { intros Hlk. destruct (Hroom Hlk) as [Hroomy Hm]. split; [done|]. by apply Hb; [|apply Hm]. }
  fold (bytes_per_pixel cb). destruct ((lockedWidth cb <? width cb) || (lockedHeight cb <? height cb)) eqn:Hpart.
  - assert (Hnum : 0 <= i32 (i32 (lockedWidth cb * lockedHeight cb) * bytes_per_pixel cb)).
    { destruct (decide (lockedWidth cb = 0)) as [->|]; [done|].
      destruct (decide (lockedHeight cb = 0)) as [->|]; [by rewrite Z.mul_0_r|].
      assert (Hlk : locked cb) by (unfold locked; lia). destruct (Hback Hlk). by apply region_copy_ok. }
    replace (i32 _ <? 0) with false by lia. cbv zeta. apply wp_bind, (wp_copy_rows _ _ _ _ (ashmemSize cb)).
    + intros Hd Hy. assert (Hlk : locked cb).
      { split; [|lia]. destruct (decide (lockedWidth cb = 0)) as [H0|]; [|lia]. by rewrite H0 in Hd. }
      destruct (Hback Hlk) as [Hroomy Hbk]. destruct (region_copy_ok cb Hreg Hlk Hroomy) as [_ Hdst Hsrc Htop Hleft He].
      rewrite Hsrc, Hdst, Htop, Hleft. rewrite Z2Nat.id by lia. destruct Hroomy as (Hroomy & _).
      destruct (bytes_per_pixel_spec cb) as [Hk _]. split; [done|].
      assert (0 <= width cb * bytes_per_pixel cb) by nia.
      assert (0 <= lockedTop cb * (width cb * bytes_per_pixel cb)) by nia.
      assert (0 <= lockedLeft cb * bytes_per_pixel cb) by nia. destruct (canBePosted cb); lia.
    + apply wp_bind, wp_rc, wp_ret. cbn [Z.eqb negb]. apply Hend. eapply refs_same; [|done].
      intros b'. apply host_updates.
  - set (off := if canBePosted cb then 4 else 0). unfold load_pixels.
    assert (Hpx : forall Q, (forall l, Q l g s) -> wp host (load_pixels pid (ashmemBase cb) off
      (size_pixels (width cb) (height cb) (glFormat cb) (glType cb))) Q g s).
    { intros Q HQ. unfold load_pixels. case_match; [by apply wp_ret|]. apply wp_bind, (wp_load _ _ _ _ _ (ashmemSize cb)); [|by apply wp_ret].
      intros Hsz. destruct (decide (width cb = 0)) as [H0|]; [by rewrite size_pixels_empty in Hsz by auto|].
      destruct (decide (height cb = 0)) as [H0|]; [by rewrite size_pixels_empty in Hsz by auto|].
      assert (Hlk : locked cb) by (unfold locked; lia). destruct (Hback Hlk) as [Hroomy Hbk].
      rewrite size_pixels_exact by (done || lia). destruct Hroomy as (Hroomy & _). split; [done|].
      unfold off. destruct (canBePosted cb); lia. }
    apply wp_bind, Hpx. intros l. apply wp_bind, wp_rc, wp_ret. cbn [Z.eqb negb]. apply Hend.
    eapply refs_same; [|done]. intros b'. apply host_updates.
Qed.

(** More memory is mapped, more is shared. *)
Lemma guest_ok_grow g T F' M' R' L' :
  guest_ok g T -> (forall k x, maps g !! k = Some x -> M' !! k = Some x) -> rewritten (regions g) R' ->
  guest_ok (mkGuest (cbs g) (devices g) F' M' R' L') T.
Proof.
  intros Hg HM HR. constructor; cbn; try apply Hg. intros pid p cb Hp.
  destruct (gk_cb g T Hg _ _ _ Hp) as [p0 Hok]. split; [done|]. eapply cb_ok_keep; [done|done|done|].
  intros Ht Hm. destruct (ok_backed _ _ _ _ _ _ Hok Ht Hm) as (_ & r & m & H1 & _). rewrite H1. by apply HM.
Qed.

(** *** Allocation *)

Lemma wp_alloc_memory pid p cb d (Q : Z -> Guest -> S -> Prop) g s :
  cbs g !! (pid, p) = Some cb ->
  (forall z F L, z <> 0 -> Q z (mkGuest (delete (pid, p) (cbs g)) (devices g) F (maps g) (regions g) L) s) ->
  (ashmemSize cb <= 0 -> Q 0 g s) ->
  (forall a r m L, 0 < ashmemSize cb -> regions g !! r = Some m -> ashmemSize cb <= zlen m ->
     a ∉ addresses pid g -> 0 < a ->
     Q 0 (mkGuest (<[(pid, p) := setFd d (set_mapping a pid (mappedPid cb) cb)]> (cbs g)) (devices g) (fds g)
            (<[(pid, a) := (r, ashmemSize cb)]> (maps g)) (regions g) L) s) ->
  wp host (if 0 <? ashmemSize cb then
             err ← map_buffer pid p;
             if negb (err =? 0) then close pid d ;; del_cb pid p ;; mret err
             else c ← get_cb pid p; put_cb pid p (setFd d c) ;; mret 0
           else mret 0) Q g s.
Proof.
  intros Hp Hbad Hnone Hgood. destruct (Z.ltb_spec 0 (ashmemSize cb)) as [Hs|Hs]; [|by apply wp_ret, Hnone].
  apply wp_bind. eapply wp_map_buffer; [done| |].
  - intros z l Hz. replace (z =? 0) with false by lia. apply wp_bind, wp_setg, wp_bind, wp_setg, wp_ret.
    apply Hbad. lia.
  - intros a r m l _ Hr Hm Ha Ha0. cbn [Z.eqb negb]. apply wp_bind. eapply wp_get_cb; [apply lookup_insert_eq|].
    apply wp_bind, wp_setg, wp_ret. unfold with_cbs at 1. cbn. rewrite insert_insert_eq. by eapply Hgood.
Qed.

Lemma set_hostHandle_zero c : hostHandle c = 0 -> set_hostHandle 0 c = c.
Proof. destruct c. cbn. by intros ->. Qed.

Lemma wp_alloc_buffer pid hc p c d u w h f T (Q : Z -> Guest -> S -> Prop) g s :
  cbs g !! (pid, p) = Some c -> hostHandle c = 0 -> refs_ok s T -> host_ready s ->
  (forall z F s', z <> 0 -> refs_ok s' T ->
     Q z (mkGuest (delete (pid, p) (cbs g)) (devices g) F (maps g) (regions g) (errnos g)) s') ->
  (forall b s', refs_ok s' ((pid, p, b) :: T) ->
     Q 0 (with_cbs (<[(pid, p) := set_hostHandle b c]> (cbs g)) g) s') ->
  wp host (if wants_host_buffer u then
             c ← get_cb pid p;
             b ← (if hc : bool then rc_int (CreateColorBuffer w h f) else mret (hostHandle c));
             put_cb pid p (set_hostHandle b c) ;;
             if b =? 0 then close pid d ;; del_cb pid p ;; mret (- EIO) else mret 0
           else mret 0) Q g s.
Proof.
  intros Hp Hz Hr Hrdy Hbad Hgood.
  assert (H0 : refs_ok s ((pid, p, 0) :: T)).
  { intros b Hb. rewrite count_cons. cbn [snd]. replace (0 =? b) with false by lia. by apply Hr. }
  destruct (wants_host_buffer u).
  2: { apply wp_ret. specialize (Hgood 0 s H0). rewrite set_hostHandle_zero, insert_id in Hgood by done.
       by destruct g. }
  apply wp_bind. eapply wp_get_cb; [done|]. apply wp_bind.
  assert (Hend : forall b s', (b = 0 -> refs_ok s' T) -> (b <> 0 -> refs_ok s' ((pid, p, b) :: T)) ->
    wp host (put_cb pid p (set_hostHandle b c) ;;
             if b =? 0 then close pid d ;; del_cb pid p ;; mret (- EIO) else mret 0) Q g s').
  { intros b s' Hb0 Hb. apply wp_bind, wp_setg. destruct (Z.eqb_spec b 0) as [->|Hne].
    - apply wp_bind, wp_setg, wp_bind, wp_setg, wp_ret. cbn. rewrite delete_insert_eq. apply Hbad; [done|by apply Hb0].
    - apply wp_ret, Hgood. by apply Hb. }
  destruct hc; [|rewrite Hz; apply wp_ret, Hend; done].
  destruct (host_creates w h f s Hrdy) as (b & Hrange & Hans & Hnew & Hrefs).
  eapply wp_rc_int; [done|done|]. apply Hend.
  - intros -> b' Hb'. rewrite Hrefs, bool_decide_false by tauto. rewrite Hr by done. lia.
  - intros Hb b' Hb'. rewrite Hrefs, Hr, count_cons by done. cbn [snd].
    destruct (Z.eqb_spec b b') as [->|Hne]; [rewrite bool_decide_true by done|rewrite bool_decide_false by naive_solver]; lia.
Qed.

(** A new handle that its process holds, pushed on a list of the device. *)
Lemma guest_ok_allocated g T pid p c b dev l M' L :
  guest_ok g T -> p ∉ addresses pid g -> 0 < p -> devices g !! (pid, dev) = Some l ->
  (forall k x, maps g !! k = Some x -> M' !! k = Some x) ->
  valid_cb c = true -> in_image 0 0 0 0 c -> region_of c -> ~ locked c -> hostHandle c = b ->
  (ashmemSize c <= 0 -> ashmemBase c = 0) ->
  (mapped c -> ashmemBase c ∉ addresses pid g /\ ashmemBasePid c = pid /\
               backed pid M' (regions g) (ashmemBase c) (ashmemSize c)) ->
  guest_ok (mkGuest (<[(pid, p) := c]> (cbs g)) (<[(pid, dev) := p :: l]> (devices g)) (fds g) M' (regions g) L)
    ((pid, p, b) :: T).
Proof.
  intros Hg Hp p0 Hd HM Hv _ Hreg Hlk Hb Hnone Hmap.
  destruct (addresses_free pid p g Hp) as (Hfree & _ & _).
  assert (Hnot : forall d l', devices g !! (pid, d) = Some l' -> p ∉ l').
  { intros d l' Hl' Hin. destruct (gk_list g T Hg _ _ _ Hl') as [_ Hall]. destruct (Hall p Hin). congruence. }
  eapply (guest_ok_devices (<[(pid, p) := c]> (cbs g)) (devices g) (fds g) M' (regions g) L).
  - apply (guest_ok_update g T) with (pid := pid) (p := p) (cb' := c); try done; [lia|apply rewritten_refl| | | |].
    + intros pid' p' b' Hne _. set_solver.
    + intros b' Hin. apply elem_of_cons in Hin as [[= ->]|Hin]; [done|].
      destruct (gk_token g T Hg _ _ _ Hin ltac:(lia)) as (c' & Hc' & _). congruence.
    + intros pid' p' c' Hne Hc' Ht Hm. destruct (gk_cb g T Hg _ _ _ Hc') as [_ Hok].
      destruct (ok_backed _ _ _ _ _ _ Hok Ht Hm) as (_ & r & m & H1 & _). rewrite H1. split; [by apply HM|].
      intros -> _ Hmc He. destruct (Hmap Hmc) as [Ha _]. rewrite <- He in Ha.
      destruct (addresses_free pid _ g Ha) as (_ & _ & Hn). congruence.
    + constructor; try done. intros _ Hm. by destruct (Hmap Hm) as (_ & ? & ?).
  - intros pid' d l' Hl'. destruct (decide ((pid', d) = (pid, dev))) as [[= -> ->]|Hne].
    + rewrite lookup_insert_eq in Hl'. injection Hl' as <-. destruct (gk_list g T Hg _ _ _ Hd) as [Hnd Hall].
      split; [apply NoDup_cons; split; [by apply (Hnot dev)|done]|]. intros q Hq. apply elem_of_cons in Hq as [->|Hq];
        [by rewrite lookup_insert_eq|]. destruct (decide (q = p)) as [->|Hqp]; [by rewrite lookup_insert_eq|].
      rewrite lookup_insert_ne by congruence. by apply Hall.
    + rewrite lookup_insert_ne in Hl' by done. destruct (gk_list g T Hg _ _ _ Hl') as [Hnd Hall]. split; [done|].
      intros q Hq. destruct (decide ((pid', q) = (pid, p))) as [->|Hqp]; [by rewrite lookup_insert_eq|].
      rewrite lookup_insert_ne by congruence. by apply Hall.
  - assert (Hwas : forall pid' d l' q, <[(pid, dev) := p :: l]> (devices g) !! (pid', d) = Some l' -> q ∈ l' ->
      (pid' = pid /\ d = dev /\ q = p) \/ exists l0, devices g !! (pid', d) = Some l0 /\ q ∈ l0).
    { intros pid' d l' q Hl' Hq. destruct (decide ((pid', d) = (pid, dev))) as [[= -> ->]|Hne].
      - rewrite lookup_insert_eq in Hl'. injection Hl' as <-. apply elem_of_cons in Hq as [->|Hq]; eauto.
      - rewrite lookup_insert_ne in Hl' by done. eauto. }
    intros pid' d d' l1 l2 q H1 H2 Hq1 Hq2.
    destruct (Hwas _ _ _ _ H1 Hq1) as [(-> & -> & ->)|(k1 & Hk1 & Hin1)],
      (Hwas _ _ _ _ H2 Hq2) as [(He & He' & He'')|(k2 & Hk2 & Hin2)]; subst; try done.
    + by destruct (Hnot _ _ Hk2).
    + by destruct (Hnot _ _ Hk1).
    + by eapply (gk_lists g T Hg).
Qed.

(** The handle of an allocation that worked, where there is one. *)
Definition allocated (pid : Z) (T : list token) (r : Z * option (Z * Z)) (g : Guest) : list token :=
  match r.2 with
  | Some (p, _) => (pid, p, default 0 (hostHandle <$> cbs g !! (pid, p))) :: T
  | None => T
  end.

Lemma device_alloc_ok pid hc dev outs w h fmt u l g s T :
  ok T g s -> host_ready s -> devices g !! (pid, dev) = Some l -> 0 <= w -> 0 <= h ->
  wp host (gralloc_alloc pid hc dev outs w h fmt u) (fun r g' s' => ok (allocated pid T r g') g' s') g s.
Proof.
  intros [Hg0 Hr] Hrdy Hd0 Hw Hh. unfold gralloc_alloc. destruct (_ || _); [by apply wp_ret|].
  destruct (concrete_format u fmt) as [format|]; [|by apply wp_ret].
  destruct (format_layout u format) as [y|]; [|by apply wp_ret].
  destruct (image_size y w h u) as [size stride].
  set (ashmem_size := if 0 <? size then aligned size PAGE_SIZE else size).
  match goal with |- wp _ (_ ≫= ?k) ?Q _ _ =>
    assert (Hend : forall d g, guest_ok g T -> devices g !! (pid, dev) = Some l -> wp host (k d) Q g s)
  end.
  2: { apply wp_bind. destruct (0 <? size); [|by apply wp_ret, Hend]. apply wp_create.
       - intros e L _. by apply Hend; [apply guest_ok_errnos|].
       - intros d r L Hd Hfresh. apply Hend; [|done].
         apply (guest_ok_grow g T); [done|done|]. intros r' m Hr'. exists m.
         cbn. rewrite lookup_insert_ne; [done|]. intros ->. apply Hfresh. by eapply elem_of_dom_2. }
  clear g Hg0 Hd0. intros d g Hg Hd. destruct (_ && _); [by apply wp_ret|].
  set (c0 := cb_handle_new d ashmem_size u w h fmt format (l_glFormat y) (l_glType y)).
  apply wp_bind, wp_bind, wp_getg. destruct (new_address_fresh (addresses pid g)) as [Hfresh Hpos].
  set (p := new_address (addresses pid g)) in *. destruct (addresses_free pid p g Hfresh) as (Hfree & _ & _).
  apply wp_bind, wp_setg, wp_ret, wp_bind.
  set (g1 := with_cbs (<[(pid, p) := c0]> (cbs g)) g).
  assert (Hp1 : cbs g1 !! (pid, p) = Some c0) by (cbn; apply lookup_insert_eq).
  assert (Hgone : delete (pid, p) (cbs g1) = cbs g) by (cbn; by rewrite delete_insert_id).
  (* the buffer of the host, and the list *)
  match goal with |- wp _ _ (fun err => wp _ (@?k err) ?Q) _ _ =>
    assert (Hrest : forall c M L, (forall i x, maps g !! i = Some x -> M !! i = Some x) ->
      valid_cb c = true -> in_image 0 0 0 0 c -> region_of c -> ~ locked c -> hostHandle c = 0 ->
      (ashmemSize c <= 0 -> ashmemBase c = 0) ->
      (mapped c -> ashmemBase c ∉ addresses pid g /\ ashmemBasePid c = pid /\
                   backed pid M (regions g) (ashmemBase c) (ashmemSize c)) ->
      wp host (k 0) Q (mkGuest (<[(pid, p) := c]> (cbs g)) (devices g) (fds g) M (regions g) L) s)
  end.
  { intros c M L HM Hv Him Hreg Hlk Hz Hnone Hmap. cbn [Z.eqb negb]. apply wp_bind.
    eapply wp_alloc_buffer; [cbn; apply lookup_insert_eq|done|done|done| |].
    - intros z F s' Hz' Hr'. replace (z =? 0) with false by lia. apply wp_ret. split; [|done]. cbn.
      rewrite delete_insert_id by done. by apply (guest_ok_grow g T); [..|apply rewritten_refl].
    - intros b s' Hr'. cbn [Z.eqb negb]. apply wp_bind, wp_getg. cbn [devices with_cbs cbs]. rewrite Hd.
      apply wp_bind, wp_setg, wp_ret. unfold with_devices, with_cbs, allocated. cbn. rewrite insert_insert_eq.
      rewrite lookup_insert_eq. split; [|done]. cbn. by apply (guest_ok_allocated g T). }
  cbn beta. eapply (wp_alloc_memory pid p c0 d); [exact Hp1|..].
  - intros z F L Hz. replace (z =? 0) with false by lia. apply wp_ret. split; [|done]. rewrite Hgone.
    by apply (guest_ok_grow g T); [..|apply rewritten_refl].
  - intros Hs. apply (Hrest c0 (maps g) (errnos g)); try done. unfold locked. cbn. lia.
  - intros a r m L Hs Hrm Hm Ha Ha0. cbn. rewrite insert_insert_eq. apply Hrest; try done; cbn.
    + intros i x Hi. rewrite lookup_insert_ne; [done|]. intros <-.
      destruct (addresses_free pid a g1 Ha) as (_ & _ & Hn). cbn in Hn. congruence.
    + unfold valid_cb, setFd. by destruct (0 <=? d).
    + unfold locked. cbn. lia.
    + intros Hle. cbn in Hs. lia.
    + intros _. split; [|split; [done|by eapply backed_new]]. intros Hin. apply Ha.
      unfold addresses in *. cbn. pose proof (used_insert pid (cbs g) (pid, p) c0). set_solver.
Qed.

(** *** The other operations *)

Lemma lock_ycbcr_ok pid p u l t w h out cb b g s T :
  ok T g s -> cbs g !! (pid, p) = Some cb -> (pid, p, b) ∈ T -> in_image l t w h cb -> roomy cb ->
  wp host (gralloc_lock_ycbcr pid None p u l t w h out) (fun _ => ok T) g s.
Proof.
  intros [Hg Hr] Hp Hin Him Hroomy. destruct (gk_cb g T Hg _ _ _ Hp) as [p0 Hok].
  pose proof (ok_valid _ _ _ _ _ _ Hok) as Hv. apply wp_bind. destruct out; cbn [negb]; [|by apply wp_ret, wp_ret].
  eapply wp_validate; [done..|]. cbn [negb]. apply wp_bind. eapply wp_get_cb; [done|].
  destruct (negb (frameworkFormat cb =? _)); [by apply wp_ret|]. destruct (_ || _); [by apply wp_ret|].
  destruct (Z.eqb_spec (ashmemBasePid cb) pid) as [Hpid|]; [|by apply wp_ret].
  destruct (Z.eqb_spec (ashmemBase cb) 0) as [|Hbase]; [by apply wp_ret|]. cbn [negb orb].
  destruct (negb _); [by apply wp_ret|]. apply wp_bind, wp_setg, wp_ret. split; [|done].
  apply (guest_ok_locked g T (regions g)); try done. apply rewritten_refl.
Qed.

(** The process writes to the memory of a handle. *)
Definition draw (pid p off : Z) (l : list Z) : G unit := cb ← get_cb pid p; store_at pid (ashmemBase cb) off l.

Lemma draw_ok pid p off l cb b g s T :
  ok T g s -> cbs g !! (pid, p) = Some cb -> (pid, p, b) ∈ T -> mapped cb ->
  0 <= off -> off + zlen l <= ashmemSize cb ->
  wp host (draw pid p off l) (fun _ => ok T) g s.
Proof.
  intros [Hg Hr] Hp Hin Hm Ho Hl. destruct (gk_cb g T Hg _ _ _ Hp) as [p0 Hok].
  destruct (ok_backed _ _ _ _ _ _ Hok (trusted_token _ _ _ _ _ Hin) Hm) as [_ Hb].
  apply wp_bind. eapply wp_get_cb; [done|]. eapply wp_store; [by intros _|].
  intros R HR. split; [by apply guest_ok_rewritten|done].
Qed.

Lemma fb_post_ok pid hc fbdev p cb b g s T :
  ok T g s -> cbs g !! (pid, p) = Some cb -> (pid, p, b) ∈ T -> roomy cb ->
  wp host (fb_post pid hc fbdev p) (fun _ => ok T) g s.
Proof.
  intros [Hg Hr] Hp Hin (Hroomy & _ & Hs). destruct (gk_cb g T Hg _ _ _ Hp) as [p0 Hok].
  pose proof Hok as [Hv (Hl & Ht & Hw & Hh & Hlw & Hth) _ _ Hb]. apply wp_bind.
  destruct (fbdev =? 0); [by apply wp_ret, wp_ret|]. eapply wp_validate; [done..|]. cbn [negb].
  apply wp_bind. eapply wp_get_cb; [done|]. destruct (canBePosted cb) eqn:Hcb; cbn [negb]; [|by apply wp_ret].
  destruct hc; cbn [negb]; [|by apply wp_ret]. destruct (Z.eqb_spec (ashmemBase cb) 0) as [|Hbase]; [by apply wp_ret|].
  destruct (Hb (trusted_token _ _ _ _ _ Hin) Hbase) as [_ Hback].
  assert (H8 : 8 <= ashmemSize cb).
  { destruct (bytes_per_pixel_spec cb). unfold region_of, in_image in *.
    assert (0 <= bytes_per_pixel cb * width cb * height cb) by (repeat apply Z.mul_nonneg_nonneg; lia). lia. }
  apply wp_bind, wp_bind, (wp_load _ _ _ _ _ (ashmemSize cb)); [by intros _; unfold sizeof_intptr|].
  apply wp_ret, wp_bind. eapply wp_store; [intros _; split; [done|]; by rewrite zlen_little_endian|].
  intros R HR. apply wp_bind, wp_rc, wp_bind, wp_flush, wp_ret. split; [by apply guest_ok_rewritten|].
  eapply refs_same; [|done]. intros b'. apply host_posts.
Qed.

Lemma wp_param n T (Q : Z -> Guest -> S -> Prop) g s :
  refs_ok s T -> (forall z s', refs_ok s' T -> Q z g s') -> wp host (rc_int (GetFBParam n)) Q g s.
Proof.
  intros Hr HQ. destruct (host_params n s) as (z & Hz & Hans & Hsame).
  eapply wp_rc_int; [done|done|]. apply HQ. by eapply refs_same.
Qed.

Lemma wp_malloc_device pid (Q : option Z -> Guest -> S -> Prop) g s :
  (forall L, Q None (with_errnos L g) s) ->
  (forall a L, a ∉ addresses pid g -> 0 < a -> Q (Some a) (with_errnos L g) s) ->
  wp host (malloc_device pid) Q g s.
Proof.
  intros Hbad Hgood. apply wp_bind, wp_syscall. intros e L. destruct (0 <? e); [by apply wp_ret|].
  apply wp_bind, wp_getg, wp_ret. destruct (new_address_fresh (addresses pid g)). by apply Hgood.
Qed.

Lemma open_ok pid hc name g s T :
  ok T g s -> wp host (gralloc_device_open pid hc None name) (fun _ => ok T) g s.
Proof.
  intros [Hg Hr]. unfold gralloc_device_open. case_bool_decide; [|case_bool_decide; [|by apply wp_ret]];
    (destruct hc; cbn [negb]; [|by apply wp_ret]).
  - apply wp_bind, wp_malloc_device; [intros L; apply wp_ret; split; [by apply guest_ok_errnos|done]|].
    intros a L Ha Ha0. apply wp_bind, wp_setg, wp_ret. split; [|done].
    destruct (addresses_free pid a g Ha) as (_ & Hfree & _).
    apply (guest_ok_devices (cbs g) (devices g) (fds g) (maps g) (regions g) L); [by apply guest_ok_errnos|..]; cbn.
    + intros pid' d l Hl. destruct (decide ((pid', d) = (pid, a))) as [[= -> ->]|Hne].
      * rewrite lookup_insert_eq in Hl. injection Hl as <-. split; [constructor|]. intros p Hp. by apply elem_of_nil in Hp.
      * rewrite lookup_insert_ne in Hl by done. by apply (gk_list g T Hg _ _ _ Hl).
    + assert (Hin : forall pid' d l q, <[(pid, a) := []]> (devices g) !! (pid', d) = Some l -> q ∈ l ->
        devices g !! (pid', d) = Some l).
      { intros pid' d l q Hl Hq. destruct (decide ((pid', d) = (pid, a))) as [[= -> ->]|Hne].
        - rewrite lookup_insert_eq in Hl. injection Hl as <-. by apply elem_of_nil in Hq.
        - by rewrite lookup_insert_ne in Hl. }
      intros pid' d d' l l' q Hl Hl' Hq Hq'. apply (Hin _ _ _ q) in Hl, Hl'; try done. by eapply (gk_lists g T Hg).
  - do 7 (apply wp_bind; eapply wp_param; [done|]; clear s Hr; intros ? s Hr).
    apply wp_bind, wp_malloc_device; intros; apply wp_ret; (split; [by apply guest_ok_errnos|done]).
Qed.

(** *** What the framework does with handles *)

Definition set_fd (d : Z) (cb : cb_handle) : cb_handle :=
  mkCb (version cb) (numFds cb) (numInts cb) d (magic cb) (usage cb) (width cb) (height cb)
    (frameworkFormat cb) (format cb) (glFormat cb) (glType cb) (ashmemSize cb) (ashmemBase cb)
    (ashmemBasePid cb) (mappedPid cb) (lockedLeft cb) (lockedTop cb) (lockedWidth cb) (lockedHeight cb)
    (hostHandle cb).

(** A handle is sent to another process: its integers as they are, its descriptor as one
    of that process. *)
Definition copy_handle (pid p pid' : Z) : G Z :=
  cb ← get_cb pid p;
  r ← getg (fun g => fds g !! (pid, fd cb));
  d ← (if numFds cb =? 1 then
         match r with
         | Some r =>
             d ← getg (fun g => new_fd (used pid' (fds g)));
             setg (fun g => with_fds (<[(pid', d) := r]> (fds g)) g) ;; mret d
         | None => mret (fd cb)
         end
       else mret (fd cb));
  new_cb pid' (set_fd d cb).

(** A copy is given up. *)
Definition forget_handle (pid p : Z) : G unit :=
  cb ← get_cb pid p;
  (if numFds cb =? 1 then close pid (fd cb) else mret tt) ;; del_cb pid p.

Lemma copy_handle_ok pid p pid' cb g s T :
  ok T g s -> cbs g !! (pid, p) = Some cb -> mappedPid cb <> pid' ->
  wp host (copy_handle pid p pid') (fun _ => ok T) g s.
Proof.
  intros [Hg Hr] Hp Hpid. destruct (gk_cb g T Hg _ _ _ Hp) as [p0 [Hv Hreg Hroom Hnone _]].
  apply wp_bind. eapply wp_get_cb; [done|]. apply wp_bind, wp_getg.
  assert (Hend : forall d F, wp host (new_cb pid' (set_fd d cb)) (fun _ => ok T) (with_fds F g) s).
  { intros d F. apply wp_bind, wp_getg. destruct (new_address_fresh (addresses pid' (with_fds F g))) as [Hfresh Hpos].
    set (q := new_address _) in *. destruct (addresses_free pid' q _ Hfresh) as (Hfree & _ & _). cbn in Hfree.
    assert (Hnot : forall b, (pid', q, b) ∉ T).
    { intros b Hb. destruct (gk_token g T Hg _ _ _ Hb) as (c & Hc & _); [lia|congruence]. }
    assert (Hun : ~ trusted T pid' q (set_fd d cb)) by (intros [[b Hb]|Hm]; [by destruct (Hnot b)|done]).
    apply wp_bind, wp_setg, wp_ret. split; [|done].
    apply (guest_ok_update g T) with (pid := pid') (p := q) (cb' := set_fd d cb); try done; [lia|apply rewritten_refl|..].
    - intros b Hb. by destruct (Hnot b).
    - constructor; try done. intros Hl. destruct (Hroom Hl). by split. }
  assert (Hend' := fun d => Hend d (fds g)). replace (with_fds (fds g) g) with g in Hend' by (by destruct g).
  apply wp_bind. destruct (numFds cb =? 1); [|apply wp_ret, Hend']. destruct (fds g !! (pid, fd cb)) as [r|]; [|apply wp_ret, Hend'].
  apply wp_bind, wp_getg, wp_bind, wp_setg, wp_ret. apply Hend.
Qed.

Lemma forget_handle_ok pid p cb g s T :
  ok T g s -> cbs g !! (pid, p) = Some cb -> (forall b, (pid, p, b) ∉ T) ->
  (forall d l, devices g !! (pid, d) = Some l -> p ∉ l) ->
  wp host (forget_handle pid p) (fun _ => ok T) g s.
Proof.
  intros [Hg Hr] Hp Hno Hl. apply wp_bind. eapply wp_get_cb; [done|].
  assert (Hend : forall F, wp host (del_cb pid p) (fun _ => ok T) (with_fds F g) s).
  { intros F. apply wp_setg. split; [|done]. apply (guest_ok_delete g T); try done.
    intros pid' d l' Hl'. exists l'. cbn in Hl'. split; [done|]. split; [by apply (gk_list g T Hg _ _ _ Hl')|].
    intros q Hq. split; [done|]. intros [= -> ->]. by eapply Hl. }
  apply wp_bind. destruct (numFds cb =? 1); [apply wp_setg, Hend|apply wp_ret].
  specialize (Hend (fds g)). by destruct g.
Qed.

Lemma device_close_ok pid dev l g s T :
  ok T g s -> dev <> 0 -> devices g !! (pid, dev) = Some l ->
  (forall p, p ∈ l -> exists cb, cbs g !! (pid, p) = Some cb /\ sole T pid p (hostHandle cb)) ->
  wp host (gralloc_device_close pid true dev) (fun _ => ok (drop_all (tokens pid l g) T)) g s.
Proof.
  intros Hok Hdev Hd Hl. unfold gralloc_device_close. replace (dev =? 0) with false by lia.
  apply wp_bind, wp_getg. rewrite Hd. apply wp_bind. eapply wp_mono; [by apply (free_all_ok pid dev _ l)|].
  intros _ g' s' [[Hg' Hr'] Hd']. apply wp_bind, wp_setg, wp_ret. split; [|done]. destruct g' as [C D F M R L].
  assert (Hin : forall pid' d l', delete (pid, dev) D !! (pid', d) = Some l' -> D !! (pid', d) = Some l')
    by (intros pid' d l' Hl'; by apply lookup_delete_Some in Hl' as [_ Hl']).
  eapply (guest_ok_devices C D F M R L); [done|..].
  - intros pid' d l' Hl'. apply Hin in Hl'. apply (gk_list _ _ Hg' _ _ _ Hl').
  - intros pid' d d' l1 l2 q H1 H2. apply Hin in H1, H2. apply (gk_lists _ _ Hg' _ _ _ _ _ _ H1 H2).
Qed.

(** ** Histories *)

(** [hc]: whether the calling thread has a connection. *)
Inductive cmd :=
  | Open (pid : Z) (hc : bool) (name : string)
  | CloseDevice (pid dev : Z)
  | Alloc (pid : Z) (hc : bool) (dev w h fmt u : Z)
  | Free (pid : Z) (hc : bool) (dev p : Z)
  | Copy (pid p pid' : Z)
  | Forget (pid p : Z)
  | Register (pid : Z) (hc : bool) (p : Z)
  | Unregister (pid : Z) (hc : bool) (p : Z)
  | Lock (pid : Z) (hc : bool) (p u l t w h : Z)
  | LockYcbcr (pid p u l t w h : Z)
  | Draw (pid p off : Z) (l : list Z)
  | Unlock (pid : Z) (hc : bool) (p : Z)
  | Post (pid : Z) (hc : bool) (fbdev p : Z).

Definition host_of (pid p : Z) (g : Guest) : Z := default 0 (hostHandle <$> cbs g !! (pid, p)).

(** The operation, and the references afterwards. *)
Definition do (c : cmd) (T : list token) : G (list token) :=
  match c with
  | Open pid hc name => gralloc_device_open pid hc None name ;; mret T
  | CloseDevice pid dev =>
      l ← getg (fun g => tokens pid (default [] (devices g !! (pid, dev))) g);
      gralloc_device_close pid true dev ;; mret (drop_all l T)
  | Alloc pid hc dev w h fmt u =>
      r ← gralloc_alloc pid hc dev true w h fmt u; getg (allocated pid T r)
  | Free pid hc dev p =>
      b ← getg (host_of pid p);
      r ← gralloc_free pid hc dev p; mret (if r =? 0 then give_back (pid, p, b) T else T)
  | Copy pid p pid' => copy_handle pid p pid' ;; mret T
  | Forget pid p => forget_handle pid p ;; mret T
  | Register pid hc p =>
      b ← getg (host_of pid p);
      r ← gralloc_register_buffer pid hc None p;
      mret (if r =? 0 then (pid, p, b) :: T else if 0 <? r then (pid, 0, b) :: T else T)
  | Unregister pid hc p =>
      b ← getg (host_of pid p);
      r ← gralloc_unregister_buffer pid hc None p; mret (if r =? - EIO then T else give_back (pid, p, b) T)
  | Lock pid hc p u l t w h => gralloc_lock pid hc None p u l t w h ;; mret T
  | LockYcbcr pid p u l t w h => gralloc_lock_ycbcr pid None p u l t w h true ;; mret T
  | Draw pid p off l => draw pid p off l ;; mret T
  | Unlock pid hc p => gralloc_unlock pid hc None p ;; mret T
  | Post pid hc fbdev p => fb_post pid hc fbdev p ;; mret T
  end.

(** The contract of the framework.  A handle is used in the process that allocated or
    registered it; a copy is not sent to where the original is registered; a buffer is
    freed by the device it is of, when all registrations of that handle are undone, and
    registered while somebody has it; what is locked lies in the image, and there is
    memory for all of the image. *)
Definition legal (c : cmd) (T : list token) (g : Guest) : Prop :=
  match c with
  | Open _ _ _ => True
  | CloseDevice pid dev => dev <> 0 /\ exists l, devices g !! (pid, dev) = Some l /\
      forall p, p ∈ l -> exists cb, cbs g !! (pid, p) = Some cb /\ sole T pid p (hostHandle cb)
  | Alloc pid hc dev w h fmt u => is_Some (devices g !! (pid, dev)) /\ 0 <= w /\ 0 <= h
  | Free pid hc dev p => exists cb l, cbs g !! (pid, p) = Some cb /\ devices g !! (pid, dev) = Some l /\ p ∈ l /\
      sole T pid p (hostHandle cb)
  | Copy pid p pid' => exists cb, cbs g !! (pid, p) = Some cb /\ mappedPid cb <> pid'
  | Forget pid p => is_Some (cbs g !! (pid, p)) /\ (forall b, (pid, p, b) ∉ T) /\
      forall d l, devices g !! (pid, d) = Some l -> p ∉ l
  | Register pid hc p => exists cb, cbs g !! (pid, p) = Some cb /\
      (hostHandle cb <> 0 -> 0 < count (hostHandle cb) T)
  | Unregister pid hc p => exists cb, cbs g !! (pid, p) = Some cb /\ (pid, p, hostHandle cb) ∈ T /\ ~ locked cb
  | Lock pid _ p _ l t w h | LockYcbcr pid p _ l t w h => exists cb, cbs g !! (pid, p) = Some cb /\
      (pid, p, hostHandle cb) ∈ T /\ in_image l t w h cb /\ roomy cb
  | Draw pid p off l => exists cb, cbs g !! (pid, p) = Some cb /\ (pid, p, hostHandle cb) ∈ T /\ mapped cb /\
      0 <= off /\ off + zlen l <= ashmemSize cb
  | Unlock pid hc p => exists cb, cbs g !! (pid, p) = Some cb /\ (pid, p, hostHandle cb) ∈ T
  | Post pid hc fbdev p => exists cb, cbs g !! (pid, p) = Some cb /\ (pid, p, hostHandle cb) ∈ T /\ roomy cb
  end.

(** The host makes a buffer or takes a reference. *)
Definition takes (c : cmd) : bool :=
  match c with Alloc _ _ _ _ _ _ _ | Register _ _ _ => true | _ => false end.

Lemma do_ok c g s T :
  ok T g s -> legal c T g -> (takes c = true -> host_ready s) -> wp host (do c T) ok g s.
Proof.
  intros Hok Hc Hrdy. destruct c; cbn [do legal takes] in *; try (apply wp_bind).
  - eapply wp_mono; [by apply open_ok|]. intros r g' s' Hok'. by apply wp_ret.
  - destruct Hc as (Hdev & l & Hd & Hl). apply wp_getg. rewrite Hd. apply wp_bind.
    eapply wp_mono; [by apply (device_close_ok pid dev l g s T)|]. intros r g' s' Hok'. by apply wp_ret.
  - destruct Hc as ((l & Hd) & Hw & Hh). eapply wp_mono; [by apply (device_alloc_ok pid hc dev true w h fmt u l g s T); auto|].
    intros r g' s' Hok'. by apply wp_getg.
  - destruct Hc as (cb & l & Hp & Hd & Hin & Hs). apply wp_getg. unfold host_of. rewrite Hp. apply wp_bind.
    eapply wp_mono; [by apply (free_ok pid hc dev p cb l g s T)|]. intros r g' s' [Hok' _]. by apply wp_ret.
  - destruct Hc as (cb & Hp & Hpid). eapply wp_mono; [by apply (copy_handle_ok pid p pid' cb g s T)|].
    intros r g' s' Hok'. by apply wp_ret.
  - destruct Hc as ((cb & Hp) & Hno & Hl). eapply wp_mono; [by apply (forget_handle_ok pid p cb g s T)|].
    intros r g' s' Hok'. by apply wp_ret.
  - destruct Hc as (cb & Hp & Hn). apply wp_getg. unfold host_of. rewrite Hp. apply wp_bind.
    eapply wp_mono; [by apply (register_ok pid hc p cb g s T); auto|]. intros r g' s' Hok'. by apply wp_ret.
  - destruct Hc as (cb & Hp & Hin & Hl). apply wp_getg. unfold host_of. rewrite Hp. apply wp_bind.
    eapply wp_mono; [by apply (unregister_ok pid hc p cb g s T)|]. intros r g' s' Hok'. by apply wp_ret.
  - destruct Hc as (cb & Hp & Hin & Him & Hroom). eapply wp_mono; [by eapply lock_ok|].
    intros r g' s' Hok'. by apply wp_ret.
  - destruct Hc as (cb & Hp & Hin & Him & Hroom). eapply wp_mono; [by eapply lock_ycbcr_ok|].
    intros r g' s' Hok'. by apply wp_ret.
  - destruct Hc as (cb & Hp & Hin & Hm & Ho & Hl). eapply wp_mono; [by eapply draw_ok|].
    intros r g' s' Hok'. by apply wp_ret.
  - destruct Hc as (cb & Hp & Hin). eapply wp_mono; [by eapply unlock_ok|]. intros r g' s' Hok'. by apply wp_ret.
  - destruct Hc as (cb & Hp & Hin & Hroom). eapply wp_mono; [by eapply fb_post_ok|].
    intros r g' s' Hok'. by apply wp_ret.
Qed.

Fixpoint do_all (cs : list cmd) (T : list token) : G (list token) :=
  match cs with [] => mret T | c :: cs => T ← do c T; do_all cs T end.

(** Every operation is called as the contract says, where it is called. *)
Fixpoint all_legal (cs : list cmd) (T : list token) (g : Guest) (s : S) : Prop :=
  match cs with
  | [] => True
  | c :: cs => legal c T g /\ (takes c = true -> host_ready s) /\
      match run_with host (do c T g) s with (Value T g, s) => all_legal cs T g s | _ => True end
  end.

Lemma do_all_ok cs : forall g s T, ok T g s -> all_legal cs T g s -> wp host (do_all cs T) ok g s.
Proof.
  induction cs as [|c cs IH]; intros g s T Hok Hl; cbn [do_all all_legal] in *; [by apply wp_ret|].
  destruct Hl as (Hc & Hrdy & Hl). apply wp_bind. pose proof (do_ok c g s T Hok Hc Hrdy) as Hdo. unfold wp in Hdo |- * at 1.
  destruct (run_with host (do c T g) s) as [[T' g'| |] s']; [|done..]. by apply IH.
Qed.

Definition guest_new (errnos : list Z) : Guest := mkGuest ∅ ∅ ∅ ∅ ∅ errnos.

Lemma guest_new_ok L : guest_ok (guest_new L) [].
Proof.
  constructor; cbn; intros *; try (rewrite lookup_empty; done). intros Hin. by apply elem_of_nil in Hin.
Qed.

(** Whatever processes allocate, send each other, register, lock, draw, post and free,
    in whatever order and whatever system calls fail: if the framework keeps to its
    contract and the host is ready for what it is asked, no operation touches memory that is not there and none hangs, and the host
    counts for each color buffer as many references as handles hold it, and one for each
    registration that failed after the host was told. *)
Theorem gralloc_history cs L s :
  (forall b, host_refs s b = 0) -> all_legal cs [] (guest_new L) s ->
  wp host (do_all cs []) (fun T g s =>
    (forall b, b <> 0 -> host_refs s b = count b T) /\
    (forall pid p b, (pid, p, b) ∈ T -> p <> 0 -> exists cb, cbs g !! (pid, p) = Some cb /\ hostHandle cb = b))
    (guest_new L) s.
Proof.
  intros Hs Hl. eapply wp_mono.
  - apply do_all_ok; [|exact Hl]. split; [apply guest_new_ok|]. intros b _. by rewrite Hs.
  - intros T g s' [Hg Hr]. split; [done|apply (gk_token g T Hg)].
Qed.
End operations.

(** ** An example *)

(** Android's numbers. *)
Definition aosp : Android := {|
  GRALLOC_USAGE_SW_READ_MASK := 0xF;
  GRALLOC_USAGE_SW_WRITE_MASK := 0xF0;
  GRALLOC_USAGE_HW_TEXTURE := 0x100;
  GRALLOC_USAGE_HW_RENDER := 0x200;
  GRALLOC_USAGE_HW_2D := 0x400;
  GRALLOC_USAGE_HW_COMPOSER := 0x800;
  GRALLOC_USAGE_HW_FB := 0x1000;
  GRALLOC_USAGE_HW_VIDEO_ENCODER := 0x10000;
  GRALLOC_USAGE_HW_CAMERA_WRITE := 0x20000;
  GRALLOC_USAGE_HW_CAMERA_READ := 0x40000;
  GRALLOC_USAGE_HW_CAMERA_ZSL := 0x60000;
  GRALLOC_USAGE_HW_CAMERA_MASK := 0x60000;
  HAL_PIXEL_FORMAT_RGBA_8888 := 1;
  HAL_PIXEL_FORMAT_RGBX_8888 := 2;
  HAL_PIXEL_FORMAT_RGB_888 := 3;
  HAL_PIXEL_FORMAT_RGB_565 := 4;
  HAL_PIXEL_FORMAT_BGRA_8888 := 5;
  HAL_PIXEL_FORMAT_RAW16 := 0x20;
  HAL_PIXEL_FORMAT_Y16 := 0x20363159;
  HAL_PIXEL_FORMAT_BLOB := 0x21;
  HAL_PIXEL_FORMAT_YCrCb_420_SP := 0x11;
  HAL_PIXEL_FORMAT_YV12 := 0x32315659;
  HAL_PIXEL_FORMAT_IMPLEMENTATION_DEFINED := 0x22;
  HAL_PIXEL_FORMAT_YCbCr_420_888 := 0x23;
  GRALLOC_HARDWARE_GPU0 := "gpu0";
  GRALLOC_HARDWARE_FB0 := "fb0"
|}.

Definition above (X : gset Z) : Z := 1 + foldr Z.max 0 (elements X).

Lemma above_fresh X : above X ∉ X /\ 0 < above X.
Proof.
  assert (Hmax : forall l : list Z, 0 <= foldr Z.max 0 l /\ forall x, x ∈ l -> x <= foldr Z.max 0 l).
  { induction l as [|y l [IH0 IH]]; cbn; [split; [done|]; intros x Hx; by apply elem_of_nil in Hx|].
    split; [lia|]. intros x Hx. apply elem_of_cons in Hx as [->|Hx]; [lia|]. specialize (IH x Hx). lia. }
  destruct (Hmax (elements X)) as [H0 Hle]. unfold above. split; [|lia]. intros Hin.
  apply elem_of_elements, Hle in Hin. lia.
Qed.

Lemma above_fd X : above X ∉ X /\ 0 <= above X.
Proof. destruct (above_fresh X). split; [done|lia]. Qed.

Definition simple_kernel : Kernel := {|
  new_fd := above; new_address := above; new_fd_fresh := above_fd; new_address_fresh := above_fresh
|}.

(** A host with room for two color buffers, all black. *)
Definition two_buffers (c : rc_call) (s : Z -> Z) : list bytes * (Z -> Z) :=
  match c with
  | CreateColorBuffer _ _ _ =>
      let b := if s 1 =? 0 then 1 else if s 2 =? 0 then 2 else 0 in
      ([word b], fun b' => s b' + (if bool_decide (b <> 0 /\ b' = b) then 1 else 0))
  | OpenColorBuffer2 b => ([word 0], fun b' => s b' + (if b' =? b then 1 else 0))
  | CloseColorBuffer b => ([], fun b' => s b' - (if b' =? b then 1 else 0))
  | ReadColorBuffer _ _ _ w h f t => ([Some <$> replicate (Z.to_nat (size_pixels w h f t)) 0], s)
  | _ => ([word 0], s)
  end.

#[export, refine] Instance two_buffers_host : RenderHost two_buffers := {| host_refs := fun s => s; host_ready := fun _ => True |}.
Proof.
  - intros w h f s _. cbn. eexists. split; [|split; [reflexivity|split; [|reflexivity]]];
      repeat case_match; unfold in_u; lia.
  - done.
  - done.
  - intros. by exists 0.
  - intros b x y w h f t s. eexists. split; [reflexivity|]. split; [|done]. apply zlen_replicate.
    pose proof (size_pixels_range w h f t) as Hr. unfold in_u in Hr. lia.
  - done.
  - done.
  - intros. by exists 0.
Defined.

(** Process 1 allocates a texture and sends it to process 2, which has it for a while. *)
Definition a_texture_passed : list cmd := [
  Open 1 true "gpu0"; Alloc 1 true 1 4 2 1 0x100; Copy 1 2 2; Register 2 false 1; Register 2 true 1;
  Unlock 2 true 1; Unregister 2 true 1; Forget 2 1; Free 1 true 1 2].

(** The same with a buffer of 4 by 2 pixels in shared memory, of which process 2 draws two. *)
Definition a_buffer_drawn : list cmd := [
  Open 1 true "gpu0"; Alloc 1 true 1 4 2 1 0x130; Copy 1 2 2; Register 2 true 1;
  Lock 2 true 1 0x30 1 1 2 1; Draw 2 1 20 [1; 2; 3; 4; 5; 6; 7; 8]; Unlock 2 true 1;
  Unregister 2 true 1; Forget 2 1; Free 1 true 1 2].

Ltac next_state :=
  match goal with |- match ?r with _ => _ end =>
    let v := eval vm_compute in r in change r with v; cbv beta iota
  end.

Section example.
#[local] Existing Instance aosp.
#[local] Existing Instance simple_kernel.

Lemma gralloc_history_witness :
  wp two_buffers (do_all a_texture_passed [])
    (fun T _ s => forall b, b <> 0 -> s b = count b T) (guest_new []) (fun _ => 0).
Proof.
  eapply wp_mono.
  - apply (gralloc_history a_texture_passed [] (fun _ => 0)); [done|]. unfold a_texture_passed.
    split; [exact I|split; [done|next_state]].
    split; [split; [by eexists|lia]|split; [done|next_state]].
    split; [eexists; by split|split; [done|next_state]].
    split; [eexists; by split|split; [done|next_state]].
    split; [eexists; by split|split; [done|next_state]].
    split; [eexists; split; [reflexivity|by left]|split; [done|next_state]].
    split; [eexists; split; [reflexivity|split; [by left|intros [Hlk _]; by vm_compute in Hlk]]|split; [done|next_state]].
    split; [split; [by eexists|split]|split; [done|next_state]].
    { intros b Hb. apply list_elem_of_singleton in Hb. done. }
    { intros d l Hl. apply elem_of_map_to_list in Hl. vm_compute in Hl. by apply list_elem_of_singleton in Hl. }
    split; [eexists _, _; split; [reflexivity|split; [reflexivity|split; [by left|reflexivity]]]|split; [done|next_state]].
    exact I.
  - intros T g s [Hs _]. exact Hs.
Defined.

Definition result (cs : list cmd) : option (list token * list (Z * Z * cb_handle) * Z) :=
  match run_with two_buffers (do_all cs [] (guest_new [])) (fun _ => 0) with
  | (Value T g, s) => Some (T, map_to_list (cbs g), s 1)
  | _ => None
  end.

Lemma buffer_drawn_result : result a_buffer_drawn = Some ([], [], 0).
Proof. vm_compute. reflexivity. Qed.

(** A copy that goes back to the process whose registered handle it is of is not mapped
    when it is registered: the mapping is the other's, and is gone with it. *)
Lemma copy_sent_back_dangles :
  let shared := [Open 1 true "gpu0"; Alloc 1 true 1 4 2 1 0x130; Register 1 true 2; Copy 1 2 1; Register 1 true 5;
    Draw 1 5 0 [1]] in
  is_Some (result shared) /\ is_Some (result (shared ++ [Unregister 1 true 2])) /\
  result (shared ++ [Unregister 1 true 2; Draw 1 5 0 [1]]) = None.
Proof. split; [|split]; [vm_compute; by eexists|vm_compute; by eexists|vm_compute; reflexivity]. Qed.

(** A buffer that is registered where it was allocated loses its memory with the
    registration, though it is still allocated: it can no longer be locked. *)
Lemma unregister_unmaps_allocation :
  match run_with two_buffers (do_all [Open 1 true "gpu0"; Alloc 1 true 1 4 2 1 0x130; Register 1 true 2;
    Unregister 1 true 2] [] (guest_new [])) (fun _ => 0) with
  | (Value T g, s) => s 1 = 1 /\
      match run_with two_buffers (gralloc_lock 1 true None 2 0x30 0 0 4 2 g) s with
      | (Value r _, _) => r = (- EACCES, None)
      | _ => False
      end
  | _ => False
  end.
Proof. vm_compute. split; reflexivity. Qed.
End example.
