(* ===== verification/GrallocImage.v ===== *)
(** * Images in graphics memory

    What an allocation reserves holds the image it is for ([image_fits]), and unlocking a
    buffer sends the host the rectangle that was locked ([unlock_sends_region]).  Two
    places where the pointers do not agree: a buffer for the frame buffer has four bytes
    before its image, of which a lock makes eight. *)

From S2P Require Import Prelude Utils Gl RenderThread Checksum GuestStream RenderControlEnc Decoder Remote GuestCode Gralloc GrallocState GrallocHistory.

(** ** Sizes *)

Lemma aligned_spec x n : 0 <= n -> 0 <= x -> x + (2 ^ n - 1) < 2 ^ 31 ->
  aligned x (2 ^ n) = (x + (2 ^ n - 1)) / 2 ^ n * 2 ^ n.
Proof.
  intros Hn Hx Hlt. unfold aligned. rewrite wraps_id by (unfold in_s; lia).
  change (Z.land ?a (Z.lnot ?b)) with (Z.land a (Z.lnot b)). rewrite <- Z.ldiff_land.
  replace (2 ^ n - 1) with (Z.ones n) by (rewrite Z.ones_equiv; lia).
  rewrite Z.ldiff_ones_r, Z.shiftl_mul_pow2, Z.shiftr_div_pow2 by lia. done.
Qed.

Lemma aligned_bounds x n : 0 <= n -> 0 <= x -> x + (2 ^ n - 1) < 2 ^ 31 ->
  x <= aligned x (2 ^ n) < x + 2 ^ n /\ aligned x (2 ^ n) mod 2 ^ n = 0.
Proof.
  intros Hn Hx Hlt. rewrite aligned_spec by done. assert (0 < 2 ^ n) by lia.
  pose proof (Z.div_mod (x + (2 ^ n - 1)) (2 ^ n)). pose proof (Z.mod_pos_bound (x + (2 ^ n - 1)) (2 ^ n)).
  split; [lia|]. apply Z.mod_mul. lia.
Qed.

Section image.
Context `{HA : Android, HK : Kernel}.

(** The layouts: bytes of a pixel and the alignment of a row. *)
Lemma layouts u fmt y : format_layout u fmt = Some y ->
  (1 <= bpp y <= 4 /\ exists n, (n = 0 \/ n = 4 \/ n = 5) /\ align y = 2 ^ n) /\ (yuv_format y = true -> bpp y = 1).
Proof.
  unfold format_layout. intros Hy. repeat case_match; simplify_eq; cbn;
    (split; [split; [lia|]|done]);
    first [exists 0; split; [auto|done]|exists 4; split; [auto|done]|exists 5; split; [auto|done]].
Qed.

Definition for_software (u : Z) : bool :=
  has u GRALLOC_USAGE_SW_READ_MASK || has u GRALLOC_USAGE_SW_WRITE_MASK ||
  has u GRALLOC_USAGE_HW_CAMERA_WRITE || has u GRALLOC_USAGE_HW_VIDEO_ENCODER.

(** The space of the counter. *)
Definition counter_size (u : Z) : Z := if has u GRALLOC_USAGE_HW_FB then 4 else 0.

(** An image of reasonable size. *)
Definition sensible (w h : Z) : Prop := 0 <= w /\ 0 <= h /\ (w + 32) * (h + 1) * 4 + 8192 < 2 ^ 31.

Lemma row_bounds y w h u fmt : sensible w h -> format_layout u fmt = Some y ->
  let bpr := u64 (aligned (i32 (w * bpp y)) (align y)) in
  w * bpp y <= bpr < w * bpp y + 32 /\ (align y = 1 -> bpr = w * bpp y).
Proof.
  intros (Hw & Hh & Hlt) Hy. destruct (layouts u fmt y Hy) as [[Hb (n & Hn & Hal)] _].
  assert (Hpow : 1 <= 2 ^ n <= 32) by (destruct Hn as [-> |[-> | ->]]; lia). assert (0 <= n) by lia.
  assert (w * bpp y + 32 < 2 ^ 31) by nia. assert (0 <= w * bpp y) by nia.
  rewrite (wraps_id 32) by (unfold in_s; lia). rewrite Hal.
  destruct (aligned_bounds (w * bpp y) n) as [Hbd _]; [lia|lia|lia|].
  rewrite (wrapu_id 64) by (unfold in_u; lia). split; [lia|]. intros Hone. lia.
Qed.

(** The row of an image in bytes is a number of pixels. *)
Lemma row_pixels y w h u fmt : sensible w h -> format_layout u fmt = Some y ->
  u64 (aligned (i32 (w * bpp y)) (align y)) mod bpp y = 0.
Proof.
  intros Hs Hy. pose proof (row_bounds y w h u fmt Hs Hy) as [Hbd Hone]. destruct Hs as (Hw & Hh & Hlt).
  destruct (Z.eq_dec (align y) 1) as [Ha|Ha]; [rewrite Hone by done; apply Z.mod_mul; destruct (layouts u fmt y Hy) as [[? _] _]; lia|].
  assert (Hcase : bpp y = 1 \/ (bpp y = 2 /\ align y = 2 ^ 5)).
  { clear -Hy Ha. unfold format_layout in Hy. repeat case_match; simplify_eq; cbn in *; auto; by destruct Ha. }
  destruct Hcase as [-> |[Hb Hal]]; [apply Z.mod_1_r|]. rewrite Hal, Hb in *.
  rewrite (wraps_id 32 (w * 2)) by (unfold in_s; nia).
  destruct (aligned_bounds (w * 2) 5) as [Hbd' Hmod]; [lia|lia|nia|].
  rewrite (wrapu_id 64) by (unfold in_u; nia). apply Z.mod_divide in Hmod; [|lia]. destruct Hmod as [q ->].
  replace (q * 2 ^ 5) with (q * 2 ^ 4 * 2) by lia. apply Z.mod_mul. lia.
Qed.

Lemma page_bounds raw : 0 <= raw -> raw + 4095 < 2 ^ 31 ->
  raw <= aligned raw PAGE_SIZE < raw + 4096 /\ aligned raw PAGE_SIZE mod PAGE_SIZE = 0.
Proof. intros H0 Hlt. apply (aligned_bounds raw 12); lia. Qed.


(** The planes that [gralloc_lock_ycbcr] tells of, for an even width. *)
Lemma planes_fit u y w h out :
  bpp y = 1 -> align y = 1 -> yuv_format y = true -> for_software u = true -> sensible w h -> w mod 2 = 0 ->
  let size := aligned (image_size y w h u).1 PAGE_SIZE in
  0 <= out < w * (h / 2) -> counter_size u + w * h + out < size.
Proof.
  intros Hb Ha Hyuv Hsw (Hw & Hh & Hlt) Hev. unfold image_size. fold (for_software u) (counter_size u).
  rewrite Hsw, Hyuv, Hb, Ha. cbn [fst]. intros Hout.
  assert (Hc : 0 <= counter_size u <= 4) by (unfold counter_size; case_match; lia).
  assert (Hw31 : w < 2 ^ 30) by (clear -Hw Hh Hlt; nia). assert (Hh31 : h < 2 ^ 30) by (clear -Hw Hh Hlt; nia).
  assert (Hal : aligned (i32 (w * 1)) 1 = w).
  { rewrite (wraps_id 32) by (unfold in_s; lia). change 1 with (2 ^ 0) at 2. rewrite aligned_spec by lia.
    change (2 ^ 0) with 1. rewrite Z.div_1_r. lia. }
  rewrite Hal. rewrite (wrapu_id 64 w), (wrapu_id 64 h), Z.quot_div_nonneg by (unfold in_u; lia).
  change (Z.lnot (1 - 1)) with (-1). change (u64 (-1)) with (2 ^ 64 - 1).
  assert (Hh2 : 0 <= w / 2 < 2 ^ 30) by (split; [apply Z.div_pos|apply Z.div_lt_upper_bound]; lia).
  assert (Hh3 : 0 <= h / 2 < 2 ^ 30) by (split; [apply Z.div_pos|apply Z.div_lt_upper_bound]; lia).
  replace (w / 2 + (1 - 1)) with (w / 2) by lia.
  rewrite (wrapu_id 64 (w / 2)), (wrapu_id 64 (h / 2)) by (unfold in_u; lia).
  replace (2 ^ 64 - 1) with (Z.ones 64) by done. rewrite Z.land_ones, (Z.mod_small (w / 2)) by lia.
  assert (Hhalf : w = 2 * (w / 2)) by (pose proof (Z.div_mod w 2); lia).
  replace (2 * (h / 2 * (w / 2))) with (w * (h / 2)) by lia.
  assert (Hsum : w * h + w * (h / 2) + 8192 < 2 ^ 31).
  { assert (w * (h / 2) <= w * h) by (apply Z.mul_le_mono_nonneg_l; [lia|apply Z.div_le_upper_bound; lia]).
    clear -H Hw Hh Hlt. nia. }
  assert (0 <= w * h) by nia.
  rewrite (wrapu_id 64), (wraps_id 32) by (unfold in_u, in_s; lia).
  destruct (page_bounds (counter_size u + (w * h + w * (h / 2)))) as [Hp _]; lia.
Qed.

(** ** What is sent *)

(** The bytes of the locked region, in rows, of an image that begins at [off]. *)
Definition region_bytes (off : Z) (cb : cb_handle) (m : list Z) : list Z :=
  let b := bytes_per_pixel cb in
  rows (Z.to_nat (lockedHeight cb)) m (off + lockedTop cb * (width cb * b) + lockedLeft cb * b)
    (lockedWidth cb * b) (width cb * b).

Lemma rows_block n : forall (m : list Z) src sl, 0 <= src -> 0 <= sl ->
  rows n m src sl sl = ztake (Z.of_nat n * sl) (zdrop src m).
Proof.
  induction n as [|n IH]; intros m src sl Hsrc Hsl; cbn [rows]; [by rewrite ztake_nonpos by lia|].
  rewrite IH, Nat2Z.inj_succ, Z.mul_succ_l, (Z.add_comm (_ * sl)), ztake_add, (zdrop_add src sl) by lia. done.
Qed.

(** C37: Unlocking a buffer sends its color buffer on the host exactly the rectangle that
    was locked, as the memory holds it, row by row, in one call, and forgets the lock; the
    rows are counted from four bytes on in a buffer for the frame buffer. *)
Theorem unlock_sends_region {S} (host : rc_call -> S -> list bytes * S) pid p cb g s :
  cbs g !! (pid, p) = Some cb -> p <> 0 -> valid_cb cb = true -> hostHandle cb <> 0 ->
  region_of cb -> locked cb -> roomy cb -> mapped cb ->
  backed pid (maps g) (regions g) (ashmemBase cb) (ashmemSize cb) ->
  wp host (gralloc_unlock pid true None p) (fun r g' s' =>
    r = 0 /\ regions g' = regions g /\
    cbs g' = <[(pid, p) := set_locked (lockedLeft cb) (lockedTop cb) 0 0 cb]> (cbs g) /\
    s' = (host (UpdateColorBuffer (hostHandle cb) (lockedLeft cb) (lockedTop cb) (lockedWidth cb) (lockedHeight cb)
                  (glFormat cb) (glType cb)
                  (Some (Some <$> region_bytes (if canBePosted cb then 4 else 0) cb
                                    (mapped_bytes pid g (ashmemBase cb))))) s).2) g s.
Proof.
  intros Hp p0 Hv Hz Hreg Hlk Hroomy Hm Hb. pose proof Hreg as (Hl & Ht & Hw & Hh & Hlw & Hth).
  destruct (region_copy_ok cb Hreg Hlk Hroomy) as [Hsize Hdst Hsrc Htop Hleft He].
  pose proof Hroomy as (Hroom & _). destruct (bytes_per_pixel_spec cb) as [Hk _].
  assert (Hwk : 0 <= width cb * bytes_per_pixel cb) by nia.
  assert (Htk : 0 <= lockedTop cb * (width cb * bytes_per_pixel cb)) by nia.
  assert (Hlk' : 0 <= lockedLeft cb * bytes_per_pixel cb) by nia.
  apply wp_bind. eapply wp_validate; [done..|]. cbn [negb]. apply wp_bind. eapply wp_get_cb; [done|].
  apply wp_bind. replace (hostHandle cb =? 0) with false by lia. cbn [negb]. fold (bytes_per_pixel cb).
  set (off := if canBePosted cb then 4 else 0) in *. assert (Hoff : 0 <= off) by (unfold off; case_match; lia).
  destruct ((lockedWidth cb <? width cb) || (lockedHeight cb <? height cb)) eqn:Hpart.
  - replace (i32 _ <? 0) with false by lia. cbv zeta. rewrite Hsrc, Hdst, Htop, Hleft.
    apply wp_bind, (wp_copy_rows _ _ _ _ (ashmemSize cb)).
    + intros _ _. rewrite Z2Nat.id by lia. split; [done|]. split; [done|]. split; [lia|].
      unfold off in *. destruct (canBePosted cb); lia.
    + apply wp_bind, wp_rc, wp_ret. cbn [Z.eqb negb]. by apply wp_bind, wp_setg, wp_ret.
  - apply orb_false_iff in Hpart as [Hpw Hph].
    assert (Hfull : lockedWidth cb = width cb /\ lockedHeight cb = height cb /\ lockedLeft cb = 0 /\ lockedTop cb = 0) by lia.
    destruct Hfull as (HW & HH & HL & HT). apply wp_bind. unfold load_pixels.
    replace (ashmemBase cb =? 0) with false by (unfold mapped in Hm; lia). cbn [andb].
    rewrite size_pixels_exact by (done || lia). apply wp_bind, (wp_load _ _ _ _ _ (ashmemSize cb)).
    { intros _. split; [done|]. unfold off in *. destruct (canBePosted cb); lia. }
    apply wp_ret, wp_bind, wp_rc, wp_ret. cbn [Z.eqb negb]. apply wp_bind, wp_setg, wp_ret.
    unfold region_bytes. rewrite HW, HH, HL, HT. rewrite rows_block by lia. rewrite Z2Nat.id by lia.
    replace (height cb * (width cb * bytes_per_pixel cb)) with (bytes_per_pixel cb * width cb * height cb) by lia.
    by replace (off + 0 * (width cb * bytes_per_pixel cb) + 0 * bytes_per_pixel cb) with off by lia.
Qed.
End image.

(** ** Examples *)

Section example.
#[local] Existing Instance aosp.
#[local] Existing Instance simple_kernel.


(** A host that writes down the calls. *)
Definition log (c : rc_call) (s : list rc_call) : list bytes * list rc_call := ([word 0], c :: s).

Definition small_cb (u : Z) : cb_handle :=
  set_hostHandle 7 (set_mapping 9 1 1 (setFd 3 (cb_handle_new 3 32 u 2 2 1 1 GL_RGBA GL_UNSIGNED_BYTE))).

(** One process with one buffer of 2 by 2 pixels, whose memory counts up. *)
Definition small_guest (cb : cb_handle) : Guest :=
  mkGuest {[ (1, 1) := cb ]} ∅ {[ (1, 3) := 1 ]} {[ (1, 9) := (1, 32) ]} {[ 1 := Z.of_nat <$> seq 0 32 ]} [].

Lemma unlock_sends_region_witness :
  wp log (gralloc_unlock 1 true None 1)
    (fun _ _ s => s = [UpdateColorBuffer 7 1 0 1 2 GL_RGBA GL_UNSIGNED_BYTE
                         (Some (Some <$> [4; 5; 6; 7; 12; 13; 14; 15]))])
    (small_guest (set_locked 1 0 1 2 (small_cb 0x30))) [].
Proof.
  set (cb := set_locked 1 0 1 2 (small_cb 0x30)). eapply wp_mono.
  - apply (unlock_sends_region log 1 1 cb (small_guest cb) []); [reflexivity|done|reflexivity|done|..].
    + repeat split; vm_compute; done.
    + split; vm_compute; done.
    + repeat split; vm_compute; done.
    + vm_compute. done.
    + exists 1, (Z.of_nat <$> seq 0 32). split; [reflexivity|]. split; [reflexivity|]. vm_compute. done.
  - intros r g s (_ & _ & _ & ->). reflexivity.
Defined.

(** A buffer for the frame buffer: a lock gives the address eight bytes in, of which four
    are reserved, and an unlock sends what is four bytes in.  The first pixel drawn
    arrives as the second. *)
Lemma posted_buffer_shifted :
  match run_with log ((r ← gralloc_lock 1 true None 1 0x30 0 0 2 2;
                       match r.2 with
                       | Some (a, off) => store_at 1 a off [101; 102; 103; 104] ;; gralloc_unlock 1 true None 1
                       | None => fault
                       end) (small_guest (small_cb 0x1030))) [] with
  | (Value _ _, UpdateColorBuffer _ _ _ _ _ _ _ (Some px) :: _) =>
      ztake 8 px = Some <$> [4; 5; 6; 7; 101; 102; 103; 104]
  | _ => False
  end.
Proof. vm_compute. reflexivity. Qed.

(** Where the four bytes and the image fill whole pages, reading the image back on a lock
    writes past the end of the memory. *)
Lemma posted_buffer_overflows :
  match run_with two_buffers (do_all [Open 1 true "gpu0"; Alloc 1 true 1 1023 1 1 0x1033] [] (guest_new []))
          (fun _ => 0) with
  | (Value T g, s) => fst <$> [run_with two_buffers (gralloc_lock 1 true None 2 0x3 0 0 1023 1 g) s] = [Fault]
  | _ => False
  end.
Proof. vm_compute. reflexivity. Qed.

(** The planes of an odd width are wider than what was reserved for them: 63 by 66 pixels
    fill their pages with 66 * 63 + 2 * 33 * 31 bytes; the last row of colors ends 33
    bytes further on. *)
Lemma odd_planes_overflow :
  let raw := (image_size (mkLayout 1 1 true 0 0) 63 66 0x20003).1 in
  raw = 66 * 63 + 2 * (33 * 31) /\ 63 * 66 + 33 * 63 - raw = 33.
Proof. vm_compute. split; reflexivity. Qed.

(** A registration whose mapping fails has counted on the host, and nobody counts back:
    the color buffer stays when its buffer is freed. *)
Lemma failed_registration_leaks :
  match run_with two_buffers (do_all [Open 1 true "gpu0"; Alloc 1 true 1 4 2 1 0x130; Copy 1 2 2; Register 2 true 1;
    Forget 2 1; Free 1 true 1 2] [] (guest_new [0; 0; 0; 12])) (fun _ => 0) with
  | (Value T g, s) => T = [(2, 0, 1)] /\ s 1 = 1
  | _ => False
  end.
Proof. vm_compute. split; reflexivity. Qed.
End example.
