(* ===== verification/Service.v ===== *)
(** * The daemon serves the guest's calls

    The functions that [initRenderControlContext] puts into the decoder's table
    (src/src/anbox/graphics/emugl/RenderControl.cpp) as the host of Remote.v: what the
    decoder of Decoder.v calls, with the arguments it unpacked and the buffers it made for
    the results, is RenderControl.v on the renderer of Renderer.v; the end of a frame goes
    on through LayerComposer.cpp (Composer.v) to the windows (NativeWindow.v).

    [guest_on_daemon]: a guest's calls get through to these functions. *)

From Stdlib Require Import SpecFloat Ascii.
From S2P Require Import Prelude Utils Floating Rect Composer Gl RendererConfig ColorBuffer RenderState Renderer RenderControl Wayland NativeWindow RenderThread Checksum GuestStream RenderControlEnc Decoder Remote.

(** ** The state *)

(** Which of the strategies the composer was made with. *)
Inductive Strategy := MultiWindow | SingleWindow.

(** What the composer asks the window manager: the window of a task, its frame and its
    native handle. *)
Record Desktop := mkDesktop {
  find_window_for_task : Z -> option Z;
  frame_of : Z -> Rect;
  native_handle : Z -> Z
}.

Record Daemon (D : Type) := mkDaemon {
  d_renderer : option (Frames D);
  d_display : DisplayInfo;
  d_composer : option Strategy;
  d_desktop : Desktop;
  d_layers : list Renderable
}.
Arguments mkDaemon {D}.
Arguments d_renderer {D}.
Arguments d_display {D}.
Arguments d_composer {D}.
Arguments d_desktop {D}.
Arguments d_layers {D}.

(** ** Bytes *)

(** A C string: what precedes the first zero; [None] without one. *)
Fixpoint c_string (l : list Z) : option string :=
  match l with
  | [] => None
  | b :: l => if b =? 0 then Some EmptyString else String (char_of b) <$> c_string l
  end.

(** An array of [int]s. *)
Fixpoint ints (l : list Z) : list Z :=
  match l with
  | a :: b :: c :: d :: l => i32 (le_value [a; b; c; d]) :: ints l
  | _ => []
  end.

Definition words_bytes (l : list Z) : list Z := concat (little_endian 4 <$> l).

(** ** The functions *)

Section service.
Context {D : Type} `{!Driver D}.

(** [string_split(text, ' ')]; the C library's tangent; the memory of the compositor. *)
Variable split : string -> list string.
Variable tan : spec_float -> spec_float.
Variable gbm : Gbm.

(** What is found in memory nobody wrote: in a buffer of a size, as an [int], as a byte. *)
Variable fresh : Daemon D -> Z -> list Z.
Variable indeterminate : Z.
Variable unwritten : Z.
Hypothesis fresh_size : forall d n, 0 <= n -> zlen (fresh d n) = n.

(** [None]: the process dies, or the thread never comes back. *)
Definition Run (A : Type) : Type := Daemon D -> option (A * Daemon D).

#[export] Instance Run_ret : MRet Run := fun A a d => Some (a, d).
#[export] Instance Run_bind : MBind Run := fun A B f m d =>
  match m d with Some (a, d) => f a d | None => None end.

Definition gone {A} : Run A := fun _ => None.
Definition getd {A} (f : Daemon D -> A) : Run A := fun d => Some (f d, d).

(** The part of the state that RenderControl.v is about. *)
Definition rc_view (d : Daemon D) : RC D :=
  @RenderControl.mkRC D (f_world <$> d_renderer d) (d_display d) (bool_decide (is_Some (d_composer d))) (d_layers d).

Definition rc_update (rc : RC D) (d : Daemon D) : Daemon D :=
  mkDaemon
    (match renderer rc, d_renderer d with Some w, Some f => Some (with_world w f) | _, r => r end)
    (d_display d) (d_composer d) (d_desktop d) (frame_layers rc).

Definition on_rc {A} (m : M (RC D) A) : Run A :=
  fun d => let '(a, rc) := m (rc_view d) in Some (a, rc_update rc d).

(** A function that may not return. *)
Definition on_rc_some {A} (m : M (RC D) (option A)) : Run A :=
  a ← on_rc m; match a with Some a => mret a | None => gone end.

(** A buffer of [n] bytes of which the first are written. *)
Definition filled (n : Z) (l : list Z) : Run (list Z) :=
  if n <? zlen l then gone else getd (fun d => l ++ zdrop (zlen l) (fresh d n)).

Definition int (z : Z) : list Z := little_endian 4 z.

(** What a string query leaves. *)
Definition text_reply (n : Z) (r : Z * option string) : Run (list (list Z)) :=
  b ← filled n (match r.2 with Some s => bytes_of s ++ [0] | None => [] end);
  mret [b; int r.1].

(** ** The end of a frame *)

Definition draw_all (calls : list (Z * Rect * list Renderable)) (f : Frames D) : option (Frames D) :=
  foldl (fun f '(w, rect, layers) =>
    f ← f;
    match draw_frame tan gbm w rect layers f with
    | (Some _, f) => Some f
    | (None, _) => None
    end) (Some f) calls.

(** [LayerComposer::submit_layers]; [None]: a null window. *)
Definition draw_calls (strategy : Strategy) (desk : Desktop) (rs : list Renderable) :
    option (list (Z * Rect * list Renderable)) :=
  let calls m := (fun '(w, rect, layers) => (native_handle desk w, rect, layers)) <$>
                 Composer.submit_layers (frame_of desk) m in
  match strategy with
  | MultiWindow => Some (calls (multi_window_process_layers (find_window_for_task desk) rs))
  | SingleWindow =>
      match single_window_process_layers (find_window_for_task desk) rs with
      | (Some w, layers) => Some (calls {[w := layers]})
      | (None, _) => None
      end
  end.

(** The composer, which is registered with the renderer it draws with. *)
Definition compose (rs : list Renderable) : Run unit :=
  fun d =>
    match d_composer d, d_renderer d with
    | None, _ => Some (tt, d)
    | Some strategy, Some f =>
        calls ← draw_calls strategy (d_desktop d) rs;
        f ← draw_all calls f;
        Some (tt, mkDaemon (Some f) (d_display d) (d_composer d) (d_desktop d) (d_layers d))
    | Some _, None => None
    end.

Definition post_all_layers_done : Run unit :=
  rs ← on_rc rcPostAllLayersDone;
  match rs with Some rs => compose rs | None => mret tt end.

(** ** The table *)

(** [attribs] is read up to its end mark, [configs] is a null pointer when its size is
    zero. *)
Definition choose_config (attribs : bytes) (attribs_size n configs_size : Z) : Run (list (list Z)) :=
  r ← on_rc_some (rcChooseConfig indeterminate (ints (default unwritten <$> attribs)) attribs_size
                    (negb (n =? 0)) configs_size);
  b ← filled n (words_bytes (default [] r.2));
  mret [b; int r.1].

Definition post_layer (name : bytes) (args : list Z) : Run (list (list Z)) :=
  match c_string (default unwritten <$> name), args with
  | Some s, [buffer; alpha; cl; ct; cr; cb; fl; ft; fr; fb] =>
      on_rc (rcPostLayer s buffer (f32_of_bits alpha) (i32 cl) (i32 ct) (i32 cr) (i32 cb)
               (i32 fl) (i32 ft) (i32 fr) (i32 fb)) ;;
      mret []
  | _, _ => gone
  end.

Definition returning (m : Run Z) : Run (list (list Z)) := z ← m; mret [int z].
Definition silent (m : Run unit) : Run (list (list Z)) := m ;; mret [].

Fixpoint scalar_values (l : list arg) : option (list Z) :=
  match l with
  | [] => Some []
  | Val z :: l => cons z <$> scalar_values l
  | _ => None
  end.

(** A function of scalars. *)
Definition on_scalars (f : list Z -> Run (list (list Z))) (l : list arg) : Run (list (list Z)) :=
  match scalar_values l with Some zs => f zs | None => gone end.

Definition fn1 (f : Z -> Run (list (list Z))) : list arg -> Run (list (list Z)) :=
  on_scalars (fun zs => match zs with [a] => f a | _ => gone end).
Definition fn2 (f : Z -> Z -> Run (list (list Z))) : list arg -> Run (list (list Z)) :=
  on_scalars (fun zs => match zs with [a; b] => f a b | _ => gone end).
Definition fn3 (f : Z -> Z -> Z -> Run (list (list Z))) : list arg -> Run (list (list Z)) :=
  on_scalars (fun zs => match zs with [a; b; c] => f a b c | _ => gone end).

Definition handlers : list (list arg -> Run (list (list Z))) := [
  on_scalars (fun _ => returning (mret rcGetRendererVersion));
  (fun l => match l with
    | [OutPtr major; OutPtr minor] =>
        v ← on_rc rcGetEGLVersion;
        a ← filled major (match v with Some (x, _) => int x | None => [] end);
        b ← filled minor (match v with Some (_, y) => int y | None => [] end);
        mret [a; b; int (match v with Some _ => 1 | None => 0 end)]
    | _ => gone end);
  (fun l => match l with
    | [Val name; OutPtr n; Val bufferSize] =>
        r ← on_rc (rcQueryEGLString split name true (i32 bufferSize)); text_reply n r
    | _ => gone end);
  (fun l => match l with
    | [Val name; OutPtr n; Val bufferSize] =>
        r ← getd (fun d => rcGetGLString split name true (i32 bufferSize) (rc_view d)); text_reply n r
    | _ => gone end);
  (fun l => match l with
    | [OutPtr n] =>
        f ← getd d_renderer;
        match f with
        | None => gone
        | Some f =>
            let r := rcGetNumConfigs (f_world f) in
            b ← filled n (int r.2); mret [b; int r.1]
        end
    | _ => gone end);
  (fun l => match l with
    | [Val bufSize; OutPtr n] =>
        f ← getd d_renderer;
        match f with
        | None => gone
        | Some f =>
            let r := rcGetConfigs bufSize true (f_world f) in
            b ← filled n (words_bytes r.2); mret [b; int r.1]
        end
    | _ => gone end);
  (fun l => match l with
    | [InPtr attribs; Val attribs_size; OutPtr n; Val configs_size] =>
        choose_config attribs attribs_size n configs_size
    | _ => gone end);
  fn1 (fun param => returning (getd (fun d => rcGetFBParam (i32 param) (rc_view d))));
  fn3 (fun config share glVersion => returning (on_rc_some (rcCreateContext config share glVersion)));
  fn1 (fun context => silent (on_rc (rcDestroyContext context)));
  fn3 (fun config width height => returning (on_rc_some (rcCreateWindowSurface config width height)));
  fn1 (fun windowSurface => silent (on_rc (rcDestroyWindowSurface windowSurface)));
  fn3 (fun width height internalFormat => returning (on_rc_some (rcCreateColorBuffer width height internalFormat)));
  fn1 (fun colorbuffer => silent (on_rc (rcOpenColorBuffer colorbuffer)));
  fn1 (fun colorbuffer => silent (on_rc (rcCloseColorBuffer colorbuffer)));
  fn2 (fun windowSurface colorBuffer => silent (on_rc (rcSetWindowColorBuffer windowSurface colorBuffer)));
  fn1 (fun windowSurface => returning (on_rc (rcFlushWindowColorBuffer windowSurface)));
  fn3 (fun context drawSurf readSurf => returning (on_rc (rcMakeCurrent context drawSurf readSurf)));
  fn1 (fun colorBuffer => silent (on_rc (rcFBPost colorBuffer)));
  fn1 (fun interval => silent (on_rc (rcFBSetSwapInterval (i32 interval))));
  fn1 (fun colorBuffer => silent (on_rc (rcBindTexture colorBuffer)));
  fn1 (fun colorBuffer => silent (on_rc (rcBindRenderbuffer colorBuffer)));
  fn3 (fun colorBuffer postCount forRead => returning (on_rc (rcColorBufferCacheFlush colorBuffer (i32 postCount) (i32 forRead))));
  (fun l => match l with
    | [Val colorBuffer; Val x; Val y; Val width; Val height; Val format; Val type; OutPtr n] =>
        r ← on_rc (rcReadColorBuffer colorBuffer (i32 x) (i32 y) (i32 width) (i32 height) format type);
        b ← filled n (default [] r); mret [b]
    | _ => gone end);
  (fun l => match l with
    | [Val colorBuffer; Val x; Val y; Val width; Val height; Val format; Val type; InPtr pixels] =>
        returning (on_rc (rcUpdateColorBuffer colorBuffer (i32 x) (i32 y) (i32 width) (i32 height)
                            format type (default unwritten <$> pixels)))
    | _ => gone end);
  fn1 (fun colorbuffer => returning (on_rc (rcOpenColorBuffer2 colorbuffer)));
  fn3 (fun context target buffer => returning (on_rc (rcCreateClientImage context target buffer)));
  fn1 (fun image => returning (on_rc (rcDestroyClientImage image)));
  on_scalars (fun _ => mret []);                                 (* rcSelectChecksumCalculator: [exec] *)
  on_scalars (fun _ => returning (mret rcGetNumDisplays));
  fn1 (fun display_id => returning (getd (fun d => rcGetDisplayWidth display_id (rc_view d))));
  fn1 (fun display_id => returning (getd (fun d => rcGetDisplayHeight display_id (rc_view d))));
  fn1 (fun display_id => returning (mret (rcGetDisplayDpiX display_id)));
  fn1 (fun display_id => returning (mret (rcGetDisplayDpiY display_id)));
  fn1 (fun display_id => returning (mret (rcGetDisplayVsyncPeriod display_id)));
  (fun l => match l with
    | InPtr name :: l => on_scalars (post_layer name) l
    | _ => gone end);
  on_scalars (fun _ => silent post_all_layers_done)
].

(** A call of the decoder.  The process that has died answers nothing; what stands here
    for its answer is not looked at. *)
Definition blank (opcode : Z) (l : list arg) : list (list Z) :=
  (fun n => replicate (Z.to_nat n) 0) <$>
    (out_sizes l ++ match rc_table opcode with
                    | Some e => if has_retval e then [4] else []
                    | None => []
                    end).

Definition exec (opcode : Z) (l : list arg) (w : option (Daemon D) * ChecksumCalculator) :
    list (list Z) * (option (Daemon D) * ChecksumCalculator) :=
  match w.1 ≫= fun d => f ← zlookup handlers (opcode - base_opcode); f l d with
  | Some (outs, d) =>
      (outs, (Some d,
              match l with
              | [Val protocol; Val _] =>
                  if opcode =? OP_rcSelectChecksumCalculator then (setVersion protocol w.2).2 else w.2
              | _ => w.2
              end))
  | None => (blank opcode l, (None, w.2))
  end.

(** ** What it leaves fits the buffers *)

Definition gives (sizes : list Z) (m : Run (list (list Z))) : Prop :=
  forall d outs d', m d = Some (outs, d') -> lengths outs = sizes.

Lemma gives_bind {A} sizes (m : Run A) f : (forall a, gives sizes (f a)) -> gives sizes (m ≫= f).
Proof.
  intros Hf d outs d'. unfold mbind, Run_bind. destruct (m d) as [[a d1]|]; [|done]. apply Hf.
Qed.
Lemma gives_ret sizes outs : lengths outs = sizes -> gives sizes (mret outs).
Proof. intros <- d ? d' [= <- <-]. done. Qed.
Lemma gives_gone sizes : gives sizes gone.
Proof. done. Qed.

Lemma gives_filled sizes n l f : 0 <= n ->
  (forall b, zlen b = n -> gives sizes (f b)) -> gives sizes (filled n l ≫= f).
Proof.
  intros Hn Hf d outs d'. unfold mbind, Run_bind, filled.
  destruct (Z.ltb_spec n (zlen l)); [done|]. unfold getd. apply Hf.
  pose proof (zlen_nonneg l). pose proof (fresh_size d n Hn). rewrite zlen_app, zlen_zdrop; lia.
Qed.

Lemma zlen_int z : zlen (int z) = 4.
Proof. apply zlen_little_endian. Qed.

Ltac gives_tac :=
  repeat first
    [ apply gives_ret; unfold lengths; cbn [fmap list_fmap]; rewrite ?zlen_int; congruence
    | apply gives_gone
    | apply gives_filled; [assumption|intros ? ?]
    | apply gives_bind; intros ?
    | progress case_match ].

Definition fits_entry (e : EntryPoint) (f : list arg -> Run (list (list Z))) : Prop :=
  forall l, vars e = arg_var <$> l -> Forall arg_ok l ->
    gives (out_sizes l ++ (if has_retval e then [4] else [])) (f l).

(** The arguments of an entry point are of the kinds it says. *)
Lemma arg_scalar l vs : Scalar :: vs = arg_var <$> l -> exists z l', l = Val z :: l' /\ vs = arg_var <$> l'.
Proof. destruct l as [|[z| |] l]; [done|intros [= ->]; eauto|done..]. Qed.
Lemma arg_in l vs : PointerIn :: vs = arg_var <$> l -> exists m l', l = InPtr m :: l' /\ vs = arg_var <$> l'.
Proof. destruct l as [|[|m|] l]; [done|done|intros [= ->]; eauto|done]. Qed.
Lemma arg_out l vs : PointerOut :: vs = arg_var <$> l -> exists n l', l = OutPtr n :: l' /\ vs = arg_var <$> l'.
Proof. destruct l as [|[| |n] l]; [done|done|done|intros [= ->]; eauto]. Qed.
Lemma arg_end l : [] = arg_var <$> l -> l = [].
Proof. by destruct l. Qed.

Ltac args_tac H :=
  repeat first
    [ apply arg_scalar in H as (? & ? & -> & H)
    | apply arg_in in H as (? & ? & -> & H)
    | apply arg_out in H as (? & ? & -> & H)
    | apply arg_end in H as -> ].

Lemma handlers_fit : Forall2 fits_entry rc_entries handlers.
Proof.
  unfold handlers, rc_entries, scalars.
  repeat (apply Forall2_cons; split).
  all: try apply Forall2_nil; try done.
  all: intros l Hl Ha; cbn in Hl; args_tac Hl;
    repeat (apply Forall_cons in Ha as [[? ?] Ha]); cbn -[int].
  all: unfold returning, silent, text_reply, choose_config, post_layer; gives_tac.
Qed.

Lemma lengths_blank l : Forall (fun n => 0 <= n) l ->
  lengths ((fun n => replicate (Z.to_nat n) 0) <$> l) = l.
Proof.
  unfold lengths. induction 1 as [|n l Hn _ IH]; [done|]. cbn [fmap list_fmap] in *.
  by rewrite zlen_replicate, IH.
Qed.

Lemma out_sizes_nonneg l : Forall arg_ok l -> Forall (fun n => 0 <= n) (out_sizes l).
Proof.
  induction 1 as [|[z|m|n] l Ha _ IH]; cbn [out_sizes]; try done. constructor; [apply Ha|done].
Qed.

Lemma exec_sizes opcode l w e :
  rc_table opcode = Some e -> vars e = arg_var <$> l -> Forall arg_ok l ->
  lengths (exec opcode l w).1 = out_sizes l ++ (if has_retval e then [4] else []).
Proof.
  intros He Hv Ha. unfold exec.
  destruct (w.1 ≫= _) as [[outs d']|] eqn:Hrun; cbn [fst].
  - destruct w as [[d|] k]; [|done]. cbn in Hrun.
    destruct (zlookup handlers (opcode - base_opcode)) as [f|] eqn:Hf; [|done]. cbn in Hrun.
    unfold rc_table, zlookup in *. case_decide; [|done].
    pose proof (Forall2_lookup_lr _ _ _ _ _ _ handlers_fit He Hf) as Hfit.
    by apply (Hfit l Hv Ha d outs d').
  - unfold blank. rewrite He. apply lengths_blank. apply Forall_app. split; [by apply out_sizes_nonneg|].
    destruct (has_retval e); repeat constructor; lia.
Qed.

Lemma exec_keeps opcode l d k :
  opcode <> OP_rcSelectChecksumCalculator -> (exec opcode l (d, k)).2.2 = k.
Proof.
  intros Hne. unfold exec. cbn [fst snd]. destruct (d ≫= _) as [[outs d']|]; [|done]. cbn [snd].
  rewrite (proj2 (Z.eqb_neq _ _) Hne). by repeat case_match.
Qed.

(** ** The guest's calls, on the daemon *)

Definition on_daemon (c : rc_call) (d : option (Daemon D)) : list bytes * option (Daemon D) :=
  let r := exec (op (remote c)) (args (remote c)) (d, checksum_new) in (cells (seen c r.1), r.2.1).

Lemma exec_checksum opcode l d k k' :
  (exec opcode l (d, k)).1 = (exec opcode l (d, k')).1 /\
  (exec opcode l (d, k)).2.1 = (exec opcode l (d, k')).2.1.
Proof. unfold exec. cbn [fst]. by destruct (d ≫= _) as [[outs d']|]. Qed.

Lemma run_on_daemon {R} (p : client R) : forall s,
  (run_direct exec p s).1 = (run_with on_daemon p (api_state s)).1 /\
  api_state (run_direct exec p s).2 = (run_with on_daemon p (api_state s)).2.
Proof.
  induction p as [r|p IH|c k IH]; intros s; [done|apply IH|]. cbn [run_direct run_with].
  assert (Hserved : api_state (served exec c s) = (on_daemon c (api_state s)).2).
  { unfold served, serve, on_daemon. cbn. apply exec_checksum. }
  assert (Hseen : cells (seen c (results exec (remote c) s)) = (on_daemon c (api_state s)).1).
  { unfold results, on_daemon. cbn. do 2 f_equal. apply exec_checksum. }
  rewrite <- Hserved, <- Hseen. apply IH.
Qed.

End service.

(** ** A guest on the toy driver

    The guest makes a color buffer, opens it, and asks for the version of EGL. *)
Definition toy_daemon : Daemon Toy :=
  mkDaemon (Some (example_frames toy_init)) (set_resolution 1280 720) (Some MultiWindow)
    (mkDesktop (fun _ => None) (fun _ => Empty) (fun w => w)) [].

Definition zeros (d : Daemon Toy) (n : Z) : list Z := replicate (Z.to_nat n) 0.

Definition toy_call : rc_call -> option (Daemon Toy) -> list bytes * option (Daemon Toy) :=
  on_daemon (fun s => [s]) example_tan (Planes 1) zeros 0 0.

Definition toy_exec : Z -> list arg -> option (Daemon Toy) * ChecksumCalculator ->
    list (list Z) * (option (Daemon Toy) * ChecksumCalculator) :=
  exec (fun s => [s]) example_tan (Planes 1) zeros 0 0.

Definition three_calls : client (list bytes) :=
  Call (CreateColorBuffer 640 480 0x1908) (fun ls =>
  match all_some (concat ls) with
  | Some l =>
      Call (OpenColorBuffer (le_value l)) (fun _ =>
      Call GetEGLVersion (fun ls => Done ls))
  | None => Done []
  end).

Definition toy_after : Daemon Toy := default toy_daemon (run_with toy_call three_calls (Some toy_daemon)).2.

Definition no_decoder {W} (l : bytes) (w : W) : Z * W := (0, w).

Lemma toy_results : (run_with toy_call three_calls (Some toy_daemon)).1 =
  [Some <$> [1; 0; 0; 0]; Some <$> [4; 0; 0; 0]; Some <$> [1; 0; 0; 0]].
Proof. by vm_compute. Qed.

