(* ===== verification/RendererTables.v ===== *)
(** * The renderer's tables

    What each function of Renderer.v leaves in the tables of handles: those that make or
    drop an object put in or take out one entry, the others keep every handle. *)

From S2P Require Import Prelude Gl RendererConfig TextureDraw ColorBuffer RenderState Renderer Handles Ownership Steps RenderThread.

Section tables.
Context {D : Type} `{HD : Driver D}.
Implicit Types (w : World D) (t : Tables).

(** ** Tables with room *)

(** The references to a color buffer; a handle is a 32-bit number. *)
Definition table_refs (t : Tables) (b : Z) : Z :=
  if (0 <=? b) && (b <? 2 ^ 32) then default 0 ((fun r => u32 (refcount r)) <$> m_colorbuffers t !! b) else 0.

(** The handles have not come round, and no count has. *)
Definition table_ready (t : Tables) : Prop :=
  0 <= s_nextHandle t < 2 ^ 32 - 1 /\
  (forall h, is_Some (m_contexts t !! h) -> h <= s_nextHandle t) /\
  (forall h, is_Some (m_windows t !! h) -> h <= s_nextHandle t) /\
  (forall h, is_Some (m_colorbuffers t !! h) -> h <= s_nextHandle t) /\
  (forall h, table_refs t h < 2 ^ 32 - 1).

Lemma genHandle_next (w : World D) :
  table_ready (w_tables w) ->
  genHandle w = (Some (s_nextHandle (w_tables w) + 1),
                 with_tables (set_next (s_nextHandle (w_tables w) + 1) (w_tables w)) w).
Proof.
  intros (Hn & Hc & Hw & _). unfold genHandle, gen_fuel. cbn [gen_loop].
  rewrite wrapu_id by (unfold in_u; lia).
  rewrite (proj2 (Z.eqb_neq _ _)) by lia.
  set (n := s_nextHandle (w_tables w) + 1).
  assert (H1 : m_contexts (w_tables w) !! n = None).
  { apply eq_None_not_Some. intros Hs. specialize (Hc _ Hs). lia. }
  assert (H2 : m_windows (w_tables w) !! n = None).
  { apply eq_None_not_Some. intros Hs. specialize (Hw _ Hs). lia. }
  by rewrite H1, H2.
Qed.

(** ** What the renderer does to its tables *)

Definition keeps_tables w w' : Prop := w_tables w' = w_tables w.

#[export] Instance keeps_tables_preorder : PreOrder keeps_tables.
Proof. split; [done|]. unfold keeps_tables. intros x y z H1 H2. congruence. Qed.

Lemma frame_keeps_tables {A} (m : M (World D) A) : respects frame m -> respects keeps_tables m.
Proof. intros Hm w. apply (Hm w). Qed.

Lemma modify_keeps_tables f : (forall w, w_tables (f w) = w_tables w) -> respects keeps_tables (modify f).
Proof. intros Hf w. apply Hf. Qed.

Lemma drop_context_keeps c : respects keeps_tables (drop_context c).
Proof. intros w. apply (drop_context_tables c w). Qed.
Lemma drop_surface_keeps c : respects keeps_tables (drop_surface c).
Proof. intros w. apply (drop_surface_tables c w). Qed.
Lemma drop_buffer_keeps c : respects keeps_tables (drop_buffer c).
Proof. intros w. apply (drop_buffer_tables c w). Qed.

Lemma upd_self_keeps f : respects keeps_tables (upd_self f).
Proof. by apply modify_keeps_tables. Qed.

Ltac keep :=
  repeat first
    [ apply respects_bind; [apply _| |intros ?]
    | apply respects_ret; apply _
    | apply respects_gets; apply _
    | apply respects_when; [apply _|]
    | apply drop_context_keeps | apply drop_surface_keeps | apply drop_buffer_keeps
    | apply upd_self_keeps
    | apply frame_keeps_tables, frame_make_current
    | apply frame_keeps_tables, frame_resize
    | apply modify_keeps_tables; done
    | progress case_match ].

Lemma ws_bind_keeps this c ty : respects keeps_tables (ws_bind this c ty).
Proof.
  intros w. unfold ws_bind. destruct (surfaces (w_heap w) !! this) as [s|]; [|done].
  match goal with |- keeps_tables w (snd (?m w)) => assert (Hm : respects keeps_tables m); [|apply (Hm w)] end.
  destruct ty; keep.
Qed.

Lemma bind_surfaces_keeps c d r : respects keeps_tables (bind_surfaces c d r).
Proof. unfold bind_surfaces. destruct d, r; keep; apply ws_bind_keeps. Qed.

Lemma bindContext_keeps c d r : respects keeps_tables (bindContext c d r).
Proof.
  unfold bindContext. apply respects_bind; [apply _|apply respects_gets, _|]. intros w0.
  destruct (resolve c d r w0) as [[[ctx draw] read]|]; [|apply respects_ret, _].
  unfold set_decoder. keep; apply bind_surfaces_keeps.
Qed.

Lemma setColorBuffer_keeps this s p b : respects keeps_tables (setColorBuffer this s p b).
Proof. unfold setColorBuffer. keep. Qed.

Lemma flushWindow_keeps h : respects keeps_tables (flushWindowSurfaceColorBuffer h).
Proof.
  unfold flushWindowSurfaceColorBuffer, flushColorBuffer, flush_attached. keep.
  apply frame_keeps_tables, respects_blit, _.
Qed.

Lemma bindToTexture_keeps h : respects keeps_tables (bindColorBufferToTexture h).
Proof. unfold bindColorBufferToTexture. keep. apply frame_keeps_tables, respects_bindToTexture, _. Qed.

(** The handles of the window are set anew, under the same handle. *)
Lemma setWindowSurface_tables h b w :
  w_tables (setWindowSurfaceColorBuffer h b w).2 = w_tables w \/
  exists x y, m_windows (w_tables w) !! h = Some y /\
    w_tables (setWindowSurfaceColorBuffer h b w).2 =
      mkTables (s_nextHandle (w_tables w)) (m_contexts (w_tables w)) (<[h := x]> (m_windows (w_tables w)))
        (m_colorbuffers (w_tables w)).
Proof.
  unfold setWindowSurfaceColorBuffer. rewrite 2!bind_run. cbn [gets fst snd].
  unfold find_window. destruct (m_windows (w_tables w) !! h) as [y|] eqn:Hy; [|by left]. cbn [mbind option_bind].
  destruct (surfaces (w_heap w) !! y.1) as [s|]; [|by left]. cbn [mbind option_bind].
  destruct (find_buffer b w) as [[pb bf]|]; [|by left]. right. exists (y.1, b), y. split; [done|].
  rewrite !bind_run. cbn [modify fst snd mret M_ret set_m_windows with_tables w_tables].
  by rewrite (setColorBuffer_keeps y.1 s pb bf w).
Qed.

(** ** Making *)

(** A new object has the next handle, or there is none. *)
Definition made (put : Z -> Tables -> Tables -> Prop) t t' (r : option Z) : Prop :=
  r = Some 0 /\ t' = t \/
  exists h, r = Some h /\ 0 < h < 2 ^ 32 /\ m_contexts t !! h = None /\ m_windows t !! h = None /\
    m_colorbuffers t !! h = None /\ put h t t'.

Lemma next_handle t : table_ready t ->
  let h := s_nextHandle t + 1 in
  0 < h < 2 ^ 32 /\ m_contexts t !! h = None /\ m_windows t !! h = None /\ m_colorbuffers t !! h = None.
Proof.
  intros (Hn & Hc & Hw & Hb & _) h. split; [lia|].
  split_and!; apply eq_None_not_Some; intros Hs; [apply Hc in Hs|apply Hw in Hs|apply Hb in Hs]; lia.
Qed.

Definition put_context_handle (h : Z) t t' : Prop :=
  exists p, t' = mkTables h (<[h := p]> (m_contexts t)) (m_windows t) (m_colorbuffers t).
Definition put_window_handle (h : Z) t t' : Prop :=
  exists p, t' = mkTables h (m_contexts t) (<[h := p]> (m_windows t)) (m_colorbuffers t).
Definition put_buffer_handle (h : Z) t t' : Prop :=
  exists p, t' = mkTables h (m_contexts t) (m_windows t) (<[h := mkRef p 1]> (m_colorbuffers t)).

Lemma genHandle_ready w : table_ready (w_tables w) ->
  let h := s_nextHandle (w_tables w) + 1 in
  (genHandle w).1 = Some h /\
  w_tables (genHandle w).2 = mkTables h (m_contexts (w_tables w)) (m_windows (w_tables w)) (m_colorbuffers (w_tables w)).
Proof. intros Hw h. by rewrite genHandle_next. Qed.

Lemma createRenderContext_tables c share gl2 w : table_ready (w_tables w) ->
  made put_context_handle (w_tables w) (w_tables (createRenderContext c share gl2 w).2) (createRenderContext c share gl2 w).1.
Proof.
  intros Hw. unfold createRenderContext. rewrite 2!bind_run. cbn [gets fst snd].
  destruct (config_get _ c) as [cfg|]; [|by left]. destruct (shared_context share w) as [sh|]; [|by left].
  rewrite bind_run. set (m := RenderContext_create _ _ _).
  assert (Ht : w_tables (m w).2 = w_tables w).
  { unfold m, RenderContext_create. destruct (eglCreateContext _ _ _ _) as [ctx d]. by case_match. }
  destruct (m w) as [[p|] w1]; cbn [fst snd] in *; [|by left].
  rewrite bind_run. rewrite <- Ht in *. destruct (genHandle_ready w1 Hw) as [H1 H2]. rewrite H1.
  destruct (next_handle (w_tables w1) Hw) as (Hr & Hn). right. exists (s_nextHandle (w_tables w1) + 1).
  rewrite !bind_run. cbn [modify fst snd mret M_ret upd_self with_self w_tables set_m_contexts with_tables]. rewrite H2.
  split; [done|]. split; [done|]. destruct Hn as (Hn1 & Hn2 & Hn3). split_and!; try done. by exists p.
Qed.

Lemma createWindowSurface_tables c x y w : table_ready (w_tables w) ->
  made put_window_handle (w_tables w) (w_tables (createWindowSurface c x y w).2) (createWindowSurface c x y w).1.
Proof.
  intros Hw. unfold createWindowSurface. rewrite bind_run. cbn [gets fst snd].
  destruct (config_get _ c) as [cfg|]; [|by left].
  rewrite bind_run. set (m := WindowSurface_create _ _ _).
  assert (Ht : w_tables (m w).2 = w_tables w).
  { unfold m, WindowSurface_create. rewrite bind_run.
    assert (Hres := frame_keeps_tables _ (frame_resize (mkWS 0 None None None 0 0 (mEglConfig cfg)) (u32 x) (u32 y)) w).
    unfold keeps_tables in Hres. destruct (resize _ _ _ w) as [[ok s] w1]. cbn [fst snd] in *. by destruct ok. }
  destruct (m w) as [[p|] w1]; cbn [fst snd] in *; [|by left].
  rewrite bind_run. rewrite <- Ht in *. destruct (genHandle_ready w1 Hw) as [H1 H2]. rewrite H1.
  destruct (next_handle (w_tables w1) Hw) as (Hr & Hn). right. exists (s_nextHandle (w_tables w1) + 1).
  rewrite !bind_run. cbn [modify fst snd mret M_ret upd_self with_self w_tables set_m_windows with_tables]. rewrite H2.
  split; [done|]. split; [done|]. destruct Hn as (Hn1 & Hn2 & Hn3). split_and!; try done. by eexists.
Qed.

Lemma createColorBuffer_tables pw ph f w : table_ready (w_tables w) ->
  made put_buffer_handle (w_tables w) (w_tables (createColorBuffer pw ph f w).2) (createColorBuffer pw ph f w).1.
Proof.
  intros Hw. unfold createColorBuffer. rewrite 2!bind_run. cbn [gets fst snd]. set (m := ColorBuffer_create _ _ _ _).
  assert (Ht : w_tables (m w).2 = w_tables w) by apply (frame_same_tables m (respects_create frame _ _ _ _) w).
  destruct (m w) as [[b|] w1]; cbn [fst snd] in *; [|by left].
  rewrite 3!bind_run. cbn [modify fst snd]. set (w2 := put_buffer _ b _).
  assert (Ht2 : w_tables w2 = w_tables w1) by done. rewrite <- Ht, <- Ht2 in *.
  destruct (genHandle_ready w2 Hw) as [H1 H2]. rewrite H1.
  destruct (next_handle (w_tables w2) Hw) as (Hr & Hn). right. exists (s_nextHandle (w_tables w2) + 1).
  rewrite bind_run. unfold put_colorbuffer. rewrite !bind_run. cbn [gets modify fst snd mret M_ret].
  split; [done|]. split; [done|]. destruct Hn as (Hn1 & Hn2 & Hn3). split_and!; try done.
  eexists. rewrite (drop_buffer_keeps _ _). cbn [set_m_colorbuffers with_tables w_tables]. by rewrite H2.
Qed.

(** ** Dropping *)

Lemma DestroyRenderContext_tables h w :
  w_tables (DestroyRenderContext h w).2 =
    mkTables (s_nextHandle (w_tables w)) (delete h (m_contexts (w_tables w))) (m_windows (w_tables w))
      (m_colorbuffers (w_tables w)).
Proof.
  unfold DestroyRenderContext, erase_context. rewrite !bind_run. cbn [gets modify fst snd].
  set (t := mkTables _ _ _ _). set (m := drop_context _). set (w1 := set_m_contexts _ w).
  assert (Hm : w_tables (m w1).2 = t) by apply (drop_context_keeps _ w1).
  by destruct (decide (m_contextSet (w_self (m w1).2) = ∅)).
Qed.

Lemma DestroyWindowSurface_tables h w :
  w_tables (DestroyWindowSurface h w).2 =
    mkTables (s_nextHandle (w_tables w)) (m_contexts (w_tables w)) (delete h (m_windows (w_tables w)))
      (m_colorbuffers (w_tables w)).
Proof.
  unfold DestroyWindowSurface, erase_window. rewrite bind_run. cbn [gets fst snd].
  destruct (m_windows (w_tables w) !! h) as [x|] eqn:Hx.
  2: { cbn. rewrite delete_id by done. by destruct (w_tables w). }
  rewrite !bind_run. cbn [gets modify fst snd].
  set (t := mkTables _ _ _ _). set (m := drop_surface _). set (w1 := set_m_windows _ w).
  assert (Hm : w_tables (m w1).2 = t) by apply (drop_surface_keeps _ w1).
  by destruct (decide (m_windowSet (w_self (m w1).2) = ∅)).
Qed.

(** A reference less of a buffer: no other handle goes. *)
Lemma closeColorBuffer_others h w :
  m_contexts (w_tables (closeColorBuffer h w).2) = m_contexts (w_tables w) /\
  m_windows (w_tables (closeColorBuffer h w).2) = m_windows (w_tables w).
Proof.
  unfold closeColorBuffer, unref_colorbuffer. rewrite bind_run. cbn [gets fst snd].
  destruct (m_colorbuffers (w_tables w) !! h) as [r|]; [|done]. rewrite bind_run. cbn [modify fst snd].
  destruct (u32 (refcount r - 1) =? 0); cbn [when]; [|done].
  unfold erase_colorbuffer. rewrite !bind_run. cbn [gets modify fst snd]. by rewrite (drop_buffer_keeps _ _).
Qed.
End tables.
