(* ===== verification/GuestBuffers.v ===== *)
(** * The guest's buffers on the daemon

    The allocator of the guest (Gralloc.v) with the renderer of the host behind it: the
    daemon of Service.v keeps what [RenderHost] promises, so that the references counted
    in [m_colorbuffers] are those of the guest's handles. *)

From Stdlib Require Import SpecFloat.
From S2P Require Import Prelude Utils Rect Gl TextureDraw ColorBuffer RenderState Renderer Handles Ownership Steps RendererTables RenderControl Wayland NativeWindow RenderThread Checksum GuestStream RenderControlEnc Decoder Remote Service GuestCode Gralloc GrallocState GrallocHistory.

(** ** Sizes in 32-bit words *)

Lemma wraps_shift w x q : wraps w (x + q * 2 ^ w) = wraps w x.
Proof.
  Transparent wraps. unfold wraps. Opaque wraps.
  replace (x + q * 2 ^ w + 2 ^ (w - 1)) with (x + 2 ^ (w - 1) + q * 2 ^ w) by ring. by rewrite Z_mod_plus_full.
Qed.

Lemma i32_u32_shift x : exists q, i32 (u32 x) = x + q * 2 ^ 32.
Proof.
  Transparent wraps wrapu. unfold wraps, wrapu. Opaque wraps wrapu.
  exists (- ((x mod 2 ^ 32 + 2 ^ (32 - 1)) / 2 ^ 32) - x / 2 ^ 32).
  pose proof (Z.div_mod x (2 ^ 32)). pose proof (Z.div_mod (x mod 2 ^ 32 + 2 ^ (32 - 1)) (2 ^ 32)). lia.
Qed.

Lemma i32_mul_words k x : i32 (k * i32 (u32 x)) = i32 (k * x).
Proof.
  destruct (i32_u32_shift x) as [q ->].
  replace (k * (x + q * 2 ^ 32)) with (k * x + k * q * 2 ^ 32) by ring. apply wraps_shift.
Qed.

Lemma u32_twice x : u32 (u32 x) = u32 x.
Proof. apply wrapu_id, wrapu_range. lia. Qed.

Lemma size_pixels_words w h f t : size_pixels (i32 (u32 w)) (i32 (u32 h)) (u32 f) (u32 t) = size_pixels w h f t.
Proof. unfold size_pixels, glUtilsPixelBitSize. by rewrite !u32_twice, !i32_mul_words. Qed.

Section daemon.
Context {D : Type} `{HD : Driver D}.
Variable split : string -> list string.
Variable tan : spec_float -> spec_float.
Variable gbm : Gbm.
Variable fresh : Daemon D -> Z -> list Z.
Variables indeterminate unwritten : Z.
Hypothesis fresh_size : forall d n, 0 <= n -> zlen (fresh d n) = n.

(** The driver reads no more pixels than it is asked for. *)
Hypothesis pixels_fit : forall d x y w h f t,
  zlen (glReadPixels d x y w h f t) <= size_pixels w h f t.

Let host := on_daemon split tan gbm fresh indeterminate unwritten.

Definition tables (d : Daemon D) : option Tables := (fun f => w_tables (f_world f)) <$> d_renderer d.

(** A daemon that has died is none with a count. *)
Definition daemon_refs (s : option (Daemon D)) (b : Z) : Z :=
  match s with
  | Some d => match tables d with Some t => table_refs t b | None => 0 end
  | None => -1
  end.

Definition daemon_ready (s : option (Daemon D)) : Prop :=
  match s with
  | Some d => match tables d with Some t => table_ready t | None => True end
  | None => True
  end.

(** ** The calls *)

Lemma refs_insert next t h r b' : in_u 32 h ->
  table_refs (mkTables next (m_contexts t) (m_windows t) (<[h := r]> (m_colorbuffers t))) b' =
    if b' =? h then u32 (refcount r) else table_refs t b'.
Proof.
  unfold table_refs, in_u. intros Hh. cbn. destruct (Z.eqb_spec b' h) as [->|Hne].
  - rewrite lookup_insert_eq. by replace ((0 <=? h) && (h <? 2 ^ 32)) with true by lia.
  - by rewrite lookup_insert_ne.
Qed.

(** A buffer with references is in the table. *)
Lemma refs_pos t b : 0 < table_refs t b ->
  in_u 32 b /\ exists r, m_colorbuffers t !! b = Some r /\ table_refs t b = u32 (refcount r).
Proof.
  unfold table_refs, in_u. destruct ((0 <=? b) && (b <? 2 ^ 32)) eqn:Hb; [|done]. intros Hpos. split; [lia|].
  destruct (m_colorbuffers t !! b) as [r|]; [by exists r|done].
Qed.

Lemma createColorBuffer_refs pw ph f (w : World D) :
  table_ready (w_tables w) ->
  exists b, (createColorBuffer pw ph f w).1 = Some b /\ in_u 32 b /\
    (b <> 0 -> table_refs (w_tables w) b = 0) /\
    forall b', table_refs (w_tables (createColorBuffer pw ph f w).2) b' =
      table_refs (w_tables w) b' + (if bool_decide (b <> 0 /\ b' = b) then 1 else 0).
Proof.
  intros Hw. destruct (createColorBuffer_tables pw ph f w Hw) as [[Hr Ht]|(h & Hr & Hh & _ & _ & Hb & p & Ht)].
  - exists 0. split; [done|]. split; [done|]. split; [done|]. intros b'. rewrite Ht.
    rewrite bool_decide_false by naive_solver. lia.
  - exists h. split; [done|]. split; [unfold in_u; lia|].
    assert (Hz : table_refs (w_tables w) h = 0) by (unfold table_refs; rewrite Hb; by case_match).
    split; [done|]. intros b'. rewrite Ht, refs_insert by (unfold in_u; lia). cbn [refcount].
    rewrite (wrapu_id 32 1) by done. destruct (Z.eqb_spec b' h) as [->|Hne].
    + rewrite bool_decide_true by (split; [lia|done]). lia.
    + rewrite bool_decide_false by naive_solver. lia.
Qed.

Lemma refs_delete t h b' : table_refs (mkTables (s_nextHandle t) (m_contexts t) (m_windows t)
    (delete h (m_colorbuffers t))) b' = if b' =? h then 0 else table_refs t b'.
Proof.
  unfold table_refs. cbn. destruct (Z.eqb_spec b' h) as [->|Hne];
    [rewrite lookup_delete_eq; by case_match|by rewrite lookup_delete_ne].
Qed.

Lemma openColorBuffer_refs b (w : World D) b' :
  table_ready (w_tables w) -> 0 < table_refs (w_tables w) b ->
  table_refs (w_tables (openColorBuffer b w).2) b' =
    table_refs (w_tables w) b' + (if b' =? b then 1 else 0).
Proof.
  intros (_ & _ & _ & _ & Hlt) Hpos. specialize (Hlt b). unfold openColorBuffer. rewrite bind_run. cbn [gets fst snd].
  destruct (refs_pos _ _ Hpos) as (Hrange & r & Hr & Hb). rewrite Hr.
  rewrite bind_run. cbn [modify fst snd mret M_ret set_m_colorbuffers with_tables w_tables].
  rewrite refs_insert by done. destruct (Z.eqb_spec b' b) as [->|]; [|lia]. cbn [refcount].
  rewrite <- wrapu_add_l, <- Hb, (wrapu_id 32 (table_refs _ _ + 1)) by (unfold in_u; lia). apply wrapu_id. unfold in_u. lia.
Qed.

Lemma closeColorBuffer_refs b (w : World D) b' :
  0 < table_refs (w_tables w) b ->
  table_refs (w_tables (closeColorBuffer b w).2) b' =
    table_refs (w_tables w) b' - (if b' =? b then 1 else 0).
Proof.
  intros Hpos. unfold closeColorBuffer, unref_colorbuffer. rewrite bind_run. cbn [gets fst snd].
  destruct (refs_pos _ _ Hpos) as (Hrange & r & Hr' & Hb). rewrite Hr'.
  pose proof (wrapu_range 32 (refcount r) ltac:(lia)) as Hr. unfold in_u in Hr.
  assert (Hn : u32 (refcount r - 1) = table_refs (w_tables w) b - 1).
  { unfold Z.sub at 1. rewrite <- wrapu_add_l, <- Hb. apply wrapu_id. unfold in_u. lia. }
  rewrite bind_run. cbn [modify fst snd]. rewrite Hn.
  set (w1 := set_m_colorbuffers _ w).
  assert (H1 : table_refs (w_tables w1) b' = if b' =? b then table_refs (w_tables w) b - 1 else table_refs (w_tables w) b').
  { unfold w1. cbn [set_m_colorbuffers with_tables w_tables]. rewrite refs_insert by done. cbn [refcount].
    by rewrite wrapu_id by (unfold in_u; lia). }
  destruct (Z.eqb_spec (table_refs (w_tables w) b - 1) 0) as [Hz|Hz]; cbn [when].
  - unfold erase_colorbuffer. rewrite !bind_run. cbn [gets modify fst snd].
    match goal with |- table_refs (w_tables (drop_buffer ?c ?w3).2) _ = _ =>
      destruct (drop_buffer_tables c w3) as [-> _] end.
    change (table_refs (mkTables (s_nextHandle (w_tables w1)) (m_contexts (w_tables w1)) (m_windows (w_tables w1))
      (delete b (m_colorbuffers (w_tables w1)))) b' = table_refs (w_tables w) b' - (if b' =? b then 1 else 0)).
    rewrite (refs_delete (w_tables w1)), H1. destruct (Z.eqb_spec b' b) as [->|]; lia.
  - change (table_refs (w_tables w1) b' = table_refs (w_tables w) b' - (if b' =? b then 1 else 0)). rewrite H1.
    destruct (Z.eqb_spec b' b) as [->|]; lia.
Qed.

(** Reading and drawing. *)
Lemma with_helper_result {A} (P : A -> Prop) (fail : A) (body : M (World D) A) w :
  P fail -> (forall w, P (body w).1) -> P (with_helper_context fail body w).1.
Proof.
  intros Hf Hb. unfold with_helper_context. rewrite bind_run. destruct (setupContext w) as [[] w1]; [|done].
  cbn [fst snd]. rewrite !bind_run. cbn. apply Hb.
Qed.

Lemma readColorBuffer_ok b x y pw ph f t (w : World D) :
  w_tables (readColorBuffer b x y pw ph f t w).2 = w_tables w /\
  zlen (default [] (readColorBuffer b x y pw ph f t w).1) <= size_pixels pw ph f t.
Proof.
  assert (H0 : 0 <= size_pixels pw ph f t) by apply size_pixels_range.
  unfold readColorBuffer. rewrite bind_run. cbn [gets fst snd].
  destruct (find_buffer b w) as [[p cb]|]; [|done]. rewrite bind_run. split.
  - rewrite bind_run. cbn [modify fst snd mret M_ret].
    apply (frame_same_tables _ (respects_readPixels frame cb x y pw ph f t) w).
  - rewrite bind_run. cbn [modify fst snd mret M_ret]. unfold readPixels.
    apply (with_helper_result (fun r => zlen (default [] r.1) <= size_pixels pw ph f t)); [done|].
    intros w1. rewrite bind_run. destruct (bindFbo _ _ w1) as [[ok fbo] w2]. cbn [fst snd].
    destruct ok; [|done]. rewrite bind_run. cbn [gets fst snd]. rewrite bind_run. cbn. apply pixels_fit.
Qed.

Lemma updateColorBuffer_tables b x y pw ph f t l (w : World D) :
  w_tables (updateColorBuffer b x y pw ph f t l w).2 = w_tables w.
Proof.
  unfold updateColorBuffer. rewrite bind_run. cbn [gets fst snd].
  destruct (find_buffer b w) as [[p cb]|]; [|done]. rewrite bind_run. cbn [snd mret M_ret].
  apply (frame_same_tables _ (respects_subUpdate frame cb x y pw ph f t l) w).
Qed.
(** ** A call on the daemon *)

Definition with_renderer (f : Frames D) (d : Daemon D) : Daemon D :=
  mkDaemon (Some f) (d_display d) (d_composer d) (d_desktop d) (d_layers d).

Lemma on_rc_renderer {A} (fail : A) (m : M (World D) A) (d : Daemon D) :
  on_rc (on_renderer fail m) d =
    match d_renderer d with
    | None => Some (fail, d)
    | Some f => Some ((m (f_world f)).1, with_renderer (with_world (m (f_world f)).2 f) d)
    end.
Proof.
  unfold on_rc, on_renderer, rc_view. cbn [renderer]. destruct d as [[f|] disp st desk ls]; cbn; [|done].
  by destruct (m (f_world f)).
Qed.

(** What the handler of a call does is what the call does. *)
Lemma on_daemon_handler c d f :
  zlookup (handlers split tan gbm fresh indeterminate unwritten) (op (remote c) - base_opcode) = Some f ->
  host c (Some d) = match f (args (remote c)) d with
                    | Some (outs, d) => (cells (seen c outs), Some d)
                    | None => (cells (seen c (blank (op (remote c)) (args (remote c)))), None)
                    end.
Proof.
  intros Hf. unfold host, on_daemon, exec. cbn [fst snd mbind option_bind]. rewrite Hf. cbn [mbind option_bind].
  by destruct (f _ d) as [[outs d']|].
Qed.

Lemma refs_with_renderer (d : Daemon D) f w b :
  d_renderer d = Some f ->
  daemon_refs (Some (with_renderer (with_world w f) d)) b = table_refs (w_tables w) b.
Proof. done. Qed.

Lemma refs_renderer (d : Daemon D) f b :
  d_renderer d = Some f -> daemon_refs (Some d) b = table_refs (w_tables (f_world f)) b.
Proof. intros Hf. unfold daemon_refs, tables. by rewrite Hf. Qed.

Lemma refs_no_renderer (d : Daemon D) b : d_renderer d = None -> daemon_refs (Some d) b = 0.
Proof. intros Hf. unfold daemon_refs, tables. by rewrite Hf. Qed.
Lemma create_refs w h f s : daemon_ready s -> exists b,
  in_u 32 b /\ (host (CreateColorBuffer w h f) s).1 = [word b] /\ (b <> 0 -> daemon_refs s b = 0) /\
  forall b', daemon_refs (host (CreateColorBuffer w h f) s).2 b' =
    daemon_refs s b' + (if bool_decide (b <> 0 /\ b' = b) then 1 else 0).
Proof.
  intros Hs. destruct s as [d|].
  2: { exists 0. split; [done|]. split; [done|]. split; [done|]. intros b'.
       by rewrite bool_decide_false by naive_solver. }
  rewrite (on_daemon_handler (CreateColorBuffer w h f) d (fn3 (fun pw ph pf =>
    returning (on_rc_some (rcCreateColorBuffer pw ph pf))))) by done.
  cbn [remote args]. unfold fn3, on_scalars. cbn [scalar_values fmap option_fmap option_map].
  unfold returning, on_rc_some, rcCreateColorBuffer, creating, mbind, Run_bind. rewrite on_rc_renderer.
  unfold daemon_ready, tables in Hs. destruct (d_renderer d) as [fr|] eqn:Hd; cbn in Hs.
  - destruct (createColorBuffer_refs (i32 (u32 w)) (i32 (u32 h)) (u32 f) (f_world fr) Hs)
      as (b & Hb & Hr & Hnew & Hrefs).
    rewrite Hb. exists b. split; [done|]. split; [done|].
    split; [intros Hne; rewrite (refs_renderer d fr) by done; by apply Hnew|].
    intros b'. rewrite (refs_renderer d fr) by done. apply Hrefs.
  - exists 0. split; [done|]. split; [done|]. split; [done|]. intros b'.
    rewrite bool_decide_false by naive_solver. by rewrite Z.add_0_r.
Qed.

Lemma open_refs b s b' : daemon_ready s -> 0 < daemon_refs s b ->
  daemon_refs (host (OpenColorBuffer2 b) s).2 b' = daemon_refs s b' + (if b' =? b then 1 else 0).
Proof.
  intros Hs Hpos. destruct s as [d|]; [|done].
  rewrite (on_daemon_handler (OpenColorBuffer2 b) d (fn1 (fun h => returning (on_rc (rcOpenColorBuffer2 h))))) by done.
  cbn [remote args]. unfold fn1, on_scalars. cbn [scalar_values fmap option_fmap option_map].
  unfold returning, rcOpenColorBuffer2, mbind, Run_bind. rewrite on_rc_renderer.
  unfold daemon_ready, tables in Hs. destruct (d_renderer d) as [fr|] eqn:Hd.
  2: { rewrite refs_no_renderer in Hpos by done. lia. }
  rewrite (refs_renderer d fr) in Hpos by done. rewrite (refs_renderer d fr) by done.
  rewrite (wrapu_id 32 b) by apply (refs_pos _ _ Hpos). by apply openColorBuffer_refs.
Qed.

Lemma close_refs b s b' : 0 < daemon_refs s b ->
  daemon_refs (host (CloseColorBuffer b) s).2 b' = daemon_refs s b' - (if b' =? b then 1 else 0).
Proof.
  intros Hpos. destruct s as [d|]; [|done].
  rewrite (on_daemon_handler (CloseColorBuffer b) d (fn1 (fun h => silent (on_rc (rcCloseColorBuffer h))))) by done.
  cbn [remote args]. unfold fn1, on_scalars. cbn [scalar_values fmap option_fmap option_map].
  unfold silent, rcCloseColorBuffer, mbind, Run_bind. rewrite on_rc_renderer.
  destruct (d_renderer d) as [fr|] eqn:Hd.
  2: { rewrite refs_no_renderer in Hpos by done. lia. }
  rewrite (refs_renderer d fr) in Hpos by done. rewrite (refs_renderer d fr) by done.
  rewrite (wrapu_id 32 b) by apply (refs_pos _ _ Hpos). by apply closeColorBuffer_refs.
Qed.

(** A call that does not touch the tables. *)
Definition same_counts (s s' : option (Daemon D)) : Prop := forall b', daemon_refs s' b' = daemon_refs s b'.

Lemma flush_answer b n r s : exists z, in_u 32 z /\ (host (ColorBufferCacheFlush b n r) s).1 = [word z] /\
  same_counts s (host (ColorBufferCacheFlush b n r) s).2.
Proof.
  exists 0. split; [done|]. destruct s as [d|]; [|done].
  rewrite (on_daemon_handler (ColorBufferCacheFlush b n r) d (fn3 (fun c p f =>
    returning (on_rc (rcColorBufferCacheFlush c (i32 p) (i32 f)))))) by done.
  split; [done|]. intros b'. by destruct d as [[[]|] ? ? ? ?].
Qed.

Lemma read_answer b x y w h f t s : exists l,
  (host (ReadColorBuffer b x y w h f t) s).1 = [Some <$> l] /\ zlen l = size_pixels w h f t /\
  same_counts s (host (ReadColorBuffer b x y w h f t) s).2.
Proof.
  assert (Hn : 0 <= size_pixels w h f t) by apply size_pixels_range.
  destruct s as [d|].
  2: { eexists. split; [reflexivity|]. split; [by apply zlen_replicate|done]. }
  rewrite (on_daemon_handler (ReadColorBuffer b x y w h f t) d (fun l => match l with
    | [Val colorBuffer; Val x; Val y; Val width; Val height; Val format; Val type; OutPtr n] =>
        r ← on_rc (rcReadColorBuffer colorBuffer (i32 x) (i32 y) (i32 width) (i32 height) format type);
        b ← filled fresh n (default [] r); mret [b]
    | _ => gone end)) by done.
  cbn [remote args]. unfold rcReadColorBuffer, mbind, Run_bind, filled, getd, mret, Run_ret.
  rewrite !on_rc_renderer.
  destruct (d_renderer d) as [fr|] eqn:Hd.
  - destruct (readColorBuffer_ok (u32 b) (i32 (u32 x)) (i32 (u32 y)) (i32 (u32 w)) (i32 (u32 h)) (u32 f) (u32 t)
      (f_world fr)) as [Ht Hl]. rewrite size_pixels_words in Hl.
    destruct (readColorBuffer (u32 b) (i32 (u32 x)) (i32 (u32 y)) (i32 (u32 w)) (i32 (u32 h)) (u32 f) (u32 t)
      (f_world fr)) as [r w']. cbn [fst snd] in *.
    replace (size_pixels w h f t <? zlen (default [] r)) with false by lia.
    pose proof (zlen_nonneg (default [] r)).
    eexists. split; [reflexivity|]. split; [rewrite zlen_app, zlen_zdrop; rewrite fresh_size; lia|].
    intros b'. rewrite (refs_renderer d fr) by done. cbn [snd]. rewrite (refs_with_renderer d fr) by done.
    by rewrite Ht.
  - cbn [default]. change (zlen (@nil Z)) with 0. replace (size_pixels w h f t <? 0) with false by lia.
    eexists. split; [reflexivity|]. split; [|done]. cbn. rewrite zdrop_nonpos by lia. by apply fresh_size.
Qed.

Lemma update_counts b x y w h f t l s : same_counts s (host (UpdateColorBuffer b x y w h f t l) s).2.
Proof.
  destruct s as [d|]; [|done]. intros b'.
  rewrite (on_daemon_handler (UpdateColorBuffer b x y w h f t l) d (fun l => match l with
    | [Val colorBuffer; Val x; Val y; Val width; Val height; Val format; Val type; InPtr pixels] =>
        returning (on_rc (rcUpdateColorBuffer colorBuffer (i32 x) (i32 y) (i32 width) (i32 height)
                            format type (default unwritten <$> pixels)))
    | _ => gone end)) by done.
  cbn [remote args]. unfold returning, rcUpdateColorBuffer. unfold mbind at 1, Run_bind at 1. rewrite on_rc_renderer.
  destruct (d_renderer d) as [fr|] eqn:Hd; [|done].
  rewrite (refs_renderer d fr) by done. cbn [snd mret Run_ret]. rewrite bind_run.
  rewrite (refs_with_renderer d fr) by done. cbn [snd mret M_ret]. by rewrite updateColorBuffer_tables.
Qed.

Lemma post_counts b s : same_counts s (host (FBPost b) s).2.
Proof.
  destruct s as [d|]; [|done]. intros b'.
  rewrite (on_daemon_handler (FBPost b) d (fn1 (fun c => silent (on_rc (rcFBPost c))))) by done.
  by destruct d as [[[]|] ? ? ? ?].
Qed.

Lemma param_answer n s : exists z, in_u 32 z /\ (host (GetFBParam n) s).1 = [word z] /\
  same_counts s (host (GetFBParam n) s).2.
Proof.
  destruct s as [d|]; [|by exists 0].
  rewrite (on_daemon_handler (GetFBParam n) d (fn1 (fun param =>
    returning (getd (fun d => rcGetFBParam (i32 param) (rc_view d)))))) by done.
  exists (u32 (rcGetFBParam (i32 (u32 n)) (rc_view d))). split; [apply wrapu_range; lia|]. split; [|done].
  unfold word. by rewrite le4_wrap.
Qed.

(** The daemon keeps the promise of [RenderHost]. *)
#[export, refine] Instance daemon_host : RenderHost (on_daemon split tan gbm fresh indeterminate unwritten) :=
  {| host_refs := daemon_refs; host_ready := daemon_ready |}.
Proof.
  - apply create_refs.
  - apply open_refs.
  - apply close_refs.
  - apply flush_answer.
  - apply read_answer.
  - intros. apply update_counts.
  - intros. apply post_counts.
  - apply param_answer.
Defined.
End daemon.

(** ** The whole *)


(** *** A texture that is passed to another process *)

Definition new_daemon : Daemon Toy :=
  mkDaemon
    (Some (mkFrames
      (mkWorld toy_init (mkDisplay [] true 1 4 1 0 2 (mkTD 1 2 3 0 1 0 4 5)) (mkSaved 0 0 0)
         (mkTables 3 ∅ ∅ ∅) (mkHeap ∅ ∅ ∅ 1) info_new [])
      ∅ ∅ (mkProgram 501 0 0 1 2 3 4 5 (-1)) (mkProgram 502 0 0 1 2 3 4 5 6) 10))
    (set_resolution 1280 720) None (mkDesktop (fun _ => None) (fun _ => mkRect 0 0 0 0) (fun w => w)) [].

Lemma toy_pixels_fit : forall (d : Toy) x y w h f t, zlen (glReadPixels d x y w h f t) <= size_pixels w h f t.
Proof. intros. apply size_pixels_range. Qed.

Lemma zeros_size : forall (d : Daemon Toy) n, 0 <= n -> zlen (zeros d n) = n.
Proof. intros d n. apply zlen_replicate. Qed.

(** That a table is ready can be computed. *)
Definition table_ready_now (t : Tables) : bool :=
  let below {A} (m : gmap Z A) := forallb (fun x => x.1 <=? s_nextHandle t) (map_to_list m) in
  (0 <=? s_nextHandle t) && (s_nextHandle t <? 2 ^ 32 - 1) && below (m_contexts t) && below (m_windows t) &&
  below (m_colorbuffers t) && forallb (fun x => u32 (refcount x.2) <? 2 ^ 32 - 1) (map_to_list (m_colorbuffers t)).

Lemma table_ready_check t : table_ready_now t = true -> table_ready t.
Proof.
  assert (Hbelow : forall A (m : gmap Z A), forallb (fun x => x.1 <=? s_nextHandle t) (map_to_list m) = true ->
    forall h, is_Some (m !! h) -> h <= s_nextHandle t).
  { intros A m Hm h [x Hx]. apply elem_of_map_to_list, list_elem_of_In in Hx.
    rewrite forallb_forall in Hm. specialize (Hm _ Hx). cbn in Hm. lia. }
  unfold table_ready_now. rewrite !andb_true_iff. intros [[[[[H1 H2] Hc] Hw] Hb] Hr].
  split; [lia|]. split; [by apply Hbelow|]. split; [by apply Hbelow|]. split; [by apply Hbelow|].
  intros h. unfold table_refs. destruct (_ && _); [|done]. destruct (m_colorbuffers t !! h) as [r|] eqn:Hh; [|done].
  apply elem_of_map_to_list, list_elem_of_In in Hh. rewrite forallb_forall in Hr. specialize (Hr _ Hh). cbn in *. lia.
Qed.

Section example.
#[local] Existing Instance aosp.
#[local] Existing Instance simple_kernel.

Lemma new_daemon_empty : forall b, daemon_refs (Some new_daemon) b = 0.
Proof. intros b. unfold daemon_refs, new_daemon, tables, table_refs. cbn. by destruct (_ && _). Qed.


(** In between the texture is in the daemon's table, with a count of two. *)
Lemma texture_shared :
  (fun d => daemon_refs (Some d) 4) <$> (run_with toy_call (do_all (take 5 a_texture_passed) [] (guest_new [])) (Some new_daemon)).2
    = Some 2.
Proof. by vm_compute. Qed.
End example.
