(* ===== verification/Hwcomposer.v ===== *)
(** * The guest's composer

    [src/android/hwcomposer/hwcomposer.cpp]: what Android's SurfaceFlinger asks when a
    frame is put together.  [hwc_prepare] says which layers the composer takes,
    [hwc_set] sends them to the host.  The operations are computations of Gralloc.v, whose
    handles the layers have, and so programs of calls that Remote.v carries; Service.v
    runs them.  The constants of Android's header are the fields of a class. *)

From Stdlib Require Import SpecFloat Ascii.
From S2P Require Import Prelude Utils Floating Rect Composer Gl RenderState RenderControl Wayland NativeWindow RenderThread Checksum GuestStream RenderControlEnc Decoder Remote Service GuestCode Gralloc GrallocState GrallocHistory.

(** ** What SurfaceFlinger hands over *)

Class Hwc := {
  HWC_SKIP_LAYER : Z;
  HWC_IS_CURSOR_LAYER : Z;
  HWC_GEOMETRY_CHANGED : Z;
  HWC_FRAMEBUFFER : Z;
  HWC_OVERLAY : Z;
  HWC_BACKGROUND : Z;
  HWC_DISPLAY_NO_ATTRIBUTE : Z;
  HWC_DISPLAY_VSYNC_PERIOD : Z;
  HWC_DISPLAY_WIDTH : Z;
  HWC_DISPLAY_HEIGHT : Z;
  HWC_DISPLAY_DPI_X : Z;
  HWC_DISPLAY_DPI_Y : Z;
  HWC_HARDWARE_COMPOSER : string
}.

(** [hwc_layer_1_t]; the name is a C string. *)
Record hwc_layer := mkLayer1 {
  compositionType : Z;
  flags : Z;
  handle : Z;
  lname : list Z;
  planeAlpha : Z;
  sourceCrop : Rect;
  displayFrame : Rect;
  acquireFenceFd : Z;
  releaseFenceFd : Z
}.

Definition set_compositionType (t : Z) (l : hwc_layer) : hwc_layer :=
  mkLayer1 t (flags l) (handle l) (lname l) (planeAlpha l) (sourceCrop l) (displayFrame l)
    (acquireFenceFd l) (releaseFenceFd l).

Definition set_fences (acquire release : Z) (l : hwc_layer) : hwc_layer :=
  mkLayer1 (compositionType l) (flags l) (handle l) (lname l) (planeAlpha l) (sourceCrop l) (displayFrame l)
    acquire release.

(** [hwc_display_contents_1_t]; [numHwLayers] is the length. *)
Record hwc_display := mkHwcDisplay {
  retireFenceFd : Z;
  display_flags : Z;
  hwLayers : list hwc_layer
}.

(** An array of pointers, or a null pointer. *)
Definition Displays : Type := option (list (option hwc_display)).

Record HwcContext := mkHwc {
  framebuffer_visible : bool;
  first_overlay : Z;
  num_overlays : Z
}.

Definition EFAULT : Z := 14.

Section hwcomposer.
Context `{HA : Android} `{HK : Kernel} `{HC : Hwc}.

(** ** Preparing a frame *)

Definition overlaid (l : hwc_layer) : hwc_layer :=
  if (compositionType l =? HWC_OVERLAY) || (compositionType l =? HWC_FRAMEBUFFER)
  then set_compositionType HWC_OVERLAY l else l.

(** The loop: [i], whether it ended at a layer to be skipped, and the layers. *)
Fixpoint prepare_loop (fuel : nat) (i : Z) (layers : list hwc_layer) : Z * bool * list hwc_layer :=
  match fuel with
  | O => (i, false, layers)
  | S fuel =>
      let num_hw_layers := zlen layers in
      if num_hw_layers <=? i then (i, false, layers)
      else
        match zlookup layers (num_hw_layers - 1 - i) with
        | None => (i, false, layers)
        | Some layer =>
            if has (flags layer) HWC_SKIP_LAYER then (i, true, layers)
            else prepare_loop fuel (i + 1) (zinsert (num_hw_layers - 1 - i) (overlaid layer) layers)
        end
  end.

(** Sizes are [size_t]. *)
Definition hwc_prepare (context : HwcContext) (displays : Displays) : option (Z * HwcContext * Displays) :=
  match displays with
  | None | Some (None :: _) => Some (- EINVAL, context, displays)
  | Some [] => None
  | Some (Some d :: rest) =>
      if has (display_flags d) HWC_GEOMETRY_CHANGED then
        let num_hw_layers := zlen (hwLayers d) in
        let '(i, skip, layers) := prepare_loop (length (hwLayers d)) 1 (hwLayers d) in
        let visible := skip || (num_hw_layers =? 1) in
        Some (0, mkHwc visible (u64 (num_hw_layers - i)) (u64 (i - 1)),
              Some (Some (mkHwcDisplay (retireFenceFd d) (display_flags d) layers) :: rest))
      else Some (0, context, displays)
  end.

(** ** Sending a frame *)

Variable getpid : Z.
Variable hostCon : bool.

Fixpoint check_layer_fds (layers : list hwc_layer) : G (list hwc_layer) :=
  match layers with
  | [] => mret []
  | l :: layers =>
      (if 0 <=? acquireFenceFd l then close getpid (acquireFenceFd l) else mret tt) ;;
      let acquire := if 0 <=? acquireFenceFd l then -1 else acquireFenceFd l in
      let release := if 0 <=? releaseFenceFd l then -1 else releaseFenceFd l in
      layers ← check_layer_fds layers;
      mret (set_fences acquire release l :: layers)
  end.

(** The first [n] displays; a null pointer is followed. *)
Fixpoint check_sync_fds (n : nat) (displays : list (option hwc_display)) : G (list (option hwc_display)) :=
  match n, displays with
  | O, _ => mret displays
  | S n, Some d :: displays =>
      let retire := if 0 <=? retireFenceFd d then -1 else retireFenceFd d in
      layers ← check_layer_fds (hwLayers d);
      displays ← check_sync_fds n displays;
      mret (Some (mkHwcDisplay retire (display_flags d) layers) :: displays)
  | S _, _ => fault
  end.

(** The loop over the layers; [false]: an invalid handle. *)
Fixpoint post_layers (layers : list hwc_layer) : G bool :=
  match layers with
  | [] => mret true
  | l :: layers =>
      if has (flags l) HWC_SKIP_LAYER || has (flags l) HWC_IS_CURSOR_LAYER then post_layers layers
      else
        ok ← validate_handle getpid (handle l);
        if negb ok then mret false
        else
          cb ← get_cb getpid (handle l);
          rc (PostLayer (lname l) (hostHandle cb) (bits_of_f32 (f32 (planeAlpha l / 255)))
                (left (sourceCrop l)) (top (sourceCrop l)) (right (sourceCrop l)) (bottom (sourceCrop l))
                (left (displayFrame l)) (top (displayFrame l)) (right (displayFrame l)) (bottom (displayFrame l))) ;;
          flush_host ;;
          post_layers layers
  end.

Definition hwc_set (numDisplays : nat) (displays : Displays) : G (Z * Displays) :=
  match displays with
  | None | Some (None :: _) => mret (- EFAULT, displays)
  | Some [] => fault
  | Some (Some d :: rest) =>
      if negb hostCon then mret (- EIO, displays)
      else
        ok ← post_layers (hwLayers d);
        if negb ok then mret (- EINVAL, displays)
        else
          rc PostAllLayersDone ;;
          l ← check_sync_fds numDisplays (Some d :: rest);
          mret (0, Some l)
  end.

(** ** The rest of the device *)

Definition hwc_event_control (disp event enabled : Z) : Z := - EFAULT.
Definition hwc_blank (disp blank : Z) : Z := 0.
Definition hwc_query (what : Z) : Z := 0.

(** The result, what [configs] begins with if it is written, and [numConfigs]. *)
Definition hwc_get_display_configs (disp numConfigs : Z) : Z * option Z * Z :=
  if negb (disp =? 0) then (- EINVAL, None, numConfigs)
  else if 0 <? numConfigs then (0, Some 0, 1)
  else (0, None, numConfigs).

Definition int_of (c : rc_call) : G Z := z ← rc_int c; mret (i32 z).

(** The value for an attribute; [None]: it stays as it is. *)
Definition display_value (disp attribute : Z) : G (option Z) :=
  if attribute =? HWC_DISPLAY_VSYNC_PERIOD then z ← int_of (GetDisplayVsyncPeriod disp); mret (Some z)
  else if attribute =? HWC_DISPLAY_WIDTH then z ← int_of (GetDisplayWidth disp); mret (Some z)
  else if attribute =? HWC_DISPLAY_HEIGHT then z ← int_of (GetDisplayHeight disp); mret (Some z)
  else if attribute =? HWC_DISPLAY_DPI_X then z ← int_of (GetDisplayDpiX disp); mret (Some (i32 (1000 * z)))
  else if attribute =? HWC_DISPLAY_DPI_Y then z ← int_of (GetDisplayDpiY disp); mret (Some (i32 (1000 * z)))
  else mret None.

Fixpoint display_values (disp : Z) (attributes : list Z) : G (list (option Z)) :=
  match attributes with
  | [] => fault
  | a :: attributes =>
      if a =? HWC_DISPLAY_NO_ATTRIBUTE then mret []
      else v ← display_value disp a; vs ← display_values disp attributes; mret (v :: vs)
  end.

Definition hwc_get_display_attributes (disp config : Z) (attributes : list Z) : G (Z * list (option Z)) :=
  if negb (disp =? 0) || negb (config =? 0) then mret (- EINVAL, [])
  else if negb hostCon then mret (- EIO, [])
  else vs ← display_values disp attributes; mret (0, vs).

(** The context of the new device is what the memory held. *)
Definition hwc_device_open (name : string) (memory : HwcContext) : Z * option HwcContext :=
  if String.eqb name HWC_HARDWARE_COMPOSER then (0, Some memory) else (- EINVAL, None).
End hwcomposer.

(** ** The layers the composer takes *)

Section preparing.
Context `{HA : Android} `{HK : Kernel} `{HC : Hwc}.

Definition skipped (l : hwc_layer) : Prop := has (flags l) HWC_SKIP_LAYER = true.

(** What lies below a skipped layer, with it, and what lies above. *)
Definition cut_at_skip (below above : list hwc_layer) : Prop :=
  Forall (fun l => ~ skipped l) above /\
  (below = [] \/ exists below' l, below = below' ++ [l] /\ skipped l).

Lemma prepare_loop_ok pre : forall fuel done,
  (length pre <= fuel)%nat -> 0 < zlen done ->
  exists below above, pre = below ++ above /\ cut_at_skip below above /\
    prepare_loop fuel (zlen done) (pre ++ done) =
      (zlen done + zlen above, bool_decide (below <> []), below ++ (overlaid <$> above) ++ done).
Proof.
  induction pre as [|l pre IH] using rev_ind; intros fuel done Hfuel Hdone.
  - exists [], []. split; [done|]. split; [by split; [|left]|].
    destruct fuel as [|fuel]; cbn [prepare_loop app]; rewrite ?Z.leb_refl, Z.add_0_r; done.
  - rewrite length_app in Hfuel. cbn in Hfuel. destruct fuel as [|fuel]; [lia|]. cbn [prepare_loop].
    rewrite <- app_assoc. cbn [app]. pose proof (zlen_nonneg pre).
    replace (zlen (pre ++ l :: done) <=? zlen done) with false
      by (rewrite zlen_app, zlen_cons; lia).
    replace (zlen (pre ++ l :: done) - 1 - zlen done) with (zlen pre) by (rewrite zlen_app, zlen_cons; lia).
    assert (Hget : zlookup (pre ++ l :: done) (zlen pre) = Some l).
    { unfold zlookup, zlen. rewrite decide_True by lia. rewrite Nat2Z.id. by apply list_lookup_middle. }
    assert (Hput : zinsert (zlen pre) (overlaid l) (pre ++ l :: done) = pre ++ overlaid l :: done).
    { unfold zinsert, zlen. rewrite decide_True by lia. rewrite Nat2Z.id.
      rewrite <- (Nat.add_0_r (length pre)), insert_app_r. done. }
    rewrite Hget, Hput. destruct (has (flags l) HWC_SKIP_LAYER) eqn:Hs.
    + exists (pre ++ [l]), []. rewrite app_nil_r, Z.add_0_r, bool_decide_true by by destruct pre.
      split; [done|]. split; [split; [done|right; by exists pre, l]|]. by rewrite <- app_assoc.
    + destruct (IH fuel (overlaid l :: done)) as (below & above & -> & [Ha Hb] & Hrun);
        [lia|rewrite zlen_cons; lia|].
      rewrite zlen_cons, Z.add_comm in Hrun. rewrite Hrun. exists below, (above ++ [l]).
      split; [by rewrite <- app_assoc|]. split.
      * split; [|done]. apply Forall_app. split; [done|]. constructor; [|done]. unfold skipped. congruence.
      * rewrite zlen_app, fmap_app, <- !app_assoc. cbn. do 2 f_equal. unfold zlen. cbn. lia.
Qed.

(** C38: When a frame's geometry is new, the layers above the topmost layer to be skipped
    are taken as overlays, but for those of the background; no other layer changes, the
    numbers kept in the context are the range of those layers, and the framebuffer is
    visible if there is a skipped layer or nothing else to be seen. *)
Theorem hwc_prepare_takes context d rest :
  has (display_flags d) HWC_GEOMETRY_CHANGED = true -> hwLayers d <> [] -> zlen (hwLayers d) < 2 ^ 64 ->
  exists below above target, hwLayers d = below ++ above ++ [target] /\ cut_at_skip below above /\
    hwc_prepare context (Some (Some d :: rest)) =
      Some (0, mkHwc (bool_decide (below <> [] \/ above = [])) (zlen below) (zlen above),
            Some (Some (mkHwcDisplay (retireFenceFd d) (display_flags d)
                          (below ++ (overlaid <$> above) ++ [target])) :: rest)).
Proof.
  intros Hg Hne Hlt. destruct (exists_last Hne) as (pre & target & Hl). unfold hwc_prepare. rewrite Hg, Hl in *.
  destruct (prepare_loop_ok pre (length (pre ++ [target])) [target]) as (below & above & -> & Hcut & Hrun);
    [rewrite length_app; lia|done|].
  exists below, above, target. split; [by rewrite <- app_assoc|]. split; [done|].
  change (zlen [target]) with 1 in Hrun. rewrite Hrun, !zlen_app in *. change (zlen [target]) with 1 in *.
  pose proof (zlen_nonneg below). pose proof (zlen_nonneg above).
  rewrite !wrapu_id by (unfold in_u; lia).
  replace (zlen below + zlen above + 1 - (1 + zlen above)) with (zlen below) by lia.
  replace (1 + zlen above - 1) with (zlen above) by lia. do 3 f_equal. f_equal.
  destruct below as [|b below].
  - assert (Hnil : ~ (@nil hwc_layer <> [])) by (intros Hn; by apply Hn).
    rewrite (bool_decide_false _ Hnil). destruct above as [|a above]; [by rewrite bool_decide_true by auto|].
    rewrite bool_decide_false by (intros [Hn|Hn]; [by apply Hnil|done]). cbn [orb]. apply Z.eqb_neq. unfold zlen. cbn [length]. lia.
  - rewrite !bool_decide_true; [done|by left|done].
Qed.
End preparing.

(** ** The frame on the daemon *)

Lemma c_string_bytes l : Forall (fun b => b <> 0) l ->
  c_string (l ++ [0]) = Some (Utils.text l).
Proof.
  induction 1 as [|b l Hb _ IH]; [done|]. cbn [app c_string Utils.text].
  rewrite (proj2 (Z.eqb_neq b 0) Hb). by rewrite IH.
Qed.

Lemma default_fmap_some (x : Z) (l : list Z) : default x <$> (Some <$> l) = l.
Proof. induction l as [|y l IH]; [done|]. cbn in *. by rewrite IH. Qed.

Section sending.
Context `{HA : Android} `{HK : Kernel} `{HC : Hwc}.
Context {D : Type} `{HD : Driver D}.
Variable split : string -> list string.
Variable tan : spec_float -> spec_float.
Variable gbm : Gbm.
Variable fresh : Daemon D -> Z -> list Z.
Variables indeterminate unwritten : Z.
Let host := on_daemon split tan gbm fresh indeterminate unwritten.

Definition add_layers (rs : list Renderable) (d : Daemon D) : Daemon D :=
  mkDaemon (d_renderer d) (d_display d) (d_composer d) (d_desktop d) (d_layers d ++ rs).

Lemma add_no_layers d : add_layers [] d = d.
Proof. destruct d. unfold add_layers. cbn. by rewrite app_nil_r. Qed.

Lemma add_more_layers rs rs' d : add_layers rs' (add_layers rs d) = add_layers (rs ++ rs') d.
Proof. unfold add_layers. cbn. by rewrite app_assoc. Qed.

(** A layer as the host's composer has it: opaque or not there at all. *)
Definition renderable (cb : cb_handle) (l : hwc_layer) : Renderable :=
  mkRenderable (Utils.text (lname l)) (u32 (hostHandle cb))
    (if planeAlpha l =? 255 then f32 1 else f32 0) (displayFrame l) (sourceCrop l).

Definition int_rect (r : Rect) : Prop :=
  in_s 32 (left r) /\ in_s 32 (top r) /\ in_s 32 (right r) /\ in_s 32 (bottom r).

(** What SurfaceFlinger's layers are like. *)
Record layer_ok (l : hwc_layer) : Prop := {
  lo_name : Forall (fun b => b <> 0) (lname l);
  lo_alpha : in_u 8 (planeAlpha l);
  lo_crop : int_rect (sourceCrop l);
  lo_frame : int_rect (displayFrame l)
}.

Lemma int_rect_words r : int_rect r ->
  mkRect (i32 (u32 (left r))) (i32 (u32 (top r))) (i32 (u32 (right r))) (i32 (u32 (bottom r))) = r.
Proof. intros (? & ? & ? & ?). rewrite !i32_u32 by done. by destruct r. Qed.

Lemma alpha_words a : in_u 8 a ->
  f32_of_bits (u32 (bits_of_f32 (f32 (a / 255)))) = if a =? 255 then f32 1 else f32 0.
Proof.
  intros Ha. unfold in_u in Ha. destruct (Z.eqb_spec a 255) as [->|Hne]; [done|].
  by rewrite Z.div_small by lia.
Qed.

Lemma post_layer_on_daemon l cb d : layer_ok l ->
  host (PostLayer (lname l) (hostHandle cb) (bits_of_f32 (f32 (planeAlpha l / 255)))
          (left (sourceCrop l)) (top (sourceCrop l)) (right (sourceCrop l)) (bottom (sourceCrop l))
          (left (displayFrame l)) (top (displayFrame l)) (right (displayFrame l)) (bottom (displayFrame l)))
    (Some d) = ([], Some (add_layers [renderable cb l] d)).
Proof.
  intros [Hn Ha Hc Hf]. unfold host, on_daemon, remote, exec. cbn [op args fst snd].
  change (zlookup (handlers split tan gbm fresh indeterminate unwritten) (OP_rcPostLayer - base_opcode))
    with (Some (fun l => match l with
                         | InPtr name :: l => on_scalars (post_layer (D := D) unwritten name) l
                         | _ => gone end)).
  cbn [mbind option_bind]. unfold on_scalars. cbn [scalar_values fmap option_fmap option_map].
  unfold post_layer. rewrite default_fmap_some, c_string_bytes by done.
  unfold mbind, Run_bind, on_rc, rcPostLayer, modify, mret, Run_ret. cbn [fst snd].
  unfold rc_update, set_frame_layers. cbn [renderer frame_layers rc_view].
  rewrite alpha_words, !int_rect_words by done. unfold add_layers, renderable.
  destruct d as [[[w n p df al c]|] disp st desk ls]; done.
Qed.

Definition no_layers (d : Daemon D) : Daemon D :=
  mkDaemon (d_renderer d) (d_display d) (d_composer d) (d_desktop d) [].

Lemma take_layers d :
  on_rc rcPostAllLayersDone d =
    Some (if bool_decide (is_Some (d_composer d)) then Some (d_layers d) else None, no_layers d).
Proof. by destruct d as [[[w n p df al c]|] disp st desk ls]. Qed.

Lemma done_on_daemon d :
  host PostAllLayersDone (Some d) = ([], snd <$> compose tan gbm (d_layers d) (no_layers d)).
Proof.
  unfold host, on_daemon, remote, exec. cbn [op args fst snd].
  change (zlookup (handlers split tan gbm fresh indeterminate unwritten) (OP_rcPostAllLayersDone - base_opcode))
    with (Some (on_scalars (fun _ => silent (post_all_layers_done (D := D) tan gbm)))).
  cbn [mbind option_bind]. unfold on_scalars. cbn [scalar_values].
  unfold silent, post_all_layers_done, mbind, Run_bind. rewrite take_layers.
  assert (Hnone : d_composer d = None -> compose tan gbm (d_layers d) (no_layers d) = Some (tt, no_layers d)).
  { intros Hc. unfold compose. cbn [d_composer no_layers]. by rewrite Hc. }
  case_bool_decide as Hc.
  - by destruct (compose tan gbm (d_layers d) (no_layers d)) as [[[] d']|].
  - rewrite Hnone by (by apply eq_None_not_Some). done.
Qed.

(** What reaches the host's composer: the layers up to the first with an invalid handle,
    and whether there was none. *)
Fixpoint posted (pid : Z) (g : Guest) (layers : list hwc_layer) : list Renderable * bool :=
  match layers with
  | [] => ([], true)
  | l :: layers =>
      if has (flags l) HWC_SKIP_LAYER || has (flags l) HWC_IS_CURSOR_LAYER then posted pid g layers
      else
        match cbs g !! (pid, handle l) with
        | Some cb =>
            if negb (handle l =? 0) && valid_cb cb then
              (renderable cb l :: (posted pid g layers).1, (posted pid g layers).2)
            else ([], false)
        | None => ([], false)
        end
  end.

(** A handle that is not null leads to a handle's object. *)
Definition handle_there (pid : Z) (g : Guest) (l : hwc_layer) : Prop :=
  handle l = 0 \/ is_Some (cbs g !! (pid, handle l)).

Lemma post_layers_ok pid layers : forall (Q : bool -> Guest -> option (Daemon D) -> Prop) g d,
  Forall layer_ok layers -> Forall (handle_there pid g) layers ->
  Q (posted pid g layers).2 g (Some (add_layers (posted pid g layers).1 d)) ->
  wp host (post_layers pid layers) Q g (Some d).
Proof.
  induction layers as [|l layers IH]; intros Q g d Hok Hthere HQ; cbn [post_layers posted] in *.
  - apply wp_ret. by rewrite add_no_layers in HQ.
  - apply Forall_cons in Hok as [Hl Hok]. apply Forall_cons in Hthere as [Hh Hthere].
    destruct (has (flags l) HWC_SKIP_LAYER || has (flags l) HWC_IS_CURSOR_LAYER); [by apply IH|].
    apply wp_bind. unfold validate_handle. destruct (Z.eqb_spec (handle l) 0) as [Hz|Hz].
    { apply wp_ret, wp_ret. destruct (cbs g !! _); cbn in HQ; by rewrite add_no_layers in HQ. }
    destruct Hh as [|[cb Hcb]]; [done|]. rewrite Hcb in HQ. cbn [negb andb] in HQ.
    apply wp_bind. eapply wp_get_cb; [done|]. apply wp_ret. destruct (valid_cb cb); cbn [negb].
    2: { apply wp_ret. by rewrite add_no_layers in HQ. }
    apply wp_bind. eapply wp_get_cb; [done|]. apply wp_bind, wp_rc.
    rewrite post_layer_on_daemon by done. apply wp_bind, wp_flush, IH; [done..|].
    by rewrite add_more_layers.
Qed.

(** The fences that were waited for are closed, and none is handed back. *)
Definition close_fds (pid : Z) (l : list Z) (g : Guest) : Guest :=
  foldl (fun g d => with_fds (delete (pid, d) (fds g)) g) g l.

Definition unfenced (l : hwc_layer) : hwc_layer :=
  set_fences (if 0 <=? acquireFenceFd l then -1 else acquireFenceFd l)
    (if 0 <=? releaseFenceFd l then -1 else releaseFenceFd l) l.

Definition unfenced_display (d : hwc_display) : hwc_display :=
  mkHwcDisplay (if 0 <=? retireFenceFd d then -1 else retireFenceFd d) (display_flags d)
    (unfenced <$> hwLayers d).

Definition acquired (layers : list hwc_layer) : list Z :=
  List.filter (Z.leb 0) (acquireFenceFd <$> layers).

Lemma close_fds_app pid l k g : close_fds pid (l ++ k) g = close_fds pid k (close_fds pid l g).
Proof. apply foldl_app. Qed.

Lemma check_layer_fds_ok pid layers : forall (Q : list hwc_layer -> Guest -> option (Daemon D) -> Prop) g s,
  Q (unfenced <$> layers) (close_fds pid (acquired layers) g) s -> wp host (check_layer_fds pid layers) Q g s.
Proof.
  induction layers as [|l layers IH]; intros Q g s HQ; cbn [check_layer_fds]; [by apply wp_ret|].
  unfold acquired in *. cbn [fmap list_fmap List.filter] in HQ.
  apply wp_bind. destruct (0 <=? acquireFenceFd l) eqn:Ha.
  - apply wp_setg, wp_bind, IH, wp_ret. unfold unfenced in HQ at 1. by rewrite Ha in HQ.
  - apply wp_ret, wp_bind, IH, wp_ret. unfold unfenced in HQ at 1. by rewrite Ha in HQ.
Qed.

Lemma check_sync_fds_ok pid ds rest : forall (Q : list (option hwc_display) -> Guest -> option (Daemon D) -> Prop) g s,
  Q ((Some <$> (unfenced_display <$> ds)) ++ rest)
    (close_fds pid (concat (acquired <$> (hwLayers <$> ds))) g) s ->
  wp host (check_sync_fds pid (length ds) ((Some <$> ds) ++ rest)) Q g s.
Proof.
  induction ds as [|d ds IH]; intros Q g s HQ; cbn [check_sync_fds length fmap list_fmap app] in *; [by apply wp_ret|].
  cbn [concat] in HQ. rewrite close_fds_app in HQ.
  by apply wp_bind, check_layer_fds_ok, wp_bind, IH, wp_ret.
Qed.

(** C24: [hwc_set] puts the layers that are not to be skipped into the frame on the host, in
    their order, each where SurfaceFlinger wants it; an invalid handle ends that with an
    error.  Without one the host's composer draws the frame, the fences are closed and
    none is left.  After an error it draws nothing, and the layers that were sent are
    still there: the next frame begins with them. *)
Theorem hwc_set_frame pid d0 ds rest g d :
  Forall layer_ok (hwLayers d0) -> Forall (handle_there pid g) (hwLayers d0) ->
  let '(rs, ok) := posted pid g (hwLayers d0) in
  wp host (hwc_set pid true (length (d0 :: ds)) (Some ((Some <$> d0 :: ds) ++ rest))) (fun r g' s =>
    if ok then
      r = (0, Some ((Some <$> (unfenced_display <$> d0 :: ds)) ++ rest)) /\
      g' = close_fds pid (concat (acquired <$> (hwLayers <$> d0 :: ds))) g /\
      s = snd <$> compose tan gbm (d_layers d ++ rs) (no_layers d)
    else
      r = (- EINVAL, Some ((Some <$> d0 :: ds) ++ rest)) /\ g' = g /\ s = Some (add_layers rs d)) g (Some d).
Proof.
  intros Hok Hthere. destruct (posted pid g (hwLayers d0)) as [rs ok] eqn:Hp.
  cbn [hwc_set fmap list_fmap app negb]. apply wp_bind, post_layers_ok; [done..|]. rewrite Hp. cbn [fst snd].
  destruct ok; cbn [negb]; [|by apply wp_ret].
  apply wp_bind, wp_rc. rewrite done_on_daemon.
  apply wp_bind, (check_sync_fds_ok pid (d0 :: ds) rest), wp_ret. done.
Qed.
End sending.

(** ** A frame of two layers

    The window of task 3 shows the first; the second, of the background, has no handle. *)
Instance hwcomposer_defs : Hwc := {|
  HWC_SKIP_LAYER := 1; HWC_IS_CURSOR_LAYER := 2; HWC_GEOMETRY_CHANGED := 1; HWC_FRAMEBUFFER := 0;
  HWC_OVERLAY := 1; HWC_BACKGROUND := 2; HWC_DISPLAY_NO_ATTRIBUTE := 0; HWC_DISPLAY_VSYNC_PERIOD := 1;
  HWC_DISPLAY_WIDTH := 2; HWC_DISPLAY_HEIGHT := 3; HWC_DISPLAY_DPI_X := 4; HWC_DISPLAY_DPI_Y := 5;
  HWC_HARDWARE_COMPOSER := "hwcomposer"
|}.
#[local] Existing Instance aosp.
#[local] Existing Instance simple_kernel.

Definition a_buffer : cb_handle := set_hostHandle 1 (cb_handle_new (-1) 0 0x300 100 50 1 1 0x1908 0x1401).

Definition shown_guest : Guest := with_cbs {[(1, 100) := a_buffer]} (guest_new []).

Definition task_layer (type p fence : Z) : hwc_layer :=
  mkLayer1 type 0 p (bytes_of "org.anbox.surface.3") 255 (mkRect 0 0 100 50) (mkRect 0 0 100 50) fence (-1).

Definition shown (handles : list Z) : hwc_display :=
  mkHwcDisplay (-1) 1 ((fun p => task_layer 0 p 9) <$> handles).

Lemma hwc_prepare_takes_witness :
  exists below above target, hwLayers (shown [100; 100; 0]) = below ++ above ++ [target] /\
    cut_at_skip below above /\
    hwc_prepare (mkHwc false 0 0) (Some [Some (shown [100; 100; 0])]) =
      Some (0, mkHwc (bool_decide (below <> [] \/ above = [])) (zlen below) (zlen above),
            Some [Some (mkHwcDisplay (-1) 1 (below ++ (overlaid <$> above) ++ [target]))]).
Proof. by apply (hwc_prepare_takes (mkHwc false 0 0) (shown [100; 100; 0]) []). Defined.

Definition shown_daemon : Daemon Toy :=
  mkDaemon (Some (example_created toy_init)) (set_resolution 1280 720) (Some MultiWindow)
    (mkDesktop (fun t => if t =? 3 then Some 7 else None) (fun _ => mkRect 0 0 100 50) (fun w => w)) [].

Definition gl_log (d : Daemon Toy) : list GLCall :=
  match d_renderer d with Some f => toy_log (w_drv (f_world f)) | None => [] end.

Definition send_frame (handles : list Z) : client (done Guest (Z * Displays)) :=
  hwc_set 1 true 1 (Some [Some (shown handles)]) shown_guest.

(** The layer is drawn in the window: the driver's log has the calls. *)
Lemma hwc_set_frame_witness :
  wp toy_call (hwc_set 1 true 1 (Some [Some (shown [100])])) (fun r g' s =>
    r = (0, Some [Some (unfenced_display (shown [100]))]) /\ g' = close_fds 1 [9] shown_guest /\
    s = snd <$> compose example_tan (Planes 1) [renderable a_buffer (task_layer 0 100 9)] shown_daemon)
    shown_guest (Some shown_daemon) /\
  length <$> (gl_log <$> (run_with toy_call (send_frame [100]) (Some shown_daemon)).2) =
    Some (length (gl_log shown_daemon) + 36)%nat.
Proof.
  split; [|by vm_compute].
  apply (hwc_set_frame (fun s => [s]) example_tan (Planes 1) zeros 0 0 1 (shown [100]) [] [] shown_guest shown_daemon).
  - repeat constructor; by vm_compute.
  - by repeat constructor.
Defined.

(** After an invalid handle the first layer of the frame stays on the host. *)
Lemma layers_left_over :
  d_layers <$> (run_with toy_call (send_frame [100; 0]) (Some shown_daemon)).2 =
    Some [renderable a_buffer (task_layer 0 100 9)].
Proof. by vm_compute. Qed.

(** The end of the frame is not sent with it: after [hwc_set] the packet of
    [rcPostAllLayersDone] is in the guest's buffer, and goes with what is sent next. *)
Lemma frame_end_waits :
  match HostConnection_get (fun _ => true) 256 3 (replicate 300 one_by_one) [] with
  | Some (Ret _ c) =>
      match run_remote (host_answers toy_exec no_decoder no_decoder (fun _ => true) (fmap (fun b => [b])) 32
              (Some shown_daemon)) (fun _ => true) (send_frame [100]) c with
      | Ret (Value r _) c' =>
          r.1 = 0 /\ pending c' = Some <$> (little_endian 4 OP_rcPostAllLayersDone ++ little_endian 4 8)
      | _ => False
      end
  | _ => False
  end.
Proof. vm_compute. done. Qed.
