(* ===== verification/EglDisplay.v ===== *)
(** * The guest's EGL: its state, and the display

    The data of src/android/opengl/system/egl/: the one display ([eglDisplay.cpp]), contexts
    ([eglContext.h]), surfaces and images, what each thread has current
    (OpenglSystemCommon/ThreadInfo.h), the windows and buffers of the framework.  Then the
    operations of the display: it asks the host for the version, the configurations and the
    strings.

    A function is a computation on this state that calls the host (GuestCode.v).  The GLES
    libraries, the dynamic linker and the framework are parameters: what they answer is
    given, what they are asked is kept in the state.  The guest's heap does not run out;
    one call of a thread is one step, as if the functions held the display's lock. *)

From stdpp Require Import pretty.
From S2P Require Import Prelude Utils Gl RenderThread Checksum GuestStream RenderControlEnc Decoder Remote GuestCode Gralloc.

(** ** Constants *)

Definition EGL_FALSE : Z := 0.
Definition EGL_TRUE : Z := 1.
Definition EGL_SUCCESS : Z := 0x3000.
Definition EGL_NOT_INITIALIZED : Z := 0x3001.
Definition EGL_BAD_ACCESS : Z := 0x3002.
Definition EGL_BAD_ALLOC : Z := 0x3003.
Definition EGL_BAD_ATTRIBUTE : Z := 0x3004.
Definition EGL_BAD_CONFIG : Z := 0x3005.
Definition EGL_BAD_CONTEXT : Z := 0x3006.
Definition EGL_BAD_DISPLAY : Z := 0x3008.
Definition EGL_BAD_MATCH : Z := 0x3009.
Definition EGL_BAD_NATIVE_WINDOW : Z := 0x300B.
Definition EGL_BAD_PARAMETER : Z := 0x300C.
Definition EGL_BAD_SURFACE : Z := 0x300D.
Definition EGL_ALPHA_SIZE : Z := 0x3021.
Definition EGL_NATIVE_VISUAL_ID : Z := 0x302E.
Definition EGL_VENDOR : Z := 0x3053.
Definition EGL_VERSION : Z := 0x3054.
Definition EGL_HEIGHT : Z := 0x3056.
Definition EGL_WIDTH : Z := 0x3057.
Definition EGL_LARGEST_PBUFFER : Z := 0x3058.
Definition EGL_DRAW : Z := 0x3059.
Definition EGL_READ : Z := 0x305A.
Definition EGL_NO_TEXTURE : Z := 0x305C.
Definition EGL_TEXTURE_FORMAT : Z := 0x3080.
Definition EGL_TEXTURE_TARGET : Z := 0x3081.
Definition EGL_MIPMAP_LEVEL : Z := 0x3083.
Definition EGL_BACK_BUFFER : Z := 0x3084.
Definition EGL_RENDER_BUFFER : Z := 0x3086.
Definition EGL_CLIENT_APIS : Z := 0x308D.
Definition EGL_SWAP_BEHAVIOR : Z := 0x3093.
Definition EGL_BUFFER_PRESERVED : Z := 0x3094.
Definition EGL_CONTEXT_CLIENT_TYPE : Z := 0x3097.
Definition EGL_CONTEXT_CLIENT_VERSION : Z := 0x3098.
Definition EGL_MULTISAMPLE_RESOLVE : Z := 0x3099.
Definition EGL_MULTISAMPLE_RESOLVE_DEFAULT : Z := 0x309A.
Definition EGL_OPENGL_ES_API : Z := 0x30A0.
Definition EGL_GL_TEXTURE_2D_KHR : Z := 0x30B1.
Definition EGL_SYNC_PRIOR_COMMANDS_COMPLETE_KHR : Z := 0x30F0.
Definition EGL_SYNC_STATUS_KHR : Z := 0x30F1.
Definition EGL_SIGNALED_KHR : Z := 0x30F2.
Definition EGL_CONDITION_SATISFIED_KHR : Z := 0x30F6.
Definition EGL_SYNC_TYPE_KHR : Z := 0x30F7.
Definition EGL_SYNC_CONDITION_KHR : Z := 0x30F8.
Definition EGL_SYNC_FENCE_KHR : Z := 0x30F9.
Definition EGL_NATIVE_BUFFER_ANDROID : Z := 0x3140.

(** The framework's. *)
Class AndroidUi := {
  PIXEL_FORMAT_RGBA_8888 : Z;
  PIXEL_FORMAT_RGBX_8888 : Z;
  PIXEL_FORMAT_RGB_565 : Z;
  PIXEL_FORMAT_RGBA_5551 : Z;
  PIXEL_FORMAT_RGBA_4444 : Z;
  ANDROID_NATIVE_WINDOW_MAGIC : Z;
  ANDROID_NATIVE_BUFFER_MAGIC : Z;
  sizeof_native_buffer : Z
}.

(** ** Data *)

(** A [char*] of the display: one that [malloc] gave, or a constant of the library. *)
Inductive Chars := Owned (l : list Z) | Literal (l : list Z).

Definition chars (c : Chars) : list Z := match c with Owned l | Literal l => l end.

(** [m_configs]: a null pointer, or an array of which the cells nobody wrote are [None]. *)
Record eglDisplay := mkDisplay {
  m_initialized : bool;
  m_major : Z;
  m_minor : Z;
  m_hostRendererVersion : Z;
  m_numConfigs : Z;
  m_numConfigAttribs : Z;
  m_attribs : gmap Z Z;
  m_configs : option (list (option Z));
  m_gles_iface : bool;
  m_gles2_iface : bool;
  m_versionString : option Chars;
  m_vendorString : option Chars;
  m_extensionString : option Chars
}.

Definition display_new : eglDisplay :=
  mkDisplay false 0 0 0 0 0 ∅ None false false None None None.

Record EGLContext_t := mkContext {
  c_flags : Z;
  c_dpy : Z;
  c_config : Z;
  c_read : Z;
  c_draw : Z;
  c_shareCtx : Z;
  c_version : Z;
  c_rcContext : Z;
  c_strings : gmap Z bytes;     (* the cached strings that are not null *)
  c_deletePending : Z;
  c_sharedGroup : Z
}.

Definition IS_CURRENT : Z := 0x00010000.

(** [egl_window_surface_t] and [egl_pbuffer_surface_t]. *)
Inductive SurfaceKind :=
  | WindowSurface (nativeWindow buffer : Z)
  | PbufferSurface (rcColorBuffer : Z).

Record egl_surface_t := mkSurface {
  s_dpy : Z;
  s_config : Z;
  s_width : Z;
  s_height : Z;
  s_texFormat : Z;
  s_texTarget : Z;
  s_surfaceType : Z;
  s_rcSurface : Z;
  s_kind : SurfaceKind
}.

(** The union of [EGLImage_t]. *)
Inductive ImageOf := native_buffer (b : Z) | host_egl_image (i : Z).

Record EGLImage_t := mkImage { i_dpy : Z; i_target : Z; i_image : ImageOf }.

(** What a GLES library is asked. *)
Inductive GlesCall := IfaceInit | Finish.

(** A thread: what is current, and the encoders of its connection, each with the context
    whose client state it was given, and that state's shared group. *)
Record Encoder := mkEncoder { e_clientState : Z; e_sharedGroup : option Z; e_initialized : bool }.

Record EGLThreadInfo := mkThread {
  currentContext : Z;
  eglError : Z;
  glEnc : Encoder;
  gl2Enc : Encoder;
  gles_calls : list (Z * GlesCall)     (* the version, the call; the last one first *)
}.

Definition encoder_new : Encoder := mkEncoder 0 None false.
Definition thread_new : EGLThreadInfo := mkThread 0 EGL_SUCCESS encoder_new encoder_new [].

(** The framework's objects.  What [dequeueBuffer] will answer: a buffer, or an error. *)
Inductive WindowCall := QueueBuffer (b : Z) | CancelBuffer (b : Z) | SetSwapInterval (n : Z).

Record NativeWindow := mkWindow {
  w_magic : Z;
  w_refs : Z;
  w_dequeues : list (option Z);
  w_calls : list WindowCall
}.

Record NativeBuffer := mkNative {
  n_magic : Z;
  n_version : Z;
  n_refs : Z;
  n_width : Z;
  n_height : Z;
  n_handle : cb_handle
}.

(** A process: objects by address, threads by number. *)
Record EglState := mkEgl {
  display : eglDisplay;
  contexts : gmap Z EGLContext_t;
  surfaces : gmap Z egl_surface_t;
  images : gmap Z EGLImage_t;
  windows : gmap Z NativeWindow;
  buffers : gmap Z NativeBuffer;
  threads : gmap Z EGLThreadInfo;
  next_group : Z;
  s_client_extensions : gmap Z (gset string)     (* the functions that are not null, by index *)
}.

Definition with_display (d : eglDisplay) (e : EglState) : EglState :=
  mkEgl d (contexts e) (surfaces e) (images e) (windows e) (buffers e) (threads e) (next_group e)
    (s_client_extensions e).
Definition with_contexts (m : gmap Z EGLContext_t) (e : EglState) : EglState :=
  mkEgl (display e) m (surfaces e) (images e) (windows e) (buffers e) (threads e) (next_group e)
    (s_client_extensions e).
Definition with_surfaces (m : gmap Z egl_surface_t) (e : EglState) : EglState :=
  mkEgl (display e) (contexts e) m (images e) (windows e) (buffers e) (threads e) (next_group e)
    (s_client_extensions e).
Definition with_images (m : gmap Z EGLImage_t) (e : EglState) : EglState :=
  mkEgl (display e) (contexts e) (surfaces e) m (windows e) (buffers e) (threads e) (next_group e)
    (s_client_extensions e).
Definition with_windows (m : gmap Z NativeWindow) (e : EglState) : EglState :=
  mkEgl (display e) (contexts e) (surfaces e) (images e) m (buffers e) (threads e) (next_group e)
    (s_client_extensions e).
Definition with_buffers (m : gmap Z NativeBuffer) (e : EglState) : EglState :=
  mkEgl (display e) (contexts e) (surfaces e) (images e) (windows e) m (threads e) (next_group e)
    (s_client_extensions e).
Definition with_threads (m : gmap Z EGLThreadInfo) (e : EglState) : EglState :=
  mkEgl (display e) (contexts e) (surfaces e) (images e) (windows e) (buffers e) m (next_group e)
    (s_client_extensions e).
Definition with_next_group (n : Z) (e : EglState) : EglState :=
  mkEgl (display e) (contexts e) (surfaces e) (images e) (windows e) (buffers e) (threads e) n
    (s_client_extensions e).
Definition with_extensions (m : gmap Z (gset string)) (e : EglState) : EglState :=
  mkEgl (display e) (contexts e) (surfaces e) (images e) (windows e) (buffers e) (threads e) (next_group e) m.

Abbreviation Egl := (Code EglState).

(** ** Parts of the display *)

Definition set_initialized (b : bool) (d : eglDisplay) : eglDisplay :=
  mkDisplay b (m_major d) (m_minor d) (m_hostRendererVersion d) (m_numConfigs d) (m_numConfigAttribs d)
    (m_attribs d) (m_configs d) (m_gles_iface d) (m_gles2_iface d) (m_versionString d) (m_vendorString d)
    (m_extensionString d).
Definition set_version (major minor : Z) (d : eglDisplay) : eglDisplay :=
  mkDisplay (m_initialized d) major minor (m_hostRendererVersion d) (m_numConfigs d) (m_numConfigAttribs d)
    (m_attribs d) (m_configs d) (m_gles_iface d) (m_gles2_iface d) (m_versionString d) (m_vendorString d)
    (m_extensionString d).
Definition set_renderer_version (v : Z) (d : eglDisplay) : eglDisplay :=
  mkDisplay (m_initialized d) (m_major d) (m_minor d) v (m_numConfigs d) (m_numConfigAttribs d)
    (m_attribs d) (m_configs d) (m_gles_iface d) (m_gles2_iface d) (m_versionString d) (m_vendorString d)
    (m_extensionString d).
Definition set_counts (n a : Z) (d : eglDisplay) : eglDisplay :=
  mkDisplay (m_initialized d) (m_major d) (m_minor d) (m_hostRendererVersion d) n a
    (m_attribs d) (m_configs d) (m_gles_iface d) (m_gles2_iface d) (m_versionString d) (m_vendorString d)
    (m_extensionString d).
Definition set_configs (attribs : gmap Z Z) (configs : option (list (option Z))) (d : eglDisplay) : eglDisplay :=
  mkDisplay (m_initialized d) (m_major d) (m_minor d) (m_hostRendererVersion d) (m_numConfigs d)
    (m_numConfigAttribs d) attribs configs (m_gles_iface d) (m_gles2_iface d) (m_versionString d)
    (m_vendorString d) (m_extensionString d).
Definition set_ifaces (gles gles2 : bool) (d : eglDisplay) : eglDisplay :=
  mkDisplay (m_initialized d) (m_major d) (m_minor d) (m_hostRendererVersion d) (m_numConfigs d)
    (m_numConfigAttribs d) (m_attribs d) (m_configs d) gles gles2 (m_versionString d) (m_vendorString d)
    (m_extensionString d).
Definition set_strings (version vendor extensions : option Chars) (d : eglDisplay) : eglDisplay :=
  mkDisplay (m_initialized d) (m_major d) (m_minor d) (m_hostRendererVersion d) (m_numConfigs d)
    (m_numConfigAttribs d) (m_attribs d) (m_configs d) (m_gles_iface d) (m_gles2_iface d) version vendor
    extensions.

(** ** Bytes *)

(** Arrays of [int]s and C strings in memory; [None]: something nobody wrote, or no end. *)
Fixpoint int_array (l : list Z) : list Z :=
  match l with
  | a :: b :: c :: d :: l => i32 (le_value [a; b; c; d]) :: int_array l
  | _ => []
  end.

Definition int_of (l : list Z) : Z := i32 (le_value l).

Fixpoint c_chars (l : bytes) : option (list Z) :=
  match l with
  | [] | None :: _ => None
  | Some b :: l => if b =? 0 then Some [] else cons b <$> c_chars l
  end.

(** A call's results, the value last. *)
Definition rc_lists (c : rc_call) : Egl (list (list Z)) :=
  ls ← rc c;
  match mapM all_some ls with Some ls => mret ls | None => fault end.

(** ** The display *)

Section display.
Context `{HUi : AndroidUi}.

(** Whether [HostConnection::get] gives the calling thread a connection. *)
Variable hostCon : bool.

Definition getd {A} (f : eglDisplay -> A) : Egl A := getg (fun e => f (display e)).
Definition setd (f : eglDisplay -> eglDisplay) : Egl unit := setg (fun e => with_display (f (display e)) e).

Definition systemEGLVersionMajor : Z := 1.
Definition systemEGLVersionMinor : Z := 4.
Definition systemEGLVendor : list Z := bytes_of "Google Android emulator".
Definition systemStaticEGLExtensions : list Z :=
  bytes_of ("EGL_ANDROID_image_native_buffer " ++ "EGL_KHR_fence_sync " ++
            "EGL_KHR_image_base " ++ "EGL_KHR_gl_texture_2d_image ").

Definition ATTRIBUTE_NONE : Z := -1.

(** *** Attributes of configurations *)

Definition valueFor (attrib : Z) : Egl Z :=
  getd (fun d => default ATTRIBUTE_NONE (m_attribs d !! attrib)).

Definition getAttribValue (config attribIdx : Z) : Egl (option Z) :=
  if attribIdx =? ATTRIBUTE_NONE then mret None
  else
    v ← getd (fun d => m_configs d ≫= fun m => zlookup m (config * m_numConfigAttribs d + attribIdx));
    match v with Some (Some v) => mret (Some v) | _ => fault end.

Definition setAttribValue (config attribIdx value : Z) : Egl bool :=
  if attribIdx =? ATTRIBUTE_NONE then mret false
  else
    m ← getd m_configs;
    i ← getd (fun d => config * m_numConfigAttribs d + attribIdx);
    match m with
    | Some m =>
        if (0 <=? i) && (i <? zlen m)
        then setd (fun d => set_configs (m_attribs d) (Some (zinsert i (Some value) m)) d) ;; mret true
        else fault
    | None => fault
    end.

Definition getConfigAttrib (config attrib : Z) : Egl (option Z) :=
  i ← valueFor attrib; getAttribValue config i.

Definition setConfigAttrib (config attrib value : Z) : Egl bool :=
  i ← valueFor attrib; setAttribValue config i value.

(** The sizes of red, blue, green and alpha, as far as the first that is missing. *)
Definition config_sizes (config : Z) : Egl (option (Z * Z * Z * Z)) :=
  r ← getConfigAttrib config EGL_RED_SIZE;
  match r with
  | None => mret None
  | Some r =>
      b ← getConfigAttrib config EGL_BLUE_SIZE;
      match b with
      | None => mret None
      | Some b =>
          g ← getConfigAttrib config EGL_GREEN_SIZE;
          match g with
          | None => mret None
          | Some g =>
              a ← getConfigAttrib config EGL_ALPHA_SIZE;
              match a with None => mret None | Some a => mret (Some (r, g, b, a)) end
          end
      end
  end.

Definition native_pixel_format (r g b a : Z) : option Z :=
  if (r =? 8) && (g =? 8) && (b =? 8) && (a =? 8) then Some PIXEL_FORMAT_RGBA_8888
  else if (r =? 8) && (g =? 8) && (b =? 8) && (a =? 0) then Some PIXEL_FORMAT_RGBX_8888
  else if (r =? 5) && (g =? 6) && (b =? 5) && (a =? 0) then Some PIXEL_FORMAT_RGB_565
  else if (r =? 5) && (g =? 5) && (b =? 5) && (a =? 1) then Some PIXEL_FORMAT_RGBA_5551
  else if (r =? 4) && (g =? 4) && (b =? 4) && (a =? 4) then Some PIXEL_FORMAT_RGBA_4444
  else None.

Definition gl_pixel_format (r g b a : Z) : option Z :=
  if (r =? g) && (r =? b) && ((r =? 8) || (r =? 16) || (r =? 32)) then
    Some (if a =? 0 then GL_RGB else GL_RGBA)
  else if (r =? 5) && (g =? 6) && (b =? 5) && (a =? 0) then Some GL_RGB565_OES
  else if (r =? 5) && (g =? 5) && (b =? 5) && (a =? 1) then Some GL_RGB5_A1_OES
  else if (r =? 4) && (g =? 4) && (b =? 4) && (a =? 4) then Some GL_RGBA4_OES
  else None.

Definition getConfigNativePixelFormat (config : Z) : Egl (option Z) :=
  s ← config_sizes config;
  mret (match s with Some (r, g, b, a) => native_pixel_format r g b a | None => None end).

Definition getConfigGLPixelFormat (config : Z) : Egl (option Z) :=
  s ← config_sizes config;
  mret (match s with Some (r, g, b, a) => gl_pixel_format r g b a | None => None end).

(** The configurations [i], [i + 1], ..., [n] of them. *)
Fixpoint process_configs (n : nat) (i : Z) : Egl unit :=
  match n with
  | O => mret tt
  | S n =>
      format ← getConfigNativePixelFormat i;
      match format with
      | Some format => setConfigAttrib i EGL_NATIVE_VISUAL_ID format ;; mret tt
      | None => mret tt
      end ;;
      process_configs n (i + 1)
  end.

Definition processConfigs : Egl unit :=
  n ← getd m_numConfigs; process_configs (Z.to_nat n) 0.

(** *** Initialising *)

(** What [dlopen], [dlsym] and the library's own function give. *)
Inductive Library := NoLibrary | NoFunction | Loaded (iface : bool).

Definition loadGLESClientAPI (lib : Library) : bool :=
  match lib with Loaded iface => iface | _ => false end.

(** The minimum of what both sides support. *)
Definition lowest_version (d : eglDisplay) : eglDisplay :=
  if systemEGLVersionMajor <? m_major d then set_version systemEGLVersionMajor systemEGLVersionMinor d
  else if (m_major d =? systemEGLVersionMajor) && (systemEGLVersionMinor <? m_minor d)
  then set_version (m_major d) systemEGLVersionMinor d
  else d.

(** [tmp_buf], of which the host filled the front. *)
Definition tmp_buf (nInts : Z) (l : list Z) : list (option Z) :=
  ztake nInts ((Some <$> int_array l) ++ replicate (Z.to_nat nInts) None).

(** [m_attribs.add], for the first values. *)
Definition add_attribs (l : list Z) (m : gmap Z Z) : gmap Z Z :=
  foldl (fun m '(i, id) => <[id := i]> m) m (imap (fun i id => (Z.of_nat i, id)) l).

(** The attributes' numbers and the table of values. *)
Definition take_configs (n a nInts : Z) (l : list Z) : Egl bool :=
  let tmp := tmp_buf nInts l in
  let size := i32 (n * a) in
  match all_some (ztake a tmp) with
  | None => fault
  | Some ids =>
      if (nInts <? a) || (size <? 0) || (nInts <? a + size) || (u32 (nInts - a) <? size) then fault
      else
        setd (fun d => set_configs (add_attribs ids (m_attribs d))
          ((fun m => ztake size (zdrop a tmp) ++ zdrop size m) <$> m_configs d) d) ;;
        setd (set_initialized true) ;;
        mret true
  end.

Definition query_configs : Egl bool :=
  r ← rc_lists GetNumConfigs;
  match r with
  | [attribs; configs] =>
      let n := int_of configs in
      let a := int_of attribs in
      setd (set_counts n a) ;;
      if (n <=? 0) || (a <=? 0) then mret false
      else
        let nInts := u32 (i32 (a * i32 (n + 1))) in
        setd (fun d => set_configs (m_attribs d) (Some (replicate (Z.to_nat (u32 (nInts - a))) None)) d) ;;
        r ← rc_lists (GetConfigs (nInts * 4));
        match r with
        | [l; ret] => if int_of ret =? n then take_configs n a nInts l else mret false
        | _ => fault
        end
  | _ => fault
  end.

Definition query_version : Egl bool :=
  v ← rc_int GetRendererVersion;
  setd (set_renderer_version (i32 v)) ;;
  r ← rc_lists GetEGLVersion;
  match r with
  | [major; minor; status] =>
      setd (set_version (int_of major) (int_of minor)) ;;
      if int_of status =? EGL_TRUE then setd lowest_version ;; mret true else mret false
  | _ => fault
  end.

(** [eglDisplay::initialize]; the second library is not mandatory. *)
Definition initialize (gles gles2 : Library) : Egl bool :=
  init ← getd m_initialized;
  ok ← (if init : bool then mret true
        else
          setd (fun d => set_ifaces (loadGLESClientAPI gles) (m_gles2_iface d) d) ;;
          if negb (loadGLESClientAPI gles) then mret false
          else
            setd (fun d => set_ifaces (m_gles_iface d) (loadGLESClientAPI gles2) d) ;;
            if negb hostCon then mret false
            else
              ok ← query_version;
              if ok : bool then query_configs else mret false);
  if ok : bool then processConfigs ;; mret true else mret false.

(** [free]: of memory that [malloc] did not give it is an abort. *)
Definition free_chars (c : option Chars) : Egl unit :=
  match c with Some (Literal _) => fault | _ => mret tt end.

Definition terminate : Egl unit :=
  init ← getd m_initialized;
  if init : bool then
    setd (fun d => set_configs (m_attribs d) None (set_initialized false d)) ;;
    d ← getd (fun d => d);
    free_chars (m_versionString d) ;;
    free_chars (m_vendorString d) ;;
    free_chars (m_extensionString d) ;;
    setd (set_strings None None None)
  else mret tt.

(** *** Strings *)

(** The string with a space behind it. *)
Definition queryHostEGLString (name : Z) : Egl (option (list Z)) :=
  if negb hostCon then mret None
  else
    r ← rc_lists (QueryEGLString name 0);
    match r with
    | [_; n] =>
        if int_of n <? 0 then
          r ← rc_lists (QueryEGLString name (i32 (- int_of n)));
          match r with
          | [l; n] =>
              if 0 <? int_of n then
                match c_chars ((Some <$> l) ++ [None; None]) with
                | Some s => mret (Some (s ++ [32]))
                | None => fault
                end
              else mret None
          | _ => fault
          end
        else mret None
    | _ => fault
    end.

Definition buildExtensionString : Egl (list Z) :=
  hostExt ← queryHostEGLString EGL_EXTENSIONS;
  mret (match hostExt with
        | Some l => if zlen l <=? 1 then systemStaticEGLExtensions else systemStaticEGLExtensions ++ l
        | None => systemStaticEGLExtensions
        end).

Definition queryString (name : Z) : Egl (option (list Z)) :=
  if name =? EGL_CLIENT_APIS then mret (Some (bytes_of "OpenGL_ES"))
  else if name =? EGL_VERSION then
    s ← getd m_versionString;
    match s with
    | Some s => mret (Some (chars s))
    | None =>
        l ← getd (fun d => bytes_of (pretty (m_major d) ++ "." ++ pretty (m_minor d)));
        setd (fun d => set_strings (Some (Owned l)) (m_vendorString d) (m_extensionString d) d) ;;
        mret (Some l)
    end
  else if name =? EGL_VENDOR then
    s ← getd m_vendorString;
    match s with
    | Some s => mret (Some (chars s))
    | None =>
        host ← queryHostEGLString EGL_VENDOR;
        let s := match host with
                 | Some l => Owned (systemEGLVendor ++ bytes_of " Host: " ++ l)
                 | None => Literal systemEGLVendor
                 end in
        setd (fun d => set_strings (m_versionString d) (Some s) (m_extensionString d) d) ;;
        mret (Some (chars s))
    end
  else if name =? EGL_EXTENSIONS then
    s ← getd m_extensionString;
    match s with
    | Some s => mret (Some (chars s))
    | None =>
        l ← buildExtensionString;
        setd (fun d => set_strings (m_versionString d) (m_vendorString d) (Some (Owned l)) d) ;;
        mret (Some l)
    end
  else mret None.
End display.
