(* ===== verification/Egl.v ===== *)
(** * The guest's EGL: its functions

    src/android/opengl/system/egl/egl.cpp, one definition per function, and the names that
    [eglGetProcAddress] knows.  A pointer is an address, [0] the null pointer; an object
    that is not there is a fault.  A parameter through which a function returns a value is
    part of its result. *)

From S2P Require Import Prelude Utils Gl RenderThread Checksum GuestStream RenderControlEnc Decoder Remote GuestCode Gralloc EglDisplay.

Definition EGL_NO_DISPLAY : Z := 0.
Definition EGL_DEFAULT_DISPLAY : Z := 0.
Definition GL_VENDOR : Z := 0x1F00.
Definition GL_RENDERER : Z := 0x1F01.
Definition GL_SHADING_LANGUAGE_VERSION : Z := 0x8B8C.

(** ** Names of functions *)

(** egl_ftable.h and ClientAPIExts.in. *)
Definition egl_funcs : list string := [
  "eglGetError"; "eglGetDisplay"; "eglInitialize"; "eglTerminate"; "eglQueryString";
  "eglGetConfigs"; "eglChooseConfig"; "eglGetConfigAttrib"; "eglCreateWindowSurface";
  "eglCreatePbufferSurface"; "eglCreatePixmapSurface"; "eglDestroySurface"; "eglQuerySurface";
  "eglBindAPI"; "eglQueryAPI"; "eglWaitClient"; "eglReleaseThread";
  "eglCreatePbufferFromClientBuffer"; "eglSurfaceAttrib"; "eglBindTexImage"; "eglReleaseTexImage";
  "eglSwapInterval"; "eglCreateContext"; "eglDestroyContext"; "eglMakeCurrent";
  "eglGetCurrentContext"; "eglGetCurrentSurface"; "eglGetCurrentDisplay"; "eglQueryContext";
  "eglWaitGL"; "eglWaitNative"; "eglSwapBuffers"; "eglCopyBuffers"; "eglGetProcAddress";
  "eglLockSurfaceKHR"; "eglUnlockSurfaceKHR"; "eglCreateImageKHR"; "eglDestroyImageKHR";
  "eglCreateSyncKHR"; "eglDestroySyncKHR"; "eglClientWaitSyncKHR"; "eglGetSyncAttribKHR"
]%string.

Definition client_ext_funcs : list string := [
  "glEGLImageTargetTexture2DOES"; "glEGLImageTargetRenderbufferStorageOES";
  "glBlendEquationSeparateOES"; "glBlendFuncSeparateOES"; "glBlendEquationOES";
  "glCurrentPaletteMatrixOES"; "glLoadPaletteFromModelViewMatrixOES"; "glMatrixIndexPointerOES";
  "glWeightPointerOES"; "glDepthRangefOES"; "glFrustumfOES"; "glOrthofOES"; "glClipPlanefOES";
  "glGetClipPlanefOES"; "glClearDepthfOES"; "glPointSizePointerOES"; "glTexGenfOES";
  "glTexGenfvOES"; "glTexGeniOES"; "glTexGenivOES"; "glTexGenxOES"; "glTexGenxvOES";
  "glGetTexGenfvOES"; "glGetTexGenivOES"; "glGetTexGenxvOES"; "glIsRenderbufferOES";
  "glBindRenderbufferOES"; "glDeleteRenderbuffersOES"; "glGenRenderbuffersOES";
  "glRenderbufferStorageOES"; "glGetRenderbufferParameterivOES"; "glIsFramebufferOES";
  "glBindFramebufferOES"; "glDeleteFramebuffersOES"; "glGenFramebuffersOES";
  "glCheckFramebufferStatusOES"; "glFramebufferTexture2DOES"; "glFramebufferRenderbufferOES";
  "glGetFramebufferAttachmentParameterivOES"; "glGenerateMipmapOES"; "glDrawTexsOES";
  "glDrawTexiOES"; "glDrawTexfOES"; "glDrawTexxOES"; "glDrawTexsvOES"; "glDrawTexivOES";
  "glDrawTexfvOES"; "glDrawTexxvOES"
]%string.

(** The function of that name, or the dispatcher of an extension. *)
Definition eglGetProcAddress (procname : string) : option string :=
  if bool_decide (procname ∈ egl_funcs) then Some procname
  else if bool_decide (procname ∈ client_ext_funcs) then Some ("_egl_" ++ procname)%string
  else None.

(** ** Parts of objects *)

Definition set_flags (f : Z) (c : EGLContext_t) : EGLContext_t :=
  mkContext f (c_dpy c) (c_config c) (c_read c) (c_draw c) (c_shareCtx c) (c_version c) (c_rcContext c)
    (c_strings c) (c_deletePending c) (c_sharedGroup c).
Definition set_surfaces (draw read : Z) (c : EGLContext_t) : EGLContext_t :=
  mkContext (c_flags c) (c_dpy c) (c_config c) read draw (c_shareCtx c) (c_version c) (c_rcContext c)
    (c_strings c) (c_deletePending c) (c_sharedGroup c).
Definition set_deletePending (p : Z) (c : EGLContext_t) : EGLContext_t :=
  mkContext (c_flags c) (c_dpy c) (c_config c) (c_read c) (c_draw c) (c_shareCtx c) (c_version c)
    (c_rcContext c) (c_strings c) p (c_sharedGroup c).
Definition set_cached (name : Z) (s : option bytes) (c : EGLContext_t) : EGLContext_t :=
  mkContext (c_flags c) (c_dpy c) (c_config c) (c_read c) (c_draw c) (c_shareCtx c) (c_version c)
    (c_rcContext c) (partial_alter (fun _ => s) name (c_strings c)) (c_deletePending c) (c_sharedGroup c).

Definition set_currentContext (p : Z) (t : EGLThreadInfo) : EGLThreadInfo :=
  mkThread p (eglError t) (glEnc t) (gl2Enc t) (gles_calls t).
Definition set_eglError (err : Z) (t : EGLThreadInfo) : EGLThreadInfo :=
  mkThread (currentContext t) err (glEnc t) (gl2Enc t) (gles_calls t).

(** The encoder for a version, and what it is given. *)
Definition encoder (version : Z) (t : EGLThreadInfo) : Encoder :=
  if version =? 2 then gl2Enc t else glEnc t.
Definition set_encoder (version : Z) (f : Encoder -> Encoder) (t : EGLThreadInfo) : EGLThreadInfo :=
  if version =? 2
  then mkThread (currentContext t) (eglError t) (glEnc t) (f (gl2Enc t)) (gles_calls t)
  else mkThread (currentContext t) (eglError t) (f (glEnc t)) (gl2Enc t) (gles_calls t).
Definition set_client (state : Z) (group : option Z) (e : Encoder) : Encoder :=
  mkEncoder state group (e_initialized e).
Definition setInitialized (e : Encoder) : Encoder := mkEncoder (e_clientState e) (e_sharedGroup e) true.

Definition add_gles_call (version : Z) (c : GlesCall) (t : EGLThreadInfo) : EGLThreadInfo :=
  mkThread (currentContext t) (eglError t) (glEnc t) (gl2Enc t) ((version, c) :: gles_calls t).

Definition set_rcSurface (rc : Z) (s : egl_surface_t) : egl_surface_t :=
  mkSurface (s_dpy s) (s_config s) (s_width s) (s_height s) (s_texFormat s) (s_texTarget s)
    (s_surfaceType s) rc (s_kind s).
Definition set_size (w h : Z) (s : egl_surface_t) : egl_surface_t :=
  mkSurface (s_dpy s) (s_config s) w h (s_texFormat s) (s_texTarget s) (s_surfaceType s) (s_rcSurface s)
    (s_kind s).
Definition set_texture (format target : Z) (s : egl_surface_t) : egl_surface_t :=
  mkSurface (s_dpy s) (s_config s) (s_width s) (s_height s) format target (s_surfaceType s) (s_rcSurface s)
    (s_kind s).
Definition set_kind (k : SurfaceKind) (s : egl_surface_t) : egl_surface_t :=
  mkSurface (s_dpy s) (s_config s) (s_width s) (s_height s) (s_texFormat s) (s_texTarget s)
    (s_surfaceType s) (s_rcSurface s) k.

(** ** The heap *)

Definition deref {A} (m : EglState -> gmap Z A) (p : Z) : Egl A :=
  x ← getg (fun e => m e !! p);
  match x with Some x => mret x | None => fault end.

Definition put_context (p : Z) (c : EGLContext_t) : Egl unit :=
  setg (fun e => with_contexts (<[p := c]> (contexts e)) e).
Definition put_surface (p : Z) (s : egl_surface_t) : Egl unit :=
  setg (fun e => with_surfaces (<[p := s]> (surfaces e)) e).
Definition put_window (p : Z) (w : NativeWindow) : Egl unit :=
  setg (fun e => with_windows (<[p := w]> (windows e)) e).
Definition put_buffer (p : Z) (b : NativeBuffer) : Egl unit :=
  setg (fun e => with_buffers (<[p := b]> (buffers e)) e).

Definition in_use (e : EglState) : gset Z :=
  dom (contexts e) ∪ dom (surfaces e) ∪ dom (images e) ∪ dom (windows e) ∪ dom (buffers e).

(** ** Windows of the framework *)

Definition common_incRef (p : Z) : Egl unit :=
  w ← deref windows p;
  put_window p (mkWindow (w_magic w) (w_refs w + 1) (w_dequeues w) (w_calls w)).
Definition common_decRef (p : Z) : Egl unit :=
  w ← deref windows p;
  put_window p (mkWindow (w_magic w) (w_refs w - 1) (w_dequeues w) (w_calls w)).
Definition window_call (p : Z) (c : WindowCall) : Egl unit :=
  w ← deref windows p;
  put_window p (mkWindow (w_magic w) (w_refs w) (w_dequeues w) (c :: w_calls w)).
Definition dequeueBuffer (p : Z) : Egl (option Z) :=
  w ← deref windows p;
  put_window p (mkWindow (w_magic w) (w_refs w) (tl (w_dequeues w)) (w_calls w)) ;;
  mret (default None (head (w_dequeues w))).

Section egl.
Context `{HA : Android, HK : Kernel, HUi : AndroidUi}.

(** The address of the one display; the calling thread, and whether it has or gets a
    connection to the host; the functions that the library of a version has. *)
Variable s_display : Z.
Variable tid : Z.
Variable hostCon : bool.
Variable getProcAddress : Z -> string -> bool.

(** ** Threads *)

Definition thread_of (e : EglState) : EGLThreadInfo := default thread_new (threads e !! tid).
Definition getThread {A} (f : EGLThreadInfo -> A) : Egl A := getg (fun e => f (thread_of e)).
Definition setThread (f : EGLThreadInfo -> EGLThreadInfo) : Egl unit :=
  setg (fun e => with_threads (<[tid := f (thread_of e)]> (threads e)) e).

(** ** Errors and guards *)

Definition setErrorFunc {A} (error : Z) (returnValue : A) : Egl A :=
  setThread (set_eglError error) ;; mret returnValue.

Definition VALIDATE_DISPLAY {A} (dpy : Z) (ret : A) (k : Egl A) : Egl A :=
  if dpy =? s_display then k else setErrorFunc EGL_BAD_DISPLAY ret.

Definition VALIDATE_DISPLAY_INIT {A} (dpy : Z) (ret : A) (k : Egl A) : Egl A :=
  VALIDATE_DISPLAY dpy ret
    (init ← getd m_initialized;
     if init : bool then k else setErrorFunc EGL_NOT_INITIALIZED ret).

Definition VALIDATE_CONFIG {A} (cfg : Z) (ret : A) (k : Egl A) : Egl A :=
  n ← getd m_numConfigs;
  if (cfg <? 0) || (n <? cfg) then setErrorFunc EGL_BAD_CONFIG ret else k.

Definition HOST_CONNECTION {A} (ret : A) (k : Egl A) : Egl A := if hostCon then k else mret ret.

Definition VALIDATE_CONTEXT_RETURN {A} (context : Z) (ret : A) (k : Egl A) : Egl A :=
  if context =? 0 then setErrorFunc EGL_BAD_CONTEXT ret else k.

(** Whatever the function returns otherwise, here it is false. *)
Definition VALIDATE_SURFACE_RETURN {A} (surface : Z) (ret : A) (k : Egl A) : Egl A :=
  if surface =? EGL_NO_SURFACE then k
  else
    s ← deref surfaces surface;
    if s_dpy s =? s_display then k else setErrorFunc EGL_BAD_DISPLAY ret.

(** ** Window surfaces *)

Definition window_surface_init (p : Z) : Egl bool :=
  s ← deref surfaces p;
  match s_kind s with
  | PbufferSurface _ => fault
  | WindowSurface nativeWindow _ =>
      b ← dequeueBuffer nativeWindow;
      match b with
      | None => setErrorFunc EGL_BAD_ALLOC false
      | Some b =>
          put_surface p (set_kind (WindowSurface nativeWindow b) s) ;;
          n ← deref buffers b;
          let s := set_size (n_width n) (n_height n) (set_kind (WindowSurface nativeWindow b) s) in
          put_surface p s ;;
          HOST_CONNECTION false
            (rcSurface ← rc_int (CreateWindowSurface (s_config s) (s_width s) (s_height s));
             put_surface p (set_rcSurface rcSurface s) ;;
             if rcSurface =? 0 then mret false
             else
               rc (SetWindowColorBuffer rcSurface (hostHandle (n_handle n))) ;;
               mret true)
      end
  end.

(** The destructors; freed memory is not there any more. *)
Definition destroy_surface (p : Z) : Egl unit :=
  s ← deref surfaces p;
  match s_kind s with
  | WindowSurface nativeWindow buffer =>
      (if negb (s_rcSurface s =? 0) && hostCon then rc (DestroyWindowSurface (s_rcSurface s)) ;; mret tt
       else mret tt) ;;
      (if buffer =? 0 then mret tt else window_call nativeWindow (CancelBuffer buffer)) ;;
      common_decRef nativeWindow
  | PbufferSurface rcColorBuffer =>
      if hostCon then
        (if rcColorBuffer =? 0 then mret tt else rc (CloseColorBuffer rcColorBuffer) ;; mret tt) ;;
        (if s_rcSurface s =? 0 then mret tt else rc (DestroyWindowSurface (s_rcSurface s)) ;; mret tt)
      else mret tt
  end ;;
  setg (fun e => with_surfaces (delete p (surfaces e)) e).

Definition surface_new (dpy config w h type : Z) (k : SurfaceKind) : egl_surface_t :=
  mkSurface dpy config w h EGL_NO_TEXTURE EGL_NO_TEXTURE type 0 k.

(** [create] of both kinds: the constructor, and [init], after which a surface that did not
    work is deleted. *)
Definition create_surface (s : egl_surface_t) (init : Z -> Egl bool) : Egl Z :=
  p ← getg (fun e => new_address (in_use e));
  put_surface p s ;;
  (match s_kind s with WindowSurface nativeWindow _ => common_incRef nativeWindow | _ => mret tt end) ;;
  ok ← init p;
  if ok : bool then mret p else destroy_surface p ;; mret 0.

Definition window_surface_create (dpy config surfType window : Z) : Egl Z :=
  create_surface (surface_new dpy config 0 0 surfType (WindowSurface window 0)) window_surface_init.

Definition window_swapBuffers (p : Z) : Egl Z :=
  s ← deref surfaces p;
  match s_kind s with
  | PbufferSurface _ => mret EGL_TRUE
  | WindowSurface nativeWindow buffer =>
      HOST_CONNECTION EGL_FALSE
        (rc (FlushWindowColorBuffer (s_rcSurface s)) ;;
         window_call nativeWindow (QueueBuffer buffer) ;;
         b ← dequeueBuffer nativeWindow;
         match b with
         | None =>
             put_surface p (set_kind (WindowSurface nativeWindow 0) s) ;;
             setErrorFunc EGL_BAD_ALLOC EGL_FALSE
         | Some b =>
             put_surface p (set_kind (WindowSurface nativeWindow b) s) ;;
             n ← deref buffers b;
             rc (SetWindowColorBuffer (s_rcSurface s) (hostHandle (n_handle n))) ;;
             put_surface p (set_size (n_width n) (n_height n) (set_kind (WindowSurface nativeWindow b) s)) ;;
             mret EGL_TRUE
         end)
  end.

Definition surface_setSwapInterval (p interval : Z) : Egl unit :=
  s ← deref surfaces p;
  match s_kind s with
  | WindowSurface nativeWindow _ => window_call nativeWindow (SetSwapInterval interval)
  | PbufferSurface _ => mret tt
  end.

(** ** Pbuffers *)

Definition pbuffer_surface_init (pixelFormat p : Z) : Egl bool :=
  HOST_CONNECTION false
    (s ← deref surfaces p;
     rcSurface ← rc_int (CreateWindowSurface (s_config s) (s_width s) (s_height s));
     let s := set_rcSurface rcSurface s in
     put_surface p s ;;
     if rcSurface =? 0 then mret false
     else
       b ← rc_int (CreateColorBuffer (s_width s) (s_height s) pixelFormat);
       put_surface p (set_kind (PbufferSurface b) s) ;;
       if b =? 0 then mret false
       else rc (SetWindowColorBuffer rcSurface b) ;; mret true).

Definition pbuffer_surface_create (dpy config surfType w h pixelFormat : Z) : Egl Z :=
  create_surface (surface_new dpy config w h surfType (PbufferSurface 0)) (pbuffer_surface_init pixelFormat).

(** ** Strings of the current context *)

Definition getGLString (glEnum : Z) : Egl (option bytes) :=
  p ← getThread currentContext;
  if p =? 0 then mret None
  else if negb (is_one_of glEnum [GL_VERSION; GL_VENDOR; GL_RENDERER; GL_SHADING_LANGUAGE_VERSION; GL_EXTENSIONS])
  then mret None
  else
    c ← deref contexts p;
    match c_strings c !! glEnum with
    | Some s => mret (Some s)
    | None =>
        HOST_CONNECTION None
          (r ← rc_lists (GetGLString glEnum 0);
           match r with
           | [_; n] =>
               hostStr ←
                 (if int_of n <? 0 then
                    r ← rc_lists (GetGLString glEnum (i32 (- int_of n)));
                    match r with
                    | [l; n] => mret (if int_of n <=? 0 then None else Some ((Some <$> l) ++ [None]))
                    | _ => fault
                    end
                  else mret None);
               put_context p (set_cached glEnum hostStr c) ;;
               mret hostStr
           | _ => fault
           end)
    end.

(** ** The display *)

Definition eglGetDisplay (display_id : Z) : Z :=
  if negb (display_id =? EGL_DEFAULT_DISPLAY) then EGL_NO_DISPLAY else s_display.

(** With the version, for the pointers that are not null. *)
Definition eglInitialize (dpy : Z) (gles gles2 : Library) : Egl (Z * option (Z * Z)) :=
  VALIDATE_DISPLAY dpy (EGL_FALSE, None)
    (ok ← initialize hostCon gles gles2;
     if ok : bool then v ← getd (fun d => (m_major d, m_minor d)); mret (EGL_TRUE, Some v)
     else mret (EGL_FALSE, None)).

Definition eglTerminate (dpy : Z) : Egl Z :=
  VALIDATE_DISPLAY_INIT dpy EGL_FALSE (terminate ;; mret EGL_TRUE).

Definition eglGetError : Egl Z :=
  error ← getThread eglError; setThread (set_eglError EGL_SUCCESS) ;; mret error.

Definition eglQueryString (dpy name : Z) : Egl (option (list Z)) :=
  VALIDATE_DISPLAY_INIT dpy None (queryString hostCon name).

(** ** Configurations *)

(** The value, the configurations that are written, and their number where it is. *)
Definition eglGetConfigs (dpy : Z) (configs : bool) (config_size : Z) (num_config : bool) :
    Egl (Z * list Z * option Z) :=
  VALIDATE_DISPLAY_INIT dpy (EGL_FALSE, [], None)
    (if negb num_config then setErrorFunc EGL_BAD_PARAMETER (EGL_FALSE, [], None)
     else
       n ← getd m_numConfigs;
       if negb configs then mret (EGL_TRUE, [], Some n)
       else
         let i := Z.max 0 (Z.min n config_size) in
         mret (EGL_TRUE, Z.of_nat <$> seq 0 (Z.to_nat i), Some i)).

(** How many values there are with the end mark; [None]: past the end. *)
Fixpoint attribs_size (l : list Z) : option Z :=
  match l with
  | [] => None
  | a :: l =>
      if a =? EGL_NONE then Some 1
      else match l with [] => None | _ :: l => Z.add 2 <$> attribs_size l end
  end.

Definition int_bytes (l : list Z) : bytes := Some <$> concat (little_endian 4 <$> l).

(** [configs] has room for [config_size] of them, if it is not null. *)
Definition eglChooseConfig (dpy : Z) (attrib_list : option (list Z)) (configs : bool) (config_size : Z)
    (num_config : bool) : Egl (Z * list Z * option Z) :=
  VALIDATE_DISPLAY_INIT dpy (EGL_FALSE, [], None)
    match match attrib_list with None => Some 0 | Some l => attribs_size l end with
    | None => fault
    | Some size =>
        HOST_CONNECTION (EGL_FALSE, [], None)
          (r ← rc_lists (ChooseConfig (int_bytes (ztake size (default [] attrib_list))) (size * 4) true config_size);
           match r with
           | [tempConfigs; n] =>
               let n := int_of n in
               if negb num_config then fault
               else if configs && (config_size <? n) then fault
               else
                 mret (if n <=? 0 then EGL_FALSE else EGL_TRUE,
                       if configs then u32 <$> ztake n (int_array tempConfigs) else [], Some n)
           | _ => fault
           end)
    end.

Definition eglGetConfigAttrib (dpy config attribute : Z) : Egl (Z * option Z) :=
  VALIDATE_DISPLAY_INIT dpy (EGL_FALSE, None)
    (VALIDATE_CONFIG config (EGL_FALSE, None)
      (v ← getConfigAttrib config attribute;
       match v with
       | Some v => mret (EGL_TRUE, Some v)
       | None => setErrorFunc EGL_BAD_ATTRIBUTE (EGL_FALSE, None)
       end)).

(** ** Surfaces *)

Definition has_bit (x mask : Z) : bool := negb (Z.land x mask =? 0).

Definition eglCreateWindowSurface (dpy config win : Z) : Egl Z :=
  VALIDATE_DISPLAY_INIT dpy EGL_NO_SURFACE
    (VALIDATE_CONFIG config EGL_FALSE
      (if win =? 0 then setErrorFunc EGL_BAD_MATCH EGL_NO_SURFACE
       else
         surfaceType ← getConfigAttrib config EGL_SURFACE_TYPE;
         match surfaceType with
         | None => mret EGL_FALSE
         | Some surfaceType =>
             if negb (has_bit surfaceType EGL_WINDOW_BIT) then setErrorFunc EGL_BAD_MATCH EGL_NO_SURFACE
             else
               w ← deref windows win;
               if negb (w_magic w =? ANDROID_NATIVE_WINDOW_MAGIC)
               then setErrorFunc EGL_BAD_NATIVE_WINDOW EGL_NO_SURFACE
               else
                 surface ← window_surface_create s_display config EGL_WINDOW_BIT win;
                 if surface =? 0 then setErrorFunc EGL_BAD_ALLOC EGL_NO_SURFACE else mret surface
         end)).

(** Width, height, format and target of the texture; [None]: past the end. *)
Fixpoint pbuffer_attribs (w h texFormat texTarget : Z) (l : list Z) : option (Z * Z * Z * Z) :=
  match l with
  | [] => None
  | a :: l =>
      if a =? EGL_NONE then Some (w, h, texFormat, texTarget)
      else
        match l with
        | [] => None
        | v :: l =>
            if a =? EGL_WIDTH then pbuffer_attribs v h texFormat texTarget l
            else if a =? EGL_HEIGHT then pbuffer_attribs w v texFormat texTarget l
            else if a =? EGL_TEXTURE_FORMAT then pbuffer_attribs w h v texTarget l
            else if a =? EGL_TEXTURE_TARGET then pbuffer_attribs w h texFormat v l
            else pbuffer_attribs w h texFormat texTarget l
        end
  end.

(** [attrib_list] is [None] for a null pointer, which is read all the same. *)
Definition eglCreatePbufferSurface (dpy config : Z) (attrib_list : option (list Z)) : Egl Z :=
  VALIDATE_DISPLAY_INIT dpy EGL_NO_SURFACE
    (VALIDATE_CONFIG config EGL_FALSE
      (surfaceType ← getConfigAttrib config EGL_SURFACE_TYPE;
       match surfaceType with
       | None => mret EGL_FALSE
       | Some surfaceType =>
           if negb (has_bit surfaceType EGL_PBUFFER_BIT) then setErrorFunc EGL_BAD_MATCH EGL_NO_SURFACE
           else
             match attrib_list ≫= pbuffer_attribs 0 0 EGL_NO_TEXTURE EGL_NO_TEXTURE with
             | None => fault
             | Some (w, h, texFormat, texTarget) =>
                 if negb (Bool.eqb (texFormat =? EGL_NO_TEXTURE) (texTarget =? EGL_NO_TEXTURE))
                 then setErrorFunc EGL_BAD_MATCH EGL_NO_SURFACE
                 else
                   pixelFormat ← getConfigGLPixelFormat config;
                   match pixelFormat with
                   | None => setErrorFunc EGL_BAD_MATCH EGL_NO_SURFACE
                   | Some pixelFormat =>
                       surface ← pbuffer_surface_create dpy config EGL_PBUFFER_BIT w h pixelFormat;
                       if surface =? 0 then setErrorFunc EGL_BAD_ALLOC EGL_NO_SURFACE
                       else
                         s ← deref surfaces surface;
                         put_surface surface (set_texture texFormat texTarget s) ;;
                         mret surface
                   end
             end
       end)).

Definition eglCreatePixmapSurface (dpy config pixmap : Z) : Z := EGL_NO_SURFACE.

(** To delete a null pointer is allowed. *)
Definition eglDestroySurface (dpy eglSurface : Z) : Egl Z :=
  VALIDATE_DISPLAY_INIT dpy EGL_FALSE
    (VALIDATE_SURFACE_RETURN eglSurface EGL_FALSE
      ((if eglSurface =? 0 then mret tt else destroy_surface eglSurface) ;; mret EGL_TRUE)).

Definition getSwapBehavior : Z := EGL_BUFFER_PRESERVED.

(** The value, and what is written. *)
Definition eglQuerySurface (dpy eglSurface attribute : Z) : Egl (Z * option Z) :=
  VALIDATE_DISPLAY_INIT dpy (EGL_FALSE, None)
    (VALIDATE_SURFACE_RETURN eglSurface (EGL_FALSE, None)
      (let member (f : egl_surface_t -> option Z) : Egl (Z * option Z) :=
         s ← deref surfaces eglSurface; mret (EGL_TRUE, f s) in
       if attribute =? EGL_CONFIG_ID then
         s ← deref surfaces eglSurface;
         v ← getConfigAttrib (s_config s) EGL_CONFIG_ID;
         mret (match v with Some v => (EGL_TRUE, Some v) | None => (EGL_FALSE, None) end)
       else if attribute =? EGL_WIDTH then member (fun s => Some (s_width s))
       else if attribute =? EGL_HEIGHT then member (fun s => Some (s_height s))
       else if attribute =? EGL_TEXTURE_FORMAT then member (fun s => Some (s_texFormat s))
       else if attribute =? EGL_TEXTURE_TARGET then member (fun s => Some (s_texTarget s))
       else if attribute =? EGL_SWAP_BEHAVIOR then member (fun s => Some getSwapBehavior)
       else if attribute =? EGL_LARGEST_PBUFFER then
         member (fun s => if has_bit (s_surfaceType s) EGL_PBUFFER_BIT then Some EGL_FALSE else None)
       else if attribute =? EGL_MIPMAP_LEVEL then
         member (fun s => if has_bit (s_surfaceType s) EGL_PBUFFER_BIT then Some 0 else None)
       else if attribute =? EGL_MULTISAMPLE_RESOLVE then mret (EGL_TRUE, Some EGL_MULTISAMPLE_RESOLVE_DEFAULT)
       else setErrorFunc EGL_BAD_ATTRIBUTE (EGL_FALSE, None))).

Definition eglBindAPI (api : Z) : Egl Z :=
  if negb (api =? EGL_OPENGL_ES_API) then setErrorFunc EGL_BAD_PARAMETER EGL_FALSE else mret EGL_TRUE.

Definition eglQueryAPI : Z := EGL_OPENGL_ES_API.

Definition eglCreatePbufferFromClientBuffer (dpy buftype buffer config : Z) : Z := 0.

Definition eglSurfaceAttrib (dpy surface attribute value : Z) : Egl Z :=
  VALIDATE_DISPLAY_INIT dpy EGL_FALSE
    (VALIDATE_SURFACE_RETURN surface EGL_FALSE
      (if surface =? EGL_NO_SURFACE then setErrorFunc EGL_BAD_SURFACE EGL_FALSE
       else mret (if is_one_of attribute [EGL_MIPMAP_LEVEL; EGL_MULTISAMPLE_RESOLVE; EGL_SWAP_BEHAVIOR]
                  then EGL_TRUE else EGL_FALSE))).

Definition eglBindTexImage (dpy eglSurface buffer : Z) : Egl Z :=
  VALIDATE_DISPLAY_INIT dpy EGL_FALSE
    (VALIDATE_SURFACE_RETURN eglSurface EGL_FALSE
      (if eglSurface =? EGL_NO_SURFACE then setErrorFunc EGL_BAD_SURFACE EGL_FALSE
       else if negb (buffer =? EGL_BACK_BUFFER) then setErrorFunc EGL_BAD_PARAMETER EGL_FALSE
       else
         s ← deref surfaces eglSurface;
         if s_texFormat s =? EGL_NO_TEXTURE then setErrorFunc EGL_BAD_MATCH EGL_FALSE
         else if negb (has_bit (s_surfaceType s) EGL_PBUFFER_BIT) then setErrorFunc EGL_BAD_SURFACE EGL_FALSE
         else
           match s_kind s with
           | PbufferSurface b => HOST_CONNECTION EGL_FALSE (rc (BindTexture b) ;; mret EGL_TRUE)
           | WindowSurface _ _ => fault
           end)).

Definition eglReleaseTexImage (dpy surface buffer : Z) : Z := 0.

Definition eglSwapInterval (dpy interval : Z) : Egl Z :=
  VALIDATE_DISPLAY_INIT dpy EGL_FALSE
    (HOST_CONNECTION EGL_FALSE
      (ctx ← getThread currentContext;
       if ctx =? 0 then setErrorFunc EGL_BAD_CONTEXT EGL_FALSE
       else
         c ← deref contexts ctx;
         if c_draw c =? 0 then setErrorFunc EGL_BAD_SURFACE EGL_FALSE
         else
           surface_setSwapInterval (c_draw c) interval ;;
           rc (FBSetSwapInterval interval) ;;
           mret EGL_TRUE)).

(** ** Contexts *)

(** [EGL_CONTEXT_CLIENT_VERSION], the last one; [None]: past the end. *)
Fixpoint client_version (version : Z) (l : list Z) : option Z :=
  match l with
  | [] => None
  | a :: l =>
      if a =? EGL_NONE then Some version
      else match l with
           | [] => None
           | v :: l => client_version (if a =? EGL_CONTEXT_CLIENT_VERSION then v else version) l
           end
  end.

(** The constructor, with the group of the context it shares with, or a new one. *)
Definition new_context (dpy config shareCtx version rcContext : Z) : Egl Z :=
  group ← (if shareCtx =? 0
           then g ← getg next_group; setg (fun e => with_next_group (next_group e + 1) e) ;; mret g
           else c ← deref contexts shareCtx; mret (c_sharedGroup c));
  p ← getg (fun e => new_address (in_use e));
  put_context p (mkContext 0 dpy config EGL_NO_SURFACE EGL_NO_SURFACE shareCtx version rcContext ∅ 0 group) ;;
  mret p.

Definition eglCreateContext (dpy config share_context : Z) (attrib_list : option (list Z)) : Egl Z :=
  VALIDATE_DISPLAY_INIT dpy EGL_NO_CONTEXT
    (VALIDATE_CONFIG config EGL_NO_CONTEXT
      match match attrib_list with None => Some 1 | Some l => client_version 1 l end with
      | None => fault
      | Some version =>
          if negb (version =? 1) && negb (version =? 2) then setErrorFunc EGL_BAD_CONFIG EGL_NO_CONTEXT
          else
            share ← (if share_context =? 0 then mret (Some 0)
                     else c ← deref contexts share_context;
                          mret (if c_dpy c =? dpy then Some (c_rcContext c) else None));
            match share with
            | None => setErrorFunc EGL_BAD_MATCH EGL_NO_CONTEXT
            | Some rcShareCtx =>
                HOST_CONNECTION EGL_NO_CONTEXT
                  (rcContext ← rc_int (CreateContext config rcShareCtx version);
                   if rcContext =? 0 then setErrorFunc EGL_BAD_ALLOC EGL_NO_CONTEXT
                   else new_context dpy config share_context version rcContext)
            end
      end).

Definition delete_context (p : Z) : Egl unit :=
  deref contexts p ;; setg (fun e => with_contexts (delete p (contexts e)) e).

Definition eglDestroyContext (dpy ctx : Z) : Egl Z :=
  VALIDATE_DISPLAY_INIT dpy EGL_FALSE
    (VALIDATE_CONTEXT_RETURN ctx EGL_FALSE
      (current ← getThread currentContext;
       c ← deref contexts ctx;
       if current =? ctx then put_context ctx (set_deletePending 1 c) ;; mret EGL_TRUE
       else
         if c_rcContext c =? 0 then delete_context ctx ;; mret EGL_TRUE
         else
           HOST_CONNECTION EGL_FALSE
             (rc (DestroyContext (c_rcContext c)) ;; delete_context ctx ;; mret EGL_TRUE))).

(** A field of an object that may be null. *)
Definition handle_of {A} (m : EglState -> gmap Z A) (f : A -> Z) (p : Z) : Egl Z :=
  if p =? 0 then mret 0 else x ← deref m p; mret (f x).

(** The encoder of the context that becomes current gets its client state, or that of the
    context that was current gives it up. *)
Definition give_client_state (ctx : Z) : Egl unit :=
  current ← getThread currentContext;
  if negb (ctx =? 0) then
    c ← deref contexts ctx;
    setThread (set_encoder (c_version c) (set_client ctx (Some (c_sharedGroup c))))
  else if negb (current =? 0) then
    c ← deref contexts current;
    setThread (set_encoder (c_version c) (set_client 0 None))
  else mret tt.

(** [ClientAPIExts::initClientFuncs]. *)
Definition initClientFuncs (version idx : Z) : Egl unit :=
  setg (fun e => with_extensions
    (<[idx := list_to_set (filter (fun f => getProcAddress version f = true) client_ext_funcs)]>
       (s_client_extensions e)) e).

(** [_egl_##fname]: the version of the library whose function is called. *)
Definition client_ext (fname : string) : Egl (option Z) :=
  current ← getThread currentContext;
  if current =? 0 then mret None
  else
    c ← deref contexts current;
    funcs ← getg (fun e => default ∅ (s_client_extensions e !! (c_version c - 1)));
    mret (if bool_decide (fname ∈ funcs) then Some (c_version c) else None).

(** The first context of a version initialises the library. *)
Definition init_encoder (ctx : Z) : Egl unit :=
  if ctx =? 0 then mret tt
  else
    c ← deref contexts ctx;
    let version := if c_version c =? 2 then 2 else 1 in
    e ← getThread (encoder version);
    if e_initialized e then mret tt
    else
      iface ← getd (fun d => if version =? 2 then m_gles2_iface d else m_gles_iface d);
      if negb iface then fault
      else
        setThread (add_gles_call version IfaceInit) ;;
        setThread (set_encoder version setInitialized) ;;
        initClientFuncs version (version - 1).

(** What [eglMakeCurrent] does after the host has agreed. *)
Definition make_local (draw read ctx : Z) : Egl unit :=
  (if ctx =? 0 then mret tt
   else c ← deref contexts ctx;
        put_context ctx (set_flags (Z.lor (c_flags c) IS_CURRENT) (set_surfaces draw read c))) ;;
  give_client_state ctx ;;
  current ← getThread currentContext;
  (if current =? 0 then mret tt
   else c ← deref contexts current;
        put_context current (set_flags (Z.land (c_flags c) (Z.lnot IS_CURRENT)) c)) ;;
  setThread (set_currentContext ctx) ;;
  init_encoder ctx.

(** The current context goes if it was destroyed and is replaced. *)
Definition delete_pending (dpy ctx : Z) : Egl unit :=
  current ← getThread currentContext;
  if current =? 0 then mret tt
  else
    c ← deref contexts current;
    if (c_deletePending c =? 0) || (current =? ctx) then mret tt
    else setThread (set_currentContext 0) ;; eglDestroyContext dpy current ;; mret tt.

Definition no_change (draw read ctx : Z) : Egl bool :=
  current ← getThread currentContext;
  if negb (current =? ctx) then mret false
  else if ctx =? 0 then mret true
  else c ← deref contexts ctx; mret ((c_draw c =? draw) && (c_read c =? read)).

Definition eglMakeCurrent (dpy draw read ctx : Z) : Egl Z :=
  VALIDATE_DISPLAY_INIT dpy EGL_FALSE
    (VALIDATE_SURFACE_RETURN draw EGL_FALSE
      (VALIDATE_SURFACE_RETURN read EGL_FALSE
        (if (read =? 0) && (draw =? 0) && negb (ctx =? 0) then setErrorFunc EGL_BAD_MATCH EGL_FALSE
         else if (negb (read =? 0) || negb (draw =? 0)) && (ctx =? 0) then setErrorFunc EGL_BAD_MATCH EGL_FALSE
         else
           ctxHandle ← handle_of contexts c_rcContext ctx;
           drawHandle ← handle_of surfaces s_rcSurface draw;
           readHandle ← handle_of surfaces s_rcSurface read;
           same ← no_change draw read ctx;
           if same : bool then mret EGL_TRUE
           else
             delete_pending dpy ctx ;;
             current ← getThread currentContext;
             flags ← handle_of contexts c_flags ctx;
             if has_bit flags IS_CURRENT && negb (ctx =? current)
             then setErrorFunc EGL_BAD_ACCESS EGL_FALSE
             else
               HOST_CONNECTION EGL_FALSE
                 (ok ← rc_int (MakeCurrent ctxHandle drawHandle readHandle);
                  if ok =? EGL_FALSE then setErrorFunc EGL_BAD_CONTEXT EGL_FALSE
                  else make_local draw read ctx ;; mret EGL_TRUE)))).

Definition eglReleaseThread : Egl Z :=
  current ← getThread currentContext;
  if current =? 0 then mret EGL_TRUE
  else eglMakeCurrent s_display EGL_NO_SURFACE EGL_NO_SURFACE EGL_NO_CONTEXT.

Definition eglGetCurrentContext : Egl Z := getThread currentContext.

Definition eglGetCurrentSurface (readdraw : Z) : Egl Z :=
  context ← getThread currentContext;
  if context =? 0 then mret EGL_NO_SURFACE
  else if readdraw =? EGL_READ then c ← deref contexts context; mret (c_read c)
  else if readdraw =? EGL_DRAW then c ← deref contexts context; mret (c_draw c)
  else setErrorFunc EGL_BAD_PARAMETER EGL_NO_SURFACE.

Definition eglGetCurrentDisplay : Egl Z :=
  context ← getThread currentContext;
  if context =? 0 then mret EGL_NO_DISPLAY else c ← deref contexts context; mret (c_dpy c).

Definition eglQueryContext (dpy ctx attribute : Z) : Egl (Z * option Z) :=
  VALIDATE_DISPLAY_INIT dpy (EGL_FALSE, None)
    (VALIDATE_CONTEXT_RETURN ctx (EGL_FALSE, None)
      (if attribute =? EGL_CONFIG_ID then
         c ← deref contexts ctx;
         v ← getConfigAttrib (c_config c) EGL_CONFIG_ID;
         mret (match v with Some v => (EGL_TRUE, Some v) | None => (EGL_FALSE, None) end)
       else if attribute =? EGL_CONTEXT_CLIENT_TYPE then mret (EGL_TRUE, Some EGL_OPENGL_ES_API)
       else if attribute =? EGL_CONTEXT_CLIENT_VERSION then
         c ← deref contexts ctx; mret (EGL_TRUE, Some (c_version c))
       else if attribute =? EGL_RENDER_BUFFER then
         c ← deref contexts ctx;
         mret (EGL_TRUE, Some (if c_draw c =? 0 then EGL_NONE else EGL_BACK_BUFFER))
       else setErrorFunc EGL_BAD_ATTRIBUTE (EGL_FALSE, None))).

(** ** Waiting and swapping *)

(** [finish] of the library for a context's version. *)
Definition finish (version : Z) : Egl unit :=
  let version := if version =? 2 then 2 else 1 in
  iface ← getd (fun d => if version =? 2 then m_gles2_iface d else m_gles_iface d);
  if negb iface then fault else setThread (add_gles_call version Finish).

Definition eglWaitGL : Egl Z :=
  current ← getThread currentContext;
  if current =? 0 then mret EGL_FALSE
  else c ← deref contexts current; finish (c_version c) ;; mret EGL_TRUE.

Definition eglWaitClient : Egl Z := eglWaitGL.
Definition eglWaitNative (engine : Z) : Z := EGL_TRUE.

Definition eglSwapBuffers (dpy eglSurface : Z) : Egl Z :=
  VALIDATE_DISPLAY_INIT dpy EGL_FALSE
    (if eglSurface =? EGL_NO_SURFACE then setErrorFunc EGL_BAD_SURFACE EGL_FALSE
     else
       HOST_CONNECTION EGL_FALSE
         (d ← deref surfaces eglSurface;
          if negb (s_dpy d =? dpy) then setErrorFunc EGL_BAD_DISPLAY EGL_FALSE
          else window_swapBuffers eglSurface ;; flush_host ;; mret EGL_TRUE)).

Definition eglCopyBuffers (dpy surface target : Z) : Z := 0.
Definition eglLockSurfaceKHR (display surface : Z) : Z := 0.
Definition eglUnlockSurfaceKHR (display surface : Z) : Z := 0.

(** ** Images *)

Definition new_image (i : EGLImage_t) : Egl Z :=
  p ← getg (fun e => new_address (in_use e));
  setg (fun e => with_images (<[p := i]> (images e)) e) ;;
  mret p.

Definition add_ref (n : Z) (p : Z) : Egl unit :=
  b ← deref buffers p;
  put_buffer p (mkNative (n_magic b) (n_version b) (n_refs b + n) (n_width b) (n_height b) (n_handle b)).

Definition valid_native (b : NativeBuffer) : bool :=
  (n_magic b =? ANDROID_NATIVE_BUFFER_MAGIC) && (n_version b =? sizeof_native_buffer).

Definition eglCreateImageKHR (dpy ctx target buffer : Z) : Egl Z :=
  VALIDATE_DISPLAY_INIT dpy 0
    (if target =? EGL_NATIVE_BUFFER_ANDROID then
       if negb (ctx =? EGL_NO_CONTEXT) then setErrorFunc EGL_BAD_CONTEXT 0
       else
         b ← deref buffers buffer;
         if negb (valid_native b) then setErrorFunc EGL_BAD_PARAMETER 0
         else if negb (is_one_of (format (n_handle b))
                  [HAL_PIXEL_FORMAT_RGBA_8888; HAL_PIXEL_FORMAT_RGBX_8888; HAL_PIXEL_FORMAT_RGB_888;
                   HAL_PIXEL_FORMAT_RGB_565; HAL_PIXEL_FORMAT_BGRA_8888])
         then setErrorFunc EGL_BAD_PARAMETER 0
         else add_ref 1 buffer ;; new_image (mkImage dpy target (native_buffer buffer))
     else if target =? EGL_GL_TEXTURE_2D_KHR then
       VALIDATE_CONTEXT_RETURN ctx 0
         (HOST_CONNECTION 0
           (ctxHandle ← handle_of contexts c_rcContext ctx;
            img ← rc_int (CreateClientImage ctxHandle target (u32 buffer));
            new_image (mkImage dpy target (host_egl_image img))))
     else setErrorFunc EGL_BAD_PARAMETER 0).

Definition delete_image (p : Z) : Egl unit := setg (fun e => with_images (delete p (images e)) e).

Definition eglDestroyImageKHR (dpy img : Z) : Egl Z :=
  VALIDATE_DISPLAY_INIT dpy EGL_FALSE
    (if img =? 0 then setErrorFunc EGL_BAD_PARAMETER EGL_FALSE
     else
       i ← deref images img;
       if negb (i_dpy i =? dpy) then setErrorFunc EGL_BAD_PARAMETER EGL_FALSE
       else
         match i_image i with
         | native_buffer p =>
             b ← deref buffers p;
             if negb (valid_native b) then setErrorFunc EGL_BAD_PARAMETER EGL_FALSE
             else add_ref (-1) p ;; delete_image img ;; mret EGL_TRUE
         | host_egl_image h =>
             delete_image img ;;
             HOST_CONNECTION EGL_FALSE (rc_int (DestroyClientImage h))
         end).

(** ** Fences *)

Definition FENCE_SYNC_HANDLE : Z := 0xFE4CE.

Definition eglCreateSyncKHR (dpy type : Z) (attrib_list : option (list Z)) : Egl Z :=
  VALIDATE_DISPLAY dpy 0
    (if negb (type =? EGL_SYNC_FENCE_KHR) then setErrorFunc EGL_BAD_ATTRIBUTE 0
     else
       match attrib_list with
       | Some [] => fault
       | Some (a :: _) => mret (negb (a =? EGL_NONE))
       | None => mret false
       end ≫= fun attribs : bool =>
       if attribs then setErrorFunc EGL_BAD_ATTRIBUTE 0
       else
         current ← getThread currentContext;
         if current =? 0 then setErrorFunc EGL_BAD_MATCH 0
         else c ← deref contexts current; finish (c_version c) ;; mret FENCE_SYNC_HANDLE).

Definition eglDestroySyncKHR (dpy sync : Z) : Egl Z :=
  if negb (sync =? FENCE_SYNC_HANDLE) then setErrorFunc EGL_BAD_PARAMETER EGL_FALSE else mret EGL_TRUE.

Definition eglClientWaitSyncKHR (dpy sync flags timeout : Z) : Egl Z :=
  if negb (sync =? FENCE_SYNC_HANDLE) then setErrorFunc EGL_BAD_PARAMETER EGL_FALSE
  else mret EGL_CONDITION_SATISFIED_KHR.

Definition eglGetSyncAttribKHR (dpy sync attribute : Z) : Egl (Z * option Z) :=
  if negb (sync =? FENCE_SYNC_HANDLE) then setErrorFunc EGL_BAD_PARAMETER (EGL_FALSE, None)
  else if attribute =? EGL_SYNC_TYPE_KHR then mret (EGL_TRUE, Some EGL_SYNC_FENCE_KHR)
  else if attribute =? EGL_SYNC_STATUS_KHR then mret (EGL_TRUE, Some EGL_SIGNALED_KHR)
  else if attribute =? EGL_SYNC_CONDITION_KHR then mret (EGL_TRUE, Some EGL_SYNC_PRIOR_COMMANDS_COMPLETE_KHR)
  else setErrorFunc EGL_BAD_ATTRIBUTE (EGL_FALSE, None).

(** ** A thread ends *)

(** [tlsDestruct]; the connection goes with it. *)
Definition tlsDestruct : Egl unit := setg (fun e => with_threads (delete tid (threads e)) e).
End egl.
