(* ===== verification/EglState.v ===== *)
(** * What is true of the guest's EGL

    The host as an interface ([EglHost]): it holds contexts, surfaces and color buffers,
    hands out numbers for them and answers with as many bytes as it is asked for.  The
    invariant [inv] of the process and the host: every pointer that a function follows
    leads to an object, and the host holds for each object of the guest the one it stands
    for.  How the invariant stays true when a part of the state changes, and the functions
    of the display. *)

From S2P Require Import Prelude Utils Gl RenderThread Checksum GuestStream RenderControlEnc Decoder Remote GuestCode Gralloc EglDisplay Egl.

(** ** The host *)

Inductive kind := KContext | KSurface | KBuffer.

#[export] Instance kind_eq_dec : EqDecision kind.
Proof. solve_decision. Defined.

Definition makes (c : rc_call) : option kind :=
  match c with
  | CreateContext _ _ _ => Some KContext
  | CreateWindowSurface _ _ _ => Some KSurface
  | CreateColorBuffer _ _ _ => Some KBuffer
  | _ => None
  end.

Definition drops (c : rc_call) : option (kind * Z) :=
  match c with
  | DestroyContext h => Some (KContext, h)
  | DestroyWindowSurface h => Some (KSurface, h)
  | CloseColorBuffer h => Some (KBuffer, h)
  | _ => None
  end.

(** The other calls of EGL. *)
Definition neutral (c : rc_call) : bool :=
  match c with
  | GetRendererVersion | GetEGLVersion | QueryEGLString _ _ | GetGLString _ _ | GetNumConfigs | GetConfigs _
  | ChooseConfig _ _ _ _ | SetWindowColorBuffer _ _ | FlushWindowColorBuffer _ | MakeCurrent _ _ _
  | FBSetSwapInterval _ | BindTexture _ | CreateClientImage _ _ _ | DestroyClientImage _ => true
  | _ => false
  end.

Definition one (b : bool) : Z := if b then 1 else 0.

(** What the host of each thread promises, where it can serve a call. *)
Class EglHost {S} (host : Z -> rc_call -> S -> list bytes * S) := {
  held : S -> kind -> Z -> Z;
  serves : Z -> rc_call -> S -> Prop;
  config_count : Z;
  config_attribs : Z;
  config_bounds : 0 <= config_count /\ 0 < config_attribs /\ config_attribs * (config_count + 1) < 2 ^ 28;
  held_nonneg : forall s k h, 0 <= held s k h;
  served_sizes : forall t c s, serves t c s -> exists ls,
    (host t c s).1 = cells ls /\ lengths ls = (packed c).2;
  served_makes : forall t c k s, makes c = Some k -> serves t c s -> exists h,
    in_u 32 h /\ (host t c s).1 = [word h] /\ forall k' h', h' <> 0 ->
      held (host t c s).2 k' h' = held s k' h' + one (bool_decide (k' = k /\ h' = h));
  served_drops : forall t c k h s, drops c = Some (k, h) -> serves t c s -> 0 < held s k h ->
    forall k' h', h' <> 0 ->
      held (host t c s).2 k' h' = held s k' h' - one (bool_decide (k' = k /\ h' = h));
  served_keeps : forall t c s, neutral c = true -> serves t c s ->
    forall k' h', held (host t c s).2 k' h' = held s k' h';
  served_counts : forall t s, serves t GetNumConfigs s ->
    (host t GetNumConfigs s).1 = [word config_attribs; word config_count];
  served_text : forall t name n s l r, serves t (QueryEGLString name n) s ->
    (host t (QueryEGLString name n) s).1 = cells [l; r] -> 0 < int_of r -> is_Some (c_chars (Some <$> l));
  served_choice : forall t l size n s tmp r, serves t (ChooseConfig l size true n) s ->
    (host t (ChooseConfig l size true n) s).1 = cells [tmp; r] -> n <> 0 -> int_of r <= n
}.

(** ** Counting objects by the host's number *)

Definition tally {A} (f : A -> Z) (m : gmap Z A) (h : Z) : Z :=
  Z.of_nat (size (filter (fun x => f x.2 = h) m)).

Lemma tally_nonneg {A} (f : A -> Z) m h : 0 <= tally f m h.
Proof. unfold tally. lia. Qed.

Lemma tally_new {A} (f : A -> Z) m p x h :
  m !! p = None -> tally f (<[p := x]> m) h = tally f m h + one (bool_decide (h = f x)).
Proof.
  intros Hp. unfold tally. destruct (decide (h = f x)) as [->|Hne].
  - rewrite bool_decide_true, map_filter_insert_True by done. cbn.
    rewrite map_size_insert_None; [lia|]. apply map_lookup_filter_None. by left.
  - rewrite bool_decide_false, map_filter_insert_False by (cbn; congruence). cbn.
    rewrite delete_id by done. lia.
Qed.

Lemma tally_delete {A} (f : A -> Z) m p x h :
  m !! p = Some x -> tally f (delete p m) h = tally f m h - one (bool_decide (h = f x)).
Proof.
  intros Hp. pose proof (tally_new f (delete p m) p x h (lookup_delete_eq _ _)) as Hn.
  rewrite insert_delete_eq, (insert_id m) in Hn by done. lia.
Qed.

Lemma tally_put {A} (f : A -> Z) m p x y h :
  m !! p = Some y ->
  tally f (<[p := x]> m) h = tally f m h - one (bool_decide (h = f y)) + one (bool_decide (h = f x)).
Proof.
  intros Hp. rewrite <- insert_delete_eq, tally_new by apply lookup_delete_eq.
  by rewrite (tally_delete _ _ _ y) by done.
Qed.

Definition pbuffer_of (s : egl_surface_t) : Z :=
  match s_kind s with PbufferSurface b => b | WindowSurface _ _ => 0 end.

Definition count (k : kind) (e : EglState) (h : Z) : Z :=
  match k with
  | KContext => tally c_rcContext (contexts e) h
  | KSurface => tally s_rcSurface (surfaces e) h
  | KBuffer => tally pbuffer_of (surfaces e) h
  end.

(** ** The invariant *)

(** A null pointer, or one to an object. *)
Definition live {A} (m : gmap Z A) (p : Z) : Prop := p = 0 \/ is_Some (m !! p).

Section invariant.
Context {S : Type} (host : Z -> rc_call -> S -> list bytes * S) `{HH : !EglHost host}.
Context `{HA : Android, HK : Kernel, HUi : AndroidUi}.
Variable s_display : Z.
Implicit Types (e : EglState) (s : S) (d : eglDisplay).

Definition a_config (c : Z) : Prop := 0 <= c < config_count.

Record display_ok d : Prop := {
  dk_attribs : forall k v, m_attribs d !! k = Some v -> 0 <= v < config_attribs;
  dk_configs : m_initialized d = true ->
    m_numConfigs d = config_count /\ m_numConfigAttribs d = config_attribs /\
    exists l, m_configs d = Some (Some <$> l) /\ zlen l = config_count * config_attribs;
  dk_version : forall l, m_versionString d <> Some (Literal l);
  dk_extensions : forall l, m_extensionString d <> Some (Literal l)
}.

Definition context_ok (p : Z) (c : EGLContext_t) : Prop :=
  p <> 0 /\ c_dpy c = s_display /\ a_config (c_config c).

Definition surface_ok e (p : Z) (x : egl_surface_t) : Prop :=
  p <> 0 /\ s_dpy x = s_display /\ a_config (s_config x) /\
  match s_kind x with
  | WindowSurface w b => is_Some (windows e !! w) /\ live (buffers e) b /\ s_surfaceType x = EGL_WINDOW_BIT
  | PbufferSurface _ => True
  end.

Definition image_ok e (i : EGLImage_t) : Prop :=
  i_dpy i = s_display /\
  match i_image i with native_buffer b => is_Some (buffers e !! b) | host_egl_image _ => True end.

Definition window_ok e (w : NativeWindow) : Prop :=
  Forall (fun b => match b with Some b => is_Some (buffers e !! b) | None => True end) (w_dequeues w).

(** What is current is there. *)
Definition current_ok e (p : Z) : Prop :=
  p = 0 \/ exists c, contexts e !! p = Some c /\ live (surfaces e) (c_draw c) /\ live (surfaces e) (c_read c).

Record egl_ok e : Prop := {
  ok_display : display_ok (display e);
  ok_context : forall p c, contexts e !! p = Some c -> context_ok p c;
  ok_surface : forall p x, surfaces e !! p = Some x -> surface_ok e p x;
  ok_image : forall p i, images e !! p = Some i -> image_ok e i;
  ok_window : forall p w, windows e !! p = Some w -> window_ok e w;
  ok_thread : forall t, current_ok e (currentContext (thread_of t e));
  ok_one : forall t t', currentContext (thread_of t e) = currentContext (thread_of t' e) ->
    currentContext (thread_of t e) <> 0 -> t = t'
}.

(** What the host held before. *)
Variable before : kind -> Z -> Z.
Hypothesis before_nonneg : forall k h, 0 <= before k h.

Definition counted e s : Prop := forall k h, h <> 0 -> held s k h = before k h + count k e h.

Record inv e s : Prop := { inv_ok : egl_ok e; inv_counted : counted e s }.

(** ** Changes of a part *)

Lemma live_insert {A} (m : gmap Z A) p q x : live m q -> live (<[p := x]> m) q.
Proof.
  intros [->|Hq]; [by left|right]. by apply lookup_insert_is_Some'; right.
Qed.

Lemma is_Some_insert {A} (m : gmap Z A) p q x : is_Some (m !! q) -> is_Some (<[p := x]> m !! q).
Proof. intros Hq. by apply lookup_insert_is_Some'; right. Qed.

Lemma current_thread t i e t' :
  thread_of t' (with_threads (<[t := i]> (threads e)) e) = if decide (t' = t) then i else thread_of t' e.
Proof.
  unfold thread_of. cbn. destruct (decide (t' = t)) as [->|Hne];
    [by rewrite lookup_insert_eq|by rewrite lookup_insert_ne].
Qed.

(** The thread has another context. *)
Lemma inv_current t i e s :
  inv e s -> current_ok e (currentContext i) ->
  (forall t', t' <> t -> currentContext i <> 0 -> currentContext (thread_of t' e) <> currentContext i) ->
  inv (with_threads (<[t := i]> (threads e)) e) s.
Proof.
  intros [He Hc] Hi Ho. split; [|done]. split; try apply He.
  - intros t'. rewrite current_thread. case_decide; [done|apply He].
  - intros t1 t2. rewrite !current_thread. do 2 case_decide; subst; try done.
    + intros Heq Hne. exfalso. by apply (Ho t2).
    + intros Heq Hne. exfalso. apply (Ho t1); [done|by rewrite <- Heq|done].
    + apply He.
Qed.

(** Anything else of the thread. *)
Lemma inv_thread t i e s :
  inv e s -> currentContext i = currentContext (thread_of t e) -> inv (with_threads (<[t := i]> (threads e)) e) s.
Proof.
  intros Hi Heq. apply inv_current; [done|rewrite Heq; by apply Hi|].
  rewrite Heq. intros t' Hne H0 Heq'. apply Hne, (ok_one e (inv_ok _ _ Hi)); [done|by rewrite Heq'].
Qed.

Lemma inv_display d e s : inv e s -> display_ok d -> inv (with_display d e) s.
Proof. intros [He Hc] Hd. split; [|done]. split; try apply He. done. Qed.

(** A context changes, but for what it stands for. *)
Lemma inv_context p c c' e s :
  inv e s -> contexts e !! p = Some c -> c_dpy c' = c_dpy c -> c_config c' = c_config c ->
  c_rcContext c' = c_rcContext c ->
  (live (surfaces e) (c_draw c) -> live (surfaces e) (c_draw c')) ->
  (live (surfaces e) (c_read c) -> live (surfaces e) (c_read c')) ->
  inv (with_contexts (<[p := c']> (contexts e)) e) s.
Proof.
  intros [He Hc] Hp Hd Hcf Hrc Hdr Hre. split.
  - split; try apply He; cbn.
    + intros q x. rewrite lookup_insert_Some. intros [[<- <-]|[_ Hq]]; [|by apply He].
      destruct (ok_context e He _ _ Hp) as (H1 & H2 & H3). split; [done|]. by rewrite Hd, Hcf.
    + intros t. destruct (ok_thread e He t) as [H0|(x & Hx & H1 & H2)]; [by left|right].
      change (thread_of t (with_contexts _ e)) with (thread_of t e).
      destruct (decide (currentContext (thread_of t e) = p)) as [Heq|Hne]; cbn.
      * rewrite Heq in *. assert (x = c) as -> by congruence. exists c'. rewrite lookup_insert_eq. auto.
      * exists x. by rewrite lookup_insert_ne.
  - intros k h Hh. rewrite (Hc k h Hh). destruct k; cbn; try done.
    rewrite (tally_put _ _ _ c' c) by done. rewrite Hrc. lia.
Qed.

(** A surface changes; the host's surface and buffer may come. *)
Lemma inv_surface p x x' e s s' :
  inv e s -> surfaces e !! p = Some x -> surface_ok e p x' ->
  (forall h, h <> 0 -> held s' KContext h = held s KContext h) ->
  (forall h, h <> 0 -> held s' KSurface h =
    held s KSurface h - one (bool_decide (h = s_rcSurface x)) + one (bool_decide (h = s_rcSurface x'))) ->
  (forall h, h <> 0 -> held s' KBuffer h =
    held s KBuffer h - one (bool_decide (h = pbuffer_of x)) + one (bool_decide (h = pbuffer_of x'))) ->
  inv (with_surfaces (<[p := x']> (surfaces e)) e) s'.
Proof.
  intros [He Hc] Hp Hx H1 H2 H3. split.
  - split; try apply He; cbn.
    + intros q y. rewrite lookup_insert_Some. intros [[<- <-]|[_ Hq]]; [done|by apply (ok_surface e He)].
    + intros t. destruct (ok_thread e He t) as [H0|(c & Hx1 & Hx2 & Hx3)]; [by left|right].
      exists c. split; [done|]. split; by apply live_insert.
  - intros k h Hh. specialize (Hc k h Hh). destruct k; cbn in *.
    + by rewrite H1.
    + rewrite (tally_put _ _ _ x' x), H2 by done. lia.
    + rewrite (tally_put _ _ _ x' x), H3 by done. lia.
Qed.

(** The same for one that stands for the same. *)
Lemma inv_same_surface p x x' e s :
  inv e s -> surfaces e !! p = Some x -> surface_ok e p x' ->
  s_rcSurface x' = s_rcSurface x -> pbuffer_of x' = pbuffer_of x ->
  inv (with_surfaces (<[p := x']> (surfaces e)) e) s.
Proof.
  intros Hi Hp Hx H1 H2. apply (inv_surface p x x' e s s); try done; intros h _; rewrite ?H1, ?H2; lia.
Qed.

(** A new object of the heap is at an address of its own. *)
Lemma address_free e : new_address (in_use e) <> 0 /\
  contexts e !! new_address (in_use e) = None /\ surfaces e !! new_address (in_use e) = None /\
  images e !! new_address (in_use e) = None.
Proof.
  destruct (new_address_fresh (in_use e)) as [Hf Hp]. unfold in_use in *.
  rewrite !not_elem_of_union, !not_elem_of_dom in Hf. split; [lia|]. tauto.
Qed.

Lemma inv_new_surface p x e s :
  inv e s -> surfaces e !! p = None -> surface_ok e p x -> s_rcSurface x = 0 -> pbuffer_of x = 0 ->
  inv (with_surfaces (<[p := x]> (surfaces e)) e) s.
Proof.
  intros [He Hc] Hp Hx H1 H2. split.
  - split; try apply He; cbn.
    + intros q y. rewrite lookup_insert_Some. intros [[<- <-]|[_ Hq]]; [done|by apply (ok_surface e He)].
    + intros t. destruct (ok_thread e He t) as [H0|(c & Hx1 & Hx2 & Hx3)]; [by left|right].
      exists c. split; [done|]. split; by apply live_insert.
  - intros k h Hh. rewrite (Hc k h Hh). destruct k; cbn; try done;
      rewrite tally_new by done; rewrite ?H1, ?H2, bool_decide_false by done; cbn; lia.
Qed.

(** A surface that no current context uses goes. *)
Definition unused_surface e (p : Z) : Prop := forall t c,
  contexts e !! currentContext (thread_of t e) = Some c -> c_draw c <> p /\ c_read c <> p.

Lemma inv_delete_surface p x e s s' :
  inv e s -> surfaces e !! p = Some x -> unused_surface e p ->
  (forall h, h <> 0 -> held s' KContext h = held s KContext h) ->
  (forall h, h <> 0 -> held s' KSurface h = held s KSurface h - one (bool_decide (h = s_rcSurface x))) ->
  (forall h, h <> 0 -> held s' KBuffer h = held s KBuffer h - one (bool_decide (h = pbuffer_of x))) ->
  inv (with_surfaces (delete p (surfaces e)) e) s'.
Proof.
  intros [He Hc] Hp Hu H1 H2 H3. split.
  - split; try apply He; cbn.
    + intros q y. rewrite lookup_delete_Some. intros [_ Hq]. by apply (ok_surface e He).
    + assert (Hkeep : forall q, q <> p -> live (surfaces e) q -> live (delete p (surfaces e)) q).
      { intros q Hq [->|Hl]; [by left|right]. by rewrite lookup_delete_ne. }
      intros t. destruct (ok_thread e He t) as [H0|(c & Hx1 & Hx2 & Hx3)]; [by left|right].
      destruct (Hu t c Hx1). exists c. split; [done|]. split; by apply Hkeep.
  - intros k h Hh. specialize (Hc k h Hh). destruct k; cbn in *.
    + by rewrite H1.
    + rewrite (tally_delete _ _ _ x), H2 by done. lia.
    + rewrite (tally_delete _ _ _ x), H3 by done. lia.
Qed.

Lemma inv_new_context p c e s s' :
  inv e s -> contexts e !! p = None -> context_ok p c ->
  (forall k h, h <> 0 -> held s' k h = held s k h + one (bool_decide (k = KContext /\ h = c_rcContext c))) ->
  inv (with_contexts (<[p := c]> (contexts e)) e) s'.
Proof.
  intros [He Hc] Hp Hx H1. split.
  - split; try apply He; cbn.
    + intros q y. rewrite lookup_insert_Some. intros [[<- <-]|[_ Hq]]; [done|by apply He].
    + intros t. destruct (ok_thread e He t) as [H0|(x & Hx1 & Hx2)]; [by left|right].
      exists x. split; [|done]. change (thread_of t (with_contexts _ e)) with (thread_of t e).
      cbn. rewrite lookup_insert_ne; [done|]. intros Heq. rewrite Heq in Hp. congruence.
  - intros k h Hh. rewrite H1, (Hc k h Hh) by done. destruct k; cbn.
    + rewrite tally_new by done. rewrite (bool_decide_ext _ (h = c_rcContext c)) by naive_solver. lia.
    + rewrite bool_decide_false by naive_solver. cbn. lia.
    + rewrite bool_decide_false by naive_solver. cbn. lia.
Qed.

Lemma inv_delete_context p c e s s' :
  inv e s -> contexts e !! p = Some c -> (forall t, currentContext (thread_of t e) <> p) ->
  (forall k h, h <> 0 -> held s' k h = held s k h - one (bool_decide (k = KContext /\ h = c_rcContext c))) ->
  inv (with_contexts (delete p (contexts e)) e) s'.
Proof.
  intros [He Hc] Hp Hu H1. split.
  - split; try apply He; cbn.
    + intros q y. rewrite lookup_delete_Some. intros [_ Hq]. by apply He.
    + intros t. destruct (ok_thread e He t) as [H0|(x & Hx1 & Hx2)]; [by left|right].
      exists x. split; [|done]. change (thread_of t (with_contexts _ e)) with (thread_of t e).
      cbn. rewrite lookup_delete_ne; [done|]. intros Heq. by apply (Hu t).
  - intros k h Hh. rewrite H1, (Hc k h Hh) by done. destruct k; cbn.
    + rewrite (tally_delete _ _ _ c) by done. rewrite (bool_decide_ext _ (h = c_rcContext c)) by naive_solver. lia.
    + rewrite bool_decide_false by naive_solver. cbn. lia.
    + rewrite bool_decide_false by naive_solver. cbn. lia.
Qed.

(** ** Calls of the host *)

#[local] Abbreviation runs t m := (wps (host t) (serves t) m).

Lemma cells_all ls : mapM all_some (cells ls) = Some ls.
Proof.
  unfold cells. induction ls as [|l ls IH]; [done|]. cbn. change (List.map Some l) with (Some <$> l : bytes).
  rewrite all_some_fmap. cbn. by rewrite IH.
Qed.

Lemma wps_keeping t c (Q : list bytes -> EglState -> S -> Prop) e s :
  neutral c = true -> inv e s ->
  (forall ls, serves t c s -> (host t c s).1 = cells ls -> lengths ls = (packed c).2 ->
     inv e (host t c s).2 -> Q (cells ls) e (host t c s).2) ->
  runs t (rc c) Q e s.
Proof.
  intros Hn Hi HQ. apply wps_rc. intros Hs. destruct (served_sizes t c s Hs) as (ls & Hls & Hlen).
  rewrite Hls. apply HQ; try done. split; [apply Hi|]. intros k h Hh.
  rewrite (served_keeps t c s Hn Hs). by apply (inv_counted _ _ Hi).
Qed.

Lemma wps_lists t c (Q : list (list Z) -> EglState -> S -> Prop) e s :
  neutral c = true -> inv e s ->
  (forall ls, serves t c s -> (host t c s).1 = cells ls -> lengths ls = (packed c).2 ->
     inv e (host t c s).2 -> Q ls e (host t c s).2) ->
  runs t (rc_lists c) Q e s.
Proof.
  intros Hn Hi HQ. apply wps_bind, wps_keeping; [done..|]. intros ls H1 H2 H3 H4.
  rewrite cells_all. apply wps_ret. by apply HQ.
Qed.

Lemma wps_number t c (Q : Z -> EglState -> S -> Prop) e s :
  neutral c = true -> (packed c).2 = [4] -> inv e s ->
  (forall z s', inv e s' -> Q z e s') -> runs t (rc_int c) Q e s.
Proof.
  intros Hn Hp Hi HQ. apply wps_bind, wps_keeping; [done..|]. intros ls _ _ Hlen Hi'. rewrite Hp in Hlen.
  destruct ls as [|l [|]]; try done. cbn. rewrite app_nil_r.
  change (List.map Some l) with (Some <$> l : bytes). rewrite all_some_fmap. by apply wps_ret, HQ.
Qed.

(** Replies of a result and a number. *)
Lemma wps_pair t c n (Q : list (list Z) -> EglState -> S -> Prop) e s :
  neutral c = true -> (packed c).2 = [n; 4] -> inv e s ->
  (forall l r s', serves t c s -> (host t c s).1 = cells [l; r] -> zlen l = n -> inv e s' -> Q [l; r] e s') ->
  runs t (rc_lists c) Q e s.
Proof.
  intros Hn Hp Hi HQ. apply wps_lists; [done..|]. intros ls Hs Hls Hlen Hi'. rewrite Hp in Hlen.
  destruct ls as [|l [|r [|]]]; try done. injection Hlen as Hl Hr. by apply HQ.
Qed.

(** ** The display *)

Definition ready e : Prop := m_initialized (display e) = true.

Lemma wps_getd {A} t (f : eglDisplay -> A) (Q : A -> EglState -> S -> Prop) e s :
  Q (f (display e)) e s -> runs t (getd f) Q e s.
Proof. by intros HQ _. Qed.

Lemma wps_setd t f (Q : unit -> EglState -> S -> Prop) e s :
  Q tt (with_display (f (display e)) e) s -> runs t (setd f) Q e s.
Proof. by intros HQ _. Qed.

Lemma attrib_index e s k : inv e s ->
  default ATTRIBUTE_NONE (m_attribs (display e) !! k) = ATTRIBUTE_NONE \/
  0 <= default ATTRIBUTE_NONE (m_attribs (display e) !! k) < config_attribs.
Proof.
  intros Hi. destruct (m_attribs (display e) !! k) as [i|] eqn:Hk; [right|by left].
  by apply (dk_attribs _ (ok_display _ (inv_ok _ _ Hi)) _ _ Hk).
Qed.

(** The cells of the table. *)
Lemma cell_there d c i :
  display_ok d -> m_initialized d = true -> a_config c -> 0 <= i < config_attribs ->
  exists l v, m_configs d = Some (Some <$> l) /\ zlen l = config_count * config_attribs /\
    0 <= c * m_numConfigAttribs d + i < zlen l /\
    zlookup (Some <$> l) (c * m_numConfigAttribs d + i) = Some (Some v).
Proof.
  intros Hd Hinit Hc Hi. destruct (dk_configs d Hd Hinit) as (_ & Ha & l & Hl & Hlen). unfold a_config in Hc.
  rewrite Ha. assert (Hr : 0 <= c * config_attribs + i < zlen l) by nia.
  destruct (proj2 (lookup_lt_is_Some l (Z.to_nat (c * config_attribs + i)))) as [v Hv]; [unfold zlen in Hr; lia|].
  exists l, v. split; [done|]. split; [done|]. split; [done|]. unfold zlookup. rewrite decide_True by lia.
  by rewrite list_lookup_fmap, Hv.
Qed.

Lemma wps_getConfigAttrib t c k (Q : option Z -> EglState -> S -> Prop) e s :
  inv e s -> ready e -> a_config c -> (forall v, Q v e s) -> runs t (getConfigAttrib c k) Q e s.
Proof.
  intros Hi Hr Hc HQ. apply wps_bind, wps_getd. unfold getAttribValue.
  destruct (attrib_index e s k Hi) as [->|Hk]; [by apply wps_ret|].
  destruct (Z.eqb_spec (default ATTRIBUTE_NONE (m_attribs (display e) !! k)) ATTRIBUTE_NONE); [by apply wps_ret|].
  apply wps_bind, wps_getd.
  destruct (cell_there _ c _ (ok_display _ (inv_ok _ _ Hi)) Hr Hc Hk) as (l & v & Hl & _ & _ & Hv).
  rewrite Hl. cbn [mbind option_bind]. rewrite Hv. by apply wps_ret.
Qed.

Lemma wps_setConfigAttrib t c k v (Q : bool -> EglState -> S -> Prop) e s :
  inv e s -> ready e -> a_config c ->
  (forall b d, inv (with_display d e) s -> m_initialized d = true -> Q b (with_display d e) s) ->
  runs t (setConfigAttrib c k v) Q e s.
Proof.
  intros Hi Hr Hc HQ. assert (Hsame : with_display (display e) e = e) by by destruct e.
  apply wps_bind, wps_getd. unfold setAttribValue.
  destruct (Z.eqb_spec (default ATTRIBUTE_NONE (m_attribs (display e) !! k)) ATTRIBUTE_NONE) as [|Hne].
  { apply wps_ret. rewrite <- Hsame. apply HQ; [by rewrite Hsame|done]. }
  destruct (attrib_index e s k Hi) as [|Hk]; [done|].
  pose proof (ok_display _ (inv_ok _ _ Hi)) as Hd.
  apply wps_bind, wps_getd, wps_bind, wps_getd.
  destruct (cell_there _ c _ Hd Hr Hc Hk) as (l & v0 & Hl & Hlen & Hin & Hv).
  rewrite Hl. set (i := c * _ + _) in *. replace (zlen (Some <$> l)) with (zlen l) by (unfold zlen; by rewrite length_fmap).
  replace ((0 <=? i) && (i <? zlen l)) with true by lia. apply wps_bind, wps_setd, wps_ret.
  apply HQ; [|done]. apply inv_display; [done|]. split; cbn; try apply Hd. intros _.
  destruct (dk_configs _ Hd Hr) as (H1 & H2 & _). split; [done|]. split; [done|].
  exists (zinsert i v l). split.
  - unfold zinsert. case_decide; [by rewrite list_fmap_insert|done].
  - by rewrite zlen_zinsert.
Qed.

Lemma wps_config_sizes t c (Q : option (Z * Z * Z * Z) -> EglState -> S -> Prop) e s :
  inv e s -> ready e -> a_config c -> (forall v, Q v e s) -> runs t (config_sizes c) Q e s.
Proof.
  intros Hi Hr Hc HQ. unfold config_sizes.
  do 4 (apply wps_bind, wps_getConfigAttrib; [done..|]; intros [?|]; [|by apply wps_ret]). by apply wps_ret.
Qed.

Lemma wps_getConfigGLPixelFormat t c (Q : option Z -> EglState -> S -> Prop) e s :
  inv e s -> ready e -> a_config c -> (forall v, Q v e s) -> runs t (getConfigGLPixelFormat c) Q e s.
Proof. intros Hi Hr Hc HQ. apply wps_bind, wps_config_sizes; [done..|]. intros v. by apply wps_ret. Qed.

Lemma wps_process_configs t n : forall i (Q : unit -> EglState -> S -> Prop) e s,
  inv e s -> ready e -> 0 <= i -> i + Z.of_nat n <= config_count ->
  (forall d, inv (with_display d e) s -> Q tt (with_display d e) s) ->
  runs t (process_configs n i) Q e s.
Proof.
  induction n as [|n IH]; intros i Q e s Hi Hr H0 Hn HQ.
  - apply wps_ret. replace e with (with_display (display e) e) by by destruct e. apply HQ. by destruct e.
  - assert (Hc : a_config i) by (unfold a_config; lia).
    apply wps_bind, wps_bind, wps_config_sizes; [done..|]. intros v. apply wps_ret.
    assert (Hnext : forall d, inv (with_display d e) s -> m_initialized d = true ->
      runs t (process_configs n (i + 1)) Q (with_display d e) s).
    { intros d Hd Hd'. apply IH; [done|done|lia|lia|]. intros d'. apply HQ. }
    destruct (match v with Some (r, g, b, a) => native_pixel_format r g b a | None => None end) as [f|].
    + apply wps_bind, wps_bind, wps_setConfigAttrib; [done..|]. intros b d Hd Hd'. apply wps_ret. by apply Hnext.
    + apply wps_bind, wps_ret. replace e with (with_display (display e) e) by by destruct e.
      apply Hnext; [by destruct e|done].
Qed.

(** *** Initialising *)

Lemma int_array_len l n : 0 <= n -> zlen l = n * 4 -> zlen (int_array l) = n.
Proof.
  intros Hn. revert l. pattern n. apply natlike_ind; [|clear n Hn|done].
  - intros l Hl. by rewrite (zlen_nil_inv l) by lia.
  - intros n Hn IH l Hl. destruct l as [|a [|b [|c [|d l]]]]; rewrite ?zlen_cons in Hl;
      try (change (zlen []) with 0 in Hl; lia); try (pose proof (zlen_nonneg l); lia).
    cbn [int_array]. rewrite zlen_cons, IH; lia.
Qed.

Lemma tmp_buf_full n l : 0 <= n -> zlen l = n * 4 -> tmp_buf n l = Some <$> int_array l.
Proof.
  intros Hn Hl. unfold tmp_buf. pose proof (int_array_len l n Hn Hl) as Hlen.
  apply ztake_app_eq. unfold zlen in *. by rewrite length_fmap.
Qed.

Lemma add_attribs_range l m :
  zlen l <= config_attribs -> (forall k v, m !! k = Some v -> 0 <= v < config_attribs) ->
  forall k v, add_attribs l m !! k = Some v -> 0 <= v < config_attribs.
Proof.
  intros Hl. unfold add_attribs.
  assert (Hp : Forall (fun p => 0 <= p.1 < config_attribs) (imap (fun i id => (Z.of_nat i, id)) l)).
  { apply Forall_lookup. intros i p. rewrite list_lookup_imap. intros Hi.
    destruct (l !! i) as [x|] eqn:Hx; [|done]. apply lookup_lt_Some in Hx. injection Hi as <-. cbn. unfold zlen in Hl. lia. }
  revert m. induction Hp as [|[i id] ps Hi _ IH]; intros m Hm; [done|]. cbn. apply IH.
  intros k v. rewrite lookup_insert_Some. intros [[_ <-]|[_ Hv]]; [done|by eapply Hm].
Qed.

(** The display before it is initialised. *)
Lemma blank_display e s d :
  inv e s -> m_initialized d = false -> m_attribs d = m_attribs (display e) ->
  m_versionString d = m_versionString (display e) -> m_extensionString d = m_extensionString (display e) ->
  inv (with_display d e) s.
Proof.
  intros Hi Hd Ha Hv He. apply inv_display; [done|]. pose proof (ok_display _ (inv_ok _ _ Hi)) as Hok.
  split; [rewrite Ha; apply Hok|by rewrite Hd|rewrite Hv; apply Hok|rewrite He; apply Hok].
Qed.

Definition set_up e s (Q : bool -> EglState -> S -> Prop) : Prop :=
  (forall d, inv (with_display d e) s -> m_initialized d = true -> Q true (with_display d e) s) /\
  (forall d, inv (with_display d e) s -> Q false (with_display d e) s).

Lemma take_configs_ok t l (Q : bool -> EglState -> S -> Prop) e s :
  let n := config_count in let a := config_attribs in let nInts := a * (n + 1) in
  inv e s -> m_numConfigs (display e) = n -> m_numConfigAttribs (display e) = a ->
  m_configs (display e) = Some (replicate (Z.to_nat (n * a)) None) -> zlen l = nInts * 4 ->
  set_up e s Q -> runs t (take_configs n a nInts l) Q e s.
Proof.
  intros n a nInts Hi Hn Ha Hm Hl [HQ _]. destruct config_bounds as (Hn0 & Ha0 & Hb).
  assert (Hnn : 0 <= nInts) by (unfold nInts; nia). assert (Hsum : a + n * a = nInts) by (unfold nInts; ring).
  unfold take_configs. rewrite tmp_buf_full by done. set (v := int_array l).
  assert (Hv : zlen v = nInts) by by apply int_array_len.
  assert (Htake : ztake a (Some <$> v) = Some <$> ztake a v) by (unfold ztake; by rewrite fmap_take).
  rewrite Htake, all_some_fmap. assert (Hsz : i32 (n * a) = n * a) by (apply wraps_id; unfold in_s; nia).
  rewrite Hsz. replace (nInts <? a) with false by lia. replace (n * a <? 0) with false by nia.
  replace (nInts <? a + n * a) with false by lia.
  rewrite (wrapu_id 32 (nInts - a)) by (unfold in_u; nia). replace (nInts - a <? n * a) with false by lia. cbn [orb].
  apply wps_bind, wps_setd, wps_bind, wps_setd, wps_ret. cbn [display with_display].
  change (with_display ?d (with_display _ e)) with (with_display d e). apply HQ; [|done].
  apply inv_display; [done|]. pose proof (ok_display _ (inv_ok _ _ Hi)) as Hok. split; cbn; try apply Hok.
  - apply add_attribs_range; [|apply Hok]. rewrite zlen_ztake; lia.
  - intros _. split; [done|]. split; [done|]. exists (zdrop a v). rewrite Hm. cbn. split.
    + f_equal. rewrite (zdrop_all _ (replicate _ _)) by (rewrite zlen_replicate; nia). rewrite app_nil_r. unfold ztake, zdrop.
      rewrite <- fmap_drop, <- fmap_take. f_equal. apply take_ge. rewrite length_drop. unfold zlen in Hv. nia.
    + rewrite zlen_zdrop; lia.
Qed.

Lemma query_configs_ok t (Q : bool -> EglState -> S -> Prop) e s :
  inv e s -> m_initialized (display e) = false -> (forall s, inv e s -> set_up e s Q) ->
  runs t query_configs Q e s.
Proof.
  intros Hi He HQ. destruct config_bounds as (Hn0 & Ha0 & Hb). apply wps_bind, wps_bind, wps_keeping; [done..|].
  intros ls Hs Hls _ Hi'. rewrite served_counts in Hls by done. rewrite <- Hls.
  change [word config_attribs; word config_count] with (cells [little_endian 4 config_attribs; little_endian 4 config_count]).
  rewrite cells_all. apply wps_ret. unfold int_of. rewrite !le_value_little_endian by (unfold in_u; nia).
  rewrite !(wraps_id 32) by (unfold in_s; nia). apply wps_bind, wps_setd.
  destruct ((config_count <=? 0) || (config_attribs <=? 0)) eqn:Hpos.
  { apply wps_ret. destruct (HQ _ Hi') as [_ HQ2]. apply HQ2. by eapply blank_display. }
  rewrite (wraps_id 32 (config_count + 1)), (wraps_id 32) by (unfold in_s; nia).
  rewrite (wrapu_id 32 (_ * _)) by (unfold in_u; nia). set (nInts := config_attribs * (config_count + 1)).
  rewrite (wrapu_id 32 (nInts - _)) by (unfold in_u, nInts; nia). apply wps_bind, wps_setd. cbn [display with_display].
  set (d := set_configs _ _ _). change (with_display d (with_display _ e)) with (with_display d e).
  assert (Hi2 : inv (with_display d e) (host t GetNumConfigs s).2) by by eapply blank_display.
  apply wps_bind, (wps_pair t _ (nInts * 4)); [done| |done|].
  { cbn. rewrite (wrapu_id 32) by (unfold in_u, nInts; nia). done. }
  intros l r s' Hs' _ Hl Hi3.
  assert (Hset : set_up (with_display d e) s' Q).
  { destruct (HQ s') as [HQ1 HQ2]; [|by split].
    replace e with (with_display (display e) (with_display d e)) by by destruct e.
    by eapply blank_display. }
  destruct (_ =? _); [|apply wps_ret; by apply Hset].
  apply take_configs_ok; try done. cbn. do 3 f_equal. unfold nInts. ring.
Qed.

Lemma query_version_ok t (Q : bool -> EglState -> S -> Prop) e s :
  inv e s -> m_initialized (display e) = false ->
  (forall b d s', inv (with_display d e) s' -> m_initialized d = false -> Q b (with_display d e) s') ->
  runs t query_version Q e s.
Proof.
  intros Hi He HQ. apply wps_bind, wps_number; [done..|]. intros v s1 Hi1.
  apply wps_bind, wps_setd, wps_bind, wps_lists; [done|by eapply blank_display|].
  intros ls _ _ Hlen Hi2. destruct ls as [|major [|minor [|status [|]]]]; try done.
  apply wps_bind, wps_setd. cbn [display with_display].
  set (d := set_version _ _ _). change (with_display d (with_display _ e)) with (with_display d e).
  assert (Hi3 : forall d', m_initialized d' = false -> m_attribs d' = m_attribs (display e) ->
    m_versionString d' = m_versionString (display e) -> m_extensionString d' = m_extensionString (display e) ->
    inv (with_display d' e) (host t GetEGLVersion s1).2).
  { intros d' H1 H2 H3 H4.
    change (with_display d' e) with (with_display d' (with_display (set_renderer_version (i32 v) (display e)) e)).
    by eapply blank_display. }
  destruct (_ =? _).
  - apply wps_bind, wps_setd, wps_ret. cbn [display with_display].
    change (with_display ?d' (with_display _ e)) with (with_display d' e).
    assert (Hl : m_initialized (lowest_version d) = false /\ m_attribs (lowest_version d) = m_attribs (display e) /\
      m_versionString (lowest_version d) = m_versionString (display e) /\
      m_extensionString (lowest_version d) = m_extensionString (display e)).
    { unfold lowest_version. by repeat case_match. }
    destruct Hl as (H1 & H2 & H3 & H4). apply HQ; [by apply Hi3|done].
  - apply wps_ret, HQ; [by apply Hi3|done].
Qed.

Lemma initialize_ok t con gles gles2 (Q : bool -> EglState -> S -> Prop) e s :
  inv e s -> (forall b d s', inv (with_display d e) s' -> Q b (with_display d e) s') ->
  runs t (initialize con gles gles2) Q e s.
Proof.
  intros Hi HQ.
  set (R := fun (ok : bool) e' s' => exists d, e' = with_display d e /\ inv e' s' /\ (ok = true -> ready e')).
  assert (Hend : forall ok e' s', R ok e' s' ->
    runs t (if ok : bool then processConfigs ;; mret true else mret false) Q e' s').
  { intros [] e' s' (d & -> & Hi' & Hr); [|by apply wps_ret, HQ]. specialize (Hr eq_refl).
    destruct config_bounds as (Hn0 & _). apply wps_bind, wps_bind, wps_getd, wps_process_configs; [done..| |].
    - destruct (dk_configs _ (ok_display _ (inv_ok _ _ Hi')) Hr) as (Hn & _). rewrite Hn. lia.
    - intros d' Hd'. apply wps_ret. by apply (HQ true d'). }
  apply wps_bind, wps_getd, wps_bind. destruct (m_initialized (display e)) eqn:He.
  { apply wps_ret, (Hend true). exists (display e). destruct e. by split_and!. }
  eapply wps_mono; [|exact Hend].
  apply wps_bind, wps_setd. cbn [display with_display].
  assert (Hi1 : inv (with_display (set_ifaces (loadGLESClientAPI gles) (m_gles2_iface (display e)) (display e)) e) s)
    by by eapply blank_display.
  destruct (loadGLESClientAPI gles); cbn [negb]; [|apply wps_ret; by eexists].
  apply wps_bind, wps_setd. cbn [display with_display].
  set (d := set_ifaces _ _ _). change (with_display d (with_display _ e)) with (with_display d e).
  assert (Hi2 : inv (with_display d e) s) by by eapply blank_display.
  destruct con; cbn [negb]; [|apply wps_ret; by eexists].
  apply wps_bind, query_version_ok; [done..|]. intros b d' s' Hi3 Hd'.
  change (with_display d' (with_display d e)) with (with_display d' e) in *.
  destruct b; [|apply wps_ret; by eexists]. apply query_configs_ok; [done..|].
  intros s2 _. split; intros d2 Hi4; change (with_display d2 (with_display d' e)) with (with_display d2 e) in *; by exists d2.
Qed.

Lemma terminate_ok t (Q : unit -> EglState -> S -> Prop) e s :
  inv e s -> (forall l, m_vendorString (display e) <> Some (Literal l)) ->
  (forall d, inv (with_display d e) s -> Q tt (with_display d e) s) ->
  runs t terminate Q e s.
Proof.
  intros Hi Hv HQ. pose proof (ok_display _ (inv_ok _ _ Hi)) as Hd.
  assert (Hfree : forall c (Q : unit -> EglState -> S -> Prop) e s,
    (forall l, c <> Some (Literal l)) -> Q tt e s -> runs t (free_chars c) Q e s).
  { intros [[l|l]|] Q' e' s' Hc HQ'; try by apply wps_ret. by destruct (Hc l). }
  apply wps_bind, wps_getd. destruct (m_initialized (display e)) eqn:He.
  2: { apply wps_ret. replace e with (with_display (display e) e) by by destruct e. apply HQ. by destruct e. }
  apply wps_bind, wps_setd, wps_bind, wps_getd. cbn [display with_display].
  apply wps_bind, Hfree; [apply Hd|]. apply wps_bind, Hfree; [apply Hv|]. apply wps_bind, Hfree; [apply Hd|].
  apply wps_setd. cbn [display with_display]. set (d := set_strings _ _ _ _).
  change (with_display d (with_display _ e)) with (with_display d e). apply HQ, inv_display; [done|].
  split; cbn; try done. apply Hd.
Qed.

(** *** Strings *)

Lemma c_chars_app l r x : c_chars l = Some x -> c_chars (l ++ r) = Some x.
Proof.
  revert x. induction l as [|[b|] l IH]; intros x; cbn; try done. destruct (b =? 0); [done|].
  destruct (c_chars l) as [y|]; [|done]. intros [= <-]. by rewrite (IH y).
Qed.

Lemma queryHostEGLString_ok t con name (Q : option (list Z) -> EglState -> S -> Prop) e s :
  inv e s -> (forall r s', inv e s' -> Q r e s') -> runs t (queryHostEGLString con name) Q e s.
Proof.
  intros Hi HQ. unfold queryHostEGLString. destruct con; cbn [negb]; [|by apply wps_ret, HQ].
  apply wps_bind, (wps_pair t _ 0); [done..|]. intros l r s1 _ _ _ Hi1.
  destruct (int_of r <? 0); [|by apply wps_ret, HQ].
  apply wps_bind, (wps_pair t _ (u32 (i32 (- int_of r)))); [done..|]. intros l2 r2 s2 Hs2 Hans _ Hi2.
  destruct (Z.ltb_spec 0 (int_of r2)); [|by apply wps_ret, HQ].
  destruct (served_text t _ _ _ _ _ Hs2 Hans) as [x Hx]; [done|].
  rewrite (c_chars_app _ _ x Hx). by apply wps_ret, HQ.
Qed.

Lemma queryString_ok t con name (Q : option (list Z) -> EglState -> S -> Prop) e s :
  inv e s -> (forall r d s', inv (with_display d e) s' -> Q r (with_display d e) s') ->
  runs t (queryString con name) Q e s.
Proof.
  intros Hi HQ. assert (Hsame : with_display (display e) e = e) by by destruct e.
  assert (HQ' : forall r s', inv e s' -> Q r e s') by (intros r s'; rewrite <- Hsame; apply HQ).
  assert (Hstr : forall a b c s', inv e s' -> (forall l, a <> Some (Literal l)) -> (forall l, c <> Some (Literal l)) ->
    inv (with_display (set_strings a b c (display e)) e) s').
  { intros a b c s' Hi' Ha Hc. apply inv_display; [done|]. pose proof (ok_display _ (inv_ok _ _ Hi)) as Hd.
    split; cbn; try done; apply Hd. }
  pose proof (ok_display _ (inv_ok _ _ Hi)) as Hd. unfold queryString.
  destruct (_ =? _); [by apply wps_ret, HQ'|]. destruct (_ =? _); [|destruct (_ =? _); [|destruct (_ =? _)]].
  - apply wps_bind, wps_getd. destruct (m_versionString (display e)); [by apply wps_ret, HQ'|].
    apply wps_bind, wps_getd, wps_bind, wps_setd, wps_ret, HQ, Hstr; [done|done|apply Hd].
  - apply wps_bind, wps_getd. destruct (m_vendorString (display e)); [by apply wps_ret, HQ'|].
    apply wps_bind, queryHostEGLString_ok; [done|]. intros r s' Hi'.
    apply wps_bind, wps_setd, wps_ret, HQ, Hstr; [done|apply Hd|apply Hd].
  - apply wps_bind, wps_getd. destruct (m_extensionString (display e)); [by apply wps_ret, HQ'|].
    apply wps_bind, wps_bind, queryHostEGLString_ok; [done|]. intros r s' Hi'. apply wps_ret.
    apply wps_bind, wps_setd, wps_ret, HQ, Hstr; [done|apply Hd|done].
  - by apply wps_ret, HQ'.
Qed.
End invariant.
