(* ===== verification/EglHistory.v ===== *)
(** * Every history of the guest's EGL

    The functions of Egl.v, called by several threads in any order.  As long as the
    application passes pointers to objects that are there, no function follows a pointer
    that leads nowhere, and the host holds exactly the contexts, surfaces and buffers of
    the guest's objects ([egl_history]). *)

From S2P Require Import Prelude Utils Gl RenderThread Checksum GuestStream RenderControlEnc Decoder Remote GuestCode Gralloc EglDisplay Egl EglState.

Section history.
Context {S : Type} (host : Z -> rc_call -> S -> list bytes * S) `{HH : !EglHost host}.
Context `{HA : Android, HK : Kernel, HUi : AndroidUi}.
Variable s_display : Z.
Variable getProcAddress : Z -> string -> bool.
Variable before : kind -> Z -> Z.
Hypothesis before_nonneg : forall k h, 0 <= before k h.
Implicit Types (e : EglState) (s : S).

#[local] Abbreviation runs t m := (wps (host t) (serves t) m).
#[local] Abbreviation inv := (inv host s_display before).

(** ** Steps *)

Definition safe {A} (t : Z) (m : Egl A) e s : Prop := runs t m (fun _ => inv) e s.

Lemma calls_safe_ret {A} t (a : A) e s : inv e s -> safe t (mret a) e s.
Proof. intros Hi. by apply wps_ret. Qed.

Lemma calls_safe_bind {A B} t (m : Egl A) (f : A -> Egl B) e s :
  runs t m (fun a => safe t (f a)) e s -> safe t (m ≫= f) e s.
Proof. apply wps_bind. Qed.

Lemma wps_deref {A} t (m : EglState -> gmap Z A) p x (Q : A -> EglState -> S -> Prop) e s :
  m e !! p = Some x -> Q x e s -> runs t (deref m p) Q e s.
Proof. intros Hp HQ. apply wps_bind, wps_getg. rewrite Hp. by apply wps_ret. Qed.

Lemma wps_thread {A} t (f : EGLThreadInfo -> A) (Q : A -> EglState -> S -> Prop) e s :
  Q (f (thread_of t e)) e s -> runs t (getThread t f) Q e s.
Proof. by intros HQ _. Qed.

Definition with_thread t (f : EGLThreadInfo -> EGLThreadInfo) e : EglState :=
  with_threads (<[t := f (thread_of t e)]> (threads e)) e.

Lemma wps_set_thread t f (Q : unit -> EglState -> S -> Prop) e s :
  Q tt (with_thread t f e) s -> runs t (setThread t f) Q e s.
Proof. by intros HQ _. Qed.

Lemma inv_with_thread t f e s :
  inv e s -> currentContext (f (thread_of t e)) = currentContext (thread_of t e) -> inv (with_thread t f e) s.
Proof. intros Hi Hf. by apply inv_thread. Qed.

Lemma wps_error {A} t err (r : A) (Q : A -> EglState -> S -> Prop) e s :
  inv e s ->
  (inv (with_thread t (set_eglError err) e) s -> Q r (with_thread t (set_eglError err) e) s) ->
  runs t (setErrorFunc t err r) Q e s.
Proof. intros Hi HQ. apply wps_bind, wps_set_thread, wps_ret, HQ. by apply inv_with_thread. Qed.

Lemma safe_error {A} t err (r : A) e s : inv e s -> safe t (setErrorFunc t err r) e s.
Proof. intros Hi. by apply wps_error. Qed.

Lemma safe_display {A} t dpy (ret : A) k e s :
  inv e s -> (dpy = s_display -> safe t k e s) -> safe t (VALIDATE_DISPLAY s_display t dpy ret k) e s.
Proof.
  intros Hi Hk. unfold VALIDATE_DISPLAY. destruct (Z.eqb_spec dpy s_display); [by apply Hk|by apply safe_error].
Qed.

Lemma safe_init {A} t dpy (ret : A) k e s :
  inv e s -> (dpy = s_display -> ready e -> safe t k e s) ->
  safe t (VALIDATE_DISPLAY_INIT s_display t dpy ret k) e s.
Proof.
  intros Hi Hk. apply safe_display; [done|]. intros ->. apply calls_safe_bind, wps_getd.
  destruct (m_initialized (display e)) eqn:He; [by apply Hk|by apply safe_error].
Qed.

(** The number of configurations passes for one. *)
Lemma safe_config {A} t c (ret : A) k e s :
  inv e s -> ready e -> c <> m_numConfigs (display e) -> (a_config host c -> safe t k e s) ->
  safe t (VALIDATE_CONFIG t c ret k) e s.
Proof.
  intros Hi Hr Hne Hk. apply calls_safe_bind, wps_getd.
  destruct (dk_configs _ _ (ok_display _ _ _ (inv_ok _ _ _ _ _ Hi)) Hr) as (Hn & _). rewrite Hn in *.
  destruct ((c <? 0) || (config_count <? c)) eqn:Hc; [by apply safe_error|]. apply Hk. unfold a_config. lia.
Qed.

Lemma safe_surface {A} t p (ret : A) k e s :
  inv e s -> live (surfaces e) p -> safe t k e s -> safe t (VALIDATE_SURFACE_RETURN s_display t p ret k) e s.
Proof.
  intros Hi Hp Hk. unfold VALIDATE_SURFACE_RETURN. destruct (Z.eqb_spec p EGL_NO_SURFACE) as [->|Hne]; [done|].
  destruct Hp as [->|[x Hx]]; [done|]. apply calls_safe_bind. eapply wps_deref; [done|].
  destruct (ok_surface _ _ _ (inv_ok _ _ _ _ _ Hi) _ _ Hx) as (_ & -> & _). by rewrite Z.eqb_refl.
Qed.

Lemma safe_context {A} t p (ret : A) k e s :
  inv e s -> (p <> 0 -> safe t k e s) -> safe t (VALIDATE_CONTEXT_RETURN t p ret k) e s.
Proof.
  intros Hi Hk. unfold VALIDATE_CONTEXT_RETURN. destruct (Z.eqb_spec p 0); [by apply safe_error|by apply Hk].
Qed.

Lemma safe_connected {A} t con (ret : A) k e s :
  inv e s -> (con = true -> safe t k e s) -> safe t (HOST_CONNECTION con ret k) e s.
Proof. intros Hi Hk. destruct con; [by apply Hk|by apply calls_safe_ret]. Qed.

Lemma wps_handle {A} t (m : EglState -> gmap Z A) f p (Q : Z -> EglState -> S -> Prop) e s :
  live (m e) p -> (forall z, Q z e s) -> runs t (handle_of m f p) Q e s.
Proof.
  intros Hp HQ. unfold handle_of. destruct (Z.eqb_spec p 0) as [->|Hne]; [by apply wps_ret|].
  destruct Hp as [->|[x Hx]]; [done|]. apply wps_bind. eapply wps_deref; [done|]. by apply wps_ret.
Qed.

(** A neutral call whose answer nobody looks at. *)
Lemma wps_quiet t c (Q : list bytes -> EglState -> S -> Prop) e s :
  neutral c = true -> inv e s -> (forall ls s', inv e s' -> Q ls e s') -> runs t (rc c) Q e s.
Proof. intros Hn Hi HQ. apply (wps_keeping _ s_display before); [done..|]. intros ls _ _ _. apply HQ. Qed.

(** ** Making and dropping *)

Lemma wps_make t c k (Q : Z -> EglState -> S -> Prop) e s :
  makes c = Some k ->
  (forall h s', (forall k' h', h' <> 0 -> held s' k' h' = held s k' h' + one (bool_decide (k' = k /\ h' = h))) ->
     Q h e s') ->
  runs t (rc_int c) Q e s.
Proof.
  intros Hc HQ. apply wps_bind, wps_rc. intros Hs. destruct (served_makes t c k s Hc Hs) as (h & Hh & Hr & Hheld).
  rewrite Hr. cbn [concat]. rewrite app_nil_r. unfold word. rewrite all_some_fmap.
  apply wps_ret. rewrite (le_value_little_endian 4) by done. by apply HQ.
Qed.

Lemma wps_drop t c k h (Q : list bytes -> EglState -> S -> Prop) e s :
  drops c = Some (k, h) -> 0 < held s k h ->
  (forall ls s', (forall k' h', h' <> 0 -> held s' k' h' = held s k' h' - one (bool_decide (k' = k /\ h' = h))) ->
     Q ls e s') ->
  runs t (rc c) Q e s.
Proof. intros Hc Hh HQ. apply wps_rc. intros Hs. apply HQ. by eapply served_drops. Qed.

Lemma one_nonneg b : 0 <= one b.
Proof. by destruct b. Qed.

(** What an object stands for is held. *)
Lemma tally_there {A} (f : A -> Z) m p x : m !! p = Some x -> 0 < tally f m (f x).
Proof.
  intros Hp. pose proof (tally_delete f m p x (f x) Hp) as H. rewrite bool_decide_true in H by done. cbn in H.
  pose proof (tally_nonneg f (delete p m) (f x)). lia.
Qed.

Lemma held_there {A} (f : A -> Z) m p x k e s :
  inv e s -> count k e (f x) = tally f m (f x) -> m !! p = Some x -> f x <> 0 -> 0 < held s k (f x).
Proof.
  intros Hi Hk Hp Hne. rewrite (inv_counted _ _ _ _ _ Hi) by done. rewrite Hk.
  pose proof (tally_there f m p x Hp). pose proof (before_nonneg k (f x)). lia.
Qed.

(** ** Windows *)

Lemma inv_window p w w' e s :
  inv e s -> windows e !! p = Some w -> window_ok e w' ->
  inv (with_windows (<[p := w']> (windows e)) e) s.
Proof.
  intros [He Hc] Hp Hw. split; [|done]. split; try apply He; cbn.
  - intros q x Hq. destruct (ok_surface _ _ _ He q x Hq) as (H1 & H2 & H3 & Hk). split; [done|]. split; [done|].
    split; [done|]. destruct (s_kind x); [|done]. destruct Hk as (Hwin & Hb). split; [by apply is_Some_insert|done].
  - intros q x. rewrite lookup_insert_Some. intros [[_ <-]|[_ Hq]]; [done|by apply (ok_window _ _ _ He q)].
Qed.

Lemma wps_window_op t p w w' (Q : unit -> EglState -> S -> Prop) e s :
  inv e s -> windows e !! p = Some w -> window_ok e w' ->
  (inv (with_windows (<[p := w']> (windows e)) e) s -> Q tt (with_windows (<[p := w']> (windows e)) e) s) ->
  runs t (put_window p w') Q e s.
Proof. intros Hi Hp Hw HQ. apply wps_setg, HQ. by eapply inv_window. Qed.

(** The operations on a window change nothing else. *)
Definition only_windows e e' : Prop :=
  exists m, e' = with_windows m e /\ forall p, is_Some (windows e !! p) -> is_Some (m !! p).

Lemma only_windows_put p w' e : only_windows e (with_windows (<[p := w']> (windows e)) e).
Proof. eexists. split; [done|]. intros q. apply is_Some_insert. Qed.

Lemma wps_refs t p (op : Z -> Egl unit) (Q : unit -> EglState -> S -> Prop) e s :
  op = common_incRef \/ op = common_decRef \/ (exists c, op = fun p => window_call p c) ->
  inv e s -> is_Some (windows e !! p) ->
  (forall e', only_windows e e' -> inv e' s -> Q tt e' s) ->
  runs t (op p) Q e s.
Proof.
  intros Hop Hi [w Hw] HQ. pose proof (ok_window _ _ _ (inv_ok _ _ _ _ _ Hi) _ _ Hw) as Hok.
  destruct Hop as [->|[->|[c ->]]]; (apply wps_bind; eapply wps_deref; [done|]; eapply wps_window_op;
    [done|done|done|apply HQ, only_windows_put]).
Qed.

Lemma wps_dequeue t p (Q : option Z -> EglState -> S -> Prop) e s :
  inv e s -> is_Some (windows e !! p) ->
  (forall b e', only_windows e e' -> inv e' s -> (forall x, b = Some x -> is_Some (buffers e !! x)) -> Q b e' s) ->
  runs t (dequeueBuffer p) Q e s.
Proof.
  intros Hi [w Hw] HQ. pose proof (ok_window _ _ _ (inv_ok _ _ _ _ _ Hi) _ _ Hw) as Hok.
  apply wps_bind. eapply wps_deref; [done|]. apply wps_bind. eapply wps_window_op; [done|done| |].
  - unfold window_ok in *. cbn. destruct (w_dequeues w); [done|]. by apply Forall_cons in Hok as [_ Hok].
  - intros Hi'. apply wps_ret, HQ; [apply only_windows_put|done|]. intros x Hx.
    unfold window_ok in Hok. destruct (w_dequeues w) as [|b l]; [done|]. cbn in Hx.
    apply Forall_cons in Hok as [Hb _]. by rewrite Hx in Hb.
Qed.

(** ** Surfaces *)

(** What contexts the threads use is as before. *)
Definition same_use e e' : Prop :=
  contexts e' = contexts e /\ forall t, currentContext (thread_of t e') = currentContext (thread_of t e).

Lemma same_use_trans e1 e2 e3 : same_use e1 e2 -> same_use e2 e3 -> same_use e1 e3.
Proof. intros [H1 H2] [H3 H4]. split; [by rewrite H3|]. intros t. by rewrite H4. Qed.

Lemma same_use_with_thread t err e : same_use e (with_thread t (set_eglError err) e).
Proof.
  split; [done|]. intros t'. unfold with_thread. rewrite current_thread. by case_decide as Heq; [rewrite Heq|].
Qed.

Lemma same_use_unused e e' p : same_use e e' -> unused_surface e p -> unused_surface e' p.
Proof. intros [H1 H2] Hu t c. rewrite H1, H2. apply Hu. Qed.

Lemma only_windows_use e e' : only_windows e e' -> same_use e e'.
Proof. by intros (m & -> & _). Qed.

Lemma only_windows_surfaces e e' : only_windows e e' -> surfaces e' = surfaces e.
Proof. by intros (m & -> & _). Qed.

(** A connection, or nothing on the host to destroy. *)
Definition destroyable (con : bool) (x : egl_surface_t) : Prop :=
  con = true \/ (s_rcSurface x = 0 /\ pbuffer_of x = 0).

(** The calls of a destructor: what is not there is not dropped. *)
Lemma wps_maybe_drop t c k h con (Q : unit -> EglState -> S -> Prop) e s :
  drops c = Some (k, h) -> (h <> 0 -> con = true /\ 0 < held s k h) ->
  (forall s', (forall k' h', h' <> 0 -> held s' k' h' = held s k' h' - one (bool_decide (k' = k /\ h' = h))) ->
     Q tt e s') ->
  runs t (if negb (h =? 0) && con then rc c ;; mret tt else mret tt) Q e s.
Proof.
  intros Hc Hh HQ. destruct (Z.eqb_spec h 0) as [->|Hne]; cbn [negb andb].
  - apply wps_ret, HQ. intros k' h' Hne. rewrite bool_decide_false by naive_solver. cbn. lia.
  - destruct (Hh Hne) as [-> Hpos]. apply wps_bind. eapply wps_drop; [done|done|]. intros _ s' Hs'.
    by apply wps_ret, HQ.
Qed.

Lemma destroy_window_ok t con p x w b (Q : unit -> EglState -> S -> Prop) e s :
  inv e s -> surfaces e !! p = Some x -> s_kind x = WindowSurface w b -> unused_surface e p -> destroyable con x ->
  (forall e' s', inv e' s' -> same_use e e' -> Q tt e' s') ->
  runs t (destroy_surface con p) Q e s.
Proof.
  intros Hi Hp Hk Hu Hd HQ. apply wps_bind. eapply wps_deref; [done|]. rewrite Hk.
  destruct (ok_surface _ _ _ (inv_ok _ _ _ _ _ Hi) _ _ Hp) as (_ & _ & _ & Hx). rewrite Hk in Hx.
  destruct Hx as (Hwin & _ & _). apply wps_bind, wps_bind. eapply wps_maybe_drop; [done| |].
  { intros Hne. split; [by destruct Hd as [|[]]|]. by apply (held_there s_rcSurface (surfaces e) p x KSurface e). }
  intros s' Hs'. apply wps_bind.
  assert (Hgo : forall e1, only_windows e e1 -> inv e1 s ->
    runs t (common_decRef w) (fun _ => runs t (setg (fun e => with_surfaces (delete p (surfaces e)) e)) Q) e1 s').
  { intros e1 H1 Hi1. assert (Hw1 : is_Some (windows e1 !! w)) by (destruct H1 as (m & -> & Hm); by apply Hm).
    destruct Hw1 as [v Hv]. apply wps_bind. eapply wps_deref; [done|]. apply wps_setg, wps_setg.
    assert (Hv' : window_ok e1 (mkWindow (w_magic v) (w_refs v - 1) (w_dequeues v) (w_calls v)))
      by apply (ok_window _ _ _ (inv_ok _ _ _ _ _ Hi1) _ _ Hv).
    pose proof (inv_window _ _ _ _ _ Hi1 Hv Hv') as Hi2. set (e2 := with_windows _ e1) in *.
    assert (Hu2 : same_use e e2) by (by apply only_windows_use in H1).
    assert (Hs2 : surfaces e2 !! p = Some x) by (unfold e2; cbn; by rewrite (only_windows_surfaces e e1)).
    apply HQ; [|done]. apply (inv_delete_surface _ _ _ p x e2 s s' Hi2 Hs2).
    - by apply (same_use_unused e).
    - intros h Hh. rewrite Hs', bool_decide_false by naive_solver. cbn. lia.
    - intros h Hh. rewrite Hs' by done. by rewrite (bool_decide_ext _ (h = s_rcSurface x)) by naive_solver.
    - intros h Hh. rewrite Hs' by done. unfold pbuffer_of. rewrite Hk, !bool_decide_false by naive_solver. cbn. lia. }
  destruct (Z.eqb_spec b 0).
  - apply wps_ret, Hgo; [|done]. exists (windows e). by destruct e.
  - destruct Hwin as [v Hv]. apply wps_bind. eapply wps_deref; [done|]. apply wps_setg, Hgo; [apply only_windows_put|].
    eapply inv_window; [done|done|]. apply (ok_window _ _ _ (inv_ok _ _ _ _ _ Hi) _ _ Hv).
Qed.

Lemma destroy_pbuffer_ok t con p x b (Q : unit -> EglState -> S -> Prop) e s :
  inv e s -> surfaces e !! p = Some x -> s_kind x = PbufferSurface b -> unused_surface e p -> destroyable con x ->
  (forall e' s', inv e' s' -> same_use e e' -> Q tt e' s') ->
  runs t (destroy_surface con p) Q e s.
Proof.
  intros Hi Hp Hk Hu Hd HQ. apply wps_bind. eapply wps_deref; [done|]. rewrite Hk.
  assert (Hb : pbuffer_of x = b) by (unfold pbuffer_of; by rewrite Hk).
  assert (Hend : forall s', (forall h, h <> 0 -> held s' KContext h = held s KContext h) ->
    (forall h, h <> 0 -> held s' KSurface h = held s KSurface h - one (bool_decide (h = s_rcSurface x))) ->
    (forall h, h <> 0 -> held s' KBuffer h = held s KBuffer h - one (bool_decide (h = pbuffer_of x))) ->
    runs t (setg (fun e => with_surfaces (delete p (surfaces e)) e)) Q e s').
  { intros s' H1 H2 H3. apply wps_setg, HQ; [|done]. by apply (inv_delete_surface _ _ _ p x e s s'). }
  destruct con.
  - apply wps_bind, wps_bind.
    assert (Hdrop : forall h c k (Q : unit -> EglState -> S -> Prop) s, drops c = Some (k, h) ->
      (h <> 0 -> 0 < held s k h) ->
      (forall s', (forall k' h', h' <> 0 -> held s' k' h' = held s k' h' - one (bool_decide (k' = k /\ h' = h))) ->
         Q tt e s') ->
      runs t (if h =? 0 then mret tt else rc c ;; mret tt) Q e s).
    { intros h c k Q' s1 Hc Hh HQ'. pose proof (wps_maybe_drop t c k h true Q' e s1 Hc) as Hm.
      rewrite andb_true_r in Hm. destruct (h =? 0); apply Hm; try done; intros Hne; by split; [|apply Hh]. }
    apply (Hdrop _ _ KBuffer); [done|intros Hne; rewrite <- Hb in *; by apply (held_there pbuffer_of (surfaces e) p x KBuffer e)|].
    intros s1 Hs1. apply (Hdrop _ _ KSurface); [done| |].
    + intros Hne. rewrite Hs1, bool_decide_false by naive_solver. cbn. rewrite Z.sub_0_r.
      by apply (held_there s_rcSurface (surfaces e) p x KSurface e).
    + intros s2 Hs2. apply Hend; intros h Hh; rewrite Hs2, Hs1 by done.
      * rewrite !bool_decide_false by naive_solver. cbn. lia.
      * rewrite (bool_decide_false (_ = KBuffer /\ _)) by naive_solver.
        rewrite (bool_decide_ext (KSurface = KSurface /\ h = _) (h = s_rcSurface x)) by naive_solver. cbn. lia.
      * rewrite (bool_decide_false (_ = KSurface /\ _)) by naive_solver. rewrite Hb.
        rewrite (bool_decide_ext (KBuffer = KBuffer /\ h = _) (h = b)) by naive_solver. cbn. lia.
  - destruct Hd as [|[H1 H2]]; [done|]. apply wps_bind, wps_ret, Hend; [done|..]; intros h Hh;
      rewrite bool_decide_false by congruence; cbn; lia.
Qed.

Lemma destroy_surface_ok t con p x (Q : unit -> EglState -> S -> Prop) e s :
  inv e s -> surfaces e !! p = Some x -> unused_surface e p -> destroyable con x ->
  (forall e' s', inv e' s' -> same_use e e' -> Q tt e' s') ->
  runs t (destroy_surface con p) Q e s.
Proof.
  intros. destruct (s_kind x) eqn:Hk; [by eapply destroy_window_ok|by eapply destroy_pbuffer_ok].
Qed.

(** *** Creating *)

(** After [init] the surface is there, and can be destroyed. *)
Definition initialised (con : bool) (p : Z) e (Q : bool -> EglState -> S -> Prop) : Prop :=
  forall ok e' s' x', inv e' s' -> surfaces e' !! p = Some x' -> destroyable con x' -> same_use e e' ->
    Q ok e' s'.

Lemma inv_put_surface p x x' h k e s s' :
  inv e s -> surfaces e !! p = Some x -> surface_ok host s_display e p x' ->
  (k = KSurface /\ s_rcSurface x = 0 /\ s_rcSurface x' = h /\ pbuffer_of x' = pbuffer_of x \/
   k = KBuffer /\ pbuffer_of x = 0 /\ pbuffer_of x' = h /\ s_rcSurface x' = s_rcSurface x) ->
  (forall k' h', h' <> 0 -> held s' k' h' = held s k' h' + one (bool_decide (k' = k /\ h' = h))) ->
  inv (with_surfaces (<[p := x']> (surfaces e)) e) s'.
Proof.
  intros Hi Hp Hx Hcase Hs. apply (inv_surface _ _ _ p x x' e s s' Hi Hp Hx).
  - intros h' Hh. rewrite Hs, bool_decide_false by naive_solver. cbn. lia.
  - intros h' Hh. rewrite Hs by done. destruct Hcase as [(-> & H1 & H2 & _)|(-> & _ & _ & H2)].
    + rewrite H1, H2, (bool_decide_ext _ (h' = h)), (bool_decide_false (h' = 0)) by naive_solver. cbn. lia.
    + rewrite H2, bool_decide_false by naive_solver. cbn. lia.
  - intros h' Hh. rewrite Hs by done. destruct Hcase as [(-> & _ & _ & H2)|(-> & H1 & H2 & _)].
    + rewrite H2, bool_decide_false by naive_solver. cbn. lia.
    + rewrite H1, H2, (bool_decide_ext _ (h' = h)), (bool_decide_false (h' = 0)) by naive_solver. cbn. lia.
Qed.

Lemma window_init_ok t con p x w (Q : bool -> EglState -> S -> Prop) e s :
  inv e s -> surfaces e !! p = Some x -> s_kind x = WindowSurface w 0 -> s_rcSurface x = 0 ->
  initialised con p e Q -> runs t (window_surface_init t con p) Q e s.
Proof.
  intros Hi Hp Hk Hrc HQ. apply wps_bind. eapply wps_deref; [done|]. rewrite Hk.
  destruct (ok_surface _ _ _ (inv_ok _ _ _ _ _ Hi) _ _ Hp) as (H0 & Hd & Hc & Hx). rewrite Hk in Hx.
  destruct Hx as (Hwin & _ & Hty). apply wps_bind, wps_dequeue; [done..|]. intros b e1 He1 Hi1 Hb.
  assert (Hp1 : surfaces e1 !! p = Some x) by by rewrite (only_windows_surfaces e e1).
  pose proof (only_windows_use _ _ He1) as Hu1. destruct b as [b|].
  2: { apply wps_error; [done|]. intros Hi2. eapply HQ; [done|exact Hp1| |].
       - right. unfold pbuffer_of. by rewrite Hk.
       - eapply same_use_trans; [done|apply same_use_with_thread]. }
  specialize (Hb b eq_refl). assert (Hb1 : is_Some (buffers e1 !! b)) by by destruct He1 as (m & -> & _).
  assert (Hw1 : is_Some (windows e1 !! w)) by (destruct He1 as (m & -> & Hm); by apply Hm).
  destruct Hb1 as [n Hn]. apply wps_bind, wps_setg. set (x1 := set_kind (WindowSurface w b) x).
  assert (Hx1 : surface_ok host s_display e1 p x1).
  { split; [done|]. split; [done|]. split; [done|]. split; [done|]. split; [by right|done]. }
  assert (Hi2 : inv (with_surfaces (<[p := x1]> (surfaces e1)) e1) s).
  { eapply inv_same_surface; [done|done|done|done|]. unfold pbuffer_of. by rewrite Hk. }
  set (e2 := with_surfaces _ e1) in *. apply wps_bind. eapply wps_deref; [exact Hn|].
  cbn zeta. set (x2 := set_size _ _ x1). apply wps_bind, wps_setg.
  assert (Hp2 : surfaces e2 !! p = Some x1) by apply lookup_insert_eq.
  assert (Hi3 : inv (with_surfaces (<[p := x2]> (surfaces e2)) e2) s) by by eapply inv_same_surface.
  set (e3 := with_surfaces _ e2) in *. assert (Hp3 : surfaces e3 !! p = Some x2) by apply lookup_insert_eq.
  destruct con.
  2: { apply wps_ret. eapply HQ; [exact Hi3|exact Hp3|by right|exact Hu1]. }
  apply wps_bind. eapply wps_make; [done|]. intros h s' Hs'. apply wps_bind, wps_setg.
  assert (Hi4 : inv (with_surfaces (<[p := set_rcSurface h x2]> (surfaces e3)) e3) s').
  { eapply inv_put_surface; [exact Hi3|exact Hp3|exact Hx1| |exact Hs']. by left. }
  set (e4 := with_surfaces _ e3) in *. assert (Hp4 : surfaces e4 !! p = Some (set_rcSurface h x2)) by apply lookup_insert_eq.
  destruct (h =? 0); [apply wps_ret; eapply HQ; [exact Hi4|exact Hp4|by left|exact Hu1]|].
  apply wps_bind, wps_quiet; [done..|]. intros _ s2 Hi5. apply wps_ret. eapply HQ; [exact Hi5|exact Hp4|by left|exact Hu1].
Qed.

Lemma pbuffer_init_ok t con f p x (Q : bool -> EglState -> S -> Prop) e s :
  inv e s -> surfaces e !! p = Some x -> s_kind x = PbufferSurface 0 -> s_rcSurface x = 0 ->
  initialised con p e Q -> runs t (pbuffer_surface_init con f p) Q e s.
Proof.
  intros Hi Hp Hk Hrc HQ. pose proof (ok_surface _ _ _ (inv_ok _ _ _ _ _ Hi) _ _ Hp) as Hx.
  assert (Hpb : pbuffer_of x = 0) by (unfold pbuffer_of; by rewrite Hk).
  destruct con; [|apply wps_ret; eapply HQ; [done|exact Hp|by right|done]].
  apply wps_bind. eapply wps_deref; [done|]. apply wps_bind. eapply wps_make; [done|]. intros h s' Hs'.
  cbn zeta. set (x1 := set_rcSurface h x). apply wps_bind, wps_setg.
  assert (Hi1 : inv (with_surfaces (<[p := x1]> (surfaces e)) e) s').
  { eapply inv_put_surface; [done|exact Hp|exact Hx|by left|exact Hs']. }
  set (e1 := with_surfaces _ e) in *. assert (Hp1 : surfaces e1 !! p = Some x1) by apply lookup_insert_eq.
  destruct (h =? 0); [apply wps_ret; eapply HQ; [exact Hi1|exact Hp1|by left|done]|].
  apply wps_bind. eapply wps_make; [done|]. intros b s2 Hs2. apply wps_bind, wps_setg.
  set (x2 := set_kind (PbufferSurface b) x1).
  assert (Hi2 : inv (with_surfaces (<[p := x2]> (surfaces e1)) e1) s2).
  { eapply inv_put_surface; [exact Hi1|exact Hp1| | |exact Hs2].
    - destruct Hx as (H0 & Hd & Hc & _). by split_and!.
    - right. split_and!; [done|exact Hpb|done|done]. }
  set (e2 := with_surfaces _ e1) in *. assert (Hp2 : surfaces e2 !! p = Some x2) by apply lookup_insert_eq.
  destruct (b =? 0); [apply wps_ret; eapply HQ; [exact Hi2|exact Hp2|by left|done]|].
  apply wps_bind, wps_quiet; [done..|]. intros _ s3 Hi3. apply wps_ret. eapply HQ; [exact Hi3|exact Hp2|by left|done].
Qed.

(** Nothing current uses an object that is not there. *)
Lemma unused_absent p e s : inv e s -> p <> 0 -> surfaces e !! p = None -> unused_surface e p.
Proof.
  intros Hi H0 Hp t c Hc. destruct (ok_thread _ _ _ (inv_ok _ _ _ _ _ Hi) t) as [Hz|(x & Hx & Hd & Hr)].
  - rewrite Hz in Hc. by destruct (ok_context _ _ _ (inv_ok _ _ _ _ _ Hi) _ _ Hc).
  - assert (x = c) as -> by congruence.
    split; intros Heq; rewrite Heq in *; [destruct Hd as [|[y Hy]]|destruct Hr as [|[y Hy]]]; congruence.
Qed.

Lemma create_surface_ok t con x init (Q : Z -> EglState -> S -> Prop) e s :
  inv e s -> (forall p, p <> 0 -> surface_ok host s_display e p x) -> s_rcSurface x = 0 -> pbuffer_of x = 0 ->
  (forall p e1 Q, inv e1 s -> surfaces e1 !! p = Some x -> initialised con p e1 Q -> runs t (init p) Q e1 s) ->
  (forall p e' s', inv e' s' -> live (surfaces e') p -> Q p e' s') ->
  runs t (create_surface con x init) Q e s.
Proof.
  intros Hi Hx Hrc Hpb Hinit HQ. apply wps_bind, wps_getg. set (p := new_address (in_use e)).
  destruct (address_free e) as (H0 & _ & Hfree & _). apply wps_bind, wps_setg.
  assert (Hi1 : inv (with_surfaces (<[p := x]> (surfaces e)) e) s) by by apply inv_new_surface; auto.
  pose proof (unused_absent p e s Hi H0 Hfree) as Hu.
  set (e1 := with_surfaces _ e) in *. assert (Hp1 : surfaces e1 !! p = Some x) by apply lookup_insert_eq.
  assert (Hgo : forall e2, inv e2 s -> surfaces e2 !! p = Some x -> same_use e1 e2 ->
    runs t (init p) (fun ok : bool => runs t (if ok then mret p else destroy_surface con p ;; mret 0) Q) e2 s).
  { intros e2 Hi2 Hp2 Hu2. apply Hinit; [done..|]. intros ok e3 s3 x' Hi3 Hp3 Hd Hu3. destruct ok.
    - apply wps_ret, HQ; [done|]. by right.
    - apply wps_bind. eapply destroy_surface_ok; [done|exact Hp3| |done|].
      + eapply same_use_unused; [exact Hu3|]. eapply same_use_unused; [exact Hu2|]. exact Hu.
      + intros e4 s4 Hi4 _. apply wps_ret, HQ; [done|]. by left. }
  pose proof (Hx p H0) as (_ & _ & _ & Hk). destruct (s_kind x) as [w b|b]; apply wps_bind.
  - destruct Hk as (Hwin & _). eapply (wps_refs t w common_incRef); [by left|done|done|].
    intros e2 He2 Hi2. apply wps_bind, Hgo; [done| |by apply only_windows_use].
    by rewrite (only_windows_surfaces e1 e2).
  - apply wps_ret, wps_bind, Hgo; done.
Qed.

(** ** Contexts *)

(** The display and the surfaces are as before, and so is every context but [gone]. *)
Record same_but (gone : Z) e e' : Prop := {
  sb_display : display e' = display e;
  sb_surfaces : surfaces e' = surfaces e;
  sb_contexts : forall p c, p <> gone -> contexts e !! p = Some c -> contexts e' !! p = Some c
}.

Lemma destroy_context_ok t con p c (Q : Z -> EglState -> S -> Prop) e s :
  inv e s -> ready e -> contexts e !! p = Some c ->
  (forall t', t' <> t -> currentContext (thread_of t' e) <> p) ->
  (forall z e' s', inv e' s' -> same_but p e e' -> threads e' = threads e -> Q z e' s') ->
  runs t (eglDestroyContext s_display t con s_display p) Q e s.
Proof.
  intros Hi Hr Hp Hoth HQ. destruct (ok_context _ _ _ (inv_ok _ _ _ _ _ Hi) _ _ Hp) as (H0 & Hd & Hc).
  unfold eglDestroyContext, VALIDATE_DISPLAY_INIT, VALIDATE_DISPLAY. rewrite Z.eqb_refl.
  apply wps_bind, wps_getd. rewrite Hr. unfold VALIDATE_CONTEXT_RETURN. rewrite (proj2 (Z.eqb_neq _ _) H0).
  apply wps_bind, wps_thread, wps_bind. eapply wps_deref; [done|].
  destruct (Z.eqb_spec (currentContext (thread_of t e)) p) as [Heq|Hne].
  { apply wps_bind, wps_setg, wps_ret, HQ; [by eapply inv_context| |done]. split; [done|done|].
    intros q x Hq Hx. cbn. by rewrite lookup_insert_ne. }
  assert (Hu : forall t', currentContext (thread_of t' e) <> p).
  { intros t'. destruct (decide (t' = t)) as [->|]; [done|by apply Hoth]. }
  assert (Hend : forall s', (forall k h, h <> 0 ->
      held s' k h = held s k h - one (bool_decide (k = KContext /\ h = c_rcContext c))) ->
    runs t (delete_context p ;; mret EGL_TRUE) Q e s').
  { intros s' Hs'. apply wps_bind, wps_bind. eapply wps_deref; [done|]. apply wps_setg, wps_ret, HQ; [|split; [done|done|]|done].
    - by apply (inv_delete_context _ _ _ p c e s s').
    - intros q x Hq Hx. cbn. by rewrite lookup_delete_ne. }
  destruct (Z.eqb_spec (c_rcContext c) 0) as [Hz|Hz].
  { apply Hend. intros k h Hh. rewrite bool_decide_false by naive_solver. cbn. lia. }
  destruct con; [|apply wps_ret, HQ; [done|by split|done]].
  apply wps_bind. eapply wps_drop; [done| |].
  - by apply (held_there c_rcContext (contexts e) p c KContext e).
  - intros _ s' Hs'. by apply Hend.
Qed.

(** [eglDestroyContext] of the application. *)
Lemma safe_destroy_context t con dpy p e s :
  inv e s -> live (contexts e) p -> (forall t', t' <> t -> p <> 0 -> currentContext (thread_of t' e) <> p) ->
  safe t (eglDestroyContext s_display t con dpy p) e s.
Proof.
  intros Hi Hp Hoth. destruct (decide (dpy = s_display /\ ready e /\ p <> 0)) as [(-> & Hr & H0)|Hn].
  - destruct Hp as [->|[c Hc]]; [done|]. eapply destroy_context_ok; [done|done|done|by intros; apply Hoth|done].
  - apply safe_init; [done|]. intros -> Hr. apply safe_context; [done|]. intros H0. by destruct Hn.
Qed.

Lemma delete_pending_ok t con ctx (Q : unit -> EglState -> S -> Prop) e s :
  inv e s -> ready e ->
  (forall e' s', inv e' s' -> display e' = display e -> surfaces e' = surfaces e ->
     (forall c, ctx <> 0 -> contexts e !! ctx = Some c -> contexts e' !! ctx = Some c) ->
     (forall t', t' <> t -> currentContext (thread_of t' e') = currentContext (thread_of t' e)) ->
     (currentContext (thread_of t e') = currentContext (thread_of t e) \/ currentContext (thread_of t e') = 0) ->
     Q tt e' s') ->
  runs t (delete_pending s_display t con s_display ctx) Q e s.
Proof.
  intros Hi Hr HQ. assert (HQ0 : Q tt e s) by (apply HQ; auto). apply wps_bind, wps_thread.
  set (cur := currentContext (thread_of t e)). destruct (Z.eqb_spec cur 0) as [|Hne]; [by apply wps_ret|].
  destruct (ok_thread _ _ _ (inv_ok _ _ _ _ _ Hi) t) as [|(c & Hc & _)]; [done|]. fold cur in Hc.
  apply wps_bind. eapply wps_deref; [done|].
  destruct ((c_deletePending c =? 0) || (cur =? ctx)) eqn:Hp; [by apply wps_ret|].
  assert (Hctx : ctx <> cur) by lia. apply wps_bind, wps_set_thread.
  assert (Hi1 : inv (with_thread t (set_currentContext 0) e) s) by (apply inv_current; [done|by left|done]).
  set (e1 := with_thread t _ e) in *.
  assert (Hoth : forall t', t' <> t -> currentContext (thread_of t' e1) = currentContext (thread_of t' e)).
  { intros t' Ht. unfold e1, with_thread. rewrite current_thread. by case_decide. }
  apply wps_bind. eapply destroy_context_ok; [done|done|exact Hc| |].
  - intros t' Ht. rewrite Hoth by done. intros Heq. apply Ht.
    apply (ok_one _ _ _ (inv_ok _ _ _ _ _ Hi)); [done|by rewrite Heq].
  - intros z e2 s2 Hi2 [Hd Hs Hctxs] Ht. apply wps_ret, HQ; [done|by rewrite Hd|by rewrite Hs| | |].
    + intros x _ Hx. by apply Hctxs.
    + intros t' Ht'. rewrite <- Hoth by done. unfold thread_of. by rewrite Ht.
    + right. unfold thread_of. rewrite Ht. unfold e1, with_thread. cbn. by rewrite lookup_insert_eq.
Qed.

(** The library for a context's version is there. *)
Definition iface_there e (c : EGLContext_t) : Prop :=
  if c_version c =? 2 then m_gles2_iface (display e) = true else m_gles_iface (display e) = true.

Lemma gles_finish_ok t c e s (Q : unit -> EglState -> S -> Prop) :
  inv e s -> iface_there e c -> (forall e' s', inv e' s' -> Q tt e' s') -> runs t (finish t (c_version c)) Q e s.
Proof.
  intros Hi Hf HQ. apply wps_bind, wps_getd. unfold iface_there in Hf.
  assert (Hg : (if (if c_version c =? 2 then 2 else 1) =? 2 then m_gles2_iface (display e) else m_gles_iface (display e)) = true)
    by by destruct (c_version c =? 2).
  rewrite Hg. apply wps_set_thread, HQ. by apply inv_with_thread.
Qed.

Lemma init_encoder_ok t ctx e s :
  inv e s -> (ctx <> 0 -> exists c, contexts e !! ctx = Some c /\ iface_there e c) ->
  safe t (init_encoder t getProcAddress ctx) e s.
Proof.
  intros Hi Hf. unfold init_encoder. destruct (Z.eqb_spec ctx 0) as [|H0]; [by apply calls_safe_ret|].
  destruct (Hf H0) as (c & Hc & Hif). apply calls_safe_bind. eapply wps_deref; [done|]. cbn zeta.
  apply wps_bind, wps_thread. destruct (e_initialized _); [by apply wps_ret|]. apply wps_bind, wps_getd.
  unfold iface_there in Hif.
  assert (Hg : (if (if c_version c =? 2 then 2 else 1) =? 2 then m_gles2_iface (display e) else m_gles_iface (display e)) = true)
    by by destruct (c_version c =? 2).
  rewrite Hg. cbn [negb]. apply wps_bind, wps_set_thread. set (e1 := with_thread _ _ _).
  assert (Hi1 : inv e1 s) by by apply inv_with_thread. apply wps_bind, wps_set_thread.
  assert (Hi2 : inv (with_thread t (set_encoder (if c_version c =? 2 then 2 else 1) setInitialized) e1) s).
  { apply inv_with_thread; [done|]. by destruct (c_version c =? 2). }
  apply wps_setg. destruct Hi2 as [He Hcount]. split; [|done]. split; apply He.
Qed.

(** What is current changes on this side too. *)
Lemma make_local_ok t draw read ctx e s :
  inv e s -> live (surfaces e) draw -> live (surfaces e) read ->
  (ctx <> 0 -> exists c, contexts e !! ctx = Some c /\ iface_there e c) ->
  (forall t', t' <> t -> ctx <> 0 -> currentContext (thread_of t' e) <> ctx) ->
  safe t (make_local t getProcAddress draw read ctx) e s.
Proof.
  intros Hi Hd Hr Hctx Hoth. apply calls_safe_bind.
  set (bound := fun e' => inv e' s /\ display e' = display e /\
    (forall t', currentContext (thread_of t' e') = currentContext (thread_of t' e)) /\
    (ctx <> 0 -> exists c, contexts e' !! ctx = Some c /\ live (surfaces e') (c_draw c) /\
       live (surfaces e') (c_read c) /\ iface_there e c)).
  assert (Hrest : forall e1, bound e1 -> safe t (
    give_client_state t ctx ;; (current ← getThread t currentContext;
    (if current =? 0 then mret tt
     else c ← deref contexts current;
          put_context current (set_flags (Z.land (c_flags c) (Z.lnot IS_CURRENT)) c)) ;;
    setThread t (set_currentContext ctx) ;; init_encoder t getProcAddress ctx)) e1 s).
  { intros e1 (Hi1 & Hdpy1 & Hcur1 & Hb1). apply calls_safe_bind.
    assert (Hgive : forall v f, runs t (setThread t (set_encoder v f)) (fun _ e2 s2 => bound e2 /\ s2 = s) e1 s).
    { intros v f. apply wps_set_thread. split; [|done].
      assert (Hsame : currentContext (set_encoder v f (thread_of t e1)) = currentContext (thread_of t e1))
        by (unfold set_encoder; by destruct (v =? 2)).
      split; [by apply inv_with_thread|]. split; [done|]. split; [|done].
      intros t'. rewrite <- Hcur1. unfold with_thread. rewrite current_thread. case_decide as Heq; [by rewrite Heq|done]. }
    eapply wps_mono with (Q := fun _ e2 s2 => bound e2 /\ s2 = s).
    { apply wps_bind, wps_thread. destruct (Z.eqb_spec ctx 0) as [Hz|Hz]; cbn [negb].
      - destruct (Z.eqb_spec (currentContext (thread_of t e1)) 0) as [|Hc0]; [by apply wps_ret|].
        destruct (ok_thread _ _ _ (inv_ok _ _ _ _ _ Hi1) t) as [|(c & Hc & _)]; [done|].
        apply wps_bind. eapply wps_deref; [done|]. apply Hgive.
      - destruct (Hb1 Hz) as (c & Hc & _). apply wps_bind. eapply wps_deref; [done|]. apply Hgive. }
    clear e1 Hi1 Hdpy1 Hcur1 Hb1 Hgive. intros _ e2 s2 [(Hi2 & Hdpy2 & Hcur2 & Hb2) ->].
    apply calls_safe_bind, wps_thread, calls_safe_bind. set (cur := currentContext (thread_of t e2)).
    assert (Hlast : forall e3, bound e3 -> safe t (setThread t (set_currentContext ctx) ;; init_encoder t getProcAddress ctx) e3 s).
    { intros e3 (Hi3 & Hdpy3 & Hcur3 & Hb3). apply calls_safe_bind, wps_set_thread, init_encoder_ok.
      - apply inv_current; [done| |].
        + cbn. destruct (decide (ctx = 0)) as [|Hz]; [by left|right]. destruct (Hb3 Hz) as (c & Hc & H1 & H2 & _). by exists c.
        + cbn. intros t' Ht Hz. rewrite Hcur3. by apply Hoth.
      - intros Hz. destruct (Hb3 Hz) as (c & Hc & _ & _ & Hif). exists c. split; [done|].
        unfold iface_there in *. cbn. by rewrite Hdpy3. }
    destruct (Z.eqb_spec cur 0) as [|Hc0]; [apply wps_ret, Hlast; by split|].
    destruct (ok_thread _ _ _ (inv_ok _ _ _ _ _ Hi2) t) as [|(c & Hc & _)]; [done|].
    apply wps_bind. eapply wps_deref; [done|]. apply wps_setg, Hlast. split; [by eapply inv_context|].
    split; [done|]. split; [done|]. intros Hz. destruct (Hb2 Hz) as (x & Hx & H1 & H2 & H3). cbn.
    destruct (decide (ctx = currentContext (thread_of t e2))) as [Heq|Hne].
    - rewrite Heq in *. assert (x = c) as -> by congruence. eexists. by rewrite lookup_insert_eq.
    - exists x. by rewrite lookup_insert_ne. }
  destruct (Z.eqb_spec ctx 0) as [Hz|Hz]; [apply wps_ret, Hrest; by split|].
  destruct (Hctx Hz) as (c & Hc & Hif). apply wps_bind. eapply wps_deref; [done|]. apply wps_setg, Hrest.
  split; [by eapply inv_context|]. split; [done|]. split; [done|]. intros _. cbn. eexists.
  rewrite lookup_insert_eq. split; [done|]. split; [done|]. by split.
Qed.

(** A context that another thread has must be marked. *)
Definition marked e (t ctx : Z) : Prop := forall t' c, t' <> t ->
  currentContext (thread_of t' e) = ctx -> contexts e !! ctx = Some c -> has_bit (c_flags c) IS_CURRENT = true.

Lemma safe_make_current t con dpy draw read ctx e s :
  inv e s -> live (surfaces e) draw -> live (surfaces e) read -> live (contexts e) ctx ->
  (forall c, contexts e !! ctx = Some c -> iface_there e c) -> marked e t ctx ->
  safe t (eglMakeCurrent s_display t con getProcAddress dpy draw read ctx) e s.
Proof.
  intros Hi Hd Hr Hl Hif Hm. apply safe_init; [done|]. intros -> Hrdy.
  apply safe_surface; [done..|]. apply safe_surface; [done..|].
  destruct (_ && _); [by apply safe_error|]. destruct (_ && _); [by apply safe_error|].
  apply calls_safe_bind, wps_handle; [done|]. intros h1. apply wps_bind, wps_handle; [done|]. intros h2.
  apply wps_bind, wps_handle; [done|]. intros h3. apply wps_bind.
  assert (Hgo : safe t (delete_pending s_display t con s_display ctx ;;
    (current ← getThread t currentContext; flags ← handle_of contexts c_flags ctx;
     if has_bit flags IS_CURRENT && negb (ctx =? current) then setErrorFunc t EGL_BAD_ACCESS EGL_FALSE
     else HOST_CONNECTION con EGL_FALSE
       (ok ← rc_int (MakeCurrent h1 h2 h3);
        if ok =? EGL_FALSE then setErrorFunc t EGL_BAD_CONTEXT EGL_FALSE
        else make_local t getProcAddress draw read ctx ;; mret EGL_TRUE))) e s).
  { apply calls_safe_bind, delete_pending_ok; [done..|]. intros e1 s1 Hi1 Hd1 Hs1 Hc1 Ht1 Hcur1.
    apply calls_safe_bind, wps_thread.
    assert (Hctx : ctx <> 0 -> exists c, contexts e !! ctx = Some c /\ contexts e1 !! ctx = Some c).
    { intros Hz. destruct Hl as [|[c Hc]]; [done|]. exists c. auto. }
    assert (Hnext : forall flags, (forall c, contexts e1 !! ctx = Some c -> flags = c_flags c) ->
      safe t (if has_bit flags IS_CURRENT && negb (ctx =? currentContext (thread_of t e1))
              then setErrorFunc t EGL_BAD_ACCESS EGL_FALSE
              else HOST_CONNECTION con EGL_FALSE
                (ok ← rc_int (MakeCurrent h1 h2 h3);
                 if ok =? EGL_FALSE then setErrorFunc t EGL_BAD_CONTEXT EGL_FALSE
                 else make_local t getProcAddress draw read ctx ;; mret EGL_TRUE)) e1 s1).
    { intros flags Hflags. destruct (_ && _) eqn:Hbusy; [by apply safe_error|].
      apply safe_connected; [done|]. intros _.
      apply calls_safe_bind. eapply wps_number; [done|done|done|]. intros ok s2 Hi2.
      destruct (ok =? EGL_FALSE); [by apply safe_error|]. apply wps_bind.
      apply (wps_mono _ _ _ (fun _ => inv)); [|intros; by apply wps_ret].
      apply make_local_ok; [done|by rewrite Hs1|by rewrite Hs1| |].
      - intros Hz. destruct (Hctx Hz) as (c & Hc & Hc'). exists c. split; [done|].
        unfold iface_there. rewrite Hd1. by apply Hif.
      - intros t' Ht Hz Heq. destruct (Hctx Hz) as (c & Hc & Hc'). rewrite (Hflags c Hc') in Hbusy.
        rewrite Ht1 in Heq by done. rewrite (Hm t' c Ht Heq Hc) in Hbusy. cbn in Hbusy.
        assert (Hct : currentContext (thread_of t e1) = ctx) by lia. destruct Hcur1 as [Hcur1|]; [|congruence].
        apply Ht. apply (ok_one _ _ _ (inv_ok _ _ _ _ _ Hi)); [congruence|by rewrite Heq]. }
    apply wps_bind. unfold handle_of. destruct (Z.eqb_spec ctx 0) as [Hz|Hz].
    - apply wps_ret, Hnext. intros c Hc. rewrite Hz in Hc.
      by destruct (ok_context _ _ _ (inv_ok _ _ _ _ _ Hi1) _ _ Hc).
    - destruct (Hctx Hz) as (c & _ & Hc). apply wps_bind. eapply wps_deref; [done|]. apply wps_ret, Hnext.
      intros x Hx. congruence. }
  apply wps_bind, wps_thread. destruct (Z.eqb_spec (currentContext (thread_of t e)) ctx); cbn [negb]; [|by apply wps_ret].
  destruct (Z.eqb_spec ctx 0) as [|Hz]; [apply wps_ret; by apply calls_safe_ret|].
  destruct Hl as [|[c Hc]]; [done|]. apply wps_bind. eapply wps_deref; [done|]. apply wps_ret.
  destruct (_ && _); [by apply calls_safe_ret|done].
Qed.

(** ** The calls of an application *)

Inductive egl_call :=
  | EInitialize (dpy : Z) (gles gles2 : Library)
  | ETerminate (dpy : Z)
  | EGetError
  | EQueryString (dpy name : Z)
  | EGetConfigs (dpy : Z) (configs : bool) (config_size : Z) (num_config : bool)
  | EChooseConfig (dpy : Z) (attrib_list : option (list Z)) (configs : bool) (config_size : Z) (num_config : bool)
  | EGetConfigAttrib (dpy config attribute : Z)
  | ECreateWindowSurface (dpy config win : Z)
  | ECreatePbufferSurface (dpy config : Z) (attrib_list : option (list Z))
  | EDestroySurface (dpy surface : Z)
  | EQuerySurface (dpy surface attribute : Z)
  | EBindAPI (api : Z)
  | EReleaseThread
  | ESurfaceAttrib (dpy surface attribute value : Z)
  | EBindTexImage (dpy surface buffer : Z)
  | ESwapInterval (dpy interval : Z)
  | ECreateContext (dpy config share : Z) (attrib_list : option (list Z))
  | EDestroyContext (dpy ctx : Z)
  | EMakeCurrent (dpy draw read ctx : Z)
  | EGetCurrentSurface (readdraw : Z)
  | EGetCurrentDisplay
  | EQueryContext (dpy ctx attribute : Z)
  | EWaitGL
  | ESwapBuffers (dpy surface : Z)
  | ECreateImage (dpy ctx target buffer : Z)
  | EDestroyImage (dpy image : Z)
  | ECreateSync (dpy type : Z) (attrib_list : option (list Z))
  | EDestroySync (dpy sync : Z)
  | EClientWaitSync (dpy sync flags timeout : Z)
  | EGetSyncAttrib (dpy sync attribute : Z)
  | EGetGLString (name : Z)
  | EClientExtension (fname : string)
  | Framework (W : gmap Z NativeWindow) (B : gmap Z NativeBuffer).

(** Windows and buffers come, go and change between the calls. *)
Definition framework (W : gmap Z NativeWindow) (B : gmap Z NativeBuffer) : Egl unit :=
  setg (fun e => with_buffers B (with_windows W e)).

Definition quietly {A} (m : Egl A) : Egl unit := m ;; mret tt.

Definition perform (t : Z) (con : bool) (c : egl_call) : Egl unit :=
  match c with
  | EInitialize dpy gles gles2 => quietly (eglInitialize s_display t con dpy gles gles2)
  | ETerminate dpy => quietly (eglTerminate s_display t dpy)
  | EGetError => quietly (eglGetError t)
  | EQueryString dpy name => quietly (eglQueryString s_display t con dpy name)
  | EGetConfigs dpy configs size num => quietly (eglGetConfigs s_display t dpy configs size num)
  | EChooseConfig dpy l configs size num => quietly (eglChooseConfig s_display t con dpy l configs size num)
  | EGetConfigAttrib dpy config a => quietly (eglGetConfigAttrib s_display t dpy config a)
  | ECreateWindowSurface dpy config win => quietly (eglCreateWindowSurface s_display t con dpy config win)
  | ECreatePbufferSurface dpy config l => quietly (eglCreatePbufferSurface s_display t con dpy config l)
  | EDestroySurface dpy p => quietly (eglDestroySurface s_display t con dpy p)
  | EQuerySurface dpy p a => quietly (eglQuerySurface s_display t dpy p a)
  | EBindAPI api => quietly (eglBindAPI t api)
  | EReleaseThread => quietly (eglReleaseThread s_display t con getProcAddress)
  | ESurfaceAttrib dpy p a v => quietly (eglSurfaceAttrib s_display t dpy p a v)
  | EBindTexImage dpy p b => quietly (eglBindTexImage s_display t con dpy p b)
  | ESwapInterval dpy n => quietly (eglSwapInterval s_display t con dpy n)
  | ECreateContext dpy config share l => quietly (eglCreateContext s_display t con dpy config share l)
  | EDestroyContext dpy p => quietly (eglDestroyContext s_display t con dpy p)
  | EMakeCurrent dpy draw read ctx => quietly (eglMakeCurrent s_display t con getProcAddress dpy draw read ctx)
  | EGetCurrentSurface r => quietly (eglGetCurrentSurface t r)
  | EGetCurrentDisplay => quietly (eglGetCurrentDisplay t)
  | EQueryContext dpy p a => quietly (eglQueryContext s_display t dpy p a)
  | EWaitGL => quietly (eglWaitGL t)
  | ESwapBuffers dpy p => quietly (eglSwapBuffers s_display t con dpy p)
  | ECreateImage dpy ctx target b => quietly (eglCreateImageKHR s_display t con dpy ctx target b)
  | EDestroyImage dpy p => quietly (eglDestroyImageKHR s_display t con dpy p)
  | ECreateSync dpy ty l => quietly (eglCreateSyncKHR s_display t dpy ty l)
  | EDestroySync dpy y => quietly (eglDestroySyncKHR t dpy y)
  | EClientWaitSync dpy y f n => quietly (eglClientWaitSyncKHR t dpy y f n)
  | EGetSyncAttrib dpy y a => quietly (eglGetSyncAttribKHR t dpy y a)
  | EGetGLString name => quietly (getGLString t con name)
  | EClientExtension f => quietly (client_ext t f)
  | Framework W B => framework W B
  end.

(** The application's part: pointers lead to objects, lists end, and what a thread has
    current is not taken from it. *)
Definition a_config_argument e (config : Z) : Prop := config <> m_numConfigs (display e).

Definition waits e t : Prop := forall c,
  contexts e !! currentContext (thread_of t e) = Some c -> iface_there e c.

Definition legal (t : Z) (con : bool) (c : egl_call) e : Prop :=
  match c with
  | ETerminate _ => forall l, m_vendorString (display e) <> Some (Literal l)
  | EChooseConfig _ l configs size num =>
      num = true /\ (configs = true -> size <> 0) /\ forall l', l = Some l' -> attribs_size l' <> None
  | EGetConfigAttrib _ config _ => a_config_argument e config
  | ECreateWindowSurface _ config win => a_config_argument e config /\ live (windows e) win
  | ECreatePbufferSurface _ config l => a_config_argument e config /\
      exists l', l = Some l' /\ forall w h f a, pbuffer_attribs w h f a l' <> None
  | EDestroySurface _ p => live (surfaces e) p /\ unused_surface e p /\ con = true
  | EQuerySurface _ p _ => is_Some (surfaces e !! p)
  | ESurfaceAttrib _ p _ _ | EBindTexImage _ p _ | ESwapBuffers _ p => live (surfaces e) p
  | ECreateContext _ config share l => a_config_argument e config /\ live (contexts e) share /\
      forall l', l = Some l' -> forall v, client_version v l' <> None
  | EDestroyContext _ p => live (contexts e) p /\ forall t', t' <> t -> p <> 0 -> currentContext (thread_of t' e) <> p
  | EMakeCurrent _ draw read ctx =>
      live (surfaces e) draw /\ live (surfaces e) read /\ live (contexts e) ctx /\
      (forall c, contexts e !! ctx = Some c -> iface_there e c) /\ marked e t ctx
  | EQueryContext _ p _ => live (contexts e) p
  | EWaitGL => waits e t
  | ECreateImage _ ctx target b =>
      (target = EGL_NATIVE_BUFFER_ANDROID -> is_Some (buffers e !! b)) /\ live (contexts e) ctx
  | EDestroyImage _ p => live (images e) p
  | ECreateSync _ _ l => l <> Some [] /\ waits e t
  | Framework W B =>
      (forall p, is_Some (windows e !! p) -> is_Some (W !! p)) /\
      (forall p, is_Some (buffers e !! p) -> is_Some (B !! p)) /\
      (forall p w, W !! p = Some w -> Forall (fun b => match b with Some b => is_Some (B !! b) | None => True end) (w_dequeues w))
  | _ => True
  end.

(** ** Every call keeps the invariant *)

Lemma safe_quietly {A} t (m : Egl A) e s : safe t m e s -> safe t (quietly m) e s.
Proof. intros Hm. apply calls_safe_bind. eapply wps_mono; [exact Hm|]. intros. by apply wps_ret. Qed.

Lemma safe_initialize t con dpy gles gles2 e s :
  inv e s -> safe t (eglInitialize s_display t con dpy gles gles2) e s.
Proof.
  intros Hi. apply safe_display; [done|]. intros _. apply calls_safe_bind. eapply initialize_ok; [done|].
  intros [] d s' Hi'; [|by apply wps_ret]. by apply wps_bind, wps_getd, wps_ret.
Qed.

Lemma safe_terminate t dpy e s :
  inv e s -> (forall l, m_vendorString (display e) <> Some (Literal l)) -> safe t (eglTerminate s_display t dpy) e s.
Proof.
  intros Hi Hv. apply safe_init; [done|]. intros _ _. apply calls_safe_bind. eapply terminate_ok; [done..|].
  intros d Hd. by apply wps_ret.
Qed.

Lemma safe_query_string t con dpy name e s : inv e s -> safe t (eglQueryString s_display t con dpy name) e s.
Proof. intros Hi. apply safe_init; [done|]. intros _ _. by eapply queryString_ok. Qed.

Lemma safe_get_configs t dpy configs size num e s :
  inv e s -> safe t (eglGetConfigs s_display t dpy configs size num) e s.
Proof.
  intros Hi. apply safe_init; [done|]. intros _ _. destruct num; cbn [negb]; [|by apply safe_error].
  apply calls_safe_bind, wps_getd. by destruct configs; apply wps_ret.
Qed.

Lemma safe_choose t con dpy l configs size num e s :
  inv e s -> legal t con (EChooseConfig dpy l configs size num) e ->
  safe t (eglChooseConfig s_display t con dpy l configs size num) e s.
Proof.
  intros Hi (-> & Hsize & Hl). apply safe_init; [done|]. intros _ _.
  destruct (match l with None => Some 0 | Some l => attribs_size l end) as [n|] eqn:Hn.
  2: { destruct l as [l|]; [|done]. by destruct (Hl l). }
  apply safe_connected; [done|]. intros _. apply calls_safe_bind. eapply wps_pair; [done|done|done|].
  intros tmp r s' Hs Hans _ Hi'. cbn [negb]. destruct (configs && (size <? int_of r)) eqn:Hbad; [|by apply wps_ret].
  destruct configs; [|done]. pose proof (served_choice t _ _ _ _ _ _ Hs Hans (Hsize eq_refl)). lia.
Qed.

Lemma safe_get_config_attrib t dpy c a e s :
  inv e s -> a_config_argument e c -> safe t (eglGetConfigAttrib s_display t dpy c a) e s.
Proof.
  intros Hi Hc. apply safe_init; [done|]. intros _ Hr. apply safe_config; [done..|]. intros Hac.
  apply calls_safe_bind. eapply wps_getConfigAttrib; [done..|]. intros [v|]; [by apply wps_ret|by apply safe_error].
Qed.

Lemma safe_create_window t con dpy c win e s :
  inv e s -> a_config_argument e c -> live (windows e) win ->
  safe t (eglCreateWindowSurface s_display t con dpy c win) e s.
Proof.
  intros Hi Hc Hw. apply safe_init; [done|]. intros _ Hr. apply safe_config; [done..|]. intros Hac.
  destruct (Z.eqb_spec win 0) as [|H0]; [by apply safe_error|]. destruct Hw as [|[w Hw]]; [done|].
  apply calls_safe_bind. eapply wps_getConfigAttrib; [done..|]. intros [ty|]; [|by apply calls_safe_ret].
  destruct (negb _); [by apply safe_error|]. apply wps_bind. eapply wps_deref; [done|].
  destruct (negb _); [by apply safe_error|]. apply wps_bind, create_surface_ok; [done| |done|done| |].
  - intros p Hp. split_and!; [done|done|exact Hac|split_and!; [by eexists|by left|done]].
  - intros p e1 Q Hi1 Hp1 HQ. by eapply window_init_ok.
  - intros p e' s' Hi' _. destruct (p =? 0); [by apply safe_error|by apply calls_safe_ret].
Qed.

Lemma safe_create_pbuffer t con dpy c l e s :
  inv e s -> legal t con (ECreatePbufferSurface dpy c l) e ->
  safe t (eglCreatePbufferSurface s_display t con dpy c l) e s.
Proof.
  intros Hi (Hc & l' & -> & Hl). apply safe_init; [done|]. intros -> Hr. apply safe_config; [done..|]. intros Hac.
  apply calls_safe_bind. eapply wps_getConfigAttrib; [done..|]. intros [ty|]; [|by apply calls_safe_ret].
  destruct (negb _); [by apply safe_error|]. cbn [mbind option_bind].
  destruct (pbuffer_attribs _ _ _ _ l') as [[[[w h] f] a]|] eqn:Hat; [|by destruct (Hl 0 0 EGL_NO_TEXTURE EGL_NO_TEXTURE)].
  destruct (negb _); [by apply safe_error|]. apply calls_safe_bind. eapply wps_getConfigGLPixelFormat; [done..|].
  intros [pf|]; [|by apply safe_error]. apply wps_bind, create_surface_ok; [done| |done|done| |].
  - intros p Hp. split_and!; [done|done|exact Hac|done].
  - intros p e1 Q Hi1 Hp1 HQ. by eapply pbuffer_init_ok.
  - intros p e' s' Hi' Hp. destruct (Z.eqb_spec p 0); [by apply safe_error|]. destruct Hp as [|[x Hx]]; [done|].
    apply wps_bind. eapply wps_deref; [done|]. apply wps_bind, wps_setg, wps_ret.
    eapply inv_same_surface; [done|done|exact (ok_surface _ _ _ (inv_ok _ _ _ _ _ Hi') _ _ Hx)|done|done].
Qed.

Lemma safe_destroy_surface t con dpy p e s :
  inv e s -> live (surfaces e) p -> unused_surface e p -> con = true ->
  safe t (eglDestroySurface s_display t con dpy p) e s.
Proof.
  intros Hi Hp Hu ->. apply safe_init; [done|]. intros _ _. apply safe_surface; [done..|]. apply calls_safe_bind.
  destruct (Z.eqb_spec p 0); [by apply wps_ret, calls_safe_ret|]. destruct Hp as [|[x Hx]]; [done|].
  eapply destroy_surface_ok; [done..|by left|]. intros e' s' Hi' _. by apply calls_safe_ret.
Qed.

Lemma safe_query_surface t dpy p a e s :
  inv e s -> is_Some (surfaces e !! p) -> safe t (eglQuerySurface s_display t dpy p a) e s.
Proof.
  intros Hi [x Hx]. apply safe_init; [done|]. intros _ Hr. apply safe_surface; [done|by right; eexists|].
  destruct (ok_surface _ _ _ (inv_ok _ _ _ _ _ Hi) _ _ Hx) as (_ & _ & Hc & _). cbn zeta.
  assert (Hm : forall f : egl_surface_t -> option Z, safe t (s ← deref surfaces p; mret (EGL_TRUE, f s)) e s).
  { intros f. apply calls_safe_bind. eapply wps_deref; [done|]. by apply calls_safe_ret. }
  repeat (destruct (_ =? _); [first [apply Hm|by apply calls_safe_ret|idtac]|]); [|by apply safe_error].
  apply calls_safe_bind. eapply wps_deref; [done|]. apply wps_bind. eapply wps_getConfigAttrib; [done..|].
  intros [v|]; by apply wps_ret.
Qed.

Lemma safe_bind_tex_image t con dpy p b e s :
  inv e s -> live (surfaces e) p -> safe t (eglBindTexImage s_display t con dpy p b) e s.
Proof.
  intros Hi Hp. apply safe_init; [done|]. intros _ _. apply safe_surface; [done..|].
  destruct (Z.eqb_spec p EGL_NO_SURFACE) as [|H0]; [by apply safe_error|]. destruct Hp as [|[x Hx]]; [done|].
  destruct (negb _); [by apply safe_error|]. apply calls_safe_bind. eapply wps_deref; [done|].
  destruct (_ =? _); [by apply safe_error|]. destruct (negb _) eqn:Hty; [by apply safe_error|].
  destruct (ok_surface _ _ _ (inv_ok _ _ _ _ _ Hi) _ _ Hx) as (_ & _ & _ & Hk).
  destruct (s_kind x); [by destruct Hk as (_ & _ & Hk); rewrite Hk in Hty|].
  apply safe_connected; [done|]. intros _. apply calls_safe_bind, wps_quiet; [done..|]. intros _ s' Hi'. by apply calls_safe_ret.
Qed.

Lemma safe_swap_interval t con dpy n e s : inv e s -> safe t (eglSwapInterval s_display t con dpy n) e s.
Proof.
  intros Hi. apply safe_init; [done|]. intros _ _. apply safe_connected; [done|]. intros _.
  apply calls_safe_bind, wps_thread. destruct (Z.eqb_spec (currentContext (thread_of t e)) 0) as [|H0]; [by apply safe_error|].
  destruct (ok_thread _ _ _ (inv_ok _ _ _ _ _ Hi) t) as [|(c & Hc & Hd & _)]; [done|].
  apply wps_bind. eapply wps_deref; [done|]. destruct (Z.eqb_spec (c_draw c) 0); [by apply safe_error|].
  destruct Hd as [|[x Hx]]; [done|].
  destruct (ok_surface _ _ _ (inv_ok _ _ _ _ _ Hi) _ _ Hx) as (_ & _ & _ & Hk).
  apply wps_bind, wps_bind. eapply wps_deref; [done|].
  assert (Hend : forall e', inv e' s -> safe t (rc (FBSetSwapInterval n) ;; mret EGL_TRUE) e' s).
  { intros e' Hi'. apply calls_safe_bind, wps_quiet; [done..|]. intros. by apply calls_safe_ret. }
  destruct (s_kind x); [|by apply wps_ret, Hend]. destruct Hk as (Hw & _).
  eapply (wps_refs t _ (fun p => window_call p (SetSwapInterval n))); [by right; right; eexists|done|done|].
  intros e' _ Hi'. by apply Hend.
Qed.

Lemma new_context_ok t dpy c share version h (Q : Z -> EglState -> S -> Prop) e s s' :
  inv e s -> dpy = s_display -> a_config host c -> live (contexts e) share ->
  (forall k h', h' <> 0 -> held s' k h' = held s k h' + one (bool_decide (k = KContext /\ h' = h))) ->
  (forall p e', inv e' s' -> Q p e' s') ->
  runs t (new_context dpy c share version h) Q e s'.
Proof.
  intros Hi -> Hc Hsh Hs' HQ. apply wps_bind.
  assert (Hgo : forall g e1, inv e1 s ->
    runs t (p ← getg (fun e => new_address (in_use e));
      put_context p (mkContext 0 s_display c EGL_NO_SURFACE EGL_NO_SURFACE share version h ∅ 0 g) ;; mret p) Q e1 s').
  { intros g e1 Hi1. apply wps_bind, wps_getg, wps_bind, wps_setg, wps_ret, HQ.
    destruct (address_free e1) as (H0 & Hfree & _). by eapply inv_new_context; [exact Hi1|done|split_and!|]. }
  destruct (Z.eqb_spec share 0) as [|H0].
  - apply wps_bind, wps_getg, wps_bind, wps_setg, wps_ret, Hgo. destruct Hi as [He Hcount]. split; [|done]. split; apply He.
  - destruct Hsh as [|[x Hx]]; [done|]. apply wps_bind. eapply wps_deref; [done|]. by apply wps_ret, Hgo.
Qed.

Lemma safe_create_context t con dpy c share l e s :
  inv e s -> legal t con (ECreateContext dpy c share l) e ->
  safe t (eglCreateContext s_display t con dpy c share l) e s.
Proof.
  intros Hi (Hc & Hsh & Hl). apply safe_init; [done|]. intros Hdpy Hr. apply safe_config; [done..|]. intros Hac.
  destruct (match l with None => Some 1 | Some l => client_version 1 l end) as [v|] eqn:Hv.
  2: { destruct l as [l|]; [|done]. by destruct (Hl l eq_refl 1). }
  destruct (_ && _); [by apply safe_error|]. apply calls_safe_bind.
  assert (Hgo : forall r, safe t (match r with
    | None => setErrorFunc t EGL_BAD_MATCH EGL_NO_CONTEXT
    | Some rcShareCtx => HOST_CONNECTION con EGL_NO_CONTEXT
        (rcContext ← rc_int (CreateContext c rcShareCtx v);
         if rcContext =? 0 then setErrorFunc t EGL_BAD_ALLOC EGL_NO_CONTEXT
         else new_context dpy c share v rcContext) end) e s).
  { intros [r|]; [|by apply safe_error]. apply safe_connected; [done|]. intros _. apply calls_safe_bind.
    eapply wps_make; [done|]. intros h s' Hs'. destruct (Z.eqb_spec h 0) as [->|Hh].
    - apply safe_error. split; [apply Hi|]. intros k h' Hne. rewrite Hs' by done.
      rewrite bool_decide_false by naive_solver. cbn. rewrite Z.add_0_r. by apply (inv_counted _ _ _ _ _ Hi).
    - by eapply new_context_ok. }
  destruct (Z.eqb_spec share 0); [by apply wps_ret, (Hgo (Some 0))|]. destruct Hsh as [|[x Hx]]; [done|].
  apply wps_bind. eapply wps_deref; [done|]. by apply wps_ret, Hgo.
Qed.

(** What is read from the current context. *)
Lemma safe_with_current {A} t (a : A) (k : EGLContext_t -> Egl A) e s :
  inv e s -> (forall c, contexts e !! currentContext (thread_of t e) = Some c -> safe t (k c) e s) ->
  safe t (current ← getThread t currentContext; if current =? 0 then mret a else c ← deref contexts current; k c) e s.
Proof.
  intros Hi Hk. apply calls_safe_bind, wps_thread.
  destruct (Z.eqb_spec (currentContext (thread_of t e)) 0) as [|H0]; [by apply calls_safe_ret|].
  destruct (ok_thread _ _ _ (inv_ok _ _ _ _ _ Hi) t) as [|(c & Hc & _)]; [done|].
  apply calls_safe_bind. eapply wps_deref; [done|]. by apply Hk.
Qed.

Lemma safe_current_surface t r e s : inv e s -> safe t (eglGetCurrentSurface t r) e s.
Proof.
  intros Hi. apply calls_safe_bind, wps_thread.
  destruct (Z.eqb_spec (currentContext (thread_of t e)) 0) as [|H0]; [by apply calls_safe_ret|].
  destruct (ok_thread _ _ _ (inv_ok _ _ _ _ _ Hi) t) as [|(c & Hc & _)]; [done|].
  destruct (_ =? _); [|destruct (_ =? _); [|by apply safe_error]];
    (apply calls_safe_bind; eapply wps_deref; [done|]; by apply calls_safe_ret).
Qed.

Lemma safe_wait_gl t e s : inv e s -> waits e t -> safe t (eglWaitGL t) e s.
Proof.
  intros Hi Hw. apply safe_with_current; [done|]. intros c Hc. apply calls_safe_bind. eapply gles_finish_ok; [done|by apply Hw|].
  intros. by apply calls_safe_ret.
Qed.

Lemma safe_query_context t dpy p a e s :
  inv e s -> live (contexts e) p -> safe t (eglQueryContext s_display t dpy p a) e s.
Proof.
  intros Hi Hp. apply safe_init; [done|]. intros _ Hr. apply safe_context; [done|]. intros H0.
  destruct Hp as [|[c Hc]]; [done|]. destruct (ok_context _ _ _ (inv_ok _ _ _ _ _ Hi) _ _ Hc) as (_ & _ & Hcf).
  repeat (destruct (_ =? _)); [|by apply calls_safe_ret| | |by apply safe_error];
    (apply calls_safe_bind; eapply wps_deref; [done|]); [|by apply calls_safe_ret..].
  apply wps_bind. eapply wps_getConfigAttrib; [done..|]. intros [v|]; by apply wps_ret.
Qed.

Lemma swap_ok t con p x (Q : Z -> EglState -> S -> Prop) e s :
  inv e s -> surfaces e !! p = Some x -> (forall z e' s', inv e' s' -> Q z e' s') ->
  runs t (window_swapBuffers t con p) Q e s.
Proof.
  intros Hi Hp HQ. destruct (ok_surface _ _ _ (inv_ok _ _ _ _ _ Hi) _ _ Hp) as (H0 & Hd & Hc & Hx).
  apply wps_bind. eapply wps_deref; [done|]. destruct (s_kind x) as [w b|b] eqn:Hk; [|by apply wps_ret, HQ].
  destruct Hx as (Hw & _ & Hty). destruct con; [|by apply wps_ret, HQ].
  apply wps_bind, wps_quiet; [done..|]. intros _ s1 Hi1. apply wps_bind.
  eapply (wps_refs t w (fun p => window_call p (QueueBuffer b))); [by right; right; eexists|done|done|].
  intros e2 He2 Hi2. assert (Hw2 : is_Some (windows e2 !! w)) by (destruct He2 as (m & -> & Hm); by apply Hm).
  apply wps_bind, wps_dequeue; [done..|]. intros r e3 He3 Hi3 Hr.
  assert (Hp3 : surfaces e3 !! p = Some x).
  { by rewrite (only_windows_surfaces e2 e3), (only_windows_surfaces e e2). }
  assert (Hw3 : is_Some (windows e3 !! w)) by (destruct He3 as (m & -> & Hm); by apply Hm).
  assert (Hput : forall b' x', live (buffers e3) b' -> s_dpy x' = s_dpy x -> s_config x' = s_config x ->
    s_kind x' = WindowSurface w b' -> s_surfaceType x' = s_surfaceType x -> s_rcSurface x' = s_rcSurface x ->
    inv (with_surfaces (<[p := x']> (surfaces e3)) e3) s1).
  { intros b' x' Hb' H1 H2 H3 H4 H5. eapply inv_same_surface; [done|done| |done|].
    - split; [done|]. rewrite H1, H2, H3, H4. by split_and!.
    - unfold pbuffer_of. by rewrite H3, Hk. }
  destruct r as [b'|].
  2: { apply wps_bind, wps_setg. eapply wps_error; [apply (Hput 0); [by left|done..]|]. intros Hi4. by apply HQ. }
  specialize (Hr b' eq_refl). apply wps_bind, wps_setg.
  assert (Hb3 : is_Some (buffers e3 !! b')) by by destruct He3 as (m & -> & _).
  pose proof (Hput b' (set_kind (WindowSurface w b') x) (or_intror Hb3) eq_refl eq_refl eq_refl eq_refl eq_refl) as Hi4.
  destruct Hb3 as [n Hn]. apply wps_bind. eapply wps_deref; [exact Hn|]. apply wps_bind, wps_quiet; [done..|].
  intros _ s5 Hi5. apply wps_bind, wps_setg, wps_ret, HQ. eapply inv_same_surface; [exact Hi5|apply lookup_insert_eq| |done|done].
  pose proof (ok_surface _ _ _ (inv_ok _ _ _ _ _ Hi5) p (set_kind (WindowSurface w b') x)) as Hok. apply Hok, lookup_insert_eq.
Qed.

Lemma safe_swap t con dpy p e s :
  inv e s -> live (surfaces e) p -> safe t (eglSwapBuffers s_display t con dpy p) e s.
Proof.
  intros Hi Hp. apply safe_init; [done|]. intros _ _. destruct (Z.eqb_spec p EGL_NO_SURFACE) as [|H0]; [by apply safe_error|].
  destruct Hp as [|[x Hx]]; [done|]. apply safe_connected; [done|]. intros _. apply calls_safe_bind. eapply wps_deref; [done|].
  destruct (negb _); [by apply safe_error|]. apply wps_bind. eapply swap_ok; [done..|]. intros z e' s' Hi'.
  by apply wps_bind, wps_flush, wps_ret.
Qed.

(** ** Images, fences and strings *)

Lemma inv_images m e s :
  inv e s -> (forall p i, m !! p = Some i -> image_ok s_display e i) -> inv (with_images m e) s.
Proof. intros [He Hc] Hm. split; [|done]. by split; try apply He. Qed.

Lemma inv_same_buffer p b b' e s :
  inv e s -> buffers e !! p = Some b -> inv (with_buffers (<[p := b']> (buffers e)) e) s.
Proof.
  intros [He Hc] Hp. split; [|done].
  assert (Hb : forall q, is_Some (buffers e !! q) -> is_Some (<[p := b']> (buffers e) !! q)) by (intros q; apply is_Some_insert).
  split; try apply He; cbn.
  - intros q x Hq. destruct (ok_surface _ _ _ He q x Hq) as (H1 & H2 & H3 & Hk). split; [done|]. split; [done|].
    split; [done|]. destruct (s_kind x); [|done]. destruct Hk as (Hw & Hl & Hty). split; [done|]. split; [|done].
    destruct Hl as [|Hl]; [by left|right; by apply Hb].
  - intros q i Hq. destruct (ok_image _ _ _ He q i Hq) as [H1 H2]. split; [done|]. destruct (i_image i); [by apply Hb|done].
  - intros q w Hq. eapply Forall_impl; [by apply (ok_window _ _ _ He q w)|]. intros [x|]; [apply Hb|done].
Qed.

Lemma wps_new_image t i (Q : Z -> EglState -> S -> Prop) e s :
  inv e s -> image_ok s_display e i -> (forall p e', inv e' s -> Q p e' s) -> runs t (new_image i) Q e s.
Proof.
  intros Hi Hok HQ. apply wps_bind, wps_getg, wps_bind, wps_setg, wps_ret, HQ, inv_images; [done|].
  intros q x. rewrite lookup_insert_Some. intros [[_ <-]|[_ Hq]]; [done|]. by apply (ok_image _ _ _ (inv_ok _ _ _ _ _ Hi) q).
Qed.

Lemma safe_create_image t con dpy ctx target b e s :
  inv e s -> legal t con (ECreateImage dpy ctx target b) e ->
  safe t (eglCreateImageKHR s_display t con dpy ctx target b) e s.
Proof.
  intros Hi (Hb & Hctx). apply safe_init; [done|]. intros -> _.
  destruct (Z.eqb_spec target EGL_NATIVE_BUFFER_ANDROID) as [Ht|_].
  - destruct (negb _); [by apply safe_error|]. destruct (Hb Ht) as [n Hn]. apply calls_safe_bind. eapply wps_deref; [done|].
    destruct (negb _); [by apply safe_error|]. destruct (negb _); [by apply safe_error|].
    apply wps_bind, wps_bind. eapply wps_deref; [done|]. apply wps_setg, wps_new_image; [by eapply inv_same_buffer| |done].
    split; [done|]. cbn. by rewrite lookup_insert_eq.
  - destruct (_ =? _); [|by apply safe_error]. apply safe_context; [done|]. intros _. apply safe_connected; [done|].
    intros _. apply calls_safe_bind, wps_handle; [done|]. intros h. apply wps_bind. eapply wps_number; [done..|].
    intros z s' Hi'. by apply wps_new_image.
Qed.

Lemma safe_destroy_image t con dpy p e s :
  inv e s -> live (images e) p -> safe t (eglDestroyImageKHR s_display t con dpy p) e s.
Proof.
  intros Hi Hp. apply safe_init; [done|]. intros -> _. destruct (Z.eqb_spec p 0); [by apply safe_error|].
  destruct Hp as [|[i Hp]]; [done|]. apply calls_safe_bind. eapply wps_deref; [done|].
  destruct (ok_image _ _ _ (inv_ok _ _ _ _ _ Hi) _ _ Hp) as [-> Himg]. rewrite Z.eqb_refl. cbn [negb].
  assert (Hdel : forall e' s', inv e' s' -> inv (with_images (delete p (images e')) e') s').
  { intros e' s' Hi'. apply inv_images; [done|]. intros q x. rewrite lookup_delete_Some. intros [_ Hq].
    by apply (ok_image _ _ _ (inv_ok _ _ _ _ _ Hi') q). }
  destruct (i_image i) as [b|h].
  - destruct Himg as [nb Hn]. apply wps_bind. eapply wps_deref; [done|]. destruct (negb _); [by apply safe_error|].
    apply wps_bind, wps_bind. eapply wps_deref; [done|]. apply wps_setg, wps_bind, wps_setg, wps_ret, Hdel.
    by eapply inv_same_buffer.
  - apply wps_bind, wps_setg, safe_connected; [by apply Hdel|]. intros _. eapply wps_number; [done|done|by apply Hdel|done].
Qed.

Lemma safe_create_sync t dpy ty l e s :
  inv e s -> l <> Some [] -> waits e t -> safe t (eglCreateSyncKHR s_display t dpy ty l) e s.
Proof.
  intros Hi Hl Hw. apply safe_display; [done|]. intros _. destruct (negb _); [by apply safe_error|]. apply calls_safe_bind.
  assert (Hgo : forall a : bool, safe t (if a then setErrorFunc t EGL_BAD_ATTRIBUTE 0
    else current ← getThread t currentContext;
         if current =? 0 then setErrorFunc t EGL_BAD_MATCH 0
         else c ← deref contexts current; finish t (c_version c) ;; mret FENCE_SYNC_HANDLE) e s).
  { intros []; [by apply safe_error|]. apply calls_safe_bind, wps_thread.
    destruct (Z.eqb_spec (currentContext (thread_of t e)) 0) as [|H0]; [by apply safe_error|].
    destruct (ok_thread _ _ _ (inv_ok _ _ _ _ _ Hi) t) as [|(c & Hc & _)]; [done|].
    apply calls_safe_bind. eapply wps_deref; [done|]. apply wps_bind. eapply gles_finish_ok; [done|by apply Hw|].
    intros. by apply wps_ret. }
  destruct l as [[|a l]|]; [done|apply wps_ret, Hgo|apply wps_ret, (Hgo false)].
Qed.

Lemma safe_sync_attrib t dpy y a e s : inv e s -> safe t (eglGetSyncAttribKHR t dpy y a) e s.
Proof.
  intros Hi. unfold eglGetSyncAttribKHR. destruct (negb _); [by apply safe_error|].
  repeat (destruct (_ =? _); [by apply calls_safe_ret|]). by apply safe_error.
Qed.

Lemma safe_gl_string t con name e s : inv e s -> safe t (getGLString t con name) e s.
Proof.
  intros Hi. apply calls_safe_bind, wps_thread.
  destruct (Z.eqb_spec (currentContext (thread_of t e)) 0) as [|H0]; [by apply calls_safe_ret|].
  destruct (negb _); [by apply calls_safe_ret|].
  destruct (ok_thread _ _ _ (inv_ok _ _ _ _ _ Hi) t) as [|(c & Hc & _)]; [done|].
  apply wps_bind. eapply wps_deref; [done|]. destruct (c_strings c !! name); [by apply wps_ret|].
  apply safe_connected; [done|]. intros _. apply calls_safe_bind. eapply (wps_pair _ _ _ _ _ 0); [done|done|done|].
  intros l r s1 _ _ _ Hi1. apply calls_safe_bind.
  assert (Hgo : forall str s', inv e s' ->
    safe t (put_context (currentContext (thread_of t e)) (set_cached name str c) ;; mret str) e s').
  { intros str s' Hi'. apply calls_safe_bind, wps_setg, wps_ret. by eapply inv_context. }
  destruct (int_of r <? 0); [|by apply wps_ret, Hgo]. apply wps_bind.
  eapply wps_pair; [done|done|exact Hi1|]. intros l2 r2 s2 _ _ _ Hi2. by apply wps_ret, Hgo.
Qed.

Lemma safe_framework t con W B e s :
  inv e s -> legal t con (Framework W B) e -> safe t (framework W B) e s.
Proof.
  intros [He Hc] (HW & HB & Hq). apply wps_setg. split; [|done]. split; try apply He; cbn.
  - intros p x Hp. destruct (ok_surface _ _ _ He p x Hp) as (H1 & H2 & H3 & Hk). split; [done|]. split; [done|].
    split; [done|]. destruct (s_kind x); [|done]. destruct Hk as (Hw & Hl & Hty). split; [by apply HW|]. split; [|done].
    destruct Hl as [|Hl]; [by left|right; by apply HB].
  - intros p i Hp. destruct (ok_image _ _ _ He p i Hp) as [H1 H2]. split; [done|]. destruct (i_image i); [by apply HB|done].
  - done.
Qed.

Lemma safe_call t con c e s : inv e s -> legal t con c e -> safe t (perform t con c) e s.
Proof.
  intros Hi Hl. destruct c; try apply safe_quietly; cbn [legal perform] in *.
  - by apply safe_initialize.
  - by apply safe_terminate.
  - apply calls_safe_bind, wps_thread, wps_bind, wps_set_thread, wps_ret. by apply inv_with_thread.
  - by apply safe_query_string.
  - by apply safe_get_configs.
  - by apply safe_choose; [|exact Hl].
  - by apply safe_get_config_attrib.
  - destruct_and! Hl. by apply safe_create_window.
  - by apply safe_create_pbuffer; [|exact Hl].
  - destruct_and! Hl. by apply safe_destroy_surface.
  - by apply safe_query_surface.
  - unfold eglBindAPI. destruct (negb _); [by apply safe_error|by apply calls_safe_ret].
  - apply calls_safe_bind, wps_thread. destruct (_ =? _); [by apply wps_ret|].
    assert (Hnone : forall c, contexts e !! EGL_NO_CONTEXT = Some c -> False).
    { intros c Hc. by destruct (ok_context _ _ _ (inv_ok _ _ _ _ _ Hi) _ _ Hc). }
    apply safe_make_current; [done|by left|by left|by left| |].
    + intros c Hc. by destruct (Hnone c).
    + intros t' c _ _ Hc. by destruct (Hnone c).
  - apply safe_init; [done|]. intros _ _. apply safe_surface; [done..|]. destruct (_ =? _); [by apply safe_error|by apply calls_safe_ret].
  - by apply safe_bind_tex_image.
  - by apply safe_swap_interval.
  - by apply safe_create_context; [|exact Hl].
  - destruct_and! Hl. by apply safe_destroy_context.
  - destruct_and! Hl. by apply safe_make_current.
  - by apply safe_current_surface.
  - apply safe_with_current; [done|]. intros. by apply calls_safe_ret.
  - by apply safe_query_context.
  - by apply safe_wait_gl.
  - by apply safe_swap.
  - by apply safe_create_image; [|exact Hl].
  - by apply safe_destroy_image.
  - destruct_and! Hl. by apply safe_create_sync.
  - unfold eglDestroySyncKHR. destruct (negb _); [by apply safe_error|by apply calls_safe_ret].
  - unfold eglClientWaitSyncKHR. destruct (negb _); [by apply safe_error|by apply calls_safe_ret].
  - by apply safe_sync_attrib.
  - by apply safe_gl_string.
  - apply safe_with_current; [done|]. intros c _. apply calls_safe_bind, wps_getg. by apply calls_safe_ret.
  - by apply (safe_framework t con); [|exact Hl].
Qed.

(** ** Histories *)

(** The calls in their order, each by a thread that has a connection or has none. *)
Fixpoint run_calls (l : list (Z * bool * egl_call)) e s : option (EglState * S) :=
  match l with
  | [] => Some (e, s)
  | (t, con, c) :: l =>
      match run_with (host t) (perform t con c e) s with
      | (Value _ e, s) => run_calls l e s
      | _ => None
      end
  end.

Fixpoint all_legal (l : list (Z * bool * egl_call)) e s : Prop :=
  match l with
  | [] => True
  | (t, con, c) :: l =>
      legal t con c e /\ all_served (host t) (serves t) (perform t con c e) s /\
      match run_with (host t) (perform t con c e) s with
      | (Value _ e, s) => all_legal l e s
      | _ => True
      end
  end.

Lemma run_calls_ok l : forall e s, inv e s -> all_legal l e s ->
  exists e' s', run_calls l e s = Some (e', s') /\ inv e' s'.
Proof.
  induction l as [|[[t con] c] l IH]; intros e s Hi Hl; [by exists e, s|].
  destruct Hl as (Hlegal & Hs & Hl). pose proof (safe_call t con c e s Hi Hlegal Hs) as Hwp.
  unfold wp in Hwp. cbn [run_calls all_legal] in *.
  destruct (run_with (host t) (perform t con c e) s) as [[a e'| |] s']; [|done..]. by apply IH.
Qed.
End history.

Definition egl_new : EglState := mkEgl display_new ∅ ∅ ∅ ∅ ∅ ∅ 0 ∅.

Section theorem.
Context {S : Type} (host : Z -> rc_call -> S -> list bytes * S) `{HH : !EglHost host}.
Context `{HA : Android, HK : Kernel, HUi : AndroidUi}.
Variable s_display : Z.
Variable getProcAddress : Z -> string -> bool.

Lemma egl_new_inv s : inv host s_display (held s) egl_new s.
Proof.
  split.
  - split; cbn; try done. intros t. by left.
  - intros k h Hh. destruct k; cbn; unfold tally; rewrite map_filter_empty, map_size_empty; lia.
Qed.

(** Whatever the threads of a process call, in whatever order, and whatever the host and
    the windows refuse: if the pointers lead to objects and no thread takes from another
    what it has current, no function of EGL follows a pointer that leads nowhere; the host
    then holds, above what it held before, exactly the contexts, window surfaces and color
    buffers that the objects of the guest stand for; what a thread has current, and the
    surfaces of it, exist, and no two threads have the same context. *)
Theorem egl_history calls s :
  all_legal host s_display getProcAddress calls egl_new s ->
  exists e' s', run_calls host s_display getProcAddress calls egl_new s = Some (e', s') /\
    (forall k h, h <> 0 -> held s' k h = held s k h + count k e' h) /\
    (forall t, current_ok e' (currentContext (thread_of t e'))) /\
    (forall t t', currentContext (thread_of t e') = currentContext (thread_of t' e') ->
       currentContext (thread_of t e') <> 0 -> t = t').
Proof.
  intros Hl.
  destruct (run_calls_ok host s_display getProcAddress (held s) (held_nonneg s) calls egl_new s (egl_new_inv s) Hl)
    as (e' & s' & Hrun & Hi).
  exists e', s'. split; [done|]. split; [apply (inv_counted _ _ _ _ _ Hi)|].
  split; apply (inv_ok _ _ _ _ _ Hi).
Qed.
End theorem.
