(* ===== verification/EglDaemon.v ===== *)
(** * The guest's EGL on the daemon

    The daemon of Service.v as the host of EGL: a thread of the guest has a connection, and
    so a render thread, of its own.  The daemon keeps what [EglHost] promises, so that its
    tables have the contexts, surfaces and buffers of the guest's objects
    ([egl_on_daemon]).  Then what EGL allows and the code does not cope with. *)

From Stdlib Require Import SpecFloat.
From S2P Require Import Prelude Utils Rect Gl RendererConfig TextureDraw ColorBuffer RenderState Renderer Handles Ownership Steps RendererTables RenderControl Wayland NativeWindow RenderThread Checksum GuestStream RenderControlEnc Decoder Remote Service GuestCode Gralloc GrallocState GrallocHistory GuestBuffers EglDisplay Egl EglState EglHistory.

(** ** Handles in the tables *)

(** A handle is a 32-bit number. *)
Definition held_tables (t : Tables) (k : kind) (h : Z) : Z :=
  if (0 <=? h) && (h <? 2 ^ 32) then
    match k with
    | KContext => one (bool_decide (is_Some (m_contexts t !! h)))
    | KSurface => one (bool_decide (is_Some (m_windows t !! h)))
    | KBuffer => table_refs t h
    end
  else 0.

Definition same_keys (t t' : Tables) : Prop :=
  (forall h, is_Some (m_contexts t' !! h) <-> is_Some (m_contexts t !! h)) /\
  (forall h, is_Some (m_windows t' !! h) <-> is_Some (m_windows t !! h)) /\
  m_colorbuffers t' = m_colorbuffers t.

#[export] Instance same_keys_preorder : PreOrder same_keys.
Proof.
  split; [done|]. intros x y z (H1 & H2 & H3) (H4 & H5 & H6). split; [|split; [|congruence]]; intros h;
    [rewrite H4; apply H1|rewrite H5; apply H2].
Qed.

Lemma held_same t t' k h : same_keys t t' -> held_tables t' k h = held_tables t k h.
Proof.
  intros (H1 & H2 & H3). unfold held_tables, table_refs. rewrite H3. destruct (_ && _); [|done].
  destruct k; [| |done]; f_equal; by apply bool_decide_ext.
Qed.

Lemma held_range t k h : held_tables t k h <> 0 -> in_u 32 h.
Proof. unfold held_tables, in_u. destruct (_ && _) eqn:Hh; [lia|done]. Qed.

Lemma held_tables_nonneg t k h : 0 <= held_tables t k h.
Proof.
  unfold held_tables. destruct (_ && _); [|done]. destruct k; try apply one_nonneg. unfold table_refs.
  destruct (_ && _); [|done]. destruct (m_colorbuffers t !! h); [|done]. cbn. apply (wrapu_range 32). lia.
Qed.

(** The kinds of the entries that are put in and taken out. *)
Definition putting (k : kind) (h : Z) (t t' : Tables) : Prop :=
  match k with
  | KContext => put_context_handle h t t'
  | KSurface => put_window_handle h t t'
  | KBuffer => put_buffer_handle h t t'
  end.

Lemma some_insert {A} (m : gmap Z A) p x h : m !! p = None ->
  one (bool_decide (is_Some (<[p := x]> m !! h))) = one (bool_decide (is_Some (m !! h))) + one (bool_decide (h = p)).
Proof.
  intros Hp. destruct (decide (h = p)) as [->|Hne].
  - by rewrite lookup_insert_eq, Hp, (bool_decide_true (p = p)), bool_decide_true, bool_decide_false by
      (done || by eexists || by intros []).
  - rewrite lookup_insert_ne by done. rewrite (bool_decide_false (h = p)) by done. cbn. lia.
Qed.

Lemma some_delete {A} (m : gmap Z A) p h : is_Some (m !! p) ->
  one (bool_decide (is_Some (delete p m !! h))) = one (bool_decide (is_Some (m !! h))) - one (bool_decide (h = p)).
Proof.
  intros Hp. destruct (decide (h = p)) as [->|Hne].
  - by rewrite lookup_delete_eq, (bool_decide_true (p = p)), (bool_decide_true (is_Some (m !! p))), bool_decide_false by
      (done || by intros []).
  - rewrite lookup_delete_ne by done. rewrite (bool_decide_false (h = p)) by done. cbn. lia.
Qed.

Lemma held_made k t t' r : made (putting k) t t' r -> exists h, r = Some h /\ in_u 32 h /\
  forall k' h', h' <> 0 -> held_tables t' k' h' = held_tables t k' h' + one (bool_decide (k' = k /\ h' = h)).
Proof.
  intros [[-> ->]|(h & -> & Hh & Hc & Hw & Hb & Hput)].
  { exists 0. split; [done|]. split; [done|]. intros k' h' Hne. rewrite bool_decide_false by naive_solver. cbn. lia. }
  exists h. split; [done|]. split; [unfold in_u; lia|]. intros k' h' Hne. unfold held_tables.
  destruct ((0 <=? h') && (h' <? 2 ^ 32)) eqn:Hin.
  2: { rewrite bool_decide_false by (intros [_ ->]; lia). done. }
  destruct (decide (k' = k)) as [->|Hk].
  - rewrite (bool_decide_ext (k = k /\ h' = h) (h' = h)) by (split; [by intros []|done]). destruct k; destruct Hput as [p ->]; cbn [m_contexts m_windows].
    + by apply some_insert.
    + by apply some_insert.
    + rewrite refs_insert by (unfold in_u; lia). cbn [refcount]. rewrite (wrapu_id 32 1) by done.
      destruct (Z.eqb_spec h' h) as [->|Hne']; [|rewrite bool_decide_false by done; cbn; lia].
      rewrite bool_decide_true by done. unfold table_refs. rewrite Hb. by destruct (_ && _).
  - rewrite (bool_decide_false (k' = k /\ _)) by (by intros []). cbn [one]. rewrite Z.add_0_r.
    by destruct k, Hput as [p ->]; destruct k'.
Qed.

Lemma no_less (k k' : kind) (h h' x : Z) : k' <> k \/ h' <> h -> x = x - one (bool_decide (k' = k /\ h' = h)).
Proof. intros Hne. rewrite bool_decide_false by naive_solver. cbn [one]. lia. Qed.

Lemma held_drop_context t h : 0 < held_tables t KContext h -> forall k' h',
  held_tables (mkTables (s_nextHandle t) (delete h (m_contexts t)) (m_windows t) (m_colorbuffers t)) k' h' =
    held_tables t k' h' - one (bool_decide (k' = KContext /\ h' = h)).
Proof.
  intros Hpos k' h'. pose proof (held_range t KContext h ltac:(lia)) as Hh. unfold held_tables, in_u in *.
  replace ((0 <=? h) && (h <? 2 ^ 32)) with true in Hpos by lia.
  destruct ((0 <=? h') && (h' <? 2 ^ 32)) eqn:Hin.
  2: { apply no_less. right. intros ->. lia. }
  destruct k'; cbn [m_contexts m_windows].
  - rewrite (bool_decide_ext (KContext = KContext /\ h' = h) (h' = h)) by (split; [by intros []|done]).
    apply some_delete. by case_bool_decide.
  - by apply no_less; left.
  - by apply no_less; left.
Qed.

Lemma held_drop_window t h : 0 < held_tables t KSurface h -> forall k' h',
  held_tables (mkTables (s_nextHandle t) (m_contexts t) (delete h (m_windows t)) (m_colorbuffers t)) k' h' =
    held_tables t k' h' - one (bool_decide (k' = KSurface /\ h' = h)).
Proof.
  intros Hpos k' h'. pose proof (held_range t KSurface h ltac:(lia)) as Hh. unfold held_tables, in_u in *.
  replace ((0 <=? h) && (h <? 2 ^ 32)) with true in Hpos by lia.
  destruct ((0 <=? h') && (h' <? 2 ^ 32)) eqn:Hin.
  2: { apply no_less. right. intros ->. lia. }
  destruct k'; cbn [m_contexts m_windows].
  - by apply no_less; left.
  - rewrite (bool_decide_ext (KSurface = KSurface /\ h' = h) (h' = h)) by (split; [by intros []|done]).
    apply some_delete. by case_bool_decide.
  - by apply no_less; left.
Qed.

(** ** The daemon and its connections *)

Section daemon.
Context {D : Type} `{HD : Driver D}.
Variable split : string -> list string.
Variable tan : spec_float -> spec_float.
Variable gbm : Gbm.
Variable fresh : Daemon D -> Z -> list Z.
Variables indeterminate unwritten : Z.
Hypothesis fresh_size : forall d n, 0 <= n -> zlen (fresh d n) = n.

(** The driver as another thread finds it, which has other things current. *)
Variable become : Z -> D -> D.

(** The render threads of a process: the one that runs, and the others. *)
Record RenderThreads := mkRenderThreads {
  c_daemon : option (Daemon D);
  c_running : Z;
  c_waiting : gmap Z RenderThreadInfo
}.

Definition switch_world (t : Z) (i : RenderThreadInfo) (others : list RenderThreadInfo) (w : World D) : World D :=
  mkWorld (become t (w_drv w)) (w_display w) (w_saved w) (w_tables w) (w_heap w) i others.

Definition switch_to (t : Z) (s : RenderThreads) : RenderThreads :=
  if t =? c_running s then s
  else
    match c_daemon s with
    | Some d =>
        match d_renderer d with
        | Some f =>
            let m := delete t (<[c_running s := w_self (f_world f)]> (c_waiting s)) in
            let i := default info_new (c_waiting s !! t) in
            mkRenderThreads (Some (with_renderer (with_world (switch_world t i (map_to_list m).*2 (f_world f)) f) d)) t m
        | None => mkRenderThreads (c_daemon s) t (c_waiting s)
        end
    | None => mkRenderThreads None t (c_waiting s)
    end.

Let on := on_daemon split tan gbm fresh indeterminate unwritten.

Definition on_thread (t : Z) (c : rc_call) (s : RenderThreads) : list bytes * RenderThreads :=
  let s := switch_to t s in
  let r := on c (c_daemon s) in
  (r.1, mkRenderThreads r.2 (c_running s) (c_waiting s)).

Definition held_by (d : option (Daemon D)) (k : kind) (h : Z) : Z :=
  match d ≫= tables with Some t => held_tables t k h | None => 0 end.

(** The tables have room, and the renderer has as many configurations as said. *)
Definition has_room (configs : Z) (d : Daemon D) : Prop :=
  match d_renderer d with
  | Some f => table_ready (w_tables (f_world f)) /\ zlen (RenderState.m_configs (w_display (f_world f))) = configs
  | None => True
  end.

Definition survives (configs : Z) (c : rc_call) (d : option (Daemon D)) : Prop :=
  exists d0, d = Some d0 /\ is_Some (on c (Some d0)).2 /\ fits c /\ has_room configs d0.

Lemma held_switch t s k h : held_by (c_daemon (switch_to t s)) k h = held_by (c_daemon s) k h.
Proof.
  unfold switch_to. destruct (t =? c_running s); [done|]. destruct (c_daemon s) as [d|]; [|done].
  unfold held_by, tables. cbn. by destruct (d_renderer d) eqn:Hd; cbn; rewrite ?Hd.
Qed.

(** ** Calls that make or drop *)

Definition renderer_after (f : Frames D) (d : Daemon D) (w : World D) : Daemon D := with_renderer (with_world w f) d.

Lemma held_renderer d f k h : d_renderer d = Some f -> held_by (Some d) k h = held_tables (w_tables (f_world f)) k h.
Proof. intros Hf. unfold held_by, tables. cbn. by rewrite Hf. Qed.

Lemma held_no_renderer d k h : d_renderer d = None -> held_by (Some d) k h = 0.
Proof. intros Hf. unfold held_by, tables. cbn. by rewrite Hf. Qed.

(** A handler that returns the handle of a new object. *)
Lemma creating_held configs c d k (m : M (World D) (option Z)) f0 :
  zlookup (handlers split tan gbm fresh indeterminate unwritten) (op (remote c) - base_opcode) = Some f0 ->
  f0 (args (remote c)) = returning (on_rc_some (creating m)) ->
  (forall ls, seen c ls = ls) ->
  (forall w, table_ready (w_tables w) -> made (putting k) (w_tables w) (w_tables (m w).2) (m w).1) ->
  has_room configs d ->
  exists h, in_u 32 h /\ (on c (Some d)).1 = [word h] /\ forall k' h', h' <> 0 ->
    held_by (on c (Some d)).2 k' h' = held_by (Some d) k' h' + one (bool_decide (k' = k /\ h' = h)).
Proof.
  intros Hf0 Hargs Hseen Hm Hroom. unfold on. rewrite (on_daemon_handler _ _ _ _ _ _ _ _ _ Hf0), Hargs.
  unfold returning, on_rc_some, creating, mbind, Run_bind. rewrite on_rc_renderer.
  unfold has_room in Hroom. destruct (d_renderer d) as [f|] eqn:Hd.
  - destruct Hroom as [Hready _]. destruct (held_made k _ _ _ (Hm (f_world f) Hready)) as (h & Hr & Hh & Hheld).
    rewrite Hr. exists h. split; [done|]. cbn. rewrite Hseen. split; [done|]. intros k' h' Hne.
    rewrite (held_renderer d f) by done. by apply Hheld.
  - exists 0. split; [done|]. cbn. rewrite Hseen. split; [done|]. intros k' h' Hne.
    rewrite bool_decide_false by naive_solver. cbn. lia.
Qed.

Lemma makes_held configs c k d : makes c = Some k -> has_room configs d ->
  exists h, in_u 32 h /\ (on c (Some d)).1 = [word h] /\ forall k' h', h' <> 0 ->
    held_by (on c (Some d)).2 k' h' = held_by (Some d) k' h' + one (bool_decide (k' = k /\ h' = h)).
Proof.
  intros Hc Hroom. destruct c; try done; injection Hc as <-.
  - eapply (creating_held configs _ _ KContext); [reflexivity|reflexivity|done| |done].
    intros w. apply createRenderContext_tables.
  - eapply (creating_held configs _ _ KSurface); [reflexivity|reflexivity|done| |done].
    intros w. apply createWindowSurface_tables.
  - eapply (creating_held configs _ _ KBuffer); [reflexivity|reflexivity|done| |done].
    intros w. apply createColorBuffer_tables.
Qed.

(** A reference less of what the daemon holds. *)
Lemma dropping_held c d k h (m : M (World D) unit) f0 :
  zlookup (handlers split tan gbm fresh indeterminate unwritten) (op (remote c) - base_opcode) = Some f0 ->
  f0 (args (remote c)) = silent (on_rc (on_renderer tt m)) ->
  (forall w, 0 < held_tables (w_tables w) k h -> forall k' h', held_tables (w_tables (m w).2) k' h' =
     held_tables (w_tables w) k' h' - one (bool_decide (k' = k /\ h' = h))) ->
  0 < held_by (Some d) k h -> forall k' h',
  held_by (on c (Some d)).2 k' h' = held_by (Some d) k' h' - one (bool_decide (k' = k /\ h' = h)).
Proof.
  intros Hf0 Hargs Hm Hpos k' h'. unfold on. rewrite (on_daemon_handler _ _ _ _ _ _ _ _ _ Hf0), Hargs.
  unfold silent, mbind, Run_bind. rewrite on_rc_renderer. destruct (d_renderer d) as [f|] eqn:Hd.
  - rewrite (held_renderer d f) in * by done. by apply Hm.
  - by rewrite held_no_renderer in Hpos.
Qed.

Lemma drops_held c d k h : drops c = Some (k, h) -> 0 < held_by (Some d) k h -> forall k' h',
  held_by (on c (Some d)).2 k' h' = held_by (Some d) k' h' - one (bool_decide (k' = k /\ h' = h)).
Proof.
  intros Hc Hpos. assert (Hh : u32 h = h).
  { apply wrapu_id. unfold held_by in Hpos. destruct (_ ≫= _) as [t|]; [|done]. apply (held_range t k). lia. }
  destruct c; try done; injection Hc as <- ->.
  - eapply (dropping_held _ _ KContext h); [reflexivity|cbn; rewrite Hh; reflexivity| |done].
    intros w Hw. rewrite DestroyRenderContext_tables. by apply held_drop_context.
  - eapply (dropping_held _ _ KSurface h); [reflexivity|cbn; rewrite Hh; reflexivity| |done].
    intros w Hw. rewrite DestroyWindowSurface_tables. by apply held_drop_window.
  - eapply (dropping_held _ _ KBuffer h); [reflexivity|cbn; rewrite Hh; reflexivity| |done].
    intros w Hw k' h'. assert (Hr : in_u 32 h) by (apply (held_range (w_tables w) KBuffer); lia).
    destruct (closeColorBuffer_others h w) as [H1 H2]. unfold held_tables, in_u in *. rewrite H1, H2.
    replace ((0 <=? h) && (h <? 2 ^ 32)) with true in Hw by lia.
    destruct ((0 <=? h') && (h' <? 2 ^ 32)) eqn:Hin.
    2: { apply no_less. right. intros ->. lia. }
    destruct k'; [by apply no_less; left..|].
    rewrite closeColorBuffer_refs by done. f_equal. destruct (Z.eqb_spec h' h); case_bool_decide; naive_solver.
Qed.

(** ** The other calls *)

Definition same_held (d d' : option (Daemon D)) : Prop := forall k h, held_by d' k h = held_by d k h.

Definition quiet {A} (m : Run A) : Prop := forall d a d', m d = Some (a, d') -> same_held (Some d) (Some d').

Lemma quiet_bind {A B} (m : Run A) (f : A -> Run B) : quiet m -> (forall a, quiet (f a)) -> quiet (m ≫= f).
Proof.
  intros Hm Hf d b d'. unfold mbind, Run_bind. destruct (m d) as [[a d1]|] eqn:Ha; [|done]. intros Hb k h.
  by rewrite (Hf _ _ _ _ Hb), (Hm _ _ _ Ha).
Qed.
Lemma quiet_ret {A} (a : A) : quiet (mret a).
Proof. by intros d a' d' [= <- <-]. Qed.
Lemma quiet_gone {A} : quiet (A := A) gone.
Proof. done. Qed.
Lemma quiet_getd {A} (f : Daemon D -> A) : quiet (Service.getd f).
Proof. by intros d a' d' [= <- <-]. Qed.
Lemma quiet_filled n l : quiet (filled fresh n l).
Proof. unfold filled. destruct (n <? zlen l); [done|apply quiet_getd]. Qed.

(** Of a function of the renderer. *)
Definition keeps_keys {A} (m : M (World D) A) : Prop := forall w, same_keys (w_tables w) (w_tables (m w).2).

Lemma quiet_renderer {A} (fail : A) m : keeps_keys m -> quiet (on_rc (on_renderer fail m)).
Proof.
  intros Hm d a d'. rewrite on_rc_renderer. destruct (d_renderer d) as [f|] eqn:Hd; [|by intros [= _ <-]].
  intros [= _ <-] k h. rewrite (held_renderer d f) by done. apply held_same, Hm.
Qed.

Lemma quiet_ending {A B} (m : M (RC D) A) (f : A -> B) : quiet (on_rc m) -> quiet (on_rc (a ← m; mret (f a))).
Proof.
  intros Hm d b d'. unfold on_rc. rewrite bind_run. intros Hb k h. eapply (Hm d (m (rc_view d)).1 d'). unfold on_rc.
  destruct (m (rc_view d)) as [a rc]. injection Hb as _ <-. done.
Qed.

Lemma quiet_silent m : quiet m -> quiet (silent m).
Proof. intros Hm. apply quiet_bind; [done|intros ?; apply quiet_ret]. Qed.
Lemma quiet_returning m : quiet m -> quiet (returning m).
Proof. intros Hm. apply quiet_bind; [done|intros ?; apply quiet_ret]. Qed.

Lemma keys_of_tables {A} (m : M (World D) A) : respects keeps_tables m -> keeps_keys m.
Proof. intros Hm w. by rewrite (Hm w). Qed.

Lemma setWindowSurface_keys h b : keeps_keys (setWindowSurfaceColorBuffer h b).
Proof.
  intros w. destruct (setWindowSurface_tables h b w) as [->|(x & y & Hy & ->)]; [done|].
  split; [done|]. split; [|done]. intros h'. cbn. destruct (decide (h' = h)) as [->|Hne].
  - rewrite lookup_insert_eq, Hy. split; by eexists.
  - by rewrite lookup_insert_ne.
Qed.

Lemma createClientImage_keys c t b : keeps_keys (createClientImage c t b).
Proof. intros w. unfold createClientImage. by repeat case_match. Qed.
Lemma destroyClientImage_keys i : keeps_keys (destroyClientImage i).
Proof. intros w. unfold destroyClientImage. by repeat case_match. Qed.

Lemma quiet_mret {A} (a : A) : quiet (on_rc (mret a)).
Proof.
  intros d a' d' [= _ <-] k h. unfold held_by, tables, rc_update, rc_view. cbn. by destruct (d_renderer d).
Qed.

Lemma gets_keys {A} (f : World D -> A) : keeps_keys (gets f).
Proof. done. Qed.

Ltac quiet_tac :=
  repeat first
    [ apply quiet_silent | apply quiet_returning | apply quiet_ret | apply quiet_mret | apply quiet_gone | apply quiet_getd
    | apply quiet_filled | apply quiet_ending
    | apply quiet_renderer
    | apply gets_keys | apply createClientImage_keys | apply destroyClientImage_keys | apply setWindowSurface_keys
    | apply keys_of_tables, bindContext_keeps | apply keys_of_tables, flushWindow_keeps
    | apply keys_of_tables, bindToTexture_keeps
    | apply quiet_bind; [|intros ?]
    | progress case_match ].

Lemma quiet_call c d f0 :
  zlookup (handlers split tan gbm fresh indeterminate unwritten) (op (remote c) - base_opcode) = Some f0 ->
  quiet (f0 (args (remote c))) -> is_Some (on c (Some d)).2 -> same_held (Some d) (on c (Some d)).2.
Proof.
  intros Hf0 Hq. unfold on. rewrite (on_daemon_handler _ _ _ _ _ _ _ _ _ Hf0).
  destruct (f0 (args (remote c)) d) as [[outs d']|] eqn:Hd; [|by intros []]. intros _. by apply (Hq d outs d').
Qed.

Lemma neutral_held c d : neutral c = true -> is_Some (on c (Some d)).2 -> same_held (Some d) (on c (Some d)).2.
Proof.
  intros Hc. destruct c; try done; (eapply quiet_call; [reflexivity|]); cbn [remote args].
  all: unfold fn1, fn2, fn3, on_scalars, text_reply, choose_config, on_rc_some; cbn [scalar_values fmap option_fmap option_map].
  all: unfold rcChooseConfig, rcFBSetSwapInterval; quiet_tac.
Qed.

(** ** Answers *)

Lemma answer_sizes c d : fits c -> exists ls, (on c (Some d)).1 = cells ls /\ lengths ls = (packed c).2.
Proof.
  intros Hc. unfold on, on_daemon. eexists. split; [reflexivity|].
  destruct (packed_is_ok c Hc) as [_ _ _ _ _ Ha _ (e & He & Hv & _)].
  pose proof (exec_sizes split tan gbm fresh indeterminate unwritten fresh_size _ _ (Some d, checksum_new) e He Hv Ha) as Hs.
  destruct c; cbn [remote op args] in *; vm_compute in He; injection He as <-;
    cbn [packed snd seen has_retval out_sizes app] in *; try exact Hs.
  set (ls := (exec _ _ _ _ _ _ _ _ _).1) in *. destruct configs; [exact Hs|].
  destruct ls as [|l ls]; [done|]. by injection Hs as _ Hs.
Qed.

Lemma filled_int d z : filled fresh 4 (int z) d = Some (int z, d).
Proof.
  unfold filled, Service.getd. rewrite zlen_int. change (4 <? 4) with false. cbv iota beta.
  by rewrite zdrop_all, app_nil_r by (rewrite fresh_size; lia).
Qed.

Lemma call_ends c d f0 :
  zlookup (handlers split tan gbm fresh indeterminate unwritten) (op (remote c) - base_opcode) = Some f0 ->
  is_Some (on c (Some d)).2 ->
  exists outs d', f0 (args (remote c)) d = Some (outs, d') /\ on c (Some d) = (cells (seen c outs), Some d').
Proof.
  intros Hf0. unfold on. rewrite (on_daemon_handler _ _ _ _ _ _ _ _ _ Hf0).
  destruct (f0 (args (remote c)) d) as [[outs d']|]; [by eexists _, _|by intros []].
Qed.

Lemma counts_answer configs d : has_room configs d -> is_Some (on GetNumConfigs (Some d)).2 ->
  (on GetNumConfigs (Some d)).1 = [word kConfigAttributesLen; word configs].
Proof.
  intros Hroom Hs. edestruct call_ends as (outs & d' & Hrun & ->); [reflexivity|done|]. clear Hs. revert Hrun.
  cbn [remote args]. unfold Service.getd. unfold mbind at 1, Run_bind at 1. unfold has_room in Hroom.
  destruct (d_renderer d) as [f|]; [|done]. unfold mbind, Run_bind. cbn [rcGetNumConfigs getPackInfo fst snd].
  rewrite filled_int. destruct Hroom as [_ ->]. by intros [= <- _].
Qed.

(** The text [rcQueryEGLString] answers with; it is not of gigabytes. *)
Definition egl_text (d : D) (name : Z) : string :=
  let result := Gl.eglQueryString d name in
  if name =? EGL_EXTENSIONS then filter_extensions split result egl_whitelist else result.

Lemma c_chars_end l r : is_Some (c_chars (Some <$> l ++ 0 :: r)).
Proof.
  induction l as [|b l IH]; [by eexists|]. cbn. destruct (b =? 0); [by eexists|]. destruct IH as [x Hx].
  change (List.map Some (l ++ 0 :: r)) with (Some <$> l ++ 0 :: r). rewrite Hx. by eexists.
Qed.

Lemma int_of_int z : int_of (int z) = i32 z.
Proof.
  unfold int_of, int. rewrite <- le4_wrap, (le_value_little_endian 4) by (apply wrapu_range; lia).
  pose proof (i32_mul_words 1 z) as Hz. rewrite !Z.mul_1_l in Hz. rewrite <- Hz.
  symmetry. apply wraps_id; [done|]. by apply wraps_range.
Qed.

Lemma text_reply_ends n len s d outs d' :
  text_reply fresh n (len, Some s) d = Some (outs, d') -> exists l r, outs = [l; r] /\ is_Some (c_chars (Some <$> l)).
Proof.
  unfold text_reply, filled, Service.getd, mbind, Run_bind. cbn [snd]. destruct (_ <? _); [done|].
  intros [= <- _]. eexists _, _. split; [reflexivity|]. rewrite <- app_assoc. apply c_chars_end.
Qed.

Lemma cells_inj l l' : cells l = cells l' -> l = l'.
Proof. intros Hl. apply (f_equal (mapM all_some)) in Hl. rewrite !cells_all in Hl. congruence. Qed.

Lemma text_reply_parts n len s d outs d' : text_reply fresh n (len, s) d = Some (outs, d') ->
  exists l, outs = [l; int len] /\ (is_Some s -> is_Some (c_chars (Some <$> l))).
Proof.
  unfold text_reply, filled, Service.getd, mbind, Run_bind. cbn [fst snd]. destruct (_ <? _); [done|].
  intros [= <- _]. eexists. split; [reflexivity|]. intros [x ->]. rewrite <- app_assoc. apply c_chars_end.
Qed.

Lemma text_answer d name n l r :
  (forall w k, Z.of_nat (String.length (egl_text w k)) < 2 ^ 31 - 1) -> is_Some (on (QueryEGLString name n) (Some d)).2 ->
  (on (QueryEGLString name n) (Some d)).1 = cells [l; r] -> 0 < int_of r -> is_Some (c_chars (Some <$> l)).
Proof.
  intros Hfit Hs. edestruct call_ends as (outs & d' & Hrun & ->); [reflexivity|done|]. clear Hs.
  intros Hl%cells_inj. cbn [seen] in Hl. subst outs. cbn [remote args] in Hrun. revert Hrun.
  unfold rcQueryEGLString. unfold mbind at 1, Run_bind at 1. rewrite on_rc_renderer.
  destruct (d_renderer d) as [f|].
  2: { intros (l' & [= -> ->] & _)%text_reply_parts. by rewrite int_of_int. }
  cbn [gets fst]. set (res := Gl.eglQueryString _ _). specialize (Hfit (w_drv (f_world f)) (u32 name)).
  unfold egl_text in Hfit. fold res in Hfit. destruct (String.eqb res "").
  { intros (l' & [= -> ->] & _)%text_reply_parts. by rewrite int_of_int. }
  set (t := if _ =? _ then _ else res) in *. unfold RenderControl.answer. cbn [negb orb].
  rewrite (wraps_id 32 (Z.of_nat _)) by (unfold in_s; lia). rewrite !(wraps_id 32 (_ + 1)) by (unfold in_s; lia).
  destruct (_ <? _); intros (l' & [= -> ->] & Hc)%text_reply_parts.
  - rewrite int_of_int, !wraps_id by (unfold in_s; try apply wraps_range; lia). lia.
  - intros _. apply Hc. by eexists.
Qed.

Lemma choose_loop_some g (drv : D) cl matched size : forall out n0, exists n out',
  choose_loop g drv cl matched (Some out) size n0 = (n, Some out').
Proof.
  induction matched as [|m rest IH]; intros out n0; cbn [choose_loop]; [by eexists _, _|].
  destruct (_ && _); [by eexists _, _|]. destruct (negb _); [apply IH|]. destruct (find_config _ _ _); apply IH.
Qed.

Lemma chooseConfig_some g (drv : D) cl l size r : chooseConfig g drv cl l true size = Some r -> exists n out, r = (n, Some out).
Proof.
  unfold chooseConfig. destruct (Gl.eglGetConfigs drv); [|intros [= <-]; by eexists _, _].
  destruct (attrib_pairs l); [|done]. cbn. intros [= <-].
  destruct (choose_loop_some g drv cl (default [] (Gl.eglChooseConfig drv (flatten (newAttribs l1) ++ [EGL_NONE]) (zlen l0)))
    size [] 0) as (n & out & ->). by eexists _, _.
Qed.

Lemma choice_answer configs d l size n tmp r :
  in_u 32 configs -> has_room configs d -> fits (ChooseConfig l size true n) -> n <> 0 ->
  is_Some (on (ChooseConfig l size true n) (Some d)).2 ->
  (on (ChooseConfig l size true n) (Some d)).1 = cells [tmp; r] -> int_of r <= n.
Proof.
  intros Hc Hroom (Hl & Hs & Hn) Hne Hd. edestruct call_ends as (outs & d' & Hrun & ->); [reflexivity|done|]. clear Hd.
  intros Ho%cells_inj. cbn [seen] in Ho. subst outs. cbn [remote args] in Hrun. revert Hrun.
  rewrite (wrapu_id 32 (n * 4)), (wrapu_id 32 n) by (unfold in_u; lia).
  unfold choose_config, on_rc_some, rcChooseConfig. set (at_ := ints _). replace (n * 4 =? 0) with false by lia. cbn [negb].
  rewrite (wraps_id 32 n) by (unfold in_s; lia).
  assert (Hend : forall a l d, (b ← filled fresh (n * 4) l; mret [b; int a]) d = Some ([tmp; r], d') ->
    in_s 32 a -> a <= n -> int_of r <= n).
  { intros a b d0. unfold filled, mbind, Run_bind. destruct (_ <? _); [done|]. intros [= _ <- _] Ha Hle.
    by rewrite int_of_int, wraps_id. }
  destruct (u32 size =? 0).
  { intros Hrun. apply (Hend 0 [] _ Hrun); [done|lia]. }
  unfold mbind, Run_bind in *. rewrite on_rc_renderer. unfold has_room in Hroom. cbn [gets fst].
  destruct (d_renderer d) as [f|].
  2: { intros Hrun. apply (Hend 0 [] _ Hrun); [done|lia]. }
  destruct (chooseConfig _ _ _ _ _ _) as [[a out]|] eqn:Hch; [|done].
  destruct (chooseConfig_some _ _ _ _ _ _ Hch) as (a' & out' & [= -> ->]).
  apply choose_config_bounds in Hch as (H1 & H2 & _).
  2: { destruct Hroom as [_ ->]. by apply Hc. }
  intros Hrun. pose proof (zlen_nonneg out'). apply (Hend a' _ _ Hrun); [unfold in_s|]; specialize (H2 ltac:(lia)); lia.
Qed.

(** ** The promise of [EglHost] *)

Variable configs : Z.
Hypothesis configs_fit : 0 <= configs /\ kConfigAttributesLen * (configs + 1) < 2 ^ 28.
Hypothesis text_fits : forall w k, Z.of_nat (String.length (egl_text w k)) < 2 ^ 31 - 1.

Lemma configs_range : in_u 32 configs.
Proof. assert (0 < kConfigAttributesLen) by done. unfold in_u. nia. Qed.

#[export, refine] Instance egl_daemon : EglHost on_thread :=
  {| held := fun s => held_by (c_daemon s);
     serves := fun t c s => survives configs c (c_daemon (switch_to t s));
     config_count := configs;
     config_attribs := kConfigAttributesLen |}.
Proof.
  - destruct configs_fit. split; [done|]. by split.
  - intros s k h. unfold held_by. destruct (_ ≫= _); [apply held_tables_nonneg|done].
  - intros t c s (d & Hd & _ & Hc & _). unfold on_thread. rewrite Hd. by apply answer_sizes.
  - intros t c k s Hm (d & Hd & _ & _ & Hroom). unfold on_thread. cbn [fst snd c_daemon]. rewrite Hd.
    destruct (makes_held configs c k d Hm Hroom) as (h & Hh & Hans & Hheld). exists h. split; [done|]. split; [done|].
    intros k' h' Hne. by rewrite Hheld, <- Hd, held_switch.
  - intros t c k h s Hm (d & Hd & _) Hpos k' h' _. unfold on_thread. cbn [fst snd c_daemon].
    rewrite <- (held_switch t), Hd in Hpos. rewrite <- (held_switch t s k'), Hd. by apply drops_held.
  - intros t c s Hn (d & Hd & Hs & _) k h. unfold on_thread. cbn [fst snd c_daemon].
    rewrite <- (held_switch t s), Hd. by apply neutral_held.
  - intros t s (d & Hd & Hs & _ & Hroom). unfold on_thread. rewrite Hd. by apply counts_answer.
  - intros t name n s l r (d & Hd & Hs & _). unfold on_thread. rewrite Hd. by apply text_answer.
  - intros t l size n s tmp r (d & Hd & Hs & Hc & Hroom). unfold on_thread. rewrite Hd. intros Hl Hne.
    by eapply (choice_answer configs d l size n); [apply configs_range|..].
Defined.
End daemon.

(** ** A process and its daemon *)

Section alive.
Context {D : Type} `{HD : Driver D} `{HA : Android, HK : Kernel, HUi : AndroidUi}.
Variable split : string -> list string.
Variable tan : spec_float -> spec_float.
Variable gbm : Gbm.
Variable fresh : Daemon D -> Z -> list Z.
Variables indeterminate unwritten : Z.
Variable become : Z -> D -> D.
Variable configs : Z.

#[local] Abbreviation host := (on_thread split tan gbm fresh indeterminate unwritten become).
#[local] Abbreviation survives := (survives split tan gbm fresh indeterminate unwritten configs).
#[local] Abbreviation serving := (fun t c s => survives c (c_daemon (switch_to become t s))).

Lemma alive_run {R} t (p : client R) : forall s, all_served (host t) (serving t) p s ->
  is_Some (c_daemon s) -> is_Some (c_daemon (run_with (host t) p s).2).
Proof.
  induction p as [a|p IH|c k IH]; intros s; cbn [all_served run_with]; [done|apply IH|].
  intros [(d & Hd & Hs & _) Hk] _. apply IH; [done|]. unfold on_thread. by rewrite Hd.
Qed.

Lemma alive_calls fresh_size configs_fit text_fits s_display getProcAddress l : forall e s e' s',
  all_legal host (HH := egl_daemon split tan gbm fresh indeterminate unwritten fresh_size become configs configs_fit text_fits)
    s_display getProcAddress l e s ->
  is_Some (c_daemon s) -> run_calls host s_display getProcAddress l e s = Some (e', s') -> is_Some (c_daemon s').
Proof.
  induction l as [|[[t con] c] l IH]; intros e s e' s' Hl Hs Hrun; [by injection Hrun as _ <-|].
  destruct Hl as (_ & Hserved & Hl). cbn [run_calls] in Hrun. apply alive_run in Hserved; [|done].
  destruct (run_with _ _ s) as [[[] e1| |] s1]; [|done..]. by apply (IH e1 s1 e').
Qed.

(** What can be computed of it. *)
Definition fits_now (c : rc_call) : bool :=
  match c with
  | QueryEGLString _ n | GetGLString _ n | GetConfigs n => (0 <=? n) && (n <? 2 ^ 30)
  | ChooseConfig attribs n _ m =>
      (0 <=? n) && (n <=? zlen attribs) && (n <? 2 ^ 29) && (0 <=? m) && (m <? 2 ^ 27)
  | ReadColorBuffer _ _ _ _ _ _ _ | UpdateColorBuffer _ _ _ _ _ _ _ _ | PostLayer _ _ _ _ _ _ _ _ _ _ _ => false
  | _ => true
  end.

Definition survives_now (c : rc_call) (d : option (Daemon D)) : bool :=
  match d with
  | Some d =>
      bool_decide (is_Some (on_daemon split tan gbm fresh indeterminate unwritten c (Some d)).2) && fits_now c &&
      match d_renderer d with
      | Some f => table_ready_now (w_tables (f_world f)) &&
                  (zlen (RenderState.m_configs (w_display (f_world f))) =? configs)
      | None => true
      end
  | None => false
  end.

Lemma survives_check c d : survives_now c d = true -> survives c d.
Proof.
  destruct d as [d|]; [|done]. cbn [survives_now]. rewrite !andb_true_iff. intros [[Hs Hc] Hr]. exists d.
  split; [done|]. split; [by apply bool_decide_eq_true in Hs|]. split.
  - destruct c; try done; cbn [fits_now fits] in *; lia.
  - unfold has_room. destruct (d_renderer d) as [f|]; [|done]. apply andb_true_iff in Hr as [Hr Hn].
    split; [by apply table_ready_check|lia].
Qed.

Fixpoint served_now {R} (t : Z) (p : client R) (s : RenderThreads) : bool :=
  match p with
  | Done _ => true
  | Flush k => served_now t k s
  | Call c k => survives_now c (c_daemon (switch_to become t s)) && served_now t (k (host t c s).1) (host t c s).2
  end.

Lemma served_check {R} t (p : client R) : forall s, served_now t p s = true -> all_served (host t) (serving t) p s.
Proof.
  induction p as [a|p IH|c k IH]; intros s; cbn [served_now all_served]; [done|apply IH|].
  intros [H1 H2]%andb_true_iff. split; [by apply survives_check|by apply IH].
Qed.

Lemma egl_served {R} fresh_size configs_fit text_fits t (p : client R) s : served_now t p s = true ->
  let promise := egl_daemon split tan gbm fresh indeterminate unwritten fresh_size become configs configs_fit text_fits in
  all_served (host t) (serves t) p s.
Proof. apply served_check. Qed.
End alive.


(** *** Two threads *)

Definition aosp_ui : AndroidUi := {|
  PIXEL_FORMAT_RGBA_8888 := 1; PIXEL_FORMAT_RGBX_8888 := 2; PIXEL_FORMAT_RGB_565 := 4; PIXEL_FORMAT_RGBA_5551 := 6;
  PIXEL_FORMAT_RGBA_4444 := 7; ANDROID_NATIVE_WINDOW_MAGIC := 0x5f776e64; ANDROID_NATIVE_BUFFER_MAGIC := 0x5f626672;
  sizeof_native_buffer := 168 |}.

(** A driver with a configuration of four times eight bits. *)
Definition one_config : Toy :=
  mkToy (0, 0, 0) 1 false
    [(10, [(EGL_SURFACE_TYPE, 5); (EGL_RED_SIZE, 8); (EGL_GREEN_SIZE, 8); (EGL_BLUE_SIZE, 8); (0x3021, 8);
           (EGL_CONFIG_ID, 1)])] [].

Definition egl_host_daemon : Daemon Toy :=
  mkDaemon
    (Some (mkFrames
      (mkWorld one_config (RenderState.mkDisplay (RendererConfigList_new 0 one_config) true 1 4 1 0 2 (mkTD 1 2 3 0 1 0 4 5))
         (mkSaved 0 0 0) (mkTables 3 ∅ ∅ ∅) (mkHeap ∅ ∅ ∅ 1) info_new [])
      ∅ ∅ (mkProgram 501 0 0 1 2 3 4 5 (-1)) (mkProgram 502 0 0 1 2 3 4 5 6) 10))
    (set_resolution 1280 720) None (mkDesktop (fun _ => None) (fun _ => mkRect 0 0 0 0) (fun w => w)) [].

(** The first thread draws to a pixel buffer, and gives all of it back; the second makes a
    context of its own meanwhile. *)
Definition two_threads : list (Z * bool * egl_call) := [
  (1, true, EInitialize 7 (Loaded true) (Loaded true));
  (1, true, ECreateContext 7 0 0 None);
  (1, true, ECreatePbufferSurface 7 0 (Some [EGL_WIDTH; 16; EGL_HEIGHT; 16; EGL_NONE]));
  (1, true, EMakeCurrent 7 2 2 1);
  (2, true, ECreateContext 7 0 1 None);
  (1, true, EMakeCurrent 7 0 0 0);
  (1, true, EDestroySurface 7 2);
  (1, true, EDestroyContext 7 1)].


(** The threads are those that have called, and others that have nothing. *)
Lemma on_threads (Q : Z -> EGLThreadInfo -> Prop) e :
  (forall t, Q t thread_new) -> Forall (uncurry Q) (map_to_list (threads e)) -> forall t, Q t (thread_of t e).
Proof.
  intros Hnew HQ t. unfold thread_of. destruct (threads e !! t) as [i|] eqn:Hi; [|apply Hnew].
  apply elem_of_map_to_list in Hi. rewrite Forall_forall in HQ. by apply (HQ (t, i)).
Qed.

Lemma forallb_all {A} (f : A -> bool) l : forallb f l = true -> Forall (fun x => f x = true) l.
Proof. induction l as [|x l IH]; cbn; [done|]. intros [H1 H2]%andb_true_iff. constructor; auto. Qed.

Definition marked_now e (t ctx : Z) : bool :=
  forallb (fun '(t', i) => (t' =? t) || negb (currentContext i =? ctx) ||
    match contexts e !! ctx with Some c => has_bit (c_flags c) IS_CURRENT | None => true end) (map_to_list (threads e)).

Lemma marked_check e t ctx : marked_now e t ctx = true -> 0 < ctx -> marked e t ctx.
Proof.
  intros Hm Hpos t' c Ht Hcur Hc. unfold marked_now in Hm. rewrite Hc in Hm. revert Ht Hcur.
  apply forallb_all in Hm.
  apply (on_threads (fun t' i => t' <> t -> currentContext i = ctx -> _)); [cbn; lia|].
  eapply Forall_impl; [exact Hm|]. intros [t1 i] H1 Ht1 Hcur. cbn in *.
  rewrite !orb_true_iff in H1. destruct H1 as [[H1|H1]|H1]; [lia|lia|done].
Qed.

Definition unused_now e (p : Z) : bool :=
  forallb (fun '(_, i) => match contexts e !! currentContext i with
    | Some c => negb (c_draw c =? p) && negb (c_read c =? p) | None => true end) ((0, thread_new) :: map_to_list (threads e)).

Lemma unused_check e p : unused_now e p = true -> unused_surface e p.
Proof.
  unfold unused_now. intros Hu%forallb_all t. apply Forall_cons in Hu as [H0 Hu].
  assert (Hone : forall i, (match contexts e !! currentContext i with
    | Some c => negb (c_draw c =? p) && negb (c_read c =? p) | None => true end) = true ->
    forall c, contexts e !! currentContext i = Some c -> c_draw c <> p /\ c_read c <> p).
  { intros i Hi c Hc. rewrite Hc in Hi. lia. }
  apply (on_threads (fun t i => forall c, contexts e !! currentContext i = Some c -> c_draw c <> p /\ c_read c <> p)).
  - intros _. exact (Hone _ H0).
  - eapply Forall_impl; [exact Hu|]. intros [t1 i] H1. exact (Hone _ H1).
Qed.

Definition nobody_else_now e (t p : Z) : bool :=
  forallb (fun '(t', i) => (t' =? t) || negb (currentContext i =? p)) (map_to_list (threads e)).

Lemma nobody_else_check e t p : nobody_else_now e t p = true ->
  forall t', t' <> t -> p <> 0 -> currentContext (thread_of t' e) <> p.
Proof.
  unfold nobody_else_now. intros Hn%forallb_all.
  apply (on_threads (fun t' i => t' <> t -> p <> 0 -> currentContext i <> p)); [cbn; lia|].
  eapply Forall_impl; [exact Hn|]. intros [t1 i] H1. cbn in *. lia.
Qed.

(** That a call is legal can be computed, where the application passes usual arguments. *)
Definition live_now {A} (m : gmap Z A) (p : Z) : bool := (p =? 0) || bool_decide (is_Some (m !! p)).

Lemma live_check {A} (m : gmap Z A) p : live_now m p = true -> live m p.
Proof. unfold live_now. case_bool_decide; [by right|]. intros Hp. left. lia. Qed.

Definition iface_now e (ctx : Z) : bool :=
  match contexts e !! ctx with
  | Some c => if c_version c =? 2 then m_gles2_iface (EglDisplay.display e) else m_gles_iface (EglDisplay.display e)
  | None => true
  end.

Definition legal_now (t : Z) (con : bool) (c : egl_call) e : bool :=
  match c with
  | EInitialize _ _ _ => true
  | ECreateContext _ config share None => negb (config =? m_numConfigs (EglDisplay.display e)) && live_now (contexts e) share
  | ECreatePbufferSurface _ config (Some [a; _; b; _; z]) =>
      negb (config =? m_numConfigs (EglDisplay.display e)) && (a =? EGL_WIDTH) && (b =? EGL_HEIGHT) && (z =? EGL_NONE)
  | EMakeCurrent _ draw read ctx =>
      live_now (surfaces e) draw && live_now (surfaces e) read && live_now (contexts e) ctx && iface_now e ctx &&
      ((ctx =? 0) || (0 <? ctx) && marked_now e t ctx)
  | EDestroySurface _ p => live_now (surfaces e) p && unused_now e p && con
  | EDestroyContext _ p => live_now (contexts e) p && nobody_else_now e t p
  | _ => false
  end.

Lemma legal_check t con c e : contexts e !! 0 = None -> legal_now t con c e = true -> legal t con c e.
Proof.
  intros H0. destruct c; try done; cbn [legal_now legal].
  - destruct attrib_list as [[|a [|w [|b [|h [|z [|]]]]]]|]; try done. rewrite !andb_true_iff.
    intros [[[Hc Ha%Z.eqb_eq] Hb%Z.eqb_eq] Hz%Z.eqb_eq]. subst. split; [unfold a_config_argument; lia|].
    by eexists.
  - rewrite !andb_true_iff. intros [[Hp Hu] ->]. split; [by apply live_check|]. split; [by apply unused_check|done].
  - destruct attrib_list; [done|]. rewrite andb_true_iff. intros [Hc Hp].
    split; [unfold a_config_argument; lia|]. split; [by apply live_check|done].
  - rewrite andb_true_iff. intros [Hp Hn]. split; [by apply live_check|]. by apply nobody_else_check.
  - rewrite !andb_true_iff. intros [[[[Hd Hr] Hc] Hi] Hm]. split_and!; try by apply live_check.
    + intros c Hctx. unfold iface_now, iface_there in *. rewrite Hctx in Hi. by destruct (_ =? 2).
    + destruct (Z.eqb_spec ctx 0) as [->|]; [intros t' c _ _ Hc0; congruence|].
      apply andb_true_iff in Hm as [Hpos Hm]. apply marked_check; [done|lia].
Qed.

Section check.
Context {D : Type} `{HD : Driver D} `{HA : Android} `{HK : Kernel} `{HUi : AndroidUi}.
Variable split : string -> list string.
Variable tan : spec_float -> spec_float.
Variable gbm : Gbm.
Variable fresh : Daemon D -> Z -> list Z.
Variables indeterminate unwritten : Z.
Variable become : Z -> D -> D.
Variables configs s_display : Z.
Variable getProcAddress : Z -> string -> bool.

#[local] Abbreviation host := (on_thread split tan gbm fresh indeterminate unwritten become).

Fixpoint all_legal_now (l : list (Z * bool * egl_call)) e s : bool :=
  match l with
  | [] => true
  | (t, con, c) :: l =>
      let p := perform s_display getProcAddress t con c e in
      negb (bool_decide (is_Some (contexts e !! 0))) && legal_now t con c e &&
      served_now split tan gbm fresh indeterminate unwritten become configs t p s &&
      match run_with (host t) p s with (Value _ e, s) => all_legal_now l e s | _ => true end
  end.

Lemma all_legal_check fresh_size configs_fit text_fits l : forall e s, all_legal_now l e s = true ->
  all_legal host (HH := egl_daemon split tan gbm fresh indeterminate unwritten fresh_size become configs configs_fit text_fits)
    s_display getProcAddress l e s.
Proof.
  induction l as [|[[t con] c] l IH]; intros e s; [done|]. cbn [all_legal_now all_legal]. rewrite !andb_true_iff.
  intros [[[H0 Hc] Hs] Hl]. split; [|split].
  - apply legal_check; [|done]. apply eq_None_not_Some. by case_bool_decide.
  - by apply egl_served.
  - destruct (run_with _ _ s) as [[[] e1| |] s1]; [by apply IH|done..].
Qed.
End check.

Section example.
#[local] Existing Instance aosp.
#[local] Existing Instance aosp_ui.
#[local] Existing Instance simple_kernel.

Lemma toy_text_fits : forall (d : Toy) k, Z.of_nat (String.length (egl_text (fun s => [s]) d k)) < 2 ^ 31 - 1.
Proof. intros d k. unfold egl_text. cbn [Gl.eglQueryString toy_driver]. by destruct (_ =? _). Qed.

Lemma egl_host_daemon_empty : forall k h, held_by (Some egl_host_daemon) k h = 0.
Proof. intros k h. unfold held_by, held_tables. cbn. destruct (_ && _); [|done]. destruct k; cbn; try done. unfold table_refs. by destruct (_ && _). Qed.


(** *** What EGL allows and the code does not cope with *)

Definition egl_run (l : list (Z * bool * egl_call)) : option (EglState * RenderThreads) :=
  run_calls (on_thread (fun s => [s]) example_tan (Planes 1) zeros 0 0 (fun _ d => d)) 7 (fun _ _ => true)
    l egl_new (mkRenderThreads (Some egl_host_daemon) 0 ∅).

(** A function of EGL follows a pointer that leads nowhere. *)
Definition crashes (l : list (Z * bool * egl_call)) : bool := negb (bool_decide (is_Some (egl_run l))).

Definition egl_started : list (Z * bool * egl_call) := take 1 two_threads.
Definition egl_drawing : list (Z * bool * egl_call) := take 4 two_threads.

(** [VALIDATE_CONFIG] lets the number of configurations pass for one. *)
Lemma config_off_by_one :
  crashes (egl_started ++ [(1, true, EGetConfigAttrib 7 0 EGL_RED_SIZE)]) = false /\
  crashes (egl_started ++ [(1, true, EGetConfigAttrib 7 1 EGL_RED_SIZE)]) = true.
Proof. split; by vm_compute. Qed.

(** A context that another thread has current is destroyed at once. *)
Lemma current_context_destroyed :
  crashes (egl_drawing ++ [(1, true, EWaitGL)]) = false /\
  crashes (egl_drawing ++ [(2, true, EDestroyContext 7 1); (1, true, EWaitGL)]) = true.
Proof. split; by vm_compute. Qed.

(** A surface that is current is destroyed at once; the context still has it. *)
Lemma current_surface_destroyed :
  crashes (egl_drawing ++ [(1, true, ESwapInterval 7 1)]) = false /\
  crashes (egl_drawing ++ [(1, true, EDestroySurface 7 2); (1, true, ESwapInterval 7 1)]) = true.
Proof. split; by vm_compute. Qed.

(** Null pointers that EGL allows, or has an error for. *)
Lemma null_pointers_followed :
  crashes (egl_started ++ [(1, true, EQuerySurface 7 0 EGL_WIDTH)]) = true /\
  crashes (egl_started ++ [(1, true, ECreatePbufferSurface 7 0 None)]) = true /\
  crashes (egl_started ++ [(1, true, EChooseConfig 7 None false 0 false)]) = true.
Proof. split_and!; by vm_compute. Qed.

(** A constant of the library is freed, after a query that found no host. *)
Lemma literal_freed :
  crashes (egl_started ++ [(1, true, EQueryString 7 EGL_VENDOR); (1, true, ETerminate 7)]) = false /\
  crashes (egl_started ++ [(1, false, EQueryString 7 EGL_VENDOR); (1, true, ETerminate 7)]) = true.
Proof. split; by vm_compute. Qed.

(** A context of version 2 is made, and crashes when it is made current, without the
    library for it. *)
Lemma library_missing :
  let version_2 := ECreateContext 7 0 0 (Some [EGL_CONTEXT_CLIENT_VERSION; 2; EGL_NONE]) in
  let rest := (1, true, version_2) :: drop 2 egl_drawing in
  crashes ((1, true, EInitialize 7 (Loaded true) (Loaded true)) :: rest) = false /\
  crashes ((1, true, EInitialize 7 (Loaded true) NoLibrary) :: rest) = true.
Proof. split; by vm_compute. Qed.

(** A thread that makes its context current anew, with another surface, loses the mark on
    it: another thread can take it as well. *)
Lemma context_current_twice :
  let take_it := (2, true, EMakeCurrent 7 2 2 1) in
  let other := ECreatePbufferSurface 7 0 (Some [EGL_WIDTH; 16; EGL_HEIGHT; 16; EGL_NONE]) in
  let current l := (fun x => (fun t => currentContext (thread_of t x.1)) <$> [1; 2]) <$> egl_run l in
  current (egl_drawing ++ [take_it]) = Some [1; 0] /\
  current (egl_drawing ++ [(1, true, other); (1, true, EMakeCurrent 7 3 3 1); take_it]) = Some [1; 1].
Proof. split; by vm_compute. Qed.
End example.
